(* ===== verification/_CoqProject ===== *)
-Q . S2P
Prelude.v
Json.v
Contracts.v
ContractFacts.v
JobModels.v
JobLedger.v
Sample.v
ContractTheorems.v
ProviderAdmission.v
Governance.v
GovernanceTheorems.v
Authority.v
AuthorityTheorems.v
Utf8.v
Inference.v
Execution.v
ExecutionLedgers.v
Storage.v
Extraction.v
ExtractionTheorems.v
DigestModels.v
DigestPlanning.v
DigestPlanFacts.v
DigestPlanSource.v
DigestPlanTree.v
DigestPlanReduce.v
DigestPlanForest.v
DigestPlanTheorems.v
DigestValidation.v
ModelClients.v
DigestArtifacts.v
DigestFlow.v
DigestCoverage.v
DigestInference.v
DigestTheorems.v
DigestWitnesses.v
DigestWorkflow.v
DigestSteps.v
DigestStepsTheorems.v
Managed.v
ManagedTheorems.v
Publication.v
PublicationAuthority.v
PublicationPlan.v
PublicationPlanTheorems.v
PublicationAccepted.v
PublicationSource.v
PublicationSourceWitness.v
Rag.v
PublicationWorld.v
PublicationService.v
Retrieval.v
Analysis.v
PublicationRefinement.v
RetrievalTheorems.v
PublicationTheorems.v
Citations.v
JobFacts.v
JobInvariant.v
JobCoherence.v
JobEvolution.v
JobOps.v
JobCommit.v
JobAdmit.v
JobHistory.v
JobTheorems.v
JobProgress.v
JobPolicies.v
Worker.v
WorkerTheorems.v
JobWitnesses.v
Memory.v
MemoryTheorems.v
Conversation.v
Identity.v
IdentityTheorems.v
Gateway.v
Services.v
ServicesTheorems.v
PublicationRun.v
