(* ===== verification/Prelude.v ===== *)
(** * Estudio PolyMind: verification of the document, governance and security planes

    Estudio PolyMind answers questions over uploaded documents with language models.  This library
    translates the parts of [src/] that keep state, take decisions or guard data into functions on
    explicit states and proves what they guarantee.  Network clients, user interface, metrics and the
    embedding of the process in its host are outside; where the modelled code uses them they are
    parameters.  This file holds what every other file shares: results and transactions, the
    tactics [tx_inv] and the like, hint databases, and lemmas on lists, options and tables.

    ** The program and its model

    A document goes through these parts, each behind the next one's back only through what is
    named here.

    - Contracts ([documents/models.py], [policy.py], [provenance.py]).  Identifiers are hashes of
      canonical JSON; extraction artifacts carry blocks and evidence of half-open character
      intervals.  [Json], [Contracts]; facts and theorems in [ContractFacts], [ContractTheorems].
    - Extraction ([documents/parser.py], [extraction.py], [serialization.py], [config.py]): bytes to
      units, blocks and an artifact in the store.  [Utf8], [Extraction]; [ExtractionTheorems].
    - Object store ([documents/storage.py]): the class [ObjectStore] with its laws; the local
      store is an instance.  [Storage].
    - Job ledger ([documents/jobs/sqlite.py], [ledger.py], [models.py], [errors.py]): jobs, steps,
      attempts, leases, manifests, dispatch, objects.  [JobModels], [JobLedger]: a record of tables,
      one transaction per method.  [JobFacts], [JobInvariant], [JobCoherence], [JobEvolution],
      [JobOps], [JobCommit], [JobAdmit] carry the invariant and the transition
      diagrams through every method; [JobHistory] defines histories of calls (and reconciliation);
      [JobTheorems], [JobProgress], [JobPolicies] state the results, [JobWitnesses] runs them.
    - Workers and the job service ([documents/jobs/worker.py], [service.py]): a handler is a program
      over the store it is given; a worker interprets it between ledger calls, under the intent
      store.  [Worker], [WorkerTheorems].
    - Digestion ([documents/digestion/]): planning ([planning.py], [sizing.py]: [DigestModels],
      [DigestPlanning]; proofs in [DigestPlanFacts], [DigestPlanSource], [DigestPlanTree],
      [DigestPlanReduce], [DigestPlanForest], [DigestPlanTheorems]), validation and assembly
      ([validation.py], [codec.py]: [DigestValidation], [DigestArtifacts], [DigestFlow]; proofs in
      [DigestCoverage], [DigestTheorems]), the local inference ([inference.py]:
      [DigestInference]), the steps and their handler ([workflow.py], [codec.py]:
      [DigestWorkflow], [DigestSteps]; [DigestStepsTheorems]), and the managed inference
      ([managed.py]: [Managed]; [ManagedTheorems]).  [DigestWitnesses] runs a digestion.
    - Model calls: the contracts of a bounded generation and the strict schema subset
      ([llm/inference.py], [structured.py], [operational.py], [azure_schema.py]: [Inference]); the bounded HTTP
      exchange and the [execute] methods of both providers ([llm/bounded_http.py],
      [openai_compatible.py], [ollama_client.py]: [ModelClients]); the shared provider quota
      ([llm/admission.py]: [ProviderAdmission]).
    - Governance ([governance/ledger.py]: [Governance], [GovernanceTheorems];
      [governance/execution.py]: [Execution], [ExecutionLedgers]): prices and quotas, and one inference under a
      reservation and a provider ticket.
    - Publication ([documents/publication/]): the activation authority ([authority.py], [models.py]:
      [Publication], [PublicationAuthority]), splitting and records ([encoding.py], [planning.py]:
      [PublicationPlan], [PublicationPlanTheorems], [PublicationAccepted], [PublicationSource],
      [PublicationSourceWitness]), the service ([service.py], [workflow.py]: [PublicationWorld],
      [PublicationService], [PublicationTheorems]), retrieval and citations ([retrieval.py], with
      [rag/vector_store.py], [bm25.py], [hybrid_retriever.py], [reranker.py]: [Rag], [Retrieval],
      [RetrievalTheorems], [Citations]), the analysis ([analysis.py]: [Analysis]), all as
      histories of the stores ([PublicationRefinement]), run in [PublicationRun].
    - Security: principals, documents, grants, epochs and the audit log ([security/authority.py],
      [models.py]: [Authority], [AuthorityTheorems]); tokens and the key cache ([identity.py]:
      [Identity], [IdentityTheorems]); jobs, analysis and publication behind the authority
      ([services.py]: [Services], [ServicesTheorems]); conversation memory ([memory.py] with
      [memory/memory_store.py]: [Memory], [MemoryTheorems]).
    - The application edge ([api/security.py]: [Gateway]): authentication of a request, the bound on its
      body, and an answer that leaves part by part under the locked authority.
    - Conversations ([graph/generation.py], [graph/streaming.py], [prompts/], [llm/router.py] and the plain and
      streaming calls of both model clients: [Conversation]).
    - [Sample] holds the runtime and the objects that several witnesses evaluate.

    Calls go downwards: the services of [Services] take a snapshot of [Authority] and call the
    ledger, the publication service or the analysis; a worker turn claims a step of [JobLedger],
    runs the handler of [Extraction], [DigestSteps] or [PublicationService] against an
    [ObjectStore], and commits; a digestion stage asks an inference, which is the local one or
    [Managed] over [Execution] or [ProviderAdmission] and a provider of [ModelClients].
    Clients are proved against interfaces: [ObjectStore] (local store), [ReservationLedger] and
    [InferenceAdmissionPort] (both SQLite ledgers, [ExecutionLedgers]), [MemoryLaws] (file and Redis
    store), [VectorStore], [EmbeddingModel], [Decoder], [Runtime].

    ** How the code is translated

    A Python function that may raise returns a [result]; a method inside a SQLite transaction is a
    [tx], and a failed one leaves the database as it was.  A table is the list of its rows in rowid
    order, in which a query without ORDER BY is taken to return them; constraints of the schema are
    checked where the database checks them.  Where other
    processes share a store, the model has their calls between any two of its own: as a
    list of calls, as a function from the number of the call, or as part of the world of a
    program.  Clock readings, [uuid4()]s and operating system failures are arguments of each
    call.  Text is the list of its code points and bytes are lists of numbers below 256; Python integers are
    unbounded; instants are microseconds; floats given in seconds are exact rationals, so rounding
    of float arithmetic is not modelled; decimals are exact ([Governance] proves that the precision
    of the context suffices).  A frozen pydantic model is a record with a boolean validator, run
    where the code constructs or decodes one.

    ** Fuel and bounds

    Recursions that are not structural take fuel and name what happens when it ends, and theorems
    show that it never does: [DigestPlanning] starts its loops with the sizes of their inputs and
    [planning_terminates] excludes [Stuck]; [shrink] and [cut_block] get the length of the block plus one,
    [check_ancestors] the depth bound plus two; the walk of [make_digest] gets the size of its work
    list and of all lineages plus one, and [accepted_graph_assembles] shows that it suffices; [Utf8]
    decodes with the length of the bytes; splitting in [PublicationPlan] gets the length of the text, each part consuming at
    least one character; [read_body] of [ModelClients] gets the byte bound plus two, which suffices
    because chunks are not empty, and [provider_call_ends] excludes [Unfinished].  The schema
    conversion of [Inference] recurses on Python's recursion limit, a parameter, and running out
    of it is the exception the code catches.

    ** What the theorems show

    - Ledger: an invariant of all tables after every history of calls; the transition diagrams of
      jobs and steps; commits take effect once; stale leases are refused for ever; dependencies come
      first; a live job always has work.
    - Workers, under any interleaving and failure: a message is kept until its step is answered for; no
      object is stored without an intent; manifests resolve.
    - Extraction and digestion: extraction is lossless and assembles; planning ends and its pieces
      reproduce the source, within the profile; the steps of a plan are admissible to the
      ledger; citations are grounded, an accepted graph assembles, COMPLETE means covered; what a
      stage stores is accepted again.  A managed request that was planned fits; its call is accounted
      for; governed execution accepts it.
    - Model calls: a call ends whatever the peer sends and raises known errors; an answer that is
      returned satisfies every check; a schema for a strict provider is closed and keeps the
      meaning; provider quotas hold in every window; every reservation was granted within all limits of its
      tenant and owner; tickets are settled.
    - Publication and retrieval: activations form a chain of compare-and-swap steps; only validated
      generations are activated; an accepted digest is published completely; retrieval is confined to
      the pinned and authorized records, and ends with a revocation; citations quote the stored source.
    - Security: isolation of tenants, the audit log, fresh keys behind every principal, services that
      act only under an authorization in force, answers that leave only under one, sessions that only
      their owner reads, and the same answers of both memory stores; a streamed conversation stores only
      complete answers.
    - Further theorems beside these state idempotence, rates, retry delays, garbage collection,
      immutability of stored objects and finality of revocations.

    ** Parameters

    The primitives of the runtime whose bits the code never looks into ([Runtime]: sha256, uuid5, the texts of
    floats and instants, printability; [UnicodeData]: character classes), [json.loads] and pydantic ([Decoder],
    [Parses]), the PDF reader and the parser subprocess ([ParserRunner]), the embedding model and its
    tokenizer ([EmbeddingModel]), the vector database ([VectorStore]), BM25 scores and the cross encoder
    ([Bm25], [Reranker]), PyJWT ([Jwt]), Redis ([RedisClient]), the HTTP library and the model behind it
    ([HttpClient], [PlainClient]), the string rules of JSON schema ([StringRules]), and the JSON schema pydantic
    derives for stage results.  Hypotheses on them state documented behaviour only, and each
    theorem that has one is instantiated.

    ** Not modelled

    The HTTP application and the user interface ([api/app.py], [ui/]): request parsing and routing around the
    services above.  The LangGraph wiring of the conversation ([graph/langgraph_flow.py], [graph/nodes.py]) and the
    intent classifier.  The readiness probes and the construction of the model clients.  The legacy global
    corpus and the database adapters of [rag/].  Pydantic's refusal of lone surrogates in text.  Metrics, logging and the diagnostics events of digestion.  Settings and construction of the
    objects from the environment ([config/], [security/runtime.py], factories), and opening and
    migrating SQLite files ([security/database.py], [governance/migration.py]).  Offline
    evaluation, scripts and experiments.  [fsync], file permissions and the sandbox of the parser process. *)

From stdpp Require Import base tactics list strings option sorting sets gmap.
From Stdlib Require Import ZArith QArith Qround Lia Sorted.

Declare Scope polymind_scope.
Delimit Scope polymind_scope with polymind.

(** ** Results and transactions

    Python functions that raise return a value of [result]; a database
    transaction is a function from the database to a result carrying the
    returned value and the new database. *)

Inductive result (E A : Type) : Type :=
| Ok (a : A)
| Err (e : E).
Arguments Ok {E A} a.
Arguments Err {E A} e.

Definition tx (S E A : Type) : Type := S → result E (A * S).

#[export] Instance result_ret E : MRet (result E) := λ A a, Ok a.
#[export] Instance result_bind E : MBind (result E) :=
  λ A B f m, match m with Ok a => f a | Err e => Err e end.

#[export] Instance tx_ret S E : MRet (tx S E) := λ A a s, Ok (a, s).
#[export] Instance tx_bind S E : MBind (tx S E) :=
  λ A B f m s, match m s with Ok (a, s') => f a s' | Err e => Err e end.

(** What a computation that returns went through. *)
Lemma result_bind_Ok {E A B} (m : result E A) (f : A → result E B) b :
  (m ≫= f) = Ok b ↔ ∃ a, m = Ok a ∧ f a = Ok b.
Proof. unfold mbind, result_bind. destruct m; naive_solver. Qed.

Section Transactions.
Context {S E : Type}.
Implicit Types s : S.

(** [raise e]: the exception leaves the [with self._transaction()] block. *)
Definition raise {A} (e : E) : tx S E A := λ _, Err e.

(** [gets f]: a SELECT. *)
Definition gets {A} (f : S → A) : tx S E A := λ s, Ok (f s, s).

(** [modify f]: an INSERT or UPDATE whose constraints cannot fail. *)
Definition modify (f : S → S) : tx S E unit := λ s, Ok (tt, f s).

(** [guard b e]: [if not b: raise e]. *)
Definition guard (b : bool) (e : E) : tx S E unit :=
  if b then mret tt else raise e.

(** [expect o e]: the row, or the exception when [fetchone()] is None. *)
Definition expect {A} (o : option A) (e : E) : tx S E A :=
  match o with Some a => mret a | None => raise e end.

(** [lift r]: a pure fallible computation inside the block. *)
Definition lift {A} (r : result E A) : tx S E A :=
  λ s, match r with Ok a => Ok (a, s) | Err e => Err e end.

(** [for x in l: f x]. *)
Fixpoint for_each {A} (f : A → tx S E unit) (l : list A) : tx S E unit :=
  match l with
  | [] => mret tt
  | x :: l' => f x ≫= λ _, for_each f l'
  end.

(** A loop with an accumulator: [for x in l: acc = f acc x]. *)
Fixpoint fold_tx {A B} (f : B → A → tx S E B) (b : B) (l : list A) : tx S E B :=
  match l with
  | [] => mret b
  | x :: l' => f b x ≫= λ b', fold_tx f b' l'
  end.

(** Commit on return, roll back on any exception. *)
Definition transaction {A} (m : tx S E A) (s : S) : result E A * S :=
  match m s with
  | Ok (a, s') => (Ok a, s')
  | Err e => (Err e, s)
  end.

(** ** Triples: what a transaction that does not raise establishes *)
Definition triple {A} (P : S → Prop) (m : tx S E A) (Q : A → S → Prop) : Prop :=
  ∀ s, P s → ∀ a s', m s = Ok (a, s') → Q a s'.

Lemma triple_ret {A} (P : S → Prop) (a : A) (Q : A → S → Prop) :
  (∀ s, P s → Q a s) → triple P (mret a) Q.
Proof. intros H s HP a' s' [= <- <-]. by apply H. Qed.

Lemma triple_raise {A} (P : S → Prop) e (Q : A → S → Prop) : triple P (raise e) Q.
Proof. intros s _ a s' [=]. Qed.

Lemma triple_bind {A B} (P : S → Prop) (m : tx S E A) (f : A → tx S E B)
    (Q : A → S → Prop) (R : B → S → Prop) :
  triple P m Q → (∀ a, triple (Q a) (f a) R) → triple P (m ≫= f) R.
Proof.
  intros Hm Hf s HP b s'. unfold mbind, tx_bind.
  destruct (m s) as [[a s1]|e] eqn:Em; [|done]. intros Ef.
  eapply Hf; [|exact Ef]. by eapply Hm.
Qed.

Lemma triple_gets {A} (P : S → Prop) (f : S → A) (Q : A → S → Prop) :
  (∀ s, P s → Q (f s) s) → triple P (gets f) Q.
Proof. intros H s HP a s' [= <- <-]. by apply H. Qed.

Lemma triple_modify (P : S → Prop) (f : S → S) (Q : unit → S → Prop) :
  (∀ s, P s → Q tt (f s)) → triple P (modify f) Q.
Proof. intros H s HP [] s' [= <-]. by apply H. Qed.

Lemma triple_guard (P : S → Prop) b e (Q : unit → S → Prop) :
  (∀ s, P s → b = true → Q tt s) → triple P (guard b e) Q.
Proof. intros H. unfold guard. destruct b; [|apply triple_raise]. apply triple_ret. auto. Qed.

Lemma triple_expect {A} (P : S → Prop) (o : option A) e (Q : A → S → Prop) :
  (∀ s a, P s → o = Some a → Q a s) → triple P (expect o e) Q.
Proof. intros H. destruct o; [|apply triple_raise]. apply triple_ret. auto. Qed.

Lemma triple_lift {A} (P : S → Prop) (r : result E A) (Q : A → S → Prop) :
  (∀ s a, P s → r = Ok a → Q a s) → triple P (lift r) Q.
Proof. intros H s HP a s'. unfold lift. destruct r; [|done]. intros [= <- <-]. auto. Qed.

Lemma triple_consequence {A} (P P' : S → Prop) (m : tx S E A) (Q Q' : A → S → Prop) :
  triple P' m Q' → (∀ s, P s → P' s) → (∀ a s, Q' a s → Q a s) → triple P m Q.
Proof. intros H HP HQ s Hs a s' E1. eapply HQ, H; eauto. Qed.

Lemma triple_conj {A} (P : S → Prop) (m : tx S E A) (Q R : A → S → Prop) :
  triple P m Q → triple P m R → triple P m (λ a s, Q a s ∧ R a s).
Proof. intros HQ HR s Hs a s' E1. split; eauto. Qed.

Lemma triple_for_each {A} (I : S → Prop) (f : A → tx S E unit) l :
  (∀ x, x ∈ l → triple I (f x) (λ _, I)) → triple I (for_each f l) (λ _, I).
Proof.
  induction l as [|x l IH]; intros H; simpl.
  - by apply triple_ret.
  - eapply triple_bind; [apply H; set_solver|]. intros ?. apply IH. set_solver.
Qed.

Lemma triple_fold {A B} (I : B → S → Prop) (f : B → A → tx S E B) b l :
  (∀ b x, x ∈ l → triple (I b) (f b x) I) → triple (I b) (fold_tx f b l) I.
Proof.
  revert b. induction l as [|x l IH]; intros b H; simpl.
  - by apply triple_ret.
  - eapply triple_bind; [apply H; set_solver|]. intros b'. apply IH. set_solver.
Qed.

Ltac solve_tx :=
  unfold mbind, tx_bind, guard, raise, expect, gets, modify, lift, mret, tx_ret;
  repeat match goal with x : unit |- _ => destruct x end;
  repeat case_match; simplify_eq; split; intros; destruct_and?; simplify_eq; eauto.

(** An invariant of the body is an invariant of the committed state. *)
Lemma transaction_preserves {A} (I : S → Prop) (m : tx S E A) s :
  triple I m (λ _, I) → I s → I (transaction m s).2.
Proof.
  intros H HI. unfold transaction. destruct (m s) as [[a s']|e] eqn:Em; [|done].
  by eapply H.
Qed.

Lemma transaction_Ok {A} (m : tx S E A) s a s' :
  transaction m s = (Ok a, s') ↔ m s = Ok (a, s').
Proof. unfold transaction. solve_tx. Qed.

Lemma transaction_Err {A} (m : tx S E A) s e s' :
  transaction m s = (Err e, s') ↔ m s = Err e ∧ s' = s.
Proof. unfold transaction. solve_tx. Qed.

(** Inversion of successful runs. *)
Lemma tx_bind_Ok {A B} (m : tx S E A) (f : A → tx S E B) s b s' :
  (m ≫= f) s = Ok (b, s') ↔ ∃ a s1, m s = Ok (a, s1) ∧ f a s1 = Ok (b, s').
Proof.
  unfold mbind, tx_bind. split.
  - destruct (m s) as [[a s1]|e]; [eauto|done].
  - by intros (a & s1 & -> & ?).
Qed.

Lemma tx_bind_run {A B} (m : tx S E A) (f : A → tx S E B) s a s1 :
  m s = Ok (a, s1) → (m ≫= f) s = f a s1.
Proof. unfold mbind, tx_bind. by intros ->. Qed.

Lemma tx_bind_err {A B} (m : tx S E A) (f : A → tx S E B) s e :
  m s = Err e → (m ≫= f) s = Err e.
Proof. unfold mbind, tx_bind. by intros ->. Qed.

Lemma guard_Ok b e s x s' : guard b e s = Ok (x, s') ↔ b = true ∧ s' = s.
Proof. solve_tx. Qed.

Lemma expect_Ok {A} (o : option A) e s a s' :
  expect o e s = Ok (a, s') ↔ o = Some a ∧ s' = s.
Proof. solve_tx. Qed.

Lemma gets_Ok {A} (f : S → A) s a s' : gets f s = Ok (a, s') ↔ a = f s ∧ s' = s.
Proof. solve_tx. Qed.

Lemma modify_Ok (f : S → S) s x s' : modify f s = Ok (x, s') ↔ s' = f s.
Proof. solve_tx. Qed.

Lemma mret_Ok {A} (a b : A) s s' : (mret a : tx S E A) s = Ok (b, s') ↔ b = a ∧ s' = s.
Proof. solve_tx. Qed.

Lemma lift_Ok {A} (r : result E A) s a s' : lift r s = Ok (a, s') ↔ r = Ok a ∧ s' = s.
Proof. solve_tx. Qed.

End Transactions.

(** [tx_inv H] takes a successful run apart into its steps. *)
Ltac tx_inv H :=
  lazymatch type of H with
  | (_ ≫= _) _ = Ok _ =>
      let a := fresh "a" in let s1 := fresh "s" in
      let H1 := fresh "Htx" in
      apply tx_bind_Ok in H as (a & s1 & H1 & H); tx_inv H1; tx_inv H
  | guard _ _ _ = Ok _ => apply guard_Ok in H as [H ->]
  | expect _ _ _ = Ok _ => apply expect_Ok in H as [H ->]
  | gets _ _ = Ok _ => apply gets_Ok in H as [-> ->]
  | modify _ _ = Ok _ => apply modify_Ok in H as ->
  | raise _ _ = Ok _ => by inversion H
  | lift _ _ = Ok _ => apply lift_Ok in H as [H ->]
  | mret _ _ = Ok _ =>
      first [apply mret_Ok in H as [-> ->] | apply mret_Ok in H as [H ->]]
  | _ => idtac
  end.

(** ** Tables

    A table is the list of its rows in insertion (rowid) order. *)

Section Tables.
Context {A : Type}.

(** [UPDATE t SET ... WHERE p]. *)
Definition update_where (p : A → bool) (f : A → A) (l : list A) : list A :=
  (λ r, if p r then f r else r) <$> l.

(** [SELECT * FROM t WHERE p], then [fetchone()]. *)
Definition find_row (p : A → bool) (l : list A) : option A := List.find p l.

(** [SELECT * FROM t WHERE p], all rows. *)
Definition select (p : A → bool) (l : list A) : list A := List.filter p l.

Lemma elem_of_select p l x : x ∈ select p l ↔ p x = true ∧ x ∈ l.
Proof. unfold select. rewrite !list_elem_of_In, filter_In. naive_solver. Qed.

Lemma find_row_Some p l x : find_row p l = Some x → x ∈ l ∧ p x = true.
Proof. intros H%List.find_some. by rewrite list_elem_of_In. Qed.

Lemma find_row_None p l x : find_row p l = None → x ∈ l → p x = false.
Proof. intros H Hx. eapply List.find_none; [done|]. by rewrite <-list_elem_of_In. Qed.

Lemma elem_of_update_where p f l y :
  y ∈ update_where p f l ↔ ∃ x, x ∈ l ∧ y = if p x then f x else x.
Proof. unfold update_where. rewrite list_elem_of_fmap. naive_solver. Qed.

Lemma update_where_length p f l : length (update_where p f l) = length l.
Proof. apply length_fmap. Qed.

Lemma update_where_fmap {B} (g : A → B) p f l :
  (∀ x, x ∈ l → p x = true → g (f x) = g x) → g <$> update_where p f l = g <$> l.
Proof.
  unfold update_where. induction l as [|x l IH]; intros H; [done|]. csimpl. f_equal.
  - destruct (p x) eqn:Ep; [|done]. apply H; set_solver.
  - apply IH. set_solver.
Qed.

Lemma update_where_none p f l : (∀ x, x ∈ l → p x = false) → update_where p f l = l.
Proof.
  unfold update_where. induction l as [|x l IH]; intros H; [done|]. csimpl.
  rewrite (H x) by set_solver. f_equal. apply IH. set_solver.
Qed.

Lemma find_row_ext p q l : (∀ x, x ∈ l → p x = q x) → find_row p l = find_row q l.
Proof.
  unfold find_row. induction l as [|x l IH]; intros H; [done|]. simpl.
  rewrite (H x) by set_solver. rewrite IH by set_solver. done.
Qed.

Lemma find_row_update p f q l :
  (∀ x, q (f x) = q x) →
  find_row q (update_where p f l) = (λ x, if p x then f x else x) <$> find_row q l.
Proof.
  intros Hq. unfold find_row, update_where. induction l as [|x l IH]; [done|]. simpl.
  assert (q (if p x then f x else x) = q x) as -> by (destruct (p x); auto).
  destruct (q x); [done|]. apply IH.
Qed.

Lemma find_row_app p l k :
  find_row p (l ++ k) = match find_row p l with Some x => Some x | None => find_row p k end.
Proof. unfold find_row. induction l as [|x l IH]; simpl; [done|]. by destruct (p x). Qed.

Lemma find_row_unique {K} `{EqDecision K} (key : A → K) l x :
  NoDup (key <$> l) → x ∈ l → find_row (λ r, bool_decide (key r = key x)) l = Some x.
Proof.
  unfold find_row. induction l as [|y l IH]; intros Hnd Hx; [set_solver|].
  csimpl in *. apply NoDup_cons in Hnd as [Hy Hnd].
  apply elem_of_cons in Hx as [->|Hx].
  - by rewrite bool_decide_eq_true_2.
  - rewrite bool_decide_eq_false_2; [by apply IH|].
    intros Heq. apply Hy. rewrite Heq. apply list_elem_of_fmap_2. done.
Qed.

Lemma elem_of_unique {K} `{EqDecision K} (key : A → K) l x y :
  NoDup (key <$> l) → x ∈ l → y ∈ l → key x = key y → x = y.
Proof.
  intros Hnd Hx Hy Hk. pose proof (find_row_unique key l x Hnd Hx) as E1.
  pose proof (find_row_unique key l y Hnd Hy) as E2. rewrite Hk in E1. congruence.
Qed.

(** [ORDER BY]: a stable insertion sort on an integer or lexicographic key. *)
Fixpoint insert_by (le : A → A → bool) (x : A) (l : list A) : list A :=
  match l with
  | [] => [x]
  | y :: l' => if le x y then x :: l else y :: insert_by le x l'
  end.

Definition order_by (le : A → A → bool) (l : list A) : list A :=
  foldr (insert_by le) [] l.

Lemma insert_by_Permutation le x l : insert_by le x l ≡ₚ x :: l.
Proof.
  induction l as [|y l IH]; simpl; [done|]. destruct (le x y); [done|].
  rewrite IH. apply Permutation_swap.
Qed.

Lemma order_by_Permutation le l : order_by le l ≡ₚ l.
Proof.
  unfold order_by. induction l as [|x l IH]; simpl; [done|].
  by rewrite insert_by_Permutation, IH.
Qed.

(** Sums over rows. *)
Definition sum_by (f : A → Z) (l : list A) : Z := foldr (λ x acc, (f x + acc)%Z) 0%Z l.

Lemma sum_by_app f l k : sum_by f (l ++ k) = (sum_by f l + sum_by f k)%Z.
Proof. unfold sum_by. induction l as [|x l IH]; simpl; lia. Qed.

Lemma sum_by_nonneg f l : (∀ x, x ∈ l → (0 ≤ f x)%Z) → (0 ≤ sum_by f l)%Z.
Proof.
  unfold sum_by. induction l as [|x l IH]; intros H; simpl; [lia|].
  pose proof (H x ltac:(set_solver)). assert (∀ y, y ∈ l → (0 ≤ f y)%Z) as Hl by set_solver.
  specialize (IH Hl). lia.
Qed.

(** Number of rows satisfying a condition. *)
Definition count (p : A → bool) (l : list A) : Z := Z.of_nat (length (select p l)).

Lemma count_cons p x l : count p (x :: l) = ((if p x then 1 else 0) + count p l)%Z.
Proof. unfold count, select. simpl. destruct (p x); simpl; lia. Qed.

Lemma count_nonneg p l : (0 ≤ count p l)%Z.
Proof. unfold count. lia. Qed.

Lemma count_zero p l : count p l = 0%Z ↔ ∀ x, x ∈ l → p x = false.
Proof.
  induction l as [|x l IH]; [split; [set_solver|done]|].
  rewrite count_cons. pose proof (count_nonneg p l). split.
  - intros H1. destruct (p x) eqn:Ep; [lia|].
    intros y [->|Hy]%elem_of_cons; [done|]. apply IH; [lia|done].
  - intros H1. rewrite (H1 x) by set_solver. rewrite (proj2 IH) by set_solver. done.
Qed.

Lemma count_all p l : count p l = Z.of_nat (length l) ↔ ∀ x, x ∈ l → p x = true.
Proof.
  induction l as [|x l IH]; [split; [set_solver|done]|].
  rewrite count_cons. simpl length.
  assert (count p l ≤ Z.of_nat (length l))%Z.
  { unfold count, select. pose proof (List.filter_length_le p l). lia. }
  split.
  - intros H1. destruct (p x) eqn:Ep; [|lia].
    intros y [->|Hy]%elem_of_cons; [done|]. apply IH; [lia|done].
  - intros H1. rewrite (H1 x) by set_solver. rewrite (proj2 IH) by set_solver. lia.
Qed.

End Tables.

Arguments update_where {A} p f !l /.

(** ** More about lists of rows *)

Section Rows.
Local Open Scope Z_scope.

Lemma fmap_ext_elem {A B} (f g : A → B) (l : list A) :
  (∀ x, x ∈ l → f x = g x) → f <$> l = g <$> l.
Proof.
  intros Hfg. induction l as [|x l IH]; [done|]. csimpl.
  rewrite Hfg by set_solver. rewrite IH by set_solver. done.
Qed.

Lemma list_fmap_eq_inv_elem {A B} (f g : A → B) (l : list A) x :
  f <$> l = g <$> l → x ∈ l → f x = g x.
Proof.
  induction l as [|y l IH]; intros E Hx; [by apply not_elem_of_nil in Hx|]. csimpl in *.
  injection E as E1 E2. apply elem_of_cons in Hx as [->|Hx]; auto.
Qed.

Lemma forallb_elem {A} (p : A → bool) l : forallb p l = true ↔ ∀ x, x ∈ l → p x = true.
Proof. rewrite forallb_forall. by setoid_rewrite list_elem_of_In. Qed.

Lemma select_select {A} (p q : A → bool) l : select p (select q l) = select (λ x, q x && p x) l.
Proof.
  unfold select. induction l as [|x l IH]; [done|]. simpl.
  destruct (q x); simpl; [destruct (p x)|]; by rewrite IH.
Qed.

Lemma select_ext {A} (p q : A → bool) l :
  (∀ x, x ∈ l → p x = q x) → select p l = select q l.
Proof.
  unfold select. induction l as [|x l IH]; intros H; [done|]. simpl.
  rewrite (H x) by set_solver. rewrite IH by set_solver. done.
Qed.

Lemma sum_select_le {A} (f : A → Z) (p q : A → bool) l :
  (∀ x, x ∈ l → 0 ≤ f x) → (∀ x, x ∈ l → p x = true → q x = true) →
  sum_by f (select p l) ≤ sum_by f (select q l).
Proof.
  unfold sum_by, select. induction l as [|x l IH]; intros Hf Hpq; simpl; [lia|].
  assert (0 ≤ f x) by (apply Hf; set_solver).
  assert (foldr (λ x acc, f x + acc) 0 (List.filter p l)
          ≤ foldr (λ x acc, f x + acc) 0 (List.filter q l)) by (apply IH; set_solver).
  destruct (p x) eqn:Ep; [rewrite (Hpq x) by set_solver; simpl; lia|].
  destruct (q x); simpl; lia.
Qed.

Lemma select_fmap {A B} (p : B → bool) (g : A → B) l :
  select p (g <$> l) = g <$> select (λ x, p (g x)) l.
Proof.
  unfold select. induction l as [|x l IH]; [done|]. csimpl. rewrite IH. by destruct (p (g x)).
Qed.

Lemma sum_by_fmap {A B} (f : B → Z) (g : A → B) l : sum_by f (g <$> l) = sum_by (λ x, f (g x)) l.
Proof. unfold sum_by. induction l as [|x l IH]; [done|]. csimpl. by rewrite IH. Qed.

Lemma sum_by_ext {A} (f g : A → Z) l : (∀ x, x ∈ l → f x = g x) → sum_by f l = sum_by g l.
Proof.
  unfold sum_by. induction l as [|x l IH]; intros H; [done|]. simpl.
  rewrite (H x) by set_solver. rewrite IH by set_solver. done.
Qed.

Lemma count_le {A} (p q : A → bool) l :
  (∀ x, x ∈ l → p x = true → q x = true) → count p l ≤ count q l.
Proof.
  induction l as [|x l IH]; intros H; [done|]. rewrite !count_cons.
  assert (count p l ≤ count q l) by (apply IH; set_solver).
  destruct (p x) eqn:E; [rewrite (H x) by set_solver; lia|]. destruct (q x); lia.
Qed.

Lemma select_snoc {A} (p : A → bool) l x :
  select p (l ++ [x]) = select p l ++ if p x then [x] else [].
Proof. unfold select. rewrite List.filter_app. simpl. by destruct (p x). Qed.

Lemma select_true {A} (l : list A) : select (λ _, true) l = l.
Proof. unfold select. induction l as [|x l IH]; [done|]. simpl. by rewrite IH. Qed.

Lemma count_snoc {A} (p : A → bool) l x : count p (l ++ [x]) = count p l + if p x then 1 else 0.
Proof. unfold count. rewrite select_snoc, length_app. destruct (p x); simpl; lia. Qed.

Lemma count_update_le {A} (p q : A → bool) g l :
  (∀ x, p (g x) = true → p x = true) → count p (update_where q g l) ≤ count p l.
Proof.
  intros Hg. unfold update_where. induction l as [|x l IH]; [done|]. csimpl. rewrite !count_cons.
  destruct (q x); [|lia]. destruct (p (g x)) eqn:E; [rewrite (Hg x E); lia|].
  destruct (p x); lia.
Qed.

Lemma count_select {A} (p q : A → bool) l : count p (select q l) = count (λ x, q x && p x) l.
Proof. unfold count. by rewrite select_select. Qed.

Lemma sorted_snoc {A} (R : A → A → Prop) l x :
  StronglySorted R (l ++ [x]) → (∀ y, y ∈ l → R y x) ∧ StronglySorted R l.
Proof.
  induction l as [|y l IH]; simpl; intros Hs; [split; [set_solver|constructor]|].
  apply StronglySorted_inv in Hs as [Hs Hy]. destruct (IH Hs) as [H1 H2].
  rewrite Forall_app in Hy. destruct Hy as [Hy Hx]. inversion_clear Hx. split.
  - intros z [->|Hz]%elem_of_cons; auto.
  - by constructor.
Qed.

Lemma NoDup_snoc_key {A B} (key : A → B) l x :
  NoDup (key <$> l) → (∀ y, y ∈ l → key y ≠ key x) → NoDup (key <$> (l ++ [x])).
Proof.
  intros Hnd Hx. rewrite fmap_app. apply NoDup_app. split_and!; [done| |apply NoDup_singleton].
  intros k (y & -> & Hy)%list_elem_of_fmap Hk%list_elem_of_singleton. by apply (Hx y).
Qed.

End Rows.

Create HintDb polymind.
#[export] Hint Resolve triple_ret triple_raise triple_gets triple_modify triple_guard
  triple_expect triple_lift : polymind.

(** ** Decimal text of integers, and Python's [timedelta(seconds=q)]

    Instants are whole microseconds; [timedelta] rounds a number of seconds to
    the nearest microsecond, ties to even. *)

Definition round_half_even (q : Q) : Z :=
  let f := Qfloor q in
  match Qcompare (q - inject_Z f) (1 # 2) with
  | Lt => f
  | Gt => (f + 1)%Z
  | Eq => if Z.even f then f else (f + 1)%Z
  end.

Definition timedelta_us (seconds : Q) : Z := round_half_even (seconds * inject_Z 1000000).
