(* ===== verification/Json.v ===== *)
(** * Canonical JSON, fingerprints and stable identifiers

    [documents/jobs/models.py] ([canonical], [fingerprint]) and
    [documents/models.py] ([stable_id]).  Python text is the list of its code
    points.  The primitives of the Python runtime whose bits the code never looks
    into ([sha256], [uuid5], [float.__repr__], [datetime.isoformat],
    [str.isprintable]) are the parameters collected in the class [Runtime]. *)

From stdpp Require Import base tactics list strings pretty.
From Stdlib Require Import ZArith NArith QArith Lia.
From S2P Require Import Prelude.

(** Python [str] as code points. *)
Definition text : Type := list N.

Fixpoint cps (s : string) : text :=
  match s with
  | EmptyString => []
  | String a s' => Ascii.N_of_ascii a :: cps s'
  end.

(** A UUID is represented by its canonical [str()] form, a digest by its 64
    hexadecimal characters. *)
Definition uuid : Type := string.
Definition digest : Type := string.

Class Runtime : Type := {
  (** [hashlib.sha256(data).hexdigest()] of ASCII text *)
  sha256_hex : text → digest;
  (** [uuid5(NAMESPACE_URL, name)] *)
  uuid5_url : text → uuid;
  (** [float.__repr__] *)
  float_repr : Q → text;
  (** [d.astimezone(timezone.utc).isoformat()] of an instant in microseconds *)
  isoformat_utc : Z → text;
  (** [str.isprintable] of one character *)
  isprintable : N → bool;
}.

Inductive json : Type :=
| JNull
| JBool (b : bool)
| JInt (z : Z)
| JFloat (q : Q)
| JStr (t : text)
| JArr (l : list json)
| JObj (l : list (string * json)).

(** The value of a key of a parsed object ([d.get(k)]); of equal keys the last one counts. *)
Definition field (k : string) (kvs : list (string * json)) : option json :=
  foldl (λ acc kv, if bool_decide (kv.1 = k) then Some kv.2 else acc) None kvs.

(** ** [json.dumps(..., ensure_ascii=True)] of a string *)

Definition hex_digit (n : N) : N := if (n <? 10)%N then (48 + n)%N else (87 + n)%N.

(** [\uXXXX], lower case. *)
Definition u4 (n : N) : text :=
  [92; 117; hex_digit (n / 4096 mod 16); hex_digit (n / 256 mod 16);
   hex_digit (n / 16 mod 16); hex_digit (n mod 16)]%N.

Definition escape (c : N) : text :=
  if (c =? 34)%N then [92; 34]%N
  else if (c =? 92)%N then [92; 92]%N
  else if (c =? 10)%N then [92; 110]%N
  else if (c =? 13)%N then [92; 114]%N
  else if (c =? 9)%N then [92; 116]%N
  else if (c =? 12)%N then [92; 102]%N
  else if (c =? 8)%N then [92; 98]%N
  else if ((32 <=? c) && (c <=? 126))%N then [c]
  else if (c <? 65536)%N then u4 c
  else u4 (55296 + (c - 65536) / 1024)%N ++ u4 (56320 + (c - 65536) mod 1024)%N.

Definition dumps_str (t : text) : text := 34%N :: (t ≫= escape) ++ [34%N].

Definition dumps_int (z : Z) : text := cps (pretty z).

(** ** [sort_keys=True] *)

Definition key_le (a b : string * json) : bool := String.leb a.1 b.1.

Fixpoint sort_keys (v : json) : json :=
  match v with
  | JArr l => JArr (sort_keys <$> l)
  | JObj l => JObj (order_by key_le ((λ kv, (kv.1, sort_keys kv.2)) <$> l))
  | _ => v
  end.

Section Printing.
Context `{Runtime}.

Definition join (sep : N) (l : list text) : text :=
  match l with
  | [] => []
  | x :: l' => x ++ (l' ≫= λ y, sep :: y)
  end.

(** [json.dumps(value, separators=(',', ':'), ensure_ascii=True)]. *)
Fixpoint dumps (v : json) : text :=
  match v with
  | JNull => cps "null"
  | JBool true => cps "true"
  | JBool false => cps "false"
  | JInt z => dumps_int z
  | JFloat q => float_repr q
  | JStr t => dumps_str t
  | JArr l => 91%N :: join 44 (dumps <$> l) ++ [93%N]
  | JObj l => 123%N :: join 44 ((λ kv, dumps_str (cps kv.1) ++ 58%N :: dumps kv.2) <$> l) ++ [125%N]
  end.

Definition canonical (v : json) : text := dumps (sort_keys v).

Definition fingerprint (v : json) : digest := sha256_hex (canonical v).

(** The name [stable_id] hashes: a JSON array of its parts. *)
Definition stable_name (parts : list text) : text := dumps (JArr (JStr <$> parts)).

Definition stable_id (parts : list text) : uuid := uuid5_url (stable_name parts).

End Printing.

(** ** Decoding, used to show that the printed form determines the value *)

Definition hex_value (c : N) : N := if (c <? 58)%N then (c - 48)%N else (c - 87)%N.

Definition u4_value (a b c d : N) : N :=
  (hex_value a * 4096 + hex_value b * 256 + hex_value c * 16 + hex_value d)%N.

(** The next character of a JSON string body, and the rest. *)
Definition unescape (t : text) : option (N * text) :=
  match t with
  | 92%N :: 34%N :: r => Some (34%N, r)
  | 92%N :: 92%N :: r => Some (92%N, r)
  | 92%N :: 110%N :: r => Some (10%N, r)
  | 92%N :: 114%N :: r => Some (13%N, r)
  | 92%N :: 116%N :: r => Some (9%N, r)
  | 92%N :: 102%N :: r => Some (12%N, r)
  | 92%N :: 98%N :: r => Some (8%N, r)
  | 92%N :: 117%N :: a :: b :: c :: d :: r =>
      let n := u4_value a b c d in
      if ((55296 <=? n) && (n <? 56320))%N then
        match r with
        | 92%N :: 117%N :: a' :: b' :: c' :: d' :: r' =>
            Some (65536 + (n - 55296) * 1024 + (u4_value a' b' c' d' - 56320), r')%N
        | _ => None
        end
      else Some (n, r)
  | c :: r => Some (c, r)
  | [] => None
  end.

(** A Unicode scalar value: what a [str] accepted by pydantic is made of. *)
Definition scalar (c : N) : Prop := (c < 55296 ∨ 57344 ≤ c < 1114112)%N.

Lemma hex_value_digit n : (n < 16)%N → hex_value (hex_digit n) = n.
Proof.
  intros Hn. unfold hex_value, hex_digit.
  destruct (N.ltb_spec n 10).
  - destruct (N.ltb_spec (48 + n) 58); lia.
  - destruct (N.ltb_spec (87 + n) 58); lia.
Qed.

Lemma u4_value_u4 n : (n < 65536)%N →
  u4_value (hex_digit (n / 4096 mod 16)) (hex_digit (n / 256 mod 16))
    (hex_digit (n / 16 mod 16)) (hex_digit (n mod 16)) = n.
Proof.
  intros Hn. unfold u4_value. rewrite !hex_value_digit by (apply N.mod_lt; lia).
  pose proof (N.div_mod n 16). pose proof (N.div_mod (n / 16) 16).
  pose proof (N.div_mod (n / 256) 16).
  replace (n / 16 / 16)%N with (n / 256)%N in * by (rewrite N.Div0.div_div; done).
  replace (n / 256 / 16)%N with (n / 4096)%N in * by (rewrite N.Div0.div_div; done).
  rewrite (N.mod_small (n / 4096) 16) by (apply N.Div0.div_lt_upper_bound; lia). lia.
Qed.

Lemma unescape_u4 n r : (n < 65536)%N → (n < 55296 ∨ 56320 ≤ n)%N →
  unescape (u4 n ++ r) = Some (n, r).
Proof.
  intros Hn Hs. unfold u4. cbn [app]. unfold unescape. cbn zeta.
  rewrite u4_value_u4 by done.
  destruct (N.leb_spec 55296 n), (N.ltb_spec n 56320); simpl; (done || lia).
Qed.

Lemma unescape_surrogates h l r :
  (55296 ≤ h < 56320)%N → (56320 ≤ l < 57344)%N →
  unescape (u4 h ++ u4 l ++ r) = Some (65536 + (h - 55296) * 1024 + (l - 56320), r)%N.
Proof.
  intros Hh Hl. unfold u4. cbn [app]. unfold unescape. cbn zeta.
  rewrite !u4_value_u4 by lia.
  destruct (N.leb_spec 55296 h), (N.ltb_spec h 56320); simpl; (done || lia).
Qed.

Lemma unescape_plain c r : c ≠ 92%N → unescape (c :: r) = Some (c, r).
Proof.
  intros Hc. unfold unescape.
  destruct c as [|p]; [done|].
  do 7 (destruct p as [p|p|]; try done).
Qed.

Lemma unescape_escape c r : scalar c → unescape (escape c ++ r) = Some (c, r).
Proof.
  intros Hc. unfold escape.
  repeat match goal with
  | |- context [(c =? ?k)%N] => destruct (N.eqb_spec c k); [subst; reflexivity|]
  end.
  destruct (N.leb_spec 32 c), (N.leb_spec c 126); simpl andb; cbv iota.
  1: by apply unescape_plain.
  all: destruct (N.ltb_spec c 65536); unfold scalar in Hc; try lia.
  1, 3: apply unescape_u4; lia.
  rewrite <-app_assoc, unescape_surrogates.
  - pose proof (N.div_mod (c - 65536) 1024 ltac:(done)) as E. do 2 f_equal.
    revert E. generalize ((c - 65536) / 1024)%N ((c - 65536) mod 1024)%N. lia.
  - assert (((c - 65536) / 1024) < 1024)%N as Hq by (apply N.Div0.div_lt_upper_bound; lia).
    revert Hq. generalize ((c - 65536) / 1024)%N. lia.
  - pose proof (N.mod_lt (c - 65536) 1024 ltac:(done)) as Hm.
    revert Hm. generalize ((c - 65536) mod 1024)%N. lia.
Qed.

(** No escaped character starts with the closing quote. *)
Lemma escape_cons c : ∃ x l, escape c = x :: l ∧ x ≠ 34%N.
Proof.
  unfold escape, u4. repeat case_match; eexists _, _; (split; [reflexivity|]);
    try done; rewrite ?N.eqb_neq, ?N.eqb_eq in *; done.
Qed.

(** The body of a printed string determines the string and what follows it. *)
Lemma escaped_unique t u r r' :
  Forall scalar t → Forall scalar u →
  (t ≫= escape) ++ 34%N :: r = (u ≫= escape) ++ 34%N :: r' → t = u ∧ r = r'.
Proof.
  intros Ht. revert u. induction Ht as [|c t Hc Ht IH]; intros u Hu Heq;
    destruct Hu as [|d u Hd Hu]; csimpl in *.
  - by simplify_eq.
  - destruct (escape_cons d) as (x & l & E & Hx). rewrite E in Heq. simpl in Heq. congruence.
  - destruct (escape_cons c) as (x & l & E & Hx). rewrite E in Heq. simpl in Heq. congruence.
  - rewrite <-!(assoc_L (++)) in Heq.
    pose proof (unescape_escape c ((t ≫= escape) ++ 34%N :: r) Hc) as E1.
    pose proof (unescape_escape d ((u ≫= escape) ++ 34%N :: r') Hd) as E2.
    rewrite Heq, E2 in E1. injection E1 as -> E1.
    by destruct (IH u Hu (eq_sym E1)) as [-> ->].
Qed.

Lemma dumps_str_unique t u r r' :
  Forall scalar t → Forall scalar u →
  dumps_str t ++ r = dumps_str u ++ r' → t = u ∧ r = r'.
Proof.
  intros Ht Hu [= Heq]. rewrite <-!(assoc_L (++)) in Heq. simpl in Heq.
  by apply escaped_unique.
Qed.

(** ** Integers *)

Definition int_char (c : N) : Prop := (c = 45 ∨ 48 ≤ c ≤ 57)%N.

Lemma cps_app s s' : cps (s +:+ s') = cps s ++ cps s'.
Proof. induction s; simpl; f_equal; done. Qed.

Lemma cps_inj s s' : cps s = cps s' → s = s'.
Proof.
  revert s'. induction s as [|a s IH]; intros [|b s'] [=]; [done|].
  f_equal; [|by apply IH].
  rewrite <-(Ascii.ascii_N_embedding a), <-(Ascii.ascii_N_embedding b). by f_equal.
Qed.

Lemma cps_scalar s : Forall scalar (cps s).
Proof.
  induction s as [|a s IH]; constructor; [|done].
  pose proof (Ascii.N_ascii_bounded a). unfold scalar. lia.
Qed.

Lemma pretty_N_char_int n : int_char (Ascii.N_of_ascii (pretty_N_char n)).
Proof.
  unfold int_char. destruct n as [|p]; [vm_compute; intuition congruence|].
  do 4 (destruct p as [p|p|]; try (vm_compute; right; split; discriminate)).
Qed.

Lemma pretty_N_go_int x s :
  Forall int_char (cps s) → Forall int_char (cps (pretty_N_go x s)).
Proof.
  revert s. induction (N.lt_wf_0 x) as [x _ IH]; intros s Hs.
  assert (x = 0 ∨ 0 < x)%N as [->|?] by lia; [done|].
  rewrite pretty_N_go_step by done. apply IH; [by apply N.div_lt|].
  simpl. constructor; [apply pretty_N_char_int|done].
Qed.

Lemma pretty_N_go_nonempty x s : s ≠ EmptyString → pretty_N_go x s ≠ EmptyString.
Proof.
  revert s. induction (N.lt_wf_0 x) as [x _ IH]; intros s Hs.
  assert (x = 0 ∨ 0 < x)%N as [->|?] by lia; [done|].
  rewrite pretty_N_go_step by done. apply IH; [by apply N.div_lt|done].
Qed.

Lemma pretty_pos_int (p : positive) :
  Forall int_char (cps (pretty p)) ∧ pretty p ≠ EmptyString.
Proof.
  unfold pretty, pretty_positive, pretty, pretty_N. case_decide; [done|].
  split; [by apply pretty_N_go_int|].
  rewrite pretty_N_go_step by lia. by apply pretty_N_go_nonempty.
Qed.

Lemma dumps_int_chars z : Forall int_char (dumps_int z).
Proof.
  unfold dumps_int. destruct z as [|p|p].
  - repeat constructor; vm_compute; intuition congruence.
  - apply (pretty_pos_int p).
  - change (pretty (Zneg p)) with ("-" +:+ pretty p). rewrite cps_app.
    apply Forall_app. split; [|apply (pretty_pos_int p)].
    by repeat constructor.
Qed.

Lemma dumps_int_cons z : ∃ c l, dumps_int z = c :: l ∧ int_char c.
Proof.
  pose proof (dumps_int_chars z) as Hc.
  destruct (dumps_int z) as [|c l] eqn:E; [|inversion Hc; eauto].
  exfalso. unfold dumps_int in E. destruct z as [|p|p]; [done| |done].
  change (pretty (Zpos p)) with (pretty p) in E.
  destruct (pretty_pos_int p) as [_ Hne]. by destruct (pretty p).
Qed.

(** What may follow a value: a separator, a closing bracket, or nothing. *)
Definition stops (s : text) : Prop :=
  match s with [] => True | c :: _ => (c = 44 ∨ c = 93 ∨ c = 125)%N end.

Lemma run_unique (P : N → Prop) l l' s t :
  Forall P l → Forall P l' → stops s → stops t →
  (∀ c, P c → c ≠ 44 ∧ c ≠ 93 ∧ c ≠ 125)%N →
  l ++ s = l' ++ t → l = l' ∧ s = t.
Proof.
  intros Hl. revert l'. induction Hl as [|c l Hc Hl IH]; intros l' Hl' Hs Ht HP Heq.
  - destruct Hl' as [|c' l' Hc' ?]; [done|]. simpl in *. subst s. simpl in Hs.
    destruct (HP c' Hc'). naive_solver.
  - destruct Hl' as [|c' l' Hc' ?]; simpl in *.
    + subst t. simpl in Ht. destruct (HP c Hc). naive_solver.
    + injection Heq as -> Heq. by destruct (IH l') as [-> ->].
Qed.

Lemma dumps_int_unique z z' s t :
  stops s → stops t → dumps_int z ++ s = dumps_int z' ++ t → z = z' ∧ s = t.
Proof.
  intros Hs Ht Heq.
  destruct (run_unique int_char (dumps_int z) (dumps_int z') s t) as [E1 E2];
    [apply dumps_int_chars..|done|done| |done|].
  - unfold int_char. lia.
  - by apply cps_inj, pretty_Z_inj in E1.
Qed.

(** ** Values *)

Section JsonInduction.
Variable P : json → Prop.
Hypothesis HNull : P JNull.
Hypothesis HBool : ∀ b, P (JBool b).
Hypothesis HInt : ∀ z, P (JInt z).
Hypothesis HFloat : ∀ q, P (JFloat q).
Hypothesis HStr : ∀ t, P (JStr t).
Hypothesis HArr : ∀ l, Forall P l → P (JArr l).
Hypothesis HObj : ∀ l, Forall (λ kv, P kv.2) l → P (JObj l).

Fixpoint json_ind' (v : json) : P v :=
  match v with
  | JNull => HNull
  | JBool b => HBool b
  | JInt z => HInt z
  | JFloat q => HFloat q
  | JStr t => HStr t
  | JArr l => HArr l ((fix go (l : list json) : Forall P l :=
      match l with
      | [] => Forall_nil_2 P
      | x :: l' => Forall_cons_2 P x l' (json_ind' x) (go l')
      end) l)
  | JObj l => HObj l ((fix go (l : list (string * json)) : Forall (λ kv, P kv.2) l :=
      match l with
      | [] => Forall_nil_2 _
      | kv :: l' => Forall_cons_2 (λ kv, P kv.2) kv l' (json_ind' kv.2) (go l')
      end) l)
  end.
End JsonInduction.

(** Equality of values is decidable. *)
Fixpoint json_eqb (x y : json) {struct x} : bool :=
  match x, y with
  | JNull, JNull => true
  | JBool a, JBool b => Bool.eqb a b
  | JInt a, JInt b => (a =? b)%Z
  | JFloat a, JFloat b => (Qnum a =? Qnum b)%Z && (Qden a =? Qden b)%positive
  | JStr a, JStr b => bool_decide (a = b)
  | JArr a, JArr b => (fix go (a b : list json) :=
      match a, b with
      | [], [] => true
      | x :: a', y :: b' => json_eqb x y && go a' b'
      | _, _ => false
      end) a b
  | JObj a, JObj b => (fix go (a b : list (string * json)) :=
      match a, b with
      | [], [] => true
      | kx :: a', ky :: b' => String.eqb kx.1 ky.1 && json_eqb kx.2 ky.2 && go a' b'
      | _, _ => false
      end) a b
  | _, _ => false
  end.

Lemma json_eqb_eq x y : json_eqb x y = true ↔ x = y.
Proof.
  revert y. induction x as [|b|z|q|t|l IH|l IH] using json_ind'; intros y; destruct y as [|b'|z'|q'|t'|l'|l']; simpl; try done.
  - rewrite Bool.eqb_true_iff. naive_solver.
  - rewrite Z.eqb_eq. naive_solver.
  - rewrite andb_true_iff, Z.eqb_eq, Pos.eqb_eq. destruct q, q'; simpl. naive_solver.
  - rewrite bool_decide_eq_true. naive_solver.
  - revert l'. induction IH as [|x l Hx _ IHl]; intros [|y l']; try done. rewrite andb_true_iff, Hx, IHl. naive_solver.
  - revert l'. induction IH as [|[k x] l Hx _ IHl]; intros [|[k' y] l']; try done. simpl in *.
    rewrite !andb_true_iff, String.eqb_eq, Hx, IHl. naive_solver.
Qed.

#[export] Instance json_eq_dec : EqDecision json.
Proof. intros x y. destruct (json_eqb x y) eqn:E; [left|right]; rewrite <-json_eqb_eq; congruence. Defined.

(** Values with no float and whose strings are Unicode scalar values. *)
Fixpoint plain (v : json) : Prop :=
  match v with
  | JFloat _ => False
  | JStr t => Forall scalar t
  | JArr l => foldr (λ x acc, plain x ∧ acc) True l
  | JObj l => foldr (λ kv acc, plain kv.2 ∧ acc) True l
  | _ => True
  end.

Lemma plain_arr l : plain (JArr l) ↔ Forall plain l.
Proof. induction l as [|x l IH]; simpl in *; [by split|]. rewrite Forall_cons. tauto. Qed.

Lemma plain_obj l : plain (JObj l) ↔ Forall (λ kv, plain kv.2) l.
Proof. induction l as [|x l IH]; simpl in *; [by split|]. rewrite Forall_cons. tauto. Qed.

Section Uniqueness.
Context `{Runtime}.

(** The printed form of [x] determines it among plain values. *)
Definition determined (x : json) : Prop := ∀ w s t,
  plain x → plain w → stops s → stops t → dumps x ++ s = dumps w ++ t → x = w ∧ s = t.

Lemma stops_tail {A} (f : A → text) (l : list A) close s :
  close = 93%N ∨ close = 125%N → stops ((l ≫= λ y, 44%N :: f y) ++ close :: s).
Proof. intros Hc. destruct l as [|x l]; simpl; naive_solver. Qed.

Lemma dumps_head v : plain v → ∃ c l, dumps v = c :: l ∧
  match v with
  | JNull => c = 110 | JBool true => c = 116 | JBool false => c = 102
  | JInt _ => int_char c | JFloat _ => False | JStr _ => c = 34
  | JArr _ => c = 91 | JObj _ => c = 123
  end%N.
Proof.
  destruct v as [|[]|z|q|t|l|l]; simpl; intros Hp;
    first [by destruct Hp | by eexists _, _ | idtac].
  destruct (dumps_int_cons z) as (c & l & E & Hc). eauto.
Qed.

(** Printed sequences of items, each determined by its text. *)
Lemma join_unique {A} (f : A → text) (ok : A → Prop) (l l' : list A) close s t :
  close = 93%N ∨ close = 125%N →
  Forall (λ x, ∀ y s t, ok x → ok y → stops s → stops t → f x ++ s = f y ++ t → x = y ∧ s = t) l →
  (∀ x, ok x → ∃ c r, f x = c :: r ∧ c ≠ 93 ∧ c ≠ 125)%N →
  Forall ok l → Forall ok l' →
  (l ≫= λ y, 44%N :: f y) ++ close :: s = (l' ≫= λ y, 44%N :: f y) ++ close :: t →
  l = l' ∧ s = t.
Proof.
  intros Hcl Hl Hhd. revert l'. induction Hl as [|x l Hx Hl IH]; intros l' Hok Hok' Heq.
  - destruct l' as [|y l']; simpl in *; [by simplify_eq|]. naive_solver.
  - destruct l' as [|y l']; simpl in *; [naive_solver|].
    inversion Hok; inversion Hok'; subst. injection Heq as Heq.
    rewrite <-!(assoc_L (++)) in Heq.
    apply Hx in Heq as [-> Heq]; [|done|done|by apply stops_tail..].
    by apply IH in Heq as [-> ->].
Qed.

Lemma joined_unique {A} (f : A → text) (ok : A → Prop) (l l' : list A) close s t :
  close = 93%N ∨ close = 125%N →
  Forall (λ x, ∀ y s t, ok x → ok y → stops s → stops t → f x ++ s = f y ++ t → x = y ∧ s = t) l →
  (∀ x, ok x → ∃ c r, f x = c :: r ∧ c ≠ 93 ∧ c ≠ 125)%N →
  Forall ok l → Forall ok l' →
  (join 44 (f <$> l) ++ [close]) ++ s = (join 44 (f <$> l') ++ [close]) ++ t →
  l = l' ∧ s = t.
Proof.
  intros Hcl Hl Hhd Hok Hok' Heq. rewrite <-!(assoc_L (++)) in Heq. simpl in Heq.
  assert (∀ k : list A, k ≠ [] → 44%N :: join 44 (f <$> k) = (k ≫= λ y, 44%N :: f y)) as Hj.
  { assert (∀ k, ((f <$> k) ≫= λ y, 44%N :: y) = (k ≫= λ y, 44%N :: f y)) as Hk.
    { intros k. induction k as [|y k IHk]; [done|]. csimpl. rewrite <-IHk. done. }
    intros [|x k] ?; [done|]. csimpl. rewrite Hk. done. }
  destruct l as [|x l], l' as [|y l']; [by simplify_eq/=| | |].
  - inversion Hok'; subst. destruct (Hhd y) as (c & r & E & ?); [done|].
    simpl in Heq. rewrite E in Heq. simpl in Heq. naive_solver.
  - inversion Hok; subst. destruct (Hhd x) as (c & r & E & ?); [done|].
    simpl in Heq. rewrite E in Heq. simpl in Heq. naive_solver.
  - apply (f_equal (cons 44%N)) in Heq. rewrite !app_comm_cons, !Hj in Heq by done.
    by eapply join_unique.
Qed.

Lemma dumps_unique v : determined v.
Proof.
  induction v as [|b|z|q|u|l IH|l IH] using json_ind'; intros w s t Hv Hw Hs Ht Heq;
    destruct (dumps_head _ Hw) as (c & r & E & Hc); rewrite E in Heq;
    destruct (dumps_head _ Hv) as (c0 & r0 & E0 & Hc0); rewrite E0 in Heq;
    injection Heq as -> Heq.
  all: destruct w as [|[]|z'|q'|u'|l'|l']; try done; simpl in Hc0, Hc;
    try (destruct b); try done; unfold int_char in *; try (exfalso; lia).
  all: try (simpl in E, E0; simplify_eq/=; done).
  - assert (dumps_int z ++ s = dumps_int z' ++ t) as E1.
    { change (dumps (JInt z)) with (dumps_int z) in E0.
      change (dumps (JInt z')) with (dumps_int z') in E. rewrite E, E0. simpl. by f_equal. }
    by apply dumps_int_unique in E1 as [-> ->].
  - assert (dumps_str u ++ s = dumps_str u' ++ t) as E1.
    { change (dumps (JStr u)) with (dumps_str u) in E0.
      change (dumps (JStr u')) with (dumps_str u') in E. rewrite E, E0. simpl. by f_equal. }
    by apply dumps_str_unique in E1 as [-> ->].
  - simpl in E, E0. injection E as E. injection E0 as E0. subst r r0.
    apply plain_arr in Hv, Hw.
    apply (joined_unique dumps plain) in Heq as [-> ->]; [done|by left| | |done..].
    + eapply Forall_impl; [exact IH|]. intros x Hx y s' t' ????. by apply Hx.
    + intros x Hx. destruct (dumps_head _ Hx) as (c1 & r1 & E1 & Hc1). eexists _, _.
      split; [done|]. destruct x as [|[]|?|?|?|?|?]; unfold int_char in *; lia.
  - simpl in E, E0. injection E as E. injection E0 as E0. subst r r0.
    apply plain_obj in Hv, Hw.
    apply (joined_unique (λ kv, dumps_str (cps kv.1) ++ 58%N :: dumps kv.2) (λ kv, plain kv.2))
      in Heq as [-> ->]; [done|by right| | |done..].
    + eapply Forall_impl; [exact IH|].
      intros [k x] Hx [k' y] s' t' ? ? ? ? Heq'. cbn [fst snd] in *.
      rewrite <-!(assoc_L (++)) in Heq'.
      apply dumps_str_unique in Heq' as [->%cps_inj [= Heq']]; [|apply cps_scalar..].
      by apply Hx in Heq' as [-> ->].
    + intros [k x] _. by eexists _, _.
Qed.

(** [canonical] identifies exactly the values that agree up to key order. *)
Lemma canonical_sorted_inj v w :
  plain (sort_keys v) → plain (sort_keys w) → canonical v = canonical w →
  sort_keys v = sort_keys w.
Proof.
  intros Hv Hw Heq. unfold canonical in Heq.
  destruct (dumps_unique (sort_keys v) (sort_keys w) [] []) as [E _]; try done.
  by rewrite !app_nil_r.
Qed.

Lemma plain_sort_keys v : plain v → plain (sort_keys v).
Proof.
  induction v as [|b|z|q|u|l IH|l IH] using json_ind'; intros Hv; try done.
  - change (sort_keys (JArr l)) with (JArr (sort_keys <$> l)).
    rewrite plain_arr in *. apply Forall_fmap. rewrite Forall_forall in *. naive_solver.
  - change (sort_keys (JObj l)) with
      (JObj (order_by key_le ((λ kv, (kv.1, sort_keys kv.2)) <$> l))).
    rewrite plain_obj in *. rewrite order_by_Permutation. apply Forall_fmap.
    rewrite Forall_forall in *. simpl. naive_solver.
Qed.

End Uniqueness.
