(* ===== verification/Contracts.v ===== *)
(** * Immutable document contracts

    [documents/models.py], [documents/policy.py], [documents/provenance.py] and
    the evidence index of [documents/digestion/validation.py].  Offsets are
    half-open code-point intervals, instants are microseconds. *)

From stdpp Require Import base tactics list strings option pretty.
From Stdlib Require Import ZArith NArith QArith Lia.
From S2P Require Import Prelude Json.

Local Open Scope Z_scope.

(** ** Python text operations the contracts use *)

(** [str.isspace] of one character. *)
Definition isspace (c : N) : bool :=
  ((9 <=? c) && (c <=? 13) || (28 <=? c) && (c <=? 32) || (c =? 133) || (c =? 160)
   || (c =? 5760) || (8192 <=? c) && (c <=? 8202) || (c =? 8232) || (c =? 8233)
   || (c =? 8239) || (c =? 8287) || (c =? 12288))%N.

(** [bool(t.strip())]. *)
Definition has_text (t : text) : bool := existsb (λ c, negb (isspace c)) t.

(** [t.count(chr(c))]. *)
Definition count_char (c : N) (t : text) : Z := Z.of_nat (length (List.filter (N.eqb c) t)).

Definition newline : N := 10%N.

(** [t.rstrip('\n')]. *)
Fixpoint rstrip_newlines (t : text) : text :=
  match t with
  | [] => []
  | c :: t' =>
      match rstrip_newlines t' with
      | [] => if (c =? newline)%N then [] else [c]
      | r => c :: r
      end
  end.

(** [t[start:end]] for non-negative bounds. *)
Definition slice {A} (t : list A) (start stop : Z) : list A :=
  take (Z.to_nat stop - Z.to_nat start) (drop (Z.to_nat start) t).

Definition len {A} (l : list A) : Z := Z.of_nat (length l).

Definition is_hex (c : N) : bool := ((48 <=? c) && (c <=? 57) || (97 <=? c) && (c <=? 102))%N.

(** [^[0-9a-f]{64}$] *)
Definition is_digest (d : digest) : bool :=
  (length (cps d) =? 64)%nat && forallb is_hex (cps d).

(** ** Records *)

Record Scope := { tenant : uuid; owner : uuid }.
#[export] Instance Scope_eq_dec : EqDecision Scope.
Proof. solve_decision. Defined.

Definition identity (s : Scope) : string := tenant s +:+ ":" +:+ owner s.

Inductive ObjectKind := source_kind | artifact_kind.
#[export] Instance ObjectKind_eq_dec : EqDecision ObjectKind.
Proof. solve_decision. Defined.

Definition kind_str (k : ObjectKind) : string :=
  match k with source_kind => "source" | artifact_kind => "artifact" end.

Record ObjectRef := {
  ref_scope : Scope; ref_kind : ObjectKind; ref_object_id : uuid; ref_key : uuid;
  ref_sha256 : digest; ref_byte_size : Z }.
#[export] Instance ObjectRef_eq_dec : EqDecision ObjectRef.
Proof. solve_decision. Defined.

Inductive Mime := application_pdf | text_plain.
#[export] Instance Mime_eq_dec : EqDecision Mime.
Proof. solve_decision. Defined.

Record Document := {
  document_id : uuid; document_version_id : uuid; doc_scope : Scope; doc_source : ObjectRef;
  display_filename : text; declared_mime : text; detected_mime : Mime;
  page_count : option Z; language : option text; language_confidence : option Q;
  created_at : Z }.

Record Span := { sp_start : Z; sp_end : Z; line_start : option Z; line_end : option Z }.
#[export] Instance Span_eq_dec : EqDecision Span.
Proof. solve_decision. Defined.

Inductive GeometryUnits := g_points | g_pixels | g_relative.
Inductive GeometryOrigin := top_left | bottom_left.
Record Geometry := {
  coordinates : list Q; geo_units : GeometryUnits; geo_origin : GeometryOrigin }.

Inductive VisualState := v_unparsed | v_unsupported | v_parsed.

Record Visual := {
  v_state : VisualState; v_caption : option text; v_cells : option (list (list text));
  v_image : option ObjectRef }.

Inductive BlockKind := b_text | b_paragraph | b_heading | b_table | b_figure | b_caption | b_unknown.
#[export] Instance BlockKind_eq_dec : EqDecision BlockKind.
Proof. solve_decision. Defined.

Record Block := {
  block_id : uuid; blk_source_id : uuid; blk_kind : BlockKind; reading_order : Z;
  source_text : text; blk_span : Span; normalized_text : option text;
  geometry : option Geometry; parent_id : option uuid; child_ids : list uuid;
  visual : option Visual }.

Record Observations := {
  character_count : Z; printable_ratio : Q; replacement_ratio : Q; has_native_text : bool;
  has_images : option bool; has_graphics : option bool; parser_failed : bool;
  structure_required : bool; block_count : Z }.

Inductive Outcome :=
| native_accepted | layout_required | ocr_required | unsupported | failed | manual_review.
#[export] Instance Outcome_eq_dec : EqDecision Outcome.
Proof. solve_decision. Defined.

Inductive Tier := tier_native | tier_layout | tier_ocr | tier_none.
#[export] Instance Tier_eq_dec : EqDecision Tier.
Proof. solve_decision. Defined.

Inductive Reason :=
| native_text | blank | image_without_text | structure_requested | unusable_text
| parser_failure | unresolved_graphics.
#[export] Instance Reason_eq_dec : EqDecision Reason.
Proof. solve_decision. Defined.

Record Decision := {
  dec_source_id : uuid; dec_observations : Observations; outcome : Outcome;
  next_tier : Tier; reason : Reason }.

Inductive UnitStatus := u_native_text | u_blank | u_image_only | u_unresolved | u_failed.
#[export] Instance UnitStatus_eq_dec : EqDecision UnitStatus.
Proof. solve_decision. Defined.

Inductive Method := m_native | m_ocr | m_layout.

Record TextUnit := {
  unit_source_id : uuid; unit_version_id : uuid; physical_page : option Z;
  printed_label : option text; width : option Q; height : option Q; rotation : option Z;
  status : UnitStatus; method : Method; unit_parser_version : text; unit_text : text;
  blocks : list Block; decision : Decision; ocr_engine : option text;
  ocr_model_version : option text; ocr_confidence : option Q }.

Record EvidenceRef := {
  ev_scope : Scope; ev_version_id : uuid; ev_extraction_id : uuid; ev_source_id : uuid;
  ev_block_id : uuid; ev_span : Span }.
#[export] Instance EvidenceRef_eq_dec : EqDecision EvidenceRef.
Proof. solve_decision. Defined.

Record ExtractionArtifact := {
  document : Document; extraction_id : uuid; art_parser_version : text; extracted_at : Z;
  max_source_bytes : Z; max_pages : Z; max_characters : Z; max_blocks : Z;
  art_structure_required : bool; units : list TextUnit }.

(** ** Model validators *)

(** [ValueError(msg)]. *)
Definition ensure (ok : bool) (msg : string) : result string unit :=
  if ok then Ok tt else Err msg.

Definition text_eqb (a b : text) : bool := bool_decide (a = b).

#[export] Instance result_eq_dec `{EqDecision E, EqDecision A} : EqDecision (result E A).
Proof. solve_decision. Defined.

Section Validators.
Context `{Runtime}.

Definition object_key (s : Scope) (k : ObjectKind) (id : uuid) : uuid :=
  stable_id [cps (identity s); cps (kind_str k); cps id].

(** [ObjectRef] with its field constraints and [valid_key]. *)
Definition valid_object_ref (r : ObjectRef) : bool :=
  is_digest (ref_sha256 r) && (0 <=? ref_byte_size r)
  && bool_decide (ref_key r = object_key (ref_scope r) (ref_kind r) (ref_object_id r)).

(** [stable_id(scope.identity(), str(document_id), source.sha256)]. *)
Definition version_identity (s : Scope) (doc : uuid) (sha : digest) : uuid :=
  stable_id [cps (identity s); cps doc; cps sha].

(** [Document.lineage]. *)
Definition lineage (d : Document) : result string unit :=
  let expected := version_identity (doc_scope d) (document_id d) (ref_sha256 (doc_source d)) in
  _ ← ensure (bool_decide (ref_scope (doc_source d) = doc_scope d)
              && bool_decide (ref_kind (doc_source d) = source_kind)
              && bool_decide (document_version_id d = expected)
              && bool_decide (ref_object_id (doc_source d) = expected)) "invalid source lineage";
  ensure (Bool.eqb (bool_decide (detected_mime d = application_pdf))
                   (bool_decide (is_Some (page_count d)))) "invalid page count".

(** [Span.ordered], after the [ge=0]/[ge=1] field constraints. *)
Definition valid_span (s : Span) : bool :=
  (0 <=? sp_start s) && (0 <=? sp_end s)
  && (match line_start s with Some l => 1 <=? l | None => true end)
  && (match line_end s with Some l => 1 <=? l | None => true end)
  && (sp_start s <=? sp_end s)
  && match line_start s, line_end s with
     | None, None => true
     | Some a, Some b => a <=? b
     | _, _ => false
     end.

Definition z_text (z : Z) : text := dumps_int z.
Definition bool_text (b : bool) : text := cps (if b then "True" else "False").

Definition extraction_identity (s : Scope) (version : uuid) (parser : text) (at_ : Z)
    (msb mp mc mb : Z) (structure : bool) : uuid :=
  stable_id [cps (identity s); cps version; cps "extraction/1"; cps "native/1";
             cps "identity/1"; cps "native-policy/1"; parser; isoformat_utc at_;
             z_text msb; z_text mp; z_text mc; z_text mb; bool_text structure].

(** One block of [validate_graph]'s inner loop: index, covered offset and line
    number before the block; covered offset and line number after it. *)
Definition check_block (a : ExtractionArtifact) (u : TextUnit) (block_ids : list uuid)
    (index covered line : Z) (b : Block) : result string (Z * Z) :=
  let sp := blk_span b in
  _ ← ensure
       (bool_decide (block_id b = stable_id [cps (extraction_id a); cps (unit_source_id u); z_text index])
        && bool_decide (blk_source_id b = unit_source_id u)
        && (reading_order b =? index)
        && (sp_start sp =? covered)
        && (sp_end sp <=? len (unit_text u))
        && text_eqb (slice (unit_text u) (sp_start sp) (sp_end sp)) (source_text b)
        && (match normalized_text b with None => true | Some t => text_eqb t (source_text b) end)
        && (match parent_id b with None => true | Some p => bool_decide (p ∈ block_ids) end)
        && forallb (λ c, bool_decide (c ∈ block_ids)) (child_ids b))
       "invalid block provenance";
  _ ← (match page_count (document a) with
       | None =>
           let stop := line + count_char newline (rstrip_newlines (source_text b)) in
           ensure (bool_decide (line_start sp = Some line) && bool_decide (line_end sp = Some stop))
             "invalid line provenance"
       | Some _ => ensure (bool_decide (line_start sp = None)) "invalid PDF span"
       end);
  _ ← (match visual b ≫= v_image with
       | Some img => ensure (bool_decide (ref_scope img = doc_scope (document a))) "invalid visual scope"
       | None => Ok tt
       end);
  Ok (sp_end sp, line + count_char newline (source_text b)).

Fixpoint check_blocks (a : ExtractionArtifact) (u : TextUnit) (block_ids : list uuid)
    (index covered line : Z) (bs : list Block) : result string Z :=
  match bs with
  | [] => Ok covered
  | b :: bs' =>
      '(covered', line') ← check_block a u block_ids index covered line b;
      check_blocks a u block_ids (index + 1) covered' line' bs'
  end.

(** The ratio checks compare the recorded float with an exact quotient. *)
Definition ratio (n d : Z) (empty : Q) : Q :=
  if d =? 0 then empty else inject_Z n / inject_Z d.

Definition expected_source_id (a : ExtractionArtifact) (u : TextUnit) : uuid :=
  stable_id [cps (document_version_id (document a));
             match physical_page u with
             | None => cps "text"
             | Some p => cps "page:" ++ z_text p
             end].

(** One unit of [validate_graph]'s outer loop, with the ids seen so far. *)
Definition check_unit (a : ExtractionArtifact) (ids : list uuid) (u : TextUnit)
    : result string unit :=
  let o := dec_observations (decision u) in
  let printable :=
    Z.of_nat (length (List.filter
      (λ c, isprintable c || (c =? 13)%N || (c =? 10)%N || (c =? 9)%N) (unit_text u))) in
  _ ← ensure (bool_decide (unit_version_id u = document_version_id (document a))
              && negb (bool_decide (unit_source_id u ∈ ids))
              && bool_decide (dec_source_id (decision u) = unit_source_id u)
              && text_eqb (unit_parser_version u) (art_parser_version a)) "invalid unit lineage";
  _ ← ensure (bool_decide (unit_source_id u = expected_source_id a u)) "invalid source identity";
  _ ← ensure (character_count o =? len (unit_text u)) "invalid observations";
  _ ← ensure ((block_count o =? len (blocks u))
              && Bool.eqb (has_native_text o) (has_text (unit_text u))
              && Bool.eqb (structure_required o) (art_structure_required a)
              && Bool.eqb (parser_failed o) (bool_decide (status u = u_failed)))
         "inconsistent observations";
  _ ← ensure (match physical_page u with
              | None => bool_decide (printed_label u = None) && bool_decide (width u = None)
                        && bool_decide (height u = None) && bool_decide (rotation u = None)
              | Some _ => true
              end) "fabricated page metadata";
  _ ← ensure (Qeq_bool (printable_ratio o) (ratio printable (len (unit_text u)) 1)
              && Qeq_bool (replacement_ratio o)
                   (ratio (count_char 65533 (unit_text u)) (len (unit_text u)) 0))
         "invalid text quality observations";
  let block_ids := block_id <$> blocks u in
  _ ← ensure (bool_decide (NoDup block_ids)) "duplicate blocks";
  covered ← check_blocks a u block_ids 0 0 1 (blocks u);
  ensure (covered =? len (unit_text u)) "incomplete text coverage".

Fixpoint check_units (a : ExtractionArtifact) (ids : list uuid) (us : list TextUnit)
    : result string unit :=
  match us with
  | [] => Ok tt
  | u :: us' => _ ← check_unit a ids u; check_units a (unit_source_id u :: ids) us'
  end.

(** [list(range(1, n + 1))]. *)
Definition page_range (n : Z) : list (option Z) :=
  (λ i, Some (Z.of_nat i)) <$> seq 1 (Z.to_nat n).

Definition validate_graph (a : ExtractionArtifact) : result string unit :=
  let doc := document a in
  _ ← ensure (bool_decide (extraction_id a = extraction_identity
          (doc_scope doc) (document_version_id doc) (art_parser_version a) (extracted_at a)
          (max_source_bytes a) (max_pages a) (max_characters a) (max_blocks a)
          (art_structure_required a))) "invalid extraction identity";
  _ ← ensure ((ref_byte_size (doc_source doc) <=? max_source_bytes a)
              && (default 0 (page_count doc) <=? max_pages a)) "invalid source budget";
  let pages := physical_page <$> units a in
  let expected := match page_count doc with
                  | Some n => if n =? 0 then [None] else page_range n
                  | None => [None]
                  end in
  _ ← ensure (bool_decide (pages = expected)) "incomplete source inventory";
  _ ← check_units a [] (units a);
  _ ← ensure (sum_by (λ u, len (unit_text u)) (units a) <=? max_characters a)
         "invalid character budget";
  ensure (sum_by (λ u, len (blocks u)) (units a) <=? max_blocks a) "invalid block budget".

(** The [Field] constraints of the parts of an artifact, as pydantic enforces them when the
    models are constructed. *)
Definition positive (o : option Q) : bool :=
  match o with Some q => negb (Qle_bool q 0) | None => true end.
Definition unit_interval (q : Q) : bool := Qle_bool 0 q && Qle_bool q 1.
Definition opt_interval (o : option Q) : bool :=
  match o with Some q => unit_interval q | None => true end.

Definition valid_block (b : Block) : bool :=
  (0 <=? reading_order b)
  && match visual b ≫= v_image with Some img => valid_object_ref img | None => true end.

Definition valid_observations (o : Observations) : bool :=
  (0 <=? character_count o) && unit_interval (printable_ratio o)
  && unit_interval (replacement_ratio o) && (0 <=? block_count o).

Definition valid_text_unit (u : TextUnit) : bool :=
  match physical_page u with Some p => 1 <=? p | None => true end
  && positive (width u) && positive (height u) && valid_observations (dec_observations (decision u))
  && opt_interval (ocr_confidence u) && forallb valid_block (blocks u).

Definition valid_document (d : Document) : bool :=
  valid_object_ref (doc_source d) && (len (display_filename d) <=? 512)
  && opt_interval (language_confidence d).

Definition valid_fields (a : ExtractionArtifact) : bool :=
  valid_document (document a) && (0 <? max_source_bytes a) && (0 <? max_pages a)
  && (0 <? max_characters a) && (0 <? max_blocks a) && forallb valid_text_unit (units a).

(** A constructed [ExtractionArtifact]: the field constraints of its parts, the
    document's lineage and the graph checks all passed. *)
Definition model_valid (a : ExtractionArtifact) : bool :=
  forallb (λ u, forallb (λ b, valid_span (blk_span b)) (blocks u)) (units a)
  && match page_count (document a) with Some n => 1 <=? n | None => true end
  && valid_fields a
  && bool_decide (lineage (document a) = Ok tt)
  && bool_decide (validate_graph a = Ok tt).

End Validators.

(** ** [documents/policy.py] *)

Module Policy.
Definition decide (source_id : uuid) (o : Observations) : Decision :=
  let '(out, tier, why) :=
    if parser_failed o then (failed, tier_none, parser_failure)
    else if negb (has_native_text o) && default false (has_images o)
    then (ocr_required, tier_ocr, image_without_text)
    else if negb (Qle_bool (replacement_ratio o) 0)
            || (has_native_text o && negb (Qle_bool 1 (printable_ratio o)))
    then (manual_review, tier_none, unusable_text)
    else if has_native_text o && structure_required o
    then (layout_required, tier_layout, structure_requested)
    else if has_native_text o then (native_accepted, tier_native, native_text)
    else if negb (bool_decide (has_graphics o = Some false))
    then (manual_review, tier_none, unresolved_graphics)
    else (native_accepted, tier_native, blank) in
  {| dec_source_id := source_id; dec_observations := o; outcome := out;
     next_tier := tier; reason := why |}.
End Policy.

(** ** [documents/provenance.py] *)

(** [DocumentError(category)]. *)
Inductive DocumentError := mkDocumentError (category : string).

Definition invalid_reference : DocumentError := mkDocumentError "invalid_reference".
Definition scope_mismatch : DocumentError := mkDocumentError "scope_mismatch".

(** The first block of the unit with the referenced id decides the outcome:
    [Some t] returns, [None] is [break] (or no such block). *)
Fixpoint resolve_blocks (u : TextUnit) (ref : EvidenceRef) (bs : list Block) : option text :=
  match bs with
  | [] => None
  | b :: bs' =>
      if bool_decide (block_id b = ev_block_id ref) then
        let sp := ev_span ref in
        if (sp_start (blk_span b) <=? sp_start sp) && (sp_start sp <=? sp_end sp)
           && (sp_end sp <=? sp_end (blk_span b))
        then
          match physical_page u with
          | None =>
              let t := slice (unit_text u) (sp_start sp) (sp_end sp) in
              let start := 1 + count_char newline (slice (unit_text u) 0 (sp_start sp)) in
              let stop := start + count_char newline (rstrip_newlines t) in
              if bool_decide (line_start sp = Some start) && bool_decide (line_end sp = Some stop)
              then Some t else None
          | Some _ =>
              if bool_decide (line_start sp = None)
              then Some (slice (unit_text u) (sp_start sp) (sp_end sp)) else None
          end
        else None
      else resolve_blocks u ref bs'
  end.

Fixpoint resolve_units (ref : EvidenceRef) (us : list TextUnit) : option text :=
  match us with
  | [] => None
  | u :: us' =>
      if bool_decide (unit_source_id u = ev_source_id ref) then
        match resolve_blocks u ref (blocks u) with
        | Some t => Some t
        | None => resolve_units ref us'
        end
      else resolve_units ref us'
  end.

Definition resolve (a : ExtractionArtifact) (scope : Scope) (ref : EvidenceRef)
    : result DocumentError text :=
  if negb (bool_decide (scope = doc_scope (document a))) || negb (bool_decide (scope = ev_scope ref))
  then Err scope_mismatch
  else if negb (bool_decide (ev_version_id ref = document_version_id (document a)))
          || negb (bool_decide (ev_extraction_id ref = extraction_id a))
  then Err invalid_reference
  else match resolve_units ref (units a) with
       | Some t => Ok t
       | None => Err invalid_reference
       end.

(** ** [EvidenceIndex] of [documents/digestion/validation.py] *)

(** [bisect.bisect_left(l, x)]: the library's binary search. *)
Fixpoint bisect_loop (fuel : nat) (l : list Z) (x : Z) (lo hi : nat) : nat :=
  match fuel with
  | O => lo
  | S fuel' =>
      if (lo <? hi)%nat then
        let mid := ((lo + hi) / 2)%nat in
        if (nth mid l 0 <? x) then bisect_loop fuel' l x (S mid) hi
        else bisect_loop fuel' l x lo mid
      else lo
  end.

Definition bisect_left (l : list Z) (x : Z) : Z :=
  Z.of_nat (bisect_loop (S (length l)) l x 0 (length l)).

(** [[i for i, char in enumerate(t) if char == '\n']], starting at [i]. *)
Fixpoint newline_positions (i : Z) (t : text) : list Z :=
  match t with
  | [] => []
  | c :: t' => (if (c =? newline)%N then [i] else []) ++ newline_positions (i + 1) t'
  end.

Record EvidenceIndex := {
  idx_artifact : ExtractionArtifact;
  (** dict insertions in order; the last entry of a key wins *)
  idx_blocks : list (uuid * (TextUnit * Block));
  idx_lines : list (uuid * list Z) }.

Definition build_index (a : ExtractionArtifact) : EvidenceIndex := {|
  idx_artifact := a;
  idx_blocks := units a ≫= λ u, (λ b, (block_id b, (u, b))) <$> blocks u;
  idx_lines := units a ≫= λ u,
    match physical_page u with
    | None => [(unit_source_id u, newline_positions 0 (unit_text u))]
    | Some _ => []
    end |}.

(** [dict.get(k)] on a dict built by these insertions. *)
Fixpoint dict_get {V} (k : uuid) (l : list (uuid * V)) : option V :=
  match l with
  | [] => None
  | (k', v) :: l' =>
      match dict_get k l' with
      | Some w => Some w
      | None => if bool_decide (k' = k) then Some v else None
      end
  end.

Definition index_resolve (i : EvidenceIndex) (ref : EvidenceRef) : result string text :=
  let a := idx_artifact i in
  let doc := document a in
  match dict_get (ev_block_id ref) (idx_blocks i) with
  | Some (u, b) =>
      if bool_decide (ev_scope ref = doc_scope doc)
         && bool_decide (ev_version_id ref = document_version_id doc)
         && bool_decide (ev_extraction_id ref = extraction_id a)
      then
        let sp := ev_span ref in
        if bool_decide (unit_source_id u = ev_source_id ref)
           && (sp_start (blk_span b) <=? sp_start sp) && (sp_start sp <=? sp_end sp)
           && (sp_end sp <=? sp_end (blk_span b))
        then
          let t := slice (unit_text u) (sp_start sp) (sp_end sp) in
          let expected := (λ lines, 1 + bisect_left lines (sp_start sp))
                            <$> dict_get (unit_source_id u) (idx_lines i) in
          let stop := (λ e, e + count_char newline (rstrip_newlines t)) <$> expected in
          if bool_decide (line_start sp = expected) && bool_decide (line_end sp = stop)
          then Ok t else Err "evidence_validation_failed"
        else Err "evidence_validation_failed"
      else Err "evidence_validation_failed"
  | None => Err "evidence_validation_failed"
  end.
