(* ===== verification/ContractFacts.v ===== *)
(** * Facts about the document contracts

    A validated artifact's blocks partition each unit's text, evidence resolves
    to exactly the referenced slice, and the linear index of the digestion plane
    resolves the same references to the same text as [provenance.resolve]. *)

From stdpp Require Import base tactics list strings option sets.
From Stdlib Require Import ZArith NArith QArith Lia Sorted.
From S2P Require Import Prelude Json Contracts.

Local Open Scope Z_scope.

(** ** Slices *)

Section Slices.
Context {A : Type}.
Implicit Types t : list A.

Lemma slice_app t a b c :
  0 ≤ a → a ≤ b → b ≤ c → slice t a b ++ slice t b c = slice t a c.
Proof.
  intros Ha Hab Hbc. unfold slice.
  replace (Z.to_nat c - Z.to_nat a)%nat
    with ((Z.to_nat b - Z.to_nat a) + (Z.to_nat c - Z.to_nat b))%nat by lia.
  rewrite <-take_take_drop. f_equal. rewrite drop_drop. do 2 f_equal. lia.
Qed.

Lemma slice_nil t a : slice t a a = [].
Proof. unfold slice. by rewrite Nat.sub_diag. Qed.

Lemma slice_all t : slice t 0 (len t) = t.
Proof. unfold slice, len. rewrite Nat2Z.id. simpl. rewrite Nat.sub_0_r. apply firstn_all. Qed.

Lemma slice_slice t a b c d :
  0 ≤ a → a ≤ c → c ≤ d → d ≤ b → slice (slice t a b) (c - a) (d - a) = slice t c d.
Proof.
  intros. unfold slice.
  replace (Z.to_nat b - Z.to_nat a)%nat
    with (Z.to_nat (c - a) + (Z.to_nat b - Z.to_nat c))%nat by lia.
  rewrite <-take_drop_commute, take_take, drop_drop. f_equal; [lia|]. f_equal. lia.
Qed.

Lemma slice_length t a b : 0 ≤ a → a ≤ b → b ≤ len t → len (slice t a b) = b - a.
Proof. intros. unfold slice, len in *. rewrite length_take, length_drop. lia. Qed.
End Slices.

(** ** Inverting the validators *)

Lemma ensure_Ok b msg x : ensure b msg = Ok x ↔ b = true.
Proof. unfold ensure. destruct b, x; split; congruence. Qed.

(** Takes a passed validator apart. *)
Ltac checks H :=
  repeat match type of H with
  | (_ ≫= _) = Ok _ =>
      let a := fresh "c" in let H1 := fresh "Hc" in
      apply result_bind_Ok in H as (a & H1 & H);
      first [ apply ensure_Ok in H1; clear a | idtac ]
  end;
  try apply ensure_Ok in H;
  rewrite ?andb_true_iff, ?bool_decide_eq_true, ?Z.eqb_eq, ?Z.leb_le in *; destruct_and?.

Section Facts.
Context `{Runtime}.
Implicit Types a : ExtractionArtifact.

Lemma valid_span_ordered s : valid_span s = true → 0 ≤ sp_start s ≤ sp_end s.
Proof. unfold valid_span. rewrite !andb_true_iff, !Z.leb_le. lia. Qed.

Lemma check_block_Ok a u ids i c l b c' l' :
  check_block a u ids i c l b = Ok (c', l') →
  sp_start (blk_span b) = c ∧ c' = sp_end (blk_span b) ∧ c' ≤ len (unit_text u) ∧
  source_text b = slice (unit_text u) c c' ∧
  block_id b = stable_id [cps (extraction_id a); cps (unit_source_id u); z_text i].
Proof.
  unfold check_block. intros Hb. checks Hb. injection Hb as <- <-.
  unfold text_eqb in *. rewrite ?bool_decide_eq_true in *. subst c. naive_solver.
Qed.

Lemma check_blocks_Ok a u ids i c l bs c' :
  Forall (λ b, valid_span (blk_span b) = true) bs → 0 ≤ c ≤ len (unit_text u) →
  check_blocks a u ids i c l bs = Ok c' →
  c ≤ c' ≤ len (unit_text u) ∧ concat (source_text <$> bs) = slice (unit_text u) c c' ∧
  Forall (λ b, source_text b = slice (unit_text u) (sp_start (blk_span b)) (sp_end (blk_span b))
               ∧ sp_end (blk_span b) ≤ len (unit_text u)) bs.
Proof.
  intros Hbs. revert i c l. induction Hbs as [|b bs Hb Hbs IH]; intros i c l Hc Hok.
  - simpl in *. injection Hok as <-. rewrite slice_nil. split_and!; [lia|lia|done|done].
  - simpl in Hok. apply result_bind_Ok in Hok as ([c1 l1] & Hb1 & Hok).
    apply check_block_Ok in Hb1 as (Hs & -> & Hle & Ht & _).
    pose proof (valid_span_ordered _ Hb).
    apply IH in Hok as (Hr & Ht2 & Hall); [|lia].
    split_and!; [lia|lia| |constructor; [subst c; done|done]].
    csimpl. rewrite Ht2, Ht. apply slice_app; lia.
Qed.

Lemma check_units_elem a ids us u :
  check_units a ids us = Ok tt → u ∈ us → ∃ ids', check_unit a ids' u = Ok tt.
Proof.
  revert ids. induction us as [|v us IH]; intros ids Hok Hu; [set_solver|].
  simpl in Hok. apply result_bind_Ok in Hok as ([] & Hv & Hok).
  apply elem_of_cons in Hu as [->|Hu]; eauto.
Qed.

Lemma check_unit_fresh a ids u : check_unit a ids u = Ok tt → unit_source_id u ∉ ids.
Proof.
  unfold check_unit. intros Hu. apply result_bind_Ok in Hu as ([] & Hu & _).
  apply ensure_Ok in Hu. rewrite !andb_true_iff, negb_true_iff, bool_decide_eq_false in Hu.
  naive_solver.
Qed.

Lemma check_units_NoDup a ids us :
  check_units a ids us = Ok tt → NoDup (unit_source_id <$> us) ∧
  (∀ u, u ∈ us → unit_source_id u ∉ ids).
Proof.
  revert ids. induction us as [|v us IH]; intros ids Hok; [split; [constructor|set_solver]|].
  simpl in Hok. apply result_bind_Ok in Hok as ([] & Hv & Hok).
  apply check_unit_fresh in Hv. apply IH in Hok as [Hnd Hf]. csimpl. split.
  - constructor; [|done]. intros (w & E & Hw)%list_elem_of_fmap.
    apply (Hf w Hw). rewrite <-E. set_solver.
  - intros u [->|Hu]%elem_of_cons; [done|]. specialize (Hf u Hu). set_solver.
Qed.

Lemma check_unit_blocks a ids u :
  check_unit a ids u = Ok tt →
  NoDup (block_id <$> blocks u) ∧
  check_blocks a u (block_id <$> blocks u) 0 0 1 (blocks u) = Ok (len (unit_text u)).
Proof.
  unfold check_unit. intros Hu. checks Hu.
  subst. split; [done|]. by destruct (check_blocks _ _ _ _ _ _ _); simplify_eq/=.
Qed.

Lemma model_valid_graph a :
  model_valid a = true → check_units a [] (units a) = Ok tt ∧
  (physical_page <$> units a = match page_count (document a) with
     | Some n => if n =? 0 then [None] else page_range n | None => [None] end) ∧
  ∀ u b, u ∈ units a → b ∈ blocks u → valid_span (blk_span b) = true.
Proof.
  unfold model_valid. rewrite !andb_true_iff, !bool_decide_eq_true. intros [[[[Hf _] _] _] Hg].
  unfold validate_graph in Hg. checks Hg. destruct c.
  split_and!; [done|done|]. intros u b Hu Hb.
  rewrite forallb_forall in Hf. specialize (Hf u). rewrite <-list_elem_of_In in Hf.
  specialize (Hf Hu). rewrite forallb_forall in Hf. apply Hf. by rewrite <-list_elem_of_In.
Qed.

Lemma model_valid_unit a u :
  model_valid a = true → u ∈ units a →
  NoDup (block_id <$> blocks u) ∧
  concat (source_text <$> blocks u) = unit_text u ∧
  Forall (λ b, source_text b = slice (unit_text u) (sp_start (blk_span b)) (sp_end (blk_span b))
               ∧ 0 ≤ sp_start (blk_span b) ≤ sp_end (blk_span b)
               ∧ sp_end (blk_span b) ≤ len (unit_text u)) (blocks u).
Proof.
  intros (Hus & _ & Hsp)%model_valid_graph Hu.
  destruct (check_units_elem _ _ _ _ Hus Hu) as (ids & Hc).
  apply check_unit_blocks in Hc as [Hnd Hc].
  apply check_blocks_Ok in Hc as (_ & Ht & Hb); [|apply Forall_forall; eauto|unfold len; lia].
  rewrite slice_all in Ht. split_and!; [done|done|].
  rewrite Forall_forall in *. intros b Hbu. destruct (Hb b Hbu).
  split_and!; [done| |..]; try apply valid_span_ordered; eauto.
Qed.

End Facts.

(** ** What a reference cites *)

(** The acceptance condition of both resolvers for one unit and block. *)
Definition cites (u : TextUnit) (b : Block) (ref : EvidenceRef) (t : text) : Prop :=
  let sp := ev_span ref in
  block_id b = ev_block_id ref ∧ unit_source_id u = ev_source_id ref ∧
  sp_start (blk_span b) ≤ sp_start sp ∧ sp_start sp ≤ sp_end sp ∧
  sp_end sp ≤ sp_end (blk_span b) ∧
  (match physical_page u with
   | None =>
       let start := 1 + count_char newline (slice (unit_text u) 0 (sp_start sp)) in
       line_start sp = Some start ∧
       line_end sp = Some (start + count_char newline
                             (rstrip_newlines (slice (unit_text u) (sp_start sp) (sp_end sp))))
   | Some _ => line_start sp = None
   end) ∧
  t = slice (unit_text u) (sp_start sp) (sp_end sp).

Lemma resolve_blocks_iff u ref bs t :
  NoDup (block_id <$> bs) → unit_source_id u = ev_source_id ref →
  resolve_blocks u ref bs = Some t ↔ ∃ b, b ∈ bs ∧ cites u b ref t.
Proof.
  intros Hnd Hu. unfold cites. induction bs as [|b bs IH]; csimpl in *.
  - split; [done|]. by intros (b & ?%not_elem_of_nil & _).
  - apply NoDup_cons in Hnd as [Hb Hnd]. specialize (IH Hnd).
    case_bool_decide as E.
    + assert (∀ b', b' ∈ bs → block_id b' ≠ ev_block_id ref) as Hne.
      { intros b' Hb' E'. apply Hb. rewrite E, <-E'. by apply list_elem_of_fmap_2. }
      transitivity (cites u b ref t); [|unfold cites in *; set_solver].
      unfold cites. repeat case_match;
        rewrite ?andb_true_iff, ?andb_false_iff, ?Z.leb_le, ?Z.leb_gt,
          ?bool_decide_eq_true, ?bool_decide_eq_false in *; try naive_solver lia.
    + rewrite IH. set_solver.
Qed.

Lemma resolve_units_iff ref us t :
  NoDup (unit_source_id <$> us) → Forall (λ u, NoDup (block_id <$> blocks u)) us →
  resolve_units ref us = Some t ↔ ∃ u b, u ∈ us ∧ b ∈ blocks u ∧ cites u b ref t.
Proof.
  intros Hnd Hbs. induction Hbs as [|u us Hu Hbs IH]; csimpl in *.
  - split; [done|]. by intros (u & b & ?%not_elem_of_nil & _).
  - apply NoDup_cons in Hnd as [Hn Hnd]. specialize (IH Hnd).
    case_bool_decide as E.
    + pose proof (resolve_blocks_iff u ref (blocks u) t Hu E) as Hr.
      assert (¬ ∃ u b, u ∈ us ∧ b ∈ blocks u ∧ cites u b ref t) as Hno.
      { intros (u' & b' & Hu' & _ & _ & E' & _). apply Hn.
        rewrite E, <-E'. by apply list_elem_of_fmap_2. }
      destruct (resolve_blocks u ref (blocks u)) as [t'|].
      * rewrite Hr. set_solver.
      * rewrite IH. split; [done|]. intros (u' & b' & [->|Hu']%elem_of_cons & Hb' & Hc).
        -- assert (None = Some t) by (apply Hr; eauto). done.
        -- destruct Hno. eauto.
    + rewrite IH. split; [set_solver|].
      intros (u' & b' & [->|Hu']%elem_of_cons & Hb' & Hc); [|eauto].
      by destruct Hc as (_ & ? & _).
Qed.

Section Resolution.
Context `{Runtime}.

Lemma model_valid_ids a :
  model_valid a = true →
  NoDup (unit_source_id <$> units a) ∧ Forall (λ u, NoDup (block_id <$> blocks u)) (units a).
Proof.
  intros Hv. split.
  - apply model_valid_graph in Hv as (Hus & _). by apply check_units_NoDup in Hus as [? _].
  - apply Forall_forall. intros u Hu. by apply model_valid_unit in Hu as [? _].
Qed.

Lemma resolve_Ok_iff a s ref t :
  model_valid a = true →
  resolve a s ref = Ok t ↔
  s = doc_scope (document a) ∧ ev_scope ref = s ∧
  ev_version_id ref = document_version_id (document a) ∧ ev_extraction_id ref = extraction_id a ∧
  ∃ u b, u ∈ units a ∧ b ∈ blocks u ∧ cites u b ref t.
Proof.
  intros Hv. destruct (model_valid_ids a Hv) as [Hnd Hbs].
  rewrite <-(resolve_units_iff ref (units a) t Hnd Hbs). unfold resolve.
  repeat case_bool_decide; simpl; try naive_solver.
  destruct (resolve_units ref (units a)); naive_solver.
Qed.

End Resolution.

(** ** Line numbers: binary search over newline positions is counting *)

Lemma newline_positions_ge i t x : x ∈ newline_positions i t → i ≤ x.
Proof.
  revert i. induction t as [|c t IH]; intros i Hx; simpl in Hx; [set_solver|].
  apply elem_of_app in Hx as [Hx|Hx].
  - case_match; set_solver by lia.
  - apply IH in Hx. lia.
Qed.

Lemma newline_positions_sorted i t : StronglySorted Z.lt (newline_positions i t).
Proof.
  revert i. induction t as [|c t IH]; intros i; simpl; [constructor|].
  case_match; simpl; [|apply IH]. constructor; [apply IH|].
  apply Forall_forall. intros x Hx%newline_positions_ge. lia.
Qed.

(** Positions below [x] are the newlines of the first [x] characters. *)
Lemma newline_positions_count i t x :
  i ≤ x → Z.of_nat (length (List.filter (λ p, p <? x) (newline_positions i t)))
          = count_char newline (take (Z.to_nat (x - i)) t).
Proof.
  revert i. induction t as [|c t IH]; intros i Hx; simpl; [by rewrite take_nil|].
  destruct (Z.eq_dec i x) as [->|Hne].
  - rewrite Z.sub_diag. simpl. rewrite List.filter_app, length_app.
    assert (∀ l, Forall (λ p, x ≤ p) l → List.filter (λ p, p <? x) l = []) as Hnil.
    { induction 1 as [|p l Hp _ IHl]; simpl; [done|]. by rewrite (proj2 (Z.ltb_ge p x)). }
    rewrite !Hnil; [done| |].
    + apply Forall_forall. intros p Hp%newline_positions_ge. lia.
    + case_match; repeat constructor; lia.
  - replace (Z.to_nat (x - i)) with (S (Z.to_nat (x - (i + 1)))) by lia.
    rewrite List.filter_app, length_app, Nat2Z.inj_add, IH by lia.
    unfold count_char. rewrite firstn_cons. cbn [List.filter]. rewrite (N.eqb_sym newline c).
    destruct (c =? newline)%N; simpl; [|lia].
    rewrite (proj2 (Z.ltb_lt i x)) by lia. simpl. lia.
Qed.

Definition below (x : Z) (l : list Z) : nat := length (List.filter (λ p, p <? x) l).

Lemma below_nth l x k :
  StronglySorted Z.lt l → (k < length l)%nat → (nth k l 0 < x ↔ (k < below x l)%nat).
Proof.
  intros Hs. revert k. induction Hs as [|p l Hs IH Hp]; intros k Hk; [simpl in Hk; lia|].
  unfold below in *. simpl. rewrite Forall_forall in Hp.
  destruct (Z.ltb_spec p x).
  - destruct k as [|k]; simpl; [lia|]. simpl in Hk. rewrite IH by lia. lia.
  - assert (List.filter (λ p, p <? x) l = []) as ->.
    { clear -Hp H. induction l as [|q l IHl]; [done|]. simpl.
      assert (p < q) by (apply Hp; set_solver). rewrite (proj2 (Z.ltb_ge q x)) by lia.
      apply IHl. set_solver. }
    simpl. split; [|lia]. intros Hlt. exfalso.
    destruct k as [|k]; simpl in *; [lia|].
    assert (p < nth k l 0); [|lia]. apply Hp. rewrite list_elem_of_In. apply nth_In. lia.
Qed.

Lemma bisect_loop_below fuel l x lo hi :
  StronglySorted Z.lt l → (hi - lo < fuel)%nat → (lo ≤ below x l ≤ hi)%nat →
  (hi ≤ length l)%nat → bisect_loop fuel l x lo hi = below x l.
Proof.
  intros Hs. revert lo hi. induction fuel as [|fuel IH]; intros lo hi Hf Hb Hl; [lia|].
  cbn [bisect_loop]. destruct (Nat.ltb_spec lo hi); [|lia].
  pose proof (Nat.div_mod_eq (lo + hi) 2). pose proof (Nat.mod_upper_bound (lo + hi) 2).
  set (mid := ((lo + hi) / 2)%nat) in *. assert (lo ≤ mid < hi)%nat by lia.
  pose proof (below_nth l x mid Hs ltac:(lia)) as Hn.
  destruct (Z.ltb_spec (nth mid l 0) x); apply IH; (lia || tauto).
Qed.

(** [1 + bisect_left(lines, start)] is [1 + text[:start].count('\n')]. *)
Lemma bisect_left_newlines t x :
  0 ≤ x → bisect_left (newline_positions 0 t) x = count_char newline (slice t 0 x).
Proof.
  intros Hx. unfold bisect_left. rewrite bisect_loop_below.
  - unfold below. rewrite newline_positions_count by lia.
    unfold slice. simpl. by rewrite Z.sub_0_r, Nat.sub_0_r.
  - apply newline_positions_sorted.
  - lia.
  - unfold below. split; [lia|apply List.filter_length_le].
  - lia.
Qed.

(** ** The evidence index *)

Lemma dict_get_elem {V} k (l : list (uuid * V)) v : dict_get k l = Some v → (k, v) ∈ l.
Proof.
  induction l as [|[k' w] l IH]; simpl; [done|]. destruct (dict_get k l) as [w'|].
  - intros [= ->]. set_solver.
  - case_bool_decide; [|done]. intros [= ->]. subst. set_solver.
Qed.

Lemma dict_get_unique {V} k (l : list (uuid * V)) v :
  NoDup l.*1 → (k, v) ∈ l → dict_get k l = Some v.
Proof.
  induction l as [|[k' w] l IH]; csimpl; intros Hnd Hin; [set_solver|].
  apply NoDup_cons in Hnd as [Hk Hnd]. apply elem_of_cons in Hin as [[= -> ->]|Hin].
  - destruct (dict_get k' l) as [w'|] eqn:E; [|by rewrite bool_decide_eq_true_2].
    apply dict_get_elem in E. destruct Hk. apply list_elem_of_fmap. by exists (k', w').
  - by rewrite (IH Hnd Hin).
Qed.

Definition all_block_ids (a : ExtractionArtifact) : list uuid :=
  units a ≫= λ u, block_id <$> blocks u.

Lemma idx_blocks_keys a : (idx_blocks (build_index a)).*1 = all_block_ids a.
Proof.
  unfold build_index, all_block_ids. simpl. induction (units a) as [|u us IH]; [done|].
  csimpl. rewrite fmap_app, IH. f_equal. rewrite <-list_fmap_compose. done.
Qed.

Lemma idx_blocks_elem a k u b :
  (k, (u, b)) ∈ idx_blocks (build_index a) ↔ u ∈ units a ∧ b ∈ blocks u ∧ k = block_id b.
Proof.
  unfold build_index. simpl. rewrite list_elem_of_bind. setoid_rewrite list_elem_of_fmap.
  naive_solver.
Qed.

Section IndexEquivalence.
Context `{Runtime}.
Variable a : ExtractionArtifact.
Hypothesis Hvalid : model_valid a = true.

Lemma pages_uniform u : u ∈ units a →
  (physical_page u = None ∧ units a = [u]) ∨
  (is_Some (physical_page u) ∧ ∀ v, v ∈ units a → is_Some (physical_page v)).
Proof.
  intros Hu. destruct (model_valid_graph a Hvalid) as (_ & Hp & _).
  assert (physical_page <$> units a = [None] ∨
          ∀ v, v ∈ units a → is_Some (physical_page v)) as [Hone|Hall].
  { destruct (page_count (document a)) as [n|]; [|by left].
    destruct (n =? 0); [by left|]. right. intros v Hv.
    assert (physical_page v ∈ page_range n) as Hin
      by (rewrite <-Hp; by apply list_elem_of_fmap_2).
    unfold page_range in Hin. apply list_elem_of_fmap in Hin as (k & -> & _). by eexists. }
  - destruct (units a) as [|v [|w us]]; simplify_eq/=. left.
    apply list_elem_of_singleton in Hu as ->. done.
  - right. auto.
Qed.

Lemma idx_lines_unit u : u ∈ units a →
  dict_get (unit_source_id u) (idx_lines (build_index a)) =
  match physical_page u with
  | None => Some (newline_positions 0 (unit_text u)) | Some _ => None end.
Proof.
  intros Hu. destruct (pages_uniform u Hu) as [[Hn Hus]|[[p Hp] Hall]].
  - unfold build_index. rewrite Hus. simpl. rewrite Hn. simpl.
    by rewrite bool_decide_eq_true_2.
  - rewrite Hp. unfold build_index. simpl.
    assert (∀ us, (∀ v, v ∈ us → is_Some (physical_page v)) →
      (us ≫= λ u, match physical_page u with
        | None => [(unit_source_id u, newline_positions 0 (unit_text u))] | Some _ => [] end) = [])
      as Hnil.
    { intros us Hs. induction us as [|v us IH]; [done|]. csimpl.
      destruct (Hs v) as [q ->]; [set_solver|]. simpl. apply IH. set_solver. }
    by rewrite Hnil.
Qed.

Lemma index_resolve_Ok_iff ref t :
  NoDup (all_block_ids a) → valid_span (ev_span ref) = true →
  index_resolve (build_index a) ref = Ok t ↔
  ev_scope ref = doc_scope (document a) ∧
  ev_version_id ref = document_version_id (document a) ∧ ev_extraction_id ref = extraction_id a ∧
  ∃ u b, u ∈ units a ∧ b ∈ blocks u ∧ cites u b ref t.
Proof.
  intros Hnd Hsp. rewrite <-idx_blocks_keys in Hnd. unfold index_resolve.
  pose proof (valid_span_ordered _ Hsp) as Hord.
  destruct (dict_get (ev_block_id ref) (idx_blocks (build_index a))) as [[u b]|] eqn:E.
  - pose proof (dict_get_elem _ _ _ E) as (Hu & Hb & Hid)%idx_blocks_elem.
    rewrite (idx_lines_unit u Hu).
    transitivity (ev_scope ref = doc_scope (document a) ∧
      ev_version_id ref = document_version_id (document a) ∧
      ev_extraction_id ref = extraction_id a ∧ cites u b ref t).
    + unfold cites. simpl idx_artifact. unfold valid_span in Hsp.
      rewrite !andb_true_iff in Hsp. destruct Hsp as [_ Hpair].
      destruct (physical_page u) eqn:Ep; simpl option_fmap; csimpl;
        rewrite ?bisect_left_newlines by lia;
        repeat case_bool_decide; simpl;
        repeat match goal with |- context [(?x <=? ?y)] => destruct (Z.leb_spec x y) end;
        simpl; destruct (line_start (ev_span ref)), (line_end (ev_span ref));
        split; intros; destruct_and?; simplify_eq; first [done|lia|split_and!; first [done|lia]].
    + split; [naive_solver|]. intros (? & ? & ? & u' & b' & Hu' & Hb' & Hc).
      assert ((ev_block_id ref, (u', b')) ∈ idx_blocks (build_index a)) as Hin.
      { apply idx_blocks_elem. split_and!; try done. by destruct Hc as [? _]. }
      apply (dict_get_unique _ _ _ Hnd) in Hin. rewrite E in Hin. by simplify_eq.
  - split; [done|]. intros (? & ? & ? & u' & b' & Hu' & Hb' & Hc).
    assert ((ev_block_id ref, (u', b')) ∈ idx_blocks (build_index a)) as Hin.
    { apply idx_blocks_elem. split_and!; try done. by destruct Hc as [? _]. }
    apply (dict_get_unique _ _ _ Hnd) in Hin. congruence.
Qed.

End IndexEquivalence.
