(* ===== verification/JobModels.v ===== *)
(** * Orchestration contracts of the job plane

    [documents/jobs/models.py] and [documents/jobs/errors.py]: states, retry
    policy, admission requests and their fingerprints, failures and their
    classification.  Seconds given as Python floats are exact rationals. *)

From stdpp Require Import base tactics list strings option.
From Stdlib Require Import ZArith NArith QArith Qminmax Lia.
From S2P Require Import Prelude Json Contracts.

Local Open Scope Z_scope.

(** [Annotated[str, Field(min_length=1, max_length=128, pattern=...)]]. *)
Definition token_char (c : N) : bool :=
  ((97 <=? c) && (c <=? 122) || (65 <=? c) && (c <=? 90) || (48 <=? c) && (c <=? 57)
   || (c =? 95) || (c =? 46) || (c =? 47) || (c =? 58) || (c =? 45))%N.

Definition is_token (s : string) : bool :=
  let t := cps s in (1 <=? len t) && (len t <=? 128) && forallb token_char t.

Module JobState.
Inductive t := QUEUED | EXTRACTING | NORMALIZING | VALIDATING | COMPLETED | FAILED
             | CANCEL_REQUESTED | CANCELLED | PARTIAL.
#[global] Instance eq_dec : EqDecision t.
Proof. solve_decision. Defined.
End JobState.

Module StepState.
Inductive t := PENDING | READY | RUNNING | RETRY_WAIT | SUCCEEDED | FAILED | CANCELLED.
#[global] Instance eq_dec : EqDecision t.
Proof. solve_decision. Defined.
End StepState.

Module Stage.
Inductive t := EXTRACTING | NORMALIZING | VALIDATING.
#[global] Instance eq_dec : EqDecision t.
Proof. solve_decision. Defined.

Definition str (s : t) : string :=
  match s with
  | EXTRACTING => "EXTRACTING" | NORMALIZING => "NORMALIZING" | VALIDATING => "VALIDATING"
  end.

(** The job state of the same name. *)
Definition job_state (s : t) : JobState.t :=
  match s with
  | EXTRACTING => JobState.EXTRACTING
  | NORMALIZING => JobState.NORMALIZING
  | VALIDATING => JobState.VALIDATING
  end.
End Stage.

Record RetryPolicy := {
  max_attempts : Z; base_seconds : Q; max_seconds : Q; budget_seconds : Q;
  jitter_fraction : Q }.

Record ProcessingProfile := {
  version : string; parser_version : string; p_max_source_bytes : Z; p_max_pages : Z;
  p_max_characters : Z; p_max_blocks : Z; p_max_artifact_bytes : Z;
  p_structure_required : bool; retry : RetryPolicy }.

Record StepSpec := {
  unit_id : string; stage : Stage.t; schema_version : string; config_fingerprint : digest;
  depends_on : list string }.
#[export] Instance StepSpec_eq_dec : EqDecision StepSpec.
Proof. solve_decision. Defined.

Record Admission := {
  a_scope : Scope; a_document_id : uuid; a_document_version_id : uuid; a_source : ObjectRef;
  request_idempotency_key : string; a_display_filename : text; a_mime : Mime;
  profile : ProcessingProfile; steps : list StepSpec; resume_from : option uuid }.

Record Progress := {
  total : Z; completed : Z; running : Z; retrying : Z; failed_count : Z; cancelled : Z;
  pending : Z; current_stage : option Stage.t }.

Definition empty_progress : Progress := {|
  total := 0; completed := 0; running := 0; retrying := 0; failed_count := 0; cancelled := 0;
  pending := 0; current_stage := None |}.

Record Lease := {
  l_scope : Scope; l_job_id : uuid; l_step_id : uuid; l_owner : string; l_fence : Z }.
#[export] Instance Lease_eq_dec : EqDecision Lease.
Proof. solve_decision. Defined.

Record Dispatch := { dispatch_id : Z; d_scope : Scope; d_job_id : uuid; d_step_id : uuid }.
#[export] Instance Dispatch_eq_dec : EqDecision Dispatch.
Proof. solve_decision. Defined.

Record Reconciliation := {
  expired : Z; dispatch_repairs : Z; terminal_repairs : Z; pending_outbox : Z;
  orphan_count : Z }.

Record JobSettings := {
  lease_seconds : Q; redelivery_seconds : Q; orphan_grace_seconds : Q }.

(** ** Field constraints and model validators *)

Definition in_open_closed (lo hi q : Q) : bool := negb (Qle_bool q lo) && Qle_bool q hi.
Definition in_closed (lo hi q : Q) : bool := Qle_bool lo q && Qle_bool q hi.

Definition valid_retry (p : RetryPolicy) : bool :=
  (1 <=? max_attempts p) && (max_attempts p <=? 100)
  && in_open_closed 0 (inject_Z 86400) (base_seconds p)
  && in_open_closed 0 (inject_Z 86400) (max_seconds p)
  && in_open_closed 0 (inject_Z 604800) (budget_seconds p)
  && in_closed 0 1 (jitter_fraction p).

Definition valid_profile (p : ProcessingProfile) : bool :=
  is_token (version p) && is_token (parser_version p)
  && (0 <? p_max_source_bytes p) && (0 <? p_max_pages p) && (0 <? p_max_characters p)
  && (0 <? p_max_blocks p) && (0 <? p_max_artifact_bytes p) && valid_retry (retry p).

Definition valid_step_spec (s : StepSpec) : bool :=
  is_token (unit_id s) && is_token (schema_version s) && is_digest (config_fingerprint s)
  && forallb is_token (depends_on s).

(** The plan loop of [Admission.valid]: unit ids are new, dependencies are
    earlier units, without repetition. *)
Fixpoint valid_plan (seen : list string) (specs : list StepSpec) : bool :=
  match specs with
  | [] => true
  | s :: specs' =>
      negb (bool_decide (unit_id s ∈ seen))
      && forallb (λ d, bool_decide (d ∈ seen)) (depends_on s)
      && bool_decide (NoDup (depends_on s))
      && valid_plan (unit_id s :: seen) specs'
  end.

(** ** JSON forms ([model_dump(mode='json')]) *)

Definition jstr (s : string) : json := JStr (cps s).
Definition jopt {A} (f : A → json) (o : option A) : json :=
  match o with Some x => f x | None => JNull end.

Definition scope_json (s : Scope) : json :=
  JObj [("tenant", jstr (tenant s)); ("owner", jstr (owner s))].

Definition ref_json (r : ObjectRef) : json :=
  JObj [("scope", scope_json (ref_scope r)); ("kind", jstr (kind_str (ref_kind r)));
        ("object_id", jstr (ref_object_id r)); ("key", jstr (ref_key r));
        ("sha256", jstr (ref_sha256 r)); ("byte_size", JInt (ref_byte_size r));
        ("hash_algorithm", jstr "sha256")].

Definition span_json (s : Span) : json :=
  JObj [("start", JInt (sp_start s)); ("end", JInt (sp_end s));
        ("line_start", jopt JInt (line_start s)); ("line_end", jopt JInt (line_end s))].

Definition retry_json (p : RetryPolicy) : json :=
  JObj [("max_attempts", JInt (max_attempts p)); ("base_seconds", JFloat (base_seconds p));
        ("max_seconds", JFloat (max_seconds p)); ("budget_seconds", JFloat (budget_seconds p));
        ("jitter_fraction", JFloat (jitter_fraction p))].

Definition profile_json (p : ProcessingProfile) : json :=
  JObj [("version", jstr (version p)); ("artifact_schema", jstr "extraction/1");
        ("extraction_profile", jstr "native/1"); ("normalization_profile", jstr "identity/1");
        ("policy_profile", jstr "native-policy/1"); ("parser_version", jstr (parser_version p));
        ("max_source_bytes", JInt (p_max_source_bytes p)); ("max_pages", JInt (p_max_pages p));
        ("max_characters", JInt (p_max_characters p)); ("max_blocks", JInt (p_max_blocks p));
        ("max_artifact_bytes", JInt (p_max_artifact_bytes p));
        ("structure_required", JBool (p_structure_required p)); ("retry", retry_json (retry p))].

Definition spec_json (s : StepSpec) : json :=
  JObj [("unit_id", jstr (unit_id s)); ("stage", jstr (Stage.str (stage s)));
        ("schema_version", jstr (schema_version s));
        ("config_fingerprint", jstr (config_fingerprint s));
        ("depends_on", JArr (jstr <$> depends_on s))].

Definition mime_str (m : Mime) : string :=
  match m with application_pdf => "application/pdf" | text_plain => "text/plain" end.

(** The fields common to [digest] and [compatibility]. *)
Definition admission_fields (r : Admission) : list (string * json) :=
  [("scope", scope_json (a_scope r)); ("document_id", jstr (a_document_id r));
   ("document_version_id", jstr (a_document_version_id r)); ("source", ref_json (a_source r));
   ("display_filename", JStr (a_display_filename r)); ("mime", jstr (mime_str (a_mime r)))].

Section Contracts.
Context `{Runtime}.

Definition valid_admission (r : Admission) : bool :=
  let expected := version_identity (a_scope r) (a_document_id r) (ref_sha256 (a_source r)) in
  is_token (request_idempotency_key r) && (len (a_display_filename r) <=? 512)
  && valid_object_ref (a_source r) && valid_profile (profile r)
  && forallb valid_step_spec (steps r)
  && bool_decide (ref_scope (a_source r) = a_scope r)
  && bool_decide (ref_kind (a_source r) = source_kind)
  && bool_decide (a_document_version_id r = expected)
  && bool_decide (ref_object_id (a_source r) = expected)
  && (ref_byte_size (a_source r) <=? p_max_source_bytes (profile r))
  && (1 <=? len (steps r)) && (len (steps r) <=? 1000)
  && valid_plan [] (steps r).

Definition profile_digest (p : ProcessingProfile) : digest := fingerprint (profile_json p).

(** [Admission.digest]: everything but the idempotency key. *)
Definition request_digest (r : Admission) : digest :=
  fingerprint (JObj (admission_fields r ++
    [("profile", profile_json (profile r)); ("steps", JArr (spec_json <$> steps r));
     ("resume_from", jopt jstr (resume_from r))])).

(** [Admission.compatibility]: neither key, nor plan, nor lineage of the run. *)
Definition compatibility (r : Admission) : digest :=
  fingerprint (JObj (admission_fields r ++ [("profile", jstr (profile_digest (profile r)))])).

(** [int(d[:8], 16)]. *)
Definition hex_int (t : text) : Z :=
  foldl (λ acc c, acc * 16 + Z.of_N (hex_value c)) 0 t.

(** [RetryPolicy.delay]. *)
Definition delay (p : RetryPolicy) (key : digest) (attempt : Z) : Q :=
  let fraction := (inject_Z (hex_int (take 8 (cps (fingerprint (JArr [jstr key; JInt attempt])))))
                   / inject_Z 4294967295)%Q in
  (Qmin (max_seconds p) (base_seconds p * inject_Z (2 ^ (attempt - 1)))
   * (1 - jitter_fraction p * fraction))%Q.

End Contracts.

(** ** [documents/jobs/errors.py] *)

Definition DOCUMENT_CATEGORIES : list string :=
  ["unsupported_format"; "invalid_document"; "encrypted_document"; "source_too_large";
   "page_limit_exceeded"; "extraction_limit_exceeded"; "extraction_failed"; "integrity_error";
   "storage_error"; "object_conflict"; "object_not_found"; "scope_mismatch";
   "serialization_error"; "invalid_reference"].

Definition CATEGORIES : list string := DOCUMENT_CATEGORIES ++
  ["idempotency_conflict"; "invalid_transition"; "job_not_found"; "step_not_found";
   "lease_conflict"; "stale_fence"; "lease_expired"; "retry_exhausted"; "cancelled";
   "ledger_error"; "dispatch_error"; "manifest_conflict"; "invalid_configuration";
   "schema_mismatch"; "worker_interrupted"; "worker_failed"; "profile_mismatch";
   "inference_rate_limited"; "inference_timeout"; "inference_unavailable";
   "inference_authentication"; "inference_configuration"; "inference_invalid_response";
   "inference_context_exceeded"; "inference_output_limit"; "inference_unknown";
   "governance_denied"; "security_denied"].

Definition in_categories (c : string) : bool := bool_decide (c ∈ CATEGORIES).

(** Exceptions that leave a ledger call. [KeyError] is the only builtin error
    [_transaction] lets through unchanged. *)
Inductive exn :=
| JobErr (category : string)
| DocErr (category : string)
| DigErr (category : string) (** [DigestionError] of a digestion handler *)
| KeyError
| OtherExn (** any other exception of a handler or adapter *).
#[export] Instance exn_eq_dec : EqDecision exn.
Proof. solve_decision. Defined.

(** [JobError(category)]. *)
Definition JobError (category : string) : exn :=
  JobErr (if in_categories category then category else "ledger_error").

Inductive Classification := RETRYABLE | NON_RETRYABLE | CANCELLED_CLASS.
#[export] Instance Classification_eq_dec : EqDecision Classification.
Proof. solve_decision. Defined.

Record Failure := {
  category : string; classification : Classification; retry_after : option Q }.

Definition sanitized (f : Failure) : Failure := {|
  category := if in_categories (category f) then category f else "worker_failed";
  classification := classification f; retry_after := retry_after f |}.

Definition classify (error : exn) (transient_storage : bool) : Failure :=
  let category0 := match error with JobErr c | DocErr c => c | _ => "worker_failed" end in
  let category1 := if in_categories category0 then category0 else "worker_failed" in
  let kind :=
    if bool_decide (category1 = "cancelled") then CANCELLED_CLASS
    else if bool_decide (category1 = "worker_interrupted")
            || (bool_decide (category1 = "storage_error") && transient_storage)
    then RETRYABLE else NON_RETRYABLE in
  {| category := category1; classification := kind; retry_after := None |}.
