(* ===== verification/JobLedger.v ===== *)
(** * The SQLite job ledger

    [documents/jobs/sqlite.py].  A table is the list of its rows in rowid order;
    JSON columns hold the value they encode; instants are microseconds.  UNIQUE
    and PRIMARY KEY constraints are checked on insertion and raise
    [JobError('ledger_error')], which is what [_transaction] makes of
    [sqlite3.IntegrityError].  Every operation takes the instant [now] read
    after the writer lock was acquired, and [uuid4()] results as arguments. *)

From stdpp Require Import base tactics list strings option.
From Stdlib Require Import ZArith NArith QArith Qminmax Lia.
From S2P Require Import Prelude Json Contracts JobModels.

Local Open Scope Z_scope.

(** ** Schema *)

Record job_row := {
  job_id : uuid; run_id : uuid; j_scope : string; request_key : string;
  j_fingerprint : digest; version_id : uuid; source_key : uuid; generation : Z;
  request : Admission; j_created_at : Z; updated_at : Z; document_created_at : Z;
  j_state : JobState.t; cancel_requested : bool; progress : Progress;
  terminal_category : option string }.

Record step_row := {
  step_id : uuid; s_job_id : uuid; s_unit_id : string; spec : StepSpec; step_key : digest;
  input_fingerprint : digest; execution_at : Z; s_state : StepState.t; attempt_count : Z;
  fence : Z; lease_owner : option string; lease_expires_at : option Z; not_before : Z;
  started_at : option Z; finished_at : option Z; failure_category : option string;
  reused_from : option uuid }.

(** [outcome] is one of RUNNING, SUCCEEDED, RETRY_WAIT, FAILED, CANCELLED. *)
Record attempt_row := {
  at_step_id : uuid; number : Z; worker : string; at_fence : Z; at_started_at : Z;
  at_finished_at : option Z; at_outcome : StepState.t; at_category : option string;
  at_classification : option Classification; at_not_before : option Z }.

Record manifest_row := {
  m_step_id : uuid; manifest : list ObjectRef; committed_at : Z; m_fence : Z }.

Record manifest_object := { mo_step_id : uuid; mo_object_key : uuid }.

Record outbox_row := {
  o_dispatch_id : Z; o_step_id : uuid; o_created_at : Z; available_at : Z;
  delivered_at : option Z }.

Record dead_letter := {
  dl_step_id : uuid; dl_category : string; dl_classification : Classification;
  dl_created_at : Z }.

Record intent_row := {
  i_step_id : uuid; i_object_key : uuid; i_ref : ObjectRef; i_created_at : Z }.

Record db := {
  jobs : list job_row; job_steps : list step_row; step_attempts : list attempt_row;
  artifact_manifests : list manifest_row; manifest_objects : list manifest_object;
  outbox : list outbox_row; dead_letters : list dead_letter;
  object_intents : list intent_row;
  (** AUTOINCREMENT: the largest dispatch id ever used *)
  last_dispatch : Z }.

Definition empty_db : db := {|
  jobs := []; job_steps := []; step_attempts := []; artifact_manifests := [];
  manifest_objects := []; outbox := []; dead_letters := []; object_intents := [];
  last_dispatch := 0 |}.

(** One table at a time. *)
Definition on_jobs (f : list job_row → list job_row) (d : db) : db := {|
  jobs := f (jobs d); job_steps := job_steps d; step_attempts := step_attempts d;
  artifact_manifests := artifact_manifests d; manifest_objects := manifest_objects d;
  outbox := outbox d; dead_letters := dead_letters d; object_intents := object_intents d;
  last_dispatch := last_dispatch d |}.
Definition on_steps (f : list step_row → list step_row) (d : db) : db := {|
  jobs := jobs d; job_steps := f (job_steps d); step_attempts := step_attempts d;
  artifact_manifests := artifact_manifests d; manifest_objects := manifest_objects d;
  outbox := outbox d; dead_letters := dead_letters d; object_intents := object_intents d;
  last_dispatch := last_dispatch d |}.
Definition on_attempts (f : list attempt_row → list attempt_row) (d : db) : db := {|
  jobs := jobs d; job_steps := job_steps d; step_attempts := f (step_attempts d);
  artifact_manifests := artifact_manifests d; manifest_objects := manifest_objects d;
  outbox := outbox d; dead_letters := dead_letters d; object_intents := object_intents d;
  last_dispatch := last_dispatch d |}.
Definition on_manifests (f : list manifest_row → list manifest_row) (d : db) : db := {|
  jobs := jobs d; job_steps := job_steps d; step_attempts := step_attempts d;
  artifact_manifests := f (artifact_manifests d); manifest_objects := manifest_objects d;
  outbox := outbox d; dead_letters := dead_letters d; object_intents := object_intents d;
  last_dispatch := last_dispatch d |}.
Definition on_objects (f : list manifest_object → list manifest_object) (d : db) : db := {|
  jobs := jobs d; job_steps := job_steps d; step_attempts := step_attempts d;
  artifact_manifests := artifact_manifests d; manifest_objects := f (manifest_objects d);
  outbox := outbox d; dead_letters := dead_letters d; object_intents := object_intents d;
  last_dispatch := last_dispatch d |}.
Definition on_outbox (f : list outbox_row → list outbox_row) (last : Z) (d : db) : db := {|
  jobs := jobs d; job_steps := job_steps d; step_attempts := step_attempts d;
  artifact_manifests := artifact_manifests d; manifest_objects := manifest_objects d;
  outbox := f (outbox d); dead_letters := dead_letters d; object_intents := object_intents d;
  last_dispatch := last |}.
Definition on_dead (f : list dead_letter → list dead_letter) (d : db) : db := {|
  jobs := jobs d; job_steps := job_steps d; step_attempts := step_attempts d;
  artifact_manifests := artifact_manifests d; manifest_objects := manifest_objects d;
  outbox := outbox d; dead_letters := f (dead_letters d); object_intents := object_intents d;
  last_dispatch := last_dispatch d |}.
Definition on_intents (f : list intent_row → list intent_row) (d : db) : db := {|
  jobs := jobs d; job_steps := job_steps d; step_attempts := step_attempts d;
  artifact_manifests := artifact_manifests d; manifest_objects := manifest_objects d;
  outbox := outbox d; dead_letters := dead_letters d; object_intents := f (object_intents d);
  last_dispatch := last_dispatch d |}.

(** [TERMINAL]. *)
Definition job_terminal (s : JobState.t) : bool :=
  match s with
  | JobState.COMPLETED | JobState.FAILED | JobState.CANCELLED | JobState.PARTIAL => true
  | _ => false
  end.

(** Step states the SQL lists name. *)
Definition step_active (s : StepState.t) : bool :=
  match s with
  | StepState.PENDING | StepState.READY | StepState.RETRY_WAIT | StepState.RUNNING => true
  | _ => false
  end.
Definition step_waiting (s : StepState.t) : bool :=
  match s with StepState.READY | StepState.RETRY_WAIT => true | _ => false end.
Definition step_unstarted (s : StepState.t) : bool :=
  match s with
  | StepState.PENDING | StepState.READY | StepState.RETRY_WAIT => true | _ => false end.

Definition ledger_error : exn := JobError "ledger_error".

Definition is_step (id : uuid) (r : step_row) : bool := bool_decide (step_id r = id).
Definition is_job (id : uuid) (r : job_row) : bool := bool_decide (job_id r = id).
Definition of_job (id : uuid) (r : step_row) : bool := bool_decide (s_job_id r = id).
Definition in_state (s : StepState.t) (r : step_row) : bool := bool_decide (s_state r = s).

Abbreviation ltx := (tx db exn).

(** ** Constrained insertions *)

Definition insert_job (r : job_row) : ltx unit :=
  js ← gets jobs;
  _ ← guard (forallb (λ x,
         negb (bool_decide (job_id x = job_id r)) && negb (bool_decide (run_id x = run_id r))
         && negb (bool_decide (j_scope x = j_scope r) && bool_decide (request_key x = request_key r))
         && negb (bool_decide (j_scope x = j_scope r) && bool_decide (version_id x = version_id r)
                  && (generation x =? generation r))) js) ledger_error;
  modify (on_jobs (λ l, l ++ [r])).

Definition insert_step (r : step_row) : ltx unit :=
  ss ← gets job_steps;
  _ ← guard (forallb (λ x,
         negb (bool_decide (step_id x = step_id r)) && negb (bool_decide (step_key x = step_key r))
         && negb (bool_decide (s_job_id x = s_job_id r) && bool_decide (s_unit_id x = s_unit_id r)))
         ss) ledger_error;
  modify (on_steps (λ l, l ++ [r])).

Definition insert_attempt (r : attempt_row) : ltx unit :=
  al ← gets step_attempts;
  _ ← guard (forallb (λ x,
         negb (bool_decide (at_step_id x = at_step_id r) && (number x =? number r))
         && negb (bool_decide (at_step_id x = at_step_id r) && (at_fence x =? at_fence r))) al)
       ledger_error;
  modify (on_attempts (λ l, l ++ [r])).

Definition insert_manifest (r : manifest_row) : ltx unit :=
  ml ← gets artifact_manifests;
  _ ← guard (forallb (λ x, negb (bool_decide (m_step_id x = m_step_id r))) ml) ledger_error;
  modify (on_manifests (λ l, l ++ [r])).

Definition insert_object (step key : uuid) : ltx unit :=
  ol ← gets manifest_objects;
  _ ← guard (forallb (λ x, negb (bool_decide (mo_step_id x = step)
                                 && bool_decide (mo_object_key x = key))) ol) ledger_error;
  modify (on_objects (λ l, l ++ [{| mo_step_id := step; mo_object_key := key |}])).

(** ** Row lookups *)

Definition _job (scope : Scope) (id : uuid) : ltx job_row :=
  js ← gets jobs;
  expect (find_row (λ r, is_job id r && bool_decide (j_scope r = identity scope)) js)
    (JobError "job_not_found").

Definition _step (job id : uuid) : ltx step_row :=
  ss ← gets job_steps;
  expect (find_row (λ r, is_step id r && of_job job r) ss) (JobError "step_not_found").

Definition _manifest (id : uuid) (d : db) : list ObjectRef :=
  match find_row (λ m, bool_decide (m_step_id m = id)) (artifact_manifests d) with
  | Some m => manifest m
  | None => []
  end.

(** [_step_model]: the row with its manifest. *)
Definition _step_model (row : step_row) : ltx (step_row * list ObjectRef) :=
  m ← gets (_manifest (step_id row)); mret (row, m).

Definition _enqueue (step : uuid) (now available : Z) : ltx unit :=
  modify (λ d, on_outbox (λ l, l ++ [{|
    o_dispatch_id := last_dispatch d + 1; o_step_id := step; o_created_at := now;
    available_at := available; delivered_at := None |}]) (last_dispatch d + 1) d).

(** ** UPDATE statements on one row *)

Definition set_ready (key inputs : digest) (r : step_row) : step_row := {|
  step_id := step_id r; s_job_id := s_job_id r; s_unit_id := s_unit_id r; spec := spec r;
  step_key := key; input_fingerprint := inputs; execution_at := execution_at r;
  s_state := StepState.READY; attempt_count := attempt_count r; fence := fence r;
  lease_owner := lease_owner r; lease_expires_at := lease_expires_at r;
  not_before := not_before r; started_at := started_at r; finished_at := finished_at r;
  failure_category := failure_category r; reused_from := reused_from r |}.

Definition set_running (n f : Z) (owner : string) (expires now : Z) (r : step_row) : step_row := {|
  step_id := step_id r; s_job_id := s_job_id r; s_unit_id := s_unit_id r; spec := spec r;
  step_key := step_key r; input_fingerprint := input_fingerprint r;
  execution_at := execution_at r; s_state := StepState.RUNNING; attempt_count := n; fence := f;
  lease_owner := Some owner; lease_expires_at := Some expires; not_before := not_before r;
  started_at := Some (default now (started_at r)); finished_at := finished_at r;
  failure_category := None; reused_from := reused_from r |}.

Definition set_expires (expires : Z) (r : step_row) : step_row := {|
  step_id := step_id r; s_job_id := s_job_id r; s_unit_id := s_unit_id r; spec := spec r;
  step_key := step_key r; input_fingerprint := input_fingerprint r;
  execution_at := execution_at r; s_state := s_state r; attempt_count := attempt_count r;
  fence := fence r; lease_owner := lease_owner r; lease_expires_at := Some expires;
  not_before := not_before r; started_at := started_at r; finished_at := finished_at r;
  failure_category := failure_category r; reused_from := reused_from r |}.

(** Leaving RUNNING (or a waiting state): the lease columns become NULL. *)
Definition settle_row (st : StepState.t) (nb : Z) (fin : option Z) (cat : option string)
    (r : step_row) : step_row := {|
  step_id := step_id r; s_job_id := s_job_id r; s_unit_id := s_unit_id r; spec := spec r;
  step_key := step_key r; input_fingerprint := input_fingerprint r;
  execution_at := execution_at r; s_state := st; attempt_count := attempt_count r;
  fence := fence r; lease_owner := None; lease_expires_at := None; not_before := nb;
  started_at := started_at r; finished_at := fin; failure_category := cat;
  reused_from := reused_from r |}.

Definition set_succeeded (now : Z) (r : step_row) : step_row :=
  settle_row StepState.SUCCEEDED (not_before r) (Some now) (failure_category r) r.
Definition set_failed (now : Z) (cat : string) (r : step_row) : step_row :=
  settle_row StepState.FAILED (not_before r) (Some now) (Some cat) r.
Definition set_retry (at_ : Z) (cat : string) (r : step_row) : step_row :=
  settle_row StepState.RETRY_WAIT at_ (finished_at r) (Some cat) r.
Definition set_cancelled (now : Z) (r : step_row) : step_row :=
  settle_row StepState.CANCELLED (not_before r) (Some now) (Some "cancelled") r.

Definition set_job (st : JobState.t) (cr : bool) (pr : Progress) (upd : Z)
    (cat : option string) (r : job_row) : job_row := {|
  job_id := job_id r; run_id := run_id r; j_scope := j_scope r; request_key := request_key r;
  j_fingerprint := j_fingerprint r; version_id := version_id r; source_key := source_key r;
  generation := generation r; request := request r; j_created_at := j_created_at r;
  updated_at := upd; document_created_at := document_created_at r; j_state := st;
  cancel_requested := cr; progress := pr; terminal_category := cat |}.

Definition set_attempt (out : StepState.t) (fin : option Z) (cat : option string)
    (cls : option Classification) (nb : option Z) (r : attempt_row) : attempt_row := {|
  at_step_id := at_step_id r; number := number r; worker := worker r; at_fence := at_fence r;
  at_started_at := at_started_at r; at_finished_at := fin; at_outcome := out;
  at_category := cat; at_classification := cls; at_not_before := nb |}.

Definition update_step (id : uuid) (f : step_row → step_row) : ltx unit :=
  modify (on_steps (update_where (is_step id) f)).
Definition update_job (id : uuid) (f : job_row → job_row) : ltx unit :=
  modify (on_jobs (update_where (is_job id) f)).
Definition update_attempt (id : uuid) (f : Z) (g : attempt_row → attempt_row) : ltx unit :=
  modify (on_attempts (update_where
    (λ r, bool_decide (at_step_id r = id) && (at_fence r =? f)) g)).

(** ** Operations *)

Definition count_state (s : StepState.t) (rows : list step_row) : Z := count (in_state s) rows.

(** The progress record and job state [_refresh] computes from the step rows. *)
Definition refreshed_progress (rows : list step_row) : Progress := {|
  total := len rows; completed := count_state StepState.SUCCEEDED rows;
  running := count_state StepState.RUNNING rows;
  retrying := count_state StepState.RETRY_WAIT rows;
  failed_count := count_state StepState.FAILED rows;
  cancelled := count_state StepState.CANCELLED rows;
  pending := count_state StepState.PENDING rows + count_state StepState.READY rows;
  current_stage := (λ r, stage (spec r)) <$> find_row (in_state StepState.RUNNING) rows |}.

Definition refreshed_state (job : job_row) (rows : list step_row) : JobState.t :=
  if job_terminal (j_state job) then j_state job
  else if cancel_requested job then
    (if count_state StepState.RUNNING rows =? 0 then JobState.CANCELLED
     else JobState.CANCEL_REQUESTED)
  else if negb (count_state StepState.FAILED rows =? 0) then JobState.FAILED
  else if count_state StepState.SUCCEEDED rows =? len rows then JobState.COMPLETED
  else match current_stage (refreshed_progress rows) with
       | Some s => Stage.job_state s
       | None => JobState.QUEUED
       end.

Definition _refresh (id : uuid) (now : Z) : ltx unit :=
  js ← gets jobs;
  job ← expect (find_row (is_job id) js) ledger_error;
  ss ← gets job_steps;
  let rows := select (of_job id) ss in
  update_job id (λ r, set_job (refreshed_state job rows) (cancel_requested r)
                        (refreshed_progress rows) now (terminal_category r) r).

(** [all(rows[parent]['state'] == 'SUCCEEDED' for parent in depends_on)]. *)
Fixpoint deps_succeeded (rows : list step_row) (deps : list string) : result exn bool :=
  match deps with
  | [] => Ok true
  | p :: deps' =>
      match find_row (λ r, bool_decide (s_unit_id r = p)) rows with
      | None => Err KeyError
      | Some r => if in_state StepState.SUCCEEDED r then deps_succeeded rows deps' else Ok false
      end
  end.

Section Operations.
Context `{Runtime} (cfg : JobSettings).

(** Fingerprint of a step's inputs, and its key within the run. *)
Definition step_inputs (rq : Admission) (sp : StepSpec) (parents : list (list ObjectRef)) : digest :=
  fingerprint (JArr [jstr (compatibility rq); spec_json sp;
                     JArr ((λ refs, JArr (ref_json <$> refs)) <$> parents)]).

Definition run_step_key (rq : Admission) (run : uuid) (gen : Z) (inputs : digest) : digest :=
  fingerprint (JArr [jstr (identity (a_scope rq)); jstr (a_document_version_id rq);
                     jstr run; JInt gen; jstr inputs]).

(** [UPDATE job_steps SET state='READY', step_key=?, ...] under UNIQUE(step_key). *)
Definition make_ready (id : uuid) (key inputs : digest) : ltx unit :=
  ss ← gets job_steps;
  _ ← guard (forallb (λ x, is_step id x || negb (bool_decide (step_key x = key))) ss) ledger_error;
  update_step id (set_ready key inputs).

Definition activate_row (job : job_row) (rows : list step_row) (now : Z) (row : step_row)
    : ltx unit :=
  if negb (in_state StepState.PENDING row) then mret tt
  else
    ready ← lift (deps_succeeded rows (depends_on (spec row)));
    if negb (ready : bool) then mret tt
    else
      parents ← gets (λ d, (λ p, match find_row (λ r, bool_decide (s_unit_id r = p)) rows with
                                 | Some r => _manifest (step_id r) d
                                 | None => []
                                 end) <$> depends_on (spec row));
      let inputs := step_inputs (request job) (spec row) parents in
      let key := run_step_key (request job) (run_id job) (generation job) inputs in
      _ ← make_ready (step_id row) key inputs;
      _enqueue (step_id row) now now.

Definition _activate (job : job_row) (now : Z) : ltx unit :=
  rows ← gets (λ d, select (of_job (job_id job)) (job_steps d));
  for_each (activate_row job rows now) rows.

(** *** Admission *)

Definition max_generation (scope : string) (version : uuid) (js : list job_row) : Z :=
  foldr Z.max 0 (generation <$> select (λ r, bool_decide (j_scope r = scope)
                                             && bool_decide (version_id r = version)) js).

(** [MAX(s.execution_at)] over the steps of the version's jobs. *)
Definition last_execution (scope : string) (version : uuid) (d : db) : option Z :=
  foldr (λ r acc, Some (match acc with Some m => Z.max (execution_at r) m | None => execution_at r end))
    None
    (select (λ s, existsb (λ j, is_job (s_job_id s) j && bool_decide (j_scope j = scope)
                                && bool_decide (version_id j = version)) (jobs d)) (job_steps d)).

(** One iteration of [for spec in request.steps], with the units copied so far. *)
Definition admit_step (rq : Admission) (now execution : Z) (jid run : uuid) (gen : Z)
    (reusable : list step_row) (copied : list string) (ids : StepSpec * uuid) : ltx (list string) :=
  let '(sp, sid) := ids in
  let old := find_row (λ r, bool_decide (s_unit_id r = unit_id sp)) reusable in
  let reuse := o ← old;
    if bool_decide (spec o = sp) && forallb (λ p, bool_decide (p ∈ copied)) (depends_on sp)
    then Some o else None in
  match reuse with
  | Some o =>
      _ ← insert_step {|
        step_id := sid; s_job_id := jid; s_unit_id := unit_id sp; spec := sp;
        step_key := run_step_key rq run gen (input_fingerprint o);
        input_fingerprint := input_fingerprint o; execution_at := execution_at o;
        s_state := StepState.SUCCEEDED; attempt_count := 0; fence := 0; lease_owner := None;
        lease_expires_at := None; not_before := now; started_at := None;
        finished_at := Some now; failure_category := None; reused_from := Some (step_id o) |};
      ml ← gets artifact_manifests;
      m ← expect (find_row (λ m, bool_decide (m_step_id m = step_id o)) ml) ledger_error;
      _ ← insert_manifest {| m_step_id := sid; manifest := manifest m; committed_at := now;
                             m_fence := 0 |};
      _ ← for_each (λ ref, insert_object sid (ref_key ref)) (manifest m);
      mret (unit_id sp :: copied)
  | None =>
      _ ← insert_step {|
        step_id := sid; s_job_id := jid; s_unit_id := unit_id sp; spec := sp;
        step_key := fingerprint (JArr [jstr run; spec_json sp; jstr "planned"]);
        input_fingerprint := compatibility rq; execution_at := execution;
        s_state := StepState.PENDING; attempt_count := 0; fence := 0; lease_owner := None;
        lease_expires_at := None; not_before := now; started_at := None; finished_at := None;
        failure_category := None; reused_from := None |};
      mret copied
  end.

(** The prior run of a resumed request: its row, and the steps it may reuse. *)
Definition resumable (rq : Admission) : ltx (option job_row * list step_row) :=
  match resume_from rq with
  | None => mret (None, [])
  | Some prior_id =>
      prior ← _job (a_scope rq) prior_id;
      _ ← guard (job_terminal (j_state prior)) (JobError "invalid_transition");
      _ ← guard (bool_decide (a_document_id (request prior) = a_document_id rq)
                 && bool_decide (a_document_version_id (request prior) = a_document_version_id rq))
           (JobError "invalid_transition");
      if bool_decide (compatibility (request prior) = compatibility rq) then
        ss ← gets job_steps;
        mret (Some prior, select (λ r, of_job (job_id prior) r && in_state StepState.SUCCEEDED r) ss)
      else mret (Some prior, [])
  end.

(** The new job: [ids] are the [uuid4()] results in the order of the calls. *)
Definition admit_new (now : Z) (ids : nat → uuid) (rq : Admission) : ltx job_row :=
  pr ← resumable rq;
  let '(prior, reusable) := (pr : option job_row * list step_row) in
  js ← gets jobs;
  let scope := identity (a_scope rq) in
  let gen := max_generation scope (a_document_version_id rq) js + 1 in
  let jid := ids 0%nat in
  let run := ids 1%nat in
  let document_time := match prior with Some p => document_created_at p | None => now end in
  _ ← insert_job {|
    job_id := jid; run_id := run; j_scope := scope; request_key := request_idempotency_key rq;
    j_fingerprint := request_digest rq; version_id := a_document_version_id rq;
    source_key := ref_key (a_source rq); generation := gen; request := rq; j_created_at := now;
    updated_at := now; document_created_at := document_time; j_state := JobState.QUEUED;
    cancel_requested := false; progress := empty_progress; terminal_category := None |};
  last ← gets (last_execution scope (a_document_version_id rq));
  let execution := match last with Some l => Z.max now (l + 1) | None => now end in
  _ ← fold_tx (admit_step rq now execution jid run gen reusable) []
        (zip (steps rq) ((λ i, ids (2 + i)%nat) <$> seq 0 (length (steps rq))));
  job ← _job (a_scope rq) jid;
  _ ← _activate job now;
  _ ← _refresh jid now;
  _job (a_scope rq) jid.

Definition admit_job (now : Z) (ids : nat → uuid) (rq : Admission) : ltx job_row :=
  _ ← guard (valid_admission rq) (JobError "invalid_configuration");
  js ← gets jobs;
  match find_row (λ r, bool_decide (j_scope r = identity (a_scope rq))
                       && bool_decide (request_key r = request_idempotency_key rq)) js with
  | Some existing =>
      _ ← guard (bool_decide (j_fingerprint existing = request_digest rq))
            (JobError "idempotency_conflict");
      mret existing
  | None => admit_new now ids rq
  end.

(** *** Reads *)

Definition get_job (scope : Scope) (id : uuid) : ltx job_row := _job scope id.

Definition steps_of (scope : Scope) (id : uuid) : ltx (list (step_row * list ObjectRef)) :=
  _ ← _job scope id;
  gets (λ d, (λ r, (r, _manifest (step_id r) d)) <$> select (of_job id) (job_steps d)).

Definition attempts (scope : Scope) (jid sid : uuid) : ltx (list attempt_row) :=
  _ ← _job scope jid;
  _ ← _step jid sid;
  gets (λ d, order_by (λ a b, number a <=? number b)
               (select (λ a, bool_decide (at_step_id a = sid)) (step_attempts d))).

(** *** Cancellation and failure *)

Definition _cancel_step (id : uuid) (now : Z) : ltx unit :=
  _ ← update_step id (set_cancelled now);
  modify (on_attempts (update_where
    (λ a, bool_decide (at_step_id a = id) && bool_decide (at_outcome a = StepState.RUNNING))
    (λ a, set_attempt StepState.CANCELLED (Some now) (Some "cancelled") (Some CANCELLED_CLASS)
            (at_not_before a) a))).

Definition _cancel_job (id : uuid) (now : Z) : ltx unit :=
  _ ← update_job id (λ r, set_job JobState.CANCEL_REQUESTED true (progress r) (updated_at r)
                            (terminal_category r) r);
  rows ← gets (λ d, select (λ r, of_job id r && step_unstarted (s_state r)) (job_steps d));
  for_each (λ r, _cancel_step (step_id r) now) rows.

Definition _terminal_failure (row : step_row) (f : Failure) (now : Z) : ltx unit :=
  _ ← update_step (step_id row) (set_failed now (category f));
  _ ← modify (on_dead (λ l,
        if existsb (λ x, bool_decide (dl_step_id x = step_id row)) l then l
        else l ++ [{| dl_step_id := step_id row; dl_category := category f;
                      dl_classification := classification f; dl_created_at := now |}]));
  _ ← update_job (s_job_id row) (λ r, set_job JobState.FAILED (cancel_requested r) (progress r)
                                        (updated_at r) (Some (category f)) r);
  others ← gets (λ d, select (λ r, of_job (s_job_id row) r && step_active (s_state r)) (job_steps d));
  for_each (λ r, _cancel_step (step_id r) now) others.

Definition failure (c : string) (k : Classification) : Failure :=
  {| category := c; classification := k; retry_after := None |}.

Definition _failure (job : job_row) (row : step_row) (f : Failure) (now : Z) : ltx unit :=
  let policy := retry (profile (request job)) in
  let d := Qmax (delay policy (step_key row) (Z.max (attempt_count row) 1))
                (default 0%Q (retry_after f)) in
  let retry_at := now + timedelta_us d in
  started ← expect (started_at row) ledger_error;
  let deadline := started + timedelta_us (budget_seconds policy) in
  let again := bool_decide (classification f = RETRYABLE)
               && (attempt_count row <? max_attempts policy) && (retry_at <? deadline) in
  let cat := if again || negb (bool_decide (classification f = RETRYABLE))
             then category f else "retry_exhausted" in
  _ ← update_attempt (step_id row) (fence row)
        (set_attempt (if again then StepState.RETRY_WAIT else StepState.FAILED) (Some now)
           (Some (category f)) (Some (classification f)) (if again then Some retry_at else None));
  _ ← (if again then
         _ ← update_step (step_id row) (set_retry retry_at cat);
         _enqueue (step_id row) now retry_at
       else _terminal_failure row (failure cat (classification f)) now);
  _refresh (s_job_id row) now.

(** *** Leases *)

Definition _check_lease (l : Lease) (now : Z) (settling : bool) : ltx (job_row * step_row) :=
  job ← _job (l_scope l) (l_job_id l);
  row ← _step (l_job_id l) (l_step_id l);
  _ ← guard ((fence row =? l_fence l) && bool_decide (lease_owner row = Some (l_owner l)))
        (JobError "stale_fence");
  _ ← guard (in_state StepState.RUNNING row) (JobError "invalid_transition");
  _ ← (if settling then mret tt
       else
         _ ← guard (negb (cancel_requested job)) (JobError "cancelled");
         _ ← guard (negb (job_terminal (j_state job))) (JobError "invalid_transition");
         expires ← expect (lease_expires_at row) ledger_error;
         guard (now <? expires) (JobError "lease_expired"));
  mret (job, row).

Definition expired_lease (now : Z) (r : step_row) : bool :=
  in_state StepState.RUNNING r
  && match lease_expires_at r with Some e => e <=? now | None => false end.

(** The end of [claim]: the row is READY or RETRY_WAIT and due. *)
Definition start_attempt (scope : Scope) (jid sid : uuid) (owner : string) (job : job_row)
    (row : step_row) (now : Z) : ltx (option Lease) :=
  let policy := retry (profile (request job)) in
  if match started_at row with
     | Some s => s + timedelta_us (budget_seconds policy) <=? now
     | None => false
     end
  then
    _ ← _terminal_failure row (failure "retry_exhausted" NON_RETRYABLE) now;
    _ ← _refresh jid now;
    mret None
  else
    let n := attempt_count row + 1 in
    let f := fence row + 1 in
    let expires := now + timedelta_us (lease_seconds cfg) in
    _ ← update_step sid (set_running n f owner expires now);
    _ ← insert_attempt {|
          at_step_id := sid; number := n; worker := owner; at_fence := f; at_started_at := now;
          at_finished_at := None; at_outcome := StepState.RUNNING; at_category := None;
          at_classification := None; at_not_before := None |};
    _ ← _refresh jid now;
    mret (Some {| l_scope := scope; l_job_id := jid; l_step_id := sid; l_owner := owner;
                  l_fence := f |}).

Definition claim (scope : Scope) (jid sid : uuid) (owner : string) (now : Z) : ltx (option Lease) :=
  _ ← guard (is_token owner) (JobError "invalid_configuration");
  job ← _job scope jid;
  row0 ← _step jid sid;
  if cancel_requested job || job_terminal (j_state job) then mret None
  else
    row ← (if expired_lease now row0 then
             _ ← _failure job row0 (failure "worker_interrupted" RETRYABLE) now;
             _step jid sid
           else mret row0);
    if negb (step_waiting (s_state row)) || (now <? not_before row) then mret None
    else start_attempt scope jid sid owner job row now.

Definition renew (l : Lease) (now : Z) : ltx unit :=
  _ ← _check_lease l now false;
  update_step (l_step_id l) (set_expires (now + timedelta_us (lease_seconds cfg))).

(** *** Commit *)

Definition valid_manifest (l : Lease) (refs : list ObjectRef) : bool :=
  forallb valid_object_ref refs && (1 <=? len refs) && (len refs <=? 1000)
  && bool_decide (NoDup (ref_key <$> refs))
  && forallb (λ r, bool_decide (ref_scope r = l_scope l)
                   && bool_decide (ref_kind r = artifact_kind)) refs.

(** The replay branch: the step has already succeeded. *)
Definition replay_commit (l : Lease) (refs : list ObjectRef) (row : step_row)
    : ltx (step_row * list ObjectRef) :=
  d ← gets id;
  prior ← expect (find_row (λ m, bool_decide (m_step_id m = l_step_id l)) (artifact_manifests d))
            ledger_error;
  let attempt := find_row (λ a, bool_decide (at_step_id a = l_step_id l)
                                && (at_fence a =? l_fence l)) (step_attempts d) in
  _ ← guard ((m_fence prior =? l_fence l)
             && match attempt with
                | Some a => bool_decide (worker a = l_owner l) | None => false end)
        (JobError "stale_fence");
  _ ← guard (bool_decide (manifest prior = refs)) (JobError "manifest_conflict");
  _step_model row.

Definition check_intent (l : Lease) (ref : ObjectRef) : ltx unit :=
  il ← gets object_intents;
  guard (match find_row (λ i, bool_decide (i_step_id i = l_step_id l)
                              && bool_decide (i_object_key i = ref_key ref)) il with
         | Some i => bool_decide (i_ref i = ref)
         | None => false
         end) (JobError "manifest_conflict").

Definition commit (l : Lease) (refs : list ObjectRef) (now : Z)
    : ltx (step_row * list ObjectRef) :=
  _ ← guard (valid_manifest l refs) (JobError "manifest_conflict");
  job ← _job (l_scope l) (l_job_id l);
  row ← _step (l_job_id l) (l_step_id l);
  if in_state StepState.SUCCEEDED row then replay_commit l refs row
  else
    _ ← _check_lease l now false;
    _ ← for_each (check_intent l) refs;
    _ ← insert_manifest {| m_step_id := l_step_id l; manifest := refs; committed_at := now;
                           m_fence := l_fence l |};
    _ ← for_each (λ ref, insert_object (l_step_id l) (ref_key ref)) refs;
    _ ← update_step (l_step_id l) (set_succeeded now);
    _ ← update_attempt (l_step_id l) (l_fence l)
          (λ a, set_attempt StepState.SUCCEEDED (Some now) (at_category a) (at_classification a)
                  (at_not_before a) a);
    _ ← _activate job now;
    _ ← _refresh (l_job_id l) now;
    r ← _step (l_job_id l) (l_step_id l);
    _step_model r.

Definition fail (l : Lease) (f : Failure) (now : Z) : ltx unit :=
  let f := sanitized f in
  jr ← _check_lease l now false;
  let '(job, row) := (jr : job_row * step_row) in
  if bool_decide (classification f = CANCELLED_CLASS) then
    _ ← _cancel_job (job_id job) now;
    _ ← _cancel_step (step_id row) now;
    _refresh (s_job_id row) now
  else _failure job row f now.

Definition cancel (scope : Scope) (id : uuid) (now : Z) : ltx job_row :=
  job ← _job scope id;
  if job_terminal (j_state job) then mret job
  else
    _ ← _cancel_job (job_id job) now;
    _ ← _refresh id now;
    _job scope id.

Definition settle_cancel (l : Lease) (now : Z) : ltx unit :=
  jr ← _check_lease l now true;
  let '(job, row) := (jr : job_row * step_row) in
  _ ← guard (cancel_requested job) (JobError "invalid_transition");
  _ ← _cancel_step (step_id row) now;
  _refresh (l_job_id l) now.

Definition register_object (l : Lease) (ref : ObjectRef) (now : Z) : ltx unit :=
  _ ← guard (valid_object_ref ref) (JobError "manifest_conflict");
  _ ← guard (bool_decide (ref_scope ref = l_scope l)) (JobError "scope_mismatch");
  _ ← _check_lease l now false;
  il ← gets object_intents;
  match find_row (λ i, bool_decide (i_step_id i = l_step_id l)
                       && bool_decide (i_object_key i = ref_key ref)) il with
  | Some i => guard (bool_decide (i_ref i = ref)) (JobError "manifest_conflict")
  | None => modify (on_intents (λ l', l' ++ [{|
      i_step_id := l_step_id l; i_object_key := ref_key ref; i_ref := ref; i_created_at := now |}]))
  end.

(** *** Dispatch *)

Definition bounded (limit : Z) : bool := (1 <=? limit) && (limit <=? 1000).

Definition step_by_id (d : db) (id : uuid) : option step_row := find_row (is_step id) (job_steps d).
Definition job_by_id (d : db) (id : uuid) : option job_row := find_row (is_job id) (jobs d).

(** The join of an outbox row with its step and job. *)
Definition outbox_join (d : db) (o : outbox_row) : option (step_row * job_row) :=
  s ← step_by_id d (o_step_id o);
  j ← job_by_id d (s_job_id s);
  Some (s, j).

Definition job_live (j : job_row) : bool :=
  negb (cancel_requested j) && negb (job_terminal (j_state j)).

Definition dispatchable (now : Z) (d : db) (o : outbox_row) : option Dispatch :=
  match outbox_join d o with
  | Some (s, j) =>
      if bool_decide (delivered_at o = None) && (available_at o <=? now) && job_live j
         && step_waiting (s_state s) && (not_before s <=? now)
      then Some {| dispatch_id := o_dispatch_id o; d_scope := a_scope (request j);
                   d_job_id := job_id j; d_step_id := step_id s |}
      else None
  | None => None
  end.

Definition pending_dispatch (limit now : Z) : ltx (list Dispatch) :=
  _ ← guard (bounded limit) (JobError "invalid_configuration");
  gets (λ d, take (Z.to_nat limit)
    (omap (dispatchable now d)
       (order_by (λ a b, o_dispatch_id a <=? o_dispatch_id b) (outbox d)))).

Definition mark_delivered (m : Dispatch) (now : Z) : ltx unit :=
  _ ← _job (d_scope m) (d_job_id m);
  _ ← _step (d_job_id m) (d_step_id m);
  let hit := λ o, (o_dispatch_id o =? dispatch_id m) && bool_decide (o_step_id o = d_step_id m) in
  ol ← gets outbox;
  _ ← modify (λ d, on_outbox (update_where hit (λ o, {|
        o_dispatch_id := o_dispatch_id o; o_step_id := o_step_id o;
        o_created_at := o_created_at o; available_at := available_at o;
        delivered_at := Some (default now (delivered_at o)) |})) (last_dispatch d) d);
  guard (existsb hit ol) (JobError "dispatch_error").

(** *** Reconciliation *)

(** SELECT DISTINCT: the first row of each value. *)
Fixpoint distinct_refs (seen : list ObjectRef) (l : list intent_row) : list intent_row :=
  match l with
  | [] => []
  | i :: l' =>
      if bool_decide (i_ref i ∈ seen) then distinct_refs seen l'
      else i :: distinct_refs (i_ref i :: seen) l'
  end.

Definition is_orphan (cutoff : Z) (d : db) (i : intent_row) : bool :=
  (i_created_at i <=? cutoff)
  && match step_by_id d (i_step_id i) with
     | Some s => negb (step_active (s_state s))
     | None => false
     end
  && negb (existsb (λ j, bool_decide (source_key j = i_object_key i)) (jobs d))
  && negb (existsb (λ m, bool_decide (mo_object_key m = i_object_key i)) (manifest_objects d))
  && negb (existsb (λ i', bool_decide (i_object_key i' = i_object_key i)
                          && match step_by_id d (i_step_id i') with
                             | Some s => step_active (s_state s) | None => false end)
             (object_intents d)).

Definition intent_le (a b : intent_row) : bool :=
  (i_created_at a <? i_created_at b)
  || (i_created_at a =? i_created_at b)
     && (String.ltb (i_step_id a) (i_step_id b)
         || String.eqb (i_step_id a) (i_step_id b) && String.leb (i_object_key a) (i_object_key b)).

Definition _orphans (now limit : Z) (d : db) : list ObjectRef :=
  let cutoff := now - timedelta_us (orphan_grace_seconds cfg) in
  i_ref <$> take (Z.to_nat limit)
    (order_by intent_le (distinct_refs [] (select (is_orphan cutoff d) (object_intents d)))).

Definition orphan_candidates (limit now : Z) : ltx (list ObjectRef) :=
  _ ← guard (bounded limit) (JobError "invalid_configuration");
  gets (_orphans now limit).

(** First loop of [reconcile]: one expired row. *)
Definition reconcile_expired (now : Z) (n : Z) (row0 : step_row) : ltx Z :=
  row ← _step (s_job_id row0) (step_id row0);
  if negb (in_state StepState.RUNNING row) then mret n
  else
    js ← gets jobs;
    job ← expect (find_row (is_job (s_job_id row)) js) ledger_error;
    _ ← (if cancel_requested job || job_terminal (j_state job) then
           _ ← _cancel_step (step_id row) now;
           _refresh (s_job_id row) now
         else _failure job row (failure "worker_interrupted" RETRYABLE) now);
    mret (n + 1).

(** Second loop: active steps of terminal jobs. *)
Definition reconcile_terminal (now : Z) (n : Z) (row : step_row) : ltx Z :=
  _ ← _cancel_step (step_id row) now;
  _ ← _refresh (s_job_id row) now;
  mret (n + 1).

Definition reconcile_dispatch (now : Z) (n : Z) (row : step_row) : ltx Z :=
  _ ← _enqueue (step_id row) now now;
  mret (n + 1).

Definition terminal_leftover (d : db) (s : step_row) : bool :=
  step_active (s_state s)
  && match job_by_id d (s_job_id s) with Some j => job_terminal (j_state j) | None => false end.

(** A due step of a live job with no undelivered or recently delivered record. *)
Definition undispatched (now cutoff : Z) (d : db) (s : step_row) : bool :=
  step_waiting (s_state s) && (not_before s <=? now)
  && match job_by_id d (s_job_id s) with Some j => job_live j | None => false end
  && negb (existsb (λ o, bool_decide (o_step_id o = step_id s)
                         && match delivered_at o with None => true | Some t => cutoff <? t end)
             (outbox d)).

Definition pending_count (d : db) : Z :=
  count (λ o, bool_decide (delivered_at o = None)
              && match outbox_join d o with
                 | Some (s, j) => step_waiting (s_state s) && job_live j
                 | None => false
                 end) (outbox d).

Definition lease_le (a b : step_row) : bool :=
  match lease_expires_at a, lease_expires_at b with
  | Some x, Some y => x <=? y
  | None, _ => true
  | _, None => false
  end.

Definition reconcile (limit now : Z) : ltx Reconciliation :=
  _ ← guard (bounded limit) (JobError "invalid_configuration");
  rows ← gets (λ d, take (Z.to_nat limit)
                 (order_by lease_le (select (expired_lease now) (job_steps d))));
  n1 ← fold_tx (reconcile_expired now) 0 rows;
  rows2 ← gets (λ d, take (Z.to_nat limit) (select (terminal_leftover d) (job_steps d)));
  n2 ← fold_tx (reconcile_terminal now) 0 rows2;
  let cutoff := now - timedelta_us (redelivery_seconds cfg) in
  rows3 ← gets (λ d, take (Z.to_nat limit) (select (undispatched now cutoff d) (job_steps d)));
  n3 ← fold_tx (reconcile_dispatch now) 0 rows3;
  c ← gets pending_count;
  orph ← gets (_orphans now limit);
  mret {| expired := n1; dispatch_repairs := n3; terminal_repairs := n2; pending_outbox := c;
          orphan_count := len orph |}.

Definition dead_letters_of (scope : Scope) (id : uuid) : ltx (list dead_letter) :=
  _ ← _job scope id;
  gets (λ d, select (λ x, match step_by_id d (dl_step_id x) with
                          | Some s => of_job id s | None => false end) (dead_letters d)).

End Operations.
