(* ===== verification/Sample.v ===== *)
(** * Concrete inputs

    An executable [Runtime], and the request, settings and objects the witnesses
    of the development evaluate. *)

From stdpp Require Import base tactics list strings option sets.
From Stdlib Require Import ZArith NArith QArith Lia.
From S2P Require Import Prelude Json Contracts JobModels JobLedger.

Local Open Scope Z_scope.

Definition of_cps (t : text) : string :=
  foldr (λ c s, String (Ascii.ascii_of_N c) s) EmptyString t.

(** 64 hexadecimal digits of a polynomial checksum. *)
Definition sample_sha (t : text) : digest :=
  let h := foldl (λ acc c, N.land (acc * 33 + c) 0xffffffffffff)%N 5381%N t in
  of_cps ((λ i, hex_digit (N.land (N.shiftr h (4 * N.of_nat (i mod 12))) 15)) <$> seq 0 64).

Lemma cps_of_cps t : (∀ c, c ∈ t → (c < 256)%N) → cps (of_cps t) = t.
Proof.
  induction t as [|c t IH]; intros Ht; [done|].
  change (cps (of_cps (c :: t))) with (Ascii.N_of_ascii (Ascii.ascii_of_N c) :: cps (of_cps t)).
  rewrite Ascii.N_ascii_embedding by (apply Ht; set_solver). rewrite IH by set_solver. done.
Qed.

Lemma land_15 n : (N.land n 15 < 16)%N.
Proof. change 15%N with (N.ones 4). rewrite N.land_ones. by apply N.mod_lt. Qed.

(** The checksum is always 64 lower-case hexadecimal digits. *)
Lemma sample_sha_digest t : is_digest (sample_sha t) = true.
Proof.
  assert (∀ n, (n < 16)%N → is_hex (hex_digit n) = true ∧ (hex_digit n < 256)%N) as Hd.
  { intros n Hn. unfold is_hex, hex_digit. destruct (N.ltb_spec n 10).
    - rewrite orb_true_iff, !andb_true_iff, !N.leb_le. lia.
    - rewrite orb_true_iff, !andb_true_iff, !N.leb_le. lia. }
  unfold is_digest, sample_sha. rewrite cps_of_cps.
  - rewrite length_fmap, length_seq. apply andb_true_iff. split; [done|].
    apply forallb_forall. intros c (i & -> & _)%list_elem_of_In%list_elem_of_fmap.
    by apply Hd, land_15.
  - intros c (i & -> & _)%list_elem_of_fmap. by apply Hd, land_15.
Qed.

Definition sample_runtime : Runtime := {|
  sha256_hex := sample_sha;
  uuid5_url := λ t, String.substring 0 12 (sample_sha t);
  float_repr := λ q, dumps_int (Qnum q) ++ [46%N] ++ dumps_int (Zpos (Qden q));
  isoformat_utc := dumps_int;
  isprintable := λ c, (32 <=? c)%N |}.

Definition sample_scope : Scope := {| tenant := "t-1"; owner := "o-1" |}.

Definition sample_sha256 : digest := sample_sha (cps "source bytes").

Definition sample_version : uuid :=
  @version_identity sample_runtime sample_scope "doc-1" sample_sha256.

Definition sample_source : ObjectRef := {|
  ref_scope := sample_scope; ref_kind := source_kind; ref_object_id := sample_version;
  ref_key := @object_key sample_runtime sample_scope source_kind sample_version;
  ref_sha256 := sample_sha256; ref_byte_size := 12 |}.

Definition sample_artifact (id : uuid) : ObjectRef := {|
  ref_scope := sample_scope; ref_kind := artifact_kind; ref_object_id := id;
  ref_key := @object_key sample_runtime sample_scope artifact_kind id;
  ref_sha256 := sample_sha (cps id); ref_byte_size := 3 |}.

Definition sample_retry : RetryPolicy := {|
  max_attempts := 2; base_seconds := 1; max_seconds := inject_Z 60;
  budget_seconds := inject_Z 3600; jitter_fraction := 1 # 2 |}.

Definition sample_profile : ProcessingProfile := {|
  version := "local-extraction/1"; parser_version := "utf8-strict/1";
  p_max_source_bytes := 16000000; p_max_pages := 1000; p_max_characters := 4000000;
  p_max_blocks := 100000; p_max_artifact_bytes := 32000000; p_structure_required := false;
  retry := sample_retry |}.

Definition sample_spec (u : string) (st : Stage.t) (deps : list string) : StepSpec := {|
  unit_id := u; stage := st; schema_version := "extraction/1";
  config_fingerprint := sample_sha []; depends_on := deps |}.

Definition sample_request : Admission := {|
  a_scope := sample_scope; a_document_id := "doc-1"; a_document_version_id := sample_version;
  a_source := sample_source; request_idempotency_key := "request-1";
  a_display_filename := cps "source.txt"; a_mime := text_plain; profile := sample_profile;
  steps := [sample_spec "a" Stage.EXTRACTING []; sample_spec "b" Stage.NORMALIZING ["a"]];
  resume_from := None |}.

Definition sample_settings : JobSettings := {|
  lease_seconds := inject_Z 30; redelivery_seconds := inject_Z 30;
  orphan_grace_seconds := inject_Z 86400 |}.

Definition sample_ids (i : nat) : uuid :=
  match i with
  | 0%nat => "job-1" | 1%nat => "run-1" | 2%nat => "step-a" | 3%nat => "step-b"
  | _ => "extra"
  end.

(** The ledger after admission, after the first step was claimed, and after its
    artifact was registered. *)
Definition admitted_db : db :=
  (transaction (@admit_job sample_runtime 1000 sample_ids sample_request) empty_db).2.

Definition claim_a (now : Z) : ltx (option Lease) :=
  @claim sample_runtime sample_settings sample_scope "job-1" "step-a" "worker-1" now.

Definition claimed_db : db := (transaction (claim_a 2000) admitted_db).2.

Definition sample_lease : Lease := {|
  l_scope := sample_scope; l_job_id := "job-1"; l_step_id := "step-a"; l_owner := "worker-1";
  l_fence := 1 |}.

Definition registered_db : db :=
  (transaction (@register_object sample_runtime sample_lease (sample_artifact "art-1") 3000)
     claimed_db).2.

Definition committed_db : db :=
  (transaction (@commit sample_runtime sample_lease [sample_artifact "art-1"] 4000)
     registered_db).2.
