(* ===== verification/ContractTheorems.v ===== *)
(** * What the document contracts guarantee

    Text coverage of extraction artifacts, evidence resolution, the equivalence of
    the digestion plane's evidence index with the reference resolver, the native
    policy, and unambiguous names. *)

From stdpp Require Import base tactics list strings option sets.
From Stdlib Require Import ZArith NArith QArith Lia.
From S2P Require Import Prelude Json Contracts ContractFacts JobModels JobLedger Sample.

Local Open Scope Z_scope.

(** ** A two-block text artifact *)

Definition sample_text : text := cps "ab" ++ [10%N] ++ cps "cd".

Definition sample_document : Document := {|
  document_id := "doc-1"; document_version_id := sample_version; doc_scope := sample_scope;
  doc_source := sample_source; display_filename := cps "source.txt";
  declared_mime := cps "text/plain"; detected_mime := text_plain; page_count := None;
  language := None; language_confidence := None; created_at := 0 |}.

Definition sample_extraction : uuid :=
  @extraction_identity sample_runtime sample_scope sample_version (cps "utf8-strict/1") 0
    100 10 1000 10 false.

Definition sample_unit_id : uuid := @stable_id sample_runtime [cps sample_version; cps "text"].

Definition sample_block (i start stop line : Z) : Block := {|
  block_id := @stable_id sample_runtime [cps sample_extraction; cps sample_unit_id; dumps_int i];
  blk_source_id := sample_unit_id; blk_kind := b_text; reading_order := i;
  source_text := slice sample_text start stop;
  blk_span := {| sp_start := start; sp_end := stop; line_start := Some line; line_end := Some line |};
  normalized_text := None; geometry := None; parent_id := None; child_ids := []; visual := None |}.

Definition sample_observations : Observations := {|
  character_count := 5; printable_ratio := 1; replacement_ratio := 0; has_native_text := true;
  has_images := Some false; has_graphics := Some false; parser_failed := false;
  structure_required := false; block_count := 2 |}.

Definition sample_unit : TextUnit := {|
  unit_source_id := sample_unit_id; unit_version_id := sample_version; physical_page := None;
  printed_label := None; width := None; height := None; rotation := None;
  status := u_native_text; method := m_native; unit_parser_version := cps "utf8-strict/1";
  unit_text := sample_text; blocks := [sample_block 0 0 3 1; sample_block 1 3 5 2];
  decision := Policy.decide sample_unit_id sample_observations; ocr_engine := None;
  ocr_model_version := None; ocr_confidence := None |}.

Definition sample_extracted : ExtractionArtifact := {|
  document := sample_document; extraction_id := sample_extraction;
  art_parser_version := cps "utf8-strict/1"; extracted_at := 0; max_source_bytes := 100;
  max_pages := 10; max_characters := 1000; max_blocks := 10; art_structure_required := false;
  units := [sample_unit] |}.

(** The citation of ["cd"] on line 2. *)
Definition sample_ref : EvidenceRef := {|
  ev_scope := sample_scope; ev_version_id := sample_version; ev_extraction_id := sample_extraction;
  ev_source_id := sample_unit_id; ev_block_id := block_id (sample_block 1 3 5 2);
  ev_span := {| sp_start := 3; sp_end := 5; line_start := Some 2; line_end := Some 2 |} |}.

Section Theorems.
Context `{Runtime}.

(** In an artifact that passes validation, the blocks of every unit, in order,
    are contiguous and their source texts concatenate to exactly the unit's text:
    no character is lost, duplicated or reordered, and block ids are distinct. *)
Theorem artifact_text_covered a u :
  model_valid a = true → u ∈ units a →
  NoDup (block_id <$> blocks u) ∧
  concat (source_text <$> blocks u) = unit_text u ∧
  Forall (λ b, source_text b = slice (unit_text u) (sp_start (blk_span b)) (sp_end (blk_span b))
               ∧ 0 ≤ sp_start (blk_span b) ≤ sp_end (blk_span b)
               ∧ sp_end (blk_span b) ≤ len (unit_text u)) (blocks u).
Proof. apply model_valid_unit. Qed.

(** [resolve] returns a text exactly when scope, version and extraction match
    and some block of the cited unit contains the cited span with the right line
    numbers; the text is then the cited characters. *)
Theorem evidence_resolves_exactly a s ref t :
  model_valid a = true →
  resolve a s ref = Ok t ↔
  s = doc_scope (document a) ∧ ev_scope ref = s ∧
  ev_version_id ref = document_version_id (document a) ∧ ev_extraction_id ref = extraction_id a ∧
  ∃ u b, u ∈ units a ∧ b ∈ blocks u ∧ cites u b ref t.
Proof. apply resolve_Ok_iff. Qed.

(** The digestion plane's [EvidenceIndex] (dictionary lookup, line numbers by
    binary search in precomputed newline positions) accepts the same references and
    returns the same texts as the linear scan of [provenance.resolve], on every
    valid artifact whose block ids do not collide across units. *)
Theorem evidence_index_equivalent a ref t :
  model_valid a = true → NoDup (all_block_ids a) → valid_span (ev_span ref) = true →
  index_resolve (build_index a) ref = Ok t ↔ resolve a (doc_scope (document a)) ref = Ok t.
Proof.
  intros Hv Hnd Hsp. rewrite index_resolve_Ok_iff, resolve_Ok_iff by done. naive_solver.
Qed.

(** [stable_id] hashes an unambiguous name: two argument lists of Unicode
    strings with the same name are the same list. *)
Theorem stable_name_injective ps qs :
  Forall (Forall scalar) ps → Forall (Forall scalar) qs → stable_name ps = stable_name qs → ps = qs.
Proof.
  intros Hp Hq Heq. unfold stable_name in Heq.
  destruct (dumps_unique (JArr (JStr <$> ps)) (JArr (JStr <$> qs)) [] []) as [E _]; try done.
  - apply plain_arr, Forall_fmap. done.
  - apply plain_arr, Forall_fmap. done.
  - by rewrite !app_nil_r.
  - injection E as E. assert (Inj (=) (=) JStr) as Hinj by (by intros ?? [= ->]).
    by apply (list_fmap_eq_inj JStr) in E.
Qed.

(** The canonical form that is fingerprinted determines the value up to the
    order of object keys, for values without floats: no two different requests,
    specifications or references share a canonical form. *)
Theorem canonical_injective v w :
  plain v → plain w → canonical v = canonical w → sort_keys v = sort_keys w.
Proof. intros Hv Hw. apply canonical_sorted_inj; by apply plain_sort_keys. Qed.

(** The native policy accepts a unit without further processing exactly when
    the parser did not fail, no replacement characters were seen, and the unit
    either has fully printable text and no structure was asked for, or has no text,
    no images and is known to have no graphics. *)
Theorem native_acceptance_exact sid o :
  outcome (Policy.decide sid o) = native_accepted ↔
  parser_failed o = false ∧ (replacement_ratio o <= 0)%Q ∧
  if has_native_text o then (1 <= printable_ratio o)%Q ∧ structure_required o = false
  else default false (has_images o) = false ∧ has_graphics o = Some false.
Proof.
  unfold Policy.decide. destruct (has_native_text o);
    rewrite <-?(Qle_bool_iff 1 (printable_ratio o)), <-(Qle_bool_iff (replacement_ratio o) 0);
    (destruct (decide (has_graphics o = Some false)) as [Eg|Eg];
      [rewrite ?(bool_decide_eq_true_2 _ Eg)|rewrite ?(bool_decide_eq_false_2 _ Eg)]);
    destruct (parser_failed o), (default false (has_images o)), (Qle_bool (replacement_ratio o) 0),
      (Qle_bool 1 (printable_ratio o)), (structure_required o);
    simpl; (split; [intros ?; split_and!; done|by intros (? & ? & ? & ?)]).
Qed.

End Theorems.

(** ** Witnesses *)

Lemma artifact_text_covered_witness :
  NoDup (block_id <$> blocks sample_unit) ∧
  concat (source_text <$> blocks sample_unit) = unit_text sample_unit ∧
  Forall (λ b, source_text b = slice (unit_text sample_unit) (sp_start (blk_span b)) (sp_end (blk_span b))
               ∧ 0 ≤ sp_start (blk_span b) ≤ sp_end (blk_span b)
               ∧ sp_end (blk_span b) ≤ len (unit_text sample_unit)) (blocks sample_unit).
Proof.
  apply (@artifact_text_covered sample_runtime sample_extracted sample_unit);
    [vm_compute; reflexivity|apply list_elem_of_here].
Defined.

Lemma evidence_resolves_exactly_witness :
  resolve sample_extracted sample_scope sample_ref = Ok (cps "cd") ↔
  sample_scope = doc_scope (document sample_extracted) ∧ ev_scope sample_ref = sample_scope ∧
  ev_version_id sample_ref = document_version_id (document sample_extracted) ∧
  ev_extraction_id sample_ref = extraction_id sample_extracted ∧
  ∃ u b, u ∈ units sample_extracted ∧ b ∈ blocks u ∧ cites u b sample_ref (cps "cd").
Proof.
  apply (@evidence_resolves_exactly sample_runtime sample_extracted sample_scope sample_ref).
  vm_compute. reflexivity.
Defined.

Lemma evidence_index_equivalent_witness :
  index_resolve (build_index sample_extracted) sample_ref = Ok (cps "cd") ↔
  resolve sample_extracted (doc_scope (document sample_extracted)) sample_ref = Ok (cps "cd").
Proof.
  apply (@evidence_index_equivalent sample_runtime sample_extracted sample_ref);
    [vm_compute; reflexivity| |vm_compute; reflexivity].
  refine (bool_decide_unpack _ _). vm_compute. exact I.
Defined.

Lemma stable_name_injective_witness : [cps "a"; cps "b"] = [cps "a"; cps "b"].
Proof.
  apply (@stable_name_injective sample_runtime [cps "a"; cps "b"] [cps "a"; cps "b"]);
    [repeat constructor; unfold scalar; lia|repeat constructor; unfold scalar; lia|reflexivity].
Defined.

Lemma canonical_injective_witness :
  sort_keys (JObj [("b", JInt 1); ("a", JNull)]) = sort_keys (JObj [("a", JNull); ("b", JInt 1)]).
Proof.
  apply (@canonical_injective sample_runtime (JObj [("b", JInt 1); ("a", JNull)])
           (JObj [("a", JNull); ("b", JInt 1)]));
    [simpl; tauto|simpl; tauto|vm_compute; reflexivity].
Defined.
