(* ===== verification/ProviderAdmission.v ===== *)
(** * Shared provider quota

    [llm/admission.py]: [SQLiteInferenceAdmission].  One table of calls shared by
    all quota keys; an admission object is its quota key and policy.  Clock
    readings are the exact rational values of Python floats.  [Literal] workloads
    are an inductive type, so the first guard of [acquire] keeps its arithmetic
    conditions only. *)

From stdpp Require Import base tactics list strings option sets.
From Stdlib Require Import ZArith NArith QArith Lqa Lia Sorted.
From S2P Require Import Prelude Json Contracts JobModels.

Local Open Scope Z_scope.

Definition qlt (a b : Q) : bool := negb (Qle_bool b a).

Lemma qlt_iff a b : qlt a b = true ↔ (a < b)%Q.
Proof.
  unfold qlt. rewrite negb_true_iff. split.
  - intros E. apply Qnot_le_lt. intros F%Qle_bool_iff. congruence.
  - intros E. destruct (Qle_bool b a) eqn:F; [|done]. apply Qle_bool_iff in F. lra.
Qed.

Record AdmissionPolicy := {
  rpm : Z; tpm : Z; concurrent : Z; interactive_rpm : Z; interactive_tpm : Z;
  interactive_slots : Z; per_job_concurrent : Z; per_job_rpm : Z }.

(** Field constraints and [bounds]. *)
Definition valid_policy (p : AdmissionPolicy) : bool :=
  (0 <? rpm p) && (0 <? tpm p) && (1 <? concurrent p) && (0 <? interactive_rpm p)
  && (0 <? interactive_tpm p) && (0 <? interactive_slots p) && (0 <? per_job_concurrent p)
  && (0 <? per_job_rpm p)
  && (interactive_rpm p <? rpm p) && (interactive_tpm p <? tpm p)
  && (interactive_slots p <? concurrent p)
  && (per_job_concurrent p <=? concurrent p - interactive_slots p)
  && (per_job_rpm p <=? rpm p - interactive_rpm p).

Record CallIdentity := {
  ci_scope : string; ci_job : uuid; ci_step : uuid; ci_attempt : Z; ci_profile : string;
  ci_provider : string; ci_role : string; ci_model : string; ci_capability : string }.

(** [asdict(identity)] with [default=str]. *)
Definition identity_json (i : CallIdentity) : json :=
  JObj [("scope", jstr (ci_scope i)); ("job", jstr (ci_job i)); ("step", jstr (ci_step i));
        ("attempt", JInt (ci_attempt i)); ("profile", jstr (ci_profile i));
        ("provider", jstr (ci_provider i)); ("role", jstr (ci_role i));
        ("model", jstr (ci_model i)); ("capability", jstr (ci_capability i))].

Inductive Workload := INTERACTIVE | DOCUMENT_BACKGROUND.
#[export] Instance Workload_eq_dec : EqDecision Workload.
Proof. solve_decision. Defined.

(** [InferenceUsage]. *)
Record InferenceUsage := {
  prompt_tokens : option Z; completion_tokens : option Z; total_tokens : option Z }.

Record call_row := {
  c_ticket : uuid; c_quota : string; c_identity : CallIdentity; c_workload : Workload;
  started : Q; estimated_input : Z; reserved_output : Z; active : bool; c_outcome : string;
  c_usage : option InferenceUsage }.

Inductive inference_exn :=
| ConfigurationError (msg : string)
| RateLimitError (retry_after : Z).

Abbreviation atx := (tx (list call_row) inference_exn).

Definition background (r : call_row) : bool := bool_decide (c_workload r = DOCUMENT_BACKGROUND).
Definition of_quota (k : string) (r : call_row) : bool := bool_decide (c_quota r = k).
Definition since (t : Q) (r : call_row) : bool := qlt t (started r).
Definition same_job (i : CallIdentity) (r : call_row) : bool :=
  bool_decide (ci_job (c_identity r) = ci_job i) && bool_decide (ci_scope (c_identity r) = ci_scope i).
Definition row_tokens (r : call_row) : Z := estimated_input r + reserved_output r.
Definition reserved (rs : list call_row) : Z := sum_by row_tokens rs.

(** The primary key and UNIQUE(quota,scope,job,step,attempt). *)
Definition insert_call (r : call_row) : atx unit :=
  rows ← gets id;
  _ ← guard (forallb (λ x,
         negb (bool_decide (c_ticket x = c_ticket r))
         && negb (bool_decide (c_quota x = c_quota r) && same_job (c_identity r) x
                  && bool_decide (ci_step (c_identity x) = ci_step (c_identity r))
                  && (ci_attempt (c_identity x) =? ci_attempt (c_identity r)))) rows)
       (ConfigurationError "Admission state unavailable.");
  modify (λ l, l ++ [r]).

(** The token cap of a workload. *)
Definition token_cap (p : AdmissionPolicy) (w : Workload) : Z :=
  match w with DOCUMENT_BACKGROUND => tpm p - interactive_tpm p | INTERACTIVE => tpm p end.

(** [denied] of [acquire]: [rows] are the calls of the quota that are recent or
    still active. *)
Definition denied (p : AdmissionPolicy) (i : CallIdentity) (tokens : Z) (w : Workload) (now : Q)
    (rows : list call_row) : bool :=
  let recent := select (since (now - 60)) rows in
  let act := select active rows in
  let docs := select background recent in
  let doc_active := select background act in
  (rpm p <=? len recent) || (tpm p <? reserved recent + tokens) || (concurrent p <=? len act)
  || match w with
     | INTERACTIVE => false
     | DOCUMENT_BACKGROUND =>
         (rpm p - interactive_rpm p <=? len docs)
         || (token_cap p w <? reserved docs + tokens)
         || (concurrent p - interactive_slots p <=? len doc_active)
         || (per_job_concurrent p <=? count (same_job i) doc_active)
         || (per_job_rpm p <=? count (same_job i) docs)
     end.

Definition acquire (k : string) (p : AdmissionPolicy) (i : CallIdentity)
    (estimated reserved_out : Z) (w : Workload) (now : Q) (ticket : uuid) : atx uuid :=
  _ ← guard ((0 <=? estimated) && (0 <? reserved_out) && (1 <=? ci_attempt i))
        (ConfigurationError "Invalid inference reservation.");
  let tokens := estimated + reserved_out in
  _ ← guard (tokens <=? token_cap p w) (ConfigurationError "Request cannot fit quota reservation.");
  rows ← gets (select (λ r, of_quota k r && (since (now - 60) r || active r)));
  _ ← guard (negb (denied p i tokens w now rows)) (RateLimitError 60);
  _ ← insert_call {| c_ticket := ticket; c_quota := k; c_identity := i; c_workload := w;
                     started := now; estimated_input := estimated; reserved_output := reserved_out;
                     active := true; c_outcome := "unknown"; c_usage := None |};
  mret ticket.

Definition OUTCOMES : list string :=
  ["success"; "timeout"; "overloaded"; "provider_unreachable"; "authentication_failure";
   "configuration_failure"; "protocol_failure"; "model_unavailable"; "output_limit";
   "context_exceeded"; "upstream_failure"; "unknown"].

Definition finish_row (usage : option InferenceUsage) (outcome : string) (r : call_row) : call_row := {|
  c_ticket := c_ticket r; c_quota := c_quota r; c_identity := c_identity r;
  c_workload := c_workload r; started := started r; estimated_input := estimated_input r;
  reserved_output := reserved_output r; active := false; c_outcome := outcome; c_usage := usage |}.

Definition finish (k : string) (ticket : uuid) (usage : option InferenceUsage) (outcome : string)
    : atx unit :=
  let outcome := if bool_decide (outcome ∈ OUTCOMES) then outcome else "unknown" in
  rows ← gets id;
  row ← expect (find_row (λ r, bool_decide (c_ticket r = ticket) && of_quota k r) rows)
          (ConfigurationError "Unknown or settled inference reservation.");
  _ ← guard (active row) (ConfigurationError "Unknown or settled inference reservation.");
  modify (update_where (λ r, bool_decide (c_ticket r = ticket)) (finish_row usage outcome)).

(** [records]: ORDER BY started,rowid is a stable sort. *)
Definition records (k scope : string) (job : uuid) (rows : list call_row) : list call_row :=
  order_by (λ a b, Qle_bool (started a) (started b))
    (select (λ r, of_quota k r && bool_decide (ci_scope (c_identity r) = scope)
                  && bool_decide (ci_job (c_identity r) = job)) rows).

(** ** Histories *)

Inductive acall :=
| Acquire (k : string) (i : CallIdentity) (estimated reserved_out : Z) (w : Workload) (ticket : uuid)
| Finish (k : string) (ticket : uuid) (usage : option InferenceUsage) (outcome : string).

Section Quota.
(** Each quota key has one policy ([quota_policy]). *)
Variable policy : string → AdmissionPolicy.

Definition astep (rows : list call_row) (c : Q * acall) : list call_row :=
  match c.2 with
  | Acquire k i e r w t => (transaction (acquire k (policy k) i e r w c.1 t) rows).2
  | Finish k t u o => (transaction (finish k t u o) rows).2
  end.

Definition arun (cs : list (Q * acall)) : list call_row := foldl astep [] cs.

(** ** What a granted request implies *)

(** The rows [acquire] looks at, seen from the whole table. *)
Definition recent_of (k : string) (now : Q) : call_row → bool :=
  λ r, of_quota k r && since (now - 60) r.
Definition active_of (k : string) : call_row → bool := λ r, of_quota k r && active r.

Lemma window_recent k now rows :
  select (since (now - 60)) (select (λ r, of_quota k r && (since (now - 60) r || active r)) rows)
  = select (recent_of k now) rows.
Proof.
  rewrite select_select. apply select_ext. intros r _. unfold recent_of.
  by destruct (of_quota k r), (since (now - 60) r), (active r).
Qed.

Lemma window_active k now rows :
  select active (select (λ r, of_quota k r && (since (now - 60) r || active r)) rows)
  = select (active_of k) rows.
Proof.
  rewrite select_select. apply select_ext. intros r _. unfold active_of.
  by destruct (of_quota k r), (since (now - 60) r), (active r).
Qed.

Definition new_call (k : string) (i : CallIdentity) (e r : Z) (w : Workload) (now : Q) (t : uuid)
    : call_row := {|
  c_ticket := t; c_quota := k; c_identity := i; c_workload := w; started := now;
  estimated_input := e; reserved_output := r; active := true; c_outcome := "unknown";
  c_usage := None |}.

(** The conditions under which a request is granted. *)
Record granted (k : string) (p : AdmissionPolicy) (i : CallIdentity) (tokens : Z) (w : Workload)
    (now : Q) (rows : list call_row) : Prop := {
  gr_tokens : 0 < tokens ≤ token_cap p w;
  gr_rpm : len (select (recent_of k now) rows) < rpm p;
  gr_tpm : reserved (select (recent_of k now) rows) + tokens ≤ tpm p;
  gr_slots : len (select (active_of k) rows) < concurrent p;
  gr_docs : w = DOCUMENT_BACKGROUND →
    len (select background (select (recent_of k now) rows)) < rpm p - interactive_rpm p ∧
    reserved (select background (select (recent_of k now) rows)) + tokens ≤ tpm p - interactive_tpm p ∧
    len (select background (select (active_of k) rows)) < concurrent p - interactive_slots p ∧
    count (same_job i) (select background (select (active_of k) rows)) < per_job_concurrent p ∧
    count (same_job i) (select background (select (recent_of k now) rows)) < per_job_rpm p }.

Lemma denied_false k p i tokens w now rows :
  0 < tokens ≤ token_cap p w →
  denied p i tokens w now (select (λ r, of_quota k r && (since (now - 60) r || active r)) rows) = false ↔
  granted k p i tokens w now rows.
Proof.
  intros Htok. unfold denied. rewrite window_recent, window_active.
  rewrite !orb_false_iff, !Z.leb_gt, !Z.ltb_ge. split.
  - intros (((H1 & H2) & H3) & H4). split; try done.
    intros ->. rewrite !orb_false_iff, !Z.leb_gt, !Z.ltb_ge in H4. simpl in H4. tauto.
  - intros [_ H1 H2 H3 H4]. split_and!; try done. destruct w; [done|].
    rewrite !orb_false_iff, !Z.leb_gt, !Z.ltb_ge. simpl. specialize (H4 eq_refl). tauto.
Qed.

Lemma acquire_Ok k p i e r w now t rows x rows' :
  acquire k p i e r w now t rows = Ok (x, rows') →
  x = t ∧ rows' = rows ++ [new_call k i e r w now t] ∧ 0 ≤ e ∧ 0 < r ∧
  granted k p i (e + r) w now rows.
Proof.
  unfold acquire. intros Hr.
  apply tx_bind_Ok in Hr as ([] & d1 & H1 & Hr). tx_inv H1. cbv zeta in Hr.
  apply tx_bind_Ok in Hr as ([] & d2 & H2 & Hr). tx_inv H2.
  apply tx_bind_Ok in Hr as (rs & d3 & H3 & Hr). tx_inv H3.
  apply tx_bind_Ok in Hr as ([] & d4 & H4 & Hr). tx_inv H4.
  apply tx_bind_Ok in Hr as ([] & d5 & H5 & Hr). apply mret_Ok in Hr as [-> ->].
  unfold insert_call in H5. tx_inv H5. rewrite !andb_true_iff in H1.
  destruct H1 as [[He%Z.leb_le Hr%Z.ltb_lt] _]. apply Z.leb_le in H2.
  apply negb_true_iff, denied_false in H4; [|lia]. by split_and!.
Qed.

Lemma finish_Ok k t u o rows x rows' :
  finish k t u o rows = Ok (x, rows') →
  ∃ o', rows' = update_where (λ r, bool_decide (c_ticket r = t)) (finish_row u o') rows.
Proof.
  unfold finish. intros Hr. cbv zeta in Hr.
  apply tx_bind_Ok in Hr as (rs & d1 & H1 & Hr). tx_inv H1.
  apply tx_bind_Ok in Hr as (row & d2 & H2 & Hr). tx_inv H2.
  apply tx_bind_Ok in Hr as ([] & d3 & H3 & Hr). tx_inv H3. tx_inv Hr. eauto.
Qed.

(** ** Sliding windows *)

(** Rows in clock order, each counted one within budget when it was added. *)
Inductive windowed (f : call_row → Z) (B : Z) : list call_row → Prop :=
| windowed_nil : windowed f B []
| windowed_snoc l r : windowed f B l → (∀ x, x ∈ l → started x <= started r)%Q →
    f r = 0 ∨ sum_by f (select (since (started r - 60)) l) + f r ≤ B → windowed f B (l ++ [r]).

Definition within (t : Q) (r : call_row) : bool := since (t - 60) r && Qle_bool (started r) t.

(** No minute-long window exceeds the budget. *)
Lemma windowed_within f B l t :
  0 ≤ B → (∀ x, x ∈ l → 0 ≤ f x) → windowed f B l → sum_by f (select (within t) l) ≤ B.
Proof.
  intros HB Hf Hw. induction Hw as [|l r Hw IH Hord Hr]; [done|].
  rewrite select_snoc, sum_by_app. assert (sum_by f (select (within t) l) ≤ B) as Hl.
  { apply IH. set_solver. }
  destruct (within t r) eqn:Ein; [|simpl; lia]. simpl.
  destruct Hr as [->|Hr]; [lia|].
  apply andb_true_iff in Ein as [Hs%qlt_iff Ht%Qle_bool_iff].
  assert (sum_by f (select (within t) l) ≤ sum_by f (select (since (started r - 60)) l)); [|lia].
  apply sum_select_le; [set_solver|]. intros x Hx [E%qlt_iff _]%andb_true_iff.
  apply qlt_iff. lra.
Qed.

Lemma windowed_fmap f B g l :
  (∀ r, f (g r) = f r) → (∀ r, started (g r) = started r) → windowed f B l → windowed f B (g <$> l).
Proof.
  intros Hf Hg Hw. induction Hw as [|l r Hw IH Hord Hr]; [constructor|].
  rewrite fmap_app. apply windowed_snoc; [done| |].
  - intros x (y & -> & Hy)%list_elem_of_fmap. rewrite !Hg. auto.
  - rewrite Hf, Hg. destruct Hr as [?|Hr]; [by left|right].
    assert (sum_by f (select (since (started r - 60)) (g <$> l))
            = sum_by f (select (since (started r - 60)) l)) as ->; [|done].
    assert (∀ t y, since t (g y) = since t y) as Hs by (intros; unfold since; by rewrite Hg).
    clear -Hf Hs. unfold sum_by, select. induction l as [|x l IH]; [done|]. csimpl.
    rewrite Hs. destruct (since _ x); simpl; by rewrite ?Hf, IH.
Qed.

(** ** The invariant of a history *)

(** Requests or tokens of the rows of one quota that satisfy [q]. *)
Definition weigh (k : string) (q : call_row → bool) (w : call_row → Z) (r : call_row) : Z :=
  if of_quota k r && q r then w r else 0.

Definition all_rows (_ : call_row) : bool := true.
Definition job_rows (i : CallIdentity) (r : call_row) : bool := background r && same_job i r.
Definition one (_ : call_row) : Z := 1.

Record quota_ok (k : string) (p : AdmissionPolicy) (rows : list call_row) : Prop := {
  q_rpm : windowed (weigh k all_rows one) (rpm p) rows;
  q_tpm : windowed (weigh k all_rows row_tokens) (tpm p) rows;
  q_doc_rpm : windowed (weigh k background one) (rpm p - interactive_rpm p) rows;
  q_doc_tpm : windowed (weigh k background row_tokens) (tpm p - interactive_tpm p) rows;
  q_job_rpm : ∀ i, windowed (weigh k (job_rows i) one) (per_job_rpm p) rows }.

Definition slots_ok (k : string) (p : AdmissionPolicy) (rows : list call_row) : Prop :=
  count (active_of k) rows ≤ concurrent p ∧
  count (λ r, active_of k r && background r) rows ≤ concurrent p - interactive_slots p ∧
  ∀ i, count (λ r, active_of k r && job_rows i r) rows ≤ per_job_concurrent p.

Definition tokens_ok (rows : list call_row) : Prop := ∀ r, r ∈ rows → 0 < row_tokens r.

Lemma weigh_sum k q w t rows :
  sum_by (weigh k q w) (select (since t) rows)
  = sum_by w (select q (select (λ r, of_quota k r && since t r) rows)).
Proof.
  unfold sum_by, select. induction rows as [|r rows IH]; [done|]. simpl.
  destruct (since t r); rewrite ?andb_true_r, ?andb_false_r; simpl; [|apply IH].
  rewrite IH. unfold weigh. destruct (of_quota k r); simpl; [|lia]. destruct (q r); simpl; lia.
Qed.

Lemma sum_one l : sum_by one l = len l.
Proof.
  unfold sum_by, one, len. induction l as [|r l IH]; [done|]. simpl foldr. rewrite IH. simpl length. lia.
Qed.

(** One granted request keeps a window that counts at most it. *)
Lemma windowed_new k k' q w B rows n :
  windowed (weigh k q w) B rows → (∀ x, x ∈ rows → started x <= started n)%Q → c_quota n = k' →
  (k' = k → q n = true →
     sum_by w (select q (select (recent_of k (started n)) rows)) + w n ≤ B) →
  windowed (weigh k q w) B (rows ++ [n]).
Proof.
  intros Hw Hord Hk Hb. apply windowed_snoc; [done|done|]. rewrite weigh_sum.
  unfold weigh, of_quota. case_bool_decide as E; simpl; [|by left].
  destruct (q n) eqn:Eq; [|by left]. right. apply Hb; [congruence|done].
Qed.

Lemma quota_ok_acquire k p k' i e r w now t rows :
  quota_ok k p rows → (∀ x, x ∈ rows → started x <= now)%Q →
  (k' = k → granted k p i (e + r) w now rows) →
  quota_ok k p (rows ++ [new_call k' i e r w now t]).
Proof.
  intros [Q1 Q2 Q3 Q4 Q5] Hord Hg. set (n := new_call k' i e r w now t).
  assert (∀ j, job_rows j n = true →
    w = DOCUMENT_BACKGROUND ∧ ∀ x, same_job j x = same_job i x) as Hjob.
  { intros j [E1%bool_decide_eq_true E2]%andb_true_iff. split; [done|]. intros x.
    apply andb_true_iff in E2 as [E2%bool_decide_eq_true E3%bool_decide_eq_true]. simpl in E2, E3.
    unfold same_job. by rewrite E2, E3. }
  split; [..|intros j]; apply (windowed_new k k'); try done; intros -> Eq;
    destruct (Hg eq_refl) as [G1 G2 G3 G4 G5]; change (started n) with now;
    rewrite ?select_true, ?sum_one; unfold one; change (row_tokens n) with (e + r).
  - lia.
  - unfold reserved in G3. lia.
  - apply bool_decide_eq_true in Eq. destruct (G5 Eq) as (? & _). lia.
  - apply bool_decide_eq_true in Eq. destruct (G5 Eq) as (_ & ? & _). unfold reserved in *. lia.
  - destruct (Hjob j Eq) as [Ew Ej]. destruct (G5 Ew) as (_ & _ & _ & _ & G6).
    unfold count in G6. rewrite (select_select (same_job i) background) in G6.
    fold (len (select (λ x, background x && same_job i x) (select (recent_of k now) rows))) in G6.
    rewrite (select_ext (job_rows j) (λ x, background x && same_job i x)); [lia|].
    intros x _. unfold job_rows. by rewrite Ej.
Qed.

Lemma quota_ok_finish k p rows t u o :
  quota_ok k p rows →
  quota_ok k p (update_where (λ r, bool_decide (c_ticket r = t)) (finish_row u o) rows).
Proof.
  intros [Q1 Q2 Q3 Q4 Q5]. split; [..|intros i]; apply windowed_fmap;
    try done; intros r; by destruct (bool_decide (c_ticket r = t)).
Qed.

Lemma slots_ok_acquire k p k' i e r w now t rows :
  slots_ok k p rows → (k' = k → granted k p i (e + r) w now rows) →
  slots_ok k p (rows ++ [new_call k' i e r w now t]).
Proof.
  intros (S1 & S2 & S3) Hg. set (n := new_call k' i e r w now t).
  destruct (decide (k' = k)) as [->|Hne].
  2:{ assert (of_quota k n = false) as E by (by apply bool_decide_eq_false_2).
      split_and!; [..|intros j]; rewrite count_snoc; unfold active_of at 2; rewrite E; simpl.
      - lia. - lia. - specialize (S3 j). lia. }
  destruct (Hg eq_refl) as [G1 G2 G3 G4 G5].
  assert (active_of k n = true) as E by (unfold active_of, of_quota; by rewrite bool_decide_eq_true_2).
  change (len (select (active_of k) rows)) with (count (active_of k) rows) in G4.
  split_and!; [..|intros j]; rewrite count_snoc, E; simpl.
  - lia.
  - destruct (background n) eqn:Eb; [|lia]. apply bool_decide_eq_true in Eb.
    destruct (G5 Eb) as (_ & _ & G6 & _). rewrite select_select in G6.
    change (len (select ?q rows)) with (count q rows) in G6. lia.
  - destruct (job_rows j n) eqn:Ej; [|specialize (S3 j); lia].
    apply andb_true_iff in Ej as [Eb%bool_decide_eq_true E2].
    destruct (G5 Eb) as (_ & _ & _ & G6 & _). rewrite select_select, count_select in G6.
    assert (count (λ r0, active_of k r0 && job_rows j r0) rows
            = count (λ x, active_of k x && background x && same_job i x) rows) as ->; [|lia].
    unfold count. do 2 f_equal. apply select_ext. intros x _. unfold job_rows. rewrite andb_assoc.
    f_equal. apply andb_true_iff in E2 as [E2%bool_decide_eq_true E3%bool_decide_eq_true].
    simpl in E2, E3. unfold same_job. by rewrite E2, E3.
Qed.

Lemma slots_ok_finish k p rows t u o :
  slots_ok k p rows →
  slots_ok k p (update_where (λ r, bool_decide (c_ticket r = t)) (finish_row u o) rows).
Proof.
  intros (S1 & S2 & S3).
  assert (∀ q, (∀ r, q (finish_row u o r) = false) →
    count q (update_where (λ r, bool_decide (c_ticket r = t)) (finish_row u o) rows) ≤ count q rows) as Hle.
  { intros q Hq. apply count_update_le. intros r. by rewrite Hq. }
  assert (∀ r, active_of k (finish_row u o r) = false) as Ea.
  { intros r. unfold active_of. simpl. by rewrite andb_false_r. }
  split_and!; [..|intros i].
  - etrans; [by apply Hle|done].
  - etrans; [apply Hle; intros r; by rewrite Ea|done].
  - etrans; [apply Hle; intros r; by rewrite Ea|done].
Qed.

(** ** The theorems *)

(** One call, at instant [c.1]. *)
Lemma astep_cases rows c :
  astep rows c = rows ∨
  (∃ k i e r w t, c.2 = Acquire k i e r w t ∧ 0 < e + r ∧
     astep rows c = rows ++ [new_call k i e r w c.1 t] ∧
     granted k (policy k) i (e + r) w c.1 rows) ∨
  (∃ t u o, astep rows c = update_where (λ r, bool_decide (c_ticket r = t)) (finish_row u o) rows).
Proof.
  destruct c as [now [k i e r w t|k t u o]]; unfold astep, transaction; simpl.
  - destruct (acquire k (policy k) i e r w now t rows) as [[x rows']|] eqn:E; [|by left].
    apply acquire_Ok in E as (_ & -> & He & Hr & Hg). right; left. simpl.
    exists k, i, e, r, w, t. split_and!; try done. lia.
  - destruct (finish k t u o rows) as [[x rows']|] eqn:E; [|by left].
    apply finish_Ok in E as (o' & ->). right; right. simpl. eauto.
Qed.

Lemma arun_snoc cs c : arun (cs ++ [c]) = astep (arun cs) c.
Proof. unfold arun. by rewrite foldl_app. Qed.

Lemma arun_times cs x : x ∈ arun cs → 0 < row_tokens x ∧ ∃ c, c ∈ cs ∧ started x = c.1.
Proof.
  revert x. induction cs as [|c cs IH] using rev_ind; [by intros x []%not_elem_of_nil|].
  intros x. rewrite arun_snoc.
  destruct (astep_cases (arun cs) c)
    as [->|[(k & i & e & r & w & t & _ & Hpos & -> & _)|(t & u & o & ->)]].
  - intros Hx. destruct (IH x Hx) as (? & c' & ? & ?). split; [done|]. exists c'. set_solver.
  - intros [Hx| ->%list_elem_of_singleton]%elem_of_app.
    + destruct (IH x Hx) as (? & c' & ? & ?). split; [done|]. exists c'. set_solver.
    + split; [done|]. exists c. set_solver.
  - intros (y & Hy & ->)%elem_of_update_where. destruct (IH y Hy) as (? & c' & ? & ?).
    split; [by destruct (bool_decide _)|]. exists c'. split; [set_solver|].
    by destruct (bool_decide _).
Qed.

(** The clock does not run backwards. *)
Definition clock_ordered (cs : list (Q * acall)) : Prop :=
  StronglySorted (λ a b, a.1 <= b.1)%Q cs.

Lemma arun_quota_ok cs k : clock_ordered cs → quota_ok k (policy k) (arun cs).
Proof.
  induction cs as [|c cs IH] using rev_ind; intros Hord.
  { split; [..|intros i]; constructor. }
  apply sorted_snoc in Hord as (Hle & Hcs).
  specialize (IH Hcs). rewrite arun_snoc.
  destruct (astep_cases (arun cs) c)
    as [->|[(k' & i & e & r & w & t & _ & _ & -> & Hg)|(t & u & o & ->)]]; [done| |].
  - apply quota_ok_acquire; [done| |by intros ->].
    intros x Hx. destruct (arun_times cs x Hx) as (_ & c' & Hc' & ->). by apply Hle.
  - by apply quota_ok_finish.
Qed.

Lemma arun_slots_ok cs k : valid_policy (policy k) = true → slots_ok k (policy k) (arun cs).
Proof.
  intros Hv. unfold valid_policy in Hv. rewrite !andb_true_iff, !Z.ltb_lt, !Z.leb_le in Hv.
  induction cs as [|c cs IH] using rev_ind.
  { unfold slots_ok, count. simpl. split_and!; [lia..|]. intros i. lia. }
  rewrite arun_snoc. destruct (astep_cases (arun cs) c)
    as [->|[(k' & i & e & r & w & t & _ & _ & -> & Hg)|(t & u & o & ->)]]; [done| |].
  - apply slots_ok_acquire; [done|]. by intros ->.
  - by apply slots_ok_finish.
Qed.

(** The windows of a history. *)
Lemma windows_bounded cs k t :
  clock_ordered cs → valid_policy (policy k) = true →
  let rows := select (within t) (arun cs) in
  let p := policy k in
  len (select (of_quota k) rows) ≤ rpm p ∧
  reserved (select (of_quota k) rows) ≤ tpm p ∧
  len (select (λ r, of_quota k r && background r) rows) ≤ rpm p - interactive_rpm p ∧
  reserved (select (λ r, of_quota k r && background r) rows) ≤ tpm p - interactive_tpm p ∧
  ∀ i, len (select (λ r, of_quota k r && job_rows i r) rows) ≤ per_job_rpm p.
Proof.
  intros Hord Hv rows p. destruct (arun_quota_ok cs k Hord) as [Q1 Q2 Q3 Q4 Q5].
  unfold valid_policy in Hv. rewrite !andb_true_iff, !Z.ltb_lt, !Z.leb_le in Hv.
  assert (∀ q w B, 0 ≤ B → (∀ r, r ∈ arun cs → 0 ≤ w r) → windowed (weigh k q w) B (arun cs) →
    sum_by w (select (λ r, of_quota k r && q r) rows) ≤ B) as Hwin.
  { intros q w B HB Hw Hwd. apply (windowed_within _ B (arun cs) t) in Hwd; [|done|].
    - fold rows in Hwd. clearbody rows. clear -Hwd.
      assert (sum_by w (select (λ r, of_quota k r && q r) rows) = sum_by (weigh k q w) rows) as ->; [|done].
      clear Hwd. unfold sum_by, select. induction rows as [|r l IH]; [done|]. simpl. rewrite <-IH. unfold weigh.
      destruct (of_quota k r && q r); simpl; lia.
    - intros x Hx. unfold weigh. destruct (of_quota k x && q x); [auto|lia]. }
  assert (select (of_quota k) rows = select (λ r, of_quota k r && all_rows r) rows) as ->.
  { apply select_ext. intros x _. unfold all_rows. by rewrite andb_true_r. }
  unfold reserved. rewrite <-!sum_one.
  assert (∀ r, r ∈ arun cs → 0 ≤ row_tokens r) as Htok.
  { intros r Hr. destruct (arun_times cs r Hr) as [? _]. lia. }
  split_and!; [..|intros i; rewrite <-sum_one]; apply Hwin; unfold p, one; try done; try lia; auto.
Qed.

(** C29: rate limits.  With a clock that does not run backwards, in every window of
    60 seconds ending at any instant, the requests of a quota key stay within [rpm]
    and their reserved tokens within [tpm]; background requests leave
    [interactive_rpm] requests and [interactive_tpm] tokens free, and no job exceeds
    [per_job_rpm]. *)
Theorem quota_windows cs k t :
  clock_ordered cs → valid_policy (policy k) = true →
  let rows := select (within t) (arun cs) in
  let p := policy k in
  len (select (of_quota k) rows) ≤ rpm p ∧
  reserved (select (of_quota k) rows) ≤ tpm p ∧
  len (select (λ r, of_quota k r && background r) rows) ≤ rpm p - interactive_rpm p ∧
  reserved (select (λ r, of_quota k r && background r) rows) ≤ tpm p - interactive_tpm p ∧
  ∀ i, len (select (λ r, of_quota k r && job_rows i r) rows) ≤ per_job_rpm p.
Proof. apply windows_bounded. Qed.

(** Concurrency.  Whatever the order of calls and the clock, at most
    [concurrent] calls of a quota are unfinished, background calls leave
    [interactive_slots] of them free, and no job holds more than
    [per_job_concurrent]. *)
Theorem quota_slots cs k :
  valid_policy (policy k) = true →
  let rows := select (λ r, of_quota k r && active r) (arun cs) in
  let p := policy k in
  len rows ≤ concurrent p ∧
  len (select background rows) ≤ concurrent p - interactive_slots p ∧
  ∀ i, len (select (job_rows i) rows) ≤ per_job_concurrent p.
Proof.
  intros Hv rows p. destruct (arun_slots_ok cs k Hv) as (S1 & S2 & S3). unfold rows.
  split_and!; [exact S1| |intros i]; rewrite select_select; [exact S2|exact (S3 i)].
Qed.

(** Rows split into background and interactive ones. *)
Lemma split_background (f : call_row → Z) l :
  sum_by f l = sum_by f (select background l) + sum_by f (select (λ r, negb (background r)) l).
Proof.
  unfold sum_by, select. induction l as [|r l IH]; [done|]. simpl. rewrite IH.
  destruct (background r); simpl; lia.
Qed.

(** No row of the quota has the ticket or the call's identity. *)
Definition new_identity (k : string) (i : CallIdentity) (t : uuid) (rows : list call_row) : Prop :=
  ∀ x, x ∈ rows → c_ticket x ≠ t ∧
    ¬ (c_quota x = k ∧ same_job i x = true ∧ ci_step (c_identity x) = ci_step i ∧
       ci_attempt (c_identity x) = ci_attempt i).

Lemma acquire_granted k p i e r w now t rows :
  0 ≤ e → 0 < r → 1 ≤ ci_attempt i → granted k p i (e + r) w now rows → new_identity k i t rows →
  acquire k p i e r w now t rows = Ok (t, rows ++ [new_call k i e r w now t]).
Proof.
  intros He Hr Ha Hg Hn. unfold acquire.
  rewrite (proj2 (Z.leb_le 0 e) He), (proj2 (Z.ltb_lt 0 r) Hr), (proj2 (Z.leb_le 1 _) Ha).
  rewrite (tx_bind_run _ _ _ tt rows) by done. cbv zeta. pose proof (gr_tokens _ _ _ _ _ _ _ Hg) as [_ Ht].
  rewrite (proj2 (Z.leb_le _ _) Ht), (tx_bind_run _ _ _ tt rows) by done.
  erewrite tx_bind_run; [|done]. apply denied_false in Hg as Hd; [|apply Hg].
  rewrite Hd, (tx_bind_run _ _ _ tt rows) by done.
  erewrite tx_bind_run; [done|]. unfold insert_call. erewrite tx_bind_run; [|done].
  erewrite tx_bind_run; [done|]. unfold guard. rewrite (proj2 (forallb_elem _ _)); [done|].
  intros x Hx. destruct (Hn x Hx) as [H1 H2]. simpl.
  rewrite bool_decide_eq_false_2 by done. simpl. apply negb_true_iff.
  case_bool_decide; [|done]. destruct (same_job i x) eqn:Es; [|done]. simpl.
  case_bool_decide; [|done]. simpl. apply Z.eqb_neq. intros ?. by apply H2.
Qed.

(** Background work cannot starve interactive work.  If the interactive calls
    themselves use less than the interactive share of requests, tokens and slots, an
    interactive request is granted, whatever the background load. *)
Theorem interactive_not_starved cs k i e r now t :
  clock_ordered (cs ++ [(now, Acquire k i e r INTERACTIVE t)]) → valid_policy (policy k) = true →
  0 ≤ e → 0 < r → 1 ≤ ci_attempt i → new_identity k i t (arun cs) →
  let rows := arun cs in
  let p := policy k in
  let mine := select (λ x, negb (background x)) (select (recent_of k now) rows) in
  len mine < interactive_rpm p → reserved mine + (e + r) ≤ interactive_tpm p →
  len (select (λ x, negb (background x)) (select (active_of k) rows)) < interactive_slots p →
  acquire k p i e r INTERACTIVE now t rows
  = Ok (t, rows ++ [new_call k i e r INTERACTIVE now t]).
Proof.
  intros Hord Hv He Hr Ha Hn rows p mine H1 H2 H3. apply sorted_snoc in Hord as [Hle Hcs].
  destruct (windows_bounded cs k now Hcs Hv) as (_ & _ & W3 & W4 & _). fold rows p in W3, W4.
  destruct (arun_slots_ok cs k Hv) as (_ & S2 & _). fold rows p in S2.
  assert (select (λ x, of_quota k x && background x) (select (within now) rows)
          = select background (select (recent_of k now) rows)) as Edoc.
  { rewrite !select_select. apply select_ext. intros x Hx. unfold recent_of, within.
    destruct (arun_times cs x Hx) as (_ & c & Hc & Ec).
    assert (Qle_bool (started x) now = true) as -> by (apply Qle_bool_iff; rewrite Ec; by apply (Hle c)).
    by destruct (since (now - 60) x), (of_quota k x), (background x). }
  rewrite Edoc in W3, W4.
  unfold valid_policy in Hv. rewrite !andb_true_iff, !Z.ltb_lt, !Z.leb_le in Hv. fold p in Hv.
  assert (∀ q, len (select q rows) = len (select background (select q rows))
                                     + len (select (λ x, negb (background x)) (select q rows))) as Hlen.
  { intros q. rewrite <-!sum_one. apply split_background. }
  assert (0 ≤ reserved (select background (select (recent_of k now) rows))) as Hpos.
  { apply sum_by_nonneg. intros x [_ [_ Hx]%elem_of_select]%elem_of_select.
    destruct (arun_times cs x Hx) as [? _]. lia. }
  assert (0 ≤ reserved mine) as Hpos'.
  { apply sum_by_nonneg. intros x [_ [_ Hx]%elem_of_select]%elem_of_select.
    destruct (arun_times cs x Hx) as [? _]. lia. }
  apply acquire_granted; try done. split; simpl; try done.
  - lia.
  - specialize (Hlen (recent_of k now)). fold mine in Hlen. lia.
  - unfold reserved in *. rewrite split_background. fold mine. lia.
  - specialize (Hlen (active_of k)). rewrite select_select in Hlen.
    change (len (select (λ x, active_of k x && background x) rows))
      with (count (λ x, active_of k x && background x) rows) in Hlen. lia.
Qed.

End Quota.

(** ** Witnesses *)

Definition sample_policy (_ : string) : AdmissionPolicy := {|
  rpm := 4; tpm := 1000; concurrent := 3; interactive_rpm := 2; interactive_tpm := 400;
  interactive_slots := 1; per_job_concurrent := 2; per_job_rpm := 2 |}.

Definition sample_identity (step : uuid) : CallIdentity := {|
  ci_scope := "t:o"; ci_job := "job"; ci_step := step; ci_attempt := 1; ci_profile := "p/1";
  ci_provider := "openai"; ci_role := "general"; ci_model := "m"; ci_capability := "c/1" |}.

Definition sample_acalls : list (Q * acall) :=
  [(0, Acquire "q" (sample_identity "s1") 100 100 DOCUMENT_BACKGROUND "t1");
   (1, Acquire "q" (sample_identity "s2") 100 100 DOCUMENT_BACKGROUND "t2");
   (2, Acquire "q" (sample_identity "s3") 100 100 DOCUMENT_BACKGROUND "t3");
   (inject_Z 3, Finish "q" "t1" None "success")]%Q.

Lemma sample_acalls_ordered : clock_ordered sample_acalls.
Proof. repeat constructor; vm_compute; discriminate. Qed.

Lemma quota_windows_witness :
  let rows := select (within 5) (arun sample_policy sample_acalls) in
  let p := sample_policy "q" in
  len (select (of_quota "q") rows) ≤ rpm p ∧
  reserved (select (of_quota "q") rows) ≤ tpm p ∧
  len (select (λ r, of_quota "q" r && background r) rows) ≤ rpm p - interactive_rpm p ∧
  reserved (select (λ r, of_quota "q" r && background r) rows) ≤ tpm p - interactive_tpm p ∧
  ∀ i, len (select (λ r, of_quota "q" r && job_rows i r) rows) ≤ per_job_rpm p.
Proof.
  apply (quota_windows sample_policy sample_acalls "q" 5); [apply sample_acalls_ordered|reflexivity].
Defined.

Lemma quota_slots_witness :
  let rows := select (λ r, of_quota "q" r && active r) (arun sample_policy sample_acalls) in
  let p := sample_policy "q" in
  len rows ≤ concurrent p ∧
  len (select background rows) ≤ concurrent p - interactive_slots p ∧
  ∀ i, len (select (job_rows i) rows) ≤ per_job_concurrent p.
Proof. apply (quota_slots sample_policy sample_acalls "q"). reflexivity. Defined.

Lemma interactive_not_starved_witness :
  acquire "q" (sample_policy "q") (sample_identity "s9") 50 50 INTERACTIVE 4 "t9"
    (arun sample_policy sample_acalls)
  = Ok ("t9", arun sample_policy sample_acalls
              ++ [new_call "q" (sample_identity "s9") 50 50 INTERACTIVE 4 "t9"]).
Proof.
  apply (interactive_not_starved sample_policy sample_acalls "q" (sample_identity "s9") 50 50 4 "t9");
    try (vm_compute; reflexivity || discriminate).
  - unfold clock_ordered. repeat constructor; vm_compute; discriminate.
  - intros x Hx. vm_compute in Hx.
    repeat (apply elem_of_cons in Hx as [->|Hx]; [split; [discriminate|by intros (_ & _ & ? & _)]|]).
    by apply not_elem_of_nil in Hx.
Defined.
