(* ===== verification/Governance.v ===== *)
(** * Owner and tenant quotas

    [governance/ledger.py]: prices, limits, and the reservation ledger.  Amounts are
    [Decimal]s; a decimal is its coefficient and exponent and arithmetic is exact
    (theorem [cost_fits_context] below: the 60 digits of the context suffice).
    [str(cost)] columns hold the value.  Clock readings are rationals; a call's
    readings are [clk 0], [clk 1], ... in the order of the source's [self.clock()]
    calls.  A row's nullable columns are options. *)

From stdpp Require Import base tactics list strings option sets.
From Stdlib Require Import ZArith NArith QArith Qminmax Qround Lqa Lia.
From S2P Require Import Prelude Json Contracts JobModels ProviderAdmission.

Local Open Scope Z_scope.

(** [GovernanceError], [SecurityError], [ValueError]. *)
Inductive gov_exn :=
| GovernanceErr (category : string)
| SecurityErr (category : string)
| GValueError.
#[export] Instance gov_exn_eq_dec : EqDecision gov_exn.
Proof. solve_decision. Defined.

Definition GovernanceError (category : string) : gov_exn :=
  GovernanceErr (if bool_decide (category ∈ ["governance_denied"; "pricing_unavailable";
                                             "reservation_conflict"])
                 then category else "governance_denied").

(** ** Money *)

(** What [Decimal(value)] may be given. *)
Inductive amount :=
| AFloatOrBool
| ANonFinite
| AFinite (coefficient exponent : Z).

Definition pow10 (e : Z) : Q := Qpower 10 e.
Definition dec_value (c e : Z) : Q := inject_Z c * pow10 e.

Definition money (v : amount) : result gov_exn Q :=
  match v with
  | AFloatOrBool => Err GValueError
  | ANonFinite => Err GValueError
  | AFinite c e =>
      let d := dec_value c e in
      if qlt d 0 || qlt (inject_Z 1000000000000) d || (e <? -12) then Err GValueError else Ok d
  end.

Record Price := {
  pr_provider : string; pr_model : string; input_price : amount; output_price : amount;
  price_unit : Z }.

(** The field validators of [Price]. *)
Definition valid_price (p : Price) : bool :=
  (0 <? price_unit p) && (price_unit p <=? 1000000000)
  && bool_decide (price_unit p ∈ (λ i, 10 ^ Z.of_nat i) <$> seq 0 10)
  && match money (input_price p), money (output_price p) with
     | Ok _, Ok _ => true | _, _ => false end.

(** The validated amount. *)
Definition amount_value (v : amount) : Q :=
  match money v with Ok d => d | Err _ => 0 end.

Definition cost (p : Price) (input_tokens output_tokens : Z) : Q :=
  ((amount_value (input_price p) * inject_Z input_tokens
    + amount_value (output_price p) * inject_Z output_tokens) / inject_Z (price_unit p))%Q.

Record PricingCatalog := {
  cat_version : string; currency : string; effective_date : string; operator_approved : bool;
  prices : list Price }.

Definition valid_catalog (c : PricingCatalog) : bool :=
  (1 <=? len (prices c)) && (len (prices c) <=? 128) && forallb valid_price (prices c)
  && operator_approved c
  && bool_decide (NoDup ((λ p, (pr_provider p, pr_model p)) <$> prices c)).

Definition price (c : PricingCatalog) (provider model : string) : result gov_exn Price :=
  match find_row (λ p, bool_decide (pr_provider p = provider) && bool_decide (pr_model p = model))
          (prices c) with
  | Some p => Ok p
  | None => Err (GovernanceError "pricing_unavailable")
  end.

(** ** Limits and policies *)

Record Limits := {
  requests_per_window : Z; window_seconds : Z; interactive_concurrent : Z;
  background_concurrent : Z; reserved_tokens : Z; daily_tokens : Z; monthly_tokens : Z;
  monthly_cost : Q }.

(** The field validators of [Limits]. *)
Definition valid_limits (l : Limits) : bool :=
  (0 <? requests_per_window l) && (0 <? window_seconds l) && (window_seconds l <=? 86400)
  && (0 <? interactive_concurrent l) && (0 <? background_concurrent l)
  && (0 <? reserved_tokens l) && (0 <? daily_tokens l) && (0 <? monthly_tokens l)
  && Qle_bool 0 (monthly_cost l) && Qle_bool (monthly_cost l) (inject_Z 1000000000000).

Record EvaluationBinding := {
  ev_scopes : list Scope; governance_path : string; provider_path : string; provider_key : string;
  provider_policy_sha256 : digest }.

Definition evaluation_version : string := "polymind-evaluation/1".

Definition evaluation_limits : Limits := {|
  requests_per_window := 16; window_seconds := 86400; interactive_concurrent := 1;
  background_concurrent := 1; reserved_tokens := 112000; daily_tokens := 500000;
  monthly_tokens := 1500000; monthly_cost := dec_value 500 (-2) |}.

Record QuotaPolicy := {
  pol_version : string; pol_owner : Limits; pol_tenant : Limits;
  evaluation : option EvaluationBinding }.

Definition select_limits (p : QuotaPolicy) (s : Scope) : string * Limits * Limits :=
  match evaluation p with
  | Some b => if bool_decide (s ∈ ev_scopes b)
              then (evaluation_version, evaluation_limits, evaluation_limits)
              else (pol_version p, pol_owner p, pol_tenant p)
  | None => (pol_version p, pol_owner p, pol_tenant p)
  end.

(** ** Calendar: [datetime.fromtimestamp(t, utc)] *)

(** Whole microseconds, rounded half to even. *)
Definition instant_us (t : Q) : Z := round_half_even (t * inject_Z 1000000).

Definition epoch_day (t : Q) : Z := instant_us t / 86400000000.

(** Year, month and day of month of a day since 1970-01-01. *)
Definition civil (z0 : Z) : Z * Z * Z :=
  let z := z0 + 719468 in
  let era := z / 146097 in
  let doe := z - era * 146097 in
  let yoe := (doe - doe / 1460 + doe / 36524 - doe / 146096) / 365 in
  let y := yoe + era * 400 in
  let doy := doe - (365 * yoe + yoe / 4 - yoe / 100) in
  let mp := (5 * doy + 2) / 153 in
  let d := doy - (153 * mp + 2) / 5 + 1 in
  let m := if mp <? 10 then mp + 3 else mp - 9 in
  (if m <=? 2 then y + 1 else y, m, d).

(** [date.replace(hour=0, ...).timestamp()] and [date.replace(day=1, hour=0, ...)]. *)
Definition day_start (t : Q) : Q := inject_Z (epoch_day t * 86400).
Definition month_start (t : Q) : Q :=
  let '(_, _, d) := civil (epoch_day t) in inject_Z ((epoch_day t - (d - 1)) * 86400).

Definition pad (w : nat) (z : Z) : text :=
  let t := dumps_int z in replicate (w - length t) 48%N ++ t.

(** [strftime('%Y-%m-%d')]. *)
Definition date_text (t : Q) : text :=
  let '(y, m, d) := civil (epoch_day t) in pad 4 y ++ [45%N] ++ pad 2 m ++ [45%N] ++ pad 2 d.

(** Code-point order of strings. *)
Fixpoint text_ltb (a b : text) : bool :=
  match a, b with
  | _, [] => false
  | [], _ => true
  | x :: a', y :: b' => (x <? y)%N || (x =? y)%N && text_ltb a' b'
  end.

(** ** The ledger *)

Inductive RState := RESERVED | ADMITTING | STARTED | UNKNOWN | SETTLED | RELEASED.
#[export] Instance RState_eq_dec : EqDecision RState.
Proof. solve_decision. Defined.

Record reservation := {
  r_ticket : uuid; r_tenant : uuid; r_owner : uuid; r_identity : text; identity_key : text;
  r_workload : Workload; r_policy : string; r_catalog : string; r_provider : string;
  r_model : string; r_input : Z; r_output : Z; r_cost : Q; actual_input : option Z;
  actual_output : option Z; actual_cost : option Q; r_state : RState; r_created : Q }.

Record event := { e_id : uuid; e_tenant : uuid; e_owner : uuid; e_action : string; e_at : Q }.

(** [configuration] holds the JSON of policy and catalog the ledger was opened with. *)
Record gdb := {
  configuration : option (text * text); reservations : list reservation; events : list event }.

Definition on_reservations (f : list reservation → list reservation) (d : gdb) : gdb :=
  {| configuration := configuration d; reservations := f (reservations d); events := events d |}.
Definition on_events (f : list event → list event) (d : gdb) : gdb :=
  {| configuration := configuration d; reservations := reservations d; events := f (events d) |}.

Abbreviation gtx := (tx gdb gov_exn).

(** The validated principal of [security/models.py]; only these fields are read. *)
Record GPrincipal := { gp_scope : Scope; gp_expires : Z }.

Definition unsettled (r : reservation) : bool :=
  negb (bool_decide (r_state r ∈ [SETTLED; RELEASED])).
Definition spent (r : reservation) : bool := negb (bool_decide (r_state r = RELEASED)).
Definition in_progress (r : reservation) : bool :=
  bool_decide (r_state r ∈ [RESERVED; ADMITTING; STARTED]).
Definition of_tenant (t : uuid) (r : reservation) : bool := bool_decide (r_tenant r = t).
Definition of_owner (o : uuid) (r : reservation) : bool := bool_decide (r_owner r = o).
Definition with_workload (w : Workload) (r : reservation) : bool := bool_decide (r_workload r = w).

(** [tokens]: the reservation until settled, the measured usage afterwards. *)
Definition planned (r : reservation) : Z := r_input r + r_output r.
Definition tokens (r : reservation) : Z :=
  if unsettled r then planned r else default 0 (actual_input r) + default 0 (actual_output r).
Definition charge (r : reservation) : Q :=
  if unsettled r then r_cost r else default 0%Q (actual_cost r).

Definition qsum (f : reservation → Q) (l : list reservation) : Q := foldr (λ r acc, f r + acc)%Q 0%Q l.

Definition cap_of (l : Limits) (w : Workload) : Z :=
  match w with INTERACTIVE => interactive_concurrent l | DOCUMENT_BACKGROUND => background_concurrent l end.

(** One iteration of the loop over tenant and owner limits. *)
Definition over_limit (l : Limits) (w : Workload) (n : Z) (c now day month : Q)
    (rs : list reservation) : bool :=
  let recent := select (λ r, qlt (now - inject_Z (window_seconds l)) (r_created r)) rs in
  let sp := select spent rs in
  let current := select (with_workload w) (select in_progress sp) in
  let since t := λ r, Qle_bool t (r_created r) || unsettled r in
  (requests_per_window l <=? len recent) || (cap_of l w <=? len current)
  || (reserved_tokens l <? sum_by planned (select unsettled sp) + n)
  || (daily_tokens l <? sum_by tokens (select (since day) sp) + n)
  || (monthly_tokens l <? sum_by tokens (select (since month) sp) + n)
  || qlt (monthly_cost l) (qsum charge (select (since month) sp) + c).

Section Ledger.
Context `{Runtime}.
Variables (policy : QuotaPolicy) (catalog : PricingCatalog) (policy_json catalog_json : text)
  (event_limit : Z).

Definition _current_policy : gtx unit :=
  c ← gets configuration;
  guard (bool_decide (c = Some (policy_json, catalog_json))) (SecurityErr "security_configuration").

(** The transaction of [__init__]: a ledger keeps the configuration it was first
    opened with. *)
Definition open_ledger : gtx unit :=
  row ← gets configuration;
  _ ← guard (match row with
             | Some c => bool_decide (c = (policy_json, catalog_json)) | None => true end)
        (SecurityErr "security_configuration");
  modify (λ d, {| configuration := Some (default (policy_json, catalog_json) (configuration d));
                  reservations := reservations d; events := events d |}).

(** [ready], after the integrity check of [Database.ready]. *)
Definition gov_ready (d : gdb) : bool :=
  match _current_policy d with Ok _ => len (events d) <? event_limit | Err _ => false end.

Definition _event (s : Scope) (action : string) (id : uuid) (now : Q) : gtx unit :=
  n ← gets (λ d, len (events d));
  _ ← guard (n <? event_limit) (SecurityErr "security_unavailable");
  modify (on_events (λ l, l ++ [{| e_id := id; e_tenant := tenant s; e_owner := owner s;
                                   e_action := action; e_at := now |}])).

Definition encoded_identity (i : CallIdentity) : text := canonical (identity_json i).
Definition key_of (i : CallIdentity) : text :=
  dumps (JArr [jstr (ci_job i); jstr (ci_step i); JInt (ci_attempt i)]).

(** PRIMARY KEY(ticket), UNIQUE(tenant,owner,identity_key). *)
Definition insert_reservation (r : reservation) : gtx unit :=
  rs ← gets reservations;
  _ ← guard (forallb (λ x,
         negb (bool_decide (r_ticket x = r_ticket r))
         && negb (bool_decide (r_tenant x = r_tenant r) && bool_decide (r_owner x = r_owner r)
                  && text_eqb (identity_key x) (identity_key r))) rs)
       (SecurityErr "security_unavailable");
  modify (on_reservations (λ l, l ++ [r])).

(** The checks before the transaction, with the price they find. *)
Definition reserve_checks (p : GPrincipal) (i : CallIdentity) (input output : Z) (t0 t1 : Q)
    : result gov_exn Price :=
  if qlt t0 (inject_Z (gp_expires p)) && bool_decide (ci_scope i = identity (gp_scope p))
     && (1 <=? ci_attempt i) && (0 <=? input) && (0 <? output) && (input + output <=? 1000000000)
  then
    pr ← price catalog (ci_provider i) (ci_model i);
    if text_ltb (date_text t1) (cps (effective_date catalog))
    then Err (GovernanceError "pricing_unavailable")
    else if 2048 <? len (encoded_identity i) then Err (GovernanceError "governance_denied")
    else Ok pr
  else Err (GovernanceError "governance_denied").

(** The body of the transaction; [None] is a recorded denial, after which
    [reserve] raises [GovernanceError()]. *)
Definition reserve_tx (s : Scope) (i : CallIdentity) (input output : Z) (w : Workload) (c : Q)
    (ticket event_id : uuid) (now ev_at : Q) : gtx (option uuid) :=
  let '(version, owner_limits, tenant_limits) := select_limits policy s in
  _ ← _current_policy;
  rs ← gets reservations;
  match find_row (λ r, of_tenant (tenant s) r && of_owner (owner s) r
                       && text_eqb (identity_key r) (key_of i)) rs with
  | Some r =>
      _ ← guard ((r_input r =? input) && (r_output r =? output) && with_workload w r
                 && text_eqb (r_identity r) (encoded_identity i))
            (GovernanceError "reservation_conflict");
      mret (Some (r_ticket r))
  | None =>
      let day := day_start now in
      let month := month_start now in
      let rows := select (of_tenant (tenant s)) rs in
      let n := input + output in
      if over_limit tenant_limits w n c now day month rows
         || over_limit owner_limits w n c now day month (select (of_owner (owner s)) rows)
      then
        _ ← _event s "ADMISSION_DENIED" event_id ev_at;
        mret None
      else
        _ ← insert_reservation {|
          r_ticket := ticket; r_tenant := tenant s; r_owner := owner s;
          r_identity := encoded_identity i; identity_key := key_of i; r_workload := w;
          r_policy := version; r_catalog := cat_version catalog; r_provider := ci_provider i;
          r_model := ci_model i; r_input := input; r_output := output; r_cost := c;
          actual_input := None; actual_output := None; actual_cost := None;
          r_state := RESERVED; r_created := now |};
        _ ← _event s "RESERVED" event_id ev_at;
        mret (Some ticket)
  end.

(** [reserve]: committed state, and ticket or exception. *)
Definition reserve (p : GPrincipal) (i : CallIdentity) (input output : Z) (w : Workload)
    (ticket event_id : uuid) (clk : nat → Q) (d : gdb) : result gov_exn uuid * gdb :=
  match reserve_checks p i input output (clk 0%nat) (clk 1%nat) with
  | Err e => (Err e, d)
  | Ok pr =>
      match transaction (reserve_tx (gp_scope p) i input output w (cost pr input output)
                           ticket event_id (clk 2%nat) (clk 3%nat)) d with
      | (Ok (Some t), d') => (Ok t, d')
      | (Ok None, d') => (Err (GovernanceError "governance_denied"), d')
      | (Err e, d') => (Err e, d')
      end
  end.

Definition set_state (st : RState) (r : reservation) : reservation := {|
  r_ticket := r_ticket r; r_tenant := r_tenant r; r_owner := r_owner r;
  r_identity := r_identity r; identity_key := identity_key r; r_workload := r_workload r;
  r_policy := r_policy r; r_catalog := r_catalog r; r_provider := r_provider r;
  r_model := r_model r; r_input := r_input r; r_output := r_output r; r_cost := r_cost r;
  actual_input := actual_input r; actual_output := actual_output r; actual_cost := actual_cost r;
  r_state := st; r_created := r_created r |}.

Definition allowed_transition (before after : RState) : bool :=
  match before, after with
  | RESERVED, ADMITTING | ADMITTING, STARTED | ADMITTING, RELEASED => true
  | _, _ => false
  end.

Definition transition (ticket : uuid) (before after : RState) : gtx unit :=
  _ ← guard (allowed_transition before after) (GovernanceError "reservation_conflict");
  let hit := λ r, bool_decide (r_ticket r = ticket) && bool_decide (r_state r = before) in
  rs ← gets reservations;
  _ ← modify (on_reservations (update_where hit (set_state after)));
  guard (count hit rs =? 1) (GovernanceError "reservation_conflict").

Definition set_usage (ai ao : option Z) (ac : option Q) (st : RState) (r : reservation)
    : reservation := {|
  r_ticket := r_ticket r; r_tenant := r_tenant r; r_owner := r_owner r;
  r_identity := r_identity r; identity_key := identity_key r; r_workload := r_workload r;
  r_policy := r_policy r; r_catalog := r_catalog r; r_provider := r_provider r;
  r_model := r_model r; r_input := r_input r; r_output := r_output r; r_cost := r_cost r;
  actual_input := ai; actual_output := ao; actual_cost := ac; r_state := st;
  r_created := r_created r |}.

Definition count_ok (o : option Z) : bool :=
  match o with Some v => (0 <=? v) && (v <=? 1000000000) | None => true end.

(** [old is None or old == new]. *)
Definition compatible_count (old new : option Z) : bool :=
  bool_decide (old = None) || bool_decide (old = new).

(** [usage] is absent or an [InferenceUsage]. *)
Definition settle (ticket : uuid) (usage : option InferenceUsage) : gtx unit :=
  let ci := usage ≫= prompt_tokens in
  let co := usage ≫= completion_tokens in
  _ ← guard (count_ok ci && count_ok co) (GovernanceError "reservation_conflict");
  rs ← gets reservations;
  row ← expect (find_row (λ r, bool_decide (r_ticket r = ticket)) rs)
          (GovernanceError "reservation_conflict");
  _ ← guard (bool_decide (r_state row ∈ [STARTED; UNKNOWN; SETTLED]))
        (GovernanceError "reservation_conflict");
  if bool_decide (r_state row = SETTLED) then
    guard (bool_decide (ci = actual_input row) && bool_decide (co = actual_output row))
      (GovernanceError "reservation_conflict")
  else
    _ ← guard (negb (bool_decide (r_state row = UNKNOWN))
               || compatible_count (actual_input row) ci && compatible_count (actual_output row) co)
          (GovernanceError "reservation_conflict");
    match ci, co with
    | Some a, Some b =>
        pr ← lift (price catalog (r_provider row) (r_model row));
        modify (on_reservations (update_where (λ r, bool_decide (r_ticket r = ticket))
          (set_usage ci co (Some (cost pr a b)) SETTLED)))
    | _, _ =>
        modify (on_reservations (update_where (λ r, bool_decide (r_ticket r = ticket))
          (set_usage ci co None UNKNOWN)))
    end.

(** [usage]: after [authority.authorize], a page of the owner's reservations. *)
Definition usage_page (s : Scope) (limit offset : Z) (d : gdb) : result gov_exn (list reservation) :=
  if (1 <=? limit) && (limit <=? 100) && (0 <=? offset) && (offset <=? 10000) then
    Ok (take (Z.to_nat limit) (drop (Z.to_nat offset)
      (order_by (λ a b, qlt (r_created a) (r_created b)
                        || Qeq_bool (r_created a) (r_created b) && String.leb (r_ticket a) (r_ticket b))
         (select (λ r, of_tenant (tenant s) r && of_owner (owner s) r) (reservations d)))))
  else Err (GovernanceError "governance_denied").

(** [tenant_usage]: calls, unsettled and measured cost of the tenant. *)
Definition tenant_usage (t : uuid) (d : gdb) : Z * Q * Q :=
  let rows := select (of_tenant t) (reservations d) in
  (len rows, qsum r_cost (select unsettled rows),
   qsum (λ r, default 0%Q (actual_cost r)) (select (λ r, bool_decide (r_state r = SETTLED)) rows)).

End Ledger.
