(* ===== verification/GovernanceTheorems.v ===== *)
(** * What the quota ledger guarantees

    Exact costs, quotas that hold after every history, the life cycle of a
    reservation, idempotent reservation and at-most-once admission. *)

From stdpp Require Import base tactics list strings option sets relations.
From Stdlib Require Import ZArith NArith QArith Qpower Qminmax Qround Lqa Lia.
From S2P Require Import Prelude Json Contracts ContractFacts JobModels Sample.
From S2P Require Import ProviderAdmission Governance.

Local Open Scope Z_scope.

(** ** Exact costs *)

Lemma pow10_Z e : 0 ≤ e → (pow10 e == inject_Z (10 ^ e))%Q.
Proof. intros He. unfold pow10. by rewrite <-(Zpower_Qpower 10 e He). Qed.

Lemma pow10_shift c e : -12 ≤ e → (dec_value c e * inject_Z (10 ^ 12) == inject_Z (c * 10 ^ (e + 12)))%Q.
Proof.
  intros He. unfold dec_value. rewrite inject_Z_mult.
  rewrite <-(pow10_Z 12), <-(pow10_Z (e + 12)) by lia. unfold pow10.
  rewrite <-Qmult_assoc, <-Qpower_plus by done. done.
Qed.

(** A validated amount is a whole number of units of 1e-12, at most 1e24 of them. *)
Lemma money_units v d :
  money v = Ok d → ∃ n, 0 ≤ n ≤ 10 ^ 24 ∧ (d * inject_Z (10 ^ 12) == inject_Z n)%Q.
Proof.
  destruct v as [| |c e]; simpl; try done.
  destruct (qlt (dec_value c e) 0) eqn:E1; [done|].
  destruct (qlt (inject_Z 1000000000000) (dec_value c e)) eqn:E2; [done|].
  destruct (Z.ltb_spec e (-12)) as [|He]; [done|]. simpl. intros [= <-].
  assert (0 <= dec_value c e)%Q as H0.
  { apply Qnot_lt_le. intros F%qlt_iff. congruence. }
  assert (dec_value c e <= inject_Z 1000000000000)%Q as H1.
  { apply Qnot_lt_le. intros F%qlt_iff. congruence. }
  pose proof (pow10_shift c e He) as E. exists (c * 10 ^ (e + 12)). split; [|done].
  set (n := c * 10 ^ (e + 12)) in *. set (x := dec_value c e) in *. clearbody n x.
  assert (inject_Z 0 <= inject_Z n <= inject_Z (10 ^ 24))%Q as [F1 F2].
  { rewrite <-E. change (inject_Z (10 ^ 24)) with (inject_Z (10 ^ 12 * 1000000000000)).
    rewrite inject_Z_mult. set (m := inject_Z 1000000000000) in *. set (k := inject_Z (10 ^ 12)).
    assert (0 < k)%Q as Hk by done. clearbody k m. change (inject_Z 0) with 0%Q.
    split; [by apply Qmult_le_0_compat; [|apply Qlt_le_weak]|].
    rewrite (Qmult_comm x). apply Qmult_le_l; done. }
  rewrite <-Zle_Qle in F1, F2. lia.
Qed.

Lemma amount_units v : ∃ n, 0 ≤ n ≤ 10 ^ 24 ∧ (amount_value v * inject_Z (10 ^ 12) == inject_Z n)%Q.
Proof.
  unfold amount_value. destruct (money v) as [d|] eqn:E; [by apply money_units in E|].
  exists 0. split; [lia|]. done.
Qed.

Lemma valid_unit p : valid_price p = true → ∃ k, 0 ≤ k ≤ 9 ∧ price_unit p = 10 ^ k.
Proof.
  unfold valid_price. rewrite !andb_true_iff. intros ((_ & E) & _).
  apply bool_decide_eq_true, list_elem_of_fmap in E as (i & -> & Hi%elem_of_seq).
  exists (Z.of_nat i). split; [lia|done].
Qed.

Lemma cost_units p a b :
  valid_price p = true → 0 ≤ a ≤ 10 ^ 9 → 0 ≤ b ≤ 10 ^ 9 →
  ∃ n, 0 ≤ n < 10 ^ 60 ∧ (cost p a b * inject_Z (10 ^ 21) == inject_Z n)%Q.
Proof.
  intros Hv Ha Hb. destruct (valid_unit p Hv) as (k & Hk & Ek).
  destruct (amount_units (input_price p)) as (x & Hx & Ex).
  destruct (amount_units (output_price p)) as (y & Hy & Ey).
  exists ((x * a + y * b) * 10 ^ (9 - k)). split.
  { assert (1 ≤ 10 ^ (9 - k) ≤ 10 ^ 9) as Hp.
    { split; [pose proof (Z.pow_pos_nonneg 10 (9 - k)); lia|apply Z.pow_le_mono_r; lia]. }
    assert (∀ m c, 0 ≤ m ≤ 10 ^ 24 → 0 ≤ c ≤ 10 ^ 9 → 0 ≤ m * c ≤ 10 ^ 33) as Hmc.
    { intros m c Hm Hc. split; [apply Z.mul_nonneg_nonneg; lia|].
      change (10 ^ 33) with (10 ^ 24 * 10 ^ 9). apply Z.mul_le_mono_nonneg; lia. }
    pose proof (Hmc x a Hx Ha). pose proof (Hmc y b Hy Hb).
    split; [apply Z.mul_nonneg_nonneg; lia|].
    apply (Z.le_lt_trans _ ((2 * 10 ^ 33) * 10 ^ 9)); [|done]. apply Z.mul_le_mono_nonneg; lia. }
  unfold cost. rewrite Ek. set (u := inject_Z (10 ^ k)).
  assert (inject_Z (10 ^ 21) == inject_Z (10 ^ 12) * (u * inject_Z (10 ^ (9 - k))))%Q as ->.
  { unfold u. rewrite <-!inject_Z_mult, <-Z.pow_add_r by lia.
    replace (k + (9 - k)) with 9 by lia. done. }
  rewrite inject_Z_mult, inject_Z_plus, !inject_Z_mult, <-Ex, <-Ey.
  assert (~ u == 0)%Q as Hu.
  { unfold u. intros E. change 0%Q with (inject_Z 0) in E. apply (inject_Z_injective (10 ^ k) 0) in E.
    assert (0 < 10 ^ k) by (apply Z.pow_pos_nonneg; lia). lia. }
  field. done.
Qed.

(** A cost is computed exactly: for a validated price and token counts the
    ledger accepts, it is a whole number of units of 1e-21 with fewer than 60 digits,
    so the 60-digit decimal context never rounds it; in particular it is not
    negative. *)
Theorem cost_fits_context p a b :
  valid_price p = true → 0 ≤ a ≤ 10 ^ 9 → 0 ≤ b ≤ 10 ^ 9 →
  ∃ n, 0 ≤ n < 10 ^ 60 ∧ (cost p a b * inject_Z (10 ^ 21) == inject_Z n)%Q.
Proof. apply cost_units. Qed.

Lemma cost_nonneg p a b : valid_price p = true → 0 ≤ a → 0 ≤ b → (0 <= cost p a b)%Q.
Proof.
  intros Hv Ha Hb. destruct (valid_unit p Hv) as (k & Hk & Ek).
  assert (∀ v, 0 <= amount_value v)%Q as Hamt.
  { intros v. destruct (amount_units v) as (n & Hn & E).
    assert (inject_Z 0 <= inject_Z n)%Q as F by (rewrite <-Zle_Qle; lia). rewrite <-E in F.
    set (c := inject_Z (10 ^ 12)) in F. assert (0 < c)%Q by done. clearbody c.
    change (inject_Z 0) with 0%Q in F. nra. }
  unfold cost. apply Qle_shift_div_l.
  - rewrite Ek. change 0%Q with (inject_Z 0). rewrite <-Zlt_Qlt. apply Z.pow_pos_nonneg; lia.
  - rewrite Qmult_0_l.
    assert (0 <= inject_Z a)%Q by (change 0%Q with (inject_Z 0); by rewrite <-Zle_Qle).
    assert (0 <= inject_Z b)%Q by (change 0%Q with (inject_Z 0); by rewrite <-Zle_Qle).
    pose proof (Hamt (input_price p)). pose proof (Hamt (output_price p)). nra.
Qed.

(** ** Sums over reservations *)

Lemma qsum_nonneg f l : (∀ r, r ∈ l → 0 <= f r)%Q → (0 <= qsum f l)%Q.
Proof.
  unfold qsum. induction l as [|r l IH]; intros Hf; simpl; [lra|].
  assert (0 <= f r)%Q by (apply Hf; set_solver).
  assert (0 <= foldr (λ r acc, f r + acc) 0 l)%Q by (apply IH; set_solver). lra.
Qed.

(** Fewer rows, each charged less. *)
Lemma qsum_le f g (p q : reservation → bool) l :
  (∀ r, r ∈ l → p r = true → q r = true ∧ f r <= g r)%Q → (∀ r, r ∈ l → q r = true → 0 <= g r)%Q →
  (qsum f (select p l) <= qsum g (select q l))%Q.
Proof.
  unfold qsum, select. induction l as [|r l IH]; intros Hp Hq; simpl; [lra|].
  assert (foldr (λ r acc, f r + acc) 0 (List.filter p l)
          <= foldr (λ r acc, g r + acc) 0 (List.filter q l))%Q by (apply IH; set_solver).
  destruct (p r) eqn:Ep.
  - destruct (Hp r) as [-> Hle]; [set_solver|done|]. simpl. lra.
  - destruct (q r) eqn:Eq; simpl; [|lra].
    assert (0 <= g r)%Q by (apply Hq; [set_solver|done]). lra.
Qed.

Lemma qsum_fmap f g l : qsum f (g <$> l) = qsum (λ r, f (g r)) l.
Proof. unfold qsum. induction l as [|r l IH]; [done|]. csimpl. by rewrite IH. Qed.

Lemma qsum_snoc f p l r :
  (qsum f (select p (l ++ [r])) == qsum f (select p l) + if p r then f r else 0)%Q.
Proof.
  rewrite select_snoc. unfold qsum. rewrite foldr_app.
  destruct (p r); simpl.
  - induction (select p l) as [|x k IH]; simpl; [lra|]. rewrite IH. lra.
  - lra.
Qed.

(** ** Histories *)

Inductive gcall :=
| Reserve (p : GPrincipal) (i : CallIdentity) (input output : Z) (w : Workload)
    (ticket event_id : uuid) (clk : nat → Q)
| Transition (ticket : uuid) (before after : RState)
| Settle (ticket : uuid) (usage : option InferenceUsage)
| Open.

Section History.
Context `{Runtime}.
Variables (policy : QuotaPolicy) (catalog : PricingCatalog) (policy_json catalog_json : text)
  (event_limit : Z).
Hypothesis Hcatalog : valid_catalog catalog = true.

Definition gexec (d : gdb) (c : gcall) : gdb :=
  match c with
  | Reserve p i input output w t e clk =>
      (reserve policy catalog policy_json catalog_json event_limit p i input output w t e clk d).2
  | Transition t b a => (transaction (transition t b a) d).2
  | Settle t u => (transaction (settle catalog t u) d).2
  | Open => (transaction (open_ledger policy_json catalog_json) d).2
  end.

(** The database file as [SCHEMA] creates it. *)
Definition fresh_gdb : gdb := {| configuration := None; reservations := []; events := [] |}.

(** Calls in the order of their transactions, from a fresh file. *)
Definition grun (cs : list gcall) : gdb := foldl gexec fresh_gdb cs.

(** Row-wise change of a reservation. *)
Inductive redge : RState → RState → Prop :=
| redge_admit : redge RESERVED ADMITTING
| redge_start : redge ADMITTING STARTED
| redge_release : redge ADMITTING RELEASED
| redge_settle s : s = STARTED ∨ s = UNKNOWN → redge s SETTLED
| redge_unknown s : s = STARTED ∨ s = UNKNOWN → redge s UNKNOWN.

Record row_step (r r' : reservation) : Prop := {
  rs_ticket : r_ticket r' = r_ticket r;
  rs_tenant : r_tenant r' = r_tenant r;
  rs_owner : r_owner r' = r_owner r;
  rs_identity : r_identity r' = r_identity r;
  rs_key : identity_key r' = identity_key r;
  rs_workload : r_workload r' = r_workload r;
  rs_input : r_input r' = r_input r;
  rs_output : r_output r' = r_output r;
  rs_cost : r_cost r' = r_cost r;
  rs_created : r_created r' = r_created r;
  rs_state : r' = r ∨ redge (r_state r) (r_state r') ∧
             (∀ c, actual_cost r' = Some c → actual_cost r = Some c ∨ 0 <= c)%Q ∧
             (r_state r' = SETTLED → is_Some (actual_input r') ∧ is_Some (actual_output r')
                                     ∧ is_Some (actual_cost r')) }.

Record row_valid (r : reservation) : Prop := {
  rv_planned : 0 ≤ planned r;
  rv_cost : (0 <= r_cost r)%Q;
  rv_actual : ∀ c, actual_cost r = Some c → (0 <= c)%Q;
  rv_settled : r_state r = SETTLED →
    is_Some (actual_input r) ∧ is_Some (actual_output r) ∧ is_Some (actual_cost r) }.

(** What one call does to the reservations. *)
Inductive effect (d d' : gdb) : Prop :=
| eff_rows g : reservations d' = g <$> reservations d →
    (∀ r, r ∈ reservations d → row_step r (g r)) → effect d d'
| eff_new s version ol tl i input output w c t now :
    reservations d' = reservations d ++ [{|
      r_ticket := t; r_tenant := tenant s; r_owner := owner s; r_identity := encoded_identity i;
      identity_key := key_of i; r_workload := w; r_policy := version;
      r_catalog := cat_version catalog; r_provider := ci_provider i; r_model := ci_model i;
      r_input := input; r_output := output; r_cost := c; actual_input := None;
      actual_output := None; actual_cost := None; r_state := RESERVED; r_created := now |}] →
    select_limits policy s = (version, ol, tl) → 0 ≤ input → 0 < output → (0 <= c)%Q →
    let rows := select (of_tenant (tenant s)) (reservations d) in
    over_limit tl w (input + output) c now (day_start now) (month_start now) rows = false →
    over_limit ol w (input + output) c now (day_start now) (month_start now)
      (select (of_owner (owner s)) rows) = false →
    (∀ x, x ∈ reservations d →
       r_ticket x ≠ t ∧ (r_tenant x, r_owner x, identity_key x) ≠ (tenant s, owner s, key_of i)) →
    effect d d'.

Lemma row_step_refl r : row_step r r.
Proof. split; try done. by left. Qed.

Lemma effect_same d d' : reservations d' = reservations d → effect d d'.
Proof.
  intros E. apply (eff_rows d d' id); [by rewrite list_fmap_id|]. intros. apply row_step_refl.
Qed.

Lemma price_valid p m pr : price catalog p m = Ok pr → valid_price pr = true.
Proof.
  unfold price. destruct (find_row _ _) as [x|] eqn:E; [|done]. intros [= <-].
  apply find_row_Some in E as [Hx _]. unfold valid_catalog in Hcatalog.
  rewrite !andb_true_iff in Hcatalog. destruct Hcatalog as [[[[_ _] Hf] _] _].
  by apply (proj1 (forallb_elem _ _) Hf).
Qed.

Lemma event_reservations s a e now d x d' :
  _event event_limit s a e now d = Ok (x, d') → reservations d' = reservations d.
Proof.
  unfold _event. intros Hr. apply tx_bind_Ok in Hr as (n & d1 & H1 & Hr). tx_inv H1.
  apply tx_bind_Ok in Hr as ([] & d2 & H2 & Hr). tx_inv H2. by tx_inv Hr.
Qed.

Lemma insert_reservation_Ok r d x d' :
  insert_reservation r d = Ok (x, d') →
  reservations d' = reservations d ++ [r] ∧ configuration d' = configuration d ∧
  ∀ y, y ∈ reservations d → r_ticket y ≠ r_ticket r ∧
    (r_tenant y, r_owner y, identity_key y) ≠ (r_tenant r, r_owner r, identity_key r).
Proof.
  unfold insert_reservation. intros Hr. apply tx_bind_Ok in Hr as (rs & d1 & H1 & Hr). tx_inv H1.
  apply tx_bind_Ok in Hr as ([] & d2 & H2 & Hr). tx_inv H2. tx_inv Hr. split_and!; try done.
  intros y Hy. apply (proj1 (forallb_elem _ _)) with (x := y) in H2; [|done].
  apply andb_true_iff in H2 as [E%negb_true_iff%bool_decide_eq_false Ek%negb_true_iff].
  split; [done|]. intros [= E1 E2 E3]. rewrite !bool_decide_eq_true_2 in Ek by done.
  simpl in Ek. assert (text_eqb (identity_key y) (identity_key r) = true); [|congruence].
  by apply bool_decide_eq_true.
Qed.

Lemma reserve_effect p i input output w t e clk d :
  effect d (reserve policy catalog policy_json catalog_json event_limit p i input output w t e clk d).2.
Proof.
  unfold reserve. destruct (reserve_checks _ _ _ _ _ _) as [pr|] eqn:Ec; [|by apply effect_same].
  unfold transaction. destruct (reserve_tx _ _ _ _ _ _ _ _ _ _ _ _ _ _ _) as [[o d']|] eqn:E;
    [|by apply effect_same].
  assert (effect d d') as Heff; [|by destruct o]. unfold reserve_checks in Ec.
  destruct (_ && _) eqn:Eg; [|done]. rewrite !andb_true_iff in Eg.
  destruct Eg as [[[_ Hin%Z.leb_le] Hout%Z.ltb_lt] _].
  apply result_bind_Ok in Ec as (pr' & Hpr & Ec).
  destruct (text_ltb _ _); [done|]. destruct (_ <? _); [done|]. injection Ec as ->.
  apply price_valid in Hpr. unfold reserve_tx in E.
  destruct (select_limits policy (gp_scope p)) as [[version ol] tl] eqn:El.
  apply tx_bind_Ok in E as ([] & d1 & H1 & E). unfold _current_policy in H1. tx_inv H1.
  apply tx_bind_Ok in E as (rs & d2 & H2 & E). tx_inv H2.
  destruct (find_row _ _) as [r|].
  { apply tx_bind_Ok in E as ([] & d3 & H3 & E). tx_inv H3. tx_inv E. by apply effect_same. }
  cbv zeta in E. destruct (over_limit tl _ _ _ _ _ _ _ || over_limit ol _ _ _ _ _ _ _) eqn:Eo.
  { apply tx_bind_Ok in E as ([] & d3 & H3 & E). tx_inv E. apply effect_same.
    by eapply event_reservations. }
  apply orb_false_iff in Eo as [Eo1 Eo2].
  apply tx_bind_Ok in E as ([] & d3 & H3 & E). apply insert_reservation_Ok in H3 as (E3 & _ & Hf).
  apply tx_bind_Ok in E as ([] & d4 & H4 & E). apply event_reservations in H4. tx_inv E.
  eapply (eff_new d d4); [rewrite H4; exact E3|exact El|lia|lia| |exact Eo1|exact Eo2|exact Hf].
  apply cost_nonneg; [done|lia|lia].
Qed.

Lemma transition_effect t b a d : effect d (transaction (transition t b a) d).2.
Proof.
  unfold transaction. destruct (transition t b a d) as [[x d']|] eqn:E; [|by apply effect_same].
  unfold transition in E. apply tx_bind_Ok in E as ([] & d1 & H1 & E). tx_inv H1.
  apply tx_bind_Ok in E as (rs & d2 & H2 & E). tx_inv H2.
  apply tx_bind_Ok in E as ([] & d3 & H3 & E). tx_inv H3. tx_inv E. simpl.
  eapply eff_rows; [done|]. intros r _. simpl.
  destruct (bool_decide (r_ticket r = t) && bool_decide (r_state r = b)) eqn:Eh;
    [|apply row_step_refl].
  apply andb_true_iff in Eh as [_ Es%bool_decide_eq_true]. split; try done. right. simpl. rewrite Es.
  split_and!; [|auto|]; destruct b, a; try done; constructor.
Qed.

Lemma open_effect d : effect d (transaction (open_ledger policy_json catalog_json) d).2.
Proof.
  apply effect_same. unfold transaction.
  destruct (open_ledger policy_json catalog_json d) as [[x d']|] eqn:E; [|done].
  unfold open_ledger in E. apply tx_bind_Ok in E as (row & d1 & H1 & E). tx_inv H1.
  apply tx_bind_Ok in E as ([] & d2 & H2 & E). tx_inv H2. by tx_inv E.
Qed.

Lemma settle_effect t u d :
  NoDup (r_ticket <$> reservations d) → effect d (transaction (settle catalog t u) d).2.
Proof.
  intros Hnd. unfold transaction.
  destruct (settle catalog t u d) as [[x d']|] eqn:E; [|by apply effect_same].
  unfold settle in E. cbv zeta in E. apply tx_bind_Ok in E as ([] & d1 & H1 & E). tx_inv H1.
  apply tx_bind_Ok in E as (rs & d2 & H2 & E). tx_inv H2.
  apply tx_bind_Ok in E as (row & d3 & H3 & E). tx_inv H3.
  apply tx_bind_Ok in E as ([] & d4 & H4 & E). tx_inv H4.
  apply find_row_Some in H3 as [Hrow Et%bool_decide_eq_true]. apply bool_decide_eq_true in H4.
  case_bool_decide as Es; [tx_inv E; by apply effect_same|].
  apply tx_bind_Ok in E as ([] & d5 & H5 & E). tx_inv H5.
  assert (∀ r, r ∈ reservations d → bool_decide (r_ticket r = t) = true →
               r_state r = STARTED ∨ r_state r = UNKNOWN) as Hst.
  { intros r Hr E1%bool_decide_eq_true.
    assert (r = row) as -> by (eapply (elem_of_unique r_ticket); [done|done|done|congruence]).
    apply elem_of_cons in H4 as [?|H4]; [by left|].
    apply elem_of_cons in H4 as [?|H4]; [by right|]. by apply list_elem_of_singleton in H4. }
  apply andb_true_iff in H1 as [Hc1 Hc2].
  destruct (u ≫= prompt_tokens) as [a|] eqn:Ea; [destruct (u ≫= completion_tokens) as [b|] eqn:Eb|].
  - apply tx_bind_Ok in E as (pr & d6 & H6 & E). tx_inv H6. tx_inv E. apply price_valid in H6.
    eapply eff_rows; [done|]. intros r Hr. simpl. destruct (bool_decide (r_ticket r = t)) eqn:Eh; [|apply row_step_refl].
    split; try done. right. simpl. split_and!; [constructor; auto| |eauto].
    intros c [= <-]. right. simpl in Hc1, Hc2. rewrite andb_true_iff, !Z.leb_le in Hc1, Hc2.
    apply cost_nonneg; [done|lia|lia].
  - tx_inv E. eapply eff_rows; [done|]. intros r Hr. simpl.
    destruct (bool_decide (r_ticket r = t)) eqn:Eh; [|apply row_step_refl].
    split; try done. right. simpl. split_and!; [constructor; auto|done|done].
  - tx_inv E. eapply eff_rows; [done|]. intros r Hr. simpl.
    destruct (bool_decide (r_ticket r = t)) eqn:Eh; [|apply row_step_refl].
    split; try done. right. simpl. split_and!; [constructor; auto|done|done].
Qed.

(** ** Invariants *)

Record ginv (d : gdb) : Prop := {
  gi_tickets : NoDup (r_ticket <$> reservations d);
  gi_keys : NoDup ((λ r, (r_tenant r, r_owner r, identity_key r)) <$> reservations d);
  gi_rows : ∀ r, r ∈ reservations d → row_valid r }.

Lemma row_step_valid r r' : row_step r r' → row_valid r → row_valid r'.
Proof.
  intros [] [V1 V2 V3 V4]. split.
  - unfold planned. by rewrite rs_input0, rs_output0.
  - by rewrite rs_cost0.
  - intros c Hc. destruct rs_state0 as [->|(_ & Hac & _)]; [auto|]. destruct (Hac c Hc); auto.
  - intros E. destruct rs_state0 as [->|(_ & _ & Hs)]; auto.
Qed.

Lemma gexec_effect d c : ginv d → effect d (gexec d c).
Proof.
  intros [Hnd _ _]. destruct c; simpl;
    [apply reserve_effect|apply transition_effect|by apply settle_effect|apply open_effect].
Qed.

Lemma effect_ginv d d' : ginv d → effect d d' → ginv d'.
Proof.
  intros [Hnd Hk Hv] [g E Hg|s version ol tl i input output w c t now E El Hi Ho Hc rows _ _ Hf].
  - split; rewrite E.
    + rewrite <-list_fmap_compose. rewrite (fmap_ext_elem _ r_ticket); [done|].
      intros r Hr. apply Hg, Hr.
    + rewrite <-list_fmap_compose.
      rewrite (fmap_ext_elem _ (λ r, (r_tenant r, r_owner r, identity_key r))); [done|].
      intros r Hr. destruct (Hg r Hr). simpl. congruence.
    + intros r (r0 & -> & Hr0)%list_elem_of_fmap. eapply row_step_valid; eauto.
  - split; rewrite E.
    + apply NoDup_snoc_key; [done|]. intros y Hy. by apply (Hf y).
    + apply (NoDup_snoc_key (λ r, (r_tenant r, r_owner r, identity_key r))); [done|].
      intros y Hy. by apply (Hf y).
    + intros r [Hr| ->%list_elem_of_singleton]%elem_of_app; [auto|].
      split; unfold planned; simpl; try done; lia.
Qed.

Lemma grun_snoc cs c : grun (cs ++ [c]) = gexec (grun cs) c.
Proof. unfold grun. by rewrite foldl_app. Qed.

Lemma grun_ginv cs : ginv (grun cs).
Proof.
  induction cs as [|c cs IH] using rev_ind.
  - split; simpl; [constructor|constructor|]. by intros r []%not_elem_of_nil.
  - rewrite grun_snoc. eapply effect_ginv; [done|]. by apply gexec_effect.
Qed.

(** Larger of the standard limit and the evaluation limit, if there is a binding. *)
Definition bound_Z (f : Limits → Z) (std : Limits) : Z :=
  match evaluation policy with Some _ => Z.max (f std) (f evaluation_limits) | None => f std end.
Definition bound_Q (f : Limits → Q) (std : Limits) : Q :=
  match evaluation policy with Some _ => Qmax (f std) (f evaluation_limits) | None => f std end.

Lemma select_limits_bound s version ol tl :
  select_limits policy s = (version, ol, tl) →
  (∀ f, f ol ≤ bound_Z f (pol_owner policy) ∧ f tl ≤ bound_Z f (pol_tenant policy)) ∧
  (∀ f, (f ol <= bound_Q f (pol_owner policy))%Q ∧ (f tl <= bound_Q f (pol_tenant policy))%Q).
Proof.
  unfold select_limits, bound_Z, bound_Q. destruct (evaluation policy) as [b|].
  - case_bool_decide; intros [= <- <- <-]; (split; intros f; split);
      try lia; first [apply Q.le_max_l|apply Q.le_max_r].
  - intros [= <- <- <-]. split; intros f; split; try lia; apply Qle_refl.
Qed.

(** The quotas of the rows of a tenant, or of an owner. *)
Record within_quota (q : reservation → bool) (std : Limits) (l : list reservation) : Prop := {
  wq_active : ∀ w, count (λ r, q r && (in_progress r && with_workload w r)) l
                   ≤ bound_Z (λ x, cap_of x w) std;
  wq_tokens : sum_by planned (select (λ r, q r && unsettled r) l) ≤ bound_Z reserved_tokens std;
  wq_cost : (qsum r_cost (select (λ r, q r && unsettled r) l) <= bound_Q monthly_cost std)%Q }.

Lemma redge_in_progress s s' :
  redge s s' → s' ∈ [RESERVED; ADMITTING; STARTED] → s ∈ [RESERVED; ADMITTING; STARTED].
Proof. destruct 1 as [| | |? []|? []]; subst; set_solver. Qed.

Lemma redge_unsettled s s' : redge s s' → s' ∉ [SETTLED; RELEASED] → s ∉ [SETTLED; RELEASED].
Proof. destruct 1 as [| | |? []|? []]; subst; set_solver. Qed.

(** A row never comes back into progress, nor becomes unsettled again. *)
Lemma row_step_in_progress r r' : row_step r r' → in_progress r' = true → in_progress r = true.
Proof.
  intros [] E. destruct rs_state0 as [->|[He _]]; [done|]. unfold in_progress in *.
  rewrite bool_decide_eq_true in *. by eapply redge_in_progress.
Qed.

Lemma row_step_unsettled r r' : row_step r r' → unsettled r' = true → unsettled r = true.
Proof.
  intros [] E. destruct rs_state0 as [->|[He _]]; [done|]. unfold unsettled in *.
  rewrite negb_true_iff, bool_decide_eq_false in *. by eapply redge_unsettled.
Qed.

Lemma over_limit_false l w n c now day month rs :
  over_limit l w n c now day month rs = false →
  count (λ r, in_progress r && with_workload w r) rs + 1 ≤ cap_of l w ∧
  sum_by planned (select unsettled rs) + n ≤ reserved_tokens l ∧
  (qsum charge (select (λ r, spent r && (Qle_bool month (r_created r) || unsettled r)) rs) + c
     <= monthly_cost l)%Q.
Proof.
  unfold over_limit. rewrite !orb_false_iff, !select_select. intros (((((_ & E1) & E2) & _) & _) & E3).
  apply Z.leb_gt in E1. apply Z.ltb_ge in E2. split_and!.
  - unfold len in E1. unfold count.
    rewrite (select_ext _ (λ r, in_progress r && with_workload w r)) in E1; [lia|].
    intros r _. unfold spent, in_progress. destruct (r_state r); done.
  - rewrite (select_ext _ unsettled) in E2; [lia|].
    intros r _. unfold spent, unsettled. destruct (r_state r); done.
  - apply Qnot_lt_le. intros F%qlt_iff. congruence.
Qed.

Lemma within_quota_rows q std g l :
  within_quota q std l → (∀ r, r ∈ l → row_valid r ∧ row_step r (g r) ∧ q (g r) = q r) →
  within_quota q std (g <$> l).
Proof.
  intros [Ha Ht Hc] Hg. split.
  - intros w. etrans; [|apply (Ha w)]. unfold count. rewrite select_fmap, length_fmap.
    apply (count_le (λ r, q (g r) && (in_progress (g r) && with_workload w (g r)))).
    intros r Hr. destruct (Hg r Hr) as (_ & Hs & ->). unfold with_workload.
    rewrite (rs_workload _ _ Hs), !andb_true_iff. intros (? & ? & ?).
    split_and!; try done. by eapply row_step_in_progress.
  - etrans; [|exact Ht]. rewrite select_fmap, sum_by_fmap.
    rewrite (sum_by_ext _ planned).
    + apply sum_select_le.
      * intros r Hr. by destruct (Hg r Hr) as (Hv & _); apply rv_planned.
      * intros r Hr. destruct (Hg r Hr) as (_ & Hs & ->). rewrite !andb_true_iff. intros [? ?].
        split; [done|]. by eapply row_step_unsettled.
    + intros r [_ Hr]%elem_of_select. destruct (Hg r Hr) as (_ & [] & _). unfold planned. congruence.
  - eapply Qle_trans; [|exact Hc]. rewrite select_fmap, qsum_fmap. apply qsum_le.
    + intros r Hr. destruct (Hg r Hr) as (_ & Hs & ->). rewrite !andb_true_iff. intros [? ?].
      split_and!; [done|by eapply row_step_unsettled|]. rewrite (rs_cost _ _ Hs). lra.
    + intros r Hr _. destruct (Hg r Hr) as (Hv & _). by apply rv_cost.
Qed.

Lemma unsettled_charge q month l :
  (∀ r, r ∈ l → row_valid r) →
  (qsum r_cost (select (λ r, q r && unsettled r) l)
   <= qsum charge (select (λ r, q r && (spent r && (Qle_bool month (r_created r) || unsettled r))) l))%Q.
Proof.
  intros Hv. apply qsum_le.
  - intros r Hr [E1 E2]%andb_true_iff. unfold charge. rewrite E1, E2, orb_true_r. split; [|lra].
    unfold spent, unsettled in *. by destruct (r_state r).
  - intros r Hr _. destruct (Hv r Hr) as [_ V2 V3 _]. unfold charge.
    destruct (unsettled r); [done|]. destruct (actual_cost r) as [c|] eqn:E; simpl; [auto|lra].
Qed.

Lemma within_quota_new q std lim l r w n c now day month :
  within_quota q std l → (∀ x, x ∈ l → row_valid x) → (∀ f, f lim ≤ bound_Z f std) →
  (∀ f, (f lim <= bound_Q f std)%Q) → r_workload r = w → planned r = n → r_cost r = c →
  (q r = true → over_limit lim w n c now day month (select q l) = false) →
  within_quota q std (l ++ [r]).
Proof.
  intros [Ha Ht Hc] Hv HZ HQ <- <- <- Hover. destruct (q r) eqn:Eq.
  - apply over_limit_false in Hover as (O1 & O2 & O3); [|done].
    rewrite count_select in O1. rewrite select_select in O2, O3. split.
    + intros w. rewrite count_snoc, Eq. unfold with_workload at 2.
      case_bool_decide as Ew; [subst w|by rewrite andb_false_r; pose proof (Ha w); simpl; lia].
      pose proof (HZ (λ x, cap_of x (r_workload r))). simpl in *. destruct (_ && true); lia.
    + rewrite select_snoc, sum_by_app. pose proof (HZ reserved_tokens).
      rewrite Eq. destruct (unsettled r); simpl; [lia|]. lia.
    + rewrite qsum_snoc, Eq. simpl. pose proof (HQ monthly_cost).
      pose proof (unsettled_charge q month l Hv). destruct (unsettled r); lra.
  - split.
    + intros w. rewrite count_snoc, Eq. pose proof (Ha w). simpl. lia.
    + rewrite select_snoc, sum_by_app, Eq. simpl. lia.
    + rewrite qsum_snoc, Eq. simpl. lra.
Qed.

(** Rows of a tenant; rows of an owner of a tenant. *)
Definition of_member (t o : uuid) (r : reservation) : bool := of_tenant t r && of_owner o r.

Record quotas_hold (d : gdb) : Prop := {
  qh_tenant : ∀ t, within_quota (of_tenant t) (pol_tenant policy) (reservations d);
  qh_owner : ∀ t o, within_quota (of_member t o) (pol_owner policy) (reservations d) }.

Lemma effect_quotas d d' : ginv d → quotas_hold d → effect d d' → quotas_hold d'.
Proof.
  intros [_ _ Hv] [Ht Ho] [g E Hg|s version ol tl i input output w c t now E El Hi Hout Hc rows Eo1 Eo2 Hf].
  - split; intros; rewrite E; apply within_quota_rows; auto; intros r Hr; split_and!; auto;
      unfold of_member, of_tenant, of_owner;
      by rewrite ?(rs_tenant _ _ (Hg r Hr)), ?(rs_owner _ _ (Hg r Hr)).
  - destruct (select_limits_bound _ _ _ _ El) as [HZ HQ]. split.
    + intros t'. rewrite E.
      eapply (within_quota_new _ _ tl); try done; [intros; apply HZ|intros; apply HQ|].
      simpl. unfold of_tenant at 1. simpl. intros <-%bool_decide_eq_true. exact Eo1.
    + intros t' o'. rewrite E.
      eapply (within_quota_new _ _ ol); try done; [intros; apply HZ|intros; apply HQ|].
      simpl. unfold of_member at 1, of_tenant, of_owner. simpl.
      intros [<-%bool_decide_eq_true <-%bool_decide_eq_true]%andb_true_iff.
      unfold rows in Eo2. rewrite select_select in Eo2. exact Eo2.
Qed.

(** What a reservation was made for never changes. *)
Definition terms (r : reservation) :=
  (r_ticket r, r_tenant r, r_owner r, r_identity r, identity_key r, r_workload r, r_input r,
   r_output r, r_cost r, r_created r).

Lemma row_step_terms r r' : row_step r r' → terms r' = terms r.
Proof. intros []. unfold terms. congruence. Qed.

Lemma row_step_state r r' : row_step r r' → rtc redge (r_state r) (r_state r').
Proof. intros []. destruct rs_state0 as [->|[? _]]; [done|]. by apply rtc_once. Qed.

Lemma effect_follow d d' r :
  effect d d' → r ∈ reservations d →
  ∃ r', r' ∈ reservations d' ∧ terms r' = terms r ∧ rtc redge (r_state r) (r_state r').
Proof.
  intros [g E Hg|s version ol tl i input output w c t now E El Hi Ho Hc rows _ _ Hf] Hr.
  - exists (g r). rewrite E. split; [by apply list_elem_of_fmap_2|]. specialize (Hg r Hr).
    split; [by apply row_step_terms|by apply row_step_state].
  - exists r. rewrite E. split; [apply elem_of_app; by left|done].
Qed.

Lemma foldl_ginv d cs : ginv d → ginv (foldl gexec d cs).
Proof.
  revert d. induction cs as [|c cs IH]; intros d Hd; simpl; [done|].
  apply IH. eapply effect_ginv; [done|]. by apply gexec_effect.
Qed.

Lemma foldl_follow d cs r :
  ginv d → r ∈ reservations d →
  ∃ r', r' ∈ reservations (foldl gexec d cs) ∧ terms r' = terms r ∧
        rtc redge (r_state r) (r_state r').
Proof.
  revert d r. induction cs as [|c cs IH]; intros d r Hd Hr; simpl; [by exists r|].
  destruct (effect_follow d (gexec d c) r) as (r1 & H1 & E1 & S1); [by apply gexec_effect|done|].
  destruct (IH (gexec d c) r1) as (r2 & H2 & E2 & S2);
    [eapply effect_ginv; [done|by apply gexec_effect]|done|].
  exists r2. split_and!; [done|congruence|by etrans].
Qed.

Lemma reserve_config p i input output w t e clk d :
  configuration d = Some (policy_json, catalog_json) →
  configuration (reserve policy catalog policy_json catalog_json event_limit p i input output w t e clk d).2
  = Some (policy_json, catalog_json).
Proof.
  intros Hc. unfold reserve. destruct (reserve_checks _ _ _ _ _ _) as [pr|]; [|done].
  unfold transaction. destruct (reserve_tx _ _ _ _ _ _ _ _ _ _ _ _ _ _ _) as [[o d']|] eqn:E; [|done].
  assert (configuration d' = Some (policy_json, catalog_json)) as Hd'; [|by destruct o].
  assert (∀ s a e now d x d', _event event_limit s a e now d = Ok (x, d') →
            configuration d' = configuration d) as Hev.
  { intros ??????? Hr. unfold _event in Hr. apply tx_bind_Ok in Hr as (n & d1 & H1 & Hr). tx_inv H1.
    apply tx_bind_Ok in Hr as ([] & d2 & H2 & Hr). tx_inv H2. by tx_inv Hr. }
  unfold reserve_tx in E. destruct (select_limits policy (gp_scope p)) as [[version ol] tl].
  apply tx_bind_Ok in E as ([] & d1 & H1 & E). unfold _current_policy in H1. tx_inv H1.
  apply tx_bind_Ok in E as (rs & d2 & H2 & E). tx_inv H2. destruct (find_row _ _) as [r|].
  { apply tx_bind_Ok in E as ([] & d3 & H3 & E). tx_inv H3. by tx_inv E. }
  cbv zeta in E. destruct (over_limit tl _ _ _ _ _ _ _ || over_limit ol _ _ _ _ _ _ _);
    apply tx_bind_Ok in E as ([] & d3 & H3 & E).
  - tx_inv E. apply Hev in H3. congruence.
  - apply insert_reservation_Ok in H3 as (_ & E3 & _).
    apply tx_bind_Ok in E as ([] & d4 & H4 & E). apply Hev in H4. tx_inv E. congruence.
Qed.

Lemma gexec_config d c :
  configuration d = Some (policy_json, catalog_json) →
  configuration (gexec d c) = Some (policy_json, catalog_json).
Proof.
  intros Hc. destruct c as [p i input output w t e clk|t b a|t u|]; simpl; [by apply reserve_config|..].
  - unfold transaction. destruct (transition t b a d) as [[x d']|] eqn:E; [|done].
    unfold transition in E. by tx_inv E.
  - unfold transaction. destruct (settle catalog t u d) as [[x d']|] eqn:E; [|done].
    unfold settle in E. cbv zeta in E. apply tx_bind_Ok in E as ([] & d1 & H1 & E). tx_inv H1.
    apply tx_bind_Ok in E as (rs & d2 & H2 & E). tx_inv H2.
    apply tx_bind_Ok in E as (row & d3 & H3 & E). tx_inv H3.
    apply tx_bind_Ok in E as ([] & d4 & H4 & E). tx_inv H4.
    case_bool_decide; [by tx_inv E|]. apply tx_bind_Ok in E as ([] & d5 & H5 & E). tx_inv H5.
    destruct (u ≫= prompt_tokens), (u ≫= completion_tokens); by tx_inv E.
  - unfold transaction. destruct (open_ledger _ _ d) as [[x d']|] eqn:E; [|done].
    unfold open_ledger in E. tx_inv E. simpl. by rewrite Hc.
Qed.

Lemma foldl_config d cs :
  configuration d = Some (policy_json, catalog_json) →
  configuration (foldl gexec d cs) = Some (policy_json, catalog_json).
Proof.
  revert d. induction cs as [|c cs IH]; intros d Hd; simpl; [done|]. by apply IH, gexec_config.
Qed.

Abbreviation greserve := (reserve policy catalog policy_json catalog_json event_limit).

(** The terms of a request: the columns [reserve] compares on a retry. *)
Definition asked (r : reservation) (i : CallIdentity) (input output : Z) (w : Workload) : bool :=
  (r_input r =? input) && (r_output r =? output) && with_workload w r
  && text_eqb (r_identity r) (encoded_identity i).

Lemma reserve_Ok p i input output w t e clk d t' d' :
  greserve p i input output w t e clk d = (Ok t', d') →
  configuration d = Some (policy_json, catalog_json) ∧
  ∃ r, r ∈ reservations d' ∧ r_ticket r = t' ∧ asked r i input output w = true ∧
       r_tenant r = tenant (gp_scope p) ∧ r_owner r = owner (gp_scope p) ∧ identity_key r = key_of i.
Proof.
  unfold reserve. destruct (reserve_checks _ _ _ _ _ _) as [pr|]; [|done].
  unfold transaction. destruct (reserve_tx _ _ _ _ _ _ _ _ _ _ _ _ _ _ _) as [[[o|] d1]|] eqn:E;
    [|done|done]. intros [= <- <-].
  unfold reserve_tx in E. destruct (select_limits policy (gp_scope p)) as [[version ol] tl].
  apply tx_bind_Ok in E as ([] & d2 & H1 & E). unfold _current_policy in H1. tx_inv H1.
  apply bool_decide_eq_true in H1. split; [done|]. apply tx_bind_Ok in E as (rs & d3 & H2 & E). tx_inv H2.
  destruct (find_row _ _) as [r|] eqn:Ef.
  { apply tx_bind_Ok in E as ([] & d4 & H3 & E). tx_inv H3. tx_inv E. injection E as ->.
    apply find_row_Some in Ef as [Hr Ek]. unfold of_tenant, of_owner, text_eqb in Ek.
    rewrite !andb_true_iff, !bool_decide_eq_true in Ek. destruct Ek as [[? ?] ?]. by exists r. }
  cbv zeta in E. destruct (over_limit tl _ _ _ _ _ _ _ || over_limit ol _ _ _ _ _ _ _);
    apply tx_bind_Ok in E as ([] & d4 & H3 & E); [by apply mret_Ok in E as [? _]|].
  apply insert_reservation_Ok in H3 as (E3 & _ & _).
  apply tx_bind_Ok in E as ([] & d5 & H4 & E). apply event_reservations in H4. tx_inv E.
  injection E as ->. eexists. rewrite H4, E3. split; [by apply elem_of_app; right; left|].
  split_and!; try done. unfold asked, with_workload, text_eqb.
  cbn [r_input r_output r_workload r_identity].
  by rewrite !Z.eqb_refl, !bool_decide_eq_true_2.
Qed.

Lemma reserve_existing p i input output w t e clk d r pr :
  ginv d → configuration d = Some (policy_json, catalog_json) → r ∈ reservations d →
  r_tenant r = tenant (gp_scope p) → r_owner r = owner (gp_scope p) → identity_key r = key_of i →
  reserve_checks catalog p i input output (clk 0%nat) (clk 1%nat) = Ok pr →
  greserve p i input output w t e clk d =
    (if asked r i input output w then Ok (r_ticket r)
     else Err (GovernanceError "reservation_conflict"), d).
Proof.
  intros Hi Hc Hr Et Eo Ek Hok. unfold reserve. rewrite Hok. unfold transaction, reserve_tx.
  destruct (select_limits policy (gp_scope p)) as [[version ol] tl].
  rewrite (tx_bind_run _ _ d tt d);
    [|unfold _current_policy; by rewrite (tx_bind_run _ _ d (configuration d) d), Hc, bool_decide_eq_true_2].
  rewrite (tx_bind_run _ _ d (reservations d) d) by done.
  rewrite (find_row_ext _
    (λ x, bool_decide ((r_tenant x, r_owner x, identity_key x) = (r_tenant r, r_owner r, identity_key r)))).
  - rewrite (find_row_unique (λ x, (r_tenant x, r_owner x, identity_key x)));
      [|exact (gi_keys _ Hi)|done].
    unfold asked. destruct (_ && _ && _ && _) eqn:Ea; done.
  - intros x _. rewrite Et, Eo, Ek. unfold of_tenant, of_owner, text_eqb.
    apply Bool.eq_iff_eq_true. rewrite !andb_true_iff, !bool_decide_eq_true. split; [intros [[? ?] ?]; congruence|by intros [= -> -> ->]].
Qed.

Lemma transition_Ok t b a d d' :
  transaction (transition t b a) d = (Ok tt, d') →
  allowed_transition b a = true ∧
  ∃ r, r ∈ reservations d ∧ r_ticket r = t ∧ r_state r = b ∧
       set_state a r ∈ reservations d' .
Proof.
  intros E%transaction_Ok. unfold transition in E. apply tx_bind_Ok in E as ([] & d1 & H1 & E).
  tx_inv H1. apply tx_bind_Ok in E as (rs & d2 & H2 & E). tx_inv H2.
  apply tx_bind_Ok in E as ([] & d3 & H3 & E). tx_inv H3. tx_inv E. split; [done|].
  apply Z.eqb_eq in E. unfold count in E.
  destruct (select _ _) as [|r l] eqn:El; [simpl in E; lia|].
  assert (r ∈ select (λ r, bool_decide (r_ticket r = t) && bool_decide (r_state r = b))
                (reservations d)) as [Hh Hr]%elem_of_select by (rewrite El; by left).
  pose proof Hh as Hh'. apply andb_true_iff in Hh' as [Et%bool_decide_eq_true Es%bool_decide_eq_true].
  exists r. split_and!; try done. simpl. apply elem_of_update_where. exists r. split; [done|].
  by rewrite Hh.
Qed.

Hypothesis Hpolicy : valid_limits (pol_owner policy) = true ∧ valid_limits (pol_tenant policy) = true.

Lemma valid_limits_bounds std : valid_limits std = true →
  (∀ w, 0 ≤ bound_Z (λ x, cap_of x w) std) ∧ 0 ≤ bound_Z reserved_tokens std ∧
  (0 <= bound_Q monthly_cost std)%Q.
Proof.
  unfold valid_limits. rewrite !andb_true_iff, !Z.ltb_lt, !Qle_bool_iff. intros Hl. destruct_and! Hl. clear Hpolicy.
  unfold bound_Z, bound_Q. destruct (evaluation policy); (split; [intros []; simpl; lia|]).
  - split; [simpl; lia|]. eapply Qle_trans; [|apply Q.le_max_l]. done.
  - split; [lia|done].
Qed.

Lemma fresh_quotas : quotas_hold fresh_gdb.
Proof.
  destruct Hpolicy as [[B1 [B2 B3]]%valid_limits_bounds [T1 [T2 T3]]%valid_limits_bounds].
  split; intros; by split.
Qed.

Lemma grun_quotas cs : quotas_hold (grun cs).
Proof.
  induction cs as [|c cs IH] using rev_ind; [apply fresh_quotas|]. rewrite grun_snoc.
  eapply effect_quotas; [apply grun_ginv|done|]. apply gexec_effect, grun_ginv.
Qed.

(** ** Every grant was within every limit *)

(** The limits of a tenant or an owner, at the instant [now] of a grant that is among the rows: the
    calls of the request window, the calls of the workload in progress, the tokens not settled,
    and the tokens and the cost of the day and of the month, where what is settled counts with
    its measured usage and what is not settled counts whenever it was reserved. *)
Record within_limits (l : Limits) (w : Workload) (now : Q) (rs : list reservation) : Prop := {
  wl_requests : count (λ r, qlt (now - inject_Z (window_seconds l)) (r_created r)) rs ≤ requests_per_window l;
  wl_active : count (λ r, in_progress r && with_workload w r) rs ≤ cap_of l w;
  wl_reserved : sum_by planned (select unsettled rs) ≤ reserved_tokens l;
  wl_daily : sum_by tokens (select (λ r, spent r && (Qle_bool (day_start now) (r_created r) || unsettled r)) rs)
             ≤ daily_tokens l;
  wl_monthly : sum_by tokens (select (λ r, spent r && (Qle_bool (month_start now) (r_created r) || unsettled r)) rs)
               ≤ monthly_tokens l;
  wl_cost : (qsum charge (select (λ r, spent r && (Qle_bool (month_start now) (r_created r) || unsettled r)) rs)
             <= monthly_cost l)%Q }.

Lemma over_limit_within l w now rs r :
  over_limit l w (planned r) (r_cost r) now (day_start now) (month_start now) rs = false →
  0 < window_seconds l → r_workload r = w → r_state r = RESERVED → r_created r = now →
  within_limits l w now (rs ++ [r]).
Proof.
  intros Hover Hw <- Es <-. destruct (over_limit_false _ _ _ _ _ _ _ _ Hover) as (H1 & H2 & H3).
  unfold over_limit in Hover. rewrite !orb_false_iff, !select_select in Hover.
  destruct Hover as (((((E1%Z.leb_gt & _) & _) & E4%Z.ltb_ge) & E5%Z.ltb_ge) & _).
  assert (unsettled r = true ∧ spent r = true ∧ in_progress r = true) as (U1 & U2 & U3)
    by (unfold unsettled, spent, in_progress; rewrite Es; by vm_compute).
  assert (qlt (r_created r - inject_Z (window_seconds l)) (r_created r) = true) as Hr.
  { apply qlt_iff. assert (0 < inject_Z (window_seconds l))%Q by (change 0%Q with (inject_Z 0); by rewrite <-Zlt_Qlt). lra. }
  split.
  - rewrite count_snoc, Hr. unfold len in E1. unfold count. lia.
  - rewrite count_snoc, U3. unfold with_workload at 2. rewrite bool_decide_eq_true_2 by done. simpl. lia.
  - rewrite select_snoc, sum_by_app, U1. simpl. lia.
  - rewrite select_snoc, sum_by_app, U1, U2, orb_true_r. simpl. unfold tokens at 2. rewrite U1. lia.
  - rewrite select_snoc, sum_by_app, U1, U2, orb_true_r. simpl. unfold tokens at 2. rewrite U1. lia.
  - rewrite qsum_snoc, U1, U2, orb_true_r. simpl. unfold charge at 2. rewrite U1. exact H3.
Qed.

(** The call of the history that granted [r], and the ledger it left. *)
Definition granted (cs : list gcall) (r : reservation) : Prop :=
  ∃ cs1 c cs2 r0, cs = cs1 ++ c :: cs2 ∧ r0 ∉ reservations (grun cs1) ∧
    r0 ∈ reservations (grun (cs1 ++ [c])) ∧ terms r0 = terms r ∧ r_state r0 = RESERVED ∧
    let '(_, ol, tl) := select_limits policy {| tenant := r_tenant r; owner := r_owner r |} in
    within_limits tl (r_workload r) (r_created r)
      (select (of_tenant (r_tenant r)) (reservations (grun (cs1 ++ [c])))) ∧
    within_limits ol (r_workload r) (r_created r)
      (select (of_member (r_tenant r) (r_owner r)) (reservations (grun (cs1 ++ [c])))).

Lemma granted_later cs c r r' : granted cs r → terms r' = terms r → granted (cs ++ [c]) r'.
Proof.
  intros (cs1 & c0 & cs2 & r0 & -> & Hn & Hi & Et & Es & Hw) E.
  exists cs1, c0, (cs2 ++ [c]), r0. rewrite <-app_assoc. split; [done|]. split; [done|]. split; [done|].
  split; [congruence|]. split; [done|]. unfold terms in E. injection E as F1 F2 F3 F4 F5 F6 F7 F8 F9 F10.
  by rewrite F2, F3, F6, F10.
Qed.

Lemma select_window s version ol tl : select_limits policy s = (version, ol, tl) →
  0 < window_seconds ol ∧ 0 < window_seconds tl.
Proof.
  destruct Hpolicy as [B T]. unfold valid_limits in B, T. rewrite !andb_true_iff, !Z.ltb_lt in B, T.
  destruct_and! B. destruct_and! T. unfold select_limits.
  destruct (evaluation policy) as [b|]; [case_bool_decide|]; by intros [= <- <- <-].
Qed.

Lemma grun_granted cs r : r ∈ reservations (grun cs) → granted cs r.
Proof.
  revert r. induction cs as [|c cs IH] using rev_ind; [by intros r ?%not_elem_of_nil|].
  intros r Hr. pose proof (gexec_effect (grun cs) c (grun_ginv cs)) as He. rewrite grun_snoc in Hr.
  destruct He as [g E Hg|s version ol tl i input output w x t now E El Hi Hout Hx rows Eo1 Eo2 Hf].
  - rewrite E in Hr. apply list_elem_of_fmap in Hr as (r0 & -> & Hr0).
    eapply granted_later; [by apply IH|]. by apply row_step_terms, Hg.
  - rewrite E in Hr. apply elem_of_app in Hr as [Hr|Hr]; [by eapply granted_later; [apply IH|]|].
    apply list_elem_of_singleton in Hr. exists cs, c, [], r. split; [done|].
    destruct (select_window _ _ _ _ El) as [W1 W2].
    assert (r ∉ reservations (grun cs)) as Hnew by (intros F; destruct (Hf r F) as [F' _]; by subst r).
    rewrite grun_snoc, E, <-Hr. split; [done|]. split; [apply elem_of_app; right; by apply list_elem_of_singleton|].
    split; [done|]. split; [by subst r|].
    assert ({| tenant := r_tenant r; owner := r_owner r |} = s) as -> by (subst r; by destruct s).
    rewrite El, !select_snoc.
    assert (of_tenant (r_tenant r) r = true ∧ of_member (r_tenant r) (r_owner r) r = true) as [-> ->]
      by (unfold of_member, of_tenant, of_owner; by rewrite !bool_decide_eq_true_2).
    unfold rows in Eo1, Eo2. rewrite select_select in Eo2. split; (apply over_limit_within; [|done|done|by subst r|done]); by subst r.
Qed.

(** C28: After every history of calls from a fresh database, whatever the clock reads, every tenant
    and every owner is within quota: the calls in progress per workload class, and the tokens and
    the cost reserved and not settled, never exceed the limits of the policy (or those of the
    evaluation allowance, where the policy grants one).  And every reservation of the ledger was
    granted by one call of the history that left all six limits of its tenant and of its owner
    respected at its instant, itself included: the requests of the window, the calls in progress, the
    tokens not settled, and the tokens of the day and of the month and the cost of the month,
    settled usage as measured.  (Usage measured after the grant may exceed what was reserved; it
    then counts against the next grants.) *)
Theorem quota_invariant cs : quotas_hold (grun cs) ∧ ∀ r, r ∈ reservations (grun cs) → granted cs r.
Proof. split; [apply grun_quotas|apply grun_granted]. Qed.

(** A reservation is never lost or rewritten: after any further calls it is still
    there with the same ticket, scope, identity, workload, tokens and cost, and its
    state has only moved along RESERVED - ADMITTING - STARTED - SETTLED or UNKNOWN, or
    ADMITTING - RELEASED; a settled row has its measured tokens and cost. *)
Theorem reservation_lifecycle cs cs' r :
  r ∈ reservations (grun cs) →
  ∃ r', r' ∈ reservations (grun (cs ++ cs')) ∧ terms r' = terms r ∧
        rtc redge (r_state r) (r_state r') ∧
        (r_state r' = SETTLED →
         is_Some (actual_input r') ∧ is_Some (actual_output r') ∧ is_Some (actual_cost r')).
Proof.
  intros Hr. destruct (foldl_follow (grun cs) cs' r (grun_ginv cs) Hr) as (r' & H1 & H2 & H3).
  exists r'. unfold grun at 1. rewrite foldl_app. split_and!; try done.
  apply rv_settled. pose proof (grun_ginv (cs ++ cs')) as Hi. unfold grun in Hi.
  rewrite foldl_app in Hi. by apply Hi.
Qed.

(** Reservation is idempotent: once a call got a ticket, asking again for the same
    owner, job, step and attempt, at any later time and after any further calls, changes
    nothing and returns the same ticket when tokens, workload and identity are the same,
    and a conflict otherwise. *)
Theorem reservation_idempotent cs cs' p i input output w t e clk ticket d
    i2 input2 output2 w2 t2 e2 clk2 pr :
  greserve p i input output w t e clk (grun cs) = (Ok ticket, d) → key_of i2 = key_of i →
  reserve_checks catalog p i2 input2 output2 (clk2 0%nat) (clk2 1%nat) = Ok pr →
  let d2 := foldl gexec d cs' in
  greserve p i2 input2 output2 w2 t2 e2 clk2 d2 =
    (if (input2 =? input) && (output2 =? output) && bool_decide (w2 = w)
        && text_eqb (encoded_identity i2) (encoded_identity i)
     then Ok ticket else Err (GovernanceError "reservation_conflict"), d2).
Proof.
  intros E1 Ek Hok d2. apply (f_equal snd) in E1 as Ed. simpl in Ed.
  assert (ginv d) as Hd.
  { rewrite <-Ed. eapply effect_ginv; [apply grun_ginv|]. apply reserve_effect. }
  destruct (reserve_Ok _ _ _ _ _ _ _ _ _ _ _ E1) as (Hc & r & Hr & <- & Ha & Et & Eo & Eik).
  pose proof (reserve_config p i input output w t e clk _ Hc) as Hcd. rewrite Ed in Hcd.
  destruct (foldl_follow d cs' r Hd Hr) as (r' & Hr' & Eterms & _).
  unfold terms in Eterms. injection Eterms as F1 F2 F3 F4 F5 F6 F7 F8 F9 F10.
  rewrite (reserve_existing p i2 input2 output2 w2 t2 e2 clk2 d2 r' pr);
    [|by apply foldl_ginv|by apply foldl_config|done|congruence|congruence|congruence|done].
  f_equal. rewrite F1. unfold asked, with_workload, text_eqb in *. rewrite F4, F6, F7, F8.
  rewrite !andb_true_iff, !Z.eqb_eq, !bool_decide_eq_true in Ha.
  destruct Ha as (((-> & ->) & ->) & ->).
  match goal with |- (if ?a then _ else _) = (if ?b then _ else _) => assert (a = b) as ->; [|done] end.
  apply Bool.eq_iff_eq_true. rewrite !andb_true_iff, !Z.eqb_eq, !bool_decide_eq_true. split; intros [[[? ?] ?] ?]; repeat split; congruence.
Qed.

(** A ticket is admitted at most once: after the transition RESERVED - ADMITTING of
    a ticket succeeded, the same transition fails for ever, whatever calls come between,
    so a repeated attempt never executes twice. *)
Theorem ticket_admitted_once cs cs' t d :
  transaction (transition t RESERVED ADMITTING) (grun cs) = (Ok tt, d) →
  transaction (transition t RESERVED ADMITTING) (foldl gexec d cs') =
    (Err (GovernanceError "reservation_conflict"), foldl gexec d cs').
Proof.
  intros E. destruct (transition_Ok _ _ _ _ _ E) as (_ & r & Hr & Et & Es & Hr').
  assert (ginv d) as Hd.
  { apply (f_equal snd) in E. simpl in E. rewrite <-E.
    eapply effect_ginv; [apply grun_ginv|apply transition_effect]. }
  destruct (foldl_follow d cs' _ Hd Hr') as (r2 & Hr2 & E2 & S2). simpl in S2.
  assert (r_state r2 ≠ RESERVED) as Hne.
  { clear -S2. intros E. rewrite E in S2. clear E. remember RESERVED as x eqn:Ex.
    apply rtc_inv_r in S2 as [E|(y & _ & Hy)]; [congruence|]. subst x. inversion Hy. }
  assert (r_ticket r2 = t) as Et2 by (unfold terms in E2; simpl in E2; congruence).
  destruct (transaction (transition t RESERVED ADMITTING) (foldl gexec d cs')) as [[[]|err] d3] eqn:E3.
  - destruct (transition_Ok _ _ _ _ _ E3) as (_ & r3 & Hr3 & Et3 & Es3 & _).
    assert (r3 = r2) as ->; [|done].
    eapply (elem_of_unique r_ticket); [apply (foldl_ginv d cs' Hd)|done|done|congruence].
  - apply transaction_Err in E3 as [E3 ->]. f_equal. unfold transition in E3.
    rewrite (tx_bind_run _ _ _ tt (foldl gexec d cs')) in E3 by done.
    rewrite (tx_bind_run _ _ _ (reservations (foldl gexec d cs')) (foldl gexec d cs')) in E3 by done.
    unfold mbind, tx_bind, modify, guard in E3. destruct (_ =? 1); [done|]. by injection E3 as <-.
Qed.

End History.

(** ** A concrete ledger *)

Definition sample_limits : Limits := {|
  requests_per_window := 10; window_seconds := 60; interactive_concurrent := 1;
  background_concurrent := 2; reserved_tokens := 5000; daily_tokens := 100000;
  monthly_tokens := 1000000; monthly_cost := inject_Z 10 |}.

Definition sample_quota_policy : QuotaPolicy := {|
  pol_version := "quota/1"; pol_owner := sample_limits; pol_tenant := sample_limits;
  evaluation := None |}.

Definition sample_price : Price := {|
  pr_provider := "openai"; pr_model := "m"; input_price := AFinite 25 (-1);
  output_price := AFinite 10 0; price_unit := 1000000 |}.

Definition sample_catalog : PricingCatalog := {|
  cat_version := "prices/1"; currency := "EUR"; effective_date := "2024-01-01";
  operator_approved := true; prices := [sample_price] |}.

Definition sample_principal : GPrincipal := {| gp_scope := sample_scope; gp_expires := 2000000000 |}.

Definition sample_call (step : string) : CallIdentity := {|
  ci_scope := identity sample_scope; ci_job := "job"; ci_step := step; ci_attempt := 1;
  ci_profile := "p/1"; ci_provider := "openai"; ci_role := "general"; ci_model := "m";
  ci_capability := "c/1" |}.

(** 14 November 2023 and 3 June 2024. *)
Definition old_clock (_ : nat) : Q := inject_Z 1700000000.
Definition sample_clock (i : nat) : Q := inject_Z (1717400000 + Z.of_nat i).

Definition sample_exec : gdb → gcall → gdb :=
  @gexec sample_runtime sample_quota_policy sample_catalog [] [] 1000.
Definition sample_grun : list gcall → gdb :=
  @grun sample_runtime sample_quota_policy sample_catalog [] [] 1000.
Definition sample_reserve := @reserve sample_runtime sample_quota_policy sample_catalog [] [] 1000.

Definition sample_gcalls : list gcall :=
  [Open; Reserve sample_principal (sample_call "s0") 100 50 INTERACTIVE "k0" "e0" old_clock;
   Reserve sample_principal (sample_call "s1") 100 50 INTERACTIVE "k1" "e1" sample_clock;
   Reserve sample_principal (sample_call "s2") 100 50 INTERACTIVE "k2" "e2" sample_clock].

(** Only the second request is granted: the price list of the first is not in effect,
    and the third finds the only interactive slot taken. *)
Lemma sample_granted :
  r_ticket <$> reservations (sample_grun sample_gcalls) = ["k1"]
  ∧ e_action <$> events (sample_grun sample_gcalls) = ["RESERVED"; "ADMISSION_DENIED"].
Proof. vm_compute. done. Qed.

Lemma cost_fits_context_witness :
  ∃ n, 0 ≤ n < 10 ^ 60 ∧ (cost sample_price 100 50 * inject_Z (10 ^ 21) == inject_Z n)%Q.
Proof. apply (cost_fits_context sample_price 100 50); [vm_compute; reflexivity|lia|lia]. Defined.

Lemma quota_invariant_witness :
  let d := @grun sample_runtime sample_quota_policy sample_catalog [] [] 1000 sample_gcalls in
  quotas_hold sample_quota_policy d ∧
  ∀ r, r ∈ reservations d → @granted sample_runtime sample_quota_policy sample_catalog [] [] 1000 sample_gcalls r.
Proof.
  apply (@quota_invariant sample_runtime sample_quota_policy sample_catalog [] [] 1000).
  - vm_compute. reflexivity.
  - vm_compute. split; reflexivity.
Defined.

Lemma reservation_lifecycle_witness :
  ∃ r r', r ∈ reservations (sample_grun sample_gcalls) ∧ r_state r = RESERVED ∧
    r' ∈ reservations (sample_grun (sample_gcalls ++ [Transition "k1" RESERVED ADMITTING])) ∧
    terms r' = terms r.
Proof.
  destruct (reservations (sample_grun sample_gcalls)) as [|r l] eqn:E; [vm_compute in E; discriminate|].
  assert (r_state r = RESERVED) as Hs.
  { apply (f_equal (λ l, r_state <$> head l)) in E. vm_compute in E. injection E as E. exact (eq_sym E). }
  destruct (@reservation_lifecycle sample_runtime sample_quota_policy sample_catalog [] [] 1000
    ltac:(vm_compute; reflexivity) sample_gcalls [Transition "k1" RESERVED ADMITTING] r)
    as (r' & H1 & H2 & _).
  - change (r ∈ reservations (sample_grun sample_gcalls)). rewrite E. by left.
  - exists r, r'. split; [by left|]. split; [exact Hs|]. split; [exact H1|exact H2].
Defined.

Lemma reservation_idempotent_witness :
  let d2 := sample_exec (sample_grun sample_gcalls) (Transition "k1" RESERVED ADMITTING) in
  sample_reserve sample_principal (sample_call "s1") 100 50 INTERACTIVE "k9" "e9" sample_clock d2
    = (Ok "k1", d2)
  ∧ sample_reserve sample_principal (sample_call "s1") 100 51 INTERACTIVE "k9" "e9" sample_clock d2
    = (Err (GovernanceError "reservation_conflict"), d2).
Proof.
  pose (d := (sample_reserve sample_principal (sample_call "s1") 100 50 INTERACTIVE "k1" "e1"
    sample_clock (sample_grun (take 2 sample_gcalls))).2).
  assert (sample_reserve sample_principal (sample_call "s1") 100 50 INTERACTIVE "k1" "e1"
    sample_clock (sample_grun (take 2 sample_gcalls)) = (Ok "k1", d)) as E by (vm_compute; reflexivity).
  pose proof (@reservation_idempotent sample_runtime sample_quota_policy sample_catalog [] [] 1000
    ltac:(vm_compute; reflexivity) (take 2 sample_gcalls) (drop 3 sample_gcalls ++ [Transition "k1" RESERVED ADMITTING])
    sample_principal (sample_call "s1") 100 50 INTERACTIVE "k1" "e1" sample_clock "k1" d) as T.
  split.
  - exact (T (sample_call "s1") 100 50 INTERACTIVE "k9" "e9" sample_clock sample_price E eq_refl
             ltac:(vm_compute; reflexivity)).
  - exact (T (sample_call "s1") 100 51 INTERACTIVE "k9" "e9" sample_clock sample_price E eq_refl
             ltac:(vm_compute; reflexivity)).
Defined.

Lemma ticket_admitted_once_witness :
  let d := sample_exec (sample_grun sample_gcalls) (Transition "k1" RESERVED ADMITTING) in
  let d' := sample_exec d (Transition "k1" ADMITTING STARTED) in
  transaction (transition "k1" RESERVED ADMITTING) d' =
    (Err (GovernanceError "reservation_conflict"), d').
Proof.
  exact (@ticket_admitted_once sample_runtime sample_quota_policy sample_catalog [] [] 1000
    ltac:(vm_compute; reflexivity) sample_gcalls [Transition "k1" ADMITTING STARTED] "k1"
    (sample_exec (sample_grun sample_gcalls) (Transition "k1" RESERVED ADMITTING))
    ltac:(vm_compute; reflexivity)).
Defined.
