(* ===== verification/Authority.v ===== *)
(** * Durable ownership, grants, epochs and the audit log

    [security/models.py] and [security/authority.py].  A principal is what
    [_verified_principal] returns; a frozen set of actions is a list read as a set.
    The JSON text of the [permissions] column is represented by the sorted list it
    prints.  A transaction of [Database] commits its writes or none.  Every
    [self.clock()] of a call has a reading [clk i] of its own; [eid], [eid'] and [eid2]
    are the [uuid4()]s of its audit events. *)

From stdpp Require Import base tactics list strings option sets.
From Stdlib Require Import ZArith NArith QArith Lia.
From S2P Require Import Prelude Json Contracts JobModels ProviderAdmission.

Local Open Scope Z_scope.

(** ** [security/models.py] *)

Inductive security_exn := SecurityErr (category : string).
#[export] Instance security_exn_eq_dec : EqDecision security_exn.
Proof. solve_decision. Defined.

Definition SecurityError (category : string) : security_exn :=
  SecurityErr (if bool_decide (category ∈ ["access_denied"; "authentication_required";
                  "security_unavailable"; "security_configuration"; "unsupported_execution";
                  "mixed_owners"])
               then category else "access_denied").

Definition access_denied : security_exn := SecurityError "access_denied".

(** In the order of their values. *)
Inductive Action :=
| DOCUMENT_ANALYZE | DOCUMENT_DELETE | DOCUMENT_READ | DOCUMENT_SHARE | JOB_CANCEL | JOB_READ
| PUBLICATION_MANAGE | SESSION_READ | SESSION_WRITE | TENANT_ADMIN | USAGE_READ.
#[export] Instance Action_eq_dec : EqDecision Action.
Proof. solve_decision. Defined.

Definition sorted_actions : list Action :=
  [DOCUMENT_ANALYZE; DOCUMENT_DELETE; DOCUMENT_READ; DOCUMENT_SHARE; JOB_CANCEL; JOB_READ;
   PUBLICATION_MANAGE; SESSION_READ; SESSION_WRITE; TENANT_ADMIN; USAGE_READ].

Definition action_value (a : Action) : string :=
  match a with
  | DOCUMENT_ANALYZE => "DOCUMENT_ANALYZE" | DOCUMENT_DELETE => "DOCUMENT_DELETE"
  | DOCUMENT_READ => "DOCUMENT_READ" | DOCUMENT_SHARE => "DOCUMENT_SHARE"
  | JOB_CANCEL => "JOB_CANCEL" | JOB_READ => "JOB_READ"
  | PUBLICATION_MANAGE => "PUBLICATION_MANAGE" | SESSION_READ => "SESSION_READ"
  | SESSION_WRITE => "SESSION_WRITE" | TENANT_ADMIN => "TENANT_ADMIN"
  | USAGE_READ => "USAGE_READ"
  end.

Inductive PrincipalKind := user | service.
#[export] Instance PrincipalKind_eq_dec : EqDecision PrincipalKind.
Proof. solve_decision. Defined.

Record Principal := {
  issuer : text; subject : text; tenant_identity : text; p_scope : Scope;
  permissions : list Action; p_kind : PrincipalKind; expires : Z }.

Record AuthorizationSnapshot := {
  sn_principal : Principal; principal_epoch : Z; sn_documents : list (uuid * Scope * Z);
  sn_action : Action; policy_version : string }.

Section Identity.
Context `{Runtime}.

Definition principal_scope (iss sub ten : text) : Scope := {|
  tenant := stable_id [cps "polymind-identity/1/tenant"; iss; ten];
  owner := stable_id [cps "polymind-identity/1/owner"; iss; ten; sub] |}.

(** [_verified_principal]. *)
Definition make_principal (iss sub ten : text) (perms : list Action) (k : PrincipalKind)
    (exp : Z) (now : Q) : result security_exn Principal :=
  let ok t := (1 <=? len t) && (len t <=? 2048) in
  if ok iss && ok sub && ok ten && qlt now (inject_Z exp) then
    Ok {| issuer := iss; subject := sub; tenant_identity := ten;
          p_scope := principal_scope iss sub ten; permissions := perms; p_kind := k;
          expires := exp |}
  else Err (SecurityError "authentication_required").

Definition session_payload (p : Principal) (session_id : text) : text :=
  dumps (JArr [jstr "polymind-session/1"; jstr (tenant (p_scope p)); jstr (owner (p_scope p));
               JStr session_id]).

Definition session_key (p : Principal) (session_id : text) : result security_exn string :=
  if (1 <=? len session_id) && (len session_id <=? 256)
  then Ok ("s1-" +:+ sha256_hex (session_payload p session_id))
  else Err access_denied.

End Identity.

(** ** The tables *)

Record principal_row := {
  pr_owner : uuid; pr_tenant : uuid; pr_identity : text; pr_permissions : list Action;
  pr_kind : PrincipalKind; pr_epoch : Z; pr_disabled : bool }.

Inductive DocState := ACTIVE | TOMBSTONED | PURGE_PENDING.
#[export] Instance DocState_eq_dec : EqDecision DocState.
Proof. solve_decision. Defined.

Record doc_row := {
  dr_document : uuid; dr_tenant : uuid; dr_owner : uuid; dr_epoch : Z; dr_state : DocState }.

Record grant_row := {
  grant_id : uuid; gr_document : uuid; gr_grantee : uuid; gr_created : Q; gr_revoked : option Q }.

Record audit_row := {
  au_event : uuid; au_at : Q; au_principal : option uuid; au_tenant : option uuid;
  au_action : string; au_resource : option uuid; au_outcome : string; au_policy : string }.

Record purge_row := { pu_document : uuid; pu_inventory : list string; pu_state : string; pu_reason : string }.

Record sdb := {
  principals : list principal_row; documents : list doc_row; grants : list grant_row;
  audit : list audit_row; purge : list purge_row }.

Definition empty_sdb : sdb :=
  {| principals := []; documents := []; grants := []; audit := []; purge := [] |}.

Definition on_principals (f : list principal_row → list principal_row) (d : sdb) : sdb :=
  {| principals := f (principals d); documents := documents d; grants := grants d;
     audit := audit d; purge := purge d |}.
Definition on_documents (f : list doc_row → list doc_row) (d : sdb) : sdb :=
  {| principals := principals d; documents := f (documents d); grants := grants d;
     audit := audit d; purge := purge d |}.
Definition on_grants (f : list grant_row → list grant_row) (d : sdb) : sdb :=
  {| principals := principals d; documents := documents d; grants := f (grants d);
     audit := audit d; purge := purge d |}.
Definition on_audit (f : list audit_row → list audit_row) (d : sdb) : sdb :=
  {| principals := principals d; documents := documents d; grants := grants d;
     audit := f (audit d); purge := purge d |}.
Definition on_purge (f : list purge_row → list purge_row) (d : sdb) : sdb :=
  {| principals := principals d; documents := documents d; grants := grants d;
     audit := audit d; purge := f (purge d) |}.

Abbreviation stx := (tx sdb security_exn).

(** sqlite errors (keys, foreign keys) surface as [security_unavailable]. *)
Definition unavailable : security_exn := SecurityError "security_unavailable".

(** [try: m; except SecurityError] inside a transaction: the writes of [m] stay; the
    bodies it is used on only read. *)
Definition attempt {A} (m : stx A) : stx (result security_exn A) :=
  λ d, match m d with Ok (a, d') => Ok (Ok a, d') | Err e => Ok (Err e, d) end.

Definition pr_is (o : uuid) (r : principal_row) : bool := bool_decide (pr_owner r = o).
Definition doc_is (d : uuid) (r : doc_row) : bool := bool_decide (dr_document r = d).
Definition grant_of (d g : uuid) (r : grant_row) : bool :=
  bool_decide (gr_document r = d) && bool_decide (gr_grantee r = g).

Section Authority.
Context `{Runtime}.
Variable audit_limit : Z.

Definition _audit (p : option Principal) (action : string) (resource : option uuid)
    (outcome : string) (eid : uuid) (at_ : Q) : stx unit :=
  l ← gets audit;
  _ ← guard (len l <? audit_limit) unavailable;
  _ ← guard (forallb (λ r, negb (bool_decide (au_event r = eid))) l) unavailable;
  modify (on_audit (λ l, l ++ [{|
    au_event := eid; au_at := at_; au_principal := (λ p, owner (p_scope p)) <$> p;
    au_tenant := (λ p, tenant (p_scope p)) <$> p; au_action := action; au_resource := resource;
    au_outcome := outcome; au_policy := "authorization/1" |}])).

Definition authority_ready (d : sdb) : bool := len (audit d) <? audit_limit.

Definition audit_authentication (accepted : bool) (eid : uuid) (at_ : Q) : stx unit :=
  _audit None "AUTHENTICATION" None (if accepted then "allowed" else "denied") eid at_.

Definition _identity (p : Principal) : text :=
  dumps (JArr [JStr (issuer p); JStr (tenant_identity p); JStr (subject p)]).

Definition _permissions (p : Principal) : list Action :=
  List.filter (λ a, bool_decide (a ∈ permissions p)) sorted_actions.

Definition holds (p : Principal) (a : Action) : bool := bool_decide (a ∈ permissions p).

Definition register (p : Principal) (eid : uuid) (clk : nat → Q) : stx unit :=
  _ ← guard (qlt (clk 0%nat) (inject_Z (expires p))) (SecurityError "authentication_required");
  row ← gets (λ d, find_row (pr_is (owner (p_scope p))) (principals d));
  _ ← match row with
      | Some r =>
          _ ← guard (text_eqb (pr_identity r) (_identity p)
                     && bool_decide (pr_tenant r = tenant (p_scope p)) && negb (pr_disabled r))
                access_denied;
          if bool_decide (pr_permissions r = _permissions p) && bool_decide (pr_kind r = p_kind p)
          then mret tt
          else modify (on_principals (update_where (pr_is (owner (p_scope p))) (λ r, {|
                 pr_owner := pr_owner r; pr_tenant := pr_tenant r; pr_identity := pr_identity r;
                 pr_permissions := _permissions p; pr_kind := p_kind p; pr_epoch := pr_epoch r + 1;
                 pr_disabled := pr_disabled r |})))
      | None =>
          modify (on_principals (λ l, l ++ [{|
            pr_owner := owner (p_scope p); pr_tenant := tenant (p_scope p);
            pr_identity := _identity p; pr_permissions := _permissions p; pr_kind := p_kind p;
            pr_epoch := 0; pr_disabled := false |}]))
      end;
  _audit (Some p) "AUTHENTICATION" None "allowed" eid (clk 1%nat).

Definition _principal (p : Principal) (now : Q) : stx principal_row :=
  _ ← guard (qlt now (inject_Z (expires p))) (SecurityError "authentication_required");
  row ← gets (λ d, find_row (pr_is (owner (p_scope p))) (principals d));
  r ← expect row access_denied;
  _ ← guard (negb (pr_disabled r) && bool_decide (pr_tenant r = tenant (p_scope p))
             && text_eqb (pr_identity r) (_identity p)
             && bool_decide (pr_permissions r = _permissions p) && bool_decide (pr_kind r = p_kind p))
        access_denied;
  mret r.

Definition document_action (a : Action) : bool :=
  bool_decide (a ∈ [DOCUMENT_READ; DOCUMENT_ANALYZE; DOCUMENT_SHARE; DOCUMENT_DELETE]).

Definition _document (p : Principal) (a : Action) (doc : uuid) (now : Q) : stx doc_row :=
  _ ← _principal p now;
  row ← gets (λ d, find_row (doc_is doc) (documents d));
  r ← expect row access_denied;
  _ ← guard (bool_decide (dr_tenant r = tenant (p_scope p)) && bool_decide (dr_state r = ACTIVE))
        access_denied;
  _ ← guard (document_action a) access_denied;
  if bool_decide (dr_owner r = owner (p_scope p)) || holds p TENANT_ADMIN then mret r
  else
    live ← gets (λ d, existsb (λ g, grant_of doc (owner (p_scope p)) g
                                    && bool_decide (gr_revoked g = None)) (grants d));
    _ ← guard (bool_decide (a ∈ [DOCUMENT_READ; DOCUMENT_ANALYZE]) && live) access_denied;
    mret r.

(** [audited_mutation]: a refused mutation is audited in a transaction of its own. *)
Definition audited {A} (action : string) (p : Principal) (resource : option uuid) (m : stx A)
    (eid : uuid) (at_ : Q) (d : sdb) : result security_exn A * sdb :=
  match transaction m d with
  | (Ok a, d') => (Ok a, d')
  | (Err e, d') =>
      match transaction (_audit (Some p) action resource "denied" eid at_) d' with
      | (Ok _, d'') => (Err e, d'')
      | (Err e', d'') => (Err e', d'')
      end
  end.

(** The trusted canonical document: identifier and scope are what is read.  The
    decorator's resource is the document, which is not a UUID. *)
Definition register_document_tx (p : Principal) (doc : uuid) (s : Scope) (eid : uuid)
    (clk : nat → Q) : stx unit :=
  _ ← _principal p (clk 0%nat);
  _ ← guard (holds p PUBLICATION_MANAGE && bool_decide (tenant s = tenant (p_scope p))) access_denied;
  o ← gets (λ d, find_row (pr_is (owner s)) (principals d));
  _ ← guard (match o with Some r => bool_decide (pr_tenant r = tenant s) | None => false end) access_denied;
  row ← gets (λ d, find_row (doc_is doc) (documents d));
  match row with
  | Some r => guard (bool_decide (dr_owner r = owner s) && bool_decide (dr_tenant r = tenant s)
                     && bool_decide (dr_state r = ACTIVE)) access_denied
  | None =>
      _ ← modify (on_documents (λ l, l ++ [{|
            dr_document := doc; dr_tenant := tenant s; dr_owner := owner s; dr_epoch := 0;
            dr_state := ACTIVE |}]));
      _audit (Some p) "DOCUMENT_REGISTER" (Some doc) "allowed" eid (clk 1%nat)
  end.

Definition register_document (p : Principal) (doc : uuid) (s : Scope) (eid eid2 : uuid)
    (clk : nat → Q) : sdb → result security_exn unit * sdb :=
  audited "DOCUMENT_REGISTER" p None (register_document_tx p doc s eid clk) eid2 (clk 9%nat).

(** What [authorize] may be asked about. *)
Inductive resource := RNone | RDocument (doc : uuid) | RScope (s : Scope).

Definition authorize_checks (p : Principal) (a : Action) (r : resource) (clk : nat → Q) : stx unit :=
  _ ← _principal p (clk 0%nat);
  if bool_decide (a ∈ [PUBLICATION_MANAGE; TENANT_ADMIN]) then guard (holds p a) access_denied
  else if bool_decide (a ∈ [SESSION_READ; SESSION_WRITE; USAGE_READ]) then
    guard (match r with RScope s => bool_decide (s = p_scope p) | _ => false end) access_denied
  else match r with
       | RDocument doc => _ ← _document p a doc (clk 1%nat); mret tt
       | _ => _ ← _principal p (clk 1%nat); raise access_denied
       end.

Definition resource_id (r : resource) : option uuid :=
  match r with RDocument doc => Some doc | _ => None end.

(** The denial is audited in the same transaction, then raised. *)
Definition authorize (p : Principal) (a : Action) (r : resource) (eid : uuid) (clk : nat → Q)
    (d : sdb) : result security_exn unit * sdb :=
  match transaction (
      x ← attempt (authorize_checks p a r clk);
      _ ← _audit (Some p) (action_value a) (resource_id r)
            (match x with Ok _ => "allowed" | Err _ => "denied" end) eid (clk 2%nat);
      mret x) d with
  | (Ok (Ok _), d') => (Ok tt, d')
  | (Ok (Err _), d') => (Err access_denied, d')
  | (Err e, d') => (Err e, d')
  end.

Fixpoint snapshot_documents (p : Principal) (a : Action) (docs : list uuid) (i : nat) (clk : nat → Q)
    : stx (list (uuid * Scope * Z)) :=
  match docs with
  | [] => mret []
  | doc :: docs' =>
      r ← _document p a doc (clk i);
      l ← snapshot_documents p a docs' (S i) clk;
      mret ((doc, {| tenant := dr_tenant r; owner := dr_owner r |}, dr_epoch r) :: l)
  end.

Definition take_snapshot (p : Principal) (docs : list uuid) (a : Action) (clk : nat → Q)
    : stx AuthorizationSnapshot :=
  r ← _principal p (clk 1%nat);
  l ← snapshot_documents p a docs 2 clk;
  mret {| sn_principal := p; principal_epoch := pr_epoch r; sn_documents := l; sn_action := a;
          policy_version := "authorization/1" |}.

Definition snapshot (p : Principal) (docs : list uuid) (a : Action) (eid : uuid) (clk : nat → Q)
    (d : sdb) : result security_exn AuthorizationSnapshot * sdb :=
  if (len docs <=? 32) && bool_decide (NoDup docs) then
    match transaction (
        x ← attempt (take_snapshot p docs a clk);
        _ ← _audit (Some p) "AUTHORIZE" None
              (match x with Ok _ => "allowed" | Err _ => "denied" end) eid (clk 0%nat);
        mret x) d with
    | (Ok (Ok s), d') => (Ok s, d')
    | (Ok (Err _), d') => (Err access_denied, d')
    | (Err e, d') => (Err e, d')
    end
  else (Err access_denied, d).

Fixpoint revalidate_documents (p : Principal) (a : Action) (l : list (uuid * Scope * Z)) (i : nat)
    (clk : nat → Q) : stx unit :=
  match l with
  | [] => mret tt
  | (doc, s, epoch) :: l' =>
      r ← _document p a doc (clk i);
      _ ← guard ((dr_epoch r =? epoch)
                 && bool_decide (s = {| tenant := dr_tenant r; owner := dr_owner r |})) access_denied;
      revalidate_documents p a l' (S i) clk
  end.

Definition _revalidate (s : AuthorizationSnapshot) (clk : nat → Q) : stx unit :=
  _ ← guard (bool_decide (policy_version s = "authorization/1")) access_denied;
  r ← _principal (sn_principal s) (clk 0%nat);
  _ ← guard (pr_epoch r =? principal_epoch s) access_denied;
  revalidate_documents (sn_principal s) (sn_action s) (sn_documents s) 1 clk.

(** [release]: the body runs inside the transaction, after [_revalidate]. *)
Definition release {W A E} (s : AuthorizationSnapshot) (clk : nat → Q) (embed : security_exn → E)
    (body : W → result E A * W) (d : sdb) (w : W) : result E A * W :=
  match _revalidate s clk d with
  | Ok _ => body w
  | Err e => (Err (embed e), w)
  end.

Definition revalidate (s : AuthorizationSnapshot) (clk : nat → Q) (d : sdb) : result security_exn unit :=
  (release s clk (λ e, e) (λ w : unit, (Ok tt, w)) d tt).1.

Definition bump_document (doc : uuid) (st : DocState → DocState) (e : Z) : sdb → sdb :=
  on_documents (update_where (doc_is doc) (λ r, {|
    dr_document := dr_document r; dr_tenant := dr_tenant r; dr_owner := dr_owner r;
    dr_epoch := dr_epoch r + e; dr_state := st (dr_state r) |})).

Definition share_tx (p : Principal) (doc grantee : uuid) (revoke : bool) (new_id eid : uuid)
    (clk : nat → Q) : stx uuid :=
  _ ← _document p DOCUMENT_SHARE doc (clk 0%nat);
  g ← gets (λ d, find_row (pr_is grantee) (principals d));
  _ ← guard (match g with
             | Some r => bool_decide (pr_tenant r = tenant (p_scope p)) && negb (pr_disabled r)
             | None => false end) access_denied;
  row ← gets (λ d, find_row (grant_of doc grantee) (grants d));
  match row with
  | Some r =>
      if Bool.eqb (bool_decide (gr_revoked r ≠ None)) revoke then mret (grant_id r)
      else
        (* the key exists: ON CONFLICT(document,grantee) updates [revoked] only *)
        _ ← modify (on_grants (update_where (grant_of doc grantee) (λ r, {|
              grant_id := grant_id r; gr_document := gr_document r; gr_grantee := gr_grantee r;
              gr_created := gr_created r;
              gr_revoked := if revoke then Some (clk 2%nat) else None |})));
        _ ← modify (bump_document doc id 1);
        _ ← _audit (Some p) (if revoke then "SHARE_REVOKE" else "SHARE_CREATE") (Some doc) "allowed"
              eid (clk 3%nat);
        mret (grant_id r)
  | None =>
      _ ← guard (negb revoke) access_denied;
      ids ← gets grants;
      _ ← guard (forallb (λ r, negb (bool_decide (grant_id r = new_id))) ids) unavailable;
      _ ← modify (on_grants (λ l, l ++ [{|
            grant_id := new_id; gr_document := doc; gr_grantee := grantee;
            gr_created := clk 1%nat; gr_revoked := None |}]));
      _ ← modify (bump_document doc id 1);
      _ ← _audit (Some p) "SHARE_CREATE" (Some doc) "allowed" eid (clk 3%nat);
      mret new_id
  end.

Definition share (p : Principal) (doc grantee : uuid) (revoke : bool) (new_id eid eid2 : uuid)
    (clk : nat → Q) : sdb → result security_exn uuid * sdb :=
  audited "SHARE_MUTATION" p (Some doc) (share_tx p doc grantee revoke new_id eid clk) eid2 (clk 9%nat).

Definition tombstone_tx (p : Principal) (doc eid eid' : uuid) (clk : nat → Q) : stx DocState :=
  _ ← _principal p (clk 0%nat);
  row ← gets (λ d, find_row (doc_is doc) (documents d));
  r ← expect row access_denied;
  _ ← guard (bool_decide (dr_tenant r = tenant (p_scope p))
             && (bool_decide (dr_owner r = owner (p_scope p)) || holds p TENANT_ADMIN)) access_denied;
  if bool_decide (dr_state r ≠ ACTIVE) then mret (dr_state r)
  else
    _ ← _audit (Some p) "DELETE_REQUESTED" (Some doc) "allowed" eid (clk 1%nat);
    _ ← modify (bump_document doc (λ _, TOMBSTONED) 1);
    _ ← modify (on_grants (update_where (λ g, bool_decide (gr_document g = doc)) (λ g, {|
          grant_id := grant_id g; gr_document := gr_document g; gr_grantee := gr_grantee g;
          gr_created := gr_created g;
          gr_revoked := Some (default (clk 2%nat) (gr_revoked g)) |})));
    _ ← _audit (Some p) "TOMBSTONED" (Some doc) "allowed" eid' (clk 3%nat);
    mret TOMBSTONED.

Definition tombstone (p : Principal) (doc eid eid' eid2 : uuid) (clk : nat → Q)
    : sdb → result security_exn DocState * sdb :=
  audited "TOMBSTONED" p (Some doc) (tombstone_tx p doc eid eid' clk) eid2 (clk 9%nat).

Definition purge_inventory : list string :=
  ["canonical_source"; "extraction"; "digestion_checkpoints"; "retained_publication_manifests";
   "retained_vectors"; "temporary_objects"; "conversation_references"].

Definition track_purge_tx (p : Principal) (doc eid : uuid) (clk : nat → Q) : stx purge_row :=
  _ ← _principal p (clk 0%nat);
  row ← gets (λ d, find_row (doc_is doc) (documents d));
  _ ← guard (holds p PUBLICATION_MANAGE
             && match row with
                | Some r => bool_decide (dr_tenant r = tenant (p_scope p))
                            && bool_decide (dr_state r ∈ [TOMBSTONED; PURGE_PENDING])
                | None => false end) access_denied;
  old ← gets (λ d, find_row (λ r, bool_decide (pu_document r = doc)) (purge d));
  let fresh := {| pu_document := doc; pu_inventory := purge_inventory; pu_state := "PURGE_PENDING";
                  pu_reason := "complete_reference_inventory_and_delete_adapters_required" |} in
  _ ← match old with Some _ => mret tt | None => modify (on_purge (λ l, l ++ [fresh])) end;
  _ ← modify (bump_document doc (λ _, PURGE_PENDING) 0);
  _ ← _audit (Some p) "PURGE_PENDING" (Some doc) "allowed" eid (clk 1%nat);
  mret (default fresh old).

Definition track_purge (p : Principal) (doc eid eid2 : uuid) (clk : nat → Q)
    : sdb → result security_exn purge_row * sdb :=
  audited "PURGE_PENDING" p (Some doc) (track_purge_tx p doc eid clk) eid2 (clk 9%nat).

Definition disable_principal_tx (p : Principal) (target eid : uuid) (clk : nat → Q) : stx unit :=
  _ ← _principal p (clk 0%nat);
  row ← gets (λ d, find_row (pr_is target) (principals d));
  _ ← guard (holds p TENANT_ADMIN
             && match row with Some r => bool_decide (pr_tenant r = tenant (p_scope p)) | None => false end)
        access_denied;
  _ ← modify (on_principals (update_where (λ r, pr_is target r && negb (pr_disabled r)) (λ r, {|
        pr_owner := pr_owner r; pr_tenant := pr_tenant r; pr_identity := pr_identity r;
        pr_permissions := pr_permissions r; pr_kind := pr_kind r; pr_epoch := pr_epoch r + 1;
        pr_disabled := true |})));
  _audit (Some p) "PRINCIPAL_DISABLE" (Some target) "allowed" eid (clk 1%nat).

Definition disable_principal (p : Principal) (target eid eid2 : uuid) (clk : nat → Q)
    : sdb → result security_exn unit * sdb :=
  audited "PRINCIPAL_DISABLE" p (Some target) (disable_principal_tx p target eid clk) eid2 (clk 9%nat).

End Authority.
