(* ===== verification/AuthorityTheorems.v ===== *)
(** * What the authority guarantees

    The invariant of its tables, isolation of tenants, snapshots that detect every
    change they depend on, and the audit log. *)

From stdpp Require Import base tactics list strings option sets relations.
From Stdlib Require Import ZArith NArith QArith Lia.
From S2P Require Import Prelude Json Contracts JobModels ProviderAdmission Authority.
From S2P Require Import Sample.

Local Open Scope Z_scope.

Inductive scall :=
| CRegister (p : Principal) (eid : uuid) (clk : nat → Q)
| CAuthentication (accepted : bool) (eid : uuid) (at_ : Q)
| CRegisterDocument (p : Principal) (doc : uuid) (s : Scope) (eid eid2 : uuid) (clk : nat → Q)
| CAuthorize (p : Principal) (a : Action) (r : resource) (eid : uuid) (clk : nat → Q)
| CSnapshot (p : Principal) (docs : list uuid) (a : Action) (eid : uuid) (clk : nat → Q)
| CShare (p : Principal) (doc grantee : uuid) (revoke : bool) (new_id eid eid2 : uuid) (clk : nat → Q)
| CTombstone (p : Principal) (doc eid eid' eid2 : uuid) (clk : nat → Q)
| CTrackPurge (p : Principal) (doc eid eid2 : uuid) (clk : nat → Q)
| CDisable (p : Principal) (target eid eid2 : uuid) (clk : nat → Q).

Section Facts.
Context `{Runtime}.
Variable audit_limit : Z.

Definition sexec (d : sdb) (c : scall) : sdb :=
  match c with
  | CRegister p e clk => (transaction (register audit_limit p e clk) d).2
  | CAuthentication b e t => (transaction (audit_authentication audit_limit b e t) d).2
  | CRegisterDocument p doc s e e2 clk => (register_document audit_limit p doc s e e2 clk d).2
  | CAuthorize p a r e clk => (authorize audit_limit p a r e clk d).2
  | CSnapshot p docs a e clk => (snapshot audit_limit p docs a e clk d).2
  | CShare p doc g rv n e e2 clk => (share audit_limit p doc g rv n e e2 clk d).2
  | CTombstone p doc e e' e2 clk => (tombstone audit_limit p doc e e' e2 clk d).2
  | CTrackPurge p doc e e2 clk => (track_purge audit_limit p doc e e2 clk d).2
  | CDisable p t e e2 clk => (disable_principal audit_limit p t e e2 clk d).2
  end.

(** Calls in the order of their transactions, from a fresh database. *)
Definition srun (cs : list scall) : sdb := foldl sexec empty_sdb cs.

(** ** The effects *)

Definition role_change (p : Principal) (r : principal_row) : principal_row := {|
  pr_owner := pr_owner r; pr_tenant := pr_tenant r; pr_identity := pr_identity r;
  pr_permissions := _permissions p; pr_kind := p_kind p; pr_epoch := pr_epoch r + 1;
  pr_disabled := pr_disabled r |}.

Definition disabled_row (r : principal_row) : principal_row := {|
  pr_owner := pr_owner r; pr_tenant := pr_tenant r; pr_identity := pr_identity r;
  pr_permissions := pr_permissions r; pr_kind := pr_kind r; pr_epoch := pr_epoch r + 1;
  pr_disabled := true |}.

Definition set_revoked (f : grant_row → option Q) (g : grant_row) : grant_row := {|
  grant_id := grant_id g; gr_document := gr_document g; gr_grantee := gr_grantee g;
  gr_created := gr_created g; gr_revoked := f g |}.

Definition bumped (st : DocState → DocState) (e : Z) (r : doc_row) : doc_row := {|
  dr_document := dr_document r; dr_tenant := dr_tenant r; dr_owner := dr_owner r;
  dr_epoch := dr_epoch r + e; dr_state := st (dr_state r) |}.

(** Principals, documents and grants before and after. *)
Inductive moved : list principal_row * list doc_row * list grant_row →
                  list principal_row * list doc_row * list grant_row → Prop :=
| mv_same t : moved t t
| mv_role ps ds gs p : moved (ps, ds, gs) (update_where (pr_is (owner (p_scope p))) (role_change p) ps, ds, gs)
| mv_principal ps ds gs r :
    (∀ x, x ∈ ps → pr_owner x ≠ pr_owner r) → moved (ps, ds, gs) (ps ++ [r], ds, gs)
| mv_document ps ds gs r o :
    (∀ x, x ∈ ds → dr_document x ≠ dr_document r) → o ∈ ps → pr_owner o = dr_owner r →
    pr_tenant o = dr_tenant r → dr_state r = ACTIVE → moved (ps, ds, gs) (ps, ds ++ [r], gs)
| mv_share ps ds gs r g gs' o :
    r ∈ ds → dr_state r = ACTIVE → gr_document g = dr_document r →
    o ∈ ps → pr_owner o = gr_grantee g → pr_tenant o = dr_tenant r →
    (gs' = gs ++ [g] ∧ (∀ x, x ∈ gs → (gr_document x, gr_grantee x) ≠ (gr_document g, gr_grantee g))
     ∨ ∃ rv, gs' = update_where (grant_of (gr_document g) (gr_grantee g)) (set_revoked (λ _, rv)) gs) →
    moved (ps, ds, gs) (ps, update_where (doc_is (dr_document r)) (bumped id 1) ds, gs')
| mv_tombstone ps ds gs doc now :
    moved (ps, ds, gs)
      (ps, update_where (doc_is doc) (bumped (λ _, TOMBSTONED) 1) ds,
       update_where (λ g, bool_decide (gr_document g = doc))
         (set_revoked (λ g, Some (default now (gr_revoked g)))) gs)
| mv_purge ps ds gs r :
    r ∈ ds → dr_state r ∈ [TOMBSTONED; PURGE_PENDING] →
    moved (ps, ds, gs) (ps, update_where (doc_is (dr_document r)) (bumped (λ _, PURGE_PENDING) 0) ds, gs)
| mv_disable ps ds gs target :
    moved (ps, ds, gs)
      (update_where (λ r, pr_is target r && negb (pr_disabled r)) disabled_row ps, ds, gs).

Definition tables (d : sdb) := (principals d, documents d, grants d).

(** The log grows by one event, within its capacity. *)
Inductive audit_step : list audit_row → list audit_row → Prop :=
| audit_snoc l r :
    len l < audit_limit → (∀ x, x ∈ l → au_event x ≠ au_event r) → audit_step l (l ++ [r]).

Definition effect (d d' : sdb) : Prop :=
  moved (tables d) (tables d') ∧ rtc audit_step (audit d) (audit d').

Lemma effect_refl d : effect d d.
Proof. split; [constructor|done]. Qed.

Lemma audit_Ok p a r o eid at_ d x d' :
  _audit audit_limit p a r o eid at_ d = Ok (x, d') →
  len (audit d) < audit_limit ∧ (∀ x, x ∈ audit d → au_event x ≠ eid) ∧
  tables d' = tables d ∧ purge d' = purge d ∧
  audit d' = audit d ++ [{|
    au_event := eid; au_at := at_; au_principal := (λ p, owner (p_scope p)) <$> p;
    au_tenant := (λ p, tenant (p_scope p)) <$> p; au_action := a; au_resource := r;
    au_outcome := o; au_policy := "authorization/1" |}].
Proof.
  unfold _audit. intros E. apply tx_bind_Ok in E as (l & d1 & E1 & E). tx_inv E1.
  apply tx_bind_Ok in E as ([] & d2 & E2 & E). tx_inv E2.
  apply tx_bind_Ok in E as ([] & d3 & E3 & E). tx_inv E3. tx_inv E.
  apply Z.ltb_lt in E2. split_and!; try done. intros x' Hx.
  apply (proj1 (forallb_elem _ _)) with (x := x') in E3; [|done].
  by apply negb_true_iff, bool_decide_eq_false in E3.
Qed.

Lemma audit_effect p a r o eid at_ d x d' :
  _audit audit_limit p a r o eid at_ d = Ok (x, d') → effect d d'.
Proof.
  intros (Hl & Hf & Et & _ & Ea)%audit_Ok. split; [rewrite Et; constructor|].
  rewrite Ea. apply rtc_once. by constructor.
Qed.

(** An audit row after a change of the tables. *)
Lemma effect_audit d d1 p a r o eid at_ x d' :
  _audit audit_limit p a r o eid at_ d1 = Ok (x, d') →
  moved (tables d) (tables d1) → audit d1 = audit d → effect d d'.
Proof.
  intros (Hl & Hf & Et & _ & Ea)%audit_Ok Hm Ha. split; [by rewrite Et|].
  rewrite Ea. rewrite Ha in *. apply rtc_once. by constructor.
Qed.

Lemma principal_Ok p now d r d' :
  _principal p now d = Ok (r, d') →
  d' = d ∧ (now < inject_Z (expires p))%Q ∧
  find_row (pr_is (owner (p_scope p))) (principals d) = Some r ∧ r ∈ principals d ∧
  pr_owner r = owner (p_scope p) ∧ pr_disabled r = false ∧ pr_tenant r = tenant (p_scope p) ∧
  pr_identity r = _identity p ∧ pr_permissions r = _permissions p ∧ pr_kind r = p_kind p.
Proof.
  unfold _principal. intros E. apply tx_bind_Ok in E as ([] & d1 & E1 & E). tx_inv E1.
  apply tx_bind_Ok in E as (row & d2 & E2 & E). tx_inv E2.
  apply tx_bind_Ok in E as (r' & d3 & E3 & E). tx_inv E3.
  apply tx_bind_Ok in E as ([] & d4 & E4 & E). tx_inv E4. tx_inv E.
  apply qlt_iff in E1. pose proof E3 as Ef. apply find_row_Some in Ef as [Hr Eo%bool_decide_eq_true].
  unfold text_eqb in E4. rewrite !andb_true_iff, !bool_decide_eq_true, negb_true_iff in E4.
  destruct E4 as ((((? & ?) & ?) & ?) & ?). done.
Qed.

Lemma document_Ok p a doc now d r d' :
  _document p a doc now d = Ok (r, d') →
  d' = d ∧ (∃ pr, _principal p now d = Ok (pr, d)) ∧
  find_row (doc_is doc) (documents d) = Some r ∧ r ∈ documents d ∧ dr_document r = doc ∧
  dr_tenant r = tenant (p_scope p) ∧ dr_state r = ACTIVE ∧ document_action a = true ∧
  (dr_owner r = owner (p_scope p) ∨ TENANT_ADMIN ∈ permissions p ∨
   a ∈ [DOCUMENT_READ; DOCUMENT_ANALYZE] ∧
   ∃ g, g ∈ grants d ∧ gr_document g = doc ∧ gr_grantee g = owner (p_scope p) ∧ gr_revoked g = None).
Proof.
  unfold _document. intros E. apply tx_bind_Ok in E as (pr & d1 & E1 & E).
  pose proof (principal_Ok _ _ _ _ _ E1) as (-> & _).
  apply tx_bind_Ok in E as (row & d2 & E2 & E). tx_inv E2.
  apply tx_bind_Ok in E as (r' & d3 & E3 & E). tx_inv E3.
  apply tx_bind_Ok in E as ([] & d4 & E4 & E). tx_inv E4.
  apply tx_bind_Ok in E as ([] & d5 & E5 & E). tx_inv E5.
  pose proof E3 as Ef. apply find_row_Some in Ef as [Hr Eo%bool_decide_eq_true].
  rewrite andb_true_iff, !bool_decide_eq_true in E4. destruct E4 as [Et Es].
  destruct (bool_decide (dr_owner r' = owner (p_scope p)) || holds p TENANT_ADMIN) eqn:Eh.
  - tx_inv E. unfold holds in Eh. rewrite orb_true_iff, !bool_decide_eq_true in Eh.
    split_and!; eauto. destruct Eh; auto.
  - apply tx_bind_Ok in E as (live & d6 & E6 & E). tx_inv E6.
    apply tx_bind_Ok in E as ([] & d7 & E7 & E). tx_inv E7. tx_inv E.
    apply andb_true_iff in E7 as [E7%bool_decide_eq_true E8].
    apply existsb_exists in E8 as (g & Hg & Eg). unfold grant_of in Eg.
    rewrite !andb_true_iff, !bool_decide_eq_true in Eg. destruct Eg as [[? ?] ?].
    split_and!; eauto. right. right. split; [done|]. exists g. split_and!; try done.
    by apply list_elem_of_In.
Qed.

(** ** Each call *)

Lemma transaction_effect {A} (m : stx A) d :
  (∀ a d', m d = Ok (a, d') → effect d d') → effect d (transaction m d).2.
Proof.
  intros Hm. unfold transaction. destruct (m d) as [[a d']|] eqn:E; [by eapply Hm|apply effect_refl].
Qed.

Lemma audited_effect {A} action p r (m : stx A) eid at_ d :
  (∀ a d', m d = Ok (a, d') → effect d d') → effect d (audited audit_limit action p r m eid at_ d).2.
Proof.
  intros Hm. unfold audited, transaction. destruct (m d) as [[a d']|e] eqn:E; [by eapply Hm|].
  destruct (_audit _ _ _ _ _ _ _ d) as [[x d']|] eqn:Ea; [|apply effect_refl].
  by eapply audit_effect.
Qed.

Lemma register_effect p eid clk d x d' : register audit_limit p eid clk d = Ok (x, d') → effect d d'.
Proof.
  unfold register. intros E. apply tx_bind_Ok in E as ([] & d1 & E1 & E). tx_inv E1.
  apply tx_bind_Ok in E as (row & d2 & E2 & E). tx_inv E2.
  apply tx_bind_Ok in E as ([] & d3 & E3 & E).
  destruct (find_row _ _) as [r|] eqn:Ef.
  - apply tx_bind_Ok in E3 as ([] & d4 & E4 & E3). tx_inv E4.
    destruct (bool_decide (pr_permissions r = _) && _); tx_inv E3; [by eapply audit_effect|].
    eapply effect_audit; [exact E| |done]. apply mv_role.
  - tx_inv E3. eapply effect_audit; [exact E| |done]. apply mv_principal. intros x0 Hx. simpl.
    intros Eo. apply (find_row_None _ _ x0) in Ef; [|done]. by apply bool_decide_eq_false in Ef.
Qed.

Lemma register_document_effect p doc s eid clk d x d' :
  register_document_tx audit_limit p doc s eid clk d = Ok (x, d') → effect d d'.
Proof.
  unfold register_document_tx. intros E. apply tx_bind_Ok in E as (pr & d1 & E1 & E).
  apply principal_Ok in E1 as (-> & _). apply tx_bind_Ok in E as ([] & d2 & E2 & E). tx_inv E2.
  apply tx_bind_Ok in E as (o & d3 & E3 & E). tx_inv E3.
  apply tx_bind_Ok in E as ([] & d4 & E4 & E). tx_inv E4.
  apply tx_bind_Ok in E as (row & d5 & E5 & E). tx_inv E5.
  destruct (find_row (pr_is _) _) as [o|] eqn:Eo; [|done].
  apply find_row_Some in Eo as [Ho Eo%bool_decide_eq_true]. apply bool_decide_eq_true in E4.
  destruct (find_row (doc_is _) _) as [r|] eqn:Ef; [tx_inv E; apply effect_refl|].
  apply tx_bind_Ok in E as ([] & d6 & E6 & E). tx_inv E6.
  eapply effect_audit; [exact E| |done]. eapply (mv_document _ _ _ _ o); try done. intros x0 Hx Ed.
  apply (find_row_None _ _ x0) in Ef; [|done]. by apply bool_decide_eq_false in Ef.
Qed.

Lemma authorize_checks_same p a r clk d x d' : authorize_checks p a r clk d = Ok (x, d') → d' = d.
Proof.
  unfold authorize_checks. intros E. apply tx_bind_Ok in E as (pr & d1 & E1 & E).
  apply principal_Ok in E1 as (-> & _). case_bool_decide; [by tx_inv E|].
  case_bool_decide; [by tx_inv E|]. destruct r as [|doc|s].
  - apply tx_bind_Ok in E as (pr' & d2 & E2 & E). tx_inv E.
  - apply tx_bind_Ok in E as (r & d2 & E2 & E). apply document_Ok in E2 as (-> & _). by tx_inv E.
  - apply tx_bind_Ok in E as (pr' & d2 & E2 & E). tx_inv E.
Qed.

Lemma snapshot_documents_same p a docs i clk d l d' :
  snapshot_documents p a docs i clk d = Ok (l, d') → d' = d.
Proof.
  revert i l d'. induction docs as [|doc docs IH]; intros i l d' E; simpl in E; [by tx_inv E|].
  apply tx_bind_Ok in E as (r & d1 & E1 & E). apply document_Ok in E1 as (-> & _).
  apply tx_bind_Ok in E as (l' & d2 & E2 & E). apply IH in E2 as ->. by tx_inv E.
Qed.

Lemma take_snapshot_Ok p docs a clk d s d' :
  take_snapshot p docs a clk d = Ok (s, d') →
  d' = d ∧ ∃ r l, _principal p (clk 1%nat) d = Ok (r, d) ∧ snapshot_documents p a docs 2 clk d = Ok (l, d) ∧
    s = {| sn_principal := p; principal_epoch := pr_epoch r; sn_documents := l; sn_action := a;
           policy_version := "authorization/1" |}.
Proof.
  unfold take_snapshot. intros E. apply tx_bind_Ok in E as (r & d1 & E1 & E).
  pose proof (principal_Ok _ _ _ _ _ E1) as (-> & _). apply tx_bind_Ok in E as (l & d2 & E2 & E).
  pose proof (snapshot_documents_same _ _ _ _ _ _ _ _ E2) as ->. tx_inv E. eauto 10.
Qed.

(** A read-only check whose outcome is audited. *)
Lemma attempt_audit {A} (m : stx A) p act res o eid at_ d x d' :
  (∀ a d', m d = Ok (a, d') → d' = d) →
  (y ← attempt m; _ ← _audit audit_limit p act res (o y) eid at_; mret y) d = Ok (x, d') →
  _audit audit_limit p act res (o x) eid at_ d = Ok (tt, d') ∧
  match m d with Ok (a, _) => x = Ok a | Err e => x = Err e end.
Proof.
  intros Hm E. apply tx_bind_Ok in E as (y & d1 & E1 & E).
  assert (d1 = d ∧ match m d with Ok (a, _) => y = Ok a | Err e => y = Err e end) as [-> Hy].
  { unfold attempt in E1. destruct (m d) as [[a d2]|e] eqn:Em; injection E1 as <- <-; [|done].
    split; [by eapply Hm|done]. }
  apply tx_bind_Ok in E as ([] & d2 & E2 & E). tx_inv E. done.
Qed.

Lemma authorize_effect p a r eid clk d : effect d (authorize audit_limit p a r eid clk d).2.
Proof.
  unfold authorize. set (m := _ ≫= _). pose proof (transaction_effect m d) as Hm.
  destruct (transaction m d) as [[[[]|]|] d'] eqn:Et; apply Hm; intros x d2 E;
    apply attempt_audit in E as [Ea _]; try (by eapply audit_effect);
    intros; by eapply authorize_checks_same.
Qed.

Lemma snapshot_effect p docs a eid clk d : effect d (snapshot audit_limit p docs a eid clk d).2.
Proof.
  unfold snapshot. destruct (_ && _); [|apply effect_refl].
  set (m := _ ≫= _). pose proof (transaction_effect m d) as Hm.
  destruct (transaction m d) as [[[|]|] d'] eqn:Et; apply Hm; intros x d2 E;
    apply attempt_audit in E as [Ea _]; try (by eapply audit_effect);
    intros ? ? F; by apply take_snapshot_Ok in F as [-> _].
Qed.

Lemma share_effect p doc g rv n eid clk d x d' :
  share_tx audit_limit p doc g rv n eid clk d = Ok (x, d') → effect d d'.
Proof.
  unfold share_tx. intros E. apply tx_bind_Ok in E as (r & d1 & E1 & E).
  apply document_Ok in E1 as (-> & _ & _ & Hr & Ed & Et & Es & _ & _).
  apply tx_bind_Ok in E as (o & d2 & E2 & E). tx_inv E2.
  apply tx_bind_Ok in E as ([] & d3 & E3 & E). tx_inv E3.
  destruct (find_row (pr_is g) _) as [o|] eqn:Eo; [|done].
  apply find_row_Some in Eo as [Ho Eo%bool_decide_eq_true].
  apply andb_true_iff in E3 as [Eten%bool_decide_eq_true _].
  apply tx_bind_Ok in E as (row & d4 & E4 & E). tx_inv E4. subst doc g.
  destruct (find_row (grant_of _ _) _) as [gr|] eqn:Ef.
  - apply find_row_Some in Ef as [Hg Eg]. unfold grant_of in Eg.
    rewrite andb_true_iff, !bool_decide_eq_true in Eg. destruct Eg as [Eg1 Eg2].
    destruct (Bool.eqb _ _); [tx_inv E; apply effect_refl|].
    apply tx_bind_Ok in E as ([] & d5 & E5 & E). tx_inv E5.
    apply tx_bind_Ok in E as ([] & d6 & E6 & E). tx_inv E6.
    apply tx_bind_Ok in E as ([] & d7 & E7 & E). tx_inv E.
    eapply effect_audit; [exact E7| |done].
    eapply (mv_share _ _ _ r gr _ o); try done; [congruence|]. right. rewrite Eg1, Eg2. by eexists.
  - apply tx_bind_Ok in E as ([] & d5 & E5 & E). tx_inv E5.
    apply tx_bind_Ok in E as (ids & d6 & E6 & E). tx_inv E6.
    apply tx_bind_Ok in E as ([] & d7 & E7 & E). tx_inv E7.
    apply tx_bind_Ok in E as ([] & d8 & E8 & E). tx_inv E8.
    apply tx_bind_Ok in E as ([] & d9 & E9 & E). tx_inv E9.
    apply tx_bind_Ok in E as ([] & d10 & E10 & E). tx_inv E.
    eapply effect_audit; [exact E10| |done].
    eapply (mv_share _ _ _ r {| grant_id := n; gr_document := dr_document r; gr_grantee := pr_owner o;
      gr_created := clk 1%nat; gr_revoked := None |} _ o); try done; [congruence|]. left. split; [done|].
    intros x Hx [= F1 F2]. apply (find_row_None _ _ x) in Ef; [|done]. unfold grant_of in Ef.
    by rewrite F1, F2, !bool_decide_eq_true_2 in Ef.
Qed.

Lemma tombstone_effect p doc eid eid' clk d x d' :
  tombstone_tx audit_limit p doc eid eid' clk d = Ok (x, d') → effect d d'.
Proof.
  unfold tombstone_tx. intros E. apply tx_bind_Ok in E as (pr & d1 & E1 & E).
  apply principal_Ok in E1 as (-> & _). apply tx_bind_Ok in E as (row & d2 & E2 & E). tx_inv E2.
  apply tx_bind_Ok in E as (r & d3 & E3 & E). tx_inv E3.
  apply tx_bind_Ok in E as ([] & d4 & E4 & E). tx_inv E4.
  case_bool_decide; [tx_inv E; apply effect_refl|].
  apply tx_bind_Ok in E as ([] & d5 & E5 & E). apply audit_Ok in E5 as (Hl5 & Hf5 & Et5 & _ & Ea5).
  apply tx_bind_Ok in E as ([] & d6 & E6 & E). tx_inv E6.
  apply tx_bind_Ok in E as ([] & d7 & E7 & E). tx_inv E7.
  apply tx_bind_Ok in E as ([] & d8 & E8 & E). tx_inv E. apply audit_Ok in E8 as (Hl8 & Hf8 & Et8 & _ & Ea8).
  split.
  - rewrite Et8, <-Et5. apply mv_tombstone.
  - rewrite Ea8. cbn [audit on_grants on_documents bump_document] in *. eapply (rtc_l _ _ (audit d5)).
    + rewrite Ea5. by constructor.
    + apply rtc_once. by constructor.
Qed.

Lemma track_purge_effect p doc eid clk d x d' :
  track_purge_tx audit_limit p doc eid clk d = Ok (x, d') → effect d d'.
Proof.
  unfold track_purge_tx. intros E. apply tx_bind_Ok in E as (pr & d1 & E1 & E).
  apply principal_Ok in E1 as (-> & _). apply tx_bind_Ok in E as (row & d2 & E2 & E). tx_inv E2.
  apply tx_bind_Ok in E as ([] & d3 & E3 & E). tx_inv E3.
  apply tx_bind_Ok in E as (old & d4 & E4 & E). tx_inv E4. cbv zeta in E.
  apply tx_bind_Ok in E as ([] & d5 & E5 & E).
  apply tx_bind_Ok in E as ([] & d6 & E6 & E). tx_inv E6.
  apply tx_bind_Ok in E as ([] & d7 & E7 & E). tx_inv E.
  apply andb_true_iff in E3 as [_ E3]. destruct (find_row (doc_is doc) _) as [r|] eqn:Ef; [|done].
  apply find_row_Some in Ef as [Hr <-%bool_decide_eq_true].
  apply andb_true_iff in E3 as [_ Es%bool_decide_eq_true].
  eapply effect_audit; [exact E7| |]; destruct (find_row _ (purge d)); tx_inv E5; try done; by apply mv_purge.
Qed.

Lemma disable_effect p target eid clk d x d' :
  disable_principal_tx audit_limit p target eid clk d = Ok (x, d') → effect d d'.
Proof.
  unfold disable_principal_tx. intros E. apply tx_bind_Ok in E as (pr & d1 & E1 & E).
  apply principal_Ok in E1 as (-> & _). apply tx_bind_Ok in E as (row & d2 & E2 & E). tx_inv E2.
  apply tx_bind_Ok in E as ([] & d3 & E3 & E). tx_inv E3.
  apply tx_bind_Ok in E as ([] & d4 & E4 & E). tx_inv E4.
  eapply effect_audit; [exact E| |done]. apply mv_disable.
Qed.

Lemma sexec_effect d c : effect d (sexec d c).
Proof.
  destruct c; simpl.
  - apply transaction_effect. intros ??. apply register_effect.
  - apply transaction_effect. intros ?? E. by eapply audit_effect.
  - apply audited_effect. intros ??. apply register_document_effect.
  - apply authorize_effect.
  - apply snapshot_effect.
  - apply audited_effect. intros ??. apply share_effect.
  - apply audited_effect. intros ??. apply tombstone_effect.
  - apply audited_effect. intros ??. apply track_purge_effect.
  - apply audited_effect. intros ??. apply disable_effect.
Qed.

End Facts.

(** ** The invariant *)

Definition grant_key (g : grant_row) : uuid * uuid := (gr_document g, gr_grantee g).

Record tables_ok (t : list principal_row * list doc_row * list grant_row) : Prop := {
  to_principals : NoDup (pr_owner <$> t.1.1);
  to_documents : NoDup (dr_document <$> t.1.2);
  to_grants : NoDup (grant_key <$> t.2);
  (** a document belongs to a registered principal of its tenant *)
  to_owner : ∀ r, r ∈ t.1.2 → ∃ o, o ∈ t.1.1 ∧ pr_owner o = dr_owner r ∧ pr_tenant o = dr_tenant r;
  (** a grant shares a document within its tenant, and is revoked once the document is gone *)
  to_grant : ∀ g, g ∈ t.2 → ∃ r o, r ∈ t.1.2 ∧ dr_document r = gr_document g ∧ o ∈ t.1.1 ∧
    pr_owner o = gr_grantee g ∧ pr_tenant o = dr_tenant r ∧
    (dr_state r ≠ ACTIVE → gr_revoked g ≠ None) }.

(** Rows keep their keys under the updates of the code. *)
Lemma principals_keep q (f : principal_row → principal_row) ps o t :
  (∀ r, pr_owner (f r) = pr_owner r ∧ pr_tenant (f r) = pr_tenant r) →
  (∃ x, x ∈ ps ∧ pr_owner x = o ∧ pr_tenant x = t) →
  ∃ x, x ∈ update_where q f ps ∧ pr_owner x = o ∧ pr_tenant x = t.
Proof.
  intros Hf (x & Hx & <- & <-). exists (if q x then f x else x). split.
  - apply elem_of_update_where. eauto.
  - destruct (q x); [apply Hf|done].
Qed.

Lemma update_principals_ok q (f : principal_row → principal_row) ps ds gs :
  (∀ r, pr_owner (f r) = pr_owner r ∧ pr_tenant (f r) = pr_tenant r) →
  tables_ok (ps, ds, gs) → tables_ok (update_where q f ps, ds, gs).
Proof.
  intros Hf [I1 I2 I3 I4 I5]. split; try done.
  - cbn [fst snd]. rewrite update_where_fmap; [done|]. intros x _ _. apply Hf.
  - intros r Hr. cbn [fst]. apply principals_keep; [done|]. by apply I4.
  - intros g Hg. destruct (I5 g Hg) as (r & o & Hr & Ed & Ho & Eo & Et & Ha).
    destruct (principals_keep q f ps (gr_grantee g) (dr_tenant r) Hf) as (x & Hx & E1 & E2); [eauto|].
    exists r, x. done.
Qed.

Lemma update_documents_ok (q : doc_row → bool) (f : doc_row → doc_row) ps ds gs gs' :
  (∀ r, dr_document (f r) = dr_document r ∧ dr_tenant (f r) = dr_tenant r ∧ dr_owner (f r) = dr_owner r) →
  NoDup (grant_key <$> gs') →
  (∀ g, g ∈ gs' → ∃ r o, r ∈ ds ∧ dr_document r = gr_document g ∧ o ∈ ps ∧
    pr_owner o = gr_grantee g ∧ pr_tenant o = dr_tenant r ∧
    (dr_state (if q r then f r else r) ≠ ACTIVE → gr_revoked g ≠ None)) →
  tables_ok (ps, ds, gs) → tables_ok (ps, update_where q f ds, gs').
Proof.
  intros Hf Hnd Hgs [I1 I2 I3 I4 I5]. split; try done; cbn [fst snd] in *.
  - rewrite update_where_fmap; [done|]. intros x _ _. apply Hf.
  - intros r (x & Hx & ->)%elem_of_update_where. destruct (I4 x Hx) as (o & Ho & E1 & E2).
    exists o. destruct (Hf x) as (_ & F1 & F2). destruct (q x); split_and!; congruence.
  - intros g Hg. destruct (Hgs g Hg) as (r & o & Hr & E1 & Ho & E2 & E3 & E4).
    exists (if q r then f r else r), o. destruct (Hf r) as (F0 & F1 & F2).
    split; [apply elem_of_update_where; eauto|]. destruct (q r); split_and!; try done; congruence.
Qed.

Lemma set_revoked_keys f l q :
  grant_key <$> update_where q (set_revoked f) l
  = grant_key <$> l.
Proof. by rewrite update_where_fmap. Qed.

Lemma bumped_keys st e r :
  dr_document (bumped st e r) = dr_document r ∧ dr_tenant (bumped st e r) = dr_tenant r ∧
  dr_owner (bumped st e r) = dr_owner r.
Proof. done. Qed.

Lemma moved_ok t t' : moved t t' → tables_ok t → tables_ok t'.
Proof.
  intros [u|ps ds gs p|ps ds gs r Hf|ps ds gs r o Hf Ho Eo Et Es
         |ps ds gs r g gs' o Hr Es Eg Ho Eo Et Hgs|ps ds gs doc now|ps ds gs r Hr Hs|ps ds gs target] Hok.
  - done.
  - by apply update_principals_ok.
  - destruct Hok as [I1 I2 I3 I4 I5]. split; try done; cbn [fst snd] in *.
    + apply NoDup_snoc_key; [done|]. done.
    + intros x Hx. destruct (I4 x Hx) as (o & Ho & ?). exists o. set_solver.
    + intros x Hx. destruct (I5 x Hx) as (r' & o & ? & ? & Ho & ?). exists r', o. set_solver.
  - destruct Hok as [I1 I2 I3 I4 I5]. split; try done; cbn [fst snd] in *.
    + by apply NoDup_snoc_key.
    + intros x [Hx| ->%list_elem_of_singleton]%elem_of_app; [by apply I4|eauto].
    + intros x Hx. destruct (I5 x Hx) as (r' & o' & ? & ?). exists r', o'. set_solver.
  - pose proof Hok as [I1 I2 I3 I4 I5]. cbn [fst snd] in *.
    apply (update_documents_ok _ _ _ _ gs); [apply bumped_keys| | |done];
      destruct Hgs as [[-> Hf]|[rv ->]].
    + by apply (NoDup_snoc_key grant_key).
    + by rewrite set_revoked_keys.
    + intros x [Hx| ->%list_elem_of_singleton]%elem_of_app.
      * destruct (I5 x Hx) as (r' & o' & ? & ? & ? & ? & ? & ?). exists r', o'.
        split_and!; try done. by destruct (doc_is _ r').
      * exists r, o. split_and!; try done. by destruct (doc_is _ r).
    + intros x (y & Hy & ->)%elem_of_update_where.
      destruct (I5 y Hy) as (r' & o' & Hr' & E1 & Ho' & E2 & E3 & E4). exists r', o'.
      destruct (grant_of _ _ y) eqn:Egr; simpl; [|split_and!; try done; by destruct (doc_is _ r')].
      apply andb_true_iff in Egr as [F1%bool_decide_eq_true _].
      assert (r' = r) as -> by (eapply (elem_of_unique dr_document); [done|done|done|congruence]).
      split_and!; try done. intros Hne. exfalso. apply Hne. by destruct (doc_is _ r).
  - pose proof Hok as [I1 I2 I3 I4 I5]. cbn [fst snd] in *.
    apply (update_documents_ok _ _ _ _ gs); [apply bumped_keys|by rewrite set_revoked_keys| |done].
    intros x (y & Hy & ->)%elem_of_update_where.
    destruct (I5 y Hy) as (r' & o' & Hr' & E1 & Ho' & E2 & E3 & E4). exists r', o'.
    destruct (bool_decide (gr_document y = doc)) eqn:Ed; simpl; [split_and!; done|].
    split_and!; try done. unfold doc_is. apply bool_decide_eq_false in Ed.
    rewrite bool_decide_eq_false_2; [done|congruence].
  - pose proof Hok as [I1 I2 I3 I4 I5]. cbn [fst snd] in *.
    apply (update_documents_ok _ _ _ _ gs); [apply bumped_keys|done| |done]. intros g Hg.
    destruct (I5 g Hg) as (r' & o' & Hr' & E1 & Ho' & E2 & E3 & E4). exists r', o'. split_and!; try done.
    destruct (doc_is (dr_document r) r') eqn:Ed; [|done]. apply bool_decide_eq_true in Ed.
    assert (r' = r) as -> by (by eapply (elem_of_unique dr_document)). intros _. apply E4.
    intros F. rewrite F in Hs. set_solver.
  - by apply update_principals_ok.
Qed.

(** ** Evolution *)

Definition grants_on (doc : uuid) (gs : list grant_row) : list grant_row :=
  select (λ g, bool_decide (gr_document g = doc)) gs.

(** A principal keeps its identity; a different row has a larger epoch. *)
Definition pr_later (r r' : principal_row) : Prop :=
  pr_owner r' = pr_owner r ∧ pr_tenant r' = pr_tenant r ∧ pr_identity r' = pr_identity r ∧
  (r' = r ∨ pr_epoch r < pr_epoch r') ∧ (pr_disabled r = true → pr_disabled r' = true).

(** A document keeps its owner; whatever changes about an active document or its grants
    raises its epoch; a deleted document stays deleted. *)
Definition doc_later (gs gs' : list grant_row) (r r' : doc_row) : Prop :=
  dr_document r' = dr_document r ∧ dr_tenant r' = dr_tenant r ∧ dr_owner r' = dr_owner r ∧
  (dr_epoch r < dr_epoch r' ∨
   dr_epoch r' = dr_epoch r ∧ (dr_state r = ACTIVE → r' = r) ∧
   grants_on (dr_document r) gs' = grants_on (dr_document r) gs) ∧
  (dr_state r ≠ ACTIVE → dr_state r' ≠ ACTIVE).

Record later (t t' : list principal_row * list doc_row * list grant_row) : Prop := {
  la_principals : ∀ r, r ∈ t.1.1 → ∃ r', r' ∈ t'.1.1 ∧ pr_later r r';
  la_documents : ∀ r, r ∈ t.1.2 → ∃ r', r' ∈ t'.1.2 ∧ doc_later t.2 t'.2 r r' }.

Lemma pr_later_refl r : pr_later r r.
Proof. unfold pr_later. auto 6. Qed.

Lemma doc_later_refl gs r : doc_later gs gs r r.
Proof. unfold doc_later. auto 10. Qed.

#[export] Instance later_preorder : PreOrder later.
Proof.
  split.
  - intros [[ps ds] gs]. split; intros r Hr; exists r; (split; [done|]);
      [apply pr_later_refl|apply doc_later_refl].
  - intros t1 t2 t3 [P1 D1] [P2 D2]. split.
    + intros r Hr. destruct (P1 r Hr) as (r1 & Hr1 & A1 & A2 & A3 & A4 & A5).
      destruct (P2 r1 Hr1) as (r2 & Hr2 & B1 & B2 & B3 & B4 & B5). exists r2. split; [done|].
      unfold pr_later. split_and!; try congruence; [|auto].
      destruct A4 as [->|], B4 as [->|]; auto; right; lia.
    + intros r Hr. destruct (D1 r Hr) as (r1 & Hr1 & A1 & A2 & A3 & A4 & A5).
      destruct (D2 r1 Hr1) as (r2 & Hr2 & B1 & B2 & B3 & B4 & B5). exists r2. split; [done|].
      unfold doc_later. split_and!; try congruence; [|auto].
      destruct A4 as [|(E1 & E2 & E3)], B4 as [|(F1 & F2 & F3)]; try (left; lia).
      right. rewrite A1 in F3. split_and!; try congruence.
      intros Hs. rewrite <-(E2 Hs). apply F2. by rewrite (E2 Hs).
Qed.

Lemma later_principals (q : principal_row → bool) f ps ds gs :
  (∀ r, r ∈ ps → q r = true → pr_later r (f r)) → later (ps, ds, gs) (update_where q f ps, ds, gs).
Proof.
  intros Hf. split; intros r Hr; simpl in *.
  - exists (if q r then f r else r). split; [apply elem_of_update_where; eauto|].
    destruct (q r) eqn:Eq; [by apply Hf|apply pr_later_refl].
  - exists r. split; [done|apply doc_later_refl].
Qed.

Lemma later_documents (q : doc_row → bool) f ps ds gs gs' :
  (∀ r, r ∈ ds → doc_later gs gs' r (if q r then f r else r)) →
  later (ps, ds, gs) (ps, update_where q f ds, gs').
Proof.
  intros Hf. split; intros r Hr; simpl in *.
  - exists r. split; [done|apply pr_later_refl].
  - exists (if q r then f r else r). split; [apply elem_of_update_where; eauto|auto].
Qed.

Lemma later_snoc ps ds gs x y : later (ps, ds, gs) (ps ++ x, ds ++ y, gs).
Proof.
  split; intros r Hr; exists r; simpl; (split; [set_solver|]);
    [apply pr_later_refl|apply doc_later_refl].
Qed.

Lemma grants_on_other doc (q : grant_row → bool) f gs :
  (∀ g, gr_document (f g) = gr_document g) →
  (∀ g, gr_document g = doc → q g = false) →
  grants_on doc (update_where q f gs) = grants_on doc gs.
Proof.
  intros Hf Hq. unfold grants_on, update_where. rewrite select_fmap.
  rewrite (select_ext _ (λ g, bool_decide (gr_document g = doc))).
  - rewrite (fmap_ext_elem _ id); [apply list_fmap_id|].
    intros g [E%bool_decide_eq_true _]%elem_of_select. by rewrite (Hq g E).
  - intros g _. destruct (q g); [by rewrite Hf|done].
Qed.

Lemma later_bumped doc ps ds gs gs' st :
  (∀ x, x ≠ doc → grants_on x gs' = grants_on x gs) → (∀ x, x ≠ ACTIVE → st x ≠ ACTIVE) →
  later (ps, ds, gs) (ps, update_where (doc_is doc) (bumped st 1) ds, gs').
Proof.
  intros Hgs Hst. apply later_documents. intros r Hr. destruct (doc_is doc r) eqn:Ed.
  - unfold doc_later, bumped. simpl. split_and!; try done; [left; lia|auto].
  - apply bool_decide_eq_false in Ed. unfold doc_later. split_and!; try done. right.
    split_and!; try done. by apply Hgs.
Qed.

Lemma moved_later t t' : moved t t' → tables_ok t → later t t'.
Proof.
  intros [u|ps ds gs p|ps ds gs r Hf|ps ds gs r o Hf Ho Eo Et Es
         |ps ds gs r g gs' o Hr Es Eg Ho Eo Et Hgs|ps ds gs doc now|ps ds gs r Hr Hs|ps ds gs target] Hok.
  - done.
  - apply later_principals. intros r _ _. unfold pr_later. simpl. split_and!; try done. right; lia.
  - rewrite <-(app_nil_r ds) at 2. apply later_snoc.
  - rewrite <-(app_nil_r ps) at 2. apply later_snoc.
  - apply later_bumped; [|done]. intros x Hx. rewrite <-Eg in Hx. destruct Hgs as [[-> _]|[rv ->]].
    + unfold grants_on. rewrite select_snoc, bool_decide_eq_false_2 by congruence. apply app_nil_r.
    + apply grants_on_other; [done|]. intros y <-. unfold grant_of.
      by rewrite bool_decide_eq_false_2.
  - apply later_bumped; [|done]. intros x Hx. apply grants_on_other; [done|].
    intros y <-. by rewrite bool_decide_eq_false_2.
  - apply later_documents. intros x Hx. destruct (doc_is (dr_document r) x) eqn:Ed; [|apply doc_later_refl].
    apply bool_decide_eq_true in Ed.
    assert (x = r) as -> by (exact (elem_of_unique dr_document ds x r (to_documents _ Hok) Hx Hr Ed)).
    assert (dr_state r ≠ ACTIVE) by (intros F; rewrite F in Hs; set_solver).
    unfold doc_later. simpl. split_and!; try done. right. split_and!; try done. lia.
  - apply later_principals. intros r _ _. unfold pr_later. simpl. split_and!; try done. right; lia.
Qed.

(** ** Histories *)

Section Authority.
Context `{Runtime}.
Variable audit_limit : Z.

Record sinv (d : sdb) : Prop := {
  si_tables : tables_ok (tables d);
  si_capacity : audit d = [] ∨ len (audit d) ≤ audit_limit;
  si_events : NoDup (au_event <$> audit d) }.

Lemma audit_steps l l' :
  rtc (audit_step audit_limit) l l' →
  (l = [] ∨ len l ≤ audit_limit) ∧ NoDup (au_event <$> l) →
  l `prefix_of` l' ∧ (l' = [] ∨ len l' ≤ audit_limit) ∧ NoDup (au_event <$> l').
Proof.
  induction 1 as [l|l l1 l2 [m r Hl Hf] _ IH]; [done|]. intros [_ Hnd]. destruct IH as (Hp & IH).
  - split; [right; unfold len in *; rewrite length_app; simpl; lia|].
    apply NoDup_snoc_key; [done|]. intros x Hx. by apply Hf.
  - split; [|done]. etrans; [|exact Hp]. by apply prefix_app_r.
Qed.

Lemma sexec_step d c :
  sinv d → sinv (sexec audit_limit d c) ∧ later (tables d) (tables (sexec audit_limit d c)) ∧
  audit d `prefix_of` audit (sexec audit_limit d c).
Proof.
  intros [H1 H2 H3]. destruct (sexec_effect audit_limit d c) as [Hm Ha].
  destruct (audit_steps _ _ Ha (conj H2 H3)) as (Hp & H2' & H3'). split_and!; try done.
  - split; [by eapply moved_ok|done|done].
  - by apply moved_later.
Qed.

Lemma sfold_step d cs :
  sinv d → let d' := foldl (sexec audit_limit) d cs in
  sinv d' ∧ later (tables d) (tables d') ∧ audit d `prefix_of` audit d'.
Proof.
  revert d. induction cs as [|c cs IH]; intros d Hd; simpl; [done|].
  destruct (sexec_step d c Hd) as (Hd1 & Hl & Hp). destruct (IH _ Hd1) as (Hd2 & Hl2 & Hp2).
  split_and!; [done|by etrans|by etrans].
Qed.

Lemma empty_sinv : sinv empty_sdb.
Proof.
  split; [|by left|constructor].
  split; simpl; try constructor; intros ? []%not_elem_of_nil.
Qed.

Lemma srun_sinv cs : sinv (srun audit_limit cs).
Proof. by apply sfold_step, empty_sinv. Qed.

(** ** Snapshots *)

(** What a snapshot depends on: its principal, its documents and their grants. *)
Definition relevant (s : AuthorizationSnapshot) (d : sdb) :=
  (find_row (pr_is (owner (p_scope (sn_principal s)))) (principals d),
   (λ x, (find_row (doc_is x.1.1) (documents d), grants_on x.1.1 (grants d))) <$> sn_documents s).

Lemma snapshot_documents_Ok p a docs i clk d l d' :
  snapshot_documents p a docs i clk d = Ok (l, d') →
  (λ x, x.1.1) <$> l = docs ∧
  ∀ doc sc e, (doc, sc, e) ∈ l → ∃ r j, _document p a doc (clk j) d = Ok (r, d) ∧ dr_epoch r = e.
Proof.
  revert i l d'. induction docs as [|doc docs IH]; intros i l d' E; simpl in E.
  { tx_inv E. split; [done|]. by intros ??? []%not_elem_of_nil. }
  apply tx_bind_Ok in E as (r & d1 & E1 & E). pose proof (document_Ok _ _ _ _ _ _ _ E1) as (-> & _).
  apply tx_bind_Ok in E as (l' & d2 & E2 & E). apply IH in E2 as [El Hl]. tx_inv E. split.
  - csimpl. by rewrite El.
  - intros doc' sc e [[= -> -> ->]|Hin]%elem_of_cons; [by exists r, i|by eapply Hl].
Qed.

Lemma revalidate_documents_Ok p a l i clk d x d' :
  revalidate_documents p a l i clk d = Ok (x, d') →
  ∀ doc sc e, (doc, sc, e) ∈ l → ∃ r j, _document p a doc (clk j) d = Ok (r, d) ∧ dr_epoch r = e.
Proof.
  revert i. induction l as [|[[doc s] e] l IH]; intros i E; simpl in E.
  { by intros ??? []%not_elem_of_nil. }
  apply tx_bind_Ok in E as (r & d1 & E1 & E). pose proof (document_Ok _ _ _ _ _ _ _ E1) as (-> & _).
  apply tx_bind_Ok in E as ([] & d2 & E2 & E). tx_inv E2.
  apply andb_true_iff in E2 as [E2%Z.eqb_eq _].
  intros doc' sc' e' [[= -> -> ->]|Hin]%elem_of_cons; [by exists r, i|by eapply IH].
Qed.

(** A snapshot that was taken, or that revalidates, agrees with the tables. *)
Definition agrees (s : AuthorizationSnapshot) (d : sdb) : Prop :=
  let p := sn_principal s in
  (∃ r now, _principal p now d = Ok (r, d) ∧ pr_epoch r = principal_epoch s) ∧
  ∀ doc sc e, (doc, sc, e) ∈ sn_documents s →
    ∃ r now, _document p (sn_action s) doc now d = Ok (r, d) ∧ dr_epoch r = e.

Lemma revalidate_agrees s clk d : revalidate s clk d = Ok tt → agrees s d.
Proof.
  unfold revalidate, release. destruct (_revalidate s clk d) as [[x d']|] eqn:E; [|done]. intros _.
  unfold _revalidate in E. apply tx_bind_Ok in E as ([] & d1 & E1 & E). tx_inv E1.
  apply tx_bind_Ok in E as (r & d2 & E2 & E). pose proof (principal_Ok _ _ _ _ _ E2) as (-> & _).
  apply tx_bind_Ok in E as ([] & d3 & E3 & E). tx_inv E3. apply Z.eqb_eq in E3.
  pose proof (revalidate_documents_Ok _ _ _ _ _ _ _ _ E) as Hl. split; [by exists r, (clk 0%nat)|].
  intros doc sc e Hin. destruct (Hl doc sc e Hin) as (r' & j & ? & ?). by exists r', (clk j).
Qed.

Lemma snapshot_agrees p docs a eid clk d s d' :
  snapshot audit_limit p docs a eid clk d = (Ok s, d') →
  agrees s d ∧ tables d' = tables d ∧ sn_principal s = p ∧ sn_action s = a ∧
  (λ x, x.1.1) <$> sn_documents s = docs.
Proof.
  unfold snapshot. destruct (_ && _); [|done]. set (m := _ ≫= _).
  destruct (transaction m d) as [[[y|]|] d1] eqn:Et; [|done..]. intros [= -> ->].
  apply transaction_Ok, attempt_audit in Et as [Ea Em];
    [|intros ?? F; by apply take_snapshot_Ok in F as [-> _]].
  apply audit_Ok in Ea as (_ & _ & Etab & _). destruct (take_snapshot p docs a clk d) as [[s' d2]|] eqn:E; [|done].
  injection Em as ->. apply take_snapshot_Ok in E as (-> & r & l & E1 & E2 & ->). simpl.
  pose proof (snapshot_documents_Ok _ _ _ _ _ _ _ _ E2) as [El Hl]. split_and!; try done.
  split; [by exists r, (clk 1%nat)|]. intros doc sc e Hin.
  destruct (Hl doc sc e Hin) as (r' & j & ? & ?). by exists r', (clk j).
Qed.

(** If a snapshot agrees with an earlier and a later state, nothing relevant changed
    in between. *)
Lemma agrees_between s d d1 d2 :
  sinv d → sinv d1 → sinv d2 →
  later (tables d) (tables d1) → later (tables d1) (tables d2) →
  agrees s d → agrees s d2 → relevant s d1 = relevant s d.
Proof.
  intros I0 I1 I2 [P1 D1] [P2 D2] [(r & now & Hr & Er) Hd] [(r2 & now2 & Hr2 & Er2) Hd2].
  apply principal_Ok in Hr as (_ & _ & F & Hin & Eo & _).
  apply principal_Ok in Hr2 as (_ & _ & F2 & Hin2 & Eo2 & _). unfold relevant. f_equal.
  - rewrite F. destruct (P1 r Hin) as (r1 & Hr1 & A1 & A2 & A3 & A4 & A5).
    destruct (P2 r1 Hr1) as (x2 & Hx2 & B1 & B2 & B3 & B4 & B5).
    assert (x2 = r2) as -> by
      (exact (elem_of_unique pr_owner (principals d2) x2 r2 (to_principals _ (si_tables _ I2)) Hx2 Hin2
        ltac:(congruence))).
    assert (r1 = r) as -> by (destruct A4 as [->|], B4 as [->|]; try done; lia).
    rewrite <-Eo. by apply (find_row_unique pr_owner _ _ (to_principals _ (si_tables _ I1))).
  - apply fmap_ext_elem. intros [[doc sc] e] Hx. simpl.
    destruct (Hd doc sc e Hx) as (w & wn & Hw & Ew). destruct (Hd2 doc sc e Hx) as (w2 & wn2 & Hw2 & Ew2).
    apply document_Ok in Hw as (_ & _ & G & Hwin & Ed & _ & Es & _).
    apply document_Ok in Hw2 as (_ & _ & G2 & Hwin2 & Ed2 & _).
    destruct (D1 w Hwin) as (w1 & Hw1 & A1 & A2 & A3 & A4 & A5).
    destruct (D2 w1 Hw1) as (x2 & Hx2 & B1 & B2 & B3 & B4 & B5).
    assert (x2 = w2) as -> by
      (exact (elem_of_unique dr_document (documents d2) x2 w2 (to_documents _ (si_tables _ I2)) Hx2 Hwin2
        ltac:(congruence))).
    destruct A4 as [|(E1 & E2 & E3)]; [destruct B4 as [|(? & _)]; lia|]. rewrite (E2 Es) in *.
    rewrite Ed in E3. f_equal; [|exact E3]. rewrite G, <-Ed.
    by apply (find_row_unique dr_document _ _ (to_documents _ (si_tables _ I1))).
Qed.

Lemma snapshot_step p docs a eid clk cs s d :
  snapshot audit_limit p docs a eid clk (srun audit_limit cs) = (Ok s, d) →
  d = srun audit_limit (cs ++ [CSnapshot p docs a eid clk]).
Proof. intros E. unfold srun. rewrite foldl_app. simpl. unfold srun in E. by rewrite E. Qed.

Lemma srun_app cs cs' : srun audit_limit (cs ++ cs') = foldl (sexec audit_limit) (srun audit_limit cs) cs'.
Proof. unfold srun. by rewrite foldl_app. Qed.

Lemma srun_later cs cs' : later (tables (srun audit_limit cs)) (tables (srun audit_limit (cs ++ cs'))).
Proof. rewrite srun_app. by apply sfold_step, srun_sinv. Qed.

Lemma snapshot_between p docs a eid clk clk' cs cs1 cs2 s d :
  snapshot audit_limit p docs a eid clk (srun audit_limit cs) = (Ok s, d) →
  revalidate s clk' (foldl (sexec audit_limit) d (cs1 ++ cs2)) = Ok tt →
  relevant s (foldl (sexec audit_limit) d cs1) = relevant s (srun audit_limit cs).
Proof.
  intros Es Er. destruct (snapshot_agrees _ _ _ _ _ _ _ _ Es) as (Ha & Et & _).
  apply snapshot_step in Es as ->. rewrite <-srun_app in Er. rewrite <-srun_app in *.
  apply (agrees_between s _ _ (srun audit_limit ((cs ++ [CSnapshot p docs a eid clk]) ++ cs1 ++ cs2)));
    try apply srun_sinv; [| |done|by eapply revalidate_agrees].
  - rewrite <-!app_assoc. apply srun_later.
  - rewrite app_assoc. apply srun_later.
Qed.

(** ** Revocations *)

Lemma audited_Ok {A} act p r (m : stx A) eid at_ d a d' :
  audited audit_limit act p r m eid at_ d = (Ok a, d') → m d = Ok (a, d').
Proof.
  unfold audited. destruct (transaction m d) as [[x|e] d1] eqn:E; [intros [= -> ->]; by apply transaction_Ok|].
  by destruct (transaction _ d1) as [[|] ?].
Qed.

Lemma tombstone_Ok p doc eid eid' eid2 clk d st d' :
  tombstone audit_limit p doc eid eid' eid2 clk d = (Ok st, d') →
  ∃ r, r ∈ documents d' ∧ dr_document r = doc ∧ dr_state r ≠ ACTIVE.
Proof.
  intros E%audited_Ok. unfold tombstone_tx in E. apply tx_bind_Ok in E as (pr & d1 & E1 & E).
  apply principal_Ok in E1 as (-> & _). apply tx_bind_Ok in E as (row & d2 & E2 & E). tx_inv E2.
  apply tx_bind_Ok in E as (r & d3 & E3 & E). tx_inv E3. apply find_row_Some in E3 as [Hr Ed].
  pose proof Ed as Ed'. apply bool_decide_eq_true in Ed'.
  apply tx_bind_Ok in E as ([] & d4 & E4 & E). tx_inv E4.
  case_bool_decide as Es; [tx_inv E; by exists r|].
  apply tx_bind_Ok in E as ([] & d5 & E5 & E). apply audit_Ok in E5 as (_ & _ & Et5 & _ & _).
  apply tx_bind_Ok in E as ([] & d6 & E6 & E). tx_inv E6.
  apply tx_bind_Ok in E as ([] & d7 & E7 & E). tx_inv E7.
  apply tx_bind_Ok in E as ([] & d8 & E8 & E). tx_inv E. apply audit_Ok in E8 as (_ & _ & Et8 & _ & _).
  exists (bumped (λ _, TOMBSTONED) 1 r). split; [|done]. apply (f_equal (λ t, t.1.2)) in Et8, Et5.
  simpl in Et8, Et5. rewrite Et8. apply elem_of_update_where. exists r. rewrite Et5, Ed. done.
Qed.

Lemma disable_Ok p target eid eid2 clk d d' :
  disable_principal audit_limit p target eid eid2 clk d = (Ok tt, d') →
  ∃ r, r ∈ principals d' ∧ pr_owner r = target ∧ pr_disabled r = true.
Proof.
  intros E%audited_Ok. unfold disable_principal_tx in E. apply tx_bind_Ok in E as (pr & d1 & E1 & E).
  apply principal_Ok in E1 as (-> & _). apply tx_bind_Ok in E as (row & d2 & E2 & E). tx_inv E2.
  apply tx_bind_Ok in E as ([] & d3 & E3 & E). tx_inv E3.
  apply tx_bind_Ok in E as ([] & d4 & E4 & E). tx_inv E4. apply audit_Ok in E as (_ & _ & Et & _ & _).
  apply (f_equal (λ t, t.1.1)) in Et. simpl in Et. apply andb_true_iff in E3 as [_ E3].
  destruct (find_row _ _) as [r|] eqn:Ef; [|done]. apply find_row_Some in Ef as [Hr Eo].
  exists (if pr_is target r && negb (pr_disabled r) then disabled_row r else r). rewrite Et.
  split; [apply elem_of_update_where; eauto|]. rewrite Eo. apply bool_decide_eq_true in Eo.
  by destruct (pr_disabled r) eqn:Ep.
Qed.

Lemma revoke_Ok p doc g n eid eid2 clk d x d' :
  sinv d → share audit_limit p doc g true n eid eid2 clk d = (Ok x, d') →
  ∀ y, y ∈ grants_on doc (grants d') → gr_grantee y = g → gr_revoked y ≠ None.
Proof.
  intros Hi E%audited_Ok. unfold share_tx in E. apply tx_bind_Ok in E as (r & d1 & E1 & E).
  apply document_Ok in E1 as (-> & _). apply tx_bind_Ok in E as (o & d2 & E2 & E). tx_inv E2.
  apply tx_bind_Ok in E as ([] & d3 & E3 & E). tx_inv E3.
  apply tx_bind_Ok in E as (row & d4 & E4 & E). tx_inv E4.
  destruct (find_row (grant_of _ _) _) as [gr|] eqn:Ef.
  2: { apply tx_bind_Ok in E as ([] & d5 & E5 & E). by tx_inv E5. }
  apply find_row_Some in Ef as [Hg Eg]. unfold grant_of in Eg.
  rewrite andb_true_iff, !bool_decide_eq_true in Eg. destruct Eg as [Eg1 Eg2].
  destruct (Bool.eqb _ _) eqn:Eb.
  - tx_inv E. intros y [Ey%bool_decide_eq_true Hy]%elem_of_select Eyg.
    assert (y = gr) as ->; [|by apply Bool.eqb_prop, bool_decide_eq_true in Eb].
    apply (elem_of_unique grant_key (grants d)); [exact (to_grants _ (si_tables _ Hi))|done|done|].
    unfold grant_key. congruence.
  - apply tx_bind_Ok in E as ([] & d5 & E5 & E). tx_inv E5.
    apply tx_bind_Ok in E as ([] & d6 & E6 & E). tx_inv E6.
    apply tx_bind_Ok in E as ([] & d7 & E7 & E). tx_inv E. apply audit_Ok in E7 as (_ & _ & Et & _ & _).
    apply (f_equal snd) in Et. simpl in Et. rewrite Et.
    intros y [Ey%bool_decide_eq_true (z & Hz & ->)%elem_of_update_where]%elem_of_select Eyg.
    destruct (grant_of doc g z) eqn:Eh; [done|]. unfold grant_of in Eh.
    by rewrite Ey, Eyg, !bool_decide_eq_true_2 in Eh.
Qed.

(** The calls that take access to a document away from a principal. *)
Inductive revokes (p : Principal) (doc : uuid) (d : sdb) : scall → Prop :=
| rv_tombstone q eid eid' eid2 clk st :
    (tombstone audit_limit q doc eid eid' eid2 clk d).1 = Ok st →
    revokes p doc d (CTombstone q doc eid eid' eid2 clk)
| rv_disable q eid eid2 clk :
    (disable_principal audit_limit q (owner (p_scope p)) eid eid2 clk d).1 = Ok tt →
    revokes p doc d (CDisable q (owner (p_scope p)) eid eid2 clk)
| rv_unshare q n eid eid2 clk g :
    (share audit_limit q doc (owner (p_scope p)) true n eid eid2 clk d).1 = Ok g →
    (∀ r, r ∈ documents d → dr_document r = doc → dr_owner r ≠ owner (p_scope p)) →
    TENANT_ADMIN ∉ permissions p →
    revokes p doc d (CShare q doc (owner (p_scope p)) true n eid eid2 clk).

Lemma agrees_active s d doc :
  sinv d → agrees s d → doc ∈ (λ x, x.1.1) <$> sn_documents s →
  ∀ r, r ∈ documents d → dr_document r = doc →
  dr_state r = ACTIVE ∧
  (dr_owner r = owner (p_scope (sn_principal s)) ∨ TENANT_ADMIN ∈ permissions (sn_principal s) ∨
   ∃ g, g ∈ grants_on doc (grants d) ∧ gr_grantee g = owner (p_scope (sn_principal s)) ∧
        gr_revoked g = None).
Proof.
  intros Hi [_ Hd] ([[doc' sc] e] & -> & Hin)%list_elem_of_fmap r Hr Ed. simpl in Ed.
  destruct (Hd _ _ _ Hin) as (w & now & Hw & _).
  apply document_Ok in Hw as (_ & _ & _ & Hw & Ew & _ & Es & _ & Hacc).
  assert (w = r) as -> by (exact (elem_of_unique dr_document (documents d) w r
    (to_documents _ (si_tables _ Hi)) Hw Hr ltac:(congruence))).
  split; [done|]. destruct Hacc as [?|[?|(_ & g & Hg & E1 & E2 & E3)]]; [by left|by right; left|].
  right; right. exists g. split; [|done]. apply elem_of_select. by rewrite bool_decide_eq_true_2.
Qed.

Lemma revoked_refused s d d1 cs2 c clk' doc :
  sinv d1 → agrees s d → sinv d → doc ∈ (λ x, x.1.1) <$> sn_documents s →
  later (tables d) (tables d1) →
  revokes (sn_principal s) doc d1 c →
  let d2 := sexec audit_limit d1 c in
  (revalidate s clk' (foldl (sexec audit_limit) d2 cs2) = Ok tt → relevant s d2 = relevant s d) →
  ∃ e, revalidate s clk' (foldl (sexec audit_limit) d2 cs2) = Err e.
Proof.
  intros Hi1 Ha Hi Hdoc Hlater Hrv d2 Hrel.
  destruct (revalidate s clk' _) as [[]|e] eqn:Er; [|by exists e]. exfalso.
  pose proof (revalidate_agrees _ _ _ Er) as Ha3. specialize (Hrel eq_refl).
  destruct (sexec_step d1 c Hi1) as (Hi2 & Hl12 & _).
  destruct (sfold_step d2 cs2 Hi2) as (Hi3 & Hl & _).
  set (d3 := foldl (sexec audit_limit) d2 cs2) in *.
  destruct Hrv as [q eid eid' eid2 clk st E|q eid eid2 clk E|q n eid eid2 clk g E Hno Hadm].
  - destruct (tombstone audit_limit q doc eid eid' eid2 clk d1) as [r dd] eqn:Et. simpl in E. subst r.
    destruct (tombstone_Ok _ _ _ _ _ _ _ _ _ Et) as (r & Hr & Ed & Es).
    assert (dd = d2) as -> by (unfold d2; simpl; by rewrite Et).
    destruct (la_documents _ _ Hl r Hr) as (r3 & Hr3 & E1 & _ & _ & _ & Hst).
    destruct (agrees_active _ _ _ Hi3 Ha3 Hdoc r3 Hr3) as [F _]; [congruence|]. by apply Hst.
  - destruct (disable_principal audit_limit q _ eid eid2 clk d1) as [r dd] eqn:Et. simpl in E. subst r.
    destruct (disable_Ok _ _ _ _ _ _ _ Et) as (r & Hr & Eo & Ep).
    assert (dd = d2) as -> by (unfold d2; simpl; by rewrite Et).
    destruct (la_principals _ _ Hl r Hr) as (r3 & Hr3 & E1 & _ & _ & _ & Hdis).
    destruct Ha3 as [(w & now & Hw & _) _]. apply principal_Ok in Hw as (_ & _ & _ & Hw & Eow & Edw & _).
    assert (w = r3) as -> by (exact (elem_of_unique pr_owner (principals d3) w r3
      (to_principals _ (si_tables _ Hi3)) Hw Hr3 ltac:(congruence))).
    by rewrite Hdis in Edw.
  - destruct (share audit_limit q doc _ true n eid eid2 clk d1) as [r dd] eqn:Et. simpl in E. subst r.
    pose proof (revoke_Ok _ _ _ _ _ _ _ _ _ _ Hi1 Et) as Hrev.
    assert (dd = d2) as -> by (unfold d2; simpl; by rewrite Et).
    pose proof Hdoc as ([[doc' sc] e] & Edoc & Hin)%list_elem_of_fmap. simpl in Edoc. subst doc'.
    destruct (proj2 Ha doc sc e Hin) as (w & now & Hw & _).
    apply document_Ok in Hw as (_ & _ & _ & Hw & Ew & _).
    destruct (agrees_active _ _ _ Hi Ha Hdoc w Hw Ew) as [_ [Hown|[?|(g0 & Hg0 & E1 & E2)]]]; [|done|].
    + destruct (la_documents _ _ Hlater w Hw) as (w1 & Hw1 & F1 & _ & F2 & _).
      apply (Hno w1 Hw1); congruence.
    + apply (f_equal snd) in Hrel. simpl in Hrel. unfold relevant in Hrel.
      apply list_fmap_eq_inv_elem with (x := (doc, sc, e)) in Hrel; [|done]. simpl in Hrel.
      apply (f_equal snd) in Hrel. simpl in Hrel. rewrite <-Hrel in Hg0.
      by apply (Hrev g0).
Qed.

(** ** The properties *)

(** C26: after every history of calls the authority is consistent: keys are unique,
    every document belongs to a registered principal of its tenant, every grant shares a
    document with a principal of the same tenant and is revoked once the document is
    tombstoned; the audit log has distinct events, stays within its capacity, and no
    call ever removes or rewrites an event of it. *)
Theorem authority_invariant cs cs' :
  tables_ok (tables (srun audit_limit cs)) ∧
  NoDup (au_event <$> audit (srun audit_limit cs)) ∧
  (audit (srun audit_limit cs) = [] ∨ len (audit (srun audit_limit cs)) ≤ audit_limit) ∧
  audit (srun audit_limit cs) `prefix_of` audit (srun audit_limit (cs ++ cs')).
Proof.
  destruct (srun_sinv cs) as [H1 H2 H3]. split_and!; try done.
  rewrite srun_app. apply sfold_step, srun_sinv.
Qed.

(** A snapshot that still revalidates proves that nothing it depends on has changed
    since it was taken: in every state in between, the row of its principal, the rows of
    its documents and all grants on them are those it was taken from. *)
Theorem snapshot_detects_change p docs a eid clk clk' cs cs1 cs2 s d :
  snapshot audit_limit p docs a eid clk (srun audit_limit cs) = (Ok s, d) →
  revalidate s clk' (foldl (sexec audit_limit) d (cs1 ++ cs2)) = Ok tt →
  relevant s (foldl (sexec audit_limit) d cs1) = relevant s (srun audit_limit cs).
Proof. apply snapshot_between. Qed.

(** A snapshot that depended on what was revoked is refused for ever. *)
Lemma revocation_final p docs a eid clk clk' cs cs1 c cs2 s d doc :
  snapshot audit_limit p docs a eid clk (srun audit_limit cs) = (Ok s, d) → doc ∈ docs →
  revokes p doc (foldl (sexec audit_limit) d cs1) c →
  ∃ e, revalidate s clk' (foldl (sexec audit_limit) d (cs1 ++ c :: cs2)) = Err e.
Proof.
  intros Es Hdoc Hrv. destruct (snapshot_agrees _ _ _ _ _ _ _ _ Es) as (Ha & Et & Ep & _ & Edocs).
  assert (sinv d ∧ d = srun audit_limit (cs ++ [CSnapshot p docs a eid clk])) as [Hd Ed].
  { apply snapshot_step in Es as ->. split; [apply srun_sinv|done]. }
  destruct (sfold_step d cs1 Hd) as (Hd1 & Hl1 & _).
  rewrite foldl_app. simpl. rewrite <-Edocs in Hdoc. rewrite <-Ep in Hrv.
  eapply (revoked_refused s (srun audit_limit cs)); try done; [apply srun_sinv| |].
  - etrans; [|exact Hl1]. rewrite Et. done.
  - intros Er. pose proof (snapshot_between p docs a eid clk clk' cs (cs1 ++ [c]) cs2 s d Es) as Hb.
    rewrite <-app_assoc, !foldl_app in Hb. simpl in Hb. by apply Hb.
Qed.

(** A revocation is final for every snapshot taken before it: after a tombstone of
    one of its documents, the disabling of its principal, or the revocation of the grant
    its principal depended on, the snapshot never revalidates again, whatever happens
    later - including a new grant. *)
Theorem revocation_is_final p docs a eid clk clk' cs cs1 c cs2 s d doc :
  snapshot audit_limit p docs a eid clk (srun audit_limit cs) = (Ok s, d) → doc ∈ docs →
  revokes p doc (foldl (sexec audit_limit) d cs1) c →
  ∃ e, revalidate s clk' (foldl (sexec audit_limit) d (cs1 ++ c :: cs2)) = Err e.
Proof. apply revocation_final. Qed.

(** C25: tenants are isolated: in every reachable state, access to a document is only
    allowed to a registered, enabled principal with the presented identity, role and
    kind, for an active document whose owner is registered in the same tenant, and only
    to the owner, to an administrator of the tenant, or for reading and analysis to the
    holder of a live grant. *)
Theorem tenant_isolation cs p a doc eid clk d :
  authorize audit_limit p a (RDocument doc) eid clk (srun audit_limit cs) = (Ok tt, d) →
  a ∉ [PUBLICATION_MANAGE; TENANT_ADMIN; SESSION_READ; SESSION_WRITE; USAGE_READ] →
  ∃ me r o, me ∈ principals (srun audit_limit cs) ∧ pr_owner me = owner (p_scope p) ∧
    pr_disabled me = false ∧ pr_identity me = _identity p ∧ pr_permissions me = _permissions p ∧
    r ∈ documents (srun audit_limit cs) ∧ dr_document r = doc ∧ dr_state r = ACTIVE ∧
    o ∈ principals (srun audit_limit cs) ∧ pr_owner o = dr_owner r ∧
    pr_tenant o = pr_tenant me ∧ pr_tenant me = tenant (p_scope p) ∧
    (dr_owner r = owner (p_scope p) ∨ TENANT_ADMIN ∈ permissions p ∨
     a ∈ [DOCUMENT_READ; DOCUMENT_ANALYZE] ∧
     ∃ g, g ∈ grants (srun audit_limit cs) ∧ gr_document g = doc ∧
          gr_grantee g = owner (p_scope p) ∧ gr_revoked g = None).
Proof.
  pose proof (srun_sinv cs) as Hi. set (s := srun audit_limit cs) in *. unfold authorize.
  set (m := _ ≫= _). destruct (transaction m s) as [[[[]|]|] d1] eqn:Et; [|done..].
  intros _ Ha. apply transaction_Ok, attempt_audit in Et as [_ Em];
    [|intros; by eapply authorize_checks_same].
  destruct (authorize_checks p a (RDocument doc) clk s) as [[[] d2]|] eqn:E; [|done]. clear Em.
  unfold authorize_checks in E. apply tx_bind_Ok in E as (me & d3 & E1 & E).
  apply principal_Ok in E1 as (-> & _ & _ & Hme & Eo & Edis & Eten & Eid & Eperm & _).
  case_bool_decide as F1; [set_solver|]. case_bool_decide as F2; [set_solver|].
  apply tx_bind_Ok in E as (r & d4 & E2 & E).
  apply document_Ok in E2 as (-> & _ & _ & Hr & Ed & Edt & Es & _ & Hacc).
  destruct (to_owner _ (si_tables _ Hi) r Hr) as (o & Ho & Eoo & Eot).
  exists me, r, o. split_and!; try done; congruence.
Qed.

(** Every decision is audited or refused: [authorize] appends exactly one event,
    which says whether access was allowed, and changes nothing else; when the event cannot
    be written, in particular when the log is full, it changes nothing and refuses. *)
Theorem decisions_audited p a r eid clk d :
  let '(res, d') := authorize audit_limit p a r eid clk d in
  (res = Err unavailable ∧ d' = d ∨
   ∃ ev, audit d' = audit d ++ [ev] ∧ tables d' = tables d ∧
     au_event ev = eid ∧ au_principal ev = Some (owner (p_scope p)) ∧
     au_action ev = action_value a ∧
     (res = Ok tt ∧ au_outcome ev = "allowed" ∨
      res = Err access_denied ∧ au_outcome ev = "denied")) ∧
  (audit_limit ≤ len (audit d) → res = Err unavailable).
Proof.
  unfold authorize. set (m := _ ≫= _).
  assert (∀ x d', m d = Ok (x, d') →
    len (audit d) < audit_limit ∧ tables d' = tables d ∧ ∃ ev, audit d' = audit d ++ [ev] ∧
      au_event ev = eid ∧ au_principal ev = Some (owner (p_scope p)) ∧ au_action ev = action_value a ∧
      au_outcome ev = match x with Ok _ => "allowed" | Err _ => "denied" end) as Hm.
  { intros x d' E. apply attempt_audit in E as [Ea _]; [|intros; by eapply authorize_checks_same].
    apply audit_Ok in Ea as (Hl & _ & Et & _ & Ea). split_and!; try done. eexists. by split_and!. }
  destruct (transaction m d) as [[x|e] d'] eqn:Et.
  - apply transaction_Ok in Et. destruct (Hm _ _ Et) as (Hl & Htab & ev & ?).
    destruct x; (split; [right; exists ev; naive_solver|lia]).
  - apply transaction_Err in Et as [E ->].
    assert (e = unavailable) as ->; [|by split; [left|]].
    unfold m in E. clear -E. unfold mbind, tx_bind, attempt in E.
    destruct (authorize_checks p a r clk d) as [[[] d1]|e1]; simpl in E;
      unfold _audit, mbind, tx_bind, gets, guard, raise, mret, tx_ret, modify in E;
      repeat case_match; simplify_eq; done.
Qed.

End Authority.

(** ** A concrete authority *)

Definition alice : Principal := {|
  issuer := cps "iss"; subject := cps "alice"; tenant_identity := cps "t";
  p_scope := @principal_scope sample_runtime (cps "iss") (cps "alice") (cps "t");
  permissions := [PUBLICATION_MANAGE]; p_kind := user; expires := 100 |}.

Definition bob : Principal := {|
  issuer := cps "iss"; subject := cps "bob"; tenant_identity := cps "t";
  p_scope := @principal_scope sample_runtime (cps "iss") (cps "bob") (cps "t");
  permissions := []; p_kind := user; expires := 100 |}.

Definition clock0 (_ : nat) : Q := 0%Q.

(** Alice owns a document and shares it with Bob. *)
Definition sample_scalls : list scall :=
  [CRegister alice "e1" clock0; CRegister bob "e2" clock0;
   CRegisterDocument alice "doc" (p_scope alice) "e3" "x3" clock0;
   CShare alice "doc" (owner (p_scope bob)) false "g1" "e4" "x4" clock0].

Definition sample_shared : sdb := @srun sample_runtime 100 sample_scalls.

(** Bob's snapshot, and the authority after it. *)
Definition sample_taken := @snapshot sample_runtime 100 bob ["doc"] DOCUMENT_ANALYZE "e5" clock0 sample_shared.

Definition sample_snapshot : AuthorizationSnapshot := {|
  sn_principal := bob; principal_epoch := 0; sn_documents := [("doc", p_scope alice, 1)];
  sn_action := DOCUMENT_ANALYZE; policy_version := "authorization/1" |}.

Lemma snapshot_detects_change_witness :
  relevant sample_snapshot
    (@sexec sample_runtime 100 sample_taken.2 (CAuthentication true "e6" 0%Q))
  = relevant sample_snapshot (@srun sample_runtime 100 sample_scalls).
Proof.
  apply (@snapshot_detects_change sample_runtime 100 bob ["doc"] DOCUMENT_ANALYZE "e5" clock0 clock0
           sample_scalls [CAuthentication true "e6" 0%Q] [] sample_snapshot sample_taken.2);
    vm_compute; reflexivity.
Defined.

(** Alice revokes the grant and grants it anew. *)
Lemma revocation_is_final_witness :
  ∃ e, @revalidate sample_runtime sample_snapshot clock0
    (foldl (@sexec sample_runtime 100) sample_taken.2
      ([] ++ CShare alice "doc" (owner (p_scope bob)) true "g2" "e6" "x6" clock0
       :: [CShare alice "doc" (owner (p_scope bob)) false "g3" "e7" "x7" clock0])) = Err e.
Proof.
  apply (@revocation_is_final sample_runtime 100 bob ["doc"] DOCUMENT_ANALYZE "e5" clock0 clock0
           sample_scalls [] (CShare alice "doc" (owner (p_scope bob)) true "g2" "e6" "x6" clock0)
           [CShare alice "doc" (owner (p_scope bob)) false "g3" "e7" "x7" clock0]
           sample_snapshot sample_taken.2 "doc").
  - vm_compute. reflexivity.
  - by left.
  - apply (@rv_unshare sample_runtime 100 bob "doc" _ alice "g2" "e6" "x6" clock0 "g1").
    + vm_compute. reflexivity.
    + intros r Hr _. vm_compute in Hr. apply list_elem_of_singleton in Hr as ->. vm_compute. discriminate.
    + apply not_elem_of_nil.
Defined.

Lemma tenant_isolation_witness :
  ∃ me r o, me ∈ principals sample_shared ∧ pr_owner me = owner (p_scope bob) ∧
    r ∈ documents sample_shared ∧ dr_document r = "doc" ∧
    o ∈ principals sample_shared ∧ pr_owner o = dr_owner r ∧ pr_tenant o = pr_tenant me.
Proof.
  destruct (@tenant_isolation sample_runtime 100 sample_scalls bob DOCUMENT_READ "doc" "e5" clock0
    (@authorize sample_runtime 100 bob DOCUMENT_READ (RDocument "doc") "e5" clock0
       (@srun sample_runtime 100 sample_scalls)).2)
    as (me & r & o & H1 & H2 & _ & _ & _ & H3 & H4 & _ & H5 & H6 & H7 & _).
  - vm_compute. reflexivity.
  - apply (bool_decide_unpack _). vm_compute. exact I.
  - exists me, r, o. auto 10.
Defined.
