(* ===== verification/Utf8.v ===== *)
(** * Strict UTF-8

    [bytes.decode('utf-8', errors='strict')] and [str.encode('utf-8')], as
    [documents/extraction.py] and [documents/serialization.py] use them.  Both directions are
    inverse to each other: a byte sequence that decodes has exactly one decoding, which encodes
    back to it. *)

From Stdlib Require Import ZArith NArith Lia.
From stdpp Require Import base tactics list option.
From S2P Require Import Prelude Json.

Local Open Scope N_scope.

Definition is_scalar (c : N) : bool := (c <? 55296) || (57344 <=? c) && (c <? 1114112).

(** One character; [None] for a surrogate or a value out of range. *)
Definition utf8_char (c : N) : option text :=
  if negb (is_scalar c) then None
  else if c <? 128 then Some [c]
  else if c <? 2048 then Some [192 + c / 64; 128 + c mod 64]
  else if c <? 65536 then Some [224 + c / 4096; 128 + c / 64 mod 64; 128 + c mod 64]
  else Some [240 + c / 262144; 128 + c / 4096 mod 64; 128 + c / 64 mod 64; 128 + c mod 64].

Fixpoint utf8_encode (t : text) : option text :=
  match t with
  | [] => Some []
  | c :: t' => bs ← utf8_char c; rest ← utf8_encode t'; Some (bs ++ rest)
  end.

Definition continuation (b : N) : bool := (128 <=? b) && (b <? 192).

(** The first character of some bytes, and the bytes after it. *)
Definition utf8_next (bs : text) : option (N * text) :=
  match bs with
  | [] => None
  | b0 :: r0 =>
      if b0 <? 128 then Some (b0, r0)
      else if b0 <? 224 then
        match r0 with
        | b1 :: r1 =>
            if (194 <=? b0) && continuation b1 then Some ((b0 - 192) * 64 + (b1 - 128), r1) else None
        | _ => None
        end
      else if b0 <? 240 then
        match r0 with
        | b1 :: b2 :: r2 =>
            let c := (b0 - 224) * 4096 + (b1 - 128) * 64 + (b2 - 128) in
            if continuation b1 && continuation b2 && (2048 <=? c) && is_scalar c
            then Some (c, r2) else None
        | _ => None
        end
      else
        match r0 with
        | b1 :: b2 :: b3 :: r3 =>
            let c := (b0 - 240) * 262144 + (b1 - 128) * 4096 + (b2 - 128) * 64 + (b3 - 128) in
            if continuation b1 && continuation b2 && continuation b3 && (65536 <=? c) && is_scalar c
            then Some (c, r3) else None
        | _ => None
        end
  end.

(** Every character takes a byte, so the number of bytes is enough fuel. *)
Fixpoint utf8_loop (fuel : nat) (bs : text) : option text :=
  match bs with
  | [] => Some []
  | _ =>
      match fuel with
      | O => None
      | S fuel' => '(c, rest) ← utf8_next bs; cons c <$> utf8_loop fuel' rest
      end
  end.

Definition utf8_decode (bs : text) : option text := utf8_loop (length bs) bs.

(** Decides range tests by arithmetic. *)
Ltac ranges :=
  repeat match goal with
  | |- context [(?a <? ?b)] =>
      first [rewrite (proj2 (N.ltb_lt a b)) by lia | rewrite (proj2 (N.ltb_ge a b)) by lia]
  | |- context [(?a <=? ?b)] =>
      first [rewrite (proj2 (N.leb_le a b)) by lia | rewrite (proj2 (N.leb_gt a b)) by lia]
  end.

Lemma is_scalar_iff c : is_scalar c = true ↔ c < 55296 ∨ 57344 ≤ c < 1114112.
Proof. unfold is_scalar. rewrite orb_true_iff, andb_true_iff, !N.ltb_lt, N.leb_le. tauto. Qed.

Lemma continuation_iff b : continuation b = true ↔ 128 ≤ b < 192.
Proof. unfold continuation. rewrite andb_true_iff, N.ltb_lt, N.leb_le. tauto. Qed.

Lemma div_mod_split c k : k ≠ 0 → c = k * (c / k) + c mod k ∧ c mod k < k.
Proof. intros Hk. split; [by apply N.div_mod|by apply N.mod_lt]. Qed.

(** The digits of a character in base 64. *)
Lemma base64 c :
  ∃ x3 x2 x1 x0, x0 = c mod 64 ∧ x1 = c / 64 mod 64 ∧ x2 = c / 4096 mod 64 ∧ x3 = c / 262144 ∧
    x0 < 64 ∧ x1 < 64 ∧ x2 < 64 ∧ c = x3 * 262144 + x2 * 4096 + x1 * 64 + x0 ∧
    c / 64 = x3 * 4096 + x2 * 64 + x1 ∧ c / 4096 = x3 * 64 + x2.
Proof.
  exists (c / 262144), (c / 4096 mod 64), (c / 64 mod 64), (c mod 64).
  assert (c / 4096 = c / 64 / 64) as E2 by (by rewrite N.Div0.div_div).
  assert (c / 262144 = c / 4096 / 64) as E3 by (by rewrite N.Div0.div_div).
  destruct (div_mod_split c 64 ltac:(done)) as [H1 L1].
  destruct (div_mod_split (c / 64) 64 ltac:(done)) as [H2 L2].
  destruct (div_mod_split (c / 4096) 64 ltac:(done)) as [H3 L3].
  rewrite <-E2 in H2. rewrite <-E3 in H3. split_and!; try done; lia.
Qed.

Lemma utf8_char_next c bs rest :
  utf8_char c = Some bs → utf8_next (bs ++ rest) = Some (c, rest) ∧ (0 < length bs)%nat.
Proof.
  unfold utf8_char. destruct (is_scalar c) eqn:Es; [|done]. simpl negb. cbv iota.
  destruct (base64 c) as (x3 & x2 & x1 & x0 & <- & <- & <- & <- & L0 & L1 & L2 & Ec & E1 & E2).
  rewrite E1, E2. clear E1 E2. pose proof (proj1 (is_scalar_iff c) Es) as Hmax.
  destruct (N.ltb_spec c 128) as [|G1]; [|destruct (N.ltb_spec c 2048) as [|G2];
    [|destruct (N.ltb_spec c 65536) as [|G3]]]; intros [= <-]; (split; [|simpl; lia]);
    cbn [app utf8_next]; unfold continuation; ranges; cbn [andb].
  - done.
  - do 2 f_equal. lia.
  - match goal with |- context [is_scalar ?x] => replace x with c by lia end. ranges. by rewrite Es.
  - match goal with |- context [is_scalar ?x] => replace x with c by lia end. ranges. by rewrite Es.
Qed.

Lemma utf8_next_char bs c rest :
  utf8_next bs = Some (c, rest) → ∃ x, utf8_char c = Some x ∧ bs = x ++ rest.
Proof.
  assert (∀ x3 x2 x1 x0, x0 < 64 → x1 < 64 → x2 < 64 → c = x3 * 262144 + x2 * 4096 + x1 * 64 + x0 →
            c mod 64 = x0 ∧ c / 64 mod 64 = x1 ∧ c / 4096 mod 64 = x2 ∧ c / 262144 = x3 ∧
            c / 64 = x3 * 4096 + x2 * 64 + x1 ∧ c / 4096 = x3 * 64 + x2) as Hdig.
  { intros x3 x2 x1 x0 L0 L1 L2 Ec.
    destruct (base64 c) as (y3 & y2 & y1 & y0 & <- & <- & <- & <- & M0 & M1 & M2 & Ec' & -> & ->). lia. }
  unfold utf8_next. destruct bs as [|b0 r0]; [done|].
  destruct (N.ltb_spec b0 128) as [G1|G1].
  { intros [= -> ->]. exists [c]. split; [|done]. unfold utf8_char, is_scalar. by ranges. }
  destruct (N.ltb_spec b0 224) as [G2|G2].
  { destruct r0 as [|b1 r1]; [done|]. destruct (_ && _) eqn:Et; [|done].
    apply andb_true_iff in Et as [H1 H2%continuation_iff]. apply N.leb_le in H1. intros [= Ec <-].
    destruct (Hdig 0 0 (b0 - 192) (b1 - 128)) as (D0 & _ & _ & _ & D1 & _); [lia..|].
    exists [b0; b1]. split; [|done]. unfold utf8_char, is_scalar. rewrite D0, D1. clear Hdig D0 D1.
    ranges. cbn [negb orb]. do 2 f_equal; [lia|]. f_equal. lia. }
  destruct (N.ltb_spec b0 240) as [G3|G3].
  { destruct r0 as [|b1 [|b2 r2]]; [done..|]. cbv zeta.
    destruct (_ && _) eqn:Et; [|done]. rewrite !andb_true_iff, !continuation_iff, N.leb_le in Et.
    destruct Et as [[[H1 H2] H3] Hs]. intros [= Ec <-]. rewrite Ec in H3, Hs.
    destruct (Hdig 0 (b0 - 224) (b1 - 128) (b2 - 128)) as (D0 & D1 & _ & _ & _ & D2); [lia..|].
    exists [b0; b1; b2]. split; [|done]. unfold utf8_char. rewrite Hs, D0, D1, D2. clear Hdig D0 D1 D2.
    ranges. cbn [negb]. do 2 f_equal; [lia|]. f_equal; [lia|]. f_equal. lia. }
  destruct r0 as [|b1 [|b2 [|b3 r3]]]; [done..|]. cbv zeta.
  destruct (_ && _) eqn:Et; [|done]. rewrite !andb_true_iff, !continuation_iff, N.leb_le in Et.
  destruct Et as [[[[H1 H2] H3] H4] Hs]. intros [= Ec <-]. rewrite Ec in H4, Hs.
  destruct (Hdig (b0 - 240) (b1 - 128) (b2 - 128) (b3 - 128)) as (D0 & D1 & D2 & D3 & _ & _); [lia..|].
  exists [b0; b1; b2; b3]. split; [|done]. unfold utf8_char. rewrite Hs, D0, D1, D2, D3. clear Hdig D0 D1 D2 D3.
  ranges. cbn [negb]. do 2 f_equal; [lia|]. f_equal; [lia|]. f_equal; [lia|]. f_equal. lia.
Qed.

Lemma utf8_loop_encode t bs fuel :
  utf8_encode t = Some bs → (length bs ≤ fuel)%nat → utf8_loop fuel bs = Some t.
Proof.
  revert bs fuel. induction t as [|c t IH]; intros bs fuel He Hf; simpl in He.
  { injection He as <-. by destruct fuel. }
  destruct (utf8_char c) as [x|] eqn:Ex; [|done]. destruct (utf8_encode t) as [rest|] eqn:Er; [|done].
  injection He as <-. destruct (utf8_char_next c x rest Ex) as [Hn Hl]. rewrite length_app in Hf.
  destruct fuel as [|fuel]; [lia|]. destruct (x ++ rest) as [|y l] eqn:Eb; [destruct x; simpl in *; [lia|done]|].
  cbn [utf8_loop]. rewrite Hn. simpl. rewrite (IH rest); [done|done|lia].
Qed.

(** Encoded text decodes to itself. *)
Lemma utf8_encode_decode t bs : utf8_encode t = Some bs → utf8_decode bs = Some t.
Proof. intros He. by apply (utf8_loop_encode t). Qed.

(** Bytes that decode are the encoding of their text. *)
Lemma utf8_decode_encode bs t : utf8_decode bs = Some t → utf8_encode t = Some bs.
Proof.
  unfold utf8_decode. generalize (length bs) as fuel. intros fuel. revert bs t.
  induction fuel as [|fuel IH]; intros bs t Hd.
  { destruct bs; [by injection Hd as <-|done]. }
  destruct bs as [|b bs]; [by injection Hd as <-|]. cbn [utf8_loop] in Hd.
  destruct (utf8_next (b :: bs)) as [[c rest]|] eqn:En; [|done]. simpl in Hd.
  apply fmap_Some in Hd as (t' & Ht' & ->). apply utf8_next_char in En as (x & Hx & ->).
  cbn [utf8_encode]. rewrite Hx. simpl. by rewrite (IH rest t').
Qed.
