(* ===== verification/Inference.v ===== *)
(** * Bounded generation: contracts and strict schemas

    [llm/inference.py], [llm/structured.py] and [llm/azure_schema.py]: what a bounded generation
    is asked and answers, the capability of a deployment, and the conversion of an application
    schema into the subset a strict provider accepts.  Python's recursion limit is a parameter:
    [RecursionError] is one of the ways the conversion is refused. *)

From stdpp Require Import base tactics list strings option sets relations.
From Stdlib Require Import ZArith NArith QArith Lia.
From S2P Require Import Prelude Json Contracts JobModels ProviderAdmission Utf8.

Local Open Scope Z_scope.

(** ** Errors *)

(** [OutputLimitDiagnostics] *)
Record OutputLimitDiagnostics := {
  od_cause : string; od_bytes : option Z; od_byte_limit : option Z; od_finish : option string;
  od_completion : option Z; od_token_limit : option Z; od_reasoning : option Z; od_usage : bool }.

Definition no_diagnostics : OutputLimitDiagnostics := {|
  od_cause := "unknown"; od_bytes := None; od_byte_limit := None; od_finish := None; od_completion := None;
  od_token_limit := None; od_reasoning := None; od_usage := false |}.

(** An [InferenceError]: its class by its category, and the attributes that are set on it
    ([None] when absent). *)
Record InferenceError := {
  ie_category : string; ie_retry_after : option Q; ie_usage : option InferenceUsage;
  ie_diagnostics : option OutputLimitDiagnostics; ie_rejection : option (Z * string) }.

Definition inference_error (category : string) : InferenceError := {|
  ie_category := category; ie_retry_after := None; ie_usage := None; ie_diagnostics := None;
  ie_rejection := None |}.

Definition InferenceConnectionError := inference_error "provider_unreachable".
Definition InferenceTimeoutError := inference_error "timeout".
Definition InferenceAuthenticationError := inference_error "authentication_failure".
Definition InferenceRateLimitError (after : option Q) : InferenceError := {|
  ie_category := "overloaded"; ie_retry_after := after; ie_usage := None; ie_diagnostics := None;
  ie_rejection := None |}.
Definition InferenceConfigurationError := inference_error "configuration_failure".
Definition InferenceOutputLimitError (d : OutputLimitDiagnostics) : InferenceError := {|
  ie_category := "output_limit"; ie_retry_after := None; ie_usage := None; ie_diagnostics := Some d;
  ie_rejection := None |}.
Definition InferenceContextError := inference_error "context_exceeded".
Definition InferenceModelUnavailableError := inference_error "model_unavailable".
Definition InferenceResponseError := inference_error "protocol_failure".
Definition UpstreamError := inference_error "upstream_failure".

(** [error_for_status] of [llm/operational.py] *)
Definition error_for_status (status : option Z) : InferenceError :=
  match status with
  | None => InferenceConnectionError
  | Some s =>
      if (s =? 401) || (s =? 403) then InferenceAuthenticationError
      else if s =? 404 then InferenceModelUnavailableError
      else if (s =? 408) || (s =? 504) then InferenceTimeoutError
      else if (s =? 429) || (s =? 502) || (s =? 503) then InferenceRateLimitError None
      else UpstreamError
  end.

(** ** Capabilities, requests and results *)

Inductive StructuredOutput := so_prompt | so_json_object | so_json_schema.
#[export] Instance StructuredOutput_eq_dec : EqDecision StructuredOutput.
Proof. solve_decision. Defined.
Inductive OutputParameter := op_max_tokens | op_max_completion_tokens.

Record CapabilityProfile := {
  cap_version : string; context_tokens : Z; max_output_tokens : Z; overhead_tokens : Z; safety_tokens : Z;
  structured_output : StructuredOutput; output_parameter : OutputParameter; streaming : bool;
  usage_reporting : bool; temperature : option Q; response_models : list text;
  reasoning_effort : option string; schema_profile : option string }.

Definition PROFILE : string := "azure-strict/1".

(** The pattern of versions and model names, up to a length. *)
Definition safe_name (n : Z) (t : text) : bool := (0 <? len t) && (len t <=? n) && forallb token_char t.

(** Field constraints and [strict_mode]. *)
Definition valid_capability (c : CapabilityProfile) : bool :=
  safe_name 128 (cps (cap_version c)) && (0 <? context_tokens c) && (0 <? max_output_tokens c)
  && (0 <=? overhead_tokens c) && (0 <=? safety_tokens c)
  && match temperature c with Some q => Qle_bool 0 q && Qle_bool q 2 | None => true end
  && match reasoning_effort c with
     | Some e => bool_decide (e ∈ ["none"; "minimal"; "low"; "medium"; "high"; "xhigh"]) | None => true end
  && match schema_profile c with
     | Some p => bool_decide (p = PROFILE) && bool_decide (structured_output c = so_json_schema) | None => true end.

Definition structured_text (s : StructuredOutput) : string :=
  match s with so_prompt => "prompt" | so_json_object => "json_object" | so_json_schema => "json_schema" end.
Definition parameter_text (p : OutputParameter) : string :=
  match p with op_max_tokens => "max_tokens" | op_max_completion_tokens => "max_completion_tokens" end.

(** The serializer drops the two last options when unset. *)
Definition capability_json (c : CapabilityProfile) : json :=
  JObj ([("version", jstr (cap_version c)); ("context_tokens", JInt (context_tokens c));
         ("max_output_tokens", JInt (max_output_tokens c)); ("overhead_tokens", JInt (overhead_tokens c));
         ("safety_tokens", JInt (safety_tokens c));
         ("structured_output", jstr (structured_text (structured_output c)));
         ("output_parameter", jstr (parameter_text (output_parameter c))); ("streaming", JBool (streaming c));
         ("usage_reporting", JBool (usage_reporting c)); ("temperature", jopt JFloat (temperature c));
         ("response_models", JArr (JStr <$> response_models c))]
        ++ match reasoning_effort c with Some e => [("reasoning_effort", jstr e)] | None => [] end
        ++ match schema_profile c with Some p => [("schema_profile", jstr p)] | None => [] end).

Record GenerationRequest := {
  gr_system : text; gr_data : text; gr_role : string; gr_capability : CapabilityProfile;
  gr_output_tokens : Z; gr_response_bytes : Z; gr_schema : json; gr_total_seconds : Q;
  gr_max_envelope : option Z }.

(** [ProviderResultMetadata]: an observation is any value a provider sent. *)
Record ProviderResultMetadata := {
  md_finish : json; md_prompt : json; md_completion : json; md_total : json; md_reasoning : json;
  md_bytes : json; md_token_limit : json; md_byte_limit : json }.

Definition numeric (v : json) : json :=
  match v with JInt z => if (0 <=? z) && (z <=? 2 ^ 63 - 1) then v else JNull | _ => JNull end.

Definition known_reason (t : text) : bool := bool_decide (t ∈ [cps "stop"; cps "length"; cps "max_tokens"]).

(** A new [ProviderResultMetadata] of [m.evidence()]. *)
Definition sanitized_metadata (m : ProviderResultMetadata) : ProviderResultMetadata := {|
  md_finish := match md_finish m with
               | JNull => JNull
               | JStr t => if known_reason t then JStr t else jstr "other"
               | _ => jstr "other"
               end;
  md_prompt := numeric (md_prompt m); md_completion := numeric (md_completion m);
  md_total := numeric (md_total m); md_reasoning := numeric (md_reasoning m); md_bytes := numeric (md_bytes m);
  md_token_limit := numeric (md_token_limit m); md_byte_limit := numeric (md_byte_limit m) |}.

Record GenerationResult := {
  gr_text : text; gr_usage : option InferenceUsage; gr_served_model : option text; gr_finish : option text;
  gr_metadata : option ProviderResultMetadata }.

(** ** [llm/azure_schema.py] *)

Module Schema.

(** [out[k] = v]: in place, or at the end. *)
Definition jhas (k : string) (kvs : list (string * json)) : bool := bool_decide (k ∈ kvs.*1).

Definition jset (k : string) (v : json) (kvs : list (string * json)) : list (string * json) :=
  if jhas k kvs then (λ kv, if bool_decide (kv.1 = k) then (k, v) else kv) <$> kvs else kvs ++ [(k, v)].

(** [{k: v for k, v in node.items() if k not in ks}] *)
Definition jdrop (ks : list string) (kvs : list (string * json)) : list (string * json) :=
  select (λ kv, negb (bool_decide (kv.1 ∈ ks))) kvs.

Definition ALLOWED : list string :=
  ["type"; "properties"; "required"; "additionalProperties"; "items"; "$defs"; "$ref"; "anyOf"; "enum"; "const";
   "title"; "description"; "default"; "format"; "minLength"; "maxLength"; "pattern"].

Definition STRING_RULES : list string := ["format"; "minLength"; "maxLength"; "pattern"].

(** [field k out == s] *)
Definition jis (v : option json) (s : string) : bool :=
  match v with Some (JStr t) => bool_decide (t = cps s) | _ => false end.

(** [isinstance(v, types[kind])]; a [bool] is an [int]. *)
Definition instance_of (kind : option json) (v : json) : bool :=
  match v with
  | JStr _ => jis kind "string"
  | JInt _ => jis kind "integer" || jis kind "number"
  | JFloat _ => jis kind "number"
  | JBool _ => jis kind "integer" || jis kind "number" || jis kind "boolean"
  | JNull => jis kind "null"
  | JArr _ | JObj _ => false
  end.

Definition is_kind (ks : list string) (kind : option json) : bool := existsb (jis kind) ks.
Definition KINDS : list string := ["object"; "array"; "string"; "integer"; "number"; "boolean"; "null"].

Definition need (b : bool) : option unit := if b then Some tt else None.

(** The annotations and string rules of a node are dropped, a constant becomes an enumeration. *)
Definition narrowed (node : list (string * json)) : option (list (string * json)) :=
  let out := jdrop ("title" :: "default" :: STRING_RULES) node in
  match field "const" out with
  | Some v => if jhas "enum" out then None else Some (jset "enum" (JArr [v]) (jdrop ["const"] out))
  | None => Some out
  end.

(** The keywords of the node itself: [None] is [fail()]. *)
Definition checked_node (root : bool) (node : list (string * json)) : option (list (string * json)) :=
  _ ← need (forallb (λ k, bool_decide (k ∈ ALLOWED)) node.*1);
  _ ← need (negb (existsb (λ k, jhas k node) STRING_RULES)
              || (jis (field "type" node) "string"
                  && (negb (jhas "format" node) || jis (field "format" node) "uuid")));
  out ← narrowed node;
  _ ← need (negb root || jis (field "type" out) "object");
  _ ← (if jhas "$ref" out then
         need (bool_decide (out.*1 = ["$ref"])
                 && match field "$ref" out with Some (JStr _) => true | _ => false end)
       else if jhas "anyOf" out then
         need (negb root && bool_decide (out.*1 = ["anyOf"])
                 && match field "anyOf" out with Some (JArr (_ :: _)) => true | _ => false end)
       else need (is_kind KINDS (field "type" out)));
  _ ← (if jis (field "type" out) "object" then
         match field "properties" out, default (JArr []) (field "required" out) with
         | Some (JObj props), JArr required =>
             need (match field "additionalProperties" out with Some (JBool false) => true | _ => false end
                     && forallb (λ r, match r with JStr t => existsb (λ k, bool_decide (cps k = t)) props.*1
                                      | _ => false end) required)
         | _, _ => None
         end
       else need (negb (existsb (λ k, jhas k out) ["properties"; "required"; "additionalProperties"])));
  _ ← need (jis (field "type" out) "array" || negb (jhas "items" out));
  _ ← need (negb (jhas "$defs" out)
              || root && match field "$defs" out with Some (JObj _) => true | _ => false end);
  _ ← (match field "enum" out with
       | None => Some tt
       | Some (JArr (v :: vs)) =>
           need (is_kind ["string"; "integer"; "number"; "boolean"; "null"] (field "type" out)
                   && forallb (instance_of (field "type" out)) (v :: vs))
       | Some _ => None
       end);
  Some out.

(** [{k: f(v) for k, v in d.items()}] *)
Definition map_values (f : json → option json) (kvs : list (string * json)) : option (list (string * json)) :=
  mapM (λ kv : string * json, v ← f kv.2; Some (kv.1, v)) kvs.

Definition key_list (kvs : list (string * json)) : json := JArr ((λ k, JStr (cps k)) <$> kvs.*1).

(** The conversion of the parts of a checked node by [f]. *)
Definition convert_parts (f : json → option json) (out : list (string * json)) : option (list (string * json)) :=
  out ← (match field "anyOf" out with
         | Some (JArr l) => l' ← mapM f l; Some (jset "anyOf" (JArr l') out)
         | _ => Some out
         end);
  out ← (match field "properties" out with
         | Some (JObj props) =>
             ps ← map_values f props;
             Some (jset "required" (key_list props) (jset "properties" (JObj ps) out))
         | _ => Some out
         end);
  out ← (if jis (field "type" out) "array"
         then v ← f (default JNull (field "items" out)); Some (jset "items" v out)
         else Some out);
  match field "$defs" out with
  | Some (JObj ds) => ds' ← map_values f ds; Some (jset "$defs" (JObj ds') out)
  | _ => Some out
  end.

Fixpoint convert (limit : nat) (root : bool) (node : json) : option json :=
  match limit, node with
  | S limit', JObj kvs =>
      out ← checked_node root kvs;
      out ← convert_parts (convert limit' false) out;
      Some (JObj out)
  | _, _ => None
  end.

(** [node.get(k, {})] of an object, [node.get(k, [])] of a list, as the values to visit. *)
Definition values_of (k : string) (node : list (string * json)) : list json :=
  match field k node with Some (JObj kvs) => kvs.*2 | Some (JArr l) => l | _ => [] end.

Definition items_of (node : list (string * json)) : list json :=
  match field "items" node with Some v => [v] | None => [] end.

(** The sum of what a visit returns. *)
Definition total (f : json → option Z) (l : list json) : option Z :=
  foldr (λ v acc, n ← f v; m ← acc; Some (n + m)) (Some 0) l.

Fixpoint count_properties (limit : nat) (node : json) : option Z :=
  match limit, node with
  | S limit', JObj kvs =>
      n ← total (count_properties limit')
            (values_of "properties" kvs ++ values_of "$defs" kvs ++ values_of "anyOf" kvs ++ items_of kvs);
      Some (len (values_of "properties" kvs) + n)
  | _, _ => None
  end.

Definition REF_PREFIX : text := cps "#/$defs/".

(** [definitions[ref[8:]]], when [ref] starts with the prefix and is defined. *)
Definition resolve_ref (defs : list (string * json)) (ref : text) : option json :=
  foldl (λ acc kv, if bool_decide (ref = REF_PREFIX ++ cps kv.1) then Some kv.2 else acc) None defs.

Fixpoint depth (limit : nat) (defs : list (string * json)) (level : Z) (seen : list text) (node : json)
    : option unit :=
  match limit, node with
  | S limit', JObj kvs =>
      match field "$ref" kvs with
      | Some (JStr ref) =>
          _ ← need (negb (bool_decide (ref ∈ seen)));
          d ← resolve_ref defs ref;
          depth limit' defs level (seen ++ [ref]) d
      | Some _ => None
      | None =>
          let level := level + if is_kind ["object"; "array"] (field "type" kvs) then 1 else 0 in
          _ ← need (level <=? 5);
          _ ← mapM (depth limit' defs level seen)
                (values_of "properties" kvs ++ values_of "anyOf" kvs ++ items_of kvs);
          Some tt
      end
  | _, _ => None
  end.

Definition definitions (node : json) : list (string * json) :=
  match node with
  | JObj kvs => match field "$defs" kvs with Some (JObj ds) => ds | _ => [] end
  | _ => []
  end.

(** [None] is [InferenceConfigurationError]. *)
Definition provider_schema (limit : nat) (schema : json) : option json :=
  out ← convert limit true schema;
  let defs := definitions out in
  n ← count_properties limit out;
  _ ← need (n <=? 100);
  _ ← depth limit defs (-1) [] out;
  _ ← mapM (depth limit defs (-1) []) defs.*2;
  Some out.

(** [require_fields] of [documents/digestion/managed.py]; [None] is [list()] of what is not
    iterable. *)
Definition listed (v : json) : option json :=
  match v with
  | JObj kvs => Some (key_list kvs)
  | JArr l => Some (JArr l)
  | JStr t => Some (JArr ((λ c, JStr [c]) <$> t))
  | _ => None
  end.

Definition with_required (kvs : list (string * json)) (kvs' : list (string * json)) : option (list (string * json)) :=
  match field "properties" kvs with
  | Some v => r ← listed v; Some (jset "required" r kvs')
  | None => Some kvs'
  end.

Fixpoint require_fields (node : json) : option json :=
  match node with
  | JObj kvs =>
      kvs' ← map_values require_fields kvs;
      out ← with_required kvs kvs';
      Some (JObj out)
  | JArr l => l' ← mapM require_fields l; Some (JArr l')
  | _ => Some node
  end.

(** ** Objects as finite maps *)

Lemma field_snoc k kv kvs : field k (kvs ++ [kv]) = if bool_decide (kv.1 = k) then Some kv.2 else field k kvs.
Proof. unfold field. by rewrite foldl_app. Qed.

Lemma field_jdrop k ks kvs : field k (jdrop ks kvs) = if bool_decide (k ∈ ks) then None else field k kvs.
Proof.
  unfold jdrop. induction kvs as [|kv kvs IH] using rev_ind; [by case_bool_decide|].
  rewrite select_snoc, field_snoc. destruct (decide (kv.1 ∈ ks)) as [Hk|Hk].
  - rewrite (bool_decide_eq_true_2 _ Hk). simpl. rewrite app_nil_r, IH.
    destruct (decide (kv.1 = k)) as [<-|Hne]; [by rewrite !(bool_decide_eq_true_2 _ Hk)|].
    by rewrite (bool_decide_eq_false_2 _ Hne).
  - rewrite (bool_decide_eq_false_2 _ Hk). simpl. rewrite field_snoc, IH.
    destruct (decide (kv.1 = k)) as [<-|Hne]; [by rewrite (bool_decide_eq_false_2 _ Hk), !bool_decide_eq_true_2|].
    by rewrite (bool_decide_eq_false_2 _ Hne).
Qed.

Lemma field_jhas k kvs : jhas k kvs = match field k kvs with Some _ => true | None => false end.
Proof.
  unfold jhas. induction kvs as [|kv kvs IH] using rev_ind; [done|].
  rewrite field_snoc, fmap_app. simpl. destruct (decide (kv.1 = k)) as [<-|Hne].
  - rewrite (bool_decide_eq_true_2 (kv.1 = kv.1)) by done. apply bool_decide_eq_true_2. set_solver.
  - rewrite (bool_decide_eq_false_2 _ Hne), <-IH. apply bool_decide_ext. set_solver.
Qed.

Lemma field_jset k k' v kvs : field k (jset k' v kvs) = if bool_decide (k' = k) then Some v else field k kvs.
Proof.
  unfold jset. destruct (jhas k' kvs) eqn:E; [|by rewrite field_snoc].
  rewrite field_jhas in E. revert E. induction kvs as [|kv kvs IH] using rev_ind; [done|].
  rewrite fmap_app. simpl. rewrite !field_snoc. intros E.
  destruct (decide (kv.1 = k')) as [<-|Hne].
  - rewrite (bool_decide_eq_true_2 (kv.1 = kv.1)) by done. simpl.
    destruct (decide (kv.1 = k)) as [<-|Hne]; [by rewrite (bool_decide_eq_true_2 (kv.1 = kv.1))|].
    rewrite (bool_decide_eq_false_2 _ Hne). destruct (field kv.1 kvs) eqn:F.
    + rewrite IH by done. by rewrite (bool_decide_eq_false_2 _ Hne).
    + clear E IH. induction kvs as [|kw kws IH] using rev_ind; [done|].
      rewrite fmap_app. simpl. rewrite field_snoc in F. rewrite !field_snoc. case_bool_decide as G; [done|].
      by rewrite IH.
  - rewrite (bool_decide_eq_false_2 _ Hne) in E |- *.
    destruct (decide (kv.1 = k)) as [<-|Hk].
    + rewrite bool_decide_eq_true_2 by done. rewrite bool_decide_eq_false_2 by congruence. done.
    + rewrite (bool_decide_eq_false_2 _ Hk), IH by done. done.
Qed.

Lemma jset_keys k v kvs : (jset k v kvs).*1 = if jhas k kvs then kvs.*1 else kvs.*1 ++ [k].
Proof.
  unfold jset. destruct (jhas k kvs); [|by rewrite fmap_app].
  rewrite <-list_fmap_compose. apply list_fmap_ext. intros i kv _. simpl. by case_bool_decide.
Qed.

(** ** What a converted schema is *)

(** Keywords a strict provider is sent. *)
Definition STRICT : list string :=
  ["type"; "properties"; "required"; "additionalProperties"; "items"; "$defs"; "$ref"; "anyOf"; "enum"; "description"].

Definition parts (out : list (string * json)) : list json :=
  values_of "properties" out ++ values_of "anyOf" out ++ items_of out ++ values_of "$defs" out.

(** Only strict keywords; every object lists all its properties as required and allows no other. *)
Inductive strict : json → Prop :=
| strict_node out :
    (∀ k v, field k out = Some v → k ∈ STRICT) →
    (jis (field "type" out) "object" = true → ∃ props,
       field "properties" out = Some (JObj props) ∧ field "required" out = Some (key_list props) ∧
       field "additionalProperties" out = Some (JBool false)) →
    Forall strict (parts out) →
    strict (JObj out).

Lemma need_Some b x : need b = Some x ↔ b = true.
Proof. destruct x. by destruct b. Qed.

Lemma narrowed_fields node out :
  narrowed node = Some out →
  (∀ k, field k out = if bool_decide (k ∈ "title" :: "default" :: "const" :: STRING_RULES) then None
                      else if bool_decide (k = "enum") then match field "const" node with
                             | Some c => Some (JArr [c]) | None => field "enum" node end
                      else field k node) ∧
  (field "const" node = None ∨ field "enum" node = None).
Proof.
  unfold narrowed. rewrite field_jdrop. change (bool_decide ("const" ∈ "title" :: "default" :: STRING_RULES)) with false.
  cbv iota. destruct (field "const" node) as [c|] eqn:Ec.
  - rewrite field_jhas, field_jdrop.
    change (bool_decide ("enum" ∈ "title" :: "default" :: STRING_RULES)) with false. cbv iota.
    destruct (field "enum" node) eqn:Ee; [done|]. intros [= <-]. split; [|by right].
    intros k. rewrite field_jset, !field_jdrop.
    destruct (decide (k = "enum")) as [->|Hk]; [done|].
    rewrite (bool_decide_eq_false_2 ("enum" = k)) by congruence. rewrite (bool_decide_eq_false_2 _ Hk).
    destruct (decide (k ∈ "title" :: "default" :: "const" :: STRING_RULES)) as [Hin|Hin].
    + rewrite (bool_decide_eq_true_2 _ Hin). repeat case_bool_decide; try done. set_solver.
    + rewrite (bool_decide_eq_false_2 _ Hin). rewrite !bool_decide_eq_false_2 by set_solver. done.
  - intros [= <-]. split; [|by left]. intros k. rewrite field_jdrop.
    destruct (decide (k = "const")) as [->|Hc]; [by rewrite bool_decide_eq_false_2 by set_solver|].
    destruct (decide (k ∈ "title" :: "default" :: STRING_RULES)) as [Hin|Hin].
    + rewrite (bool_decide_eq_true_2 _ Hin). rewrite bool_decide_eq_true_2 by set_solver. done.
    + rewrite (bool_decide_eq_false_2 _ Hin). rewrite bool_decide_eq_false_2 by set_solver.
      by destruct (decide (k = "enum")) as [->|Hk]; [|rewrite (bool_decide_eq_false_2 _ Hk)].
Qed.

(** What the checks of a node establish. *)
Record checked (root : bool) (node out : list (string * json)) : Prop := {
  ck_keys : ∀ k v, field k out = Some v → k ∈ STRICT;
  ck_field : ∀ k, k ∉ "enum" :: "title" :: "default" :: "const" :: STRING_RULES → field k out = field k node;
  ck_enum : field "enum" out = match field "const" node with Some c => Some (JArr [c]) | None => field "enum" node end;
  ck_const : field "const" node = None ∨ field "enum" node = None;
  ck_ref : field "$ref" out = None ∨ (∃ t, field "$ref" out = Some (JStr t)) ∧ ∀ k, k ≠ "$ref" → field k out = None;
  ck_any : field "anyOf" out = None ∨ ∃ l, field "anyOf" out = Some (JArr l);
  ck_object : if jis (field "type" out) "object"
              then (∃ props, field "properties" out = Some (JObj props)) ∧
                   field "additionalProperties" out = Some (JBool false)
              else field "properties" out = None ∧ field "required" out = None ∧
                   field "additionalProperties" out = None;
  ck_items : jis (field "type" out) "array" = false → field "items" out = None;
  ck_defs : if root then field "$defs" out = None ∨ ∃ ds, field "$defs" out = Some (JObj ds)
            else field "$defs" out = None }.

Lemma elem_of_keys k v (kvs : list (string * json)) : field k kvs = Some v → k ∈ kvs.*1.
Proof. intros E. pose proof (field_jhas k kvs) as F. rewrite E in F. by apply bool_decide_eq_true_1 in F. Qed.

Lemma not_jhas k kvs : jhas k kvs = false → field k kvs = None.
Proof. rewrite field_jhas. by destruct (field k kvs). Qed.

Lemma checked_node_checked root node out : checked_node root node = Some out → checked root node out.
Proof.
  unfold checked_node. intros E.
  apply bind_Some in E as ([] & Hall%need_Some & E). apply bind_Some in E as ([] & Hrules & E).
  apply bind_Some in E as (out' & Hn & E). destruct (narrowed_fields _ _ Hn) as [Hf Hc].
  apply bind_Some in E as ([] & Hroot & E). apply bind_Some in E as ([] & Hkind & E).
  apply bind_Some in E as ([] & Hobj & E). apply bind_Some in E as ([] & Hitems%need_Some & E).
  apply bind_Some in E as ([] & Hdefs%need_Some & E). apply bind_Some in E as ([] & Henum & [= ->]).
  assert (∀ k v, field k out = Some v → k ∈ STRICT) as Hkeys.
  { intros k v E. rewrite Hf in E. case_bool_decide as Hd; [done|].
    assert (k ∈ ALLOWED) as Ha.
    { case_bool_decide as He; [subst; vm_compute; set_solver|].
      apply elem_of_keys in E. by apply (proj1 (forallb_elem _ _) Hall), bool_decide_eq_true_1 in E. }
    unfold ALLOWED in Ha. unfold STRICT. unfold STRING_RULES in Hd. set_solver. }
  split; try done.
  - intros k Hk. rewrite Hf. rewrite !bool_decide_eq_false_2 by set_solver. done.
  - by rewrite Hf.
  - destruct (jhas "$ref" out) eqn:Er; [|left; by apply not_jhas]. right.
    apply need_Some, andb_true_iff in Hkind as [Hone%bool_decide_eq_true_1 Hstr]. split.
    + destruct (field "$ref" out) as [[]|]; try done. eauto.
    + intros k Hk. destruct (field k out) eqn:F; [|done]. apply elem_of_keys in F. rewrite Hone in F. set_solver.
  - destruct (jhas "anyOf" out) eqn:Ea; [|left; by apply not_jhas].
    destruct (jhas "$ref" out) eqn:Er.
    + apply need_Some, andb_true_iff in Hkind as [Hone%bool_decide_eq_true_1 _].
      unfold jhas in Ea. rewrite Hone in Ea. apply bool_decide_eq_true_1 in Ea. set_solver.
    + apply need_Some in Hkind. right. destruct (field "anyOf" out) as [[]|]; try (by rewrite andb_false_r in Hkind). eauto.
  - destruct (jis (field "type" out) "object").
    + destruct (field "properties" out) as [[]|]; try done.
      destruct (default (JArr []) (field "required" out)); try done.
      apply need_Some, andb_true_iff in Hobj as [Ha _]. split; [eauto|].
      by destruct (field "additionalProperties" out) as [[|[]| | | | |]|].
    + apply need_Some, negb_true_iff in Hobj. simpl in Hobj. rewrite !orb_false_iff in Hobj.
      destruct Hobj as (? & ? & ? & _). by split_and!; apply not_jhas.
  - intros Ha. rewrite Ha in Hitems. simpl in Hitems. by apply negb_true_iff, not_jhas in Hitems.
  - destruct root.
    + destruct (jhas "$defs" out) eqn:Ed; [|left; by apply not_jhas]. simpl in Hdefs.
      destruct (field "$defs" out) as [[]|]; try done. eauto.
    + rewrite orb_false_r in Hdefs. by apply negb_true_iff, not_jhas in Hdefs.
Qed.

(** ** The conversion of the parts *)

Lemma map_values_Some f kvs kvs' : map_values f kvs = Some kvs' →
  Forall2 (λ a b : string * json, b.1 = a.1 ∧ f a.2 = Some b.2) kvs kvs'.
Proof.
  unfold map_values. intros E%mapM_Some_1. induction E as [|a b l k Hab _ IH]; constructor; [|done].
  apply bind_Some in Hab as (v & Hv & [= <-]). done.
Qed.

Lemma map_values_keys f kvs kvs' : map_values f kvs = Some kvs' → kvs'.*1 = kvs.*1.
Proof. intros E%map_values_Some. induction E as [|a b l k [Hab _] _ IH]; [done|]. csimpl. by rewrite Hab, IH. Qed.

Lemma map_values_field f kvs kvs' k : map_values f kvs = Some kvs' →
  match field k kvs with
  | Some v => ∃ v', f v = Some v' ∧ field k kvs' = Some v'
  | None => field k kvs' = None
  end.
Proof.
  intros E%map_values_Some. revert kvs' E.
  induction kvs as [|kv kvs IH] using rev_ind; intros kvs' E; [by inversion E|].
  apply Forall2_app_inv_l in E as (l1 & l2 & E1 & E2 & ->).
  apply Forall2_cons_inv_l in E2 as (b & l3 & [Hb Hf] & E3 & ->). apply Forall2_nil_inv_l in E3 as ->.
  rewrite !field_snoc, Hb. case_bool_decide; [eauto|]. by apply IH.
Qed.

(** What [f] does to the parts of a node. *)
Record converted (f : json → option json) (node out : list (string * json)) : Prop := {
  cv_any : match field "anyOf" node with
           | Some (JArr l) => ∃ l', mapM f l = Some l' ∧ field "anyOf" out = Some (JArr l')
           | _ => field "anyOf" out = field "anyOf" node end;
  cv_props : match field "properties" node with
             | Some (JObj ps) => ∃ ps', map_values f ps = Some ps' ∧ field "properties" out = Some (JObj ps') ∧
                                        field "required" out = Some (key_list ps)
             | _ => field "properties" out = field "properties" node ∧ field "required" out = field "required" node end;
  cv_items : if jis (field "type" node) "array"
             then ∃ v, f (default JNull (field "items" node)) = Some v ∧ field "items" out = Some v
             else field "items" out = field "items" node;
  cv_defs : match field "$defs" node with
            | Some (JObj ds) => ∃ ds', map_values f ds = Some ds' ∧ field "$defs" out = Some (JObj ds')
            | _ => field "$defs" out = field "$defs" node end;
  cv_field : ∀ k, k ∉ ["anyOf"; "properties"; "required"; "items"; "$defs"] → field k out = field k node }.

Lemma field_jset_same k v kvs : field k (jset k v kvs) = Some v.
Proof. by rewrite field_jset, bool_decide_eq_true_2. Qed.
Lemma field_jset_ne k k' v kvs : k' ≠ k → field k (jset k' v kvs) = field k kvs.
Proof. intros. by rewrite field_jset, bool_decide_eq_false_2. Qed.

(** One step of [convert_parts]: it sets some keys and leaves the others. *)
Definition sets (ks : list string) (node out : list (string * json)) : Prop :=
  ∀ k, k ∉ ks → field k out = field k node.

Lemma convert_parts_converted f node out : convert_parts f node = Some out → converted f node out.
Proof.
  unfold convert_parts. intros E.
  apply bind_Some in E as (o1 & E1 & E). apply bind_Some in E as (o2 & E2 & E).
  apply bind_Some in E as (o3 & E3 & E4).
  assert (sets ["anyOf"] node o1 ∧ match field "anyOf" node with
      | Some (JArr l) => ∃ l', mapM f l = Some l' ∧ field "anyOf" o1 = Some (JArr l')
      | _ => field "anyOf" o1 = field "anyOf" node end) as [S1 F1].
  { destruct (field "anyOf" node) as [[]|] eqn:Ea; try (by injection E1 as <-; rewrite Ea).
    apply bind_Some in E1 as (l' & El & [= <-]). split.
    - intros k Hk. apply field_jset_ne. set_solver.
    - exists l'. split; [done|apply field_jset_same]. }
  assert (sets ["properties"; "required"] o1 o2 ∧ match field "properties" o1 with
      | Some (JObj ps) => ∃ ps', map_values f ps = Some ps' ∧ field "properties" o2 = Some (JObj ps') ∧
                                 field "required" o2 = Some (key_list ps)
      | _ => field "properties" o2 = field "properties" o1 ∧ field "required" o2 = field "required" o1 end) as [S2 F2].
  { destruct (field "properties" o1) as [[]|] eqn:Ep; try (by injection E2 as <-; rewrite Ep).
    apply bind_Some in E2 as (ps & El & [= <-]). split.
    - intros k Hk. rewrite !field_jset_ne by set_solver. done.
    - exists ps. split; [done|]. rewrite field_jset_ne by done. by rewrite !field_jset_same. }
  assert (sets ["items"] o2 o3 ∧ if jis (field "type" o2) "array"
             then ∃ v, f (default JNull (field "items" o2)) = Some v ∧ field "items" o3 = Some v
             else field "items" o3 = field "items" o2) as [S3 F3].
  { destruct (jis (field "type" o2) "array"); [|by injection E3 as <-].
    apply bind_Some in E3 as (v & El & [= <-]). split.
    - intros k Hk. apply field_jset_ne. set_solver.
    - exists v. split; [done|apply field_jset_same]. }
  assert (sets ["$defs"] o3 out ∧ match field "$defs" o3 with
            | Some (JObj ds) => ∃ ds', map_values f ds = Some ds' ∧ field "$defs" out = Some (JObj ds')
            | _ => field "$defs" out = field "$defs" o3 end) as [S4 F4].
  { destruct (field "$defs" o3) as [[]|] eqn:Ep; try (by injection E4 as <-; rewrite Ep).
    apply bind_Some in E4 as (ps & El & [= <-]). split.
    - intros k Hk. apply field_jset_ne. set_solver.
    - exists ps. split; [done|apply field_jset_same]. }
  rewrite (S1 "properties"), (S1 "required") in F2 by set_solver.
  rewrite (S2 "items"), (S1 "items"), (S2 "type"), (S1 "type") in F3 by set_solver.
  rewrite (S3 "$defs"), (S2 "$defs"), (S1 "$defs") in F4 by set_solver.
  split.
  - by rewrite (S4 "anyOf"), (S3 "anyOf"), (S2 "anyOf") by set_solver.
  - by rewrite (S4 "properties"), (S4 "required"), (S3 "properties"), (S3 "required") by set_solver.
  - by rewrite (S4 "items") by set_solver.
  - done.
  - intros k Hk. rewrite S4, S3, S2, S1 by set_solver. done.
Qed.

Lemma mapM_Forall {A B} (f : A → option B) (P : B → Prop) l l' :
  (∀ x y, f x = Some y → P y) → mapM f l = Some l' → Forall P l'.
Proof. intros Hf E%mapM_Some_1. induction E; constructor; eauto. Qed.

Lemma map_values_Forall f (P : json → Prop) kvs kvs' :
  (∀ x y, f x = Some y → P y) → map_values f kvs = Some kvs' → Forall P kvs'.*2.
Proof. intros Hf E%map_values_Some. induction E as [|a b l k [_ Hab] _ IH]; constructor; eauto. Qed.

(** A converted node, from its own checks and the conversion of its parts. *)
Lemma convert_inv limit root node out : convert (S limit) root node = Some out →
  ∃ kvs o out', node = JObj kvs ∧ out = JObj out' ∧ checked root kvs o ∧ converted (convert limit false) o out'.
Proof.
  destruct node as [| | | | | |kvs]; try done. cbn [convert]. intros E.
  apply bind_Some in E as (o & Ho & E). apply bind_Some in E as (out' & Hp & [= <-]).
  exists kvs, o, out'. split_and!; try done; [by apply checked_node_checked|by apply convert_parts_converted].
Qed.

Section Node.
Context (root : bool) (node out : list (string * json)) (f : json → option json) (out' : list (string * json)).
Hypothesis Hck : checked root node out.
Hypothesis Hcv : converted f out out'.

Lemma converted_type : field "type" out' = field "type" node.
Proof.
  rewrite (cv_field _ _ _ Hcv), (ck_field _ _ _ Hck); [done| |]; vm_compute; set_solver.
Qed.

Lemma out_type : field "type" out = field "type" node.
Proof. apply (ck_field _ _ _ Hck). vm_compute. set_solver. Qed.

(** The properties of a converted object are all required. *)
Lemma converted_object : jis (field "type" node) "object" = true → ∃ ps ps',
  field "properties" node = Some (JObj ps) ∧ map_values f ps = Some ps' ∧
  field "properties" out' = Some (JObj ps') ∧ field "required" out' = Some (key_list ps) ∧
  field "additionalProperties" node = Some (JBool false) ∧
  field "additionalProperties" out' = Some (JBool false).
Proof.
  intros Ht. pose proof (ck_object _ _ _ Hck) as Ho. rewrite out_type, Ht in Ho.
  destruct Ho as [[ps Hp] Ha]. pose proof (cv_props _ _ _ Hcv) as Hc. rewrite Hp in Hc.
  destruct Hc as (ps' & Em & Ep & Er). exists ps, ps'.
  rewrite (ck_field _ _ _ Hck) in Hp by (vm_compute; set_solver).
  assert (field "additionalProperties" out' = Some (JBool false)) as Ha'.
  { rewrite (cv_field _ _ _ Hcv); [done|set_solver]. }
  rewrite (ck_field _ _ _ Hck) in Ha by (vm_compute; set_solver). done.
Qed.

Lemma converted_other : jis (field "type" node) "object" = false →
  field "properties" out' = None ∧ field "required" out' = None ∧ field "additionalProperties" out' = None.
Proof.
  intros Ht. pose proof (ck_object _ _ _ Hck) as Ho. rewrite out_type, Ht in Ho.
  destruct Ho as (Hp & Hr & Ha). pose proof (cv_props _ _ _ Hcv) as Hc. rewrite Hp in Hc. destruct Hc as [-> ->].
  rewrite (cv_field _ _ _ Hcv); [done|set_solver].
Qed.

Lemma converted_strict : (∀ x y, f x = Some y → strict y) → strict (JObj out').
Proof.
  intros Hf. constructor.
  - intros k v E. destruct (decide (k ∈ ["anyOf"; "properties"; "required"; "items"; "$defs"])) as [Hk|Hk];
      [unfold STRICT; set_solver|].
    rewrite (cv_field _ _ _ Hcv k Hk) in E. by eapply ck_keys.
  - rewrite converted_type. intros (ps & ps' & _ & Em & Ep & Er & _ & Ha)%converted_object.
    exists ps'. split_and!; try done. rewrite Er. unfold key_list. by rewrite (map_values_keys _ _ _ Em).
  - unfold parts. rewrite !Forall_app. split_and!.
    + destruct (jis (field "type" node) "object") eqn:Ht; unfold values_of.
      * apply converted_object in Ht as (ps & ps' & _ & Em & -> & _). by eapply map_values_Forall.
      * by destruct (converted_other Ht) as (-> & _).
    + unfold values_of. pose proof (cv_any _ _ _ Hcv) as Hc.
      destruct (ck_any _ _ _ Hck) as [E|[l E]]; rewrite E in Hc; [by rewrite Hc|].
      destruct Hc as (l' & Em & ->). by eapply mapM_Forall.
    + unfold items_of. pose proof (cv_items _ _ _ Hcv) as Hc.
      destruct (jis (field "type" out) "array") eqn:Ht; [destruct Hc as (v & Em & ->); constructor; eauto|].
      by rewrite Hc, (ck_items _ _ _ Hck Ht).
    + unfold values_of. pose proof (cv_defs _ _ _ Hcv) as Hc. pose proof (ck_defs _ _ _ Hck) as Hd.
      assert (field "$defs" out = None ∨ ∃ ds, field "$defs" out = Some (JObj ds)) as [E|[ds E]]
        by (destruct root; eauto); rewrite E in Hc; [by rewrite Hc|].
      destruct Hc as (l' & Em & ->). by eapply map_values_Forall.
Qed.
End Node.

Lemma convert_strict limit root node out : convert limit root node = Some out → strict out.
Proof.
  revert root node out. induction limit as [|limit IH]; intros root node out; [by destruct node|].
  intros (kvs & o & out' & -> & -> & Hck & Hcv)%convert_inv. eapply converted_strict; eauto.
Qed.

(** ** How deep a schema nests *)

(** One move of a reader of a schema: to what a reference means, or into a part; with the number
    of containers entered so far and the references followed. *)
Inductive visits (defs : list (string * json)) : Z * list text * json → Z * list text * json → Prop :=
| visit_ref level seen kvs ref d :
    field "$ref" kvs = Some (JStr ref) → resolve_ref defs ref = Some d →
    visits defs (level, seen, JObj kvs) (level, seen ++ [ref], d)
| visit_part level seen kvs x :
    field "$ref" kvs = None → x ∈ values_of "properties" kvs ++ values_of "anyOf" kvs ++ items_of kvs →
    visits defs (level, seen, JObj kvs)
      (level + (if is_kind ["object"; "array"] (field "type" kvs) then 1 else 0), seen, x).

(** A reference is defined and not met before; a container is at most the sixth. *)
Definition within (defs : list (string * json)) (c : Z * list text * json) : Prop :=
  match c.2 with
  | JObj kvs =>
      match field "$ref" kvs with
      | Some (JStr ref) => ref ∉ c.1.2 ∧ is_Some (resolve_ref defs ref)
      | Some _ => False
      | None => c.1.1 + (if is_kind ["object"; "array"] (field "type" kvs) then 1 else 0) ≤ 5
      end
  | _ => False
  end.

Lemma depth_step limit defs c : depth limit defs c.1.1 c.1.2 c.2 = Some tt →
  within defs c ∧ ∀ c', visits defs c c' → ∃ limit', depth limit' defs c'.1.1 c'.1.2 c'.2 = Some tt.
Proof.
  destruct c as [[level seen] node]. destruct limit as [|limit]; [by destruct node|].
  destruct node as [| | | | | |kvs]; try done. cbn [depth fst snd]. unfold within. cbn [fst snd].
  destruct (field "$ref" kvs) as [v|] eqn:Er.
  - destruct v as [| | | |ref| |]; try done. intros E.
    apply bind_Some in E as ([] & Hs%need_Some%negb_true_iff%bool_decide_eq_false_1 & E).
    apply bind_Some in E as (d & Hd & E). split; [eauto|]. intros c' V. inversion V; simplify_eq. by exists limit.
  - intros E. apply bind_Some in E as ([] & Hl%need_Some%Z.leb_le & E).
    apply bind_Some in E as (us & Hm%mapM_Some_1 & _). split; [done|]. intros c' V. inversion V; simplify_eq.
    exists limit. cbn [fst snd].
    match goal with Hx : _ ∈ _ ++ _ |- _ => apply list_elem_of_lookup in Hx as [i Hi] end.
    destruct (Forall2_lookup_l _ _ _ _ _ Hm Hi) as ([] & _ & E'). done.
Qed.

Lemma depth_within limit defs level seen node c :
  depth limit defs level seen node = Some tt → rtc (visits defs) (level, seen, node) c → within defs c.
Proof.
  intros E R. remember (level, seen, node) as c0 eqn:Ec.
  assert (depth limit defs c0.1.1 c0.1.2 c0.2 = Some tt) as E0 by (by rewrite Ec). clear Ec E.
  revert limit E0. induction R as [c|c c1 c' V R IH]; intros limit E0; [by eapply depth_step|].
  destruct (depth_step _ _ _ E0) as [_ Hn]. destruct (Hn _ V) as [limit' E1]. eauto.
Qed.

(** ** What a schema accepts *)

(** The string rules of a node ([format], [minLength], [maxLength], [pattern]) on a string;
    without rules every string is accepted. *)
Class StringRules := {
  text_ok : list (string * json) → text → bool;
  text_ok_none t : text_ok [] t = true }.

Definition rules (kvs : list (string * json)) : list (string * json) :=
  select (λ kv, bool_decide (kv.1 ∈ STRING_RULES)) kvs.

Definition of_type (kind : option json) (v : json) : bool :=
  match kind with
  | None => true
  | Some _ => match v with
              | JObj _ => jis kind "object" | JArr _ => jis kind "array" | JStr _ => jis kind "string"
              | JInt _ => jis kind "integer" || jis kind "number" | JFloat _ => jis kind "number"
              | JBool _ => jis kind "boolean" | JNull => jis kind "null"
              end
  end.

Definition props (kvs : list (string * json)) : list (string * json) :=
  match field "properties" kvs with Some (JObj ps) => ps | _ => [] end.

Definition required_ok (kvs fs : list (string * json)) : bool :=
  match field "required" kvs with
  | Some (JArr l) => forallb (λ r, match r with JStr t => existsb (λ k, bool_decide (cps k = t)) fs.*1 | _ => false end) l
  | Some _ => false
  | None => true
  end.

Definition closed_ok (kvs fs : list (string * json)) : bool :=
  match field "additionalProperties" kvs with
  | Some (JBool false) => forallb (λ k, jhas k (props kvs)) fs.*1
  | _ => true
  end.

(** JSON Schema validation, for the keywords the schemas use; [n] bounds the references followed. *)
Fixpoint validates `{StringRules} (n : nat) (defs : list (string * json)) (s v : json) : bool :=
  match n, s with
  | S n', JObj kvs =>
      match field "$ref" kvs with
      | Some (JStr r) => match resolve_ref defs r with Some d => validates n' defs d v | None => false end
      | Some _ => false
      | None => true
      end
      && match field "anyOf" kvs with
         | Some (JArr l) => existsb (λ a, validates n' defs a v) l
         | Some _ => false
         | None => true
         end
      && of_type (field "type" kvs) v
      && match field "const" kvs with Some c => bool_decide (v = c) | None => true end
      && match field "enum" kvs with Some (JArr l) => bool_decide (v ∈ l) | Some _ => false | None => true end
      && match v with
         | JStr t => text_ok (rules kvs) t
         | JArr l => match field "items" kvs with Some i => forallb (validates n' defs i) l | None => true end
         | JObj fs =>
             forallb (λ ks, match field ks.1 fs with Some w => validates n' defs ks.2 w | None => true end) (props kvs)
             && required_ok kvs fs && closed_ok kvs fs
         | _ => true
         end
  | _, _ => false
  end.

(** ** Complete schemas *)

Definition complete (x : json) : Prop := ∃ s, require_fields s = Some x.

Lemma complete_field k kvs v : complete (JObj kvs) → k ≠ "required" → field k kvs = Some v → complete v.
Proof.
  intros [s Es] Hk E. destruct s as [| | | | |l|x]; try done; cbn [require_fields] in Es.
  { by apply bind_Some in Es as (? & _ & ?). }
  apply bind_Some in Es as (x' & Ex & Es). apply bind_Some in Es as (o & Eo & [= <-]).
  assert (field k x' = Some v) as E'.
  { unfold with_required in Eo. destruct (field "properties" x); [|by simplify_eq].
    apply bind_Some in Eo as (r & _ & [= <-]). by rewrite field_jset_ne in E. }
  pose proof (map_values_field _ _ _ k Ex) as F. destruct (field k x) as [w|]; [|congruence].
  destruct F as (w' & Fw & F). exists w. congruence.
Qed.

Lemma complete_items l v : complete (JArr l) → v ∈ l → complete v.
Proof.
  intros [s Es] Hv. destruct s as [| | | | |l0|x]; try done; cbn [require_fields] in Es.
  - apply bind_Some in Es as (l' & El%mapM_Some_1 & [= ->]). apply list_elem_of_lookup in Hv as [i Hi].
    destruct (Forall2_lookup_r _ _ _ _ _ El Hi) as (y & _ & Hy). by exists y.
  - apply bind_Some in Es as (? & _ & Es). by apply bind_Some in Es as (? & _ & ?).
Qed.

(** The parts of an object whose keys can all be converted are complete, and a node that has them as
    properties requires them all. *)
Lemma complete_values limit kvs ps : complete (JObj kvs) → map_values (convert limit false) kvs = Some ps →
  ∃ x, map_values require_fields x = Some kvs.
Proof.
  intros [s Es] E. destruct s as [| | | | |l0|x]; try done; cbn [require_fields] in Es.
  { by apply bind_Some in Es as (? & _ & ?). }
  apply bind_Some in Es as (x' & Ex & Es). apply bind_Some in Es as (o & Eo & [= <-]).
  unfold with_required in Eo. destruct (field "properties" x) as [v|]; [|by simplify_eq; eauto].
  apply bind_Some in Eo as (r & Er & [= <-]). exfalso.
  pose proof (map_values_field _ _ _ "required" E) as F. rewrite field_jset_same in F.
  destruct F as (w & Fw & _). destruct v; simplify_eq/=; by destruct limit.
Qed.

Lemma complete_required limit kvs ps ps' : complete (JObj kvs) →
  field "properties" kvs = Some (JObj ps) → map_values (convert limit false) ps = Some ps' →
  field "required" kvs = Some (key_list ps).
Proof.
  intros [s Es] E Em. destruct s as [| | | | |l0|x]; try done; cbn [require_fields] in Es.
  { by apply bind_Some in Es as (? & _ & ?). }
  apply bind_Some in Es as (x' & Ex & Es). apply bind_Some in Es as (o & Eo & [= <-]).
  unfold with_required in Eo. pose proof (map_values_field _ _ _ "properties" Ex) as F.
  destruct (field "properties" x) as [v|]; [|simplify_eq; congruence].
  destruct F as (v' & Fv & F). apply bind_Some in Eo as (r & Er & [= <-]).
  rewrite field_jset_ne in E by done. rewrite F in E. injection E as ->. rewrite field_jset_same. f_equal.
  destruct v as [| | | | |l|y]; try done; cbn [require_fields] in Fv.
  { by apply bind_Some in Fv as (? & _ & ?). }
  destruct (complete_values limit ps ps') as [z Hz]; [by exists (JObj y)|done|].
  injection Er as <-. unfold key_list. do 2 f_equal.
  apply bind_Some in Fv as (y' & Ey & Fv). apply bind_Some in Fv as (o & Eo & [= ->]).
  unfold with_required in Eo. destruct (field "properties" y) as [w|] eqn:Fy.
  - exfalso. apply bind_Some in Eo as (r & Er & [= <-]).
    pose proof (map_values_field _ _ _ "required" Em) as G. rewrite field_jset_same in G.
    destruct G as (u & Fu & _). destruct w; simplify_eq/=; by destruct limit.
  - injection Eo as ->. by rewrite (map_values_keys _ _ _ Ey).
Qed.

(** ** The converted schema accepts what the complete schema accepts *)

Section Relax.
Context `{StringRules}.

Lemma existsb_mapM {A B} (f : A → option B) (p : A → bool) (q : B → bool) l l' :
  (∀ x y, x ∈ l → f x = Some y → p x = true → q y = true) →
  mapM f l = Some l' → existsb p l = true → existsb q l' = true.
Proof.
  intros Hf Em%mapM_Some_1. induction Em as [|x y l l' Hxy _ IH]; [done|]. simpl. rewrite !orb_true_iff.
  intros [Hp|Hp]; [left; eapply Hf; eauto; set_solver|right; apply IH; auto; set_solver].
Qed.

Lemma forallb_map_values f (p q : string * json → bool) kvs kvs' :
  (∀ k x y, (k, x) ∈ kvs → f x = Some y → p (k, x) = true → q (k, y) = true) →
  map_values f kvs = Some kvs' → forallb p kvs = true → forallb q kvs' = true.
Proof.
  intros Hf Em%map_values_Some. induction Em as [|[k x] [k' y] l l' [Hk Hxy] _ IH]; [done|]. simpl in Hk, Hxy. subst k'.
  simpl. rewrite !andb_true_iff. intros [Hp Hr]. split; [eapply Hf; eauto; set_solver|apply IH; auto; set_solver].
Qed.

(** The definitions of a schema and of its conversion. *)
Definition same_definitions (defs defs' : list (string * json)) : Prop :=
  ∀ ref d, resolve_ref defs ref = Some d →
    ∃ d' limit, resolve_ref defs' ref = Some d' ∧ convert limit false d = Some d' ∧ complete d.

Lemma rules_none kvs : (∀ k v, field k kvs = Some v → k ∈ STRICT) → rules kvs = [].
Proof.
  intros Hk. unfold rules. destruct (select _ kvs) as [|kv l] eqn:E; [done|].
  assert (kv ∈ select (λ kv : string * json, bool_decide (kv.1 ∈ STRING_RULES)) kvs) as Hin by (rewrite E; set_solver).
  apply elem_of_select in Hin as [Hr%bool_decide_eq_true_1 Hin].
  assert (jhas kv.1 kvs = true) as Hj by (apply bool_decide_eq_true_2, list_elem_of_fmap; eauto).
  rewrite field_jhas in Hj. destruct (field kv.1 kvs) eqn:F; [|done]. apply Hk in F.
  assert (forallb (λ k, negb (bool_decide (k ∈ STRICT))) STRING_RULES = true) as Hd by done.
  rewrite forallb_elem in Hd. apply Hd in Hr. by rewrite bool_decide_eq_true_2 in Hr.
Qed.

Lemma values_complete ps x k v : map_values require_fields x = Some ps → (k, v) ∈ ps → complete v.
Proof.
  intros Ex%map_values_Some Hin. apply list_elem_of_lookup in Hin as [i Hi].
  destruct (Forall2_lookup_r _ _ _ _ _ Ex Hi) as (y & _ & _ & Hy). by exists y.2.
Qed.

Lemma key_list_required ps kvs fs : field "required" kvs = Some (key_list ps) →
  required_ok kvs fs = forallb (λ k, jhas k fs) ps.*1.
Proof.
  intros E. unfold required_ok, key_list in *. rewrite E. clear E. induction ps as [|[k p] ps IH]; [done|]. csimpl.
  f_equal; [|apply IH]. unfold jhas. apply eq_bool_prop_intro. rewrite !Is_true_true.
  rewrite existsb_exists, bool_decide_eq_true. split.
  - intros (k' & Hin%list_elem_of_In & Hk%bool_decide_eq_true_1%cps_inj). congruence.
  - intros Hin. exists k. by rewrite <-list_elem_of_In, bool_decide_eq_true.
Qed.

Lemma validates_convert n : ∀ limit root defs defs' s s' v,
  same_definitions defs defs' → complete s → convert limit root s = Some s' →
  validates n defs s v = true → validates n defs' s' v = true.
Proof.
  induction n as [|n IH]; intros limit root defs defs' s s' v Hd Hs Hc; [by destruct s|].
  destruct limit as [|limit]; [by destruct s|].
  apply convert_inv in Hc as (kvs & o & out & -> & -> & Hck & Hcv).
  assert (∀ k, k ∈ ["$ref"; "type"; "description"] → field k out = field k kvs) as Hsame.
  { intros k Hk. rewrite (cv_field _ _ _ Hcv) by set_solver. apply (ck_field _ _ _ Hck).
    unfold STRING_RULES. set_solver. }
  cbn [validates]. rewrite !andb_true_iff. intros [[[[[Href Hany] Htype] Hconst] Henum] Hval].
  assert (∀ k v, field k out = Some v → k ∈ STRICT) as Hstrict.
  { pose proof (converted_strict root kvs o (convert limit false) out Hck Hcv (convert_strict _ _)) as S.
    by inversion S. }
  split_and!.
  - rewrite Hsame by set_solver. destruct (field "$ref" kvs) as [[| | | |r| |]|]; try done.
    destruct (resolve_ref defs r) as [d|] eqn:Er; [|done]. destruct (Hd _ _ Er) as (d' & lim & -> & Hc & Hcomp).
    by apply (IH lim false defs defs' d).
  - pose proof (cv_any _ _ _ Hcv) as Ha. rewrite (ck_field _ _ _ Hck "anyOf") in Ha by (unfold STRING_RULES; set_solver).
    destruct (field "anyOf" kvs) as [[| | | | |l|]|] eqn:E; try done; [|by rewrite Ha].
    destruct Ha as (l' & Em & ->). eapply existsb_mapM; [|done|done]. intros x y Hx Hxy Hp.
    apply (IH limit false defs defs' x); [done| |done|done]. eapply complete_items; [|done]. by apply (complete_field "anyOf" kvs).
  - by rewrite Hsame by set_solver.
  - destruct (field "const" out) as [c|] eqn:E; [|done]. apply Hstrict in E. unfold STRICT in E. set_solver.
  - rewrite (cv_field _ _ _ Hcv) by set_solver. rewrite (ck_enum _ _ _ Hck).
    destruct (field "const" kvs); [|done]. apply bool_decide_eq_true_1 in Hconst as ->. apply bool_decide_eq_true_2. set_solver.
  - destruct v as [| | | |t|l|fs]; try done.
    + rewrite rules_none by done. apply text_ok_none.
    + pose proof (cv_items _ _ _ Hcv) as Hi. rewrite (ck_field _ _ _ Hck "items") in Hi by (unfold STRING_RULES; set_solver).
      destruct (jis (field "type" o) "array") eqn:Ht.
      * destruct Hi as (w & Ew & ->). destruct (field "items" kvs) as [i|] eqn:E; [|by destruct limit].
        rewrite forallb_forall in Hval |- *. intros x Hx. apply (IH limit false defs defs' i); auto. by apply (complete_field "items" kvs).
      * rewrite Hi, <-(ck_field _ _ _ Hck "items") by (unfold STRING_RULES; set_solver).
        by rewrite (ck_items _ _ _ Hck Ht).
    + apply andb_true_iff in Hval as [[Hprops Hreq]%andb_true_iff Hclosed].
      destruct (jis (field "type" kvs) "object") eqn:Ht.
      * destruct (converted_object _ _ _ _ _ Hck Hcv Ht) as (ps & ps' & Ep & Em & Ep' & Er' & Ea & Ea').
        assert (field "required" kvs = Some (key_list ps)) as Er by (by eapply complete_required).
        destruct (complete_values limit ps ps') as [x Hx]; [by apply (complete_field "properties" kvs)|done|].
        rewrite (key_list_required ps out), <-(key_list_required ps kvs) by done.
        unfold closed_ok, props in *. rewrite Ep, Ea in *. rewrite Ep', Ea', !andb_true_iff. split_and!; [|done|].
        -- eapply forallb_map_values; [|exact Em|exact Hprops]. intros k a b Hin Hab. simpl.
           destruct (field k fs); [|done]. intros. apply (IH limit false defs defs' a); auto. by eapply values_complete.
        -- rewrite forallb_elem in Hclosed |- *. intros k Hk. specialize (Hclosed k Hk). unfold jhas in *.
           by rewrite (map_values_keys _ _ _ Em).
      * destruct (converted_other _ _ _ _ _ Hck Hcv Ht) as (Ep' & Er' & Ea').
        unfold props, required_ok, closed_ok. by rewrite Ep', Er', Ea'.
Qed.
End Relax.

Lemma map_values_resolve f ds ds' ref : map_values f ds = Some ds' →
  match resolve_ref ds ref with
  | Some d => ∃ k d', (k, d) ∈ ds ∧ f d = Some d' ∧ resolve_ref ds' ref = Some d'
  | None => True
  end.
Proof.
  intros E%map_values_Some. revert ds' E. unfold resolve_ref.
  induction ds as [|kv ds IH] using rev_ind; intros ds' E; [done|].
  apply Forall2_app_inv_l in E as (l1 & l2 & E1 & E2 & ->).
  apply Forall2_cons_inv_l in E2 as (b & l3 & [Hb Hf] & E3 & ->). apply Forall2_nil_inv_l in E3 as ->.
  rewrite !foldl_app. simpl. rewrite Hb. case_bool_decide.
  - exists kv.1, b.2. destruct kv. split_and!; [set_solver|done|done].
  - specialize (IH l1 E1). destruct (foldl _ None ds); [|done].
    destruct IH as (k & d' & Hin & Hd & Hr). exists k, d'. split_and!; [set_solver|done|done].
Qed.

Lemma convert_definitions limit schema out : complete schema → convert limit true schema = Some out →
  same_definitions (definitions schema) (definitions out).
Proof.
  intros Hs Hc ref d Er. destruct limit as [|limit]; [by destruct schema|].
  apply convert_inv in Hc as (kvs & o & out' & -> & -> & Hck & Hcv). unfold definitions in *.
  pose proof (cv_defs _ _ _ Hcv) as Hd.
  rewrite (ck_field _ _ _ Hck "$defs") in Hd by (unfold STRING_RULES; set_solver).
  destruct (field "$defs" kvs) as [[| | | | | |ds]|] eqn:E; try done.
  destruct Hd as (ds' & Em & ->). pose proof (map_values_resolve _ _ _ ref Em) as Hr. rewrite Er in Hr.
  destruct Hr as (k & d' & Hin & Hcd & Hr). exists d', limit. split_and!; [done|done|].
  destruct (complete_values limit ds ds') as [x Hx]; [by apply (complete_field "$defs" kvs)|done|].
  by eapply values_complete.
Qed.

(** C40: a schema that is sent to a strict provider is closed - only the supported keywords, every
    object requires all its properties and allows no other -, has at most 100 properties, and however a
    reader descends through parts and references it meets at most six nested containers and no
    reference that is undefined or followed before.  When every object of the application's schema
    requires all its properties, as [generation_schema] makes it, every value that schema accepts is
    still accepted: the provider is only asked for less, never for something else. *)
Theorem provider_schema_sound `{StringRules} limit schema out :
  provider_schema limit schema = Some out →
  strict out ∧ (∃ n, count_properties limit out = Some n ∧ n ≤ 100) ∧
  (∀ s c, s ∈ out :: (definitions out).*2 → rtc (visits (definitions out)) (-1, [], s) c → within (definitions out) c) ∧
  (∀ app, require_fields app = Some schema → ∀ n v,
     validates n (definitions schema) schema v = true → validates n (definitions out) out v = true).
Proof.
  unfold provider_schema. intros E. apply bind_Some in E as (out' & Hc & E).
  apply bind_Some in E as (n & Hn & E). apply bind_Some in E as ([] & Hle%need_Some%Z.leb_le & E).
  apply bind_Some in E as ([] & Hd & E). apply bind_Some in E as (us & Hds%mapM_Some_1 & [= ->]).
  split; [by eapply convert_strict|]. split; [eauto|]. split.
  - intros s c [->|Hs]%elem_of_cons R; [by eapply depth_within|].
    apply list_elem_of_lookup in Hs as [i Hi]. destruct (Forall2_lookup_l _ _ _ _ _ Hds Hi) as ([] & _ & Hx).
    by eapply depth_within.
  - intros app Happ k v. assert (complete schema) as Hs by (by exists app).
    apply (validates_convert k limit true); [by eapply convert_definitions|done|done].
Qed.

(** A reduced stage result: a reference, a constant, a union and string rules. *)
Definition sample_schema : json :=
  JObj [("$defs", JObj [("Claim", JObj [("additionalProperties", JBool false);
                                        ("properties", JObj [("text", JObj [("minLength", JInt 1); ("type", jstr "string")]);
                                                             ("subject", JObj [("anyOf", JArr [JObj [("type", jstr "string")];
                                                                                               JObj [("type", jstr "null")]]);
                                                                               ("default", JNull)])]);
                                        ("required", JArr [jstr "text"]); ("title", jstr "Claim"); ("type", jstr "object")])]);
        ("additionalProperties", JBool false);
        ("properties", JObj [("schema_version", JObj [("const", jstr "stage-result/1"); ("type", jstr "string")]);
                             ("claims", JObj [("items", JObj [("$ref", jstr "#/$defs/Claim")]); ("type", jstr "array")])]);
        ("required", JArr [jstr "claims"]); ("type", jstr "object")].

Definition sample_result : json :=
  JObj [("schema_version", jstr "stage-result/1");
        ("claims", JArr [JObj [("text", jstr "a"); ("subject", JNull)]])].

#[export] Instance length_rules : StringRules := {|
  text_ok rs t := match field "minLength" rs with Some (JInt n) => n <=? len t | _ => true end;
  text_ok_none t := eq_refl |}.

Definition complete_sample : json := Eval vm_compute in default JNull (require_fields sample_schema).
Definition strict_sample : json := Eval vm_compute in default JNull (provider_schema 20 complete_sample).

Lemma provider_schema_sound_witness :
  require_fields sample_schema = Some complete_sample ∧
  validates 9 (definitions complete_sample) complete_sample sample_result = true ∧
  validates 9 (definitions strict_sample) strict_sample sample_result = true ∧ strict strict_sample.
Proof.
  split; [vm_compute; reflexivity|]. split; [vm_compute; reflexivity|].
  destruct (provider_schema_sound 20 complete_sample strict_sample) as (Hs & _ & _ & Hr); [vm_compute; reflexivity|].
  split; [|done]. apply (Hr sample_schema); vm_compute; reflexivity.
Defined.

(** The schema without completion is narrowed: a claim may leave its subject out, the provider must not. *)
Example strict_needs_completion :
  (λ v, (validates 9 (definitions sample_schema) sample_schema v,
         validates 9 (definitions strict_sample) strict_sample v))
    (JObj [("claims", JArr [JObj [("text", jstr "a")]])]) = (true, false).
Proof. vm_compute. reflexivity. Qed.

(** A recursive definition is refused. *)
Example recursive_schema_refused :
  provider_schema 100 (JObj [("type", jstr "object"); ("additionalProperties", JBool false);
    ("properties", JObj [("next", JObj [("$ref", jstr "#/$defs/Node")])]);
    ("$defs", JObj [("Node", JObj [("type", jstr "object"); ("additionalProperties", JBool false);
       ("properties", JObj [("next", JObj [("$ref", jstr "#/$defs/Node")])])])])]) = None.
Proof. vm_compute. reflexivity. Qed.

End Schema.

(** [generation_schema_for_capability] and [validate_schema_provider] of [llm/structured.py] *)
Definition generation_schema_for_capability (limit : nat) (c : CapabilityProfile) (schema : json)
    : result InferenceError json :=
  match schema_profile c with
  | None => Ok schema
  | Some p =>
      if bool_decide (p = PROFILE) && bool_decide (structured_output c = so_json_schema)
      then match Schema.provider_schema limit schema with
           | Some s => Ok s
           | None => Err InferenceConfigurationError
           end
      else Err InferenceConfigurationError
  end.

Definition validate_schema_provider (c : CapabilityProfile) (provider : string) : result InferenceError unit :=
  match schema_profile c with
  | Some _ => if bool_decide (provider = "openai_compatible") then Ok tt else Err InferenceConfigurationError
  | None => Ok tt
  end.
