(* ===== verification/Execution.v ===== *)
(** * Governed execution of one inference

    [governance/execution.py]: [GovernedExecution.execute].  The reservation ledger and
    the provider admission are used through the interfaces [ReservationLedger] and
    [InferenceAdmissionPort]; the ledgers of [governance/ledger.py] and
    [llm/admission.py] implement them.  The provider and the callbacks are external:
    their outcomes are parameters.  Other processes share both ledgers: [env i] is what
    they do before the i-th ledger call of the execution. *)

From stdpp Require Import base tactics list strings option sets relations.
From Stdlib Require Import ZArith NArith QArith Lia.
From S2P Require Import Prelude Json Contracts JobModels Sample.
From S2P Require Import ProviderAdmission Governance GovernanceTheorems Inference.

Local Open Scope Z_scope.

(** What [uuid4()] and [time.time()] give to one call. *)
Record draw := { d_ticket : uuid; d_event : uuid; d_clock : nat → Q }.

(** ** The interfaces *)

Class ReservationLedger (G : Type) := {
  rl_inv : G → Prop;
  rl_state : G → uuid → option RState;
  rl_reserve : GPrincipal → CallIdentity → Z → Z → Workload → draw → G → result gov_exn uuid * G;
  rl_transition : uuid → RState → RState → G → result gov_exn unit * G;
  rl_settle : uuid → option InferenceUsage → G → result gov_exn unit * G;
  rl_reserve_inv p i n m w d g : rl_inv g → rl_inv (rl_reserve p i n m w d g).2;
  rl_transition_inv t b a g : rl_inv g → rl_inv (rl_transition t b a g).2;
  rl_settle_inv t u g : rl_inv g → rl_inv (rl_settle t u g).2;
  rl_transition_spec t b a g : rl_inv g →
    match rl_transition t b a g with
    | (Ok _, g') => rl_state g t = Some b ∧ rl_state g' t = Some a
    | (Err _, g') => g' = g
    end;
  rl_settle_spec t u g : rl_inv g →
    match rl_settle t u g with
    | (Ok _, g') => rl_state g' t = Some SETTLED ∨ rl_state g' t = Some UNKNOWN
    | (Err _, g') => g' = g
    end }.

Class InferenceAdmissionPort (A : Type) := {
  ap_inv : A → Prop;
  ap_live : A → uuid → bool;
  ap_acquire : CallIdentity → Z → Z → Workload → draw → A → result inference_exn uuid * A;
  ap_finish : uuid → option InferenceUsage → string → A → result inference_exn unit * A;
  ap_acquire_inv i n m w d a : ap_inv a → ap_inv (ap_acquire i n m w d a).2;
  ap_finish_inv t u o a : ap_inv a → ap_inv (ap_finish t u o a).2;
  ap_acquire_spec i n m w d a : ap_inv a →
    match ap_acquire i n m w d a with
    | (Ok t, a') => ap_live a t = false ∧ ap_live a' t = true
    | (Err _, a') => a' = a
    end;
  ap_finish_spec t u o a : ap_inv a →
    match ap_finish t u o a with
    | (Ok _, a') => ap_live a t = true ∧ ap_live a' t = false
    | (Err _, a') => a' = a
    end }.

(** ** The execution *)

(** An [InferenceError] has a category, and sometimes usage. *)
Inductive exn :=
| XInference (category : string) (usage : option InferenceUsage)
| XGovernance (e : gov_exn)
| XOther (kind : string).

Definition of_admission (e : inference_exn) : exn :=
  match e with
  | ConfigurationError _ => XInference "configuration_failure" None
  | RateLimitError _ => XInference "overloaded" None
  end.

(** [accounting_failed] is set on [primary]; [Cleanup] is a failed cleanup that is raised
    itself. *)
Inductive outcome :=
| Returned (r : GenerationResult)
| Raised (e : exn) (accounting_failed : bool)
| Cleanup (e : exn).

(** Ghost events: the reservation is claimed, the admission granted, the provider called. *)
Inductive xevent (G A : Type) :=
| EvClaimed (t : uuid)
| EvAcquired (pt : uuid)
| EvCalled (t pt : uuid) (g : G) (a : A).
Arguments EvClaimed {G A}. Arguments EvAcquired {G A}. Arguments EvCalled {G A}.

Record world (G A : Type) := { w_gov : G; w_adm : A; w_log : list (xevent G A) }.
Arguments w_gov {G A}. Arguments w_adm {G A}. Arguments w_log {G A}. Arguments Build_world {G A}.

Section Execution.
Context `{Runtime} {G A : Type} `{ReservationLedger G, InferenceAdmissionPort A}.
Variable env : nat → G * A → G * A.

Definition gov {X} (i : nat) (f : G → result gov_exn X * G) (w : world G A) : result exn X * world G A :=
  let ga := env i (w_gov w, w_adm w) in
  let rg := f ga.1 in
  (match rg.1 with Ok x => Ok x | Err e => Err (XGovernance e) end, Build_world rg.2 ga.2 (w_log w)).

Definition adm {X} (i : nat) (f : A → result inference_exn X * A) (w : world G A) : result exn X * world G A :=
  let ga := env i (w_gov w, w_adm w) in
  let ra := f ga.2 in
  (match ra.1 with Ok x => Ok x | Err e => Err (of_admission e) end, Build_world ga.1 ra.2 (w_log w)).

Definition record (ev : xevent G A) (w : world G A) : world G A :=
  Build_world (w_gov w) (w_adm w) (w_log w ++ [ev]).

(** [len(canonical({'system':...,'data':...,'schema':...}).encode())]: ASCII text. *)
Definition estimate_tokens (r : GenerationRequest) : Z :=
  len (canonical (JObj [("system", JStr (gr_system r)); ("data", JStr (gr_data r));
                        ("schema", gr_schema r)]))
  + overhead_tokens (gr_capability r) + safety_tokens (gr_capability r).

Definition interactive_identity (p : GPrincipal) (job step : uuid) (provider model : string)
    (r : GenerationRequest) : CallIdentity := {|
  ci_scope := identity (gp_scope p); ci_job := job; ci_step := step; ci_attempt := 1;
  ci_profile := "interactive/1"; ci_provider := provider; ci_role := gr_role r;
  ci_model := model; ci_capability := cap_version (gr_capability r) |}.

(** The checks before any ledger is touched. *)
Definition execute_checks (r : GenerationRequest) (i : CallIdentity) (provider model : string)
    : result exn Z :=
  let cap := gr_capability r in
  if bool_decide (ci_provider i = provider) && bool_decide (ci_model i = model)
     && bool_decide (ci_role i = gr_role r) && bool_decide (ci_capability i = cap_version cap)
  then
    let estimate := estimate_tokens r in
    if (gr_output_tokens r <=? 0) || (max_output_tokens cap <? gr_output_tokens r)
       || (context_tokens cap <? estimate + gr_output_tokens r)
    then Err (XInference "configuration_failure" None)
    else Ok estimate
  else Err (XInference "configuration_failure" None).

(** The [try] body: revalidation, the caller's check, the claim, the provider. *)
Definition body (check2 check3 : option exn) (run : result exn GenerationResult) (t pt : uuid)
    (w : world G A) : result exn GenerationResult * bool * world G A :=
  match check2, check3 with
  | Some e, _ => (Err e, false, w)
  | None, Some e => (Err e, false, w)
  | None, None =>
      let '(r, w1) := gov 3 (rl_transition t ADMITTING STARTED) w in
      match r with
      | Err e => (Err e, false, w1)
      | Ok _ => (run, true, record (EvCalled t pt (w_gov w1) (w_adm w1)) w1)
      end
  end.

(** The [finally] block and what leaves the function. *)
Definition cleanup (t pt : uuid) (r : result exn GenerationResult) (started : bool) (w : world G A)
    : outcome * world G A :=
  let '(usage, outcome) :=
    match r with
    | Ok x => (gr_usage x, "success")
    | Err (XInference c u) => (u, c)
    | Err _ => (None, "unknown")
    end in
  let '(c1, w1) := if started then gov 4 (rl_settle t usage) w
                   else gov 4 (rl_transition t ADMITTING RELEASED) w in
  let '(c2, w2) := adm 5 (ap_finish pt usage outcome) w1 in
  let failed := match c1, c2 with Err e, _ => Some e | Ok _, Err e => Some e | Ok _, Ok _ => None end in
  (match r, failed with
   | Ok x, None => Returned x
   | Ok _, Some e => Cleanup e
   | Err e, None => Raised e false
   | Err e, Some _ => Raised e true
   end, w2).

(** [execute]: [check 0] and [check 2] are [authority.revalidate(snapshot)], [check 1] and
    [check 3] are [check_active()]; [None] returns, [Some e] raises. *)
Definition execute (p : GPrincipal) (r : GenerationRequest) (given : option CallIdentity)
    (workload : Workload) (provider : string) (model_id : result exn string) (job step : uuid)
    (check : nat → option exn) (run : result exn GenerationResult) (draw0 draw1 : draw)
    (w : world G A) : outcome * world G A :=
  match check 0%nat, check 1%nat, model_id with
  | Some e, _, _ => (Raised e false, w)
  | None, Some e, _ => (Raised e false, w)
  | None, None, Err e => (Raised e false, w)
  | None, None, Ok model =>
      let i := default (interactive_identity p job step provider model r) given in
      match execute_checks r i provider model with
      | Err e => (Raised e false, w)
      | Ok estimate =>
          let '(x, w1) := gov 0 (rl_reserve p i estimate (gr_output_tokens r) workload draw0) w in
          match x with
          | Err e => (Raised e false, w1)
          | Ok t =>
              let '(x, w2) := gov 1 (rl_transition t RESERVED ADMITTING) w1 in
              match x with
              | Err e => (Raised e false, w2)
              | Ok _ =>
                  let w2 := record (EvClaimed t) w2 in
                  let '(x, w3) := adm 2 (ap_acquire i estimate (gr_output_tokens r) workload draw1) w2 in
                  match x with
                  | Err e =>
                      let '(c, w4) := gov 4 (rl_transition t ADMITTING RELEASED) w3 in
                      (match c with Ok _ => Raised e false | Err e' => Cleanup e' end, w4)
                  | Ok pt =>
                      let '(y, started, w4) :=
                        body (check 2%nat) (check 3%nat) run t pt (record (EvAcquired pt) w3) in
                      cleanup t pt y started w4
                  end
              end
          end
      end
  end.

(** ** What an execution guarantees, against the interfaces *)

Definition accounted (o : outcome) : bool :=
  match o with Returned _ | Raised _ false => true | _ => false end.

(** What other processes may do: they keep the invariants, and leave a claimed
    reservation and a granted admission to the execution that holds them. *)
Definition keeps_invariants : Prop :=
  ∀ i ga, rl_inv ga.1 → ap_inv ga.2 → rl_inv (env i ga).1 ∧ ap_inv (env i ga).2.
Definition keeps_state (t : uuid) : Prop :=
  ∀ i ga s, rl_state ga.1 t = Some s → s ≠ RESERVED → rl_state (env i ga).1 t = Some s.
Definition keeps_live (pt : uuid) : Prop :=
  ∀ i ga, ap_live ga.2 pt = true → ap_live (env i ga).2 pt = true.

(** The ways an execution can go, by its ghost events.  A failed cleanup is reported
    ([accounted] is false); otherwise nothing stays reserved or occupied. *)
Inductive conduct (run : result exn GenerationResult) (o : outcome) (w' : world G A)
    : list (xevent G A) → Prop :=
| cd_refused e : o = Raised e false → conduct run o w' []
| cd_deferred t :
    (∀ x, o ≠ Returned x) →
    (keeps_state t → accounted o = true → rl_state (w_gov w') t = Some RELEASED) →
    conduct run o w' [EvClaimed t]
| cd_released t pt :
    (∀ x, o ≠ Returned x) →
    (keeps_state t → accounted o = true → rl_state (w_gov w') t = Some RELEASED) →
    (accounted o = true → ap_live (w_adm w') pt = false) →
    conduct run o w' [EvClaimed t; EvAcquired pt]
| cd_called t pt g a :
    rl_state g t = Some STARTED → (keeps_live pt → ap_live a pt = true) →
    (∀ x, o = Returned x → run = Ok x) →
    (keeps_state t → accounted o = true →
       rl_state (w_gov w') t = Some SETTLED ∨ rl_state (w_gov w') t = Some UNKNOWN) →
    (accounted o = true → ap_live (w_adm w') pt = false) →
    conduct run o w' [EvClaimed t; EvAcquired pt; EvCalled t pt g a].

Definition wok (w : world G A) : Prop := rl_inv (w_gov w) ∧ ap_inv (w_adm w).

Hypothesis Henv : keeps_invariants.

Lemma gov_run {X} i (f : G → result gov_exn X * G) w r w' :
  (∀ g, rl_inv g → rl_inv (f g).2) → wok w → gov i f w = (r, w') →
  wok w' ∧ w_log w' = w_log w ∧
  ∃ g, rl_inv g ∧ g = (env i (w_gov w, w_adm w)).1 ∧ w_gov w' = (f g).2 ∧
       w_adm w' = (env i (w_gov w, w_adm w)).2 ∧
       match r with Ok x => (f g).1 = Ok x | Err _ => ∃ e, (f g).1 = Err e end.
Proof.
  intros Hf [Hg Ha] E. unfold gov in E. injection E as <- <-. destruct (Henv i (w_gov w, w_adm w) Hg Ha) as [Hg' Ha'].
  split; [split; simpl; auto|]. split; [done|]. eexists. split_and!; try done.
  destruct (f _).1; eauto.
Qed.

Lemma adm_run {X} i (f : A → result inference_exn X * A) w r w' :
  (∀ a, ap_inv a → ap_inv (f a).2) → wok w → adm i f w = (r, w') →
  wok w' ∧ w_log w' = w_log w ∧
  ∃ a, ap_inv a ∧ a = (env i (w_gov w, w_adm w)).2 ∧ w_adm w' = (f a).2 ∧
       w_gov w' = (env i (w_gov w, w_adm w)).1 ∧
       match r with Ok x => (f a).1 = Ok x | Err _ => ∃ e, (f a).1 = Err e end.
Proof.
  intros Hf [Hg Ha] E. unfold adm in E. injection E as <- <-. destruct (Henv i (w_gov w, w_adm w) Hg Ha) as [Hg' Ha'].
  split; [split; simpl; auto|]. split; [done|]. eexists. split_and!; try done.
  destruct (f _).1; eauto.
Qed.

(** A transition of the execution's reservation. *)
Lemma gov_transition i t b a w r w' :
  wok w → gov i (rl_transition t b a) w = (r, w') →
  wok w' ∧ w_log w' = w_log w ∧ w_adm w' = (env i (w_gov w, w_adm w)).2 ∧
  match r with
  | Ok _ => rl_state (w_gov w') t = Some a
  | Err _ => w_gov w' = (env i (w_gov w, w_adm w)).1
  end.
Proof.
  intros Hw E. destruct (gov_run i _ w r w' (rl_transition_inv t b a) Hw E)
    as (Hw' & Hl & g & Hg & -> & E1 & E2 & Er). split_and!; try done.
  pose proof (rl_transition_spec t b a _ Hg) as Hs.
  destruct (rl_transition t b a _) as [[x|e] g']; simpl in *.
  - destruct r as [y|]; [|by destruct Er]. rewrite E1. apply Hs.
  - destruct r as [y|]; [done|]. by rewrite E1.
Qed.

Lemma gov_settle i t u w r w' :
  wok w → gov i (rl_settle t u) w = (r, w') →
  wok w' ∧ w_log w' = w_log w ∧ w_adm w' = (env i (w_gov w, w_adm w)).2 ∧
  match r with
  | Ok _ => rl_state (w_gov w') t = Some SETTLED ∨ rl_state (w_gov w') t = Some UNKNOWN
  | Err _ => True
  end.
Proof.
  intros Hw E. destruct (gov_run i _ w r w' (rl_settle_inv t u) Hw E)
    as (Hw' & Hl & g & Hg & -> & E1 & E2 & Er). split_and!; try done.
  pose proof (rl_settle_spec t u _ Hg) as Hs.
  destruct (rl_settle t u _) as [[x|e] g']; simpl in *; destruct r as [y|]; try done. by rewrite E1.
Qed.

Lemma cleanup_spec t pt r started w o w' :
  wok w → cleanup t pt r started w = (o, w') →
  w_log w' = w_log w ∧ (∀ x, o = Returned x → r = Ok x) ∧
  (keeps_state t → accounted o = true →
     if started then rl_state (w_gov w') t = Some SETTLED ∨ rl_state (w_gov w') t = Some UNKNOWN
     else rl_state (w_gov w') t = Some RELEASED) ∧
  (accounted o = true → ap_live (w_adm w') pt = false).
Proof.
  intros Hw E. unfold cleanup in E.
  destruct (match r with Ok x => (gr_usage x, "success") | Err (XInference c u) => (u, c) | Err _ => (None, "unknown") end)
    as [usage out].
  destruct (if started then gov 4 (rl_settle t usage) w else gov 4 (rl_transition t ADMITTING RELEASED) w)
    as [c1 w1] eqn:E1.
  destruct (adm 5 (ap_finish pt usage out) w1) as [c2 w2] eqn:E2. injection E as Eo <-.
  assert (wok w1 ∧ w_log w1 = w_log w ∧ match c1 with
    | Ok _ => if started then rl_state (w_gov w1) t = Some SETTLED ∨ rl_state (w_gov w1) t = Some UNKNOWN
              else rl_state (w_gov w1) t = Some RELEASED
    | Err _ => True end) as (Hw1 & Hl1 & Hc1).
  { destruct started; [apply gov_settle in E1|apply gov_transition in E1]; try done;
      destruct E1 as (? & ? & ? & ?); destruct c1; done. }
  apply adm_run in E2 as (Hw2 & Hl2 & a & Ha & -> & F1 & F2 & Er); [|apply ap_finish_inv|done].
  pose proof (ap_finish_spec pt usage out _ Ha) as Hs.
  assert (accounted o = true → (∃ x, c1 = Ok x) ∧ ∃ x, c2 = Ok x) as Hacc.
  { intros F. destruct r, c1, c2; subst o; simpl in F; try done; eauto. }
  split; [congruence|]. split; [|split].
  - intros x ->. destruct r, c1, c2; by simplify_eq.
  - intros Hkeep F. destruct (Hacc F) as [[x ->] _]. rewrite F2.
    destruct started; [destruct Hc1 as [Hc1|Hc1]; [left|right]|]; by apply Hkeep.
  - intros F. destruct (Hacc F) as [_ [x ->]]. rewrite F1.
    destruct (ap_finish _ _ _ _) as [[y|e] a'] eqn:Ef; simpl in *; [apply Hs|done].
Qed.

Lemma body_spec c2 c3 run t pt w r started w' :
  wok w → body c2 c3 run t pt w = (r, started, w') →
  wok w' ∧
  if started then
    r = run ∧ ∃ g a, w_log w' = w_log w ++ [EvCalled t pt g a] ∧ rl_state g t = Some STARTED ∧
      (ap_live (w_adm w) pt = true → keeps_live pt → ap_live a pt = true)
  else w_log w' = w_log w ∧ ∀ x, r ≠ Ok x.
Proof.
  intros Hw E. unfold body in E. destruct c2 as [e|]; [by injection E as <- <- <-|].
  destruct c3 as [e|]; [by injection E as <- <- <-|].
  destruct (gov 3 _ w) as [x w1] eqn:E1. apply gov_transition in E1 as (Hw1 & Hl & Ha & Hx); [|done].
  destruct x as [y|e]; injection E as <- <- <-; [|by split_and!].
  split; [done|]. split; [done|]. exists (w_gov w1), (w_adm w1). split_and!; try done.
  - simpl. by rewrite Hl.
  - intros Hlive Hk. rewrite Ha. by apply Hk.
Qed.

Lemma execute_conduct p r given workload provider model_id job step check run draw0 draw1 w o w' :
  wok w → execute p r given workload provider model_id job step check run draw0 draw1 w = (o, w') →
  ∃ evs, w_log w' = w_log w ++ evs ∧ conduct run o w' evs.
Proof.
  intros Hw E. unfold execute in E.
  assert (∀ e, (Raised e false, w) = (o, w') → ∃ evs, w_log w' = w_log w ++ evs ∧ conduct run o w' evs) as Href.
  { intros e [= <- <-]. exists []. rewrite app_nil_r. split; [done|]. by econstructor. }
  destruct (check 0%nat) as [e|]; [by eapply Href|]. destruct (check 1%nat) as [e|]; [by eapply Href|].
  destruct model_id as [model|e]; [|by eapply Href]. cbv zeta in E.
  destruct (execute_checks _ _ _ _) as [estimate|e]; [|by eapply Href]. clear Href.
  destruct (gov 0 _ w) as [x w1] eqn:E1.
  apply gov_run in E1 as (Hw1 & Hl1 & _); [|apply rl_reserve_inv|done].
  destruct x as [t|e]; [|injection E as <- <-; exists []; rewrite app_nil_r; split; [done|by econstructor]].
  destruct (gov 1 _ w1) as [x w2] eqn:E2. apply gov_transition in E2 as (Hw2 & Hl2 & _ & Hx2); [|done].
  destruct x as [[]|e]; [|injection E as <- <-; exists []; rewrite app_nil_r; split; [congruence|by econstructor]].
  set (w2r := record _ w2) in E. assert (wok w2r) as Hw2r by done.
  destruct (adm 2 _ w2r) as [x w3] eqn:E3.
  apply adm_run in E3 as (Hw3 & Hl3 & a & Ha & -> & F1 & F2 & Er3); [|apply ap_acquire_inv|done].
  assert (w_log w2r = w_log w ++ [EvClaimed t]) as Hlog by (simpl; congruence).
  destruct x as [pt|e].
  - destruct (body _ _ run t pt _) as [[y started] w4] eqn:E4. apply body_spec in E4 as [Hw4 Hb]; [|done].
    apply cleanup_spec in E as (Hl5 & Hret & Hst & Hlive); [|done].
    assert (ap_live (w_adm w3) pt = true) as Hlive3.
    { rewrite F1. pose proof (ap_acquire_spec (default (interactive_identity p job step provider model r) given)
        estimate (gr_output_tokens r) workload draw1 _ Ha) as Hs.
      destruct (ap_acquire _ _ _ _ _ _) as [[z|e] a']; simpl in *; [|done]. injection Er3 as ->. apply Hs. }
    destruct started.
    + destruct Hb as (-> & g & a & Hlog4 & Hg & Hcall).
      exists [EvClaimed t; EvAcquired pt; EvCalled t pt g a]. split.
      * rewrite Hl5, Hlog4. simpl. by rewrite Hl3, Hlog, <-!app_assoc.
      * by constructor; auto.
    + destruct Hb as (Hlog4 & Hne). exists [EvClaimed t; EvAcquired pt]. split.
      * rewrite Hl5, Hlog4. simpl. by rewrite Hl3, Hlog, <-!app_assoc.
      * constructor; auto. intros x ->. by eapply Hne, Hret.
  - destruct (gov 4 _ w3) as [c w4] eqn:E4. apply gov_transition in E4 as (Hw4 & Hl4 & _ & Hx4); [|done].
    injection E as <- <-. exists [EvClaimed t]. split; [congruence|]. constructor.
    + by destruct c.
    + intros _. by destruct c.
Qed.

(** C27: governed execution spends only what it accounts for: the provider is called at
    most once, only after the reservation was claimed and moved to STARTED and the
    provider admission was granted; a refused or interrupted execution ends RELEASED; a
    called one ends SETTLED or UNKNOWN, and its admission is no longer live - whatever
    other processes do to the rest of both ledgers, and for every outcome of the
    provider, the authorization checks and the callbacks - except when the cleanup
    itself fails, and then the failure is reported to the caller.  A result is
    returned only if the provider returned it. *)
Theorem execution_accounted p r given workload provider model_id job step check run draw0 draw1 w :
  wok w →
  let '(o, w') := execute p r given workload provider model_id job step check run draw0 draw1 w in
  ∃ evs, w_log w' = w_log w ++ evs ∧ conduct run o w' evs.
Proof.
  intros Hw. destruct (execute _ _ _ _ _ _ _ _ _ _ _ _ w) as [o w'] eqn:E.
  by eapply execute_conduct.
Qed.

End Execution.
