(* ===== verification/ExecutionLedgers.v ===== *)
(** * The ledgers behind governed execution

    [governance/ledger.py] implements [ReservationLedger] and [llm/admission.py]
    implements [InferenceAdmissionPort]; with both, governed execution on the actual
    ledgers. *)

From stdpp Require Import base tactics list strings option sets relations.
From Stdlib Require Import ZArith NArith QArith Lia.
From S2P Require Import Prelude Json Contracts JobModels Sample.
From S2P Require Import ProviderAdmission Governance GovernanceTheorems Inference Execution.

Local Open Scope Z_scope.

#[local] Obligation Tactic := idtac.

Section Governance.
Context `{Runtime}.
Variables (policy : QuotaPolicy) (catalog : PricingCatalog) (policy_json catalog_json : text)
  (event_limit : Z).
Hypothesis Hcatalog : valid_catalog catalog = true.

Definition ticket_state (d : gdb) (t : uuid) : option RState :=
  r_state <$> find_row (λ r, bool_decide (r_ticket r = t)) (reservations d).

Lemma ticket_state_elem d r t :
  ginv d → r ∈ reservations d → r_ticket r = t → ticket_state d t = Some (r_state r).
Proof.
  intros Hi Hr <-. unfold ticket_state.
  by rewrite (find_row_unique r_ticket _ _ (gi_tickets _ Hi) Hr).
Qed.

Lemma settle_state t u d d' :
  transaction (settle catalog t u) d = (Ok tt, d') →
  ∃ r, r ∈ reservations d' ∧ r_ticket r = t ∧ (r_state r = SETTLED ∨ r_state r = UNKNOWN).
Proof.
  intros E%transaction_Ok. unfold settle in E. cbv zeta in E.
  apply tx_bind_Ok in E as ([] & d1 & H1 & E). tx_inv H1.
  apply tx_bind_Ok in E as (rs & d2 & H2 & E). tx_inv H2.
  apply tx_bind_Ok in E as (row & d3 & H3 & E). tx_inv H3.
  apply tx_bind_Ok in E as ([] & d4 & H4 & E). tx_inv H4.
  apply find_row_Some in H3 as [Hrow Et]. pose proof Et as Et'. apply bool_decide_eq_true in Et'.
  case_bool_decide as Es; [tx_inv E; exists row; auto|].
  apply tx_bind_Ok in E as ([] & d5 & H5 & E). tx_inv H5.
  assert (∀ ai ao ac st, set_usage ai ao ac st row ∈ update_where (λ r, bool_decide (r_ticket r = t))
    (set_usage ai ao ac st) (reservations d)) as Hin.
  { intros. apply elem_of_update_where. exists row. by rewrite Et. }
  destruct (u ≫= prompt_tokens) as [a|]; [destruct (u ≫= completion_tokens) as [b|]|].
  - apply tx_bind_Ok in E as (pr & d6 & H6 & E). tx_inv H6. tx_inv E.
    eexists. split; [apply Hin|]. auto.
  - tx_inv E. eexists. split; [apply Hin|]. auto.
  - tx_inv E. eexists. split; [apply Hin|]. auto.
Qed.

#[export] Program Instance governance_ledger : ReservationLedger gdb := {|
  rl_inv := ginv;
  rl_state := ticket_state;
  rl_reserve p i n m w x :=
    reserve policy catalog policy_json catalog_json event_limit p i n m w (d_ticket x) (d_event x) (d_clock x);
  rl_transition t b a := transaction (transition t b a);
  rl_settle t u := transaction (settle catalog t u) |}.
Next Obligation. intros. eapply (effect_ginv policy catalog); [done|]. by apply reserve_effect. Qed.
Next Obligation. intros. eapply (effect_ginv policy catalog); [done|]. by apply (transition_effect policy catalog). Qed.
Next Obligation. intros. eapply (effect_ginv policy catalog); [done|]. apply settle_effect; [done|]. by apply gi_tickets. Qed.
Next Obligation.
  intros t b a g Hg. simpl. destruct (transaction (transition t b a) g) as [[[]|e] g'] eqn:E.
  - destruct (transition_Ok _ _ _ _ _ E) as (_ & r & Hr & Et & Es & Hr').
    assert (ginv g') as Hg'.
    { apply (f_equal snd) in E. simpl in E. rewrite <-E.
      eapply (effect_ginv policy catalog); [done|]. by apply (transition_effect policy catalog). }
    split; [by rewrite (ticket_state_elem g r t), Es|]. by rewrite (ticket_state_elem g' _ t Hg' Hr').
  - by apply transaction_Err in E as [_ ->].
Qed.
Next Obligation.
  intros t u g Hg. simpl. destruct (transaction (settle catalog t u) g) as [[[]|e] g'] eqn:E.
  - destruct (settle_state _ _ _ _ E) as (r & Hr & Et & Hs).
    assert (ginv g') as Hg'.
    { apply (f_equal snd) in E. simpl in E. rewrite <-E.
      eapply (effect_ginv policy catalog); [done|]. apply settle_effect; [done|]. by apply gi_tickets. }
    rewrite (ticket_state_elem g' r t Hg' Hr Et). destruct Hs as [-> | ->]; auto.
  - by apply transaction_Err in E as [_ ->].
Qed.

End Governance.

Section Admission.
Variables (quota_key : string) (policy : AdmissionPolicy).

Definition ticket_live (rows : list call_row) (t : uuid) : bool :=
  existsb (λ r, bool_decide (c_ticket r = t) && active r) rows.

Lemma ticket_live_false rows t :
  (∀ r, r ∈ rows → c_ticket r = t → active r = false) → ticket_live rows t = false.
Proof.
  intros Hr. unfold ticket_live. apply not_true_iff_false. intros (r & Hin & E)%existsb_exists.
  apply andb_true_iff in E as [E1%bool_decide_eq_true E2]. rewrite (Hr r) in E2; [done| |done].
  by apply list_elem_of_In.
Qed.

Lemma acquire_fresh k p i e r w now t rows x rows' :
  acquire k p i e r w now t rows = Ok (x, rows') → ∀ y, y ∈ rows → c_ticket y ≠ t.
Proof.
  unfold acquire. intros Hr.
  apply tx_bind_Ok in Hr as ([] & d1 & H1 & Hr). tx_inv H1. cbv zeta in Hr.
  apply tx_bind_Ok in Hr as ([] & d2 & H2 & Hr). tx_inv H2.
  apply tx_bind_Ok in Hr as (rs & d3 & H3 & Hr). tx_inv H3.
  apply tx_bind_Ok in Hr as ([] & d4 & H4 & Hr). tx_inv H4.
  apply tx_bind_Ok in Hr as ([] & d5 & H5 & Hr). unfold insert_call in H5.
  apply tx_bind_Ok in H5 as (rs & d6 & H6 & H5). tx_inv H6.
  apply tx_bind_Ok in H5 as ([] & d7 & H7 & H5). tx_inv H7. intros y Hy.
  apply (proj1 (forallb_elem _ _)) with (x := y) in H7; [|done].
  by apply andb_true_iff in H7 as [F%negb_true_iff%bool_decide_eq_false _].
Qed.

Lemma finish_active k t u o rows x rows' :
  finish k t u o rows = Ok (x, rows') → ticket_live rows t = true.
Proof.
  unfold finish. intros Hr. cbv zeta in Hr.
  apply tx_bind_Ok in Hr as (rs & d1 & H1 & Hr). tx_inv H1.
  apply tx_bind_Ok in Hr as (row & d2 & H2 & Hr). tx_inv H2.
  apply tx_bind_Ok in Hr as ([] & d3 & H3 & Hr). tx_inv H3.
  apply find_row_Some in H2 as [Hin [E _]%andb_true_iff]. unfold ticket_live. apply existsb_exists.
  exists row. by rewrite <-list_elem_of_In, E, H3.
Qed.

#[export] Program Instance sqlite_admission : InferenceAdmissionPort (list call_row) := {|
  ap_inv rows := NoDup (c_ticket <$> rows);
  ap_live := ticket_live;
  ap_acquire i n m w x :=
    transaction (acquire quota_key policy i n m w (d_clock x 0%nat) (d_ticket x));
  ap_finish t u o := transaction (finish quota_key t u o) |}.
Next Obligation.
  intros i n m w x rows Hnd. simpl. destruct (transaction _ rows) as [[t|e] rows'] eqn:E.
  - apply transaction_Ok in E. pose proof (acquire_fresh _ _ _ _ _ _ _ _ _ _ _ E) as Hf.
    apply (acquire_Ok (λ _, policy)) in E as (_ & -> & _). apply NoDup_snoc_key; [done|]. intros y Hy. by apply Hf.
  - by apply transaction_Err in E as [_ ->].
Qed.
Next Obligation.
  intros t u o rows Hnd. simpl. destruct (transaction _ rows) as [[[]|e] rows'] eqn:E.
  - apply transaction_Ok, finish_Ok in E as [o' ->]. cbn. by rewrite update_where_fmap.
  - by apply transaction_Err in E as [_ ->].
Qed.
Next Obligation.
  intros i n m w x rows Hnd. simpl. destruct (transaction _ rows) as [[t|e] rows'] eqn:E.
  - apply transaction_Ok in E. pose proof (acquire_fresh _ _ _ _ _ _ _ _ _ _ _ E) as Hf.
    apply (acquire_Ok (λ _, policy)) in E as (-> & -> & _). split.
    + apply ticket_live_false. intros r Hr Et. by apply Hf in Hr.
    + unfold ticket_live. rewrite existsb_app. simpl. by rewrite bool_decide_eq_true_2, orb_true_r.
  - by apply transaction_Err in E as [_ ->].
Qed.
Next Obligation.
  intros t u o rows Hnd. simpl. destruct (transaction _ rows) as [[[]|e] rows'] eqn:E.
  - apply transaction_Ok in E. split; [by eapply finish_active|].
    apply finish_Ok in E as [o' ->]. apply ticket_live_false.
    intros r (y & Hy & ->)%elem_of_update_where. destruct (bool_decide (c_ticket y = t)) eqn:Ey; [done|].
    by apply bool_decide_eq_false in Ey.
  - by apply transaction_Err in E as [_ ->].
Qed.

End Admission.

(** ** A concrete execution

    The price list and policies of the samples; before every ledger call another owner of
    the tenant reserves (and is refused or not). *)

Definition other_principal : GPrincipal :=
  {| gp_scope := {| tenant := "t-1"; owner := "o-2" |}; gp_expires := 2000000000 |}.

Definition other_call : CallIdentity := {|
  ci_scope := "t-1:o-2"; ci_job := "job"; ci_step := "other"; ci_attempt := 1;
  ci_profile := "p/1"; ci_provider := "openai"; ci_role := "general"; ci_model := "m";
  ci_capability := "c/1" |}.

Definition busy_env (i : nat) (ga : gdb * list call_row) : gdb * list call_row :=
  (sample_exec ga.1 (Reserve other_principal other_call 10 10 DOCUMENT_BACKGROUND
     (nth i ["b0"; "b1"; "b2"; "b3"; "b4"] "b5") (nth i ["f0"; "f1"; "f2"; "f3"; "f4"] "f5") sample_clock), ga.2).

Definition sample_capability : CapabilityProfile := {|
  cap_version := "c/1"; context_tokens := 1000; max_output_tokens := 100; overhead_tokens := 10;
  safety_tokens := 10;
  structured_output := so_prompt; output_parameter := op_max_tokens; streaming := true; usage_reporting := false; temperature := None; response_models := []; reasoning_effort := None; schema_profile := None |}.

Definition sample_generation : GenerationRequest := {|
  gr_system := cps "s"; gr_data := cps "d"; gr_role := "general";
  gr_capability := sample_capability; gr_output_tokens := 50; gr_schema := JObj [];
  gr_response_bytes := 1000; gr_total_seconds := inject_Z 120; gr_max_envelope := None |}.

Definition sample_answer : GenerationResult := {|
  gr_text := cps "answer";
  gr_usage := Some {| prompt_tokens := Some 90; completion_tokens := Some 20; total_tokens := None |};
  gr_served_model := None; gr_finish := None; gr_metadata := None |}.

Definition sample_draw (t e : uuid) : draw := {| d_ticket := t; d_event := e; d_clock := sample_clock |}.

Definition sample_world : world gdb (list call_row) :=
  Build_world (sample_grun [Open]) [] [].

Lemma sample_catalog_valid : valid_catalog sample_catalog = true.
Proof. vm_compute. reflexivity. Qed.

Definition sample_execute : outcome * world gdb (list call_row) :=
  @execute sample_runtime gdb (list call_row)
    (@governance_ledger sample_runtime sample_quota_policy sample_catalog [] [] 1000 sample_catalog_valid)
    (sqlite_admission "q" (sample_policy "q")) busy_env sample_principal sample_generation None
    INTERACTIVE "openai" (Ok "m") "job" "step" (λ _, None) (Ok sample_answer)
    (sample_draw "k1" "e1") (sample_draw "p1" "e2") sample_world.

Lemma busy_env_ok :
  @keeps_invariants gdb (list call_row)
    (@governance_ledger sample_runtime sample_quota_policy sample_catalog [] [] 1000 sample_catalog_valid)
    (sqlite_admission "q" (sample_policy "q")) busy_env.
Proof.
  intros i ga Hg Ha. split; [|done].
  eapply (@effect_ginv sample_runtime sample_quota_policy sample_catalog); [exact Hg|].
  apply gexec_effect; [apply sample_catalog_valid|exact Hg].
Qed.

(** The execution returns the answer; its reservation is settled. *)
Example sample_execution :
  sample_execute.1 = Returned sample_answer ∧
  ticket_state (w_gov sample_execute.2) "k1" = Some SETTLED ∧
  ticket_state (w_gov sample_execute.2) "b0" = Some RESERVED ∧
  ticket_live (w_adm sample_execute.2) "p1" = false.
Proof. vm_compute. done. Qed.

Lemma execution_accounted_witness :
  let '(o, w') := sample_execute in
  ∃ evs, w_log w' = w_log sample_world ++ evs ∧
    @conduct gdb (list call_row)
      (@governance_ledger sample_runtime sample_quota_policy sample_catalog [] [] 1000 sample_catalog_valid)
      (sqlite_admission "q" (sample_policy "q")) busy_env (Ok sample_answer) o w' evs.
Proof.
  apply (@execution_accounted sample_runtime gdb (list call_row) _ _ busy_env busy_env_ok).
  split; [apply grun_ginv, sample_catalog_valid|constructor].
Defined.
