(* ===== verification/Storage.v ===== *)
(** * Immutable object storage

    [documents/storage.py]: the [ObjectStore] port as an interface with its laws, and
    [LocalObjectStore], which publishes by linking a complete temporary file under a key
    that must not exist.  Operating system failures are inputs of each operation. *)

From stdpp Require Import base tactics list strings option gmap.
From Stdlib Require Import ZArith NArith QArith Lia.
From S2P Require Import Prelude Json Contracts ContractFacts JobModels JobLedger Sample.

Local Open Scope Z_scope.

(** ** Bounded reads

    [while chunk := stream.read(min(65536, limit - count + 1))] over bytes in memory; the
    loop reads at most one byte past the limit. *)

Definition chunk_size : Z := 65536.

(** [stream.read(n)] at the start of the remaining bytes: a negative size reads them all. *)
Definition stream_read (n : Z) (data : text) : text :=
  if n <? 0 then data else take (Z.to_nat n) data.

Fixpoint read_chunks (fuel : nat) (data : text) (limit count : Z) : option text :=
  match fuel with
  | O => None
  | S fuel' =>
      let chunk := stream_read (Z.min chunk_size (limit - count + 1)) data in
      match chunk with
      | [] => Some []
      | _ =>
          if limit <? count + len chunk then None
          else (λ rest, chunk ++ rest)
                 <$> read_chunks fuel' (drop (length chunk) data) limit (count + len chunk)
      end
  end.

(** [None]: too large. *)
Definition bounded_read (data : text) (limit : Z) : option text :=
  read_chunks (S (length data)) data limit 0.

Lemma read_chunks_spec fuel data limit count :
  0 ≤ count ≤ limit → (length data < fuel)%nat →
  read_chunks fuel data limit count = if count + len data <=? limit then Some data else None.
Proof.
  revert data count. induction fuel as [|fuel IH]; intros data count Hc Hf; [lia|].
  cbn [read_chunks]. unfold chunk_size, stream_read.
  destruct (Z.ltb_spec (Z.min 65536 (limit - count + 1)) 0); [lia|]. set (n := Z.to_nat (Z.min 65536 (limit - count + 1))).
  assert (0 < n)%nat as Hn by (unfold n; lia).
  destruct data as [|x data].
  { rewrite take_nil. destruct (Z.leb_spec (count + len (A:=N) []) limit); [done|]. unfold len in *. simpl in *. lia. }
  assert (take n (x :: data) ≠ []) as Hne by (destruct n; [lia|done]).
  assert (take n (x :: data) ++ drop n (x :: data) = x :: data) as Hsplit by apply take_drop.
  set (chunk := take n (x :: data)) in *.
  assert (len chunk = Z.min (Z.of_nat n) (len (x :: data))) as Hl.
  { unfold len, chunk. rewrite length_take. lia. }
  assert (drop (length chunk) (x :: data) = drop n (x :: data)) as Hd.
  { unfold chunk. rewrite length_take. destruct (decide (n ≤ length (x :: data))%nat).
    - by rewrite Nat.min_l.
    - rewrite Nat.min_r by lia. rewrite !drop_ge by lia. done. }
  assert (len (x :: data) = len chunk + len (drop n (x :: data))) as Hlen.
  { rewrite <-Hsplit at 1. unfold len. rewrite length_app. lia. }
  destruct chunk as [|y chunk'] eqn:Ec; [done|]. rewrite <-Ec in *.
  destruct (Z.ltb_spec limit (count + len chunk)) as [Hgt|Hle].
  - destruct (Z.leb_spec (count + len (x :: data)) limit); [|done]. unfold len in *. lia.
  - rewrite Hd, IH.
    + rewrite <-Z.add_assoc, <-Hlen. destruct (_ <=? _); [|done]. simpl. by rewrite Hsplit.
    + unfold len in *. lia.
    + assert (1 ≤ len chunk) by (rewrite Ec; unfold len; simpl; lia). unfold len in *. lia.
Qed.

(** The loop computes a comparison of lengths. *)
Lemma bounded_read_spec data limit :
  0 ≤ limit → bounded_read data limit = if len data <=? limit then Some data else None.
Proof. intros Hl. unfold bounded_read. rewrite read_chunks_spec by lia. done. Qed.

(** ** The port *)

Definition document_error (c : string) : exn := DocErr c.

Section Port.
Context `{Runtime}.

(** The reference of some bytes. *)
Definition make_ref (s : Scope) (k : ObjectKind) (id : uuid) (data : text) : ObjectRef := {|
  ref_scope := s; ref_kind := k; ref_object_id := id; ref_key := object_key s k id;
  ref_sha256 := sha256_hex data; ref_byte_size := len data |}.

(** What an object store promises: published bytes never change, a write publishes at most
    its own bytes under its own key, reads return what was published, verified. *)
Class ObjectStore (S : Type) := {
  published : S → uuid → option text;
  put : Scope → ObjectKind → uuid → text → Z → option digest → S → result exn ObjectRef * S;
  read : Scope → ObjectRef → Z → S → result exn text * S;
  inspect : Scope → ObjectRef → Z → S → result exn ObjectRef * S;
  put_keeps s sc k id data m e key b :
    published s key = Some b → published (put sc k id data m e s).2 key = Some b;
  put_only s sc k id data m e key b :
    published (put sc k id data m e s).2 key = Some b →
    published s key = Some b ∨ (key = object_key sc k id ∧ b = data);
  put_Ok s sc k id data m e r s' :
    put sc k id data m e s = (Ok r, s') → r = make_ref sc k id data ∧
    ∃ b, published s' (ref_key r) = Some b ∧ sha256_hex b = sha256_hex data ∧ len b = len data;
  read_same s sc r m key : published (read sc r m s).2 key = published s key;
  read_Ok s sc r m b s' :
    read sc r m s = (Ok b, s') →
    published s (ref_key r) = Some b ∧ sha256_hex b = ref_sha256 r ∧ len b = ref_byte_size r ∧
    ref_scope r = sc ∧ len b ≤ m;
  inspect_same s sc r m key : published (inspect sc r m s).2 key = published s key;
  inspect_Ok s sc r m r' s' :
    inspect sc r m s = (Ok r', s') → r' = r ∧
    ∃ b, published s (ref_key r) = Some b ∧ sha256_hex b = ref_sha256 r ∧ len b = ref_byte_size r ∧
         ref_scope r = sc }.

(** ** [LocalObjectStore] *)

(** A directory entry; [plain] is false for anything but a regular file with one link. *)
Record file := { plain : bool; content : text }.

(** Where an operating system call fails, if any, and whether the [os.unlink] of the
    [finally] clause fails with an [OSError] other than [FileNotFoundError].  A failure while
    the temporary file is written and synchronised is [at_write]. *)
Inductive os_point := at_directory | at_create | at_write | at_link | at_unlink | at_fsync | at_read.
#[local] Instance os_point_eq_dec : EqDecision os_point.
Proof. solve_decision. Defined.

Record os_faults := { fails_at : option os_point; cleanup_fails : bool }.

(** The directory, leftover temporary files, and the failures of the next operations. *)
Record local_store := { entries : gmap uuid file; leftover : Z; schedule : list os_faults }.

Definition next_faults (s : local_store) : os_faults * local_store :=
  match schedule s with
  | [] => ({| fails_at := None; cleanup_fails := false |}, s)
  | f :: fs => (f, {| entries := entries s; leftover := leftover s; schedule := fs |})
  end.

Definition fault (f : os_faults) (p : os_point) : bool := bool_decide (fails_at f = Some p).

(** [_check] *)
Definition check_ref (sc : Scope) (r : ObjectRef) (m : Z) : result exn unit :=
  if negb (bool_decide (sc = ref_scope r)) then Err (document_error "scope_mismatch")
  else if (m <? 1) || (m <? ref_byte_size r) then Err (document_error "source_too_large")
  else if negb (bool_decide (ref_key r = object_key sc (ref_kind r) (ref_object_id r)))
  then Err (document_error "invalid_reference")
  else Ok tt.

(** [_read]: the whole file, verified against the reference. *)
Definition read_entry (es : gmap uuid file) (r : ObjectRef) (m : Z) : result exn text :=
  match es !! ref_key r with
  | None => Err (document_error "object_not_found")
  | Some f =>
      if negb (plain f) then Err (document_error "storage_error")
      else if m <? len (content f) then Err (document_error "source_too_large")
      else match bounded_read (content f) m with
           | None => Err (document_error "source_too_large")
           | Some data =>
               if negb (len data =? ref_byte_size r) || negb (bool_decide (sha256_hex data = ref_sha256 r))
               then Err (document_error "integrity_error")
               else Ok data
           end
  end.

(** Publication under the key: [os.link] if absent, else verification of what is there. *)
Definition link_entry (es : gmap uuid file) (r : ObjectRef) (data : text) (m : Z)
    : result exn (gmap uuid file) :=
  match es !! ref_key r with
  | None => Ok (<[ref_key r := {| plain := true; content := data |}]> es)
  | Some _ =>
      match read_entry es r m with
      | Ok _ => Ok es
      | Err (DocErr c) =>
          if bool_decide (c ∈ ["integrity_error"; "source_too_large"])
          then Err (document_error "object_conflict") else Err (DocErr c)
      | Err e => Err e
      end
  end.

(** The body of the [try]: its result, the directory, and whether the temporary file is
    still there. *)
Definition put_body (f : os_faults) (sc : Scope) (k : ObjectKind) (id : uuid) (data : text) (m : Z)
    (expected : option digest) (es : gmap uuid file) : result exn ObjectRef * gmap uuid file * bool :=
  let storage_error := document_error "storage_error" in
  if fault f at_directory || fault f at_create then (Err storage_error, es, false)
  else
    match bounded_read data m with
    | None => (Err (document_error "source_too_large"), es, true)
    | Some data =>
        if fault f at_write then (Err storage_error, es, true)
        else if match expected with Some d => negb (bool_decide (sha256_hex data = d)) | None => false end
        then (Err (document_error "integrity_error"), es, true)
        else
          let r := make_ref sc k id data in
          if fault f at_link then (Err storage_error, es, true)
          else match link_entry es r data m with
               | Err e => (Err e, es, true)
               | Ok es' =>
                   if fault f at_unlink then (Err storage_error, es', true)
                   else if fault f at_fsync then (Err storage_error, es', false)
                   else (Ok r, es', false)
               end
    end.

(** A new entry keeps a second link when its temporary file was not removed. *)
Definition second_link (key : uuid) (es0 es : gmap uuid file) : gmap uuid file :=
  match es0 !! key with
  | None => alter (λ f, {| plain := false; content := content f |}) key es
  | Some _ => es
  end.

Definition local_put (sc : Scope) (k : ObjectKind) (id : uuid) (data : text) (m : Z)
    (expected : option digest) (s : local_store) : result exn ObjectRef * local_store :=
  if m <? 1 then (Err (document_error "invalid_reference"), s)
  else
    let '(f, s) := next_faults s in
    let '(res, es, temporary) := put_body f sc k id data m expected (entries s) in
    if negb (fault f at_directory) && cleanup_fails f
    then (Err (document_error "storage_error"),
          {| entries := if temporary then second_link (object_key sc k id) (entries s) es else es;
             leftover := leftover s + (if temporary then 1 else 0); schedule := schedule s |})
    else (res, {| entries := es; leftover := leftover s; schedule := schedule s |}).

(** [_access] *)
Definition local_access (sc : Scope) (r : ObjectRef) (m : Z) (s : local_store) : result exn text * local_store :=
  match check_ref sc r m with
  | Err e => (Err e, s)
  | Ok _ =>
      let '(f, s) := next_faults s in
      if fault f at_directory || fault f at_read then (Err (document_error "storage_error"), s)
      else (read_entry (entries s) r m, s)
  end.

Definition local_read (sc : Scope) (r : ObjectRef) (m : Z) (s : local_store) : result exn text * local_store :=
  local_access sc r m s.

Definition local_inspect (sc : Scope) (r : ObjectRef) (m : Z) (s : local_store)
    : result exn ObjectRef * local_store :=
  match local_access sc r m s with
  | (Ok _, s') => (Ok r, s')
  | (Err e, s') => (Err e, s')
  end.

(** ** The local store implements the port *)

Definition local_published (s : local_store) (key : uuid) : option text := content <$> entries s !! key.

Lemma read_entry_Ok es r m data :
  read_entry es r m = Ok data →
  content <$> es !! ref_key r = Some data ∧ sha256_hex data = ref_sha256 r ∧ len data = ref_byte_size r ∧
  len data ≤ m.
Proof.
  unfold read_entry. destruct (es !! ref_key r) as [f|]; [|done]. destruct (negb (plain f)); [done|].
  destruct (Z.ltb_spec m (len (content f))) as [|Hle]; [done|].
  assert (0 ≤ m) by (unfold len in *; lia). rewrite bounded_read_spec by done.
  rewrite (proj2 (Z.leb_le _ _) Hle).
  destruct (negb (len (content f) =? ref_byte_size r)) eqn:El; [done|].
  destruct (negb (bool_decide _)) eqn:Es; [done|]. intros [= <-].
  apply negb_false_iff in El, Es. apply Z.eqb_eq in El. apply bool_decide_eq_true in Es. done.
Qed.

(** The directory after a link: unchanged, or one new entry under a free key. *)
Lemma link_entry_Ok es r data m es' :
  link_entry es r data m = Ok es' →
  (es !! ref_key r = None ∧ es' = <[ref_key r := {| plain := true; content := data |}]> es) ∨
  (es' = es ∧ is_Some (es !! ref_key r) ∧ ∃ b, read_entry es r m = Ok b).
Proof.
  unfold link_entry. destruct (es !! ref_key r) as [f|] eqn:E; [|intros [= <-]; by left].
  destruct (read_entry es r m) as [b|[]] eqn:Er; try done.
  - intros [= <-]. right. eauto.
  - by case_bool_decide.
Qed.

(** The directory of a write: unchanged, or with its own bytes under its free key. *)
Definition grown (sc : Scope) (k : ObjectKind) (id : uuid) (data : text) (es es' : gmap uuid file) : Prop :=
  es' = es ∨ ∃ p, es !! object_key sc k id = None ∧
                  es' = <[object_key sc k id := {| plain := p; content := data |}]> es.

Lemma second_link_grown sc k id data es es' :
  grown sc k id data es es' → grown sc k id data es (second_link (object_key sc k id) es es').
Proof.
  unfold second_link. destruct (es !! object_key sc k id) as [f|] eqn:E; [done|].
  intros [->|(p & _ & ->)]; [left|right; exists false; split; [done|]].
  - apply alter_id. intros x Hx. congruence.
  - by rewrite alter_insert_eq.
Qed.

Definition holds (es : gmap uuid file) (key : uuid) (data : text) : Prop :=
  ∃ b, content <$> es !! key = Some b ∧ sha256_hex b = sha256_hex data ∧ len b = len data.

Lemma put_body_spec f sc k id data m expected es res es' t :
  1 ≤ m → put_body f sc k id data m expected es = (res, es', t) →
  grown sc k id data es es' ∧
  ∀ r, res = Ok r → r = make_ref sc k id data ∧ holds es' (ref_key r) data.
Proof.
  intros Hm. unfold put_body. destruct (_ || _); [intros [= <- <- _]; by split; [left|]|].
  rewrite bounded_read_spec by lia. destruct (len data <=? m); [|intros [= <- <- _]; by split; [left|]].
  destruct (fault f at_write); [intros [= <- <- _]; by split; [left|]|].
  destruct (match expected with Some d => _ | None => false end); [intros [= <- <- _]; by split; [left|]|].
  destruct (fault f at_link); [intros [= <- <- _]; by split; [left|]|].
  set (r0 := make_ref sc k id data). destruct (link_entry es r0 data m) as [es1|e] eqn:El;
    [|intros [= <- <- _]; by split; [left|]].
  assert (grown sc k id data es es1 ∧ holds es1 (ref_key r0) data) as [Hes Hc].
  { apply link_entry_Ok in El as [[Hn ->]|(-> & _ & b & Hb)].
    - split; [right; by exists true|]. exists data. by rewrite lookup_insert_eq.
    - split; [by left|]. apply read_entry_Ok in Hb as (Hp & Hsha & Hlen & _). by exists b. }
  destruct (fault f at_unlink); [intros [= <- <- _]; by split|].
  destruct (fault f at_fsync); [intros [= <- <- _]; by split|].
  intros [= <- <- _]. split; [done|]. by intros r [= <-].
Qed.

Lemma next_faults_entries s f s1 : next_faults s = (f, s1) → entries s1 = entries s.
Proof. unfold next_faults. destruct (schedule s); by intros [= _ <-]. Qed.

Lemma local_put_spec sc k id data m expected s res s' :
  local_put sc k id data m expected s = (res, s') →
  grown sc k id data (entries s) (entries s') ∧
  ∀ r, res = Ok r → r = make_ref sc k id data ∧ holds (entries s') (ref_key r) data.
Proof.
  unfold local_put. destruct (Z.ltb_spec m 1) as [|Hm]; [intros [= <- <-]; by split; [left|]|].
  destruct (next_faults s) as [f s1] eqn:Ef. apply next_faults_entries in Ef. rewrite Ef.
  destruct (put_body f sc k id data m expected (entries s)) as [[res1 es1] t] eqn:Eb.
  apply put_body_spec in Eb as [Hg Hr]; [|lia]. destruct (_ && cleanup_fails f); intros [= <- <-]; [|done].
  split; [|done]. simpl. destruct t; [by apply second_link_grown|done].
Qed.

Lemma local_access_spec sc r m s res s' :
  local_access sc r m s = (res, s') →
  entries s' = entries s ∧
  ∀ b, res = Ok b → local_published s (ref_key r) = Some b ∧ sha256_hex b = ref_sha256 r ∧
                    len b = ref_byte_size r ∧ ref_scope r = sc ∧ len b ≤ m.
Proof.
  unfold local_access, check_ref. destruct (negb (bool_decide (sc = ref_scope r))) eqn:Esc; [by intros [= <- <-]|].
  apply negb_false_iff, bool_decide_eq_true in Esc.
  destruct (_ || _); [by intros [= <- <-]|]. destruct (negb _); [by intros [= <- <-]|].
  destruct (next_faults s) as [f s1] eqn:Ef. apply next_faults_entries in Ef.
  destruct (_ || _); intros [= <- <-]; [done|]. split; [done|]. rewrite Ef.
  intros b (H1 & H2 & H3 & H4)%read_entry_Ok. unfold local_published. by subst.
Qed.

Lemma grown_keeps sc k id data es es' key b :
  grown sc k id data es es' → content <$> es !! key = Some b → content <$> es' !! key = Some b.
Proof.
  intros [->|(p & Hn & ->)] Hb; [done|]. rewrite lookup_insert_ne; [done|]. intros <-. by rewrite Hn in Hb.
Qed.

Lemma grown_only sc k id data es es' key b :
  grown sc k id data es es' → content <$> es' !! key = Some b →
  content <$> es !! key = Some b ∨ (key = object_key sc k id ∧ b = data).
Proof.
  intros [->|(p & Hn & ->)] Hb; [by left|]. destruct (decide (key = object_key sc k id)) as [->|Hne].
  - rewrite lookup_insert_eq in Hb. injection Hb as <-. by right.
  - rewrite lookup_insert_ne in Hb by done. by left.
Qed.

#[local] Obligation Tactic := idtac.

#[export, program] Instance local_object_store : ObjectStore local_store := {
  published := local_published; put := local_put; read := local_read; inspect := local_inspect }.
Next Obligation.
  intros s sc k id data m e key b Hb. destruct (local_put sc k id data m e s) as [res s'] eqn:E.
  apply local_put_spec in E as [Hg _]. by eapply grown_keeps.
Qed.
Next Obligation.
  intros s sc k id data m e key b Hb. destruct (local_put sc k id data m e s) as [res s'] eqn:E.
  apply local_put_spec in E as [Hg _]. by eapply grown_only.
Qed.
Next Obligation.
  intros s sc k id data m e r s' E. apply local_put_spec in E as [_ Hr]. exact (Hr r eq_refl).
Qed.
Next Obligation.
  intros s sc r m key. unfold local_read. destruct (local_access sc r m s) as [res s'] eqn:E.
  apply local_access_spec in E as [E _]. unfold local_published. simpl. by rewrite E.
Qed.
Next Obligation. intros s sc r m b s' E. apply local_access_spec in E as [_ Hb]. exact (Hb b eq_refl). Qed.
Next Obligation.
  intros s sc r m key. unfold local_inspect. destruct (local_access sc r m s) as [res s'] eqn:E.
  apply local_access_spec in E as [E _]. unfold local_published. destruct res; simpl; by rewrite E.
Qed.
Next Obligation.
  intros s sc r m r' s' E. unfold local_inspect in E. destruct (local_access sc r m s) as [res s1] eqn:Ea.
  apply local_access_spec in Ea as [_ Hb]. destruct res as [b|]; [|done]. injection E as <- <-.
  split; [done|]. exists b. destruct (Hb b eq_refl) as (? & ? & ? & ? & _). done.
Qed.

(** ** Histories of a store *)

Section Histories.
Context {T : Type} `{OS : !ObjectStore T}.

(** The calls clients make on a store. *)
Inductive store_call :=
| CallPut (sc : Scope) (k : ObjectKind) (id : uuid) (data : text) (m : Z) (e : option digest)
| CallRead (sc : Scope) (r : ObjectRef) (m : Z)
| CallInspect (sc : Scope) (r : ObjectRef) (m : Z).

Definition store_exec (s : T) (c : store_call) : T :=
  match c with
  | CallPut sc k id data m e => (put sc k id data m e s).2
  | CallRead sc r m => (read sc r m s).2
  | CallInspect sc r m => (inspect sc r m s).2
  end.

Definition store_run (cs : list store_call) (s : T) : T := foldl store_exec s cs.

(** The reference resolves to bytes with its digest and size. *)
Definition stored (s : T) (r : ObjectRef) : Prop :=
  ∃ b, published s (ref_key r) = Some b ∧ sha256_hex b = ref_sha256 r ∧ len b = ref_byte_size r.

Lemma store_exec_keeps s c key b : published s key = Some b → published (store_exec s c) key = Some b.
Proof.
  intros Hb. destruct c; simpl; [by apply put_keeps| |]; [by rewrite read_same|by rewrite inspect_same].
Qed.

Lemma store_run_keeps cs s key b : published s key = Some b → published (store_run cs s) key = Some b.
Proof.
  revert s. induction cs as [|c cs IH]; intros s Hb; [done|]. simpl. by apply IH, store_exec_keeps.
Qed.

(** What a history put under a key. *)
Definition wrote (key : uuid) (data : text) (c : store_call) : Prop :=
  match c with
  | CallPut sc k id d _ _ => key = object_key sc k id ∧ data = d
  | _ => False
  end.

Lemma store_run_only cs s key b :
  published (store_run cs s) key = Some b → published s key = Some b ∨ Exists (wrote key b) cs.
Proof.
  revert s. induction cs as [|c cs IH]; intros s Hb; [by left|].
  destruct (IH _ Hb) as [Hs|Hc]; [|by right; right]. destruct c; simpl in Hs.
  - apply put_only in Hs as [|[-> ->]]; [by left|]. right. by left.
  - rewrite read_same in Hs. by left.
  - rewrite inspect_same in Hs. by left.
Qed.

(** Objects are immutable.  Over any history of puts, reads and inspections of any store
    that satisfies the port, whether or not the calls fail: bytes published under a key stay
    exactly those bytes, and whatever a key holds at the end it held at the start, or a put of
    the history wrote it under that key. *)
Theorem objects_immutable cs s :
  (∀ key b, published s key = Some b → published (store_run cs s) key = Some b) ∧
  (∀ key b, published (store_run cs s) key = Some b → published s key = Some b ∨ Exists (wrote key b) cs).
Proof. split; intros key b; [apply store_run_keeps|apply store_run_only]. Qed.

End Histories.

(** ** Round trips through the local store *)

Lemma read_entry_plain es r m data :
  read_entry es r m = Ok data → ∃ f, es !! ref_key r = Some f ∧ plain f = true ∧ content f = data.
Proof.
  intros Hr. pose proof (read_entry_Ok _ _ _ _ Hr) as [Hc _]. revert Hr. unfold read_entry.
  destruct (es !! ref_key r) as [f|]; [|done]. injection Hc as <-. exists f.
  destruct (plain f) eqn:Ep; [done|]. simpl in *. done.
Qed.

Lemma read_entry_complete es r m f :
  es !! ref_key r = Some f → plain f = true → sha256_hex (content f) = ref_sha256 r →
  len (content f) = ref_byte_size r → len (content f) ≤ m → read_entry es r m = Ok (content f).
Proof.
  intros Hf Hp Hs Hl Hm. unfold read_entry. rewrite Hf, Hp. simpl.
  destruct (Z.ltb_spec m (len (content f))); [lia|].
  assert (0 ≤ m) by (unfold len in *; lia). rewrite bounded_read_spec by done.
  rewrite (proj2 (Z.leb_le _ _) Hm), Hl, Z.eqb_refl, bool_decide_eq_true_2 by done. done.
Qed.

Lemma grown_entry sc k id data es es' key f :
  grown sc k id data es es' → es !! key = Some f → es' !! key = Some f.
Proof.
  intros [->|(p & Hn & ->)] Hf; [done|]. rewrite lookup_insert_ne; [done|]. intros <-. by rewrite Hn in Hf.
Qed.

Lemma local_exec_entry (s : local_store) c key f :
  entries s !! key = Some f → entries (store_exec s c) !! key = Some f.
Proof.
  intros Hf. destruct c; simpl.
  - destruct (local_put sc k id data m e s) as [res s'] eqn:E.
    apply local_put_spec in E as [Hg _]. by eapply grown_entry.
  - unfold local_read. destruct (local_access sc r m s) as [res s'] eqn:E.
    apply local_access_spec in E as [E _]. simpl. by rewrite E.
  - unfold local_inspect. destruct (local_access sc r m s) as [res s'] eqn:E.
    apply local_access_spec in E as [E _]. destruct res; simpl; by rewrite E.
Qed.

Lemma local_run_entry cs (s : local_store) key f :
  entries s !! key = Some f → entries (store_run cs s) !! key = Some f.
Proof.
  revert s. induction cs as [|c cs IH]; intros s Hf; [done|]. simpl. by apply IH, local_exec_entry.
Qed.

(** A write that returns leaves a regular file with the reference's digest and size. *)
Lemma put_body_entry f sc k id data m expected es r es' t :
  1 ≤ m → put_body f sc k id data m expected es = (Ok r, es', t) →
  ∃ g, es' !! ref_key r = Some g ∧ plain g = true ∧ sha256_hex (content g) = sha256_hex data ∧
       len (content g) = len data ∧ len data ≤ m.
Proof.
  intros Hm. unfold put_body. destruct (_ || _); [done|]. rewrite bounded_read_spec by lia.
  destruct (Z.leb_spec (len data) m) as [Hle|]; [|done]. destruct (fault f at_write); [done|].
  destruct (match expected with Some d => _ | None => false end); [done|].
  destruct (fault f at_link); [done|].
  destruct (link_entry es (make_ref sc k id data) data m) as [es1|e] eqn:El; [|done].
  destruct (fault f at_unlink); [done|]. destruct (fault f at_fsync); [done|]. intros [= <- <- _].
  apply link_entry_Ok in El as [[Hn ->]|(-> & _ & b & Hb)].
  - eexists. by rewrite lookup_insert_eq.
  - pose proof (read_entry_Ok _ _ _ _ Hb) as (_ & Hs & Hl & _).
    apply read_entry_plain in Hb as (g & Hg & Hp & <-). by exists g.
Qed.

(** What a put of the local store acknowledges can be read back.  If a put returned, then
    after any later history of the store whose remaining operations meet no failure, reading
    the returned reference with a sufficient limit returns bytes with the digest and the length
    of the bytes written; they are the bytes written if the key was free. *)
Theorem store_round_trip sc k id data m e (s s1 : local_store) r cs m' :
  local_put sc k id data m e s = (Ok r, s1) → schedule (store_run cs s1) = [] →
  1 ≤ m' → len data ≤ m' →
  ∃ b, local_read sc r m' (store_run cs s1) = (Ok b, store_run cs s1) ∧
       sha256_hex b = sha256_hex data ∧ len b = len data ∧
       (entries s !! ref_key r = None → b = data).
Proof.
  intros Hput Hsch H1 Hm'. pose proof (local_put_spec _ _ _ _ _ _ _ _ _ Hput) as [Hg Hr].
  destruct (Hr r eq_refl) as [-> _]. unfold local_put in Hput.
  destruct (Z.ltb_spec m 1); [done|]. destruct (next_faults s) as [f s0] eqn:Ef.
  apply next_faults_entries in Ef.
  destruct (put_body f sc k id data m e (entries s0)) as [[res es] t] eqn:Eb.
  destruct (_ && cleanup_fails f); [done|]. injection Hput as -> <-.
  apply put_body_entry in Eb as (g & Hg1 & Hp & Hs & Hl & _); [|lia].
  exists (content g). split_and!; [|done|done|].
  - unfold local_read, local_access, check_ref. rewrite bool_decide_eq_true_2 by done.
    simpl ref_byte_size. destruct (Z.ltb_spec m' 1); [lia|]. destruct (Z.ltb_spec m' (len data)); [lia|].
    simpl. rewrite bool_decide_eq_true_2 by done. unfold next_faults. rewrite Hsch. simpl.
    f_equal. apply read_entry_complete; [by apply local_run_entry|done|done|done|lia].
  - intros Hn. destruct Hg as [He|(p & _ & He)]; simpl in He, Hn, Hg1.
    + rewrite He in Hg1. congruence.
    + rewrite He, lookup_insert_eq in Hg1. by injection Hg1 as <-.
Qed.

End Port.

(** ** Programs over the port

    What a client does with the store it is given, as a tree of its calls; it sees the outcome
    of each call.  [GetJob] and [Steps] are a client's calls of [ledger.get_job] and
    [ledger.steps]. *)

Inductive handling (A : Type) : Type :=
| Return (a : A)
| Raise (e : exn)
| Put (sc : Scope) (k : ObjectKind) (id : uuid) (stream : text) (m : Z) (expected : option digest)
      (next : result exn ObjectRef → handling A)
| Read (sc : Scope) (r : ObjectRef) (m : Z) (next : result exn text → handling A)
| Inspect (sc : Scope) (r : ObjectRef) (m : Z) (next : result exn ObjectRef → handling A)
| GetJob (sc : Scope) (job : uuid) (next : result exn job_row → handling A)
| Steps (sc : Scope) (job : uuid) (next : result exn (list (step_row * list ObjectRef)) → handling A).
Arguments Return {A} a.
Arguments Raise {A} e.
Arguments Put {A} sc k id stream m expected next.
Arguments Read {A} sc r m next.
Arguments Inspect {A} sc r m next.
Arguments GetJob {A} sc job next.
Arguments Steps {A} sc job next.

Definition from_result {A} (r : result exn A) : handling A :=
  match r with Ok a => Return a | Err e => Raise e end.

#[export] Instance handling_ret : MRet handling := @Return.
#[export] Instance handling_bind : MBind handling := λ A B f,
  fix go h := match h with
  | Return a => f a
  | Raise e => Raise e
  | Put sc k id stream m expected next => Put sc k id stream m expected (λ r, go (next r))
  | Read sc r m next => Read sc r m (λ x, go (next x))
  | Inspect sc r m next => Inspect sc r m (λ x, go (next x))
  | GetJob sc job next => GetJob sc job (λ x, go (next x))
  | Steps sc job next => Steps sc job (λ x, go (next x))
  end.

Definition put_object (sc : Scope) (k : ObjectKind) (id : uuid) (data : text) (m : Z)
    (expected : option digest) : handling ObjectRef := Put sc k id data m expected from_result.
Definition read_object (sc : Scope) (r : ObjectRef) (m : Z) : handling text := Read sc r m from_result.
Definition inspect_object (sc : Scope) (r : ObjectRef) (m : Z) : handling ObjectRef := Inspect sc r m from_result.
Definition job_of (sc : Scope) (job : uuid) : handling job_row := GetJob sc job from_result.
Definition steps_in (sc : Scope) (job : uuid) : handling (list (step_row * list ObjectRef)) := Steps sc job from_result.

(** What the ledger answers to a program run outside a worker. *)
Record ledger_view := {
  view_job : Scope → uuid → result exn job_row;
  view_steps : Scope → uuid → result exn (list (step_row * list ObjectRef)) }.

(** A program run directly on a store. *)
Section Direct.
Context `{Runtime} {T : Type} `{OS : !ObjectStore T}.
Variable ask : ledger_view.

Fixpoint run_on {A} (h : handling A) (s : T) : result exn A * T :=
  match h with
  | Return a => (Ok a, s)
  | Raise e => (Err e, s)
  | Put sc k id stream m expected next => let '(r, s') := put sc k id stream m expected s in run_on (next r) s'
  | Read sc r m next => let '(x, s') := read sc r m s in run_on (next x) s'
  | Inspect sc r m next => let '(x, s') := inspect sc r m s in run_on (next x) s'
  | GetJob sc job next => run_on (next (view_job ask sc job)) s
  | Steps sc job next => run_on (next (view_steps ask sc job)) s
  end.

Lemma run_on_bind {A B} (h : handling A) (f : A → handling B) s :
  run_on (h ≫= f) s = match run_on h s with (Ok a, s') => run_on (f a) s' | (Err e, s') => (Err e, s') end.
Proof.
  revert s. induction h as [| |? ? ? ? ? ? next IH|? ? ? next IH|? ? ? next IH|? ? next IH|? ? next IH]; intros s; [done|done|..].
  - change (run_on (Put sc k id stream m expected next ≫= f) s)
      with (let '(r, s') := put sc k id stream m expected s in run_on (next r ≫= f) s').
    simpl. destruct (put _ _ _ _ _ _ s) as [r s']. apply IH.
  - change (run_on (Read sc r m next ≫= f) s)
      with (let '(x, s') := read sc r m s in run_on (next x ≫= f) s').
    simpl. destruct (read _ _ _ s) as [x s']. apply IH.
  - change (run_on (Inspect sc r m next ≫= f) s)
      with (let '(x, s') := inspect sc r m s in run_on (next x ≫= f) s').
    simpl. destruct (inspect _ _ _ s) as [x s']. apply IH.
  - apply IH.
  - apply IH.
Qed.

(** A program is a history of calls. *)
Lemma run_on_history {A} (h : handling A) s : ∃ cs, (run_on h s).2 = store_run cs s.
Proof.
  revert s. induction h as [| |? ? ? ? ? ? next IH|? ? ? next IH|? ? ? next IH|? ? next IH|? ? next IH]; intros s;
    [by exists []|by exists []|..]; cbn [run_on].
  - destruct (put sc k id stream m expected s) as [r s'] eqn:E. destruct (IH r s') as [cs ->].
    exists (CallPut sc k id stream m expected :: cs). simpl. by rewrite E.
  - destruct (read sc r m s) as [x s'] eqn:E. destruct (IH x s') as [cs ->].
    exists (CallRead sc r m :: cs). simpl. by rewrite E.
  - destruct (inspect sc r m s) as [x s'] eqn:E. destruct (IH x s') as [cs ->].
    exists (CallInspect sc r m :: cs). simpl. by rewrite E.
  - apply IH.
  - apply IH.
Qed.
End Direct.

(** A write, a conflicting write, and a read of the first one. *)
#[local] Existing Instance sample_runtime.
Definition sample_store : local_store := {| entries := ∅; leftover := 0; schedule := [] |}.
Definition sample_bytes : text := cps "source bytes".
Definition sample_ref : ObjectRef := make_ref sample_scope source_kind "o" sample_bytes.
Definition sample_written : local_store :=
  (local_put sample_scope source_kind "o" sample_bytes 12 None sample_store).2.
Definition sample_later : local_store :=
  store_run [CallPut sample_scope source_kind "o" (cps "other") 10 None] sample_written.

Lemma store_round_trip_witness :
  ∃ b, local_read sample_scope sample_ref 20 sample_later = (Ok b, sample_later) ∧
       sha256_hex b = sha256_hex sample_bytes ∧ len b = len sample_bytes ∧
       (entries sample_store !! ref_key sample_ref = None → b = sample_bytes).
Proof.
  apply (store_round_trip sample_scope source_kind "o" sample_bytes 12 None sample_store sample_written
           sample_ref [CallPut sample_scope source_kind "o" (cps "other") 10 None]).
  - vm_compute. reflexivity.
  - vm_compute. reflexivity.
  - lia.
  - vm_compute. discriminate.
Defined.
