(* ===== verification/Extraction.v ===== *)
(** * Extraction: verified bytes to an immutable artifact

    [documents/parser.py], [documents/extraction.py], [documents/serialization.py] and
    [ExtractionHandler] of [documents/jobs/worker.py].  What pypdf reports about a file, the
    [ParserRunner] a caller injects and the datetime format of pydantic's JSON mode are
    parameters. *)

From Stdlib Require Import ZArith NArith QArith Lia.
From stdpp Require Import base tactics list strings option sets.
From S2P Require Import Prelude Json Contracts JobModels JobLedger Storage Utf8.

Local Open Scope Z_scope.

#[export] Instance result_fmap E : FMap (result E) :=
  λ A B f m, match m with Ok a => Ok (f a) | Err e => Err e end.

(** [ExtractionSettings] *)
Record ExtractionSettings := {
  x_source_bytes : Z; x_pages : Z; x_characters : Z; x_blocks : Z; x_artifact_bytes : Z }.

Definition valid_settings (l : ExtractionSettings) : bool :=
  (0 <? x_source_bytes l) && (0 <? x_pages l) && (0 <? x_characters l) && (0 <? x_blocks l)
  && (0 <? x_artifact_bytes l).

(** ** [documents/parser.py] *)

Record ParsedPage := {
  ordinal : Z; page_text : text; label : option text; page_width : option Q; page_height : option Q;
  page_rotation : option Z; page_images : option bool; page_graphics : option bool; page_failed : bool }.

Definition failed_page (n : Z) : ParsedPage := {|
  ordinal := n; page_text := []; label := None; page_width := None; page_height := None;
  page_rotation := None; page_images := None; page_graphics := None; page_failed := true |}.

(** What [PdfReader] reports: [None] where reading it raises. *)
Record pdf_details := {
  subtypes : list string (** of the page's XObjects *); operators : list string;
  box_width : Q; box_height : Q; pdf_rotation : Z }.
Record pdf_page := { extracted : option text; details : option pdf_details }.
Record pdf := { encrypted : bool; page_labels : option (list text); pdf_pages : list pdf_page }.

Definition graphics_operators : list string :=
  ["Do"; "INLINE IMAGE"; "S"; "s"; "f"; "F"; "f*"; "B"; "B*"; "b"; "b*"].

Definition doc_error {A} (c : string) : result exn A := Err (DocErr c).

(** [labels[index] if labels else None]; the inner [None] is an [IndexError]. *)
Definition label_at (labels : option (list text)) (i : nat) : option (option text) :=
  match labels with
  | None | Some [] => Some None
  | Some ls => Some <$> ls !! i
  end.

Definition native_page (labels : option (list text)) (i : nat) (t : text) (d : option pdf_details)
    : option ParsedPage :=
  d ← d;
  l ← label_at labels i;
  Some {| ordinal := Z.of_nat i + 1; page_text := t; label := l; page_width := Some (box_width d);
          page_height := Some (box_height d); page_rotation := Some (pdf_rotation d);
          page_images := Some (existsb (String.eqb "/Image") (subtypes d)
                               || existsb (String.eqb "INLINE IMAGE") (operators d));
          page_graphics := Some (existsb (λ op, bool_decide (op ∈ graphics_operators)) (operators d));
          page_failed := false |}.

(** The loop over the pages: a page that raises is kept as a failed page. *)
Fixpoint native_pages (l : ExtractionSettings) (labels : option (list text)) (i : nat) (characters : Z)
    (ps : list pdf_page) : result exn (list ParsedPage) :=
  match ps with
  | [] => Ok []
  | p :: ps' =>
      match extracted p with
      | None => cons (failed_page (Z.of_nat i + 1)) <$> native_pages l labels (S i) characters ps'
      | Some t =>
          let characters := characters + len t in
          if x_characters l <? characters then doc_error "extraction_limit_exceeded"
          else cons (default (failed_page (Z.of_nat i + 1)) (native_page labels i t (details p)))
                 <$> native_pages l labels (S i) characters ps'
      end
  end.

Section Parser.
(** [PdfReader(BytesIO(data), strict=True)] *)
Variable read_pdf : text → option pdf.

Definition native_parse (data : text) (l : ExtractionSettings) : result exn (list ParsedPage) :=
  if x_source_bytes l <? len data then doc_error "source_too_large"
  else match read_pdf data with
  | None => doc_error "invalid_document"
  | Some doc =>
      if encrypted doc then doc_error "encrypted_document"
      else if x_pages l <? len (pdf_pages doc) then doc_error "page_limit_exceeded"
      else match pdf_pages doc with
      | [] => doc_error "invalid_document"
      | ps => native_pages l (page_labels doc) 0 0 ps
      end
  end.
End Parser.

(** ** [_format] *)

(** [str.split(chr(c))]. *)
Fixpoint split_on (c : N) (t : text) : list text :=
  match t with
  | [] => [[]]
  | x :: t' =>
      if (x =? c)%N then [] :: split_on c t'
      else match split_on c t' with
           | y :: ys => (x :: y) :: ys
           | [] => [[x]]
           end
  end.

(** [PurePosixPath(t).name]: the last component; empty components and dots are dropped. *)
Definition path_name (t : text) : text :=
  default [] (last (List.filter (λ p, negb (text_eqb p [])  && negb (text_eqb p [46%N])) (split_on 47 t))).

(** [name.rfind('.')] and the text from there, if the dot is neither the first nor the last
    character. *)
Fixpoint rfind_dot (i : Z) (found : Z) (t : text) : Z :=
  match t with
  | [] => found
  | c :: t' => rfind_dot (i + 1) (if (c =? 46)%N then i else found) t'
  end.

Definition suffix (t : text) : text :=
  let name := path_name t in
  let i := rfind_dot 0 (-1) name in
  if (0 <? i) && (i <? len name - 1) then drop (Z.to_nat i) name else [].

(** [lower()] on the characters that matter: no other character has a lower case form in the
    two known extensions. *)
Definition lower (t : text) : text := (λ c, if (65 <=? c)%N && (c <=? 90)%N then (c + 32)%N else c) <$> t.

Definition slashes (t : text) : text := (λ c, if (c =? 92)%N then 47%N else c) <$> t.

Definition detect (data : text) : Mime :=
  if text_eqb (take 5 data) (cps "%PDF-") then application_pdf else text_plain.

Definition extension_mime (suffix : text) : option Mime :=
  if text_eqb suffix (cps ".pdf") then Some application_pdf
  else if text_eqb suffix (cps ".txt") then Some text_plain else None.

Definition _format (data filename declared : text) : result exn Mime :=
  match data with
  | [] => doc_error "invalid_document"
  | _ =>
      let detected := detect data in
      let sfx := lower (suffix (slashes filename)) in
      if negb (text_eqb declared (cps (mime_str detected)))
         || negb (text_eqb sfx []) && negb (bool_decide (extension_mime sfx = Some detected))
      then doc_error "unsupported_format"
      else Ok detected
  end.

(** ** [_unit] *)

(** The pieces of [text.split('\n')], each but the last with its newline. *)
Fixpoint with_newlines (ps : list text) : list text :=
  match ps with
  | [] => []
  | [p] => [p]
  | p :: ps' => (p ++ [newline]) :: with_newlines ps'
  end.

Definition ends_with_newline (t : text) : bool := bool_decide (last t = Some newline).

Section Extraction.
Context `{Runtime}.

Definition block_of (extraction source : uuid) (plain_text : bool) (index offset : Z) (piece : text) : Block := {|
  block_id := stable_id [cps extraction; cps source; z_text index]; blk_source_id := source;
  blk_kind := b_text; reading_order := index; source_text := piece;
  blk_span := {| sp_start := offset; sp_end := offset + len piece;
                 line_start := if plain_text then Some (index + 1) else None;
                 line_end := if plain_text then Some (index + 1) else None |};
  normalized_text := None; geometry := None; parent_id := None; child_ids := []; visual := None |}.

(** [for piece in pieces], from the next index and offset. *)
Fixpoint make_blocks (l : ExtractionSettings) (extraction source : uuid) (plain_text : bool)
    (index offset : Z) (pieces : list text) : result exn (list Block) :=
  match pieces with
  | [] => Ok []
  | [] :: ps => make_blocks l extraction source plain_text index offset ps
  | p :: ps =>
      if x_blocks l <=? index then doc_error "extraction_limit_exceeded"
      else cons (block_of extraction source plain_text index offset p)
             <$> make_blocks l extraction source plain_text (index + 1) (offset + len p) ps
  end.

Definition observe (p : ParsedPage) (structure : bool) (bs : list Block) : Observations :=
  let t := page_text p in {|
  character_count := len t;
  printable_ratio := ratio (Z.of_nat (length (List.filter
    (λ c, isprintable c || (c =? 13)%N || (c =? 10)%N || (c =? 9)%N) t))) (len t) 1;
  replacement_ratio := ratio (count_char 65533 t) (len t) 0;
  has_native_text := has_text t; has_images := page_images p; has_graphics := page_graphics p;
  parser_failed := page_failed p; structure_required := structure; block_count := len bs |}.

Definition unit_status (p : ParsedPage) : UnitStatus :=
  if page_failed p then u_failed
  else if has_text (page_text p) then u_native_text
  else if default false (page_images p) then u_image_only
  else if negb (bool_decide (page_graphics p = Some false)) then u_unresolved
  else u_blank.

Definition pieces_of (plain_text : bool) (t : text) : list text :=
  if plain_text then with_newlines (split_on newline t)
  else match t with [] => [] | _ => [t] end.

Definition _unit (p : ParsedPage) (version extraction : uuid) (parser : text) (l : ExtractionSettings)
    (structure plain_text : bool) : result exn TextUnit :=
  let source := stable_id [cps version; if plain_text then cps "text" else cps "page:" ++ z_text (ordinal p)] in
  let t := page_text p in
  _ ← (if plain_text && (x_blocks l <? count_char newline t + (if ends_with_newline t then 0 else 1))
       then doc_error "extraction_limit_exceeded" else Ok tt);
  bs ← make_blocks l extraction source plain_text 0 0 (pieces_of plain_text t);
  let u := {|
    unit_source_id := source; unit_version_id := version;
    physical_page := if plain_text then None else Some (ordinal p); printed_label := label p;
    width := page_width p; height := page_height p; rotation := page_rotation p; status := unit_status p;
    method := m_native; unit_parser_version := parser; unit_text := t; blocks := bs;
    decision := Policy.decide source (observe p structure bs); ocr_engine := None;
    ocr_model_version := None; ocr_confidence := None |} in
  if valid_text_unit u && forallb (λ b, valid_span (blk_span b)) bs then Ok u
  else doc_error "extraction_failed".

Fixpoint make_units (ps : list ParsedPage) (version extraction : uuid) (parser : text)
    (l : ExtractionSettings) (structure plain_text : bool) : result exn (list TextUnit) :=
  match ps with
  | [] => Ok []
  | p :: ps' =>
      u ← _unit p version extraction parser l structure plain_text;
      cons u <$> make_units ps' version extraction parser l structure plain_text
  end.

(** ** [documents/serialization.py] *)

(** [json.dumps] of a string with [ensure_ascii=False]. *)
Definition escape_unicode (c : N) : text :=
  if (c <? 127)%N then escape c else [c].

Definition dumps_str_unicode (t : text) : text := 34%N :: (t ≫= escape_unicode) ++ [34%N].

Fixpoint dumps_unicode (v : json) : text :=
  match v with
  | JStr t => dumps_str_unicode t
  | JArr l => 91%N :: join 44 (dumps_unicode <$> l) ++ [93%N]
  | JObj l =>
      123%N :: join 44 ((λ kv, dumps_str_unicode (cps kv.1) ++ 58%N :: dumps_unicode kv.2) <$> l) ++ [125%N]
  | _ => dumps v
  end.

(** Pydantic's JSON form of an aware datetime. *)
Variable datetime_json : Z → text.

Definition jfloat (q : Q) : json := JFloat q.
Definition juuid (u : uuid) : json := jstr u.

Definition document_json (d : Document) : json :=
  JObj [("schema_version", jstr "document/1"); ("document_id", juuid (document_id d));
        ("document_version_id", juuid (document_version_id d)); ("scope", scope_json (doc_scope d));
        ("source", ref_json (doc_source d)); ("display_filename", JStr (display_filename d));
        ("declared_mime", JStr (declared_mime d)); ("detected_mime", jstr (mime_str (detected_mime d)));
        ("page_count", jopt JInt (page_count d)); ("language", jopt JStr (language d));
        ("language_confidence", jopt jfloat (language_confidence d));
        ("created_at", JStr (datetime_json (created_at d)))].

Definition geometry_json (g : Geometry) : json :=
  JObj [("coordinates", JArr (jfloat <$> coordinates g));
        ("units", jstr match geo_units g with g_points => "points" | g_pixels => "pixels" | g_relative => "relative" end);
        ("origin", jstr match geo_origin g with top_left => "top_left" | bottom_left => "bottom_left" end)].

Definition visual_json (v : Visual) : json :=
  JObj [("state", jstr match v_state v with v_unparsed => "unparsed" | v_unsupported => "unsupported" | v_parsed => "parsed" end);
        ("caption", jopt JStr (v_caption v));
        ("cells", jopt (λ rows, JArr ((λ row, JArr (JStr <$> row)) <$> rows)) (v_cells v));
        ("image", jopt ref_json (v_image v))].

Definition block_kind_str (k : BlockKind) : string :=
  match k with
  | b_text => "text" | b_paragraph => "paragraph" | b_heading => "heading" | b_table => "table"
  | b_figure => "figure" | b_caption => "caption" | b_unknown => "unknown"
  end.

Definition block_json (b : Block) : json :=
  JObj [("block_id", juuid (block_id b)); ("source_id", juuid (blk_source_id b));
        ("kind", jstr (block_kind_str (blk_kind b))); ("reading_order", JInt (reading_order b));
        ("source_text", JStr (source_text b)); ("span", span_json (blk_span b));
        ("normalized_text", jopt JStr (normalized_text b)); ("geometry", jopt geometry_json (geometry b));
        ("parent_id", jopt juuid (parent_id b)); ("child_ids", JArr (juuid <$> child_ids b));
        ("visual", jopt visual_json (visual b))].

Definition observations_json (o : Observations) : json :=
  JObj [("character_count", JInt (character_count o)); ("printable_ratio", jfloat (printable_ratio o));
        ("replacement_ratio", jfloat (replacement_ratio o)); ("has_native_text", JBool (has_native_text o));
        ("has_images", jopt JBool (has_images o)); ("has_graphics", jopt JBool (has_graphics o));
        ("parser_failed", JBool (parser_failed o)); ("structure_required", JBool (structure_required o));
        ("block_count", JInt (block_count o))].

Definition outcome_str (o : Outcome) : string :=
  match o with
  | native_accepted => "native_accepted" | layout_required => "layout_required"
  | ocr_required => "ocr_required" | unsupported => "unsupported" | failed => "failed"
  | manual_review => "manual_review"
  end.
Definition tier_str (t : Tier) : string :=
  match t with tier_native => "native" | tier_layout => "layout" | tier_ocr => "ocr" | tier_none => "none" end.
Definition reason_str (r : Reason) : string :=
  match r with
  | native_text => "native_text" | blank => "blank" | image_without_text => "image_without_text"
  | structure_requested => "structure_requested" | unusable_text => "unusable_text"
  | parser_failure => "parser_failure" | unresolved_graphics => "unresolved_graphics"
  end.

Definition decision_json (d : Decision) : json :=
  JObj [("source_id", juuid (dec_source_id d)); ("policy_version", jstr "native-policy/1");
        ("observations", observations_json (dec_observations d)); ("outcome", jstr (outcome_str (outcome d)));
        ("next_tier", jstr (tier_str (next_tier d))); ("reason", jstr (reason_str (reason d)))].

Definition status_str (s : UnitStatus) : string :=
  match s with
  | u_native_text => "native_text" | u_blank => "blank" | u_image_only => "image_only"
  | u_unresolved => "unresolved" | u_failed => "failed"
  end.

Definition unit_json (u : TextUnit) : json :=
  JObj [("source_id", juuid (unit_source_id u)); ("document_version_id", juuid (unit_version_id u));
        ("physical_page", jopt JInt (physical_page u)); ("printed_label", jopt JStr (printed_label u));
        ("width", jopt jfloat (width u)); ("height", jopt jfloat (height u));
        ("rotation", jopt JInt (rotation u)); ("status", jstr (status_str (status u)));
        ("method", jstr match method u with m_native => "native" | m_ocr => "ocr" | m_layout => "layout" end);
        ("parser_version", JStr (unit_parser_version u)); ("text", JStr (unit_text u));
        ("blocks", JArr (block_json <$> blocks u)); ("decision", decision_json (decision u));
        ("ocr_engine", jopt JStr (ocr_engine u)); ("ocr_model_version", jopt JStr (ocr_model_version u));
        ("ocr_confidence", jopt jfloat (ocr_confidence u))].

Definition artifact_json (a : ExtractionArtifact) : json :=
  JObj [("schema_version", jstr "extraction/1"); ("document", document_json (document a));
        ("extraction_id", juuid (extraction_id a)); ("extraction_profile", jstr "native/1");
        ("normalization_profile", jstr "identity/1"); ("parser_version", JStr (art_parser_version a));
        ("extracted_at", JStr (datetime_json (extracted_at a)));
        ("max_source_bytes", JInt (max_source_bytes a)); ("max_pages", JInt (max_pages a));
        ("max_characters", JInt (max_characters a)); ("max_blocks", JInt (max_blocks a));
        ("structure_required", JBool (art_structure_required a)); ("units", JArr (unit_json <$> units a))].

(** Revalidation, then canonical UTF-8. *)
Definition serialize (a : ExtractionArtifact) : result exn text :=
  if model_valid a then
    match utf8_encode (dumps_unicode (sort_keys (artifact_json a))) with
    | Some bs => Ok bs
    | None => doc_error "serialization_error"
    end
  else doc_error "serialization_error".

(** ** [extract] *)

(** [ParserRunner]. *)
Record ParserRunner := {
  runner_version : text;
  runner_parse : text → ExtractionSettings → result exn (list ParsedPage) }.

(** The pages of the detected format, and the version of its parser. *)
Definition text_pages (data : text) (l : ExtractionSettings) : result exn (list ParsedPage) :=
  match utf8_decode data with
  | None => doc_error "invalid_document"
  | Some t =>
      if negb (has_text t)
         || existsb (λ c, (c <? 32)%N && negb (bool_decide (c ∈ [13%N; 10%N; 9%N]))) t
      then doc_error "invalid_document"
      else if x_characters l <? len t then doc_error "extraction_limit_exceeded"
      else Ok [{| ordinal := 1; page_text := t; label := None; page_width := None; page_height := None;
                  page_rotation := None; page_images := Some false; page_graphics := Some false;
                  page_failed := false |}]
  end.

Definition runner_pages (r : ParserRunner) (data : text) (l : ExtractionSettings) : result exn (list ParsedPage) :=
  ps ← match runner_parse r data l with
       | Err (DocErr c) => Err (DocErr c)
       | Err _ => doc_error "extraction_failed"
       | Ok ps => Ok ps
       end;
  _ ← match ps with [] => doc_error "invalid_document" | _ => Ok tt end;
  _ ← (if x_pages l <? len ps then doc_error "page_limit_exceeded" else Ok tt);
  if bool_decide (ordinal <$> ps = (λ i, Z.of_nat i) <$> seq 1 (length ps)) then Ok ps
  else doc_error "extraction_failed".

Definition text_parser : text := cps "utf8-strict/1".

(** Everything before the first write: the format, its parser, the identities and the units. *)
Record extraction := {
  e_data : text; e_detected : Mime; e_parser : text; e_version : uuid; e_extraction : uuid;
  e_units : list TextUnit }.

Definition analyse (data : text) (sc : Scope) (doc : uuid) (filename declared : text)
    (l : ExtractionSettings) (extracted_at : Z) (expected : option digest) (structure : bool)
    (r : ParserRunner) : result exn extraction :=
  _ ← (if 512 <? len filename then doc_error "invalid_document" else Ok tt);
  data ← match bounded_read data (x_source_bytes l) with
         | None => doc_error "source_too_large" | Some d => Ok d end;
  let checksum := sha256_hex data in
  _ ← (if match expected with Some e => negb (bool_decide (e = checksum)) | None => false end
       then doc_error "integrity_error" else Ok tt);
  detected ← _format data filename declared;
  let plain_text := bool_decide (detected = text_plain) in
  ps ← (if plain_text then text_pages data l else runner_pages r data l);
  let parser := if plain_text then text_parser else runner_version r in
  _ ← (if x_characters l <? sum_by (λ p, len (page_text p)) ps
       then doc_error "extraction_limit_exceeded" else Ok tt);
  let version := version_identity sc doc checksum in
  let extraction := extraction_identity sc version parser extracted_at (x_source_bytes l) (x_pages l)
                      (x_characters l) (x_blocks l) structure in
  us ← make_units ps version extraction parser l structure plain_text;
  _ ← (if x_blocks l <? sum_by (λ u, len (blocks u)) us
       then doc_error "extraction_limit_exceeded" else Ok tt);
  Ok {| e_data := data; e_detected := detected; e_parser := parser; e_version := version;
        e_extraction := extraction; e_units := us |}.

(** The models built after the source was stored. *)
Definition assemble (e : extraction) (source : ObjectRef) (sc : Scope) (doc : uuid)
    (filename declared : text) (l : ExtractionSettings) (created_at extracted_at : Z) (structure : bool)
    : ExtractionArtifact := {|
  document := {|
    document_id := doc; document_version_id := e_version e; doc_scope := sc; doc_source := source;
    display_filename := filename; declared_mime := declared; detected_mime := e_detected e;
    page_count := if bool_decide (e_detected e = application_pdf) then Some (len (e_units e)) else None;
    language := None; language_confidence := None; created_at := created_at |};
  extraction_id := e_extraction e; art_parser_version := e_parser e; extracted_at := extracted_at;
  max_source_bytes := x_source_bytes l; max_pages := x_pages l; max_characters := x_characters l;
  max_blocks := x_blocks l; art_structure_required := structure; units := e_units e |}.

Definition extract (data : text) (sc : Scope) (doc : uuid) (filename declared : text)
    (l : ExtractionSettings) (created_at extracted_at : Z) (expected : option digest)
    (structure : bool) (r : ParserRunner) : handling (ExtractionArtifact * ObjectRef) :=
  e ← from_result (analyse data sc doc filename declared l extracted_at expected structure r);
  source ← put_object sc source_kind (e_version e) (e_data e) (x_source_bytes l)
             (Some (sha256_hex (e_data e)));
  let a := assemble e source sc doc filename declared l created_at extracted_at structure in
  _ ← from_result (if model_valid a then Ok tt else doc_error "extraction_failed");
  encoded ← from_result (serialize a);
  _ ← from_result (if x_artifact_bytes l <? len encoded then doc_error "extraction_limit_exceeded" else Ok tt);
  ref ← put_object sc artifact_kind (e_extraction e) encoded (x_artifact_bytes l)
          (Some (sha256_hex encoded));
  mret (a, ref).

(** ** [ExtractionHandler] *)

Definition profile_limits (p : ProcessingProfile) : ExtractionSettings := {|
  x_source_bytes := p_max_source_bytes p; x_pages := p_max_pages p; x_characters := p_max_characters p;
  x_blocks := p_max_blocks p; x_artifact_bytes := p_max_artifact_bytes p |}.

Definition extraction_handler (r : ParserRunner) (job : job_row) (step : step_row * list ObjectRef)
    : handling (list ObjectRef) :=
  let rq := request job in
  let p := profile rq in
  let sp := spec step.1 in
  let actual := if bool_decide (a_mime rq = text_plain) then text_parser else runner_version r in
  _ ← from_result
        (if negb (bool_decide (stage sp = Stage.EXTRACTING))
            || negb (text_eqb (cps (parser_version p)) actual)
            || negb (bool_decide (schema_version sp = "extraction/1"))
            || negb (bool_decide (config_fingerprint sp = fingerprint (JObj [])))
         then Err (JobError "profile_mismatch") else Ok tt);
  data ← read_object (a_scope rq) (a_source rq) (p_max_source_bytes p);
  '(a, ref) ← extract data (a_scope rq) (a_document_id rq) (a_display_filename rq)
                (cps (mime_str (a_mime rq))) (profile_limits p) (document_created_at job)
                (execution_at step.1) (Some (ref_sha256 (a_source rq))) (p_structure_required p) r;
  _ ← from_result (if bool_decide (doc_source (document a) = a_source rq) then Ok tt
                   else doc_error "integrity_error");
  mret [ref].

End Extraction.
