(* ===== verification/ExtractionTheorems.v ===== *)
(** * Correctness of extraction

    An extraction that passes its input checks always assembles a valid artifact, plain text is
    extracted without loss, and the objects it returns are stored. *)

From Stdlib Require Import ZArith NArith QArith Lia.
From stdpp Require Import base tactics list strings option sets.
From S2P Require Import Prelude Json Contracts ContractFacts JobModels JobLedger Sample Storage Utf8 Extraction.

Local Open Scope Z_scope.

(** ** Lines *)

Lemma split_on_nonempty c t : split_on c t ≠ [].
Proof. destruct t as [|x t]; [done|]. simpl. destruct (x =? c)%N; [done|]. by destruct (split_on c t). Qed.

Lemma split_on_concat t : concat (with_newlines (split_on newline t)) = t.
Proof.
  induction t as [|x t IH]; [done|]. cbn [split_on].
  destruct (N.eqb_spec x newline) as [->|Hx].
  - pose proof (split_on_nonempty newline t). destruct (split_on newline t) as [|y ys]; [done|].
    change (concat ([newline] :: with_newlines (y :: ys)) = newline :: t). cbn [concat app]. by rewrite IH.
  - destruct (split_on newline t) as [|y [|z zs]] eqn:E; [by destruct (split_on_nonempty newline t)|..].
    + simpl in *. by rewrite <-IH, app_nil_r.
    + change (concat (((x :: y) ++ [newline]) :: with_newlines (z :: zs)) = x :: t).
      change (concat ((y ++ [newline]) :: with_newlines (z :: zs)) = t) in IH. by rewrite <-IH.
Qed.

(** Every piece but the last is a line with its newline; the last has none. *)
Fixpoint line_pieces (ps : list text) : Prop :=
  match ps with
  | [] => True
  | [p] => newline ∉ p
  | p :: ps' => (∃ x, p = x ++ [newline] ∧ newline ∉ x) ∧ line_pieces ps'
  end.

Lemma split_on_lines t : Forall (λ p, newline ∉ p) (split_on newline t).
Proof.
  induction t as [|x t IH]; [repeat constructor; apply not_elem_of_nil|]. cbn [split_on].
  destruct (N.eqb_spec x newline) as [->|Hx]; [constructor; [apply not_elem_of_nil|done]|].
  destruct (split_on newline t) as [|y ys]; [repeat constructor; by rewrite list_elem_of_singleton|].
  apply Forall_cons in IH as [Hy Hys]. constructor; [|done].
  rewrite not_elem_of_cons. split; [congruence|done].
Qed.

Lemma with_newlines_pieces ps : Forall (λ p, newline ∉ p) ps → line_pieces (with_newlines ps).
Proof.
  induction ps as [|p ps IH]; intros Hps; [done|]. apply Forall_cons in Hps as [Hp Hps].
  destruct ps as [|q ps]; [done|].
  change (line_pieces ((p ++ [newline]) :: with_newlines (q :: ps))).
  assert (with_newlines (q :: ps) ≠ []) as Hne by (by destruct ps).
  specialize (IH Hps). destruct (with_newlines (q :: ps)); [done|]. split; [by exists p|done].
Qed.

Lemma pieces_lines t : line_pieces (pieces_of true t).
Proof. apply with_newlines_pieces, split_on_lines. Qed.

Lemma pieces_concat plain t : concat (pieces_of plain t) = t.
Proof. destruct plain; [apply split_on_concat|]. destruct t; [done|]. simpl. by rewrite app_nil_r. Qed.

Lemma count_char_absent c t : c ∉ t → count_char c t = 0.
Proof.
  unfold count_char. induction t as [|x t IH]; [done|]. rewrite not_elem_of_cons. intros [Hx Ht]. simpl.
  destruct (N.eqb_spec c x); [done|]. by apply IH.
Qed.

Lemma count_char_snoc c t : count_char c (t ++ [c]) = count_char c t + 1.
Proof.
  unfold count_char. rewrite List.filter_app, length_app. simpl. rewrite N.eqb_refl. simpl. lia.
Qed.

Lemma rstrip_absent t : newline ∉ t → rstrip_newlines t = t.
Proof.
  induction t as [|x t IH]; [done|]. rewrite not_elem_of_cons. intros [Hx Ht]. simpl. rewrite (IH Ht).
  destruct t; [|done]. destruct (N.eqb_spec x newline); [by subst|done].
Qed.

Lemma rstrip_line t : newline ∉ t → count_char newline (rstrip_newlines (t ++ [newline])) = 0.
Proof.
  induction t as [|x t IH]; [done|]. rewrite not_elem_of_cons. intros [Hx Ht]. specialize (IH Ht).
  simpl. destruct (rstrip_newlines (t ++ [newline])) as [|y r] eqn:E.
  - destruct (N.eqb_spec x newline); [by subst|]. unfold count_char. cbn [List.filter].
    destruct (N.eqb_spec newline x); [by subst|done].
  - unfold count_char in *. cbn [List.filter]. destruct (N.eqb_spec newline x); [by subst|]. exact IH.
Qed.

(** ** Blocks *)

Section Facts.
Context `{Runtime}.

Lemma len_app {A} (x y : list A) : len (x ++ y) = len x + len y.
Proof. unfold len. rewrite length_app. lia. Qed.

Lemma len_nonneg {A} (x : list A) : 0 ≤ len x.
Proof. unfold len. lia. Qed.

Lemma slice_middle (x y z : text) : slice (x ++ y ++ z) (len x) (len x + len y) = y.
Proof.
  unfold slice, len. rewrite Nat2Z.id. replace (Z.to_nat _ - length x)%nat with (length y) by lia.
  rewrite drop_app_length. apply take_app_length.
Qed.

Lemma fmap_Ok {A B} (f : A → B) (r : result exn A) b : f <$> r = Ok b ↔ ∃ a, r = Ok a ∧ b = f a.
Proof. destruct r; simpl; split; [intros [= <-]; eauto|naive_solver|done|naive_solver]. Qed.

(** One built block passes the checks. *)
Lemma block_checks a u ids extraction plain index offset (pre p post : text) :
  extraction_id a = extraction → (page_count (document a) = None ↔ plain = true) →
  unit_text u = pre ++ p ++ post → len pre = offset → 0 ≤ index →
  (plain = true → count_char newline (rstrip_newlines p) = 0) →
  check_block a u ids index offset (index + 1) (block_of extraction (unit_source_id u) plain index offset p)
  = Ok (offset + len p, index + 1 + count_char newline p).
Proof.
  intros He Hpc Ht Hpre Hi Hl. unfold check_block, block_of. simpl. rewrite He.
  assert (offset + len p <= len (unit_text u)) as Hle.
  { rewrite Ht, !len_app. pose proof (len_nonneg post). lia. }
  rewrite !Z.eqb_refl, (proj2 (Z.leb_le _ _) Hle), Ht, <-Hpre, slice_middle. unfold text_eqb.
  destruct plain.
  - rewrite (proj2 Hpc eq_refl), !bool_decide_eq_true_2 by done. simpl. rewrite Hl by done.
    by rewrite Z.add_0_r, !bool_decide_eq_true_2.
  - destruct (page_count (document a)) as [n|]; [|by destruct Hpc as [Hpc _]; specialize (Hpc eq_refl)].
    by rewrite !bool_decide_eq_true_2.
Qed.

(** The pieces [_unit] iterates over. *)
Definition good_pieces (plain : bool) (ps : list text) : Prop :=
  if plain then line_pieces ps else (length ps ≤ 1)%nat.

Lemma good_pieces_cons plain p ps :
  good_pieces plain (p :: ps) →
  (plain = true → p ≠ [] → count_char newline (rstrip_newlines p) = 0) ∧
  (ps ≠ [] → plain = true ∧ p ≠ [] ∧ count_char newline p = 1 ∧ good_pieces plain ps).
Proof.
  destruct plain; simpl.
  - destruct ps as [|q ps].
    + intros Hp. split; [|done]. intros _ _. rewrite rstrip_absent by done. by apply count_char_absent.
    + intros [(y & -> & Hy) Hl]. split; [intros _ _; by apply rstrip_line|]. intros _.
      rewrite count_char_snoc, (count_char_absent _ y) by done. split_and!; try done. by destruct y.
  - destruct ps; simpl; [|lia]. done.
Qed.

Lemma make_blocks_check l a u ids plain (pre : text) pieces index bs :
  make_blocks l (extraction_id a) (unit_source_id u) plain index (len pre) pieces = Ok bs →
  (page_count (document a) = None ↔ plain = true) → unit_text u = pre ++ concat pieces → 0 ≤ index →
  good_pieces plain pieces →
  check_blocks a u ids index (len pre) (index + 1) bs = Ok (len (unit_text u)).
Proof.
  intros Hm Hpc. revert pre index bs Hm. induction pieces as [|p ps IH]; intros pre index bs Hm Ht Hi Hg.
  { injection Hm as <-. simpl. rewrite Ht. simpl. by rewrite app_nil_r. }
  apply good_pieces_cons in Hg as [Hr Hps]. destruct p as [|x p].
  { cbn [make_blocks] in Hm. destruct (decide (ps = [])) as [->|Hne].
    - injection Hm as <-. simpl. rewrite Ht. simpl. by rewrite app_nil_r.
    - by destruct (Hps Hne) as (_ & ? & _). }
  set (q := x :: p) in *. cbn [make_blocks] in Hm. unfold q in Hm. cbv iota in Hm. fold q in Hm.
  destruct (x_blocks l <=? index); [done|]. apply fmap_Ok in Hm as (bs' & Hm & ->).
  assert (unit_text u = pre ++ q ++ concat ps) as Ht' by exact Ht.
  cbn [check_blocks]. rewrite (block_checks a u ids (extraction_id a) plain index (len pre) pre q (concat ps));
    [|done|done|done|done|done|intros Hp; by apply Hr].
  unfold mbind, result_bind. rewrite <-len_app. rewrite <-(len_app pre q) in Hm.
  destruct (decide (ps = [])) as [->|Hne].
  { simpl in Hm. injection Hm as <-. simpl. rewrite Ht'. simpl. by rewrite app_nil_r. }
  destruct (Hps Hne) as (_ & _ & -> & Hg). apply IH; [done|by rewrite <-app_assoc|lia|done].
Qed.

Lemma pieces_good plain t : good_pieces plain (pieces_of plain t).
Proof. destruct plain; [apply pieces_lines|]. destruct t; simpl; lia. Qed.

Lemma make_blocks_text l extraction source plain index offset pieces bs :
  make_blocks l extraction source plain index offset pieces = Ok bs →
  concat (source_text <$> bs) = concat pieces.
Proof.
  revert index offset bs. induction pieces as [|p ps IH]; intros index offset bs Hm; [by injection Hm as <-|].
  destruct p as [|x p]; [by eapply IH|]. cbn [make_blocks] in Hm.
  destruct (x_blocks l <=? index); [done|]. apply fmap_Ok in Hm as (bs' & Hm & ->).
  rewrite fmap_cons. cbn [concat]. by rewrite (IH _ _ _ Hm).
Qed.

(** ** Units *)

Definition plain_page (p : ParsedPage) : Prop :=
  label p = None ∧ page_width p = None ∧ page_height p = None ∧ page_rotation p = None.

(** What a built unit is. *)
Lemma unit_Ok p version extraction parser l structure plain u :
  _unit p version extraction parser l structure plain = Ok u →
  valid_text_unit u = true ∧ forallb (λ b, valid_span (blk_span b)) (blocks u) = true ∧
  unit_text u = page_text p ∧ concat (source_text <$> blocks u) = page_text p ∧
  physical_page u = (if plain then None else Some (ordinal p)) ∧
  make_blocks l extraction (unit_source_id u) plain 0 0 (pieces_of plain (page_text p)) = Ok (blocks u) ∧
  unit_source_id u = stable_id [cps version; if plain then cps "text" else cps "page:" ++ z_text (ordinal p)] ∧
  unit_version_id u = version ∧ unit_parser_version u = parser ∧ status u = unit_status p ∧
  printed_label u = label p ∧ width u = page_width p ∧ height u = page_height p ∧ rotation u = page_rotation p ∧
  decision u = Policy.decide (unit_source_id u) (observe p structure (blocks u)).
Proof.
  unfold _unit. cbv zeta. intros Hu. apply result_bind_Ok in Hu as ([] & _ & Hu).
  apply result_bind_Ok in Hu as (bs & Hb & Hu). destruct (_ && _) eqn:Ev; [|done].
  apply andb_true_iff in Ev as [Ev Hs]. injection Hu as <-. simpl.
  split_and!; try done. rewrite (make_blocks_text _ _ _ _ _ _ _ _ Hb). apply pieces_concat.
Qed.

Lemma decide_fields source o :
  dec_source_id (Policy.decide source o) = source ∧ dec_observations (Policy.decide source o) = o.
Proof. unfold Policy.decide. by repeat case_match. Qed.

Lemma status_failed p : bool_decide (unit_status p = u_failed) = page_failed p.
Proof. unfold unit_status. by repeat case_match; simpl. Qed.

Lemma Qeq_bool_refl q : Qeq_bool q q = true.
Proof. by apply Qeq_bool_iff. Qed.

Lemma unit_checks a ids p version l plain u :
  _unit p version (extraction_id a) (art_parser_version a) l (art_structure_required a) plain = Ok u →
  document_version_id (document a) = version → (page_count (document a) = None ↔ plain = true) →
  unit_source_id u ∉ ids → NoDup (block_id <$> blocks u) → (plain = true → plain_page p) →
  check_unit a ids u = Ok tt.
Proof.
  intros Hu Hv Hpc Hids Hnd Hplain.
  apply unit_Ok in Hu as (_ & _ & Ht & _ & Hp & Hb & Hs & Hver & Hpar & Hst & Hlab & Hw & Hh & Hr & Hd).
  destruct (decide_fields (unit_source_id u) (observe p (art_structure_required a) (blocks u))) as [Hds Hdo].
  unfold check_unit. rewrite Hd, Hds, Hdo. cbv zeta. unfold observe. cbn [character_count block_count
    has_native_text structure_required parser_failed printable_ratio replacement_ratio].
  rewrite Hver, Hpar, <-Hv, Hst, status_failed, Ht.
  unfold text_eqb. rewrite (bool_decide_eq_false_2 (_ ∈ ids)) by done.
  rewrite (bool_decide_eq_true_2 (document_version_id _ = _)) by done.
  rewrite (bool_decide_eq_true_2 (unit_source_id u = unit_source_id u)) by done.
  rewrite (bool_decide_eq_true_2 (art_parser_version a = _)) by done. simpl.
  rewrite (bool_decide_eq_true_2 (unit_source_id u = expected_source_id a u)).
  2: { unfold expected_source_id. rewrite Hs, Hp, Hv. by destruct plain. }
  rewrite !Z.eqb_refl, !Qeq_bool_refl, !Bool.eqb_reflx. simpl.
  replace (match physical_page u with None => _ | Some _ => true end) with true.
  2: { rewrite Hp. destruct plain; [|done]. destruct (Hplain eq_refl) as (E1 & E2 & E3 & E4).
       rewrite Hlab, Hw, Hh, Hr, E1, E2, E3, E4. by rewrite !bool_decide_eq_true_2. }
  simpl. rewrite (bool_decide_eq_true_2 (NoDup _)) by done. simpl.
  pose proof (make_blocks_check l a u (block_id <$> blocks u) plain [] _ 0 (blocks u) Hb Hpc) as Hc.
  change (len (A:=N) []) with 0 in Hc. change (0 + 1) with 1 in Hc. rewrite Hc.
  - unfold mbind, result_bind. by rewrite Ht, Z.eqb_refl.
  - simpl. by rewrite pieces_concat.
  - lia.
  - apply pieces_good.
Qed.

End Facts.

Section Theorems.
Context `{Runtime}.

Lemma make_units_Forall2 ps version extraction parser l structure plain us :
  make_units ps version extraction parser l structure plain = Ok us →
  Forall2 (λ p u, _unit p version extraction parser l structure plain = Ok u) ps us.
Proof.
  revert us. induction ps as [|p ps IH]; intros us Hm; [injection Hm as <-; constructor|].
  cbn [make_units] in Hm. apply result_bind_Ok in Hm as (u & Hu & Hm). apply fmap_Ok in Hm as (us' & Hm & ->).
  constructor; [done|by apply IH].
Qed.

Lemma check_units_all a ids us :
  (∀ u ids', u ∈ us → unit_source_id u ∉ ids' → check_unit a ids' u = Ok tt) →
  NoDup (unit_source_id <$> us) → (∀ u, u ∈ us → unit_source_id u ∉ ids) →
  check_units a ids us = Ok tt.
Proof.
  revert ids. induction us as [|u us IH]; intros ids Hc Hnd Hids; [done|]. rewrite fmap_cons in Hnd.
  apply NoDup_cons in Hnd as [Hu Hnd]. cbn [check_units].
  rewrite Hc; [|set_solver|apply Hids; set_solver]. unfold mbind, result_bind. apply IH; [|done|].
  - intros v ids' Hv. apply Hc. set_solver.
  - intros v Hv. rewrite not_elem_of_cons. split; [|apply Hids; set_solver].
    intros Ev. apply Hu. rewrite <-Ev. by apply list_elem_of_fmap_2.
Qed.

(** ** What the analysis establishes *)

(** The pages of either format. *)
Definition pages_ok (plain : bool) (data : text) (l : ExtractionSettings) (ps : list ParsedPage) : Prop :=
  if plain then ∃ p, ps = [p] ∧ plain_page p ∧ utf8_decode data = Some (page_text p)
  else ps ≠ [] ∧ len ps ≤ x_pages l ∧ ordinal <$> ps = (λ i, Z.of_nat i) <$> seq 1 (length ps).

Lemma text_pages_Ok data l ps : text_pages data l = Ok ps → pages_ok true data l ps.
Proof.
  unfold text_pages. destruct (utf8_decode data) as [t|] eqn:Et; [|done]. destruct (_ || _); [done|].
  destruct (_ <? _); [done|]. intros [= <-]. eexists. split; [done|]. by repeat split.
Qed.

Lemma runner_pages_Ok r data l ps : runner_pages r data l = Ok ps → pages_ok false data l ps.
Proof.
  unfold runner_pages. intros Hr. apply result_bind_Ok in Hr as (ps0 & _ & Hr).
  apply result_bind_Ok in Hr as ([] & H1 & Hr). apply result_bind_Ok in Hr as ([] & H2 & Hr).
  case_bool_decide as Ho; [|done]. injection Hr as ->.
  destruct (Z.ltb_spec (x_pages l) (len ps)); [done|]. split_and!; [by destruct ps|done|done].
Qed.

Record analysed (data : text) (sc : Scope) (doc : uuid) (filename declared : text)
    (l : ExtractionSettings) (at_ : Z) (expected : option digest) (structure : bool)
    (e : extraction) (ps : list ParsedPage) : Prop := {
  an_filename : len filename ≤ 512;
  an_data : e_data e = data;
  an_size : len data ≤ x_source_bytes l;
  an_expected : ∀ d, expected = Some d → d = sha256_hex data;
  an_pages : pages_ok (bool_decide (e_detected e = text_plain)) data l ps;
  an_characters : sum_by (λ p, len (page_text p)) ps ≤ x_characters l;
  an_version : e_version e = version_identity sc doc (sha256_hex data);
  an_extraction : e_extraction e = extraction_identity sc (e_version e) (e_parser e) at_ (x_source_bytes l)
    (x_pages l) (x_characters l) (x_blocks l) structure;
  an_units : Forall2 (λ p u, _unit p (e_version e) (e_extraction e) (e_parser e) l structure
    (bool_decide (e_detected e = text_plain)) = Ok u) ps (e_units e);
  an_blocks : sum_by (λ u, len (blocks u)) (e_units e) ≤ x_blocks l }.

Lemma analyse_Ok data sc doc filename declared l at_ expected structure r e :
  0 ≤ x_source_bytes l →
  analyse data sc doc filename declared l at_ expected structure r = Ok e →
  ∃ ps, analysed data sc doc filename declared l at_ expected structure e ps.
Proof.
  intros Hl. unfold analyse. cbv zeta. intros Ha.
  apply result_bind_Ok in Ha as ([] & H1 & Ha). apply result_bind_Ok in Ha as (d & H2 & Ha).
  apply result_bind_Ok in Ha as ([] & H3 & Ha). apply result_bind_Ok in Ha as (m & H4 & Ha).
  apply result_bind_Ok in Ha as (ps & H5 & Ha). apply result_bind_Ok in Ha as ([] & H6 & Ha).
  apply result_bind_Ok in Ha as (us & H7 & Ha). apply result_bind_Ok in Ha as ([] & H8 & Ha).
  injection Ha as <-. rewrite bounded_read_spec in H2 by done.
  destruct (Z.leb_spec (len data) (x_source_bytes l)); [|done]. injection H2 as <-.
  destruct (Z.ltb_spec 512 (len filename)); [done|].
  destruct (Z.ltb_spec (x_characters l) (sum_by (λ p, len (page_text p)) ps)); [done|].
  destruct (Z.ltb_spec (x_blocks l) (sum_by (λ u, len (blocks u)) us)); [done|].
  exists ps. split; simpl; try done.
  - intros x ->. destruct (decide (x = sha256_hex data)); [done|].
    by rewrite bool_decide_eq_false_2 in H3.
  - case_bool_decide; [by apply text_pages_Ok|by eapply runner_pages_Ok].
  - by apply make_units_Forall2.
Qed.

(** ** Assembling never fails *)

Lemma expected_pages (ps : list ParsedPage) :
  ordinal <$> ps = (λ i, Z.of_nat i) <$> seq 1 (length ps) →
  (λ p, Some (ordinal p)) <$> ps = page_range (len ps).
Proof.
  intros Ho. unfold page_range, len. rewrite Nat2Z.id.
  replace ((λ p, Some (ordinal p)) <$> ps) with (Some <$> (ordinal <$> ps)) by (by rewrite <-list_fmap_compose).
  rewrite Ho. by rewrite <-list_fmap_compose.
Qed.

Lemma Forall2_pages ps us v x p l s plain :
  Forall2 (λ p0 u, _unit p0 v x p l s plain = Ok u) ps us →
  physical_page <$> us = (λ p, if plain then None else Some (ordinal p)) <$> ps ∧
  sum_by (λ u, len (unit_text u)) us = sum_by (λ p, len (page_text p)) ps ∧
  forallb valid_text_unit us = true ∧
  forallb (λ u, forallb (λ b, valid_span (blk_span b)) (blocks u)) us = true ∧ length us = length ps.
Proof.
  induction 1 as [|p0 u ps us Hu _ (IH1 & IH2 & IH3 & IH4 & IH5)]; [done|].
  apply unit_Ok in Hu as (Hv & Hs & Ht & _ & Hp & _). rewrite !fmap_cons, Hp, IH1. cbn [forallb].
  rewrite Hv, IH3, Hs, IH4. unfold sum_by in *. simpl. rewrite IH2, Ht, IH5. done.
Qed.

(** C17: Once the input checks passed, an extraction never fails to build its artifact: the units
    it made, of plain text or of any parser's pages, satisfy every field constraint, the lineage
    of the document and the whole provenance graph of the artifact model (identities, page
    inventory, contiguous block coverage, line numbers, text statistics and budgets).  So the
    source object an extraction stores is never left behind by a validation error.  The ids of
    the document's units and blocks are assumed not to collide. *)
Theorem extraction_assembles data sc doc filename declared l created at_ expected structure r e :
  analyse data sc doc filename declared l at_ expected structure r = Ok e →
  valid_settings l = true → is_digest (sha256_hex data) = true →
  NoDup (unit_source_id <$> e_units e) → Forall (λ u, NoDup (block_id <$> blocks u)) (e_units e) →
  model_valid (assemble e (make_ref sc source_kind (e_version e) data) sc doc filename declared l created at_
                 structure) = true.
Proof.
  intros Ha Hl Hsha Hnd Hblocks. unfold valid_settings in Hl. rewrite !andb_true_iff, !Z.ltb_lt in Hl.
  destruct Hl as [[[[L1 L2] L3] L4] _].
  apply analyse_Ok in Ha as (ps & [A1 _ A3 _ A5 A6 A7 A8 A9 A10]); [|lia].
  set (plain := bool_decide (e_detected e = text_plain)) in *.
  set (a := assemble _ _ _ _ _ _ _ _ _ _).
  destruct (Forall2_pages _ _ _ _ _ _ _ _ A9) as (Hpp & Hch & Hvu & Hsp & Hlen).
  assert (page_count (document a) = if plain then None else Some (len ps)) as Hpc.
  { unfold a, plain. simpl. unfold len. rewrite Hlen. by destruct (e_detected e). }
  assert (page_count (document a) = None ↔ plain = true) as Hiff by (rewrite Hpc; by destruct plain).
  assert (0 ≤ len data) by apply len_nonneg.
  unfold model_valid. rewrite !andb_true_iff, !bool_decide_eq_true. split_and!.
  - exact Hsp.
  - rewrite Hpc. destruct plain; [done|]. destruct A5 as (Hne & _). apply Z.leb_le. unfold len.
    destruct ps; [done|]. simpl. lia.
  - unfold valid_fields, valid_document, valid_object_ref. simpl.
    rewrite Hsha, Hvu, (proj2 (Z.leb_le 0 (len data))), bool_decide_eq_true_2 by done. simpl.
    rewrite !(proj2 (Z.ltb_lt _ _)) by done. by rewrite (proj2 (Z.leb_le (len filename) 512)).
  - unfold lineage. simpl. rewrite <-A7, (bool_decide_eq_true_2 (sc = sc)) by done.
    rewrite (bool_decide_eq_true_2 (e_version e = e_version e)) by done. simpl.
    by destruct (e_detected e).
  - unfold validate_graph. cbv zeta. rewrite (bool_decide_eq_true_2 (extraction_id a = _)) by exact A8.
    cbn [ensure mbind result_bind].
    change (max_source_bytes a) with (x_source_bytes l). change (max_pages a) with (x_pages l).
    change (max_characters a) with (x_characters l). change (max_blocks a) with (x_blocks l).
    change (ref_byte_size (doc_source (document a))) with (len data). rewrite (proj2 (Z.leb_le _ _) A3), Hpc.
    change (units a) with (e_units e). rewrite Hpp.
    assert (default 0 (if plain then None else Some (len ps)) <= x_pages l) as ->%Z.leb_le.
    { destruct plain; simpl; [lia|]. apply A5. }
    cbn [andb ensure mbind result_bind]. rewrite bool_decide_eq_true_2.
    2: { destruct plain; [by destruct A5 as (p & -> & _)|]. destruct A5 as (Hne & _ & Ho).
         destruct (Z.eqb_spec (len ps) 0); [by destruct ps|]. by rewrite <-expected_pages. }
    cbn [ensure mbind result_bind]. rewrite (check_units_all a []); [|intros u ids Hu Hids| done|set_solver].
    + unfold mbind, result_bind. rewrite Hch, (proj2 (Z.leb_le _ _) A6), (proj2 (Z.leb_le _ _) A10). done.
    + apply list_elem_of_lookup in Hu as (i & Hi). destruct (Forall2_lookup_r _ _ _ _ _ A9 Hi) as (p & Hp & Hu).
      eapply (unit_checks a ids p (e_version e) l plain u); [exact Hu|done|done|done| |].
      * rewrite Forall_forall in Hblocks. apply Hblocks. by eapply list_elem_of_lookup_2.
      * intros Ep. rewrite Ep in A5. destruct A5 as (p' & -> & Hpl & _).
        destruct i as [|[|]]; [|done..]. injection Hp as <-. done.
Qed.

(** ** Running an extraction on a store *)

Section Run.
Context {T : Type} `{OS : !ObjectStore T}.
Variable ask : ledger_view.
Variable datetime_json : Z → text.

Lemma run_from_result {A B} (r : result exn A) (f : A → handling B) (s : T) :
  run_on ask (from_result r ≫= f) s = match r with Ok a => run_on ask (f a) s | Err e => (Err e, s) end.
Proof. by destruct r. Qed.

Lemma run_put {B} sc k id data m e (f : ObjectRef → handling B) (s : T) :
  run_on ask (put_object sc k id data m e ≫= f) s =
  match put sc k id data m e s with (Ok r, s') => run_on ask (f r) s' | (Err x, s') => (Err x, s') end.
Proof. rewrite run_on_bind. unfold put_object. simpl. by destruct (put sc k id data m e s) as [[]]. Qed.

(** The source's key and the artifact's key are all an extraction writes. *)
Definition own_objects (sc : Scope) (e : extraction) (s s' : T) : Prop := ∀ key b,
  published s' key = Some b → published s key = Some b ∨
  (key = object_key sc source_kind (e_version e) ∧ b = e_data e) ∨
  key = object_key sc artifact_kind (e_extraction e).

Lemma extract_run data sc doc filename declared l created at_ expected structure r (s : T) :
  let '(res, s') := run_on ask (extract datetime_json data sc doc filename declared l created at_ expected structure r) s in
  match analyse data sc doc filename declared l at_ expected structure r with
  | Err x => res = Err x ∧ s' = s
  | Ok e =>
      own_objects sc e s s' ∧
      ∀ a ref, res = Ok (a, ref) →
        a = assemble e (make_ref sc source_kind (e_version e) (e_data e)) sc doc filename declared l created at_ structure ∧
        model_valid a = true ∧ stored s' (doc_source (document a)) ∧
        ∃ encoded, serialize datetime_json a = Ok encoded ∧
          ref = make_ref sc artifact_kind (extraction_id a) encoded ∧ stored s' ref
  end.
Proof.
  unfold extract. rewrite run_from_result.
  destruct (analyse _ _ _ _ _ _ _ _ _ _) as [e|x]; [|done]. rewrite run_put.
  pose proof (λ key b, put_only s sc source_kind (e_version e) (e_data e) (x_source_bytes l)
                (Some (sha256_hex (e_data e))) key b) as Ho.
  destruct (put sc source_kind _ _ _ _ s) as [[src|x] s1] eqn:E1; simpl in Ho.
  2: { split; [|done]. intros key b Hb%Ho. naive_solver. }
  apply put_Ok in E1 as [-> Hst].
  set (a := assemble _ _ _ _ _ _ _ _ _ _). rewrite run_from_result.
  assert (own_objects sc e s s1) as Hown1 by (intros key b Hb%Ho; naive_solver).
  destruct (model_valid a) eqn:Ev; [|by split]. rewrite run_from_result.
  destruct (serialize datetime_json a) as [encoded|x] eqn:Es; [|by split]. rewrite run_from_result.
  destruct (x_artifact_bytes l <? len encoded); [by split|]. rewrite run_put.
  pose proof (λ key b, put_only s1 sc artifact_kind (e_extraction e) encoded (x_artifact_bytes l)
                (Some (sha256_hex encoded)) key b) as Ho2.
  pose proof (λ key b, put_keeps s1 sc artifact_kind (e_extraction e) encoded (x_artifact_bytes l)
                (Some (sha256_hex encoded)) key b) as Hk2.
  destruct (put sc artifact_kind _ _ _ _ s1) as [[ref|x] s2] eqn:E2; simpl in Ho2, Hk2;
    (split; [intros key b [Hb| [-> ->]]%Ho2; [by apply Hown1|by right; right]|]); [|done].
  apply put_Ok in E2 as [-> Hst2]. intros a' ref [= <- <-].
  split_and!; [done|done| |].
  - destruct Hst as (b & Hb & ?). exists b. split; [by apply Hk2|done].
  - exists encoded. split_and!; [done|done|]. exact Hst2.
Qed.

(** What an extraction returns is stored and valid: the source bytes and the serialised
    artifact are in the store under the references it returns, with their digests and sizes, and
    the artifact satisfies all checks of its model. *)
Theorem extraction_stored data sc doc filename declared l created at_ expected structure r (s : T) a ref s' :
  0 ≤ x_source_bytes l →
  run_on ask (extract datetime_json data sc doc filename declared l created at_ expected structure r) s = (Ok (a, ref), s') →
  model_valid a = true ∧ stored s' (doc_source (document a)) ∧
  ref_sha256 (doc_source (document a)) = sha256_hex data ∧ ref_byte_size (doc_source (document a)) = len data ∧
  stored s' ref ∧ ∃ encoded, serialize datetime_json a = Ok encoded ∧ ref_sha256 ref = sha256_hex encoded ∧
                             ref_object_id ref = extraction_id a.
Proof.
  intros Hl Hr. pose proof (extract_run data sc doc filename declared l created at_ expected structure r s) as Hx.
  rewrite Hr in Hx. destruct (analyse _ _ _ _ _ _ _ _ _ _) as [e|x] eqn:Ea; [|by destruct Hx].
  destruct Hx as [_ Hx]. destruct (Hx a ref eq_refl) as (Eq & Hv & Hs & encoded & He & -> & Href).
  apply analyse_Ok in Ea as (ps & [_ Ed _ _ _ _ _ _ _ _]); [|done]. clear Hx Hr.
  split_and!; [done|done| | |done|eauto]; rewrite Eq; simpl; by rewrite Ed.
Qed.

(** C18: Plain text is extracted without loss: the blocks of the artifact's only unit, in reading
    order, are the decoded source, and their UTF-8 encoding is the source bytes, byte for byte. *)
Theorem extraction_lossless data sc doc filename declared l created at_ expected structure r (s : T) a ref s' :
  0 ≤ x_source_bytes l →
  run_on ask (extract datetime_json data sc doc filename declared l created at_ expected structure r) s = (Ok (a, ref), s') →
  detected_mime (document a) = text_plain →
  ∃ u, units a = [u] ∧ concat (source_text <$> blocks u) = unit_text u ∧ utf8_encode (unit_text u) = Some data.
Proof.
  intros Hl Hr Hm. pose proof (extract_run data sc doc filename declared l created at_ expected structure r s) as Hx.
  rewrite Hr in Hx. destruct (analyse _ _ _ _ _ _ _ _ _ _) as [e|x] eqn:Ea; [|by destruct Hx].
  destruct Hx as [_ Hx]. destruct (Hx a ref eq_refl) as (-> & _). clear Hx Hr. simpl in Hm.
  apply analyse_Ok in Ea as (ps & [_ _ _ _ A5 _ _ _ A9 _]); [|done].
  rewrite Hm in A5, A9. rewrite bool_decide_eq_true_2 in A5, A9 by done.
  destruct A5 as (p & -> & _ & Hd). apply Forall2_cons_inv_l in A9 as (u & us & Hu & Hus & Eu).
  apply Forall2_nil_inv_l in Hus as ->. exists u. apply unit_Ok in Hu as (_ & _ & Ht & Hc & _).
  rewrite Ht. split_and!; [by rewrite <-Eu|done|by apply utf8_decode_encode].
Qed.

(** A failed extraction never publishes anything under a foreign key, and publishes nothing at
    all when its input is rejected: either the store is unchanged and the error is the rejection,
    or everything new is this document's source or its artifact. *)
Theorem extraction_failure_contained data sc doc filename declared l created at_ expected structure r (s : T) x s' :
  run_on ask (extract datetime_json data sc doc filename declared l created at_ expected structure r) s = (Err x, s') →
  (analyse data sc doc filename declared l at_ expected structure r = Err x ∧ s' = s) ∨
  ∃ e, analyse data sc doc filename declared l at_ expected structure r = Ok e ∧ own_objects sc e s s'.
Proof.
  intros Hr. pose proof (extract_run data sc doc filename declared l created at_ expected structure r s) as Hx.
  rewrite Hr in Hx. destruct (analyse _ _ _ _ _ _ _ _ _ _) as [e|y]; [right; exists e; naive_solver|].
  destruct Hx as [[= ->] ->]. by left.
Qed.

End Run.

End Theorems.

(** ** A two-line text *)

#[local] Existing Instance sample_runtime.

Definition sample_limits : ExtractionSettings := {|
  x_source_bytes := 100; x_pages := 10; x_characters := 100; x_blocks := 10; x_artifact_bytes := 100000 |}.

Definition no_runner : ParserRunner := {|
  runner_version := cps "none"; runner_parse := λ _ _, Err OtherExn |}.

Definition no_ledger : ledger_view := {| view_job := λ _ _, Err OtherExn; view_steps := λ _ _, Err OtherExn |}.

(** Two lines; the second has a two-byte character. *)
Definition sample_data : text := cps "ab" ++ [10; 195; 169; 33]%N.

Notation extract_sample filename := (extract dumps_int sample_data sample_scope "doc-1" (cps filename) (cps "text/plain")
  sample_limits 0 0 None false no_runner).

Notation analyse_sample := (analyse sample_data sample_scope "doc-1" (cps "a.TXT") (cps "text/plain") sample_limits 0 None
  false no_runner).

Example wrong_extension : (run_on no_ledger (extract_sample "a.pdf") sample_store).1 = Err (DocErr "unsupported_format").
Proof. vm_compute. reflexivity. Qed.

Definition sample_analysis : extraction := Eval vm_compute in
  match analyse_sample with Ok e => e | Err _ =>
    {| e_data := []; e_detected := application_pdf; e_parser := []; e_version := EmptyString;
       e_extraction := EmptyString; e_units := [] |} end.

Lemma extraction_assembles_witness :
  analyse_sample = Ok sample_analysis ∧
  model_valid (assemble sample_analysis (make_ref sample_scope source_kind (e_version sample_analysis) sample_data)
    sample_scope "doc-1" (cps "a.TXT") (cps "text/plain") sample_limits 0 0 false) = true.
Proof.
  assert (analyse_sample = Ok sample_analysis) as Ha by (vm_compute; reflexivity). split; [exact Ha|].
  apply (extraction_assembles sample_data sample_scope "doc-1" (cps "a.TXT") (cps "text/plain") sample_limits 0 0 None
           false no_runner sample_analysis Ha).
  - reflexivity.
  - vm_compute. reflexivity.
  - apply (bool_decide_unpack _). vm_compute. exact I.
  - apply (bool_decide_unpack _). vm_compute. exact I.
Defined.

Definition extraction_run : result exn (ExtractionArtifact * ObjectRef) * local_store :=
  Eval vm_compute in run_on no_ledger (extract_sample "a.TXT") sample_store.

Definition extracted_artifact : ExtractionArtifact :=
  match extraction_run.1 with Ok (a, _) => a | Err _ => assemble sample_analysis sample_ref sample_scope "doc-1" [] []
    sample_limits 0 0 false end.
Definition extracted_ref : ObjectRef := match extraction_run.1 with Ok (_, r) => r | Err _ => sample_ref end.

Lemma extraction_ran :
  run_on no_ledger (extract_sample "a.TXT") sample_store = (Ok (extracted_artifact, extracted_ref), extraction_run.2).
Proof. vm_compute. reflexivity. Qed.

Lemma extraction_stored_witness :
  model_valid extracted_artifact = true ∧ stored extraction_run.2 (doc_source (document extracted_artifact)) ∧
  ref_sha256 (doc_source (document extracted_artifact)) = sha256_hex sample_data ∧
  ref_byte_size (doc_source (document extracted_artifact)) = len sample_data ∧
  stored extraction_run.2 extracted_ref ∧
  ∃ encoded, serialize dumps_int extracted_artifact = Ok encoded ∧ ref_sha256 extracted_ref = sha256_hex encoded ∧
             ref_object_id extracted_ref = extraction_id extracted_artifact.
Proof.
  apply (extraction_stored no_ledger dumps_int sample_data sample_scope "doc-1" (cps "a.TXT") (cps "text/plain") sample_limits 0 0
           None false no_runner sample_store extracted_artifact extracted_ref extraction_run.2);
    [apply Z.leb_le; reflexivity|exact extraction_ran].
Defined.

Lemma extraction_lossless_witness :
  ∃ u, units extracted_artifact = [u] ∧ concat (source_text <$> blocks u) = unit_text u ∧
       utf8_encode (unit_text u) = Some sample_data.
Proof.
  apply (extraction_lossless no_ledger dumps_int sample_data sample_scope "doc-1" (cps "a.TXT") (cps "text/plain") sample_limits 0 0
           None false no_runner sample_store extracted_artifact extracted_ref extraction_run.2);
    [apply Z.leb_le; reflexivity|exact extraction_ran|vm_compute; reflexivity].
Defined.

Lemma extraction_failure_contained_witness :
  let rejected := analyse sample_data sample_scope "doc-1" (cps "a.pdf") (cps "text/plain") sample_limits 0 None false no_runner in
  (rejected = Err (DocErr "unsupported_format") ∧ sample_store = sample_store) ∨
  ∃ e, rejected = Ok e ∧ own_objects sample_scope e sample_store sample_store.
Proof.
  apply (extraction_failure_contained no_ledger dumps_int sample_data sample_scope "doc-1" (cps "a.pdf") (cps "text/plain")
           sample_limits 0 0 None false no_runner sample_store (DocErr "unsupported_format") sample_store).
  vm_compute. reflexivity.
Defined.
