(* ===== verification/DigestModels.v ===== *)
(** * Contracts and sizes of the digestion plane

    [documents/digestion/models.py], [encode] of [documents/digestion/codec.py],
    [documents/digestion/sizing.py], and the request sizes of
    [documents/digestion/planning.py].  A model's [model_dump(mode='json')] is its
    [..._json]; constructing or encoding a model runs its validator. *)

From stdpp Require Import base tactics list strings option.
From Stdlib Require Import ZArith NArith QArith Lia.
From S2P Require Import Prelude Json Contracts JobModels.

Local Open Scope Z_scope.

(** [DigestionError] with category, diagnostic and reason (empty when absent); any other
    exception; [Stuck] marks a loop that ran out of fuel (theorem [planning_terminates]:
    it never happens). *)
Inductive digest_exn :=
| DigestionErr (category diagnostic reason : string)
| OtherError
| Stuck.
#[export] Instance digest_exn_eq_dec : EqDecision digest_exn.
Proof. solve_decision. Defined.

Definition DigestionError (category diagnostic reason : string) : digest_exn :=
  DigestionErr (if bool_decide (category ∈ ["structural_planning_failed"; "analysis_failed";
     "reducer_failed"; "evidence_validation_failed"; "coverage_failed"; "inference_contract_error";
     "synthesis_limit_exceeded"; "incompatible_checkpoint"]) then category
     else "inference_contract_error") diagnostic reason.

Definition plain_error (category : string) : digest_exn := DigestionError category EmptyString EmptyString.
Definition limit_exceeded : digest_exn := plain_error "synthesis_limit_exceeded".
Definition planning_failed : digest_exn := plain_error "structural_planning_failed".

(** [if not ok: raise e] *)
Definition check (ok : bool) (e : digest_exn) : result digest_exn unit := if ok then Ok tt else Err e.

(** ** Profile *)

Record ManagedInputBudget := { input_bytes : Z; base_bytes : Z; child_bytes : Z }.

Record DigestionProfile := {
  dp_version : string; structure_profile : string; chunking_profile : string;
  inference_profile : string; inference_config : digest; reducer_profile : string;
  prompt_profile : string; dp_context_tokens : Z; reserved_output_tokens : Z;
  template_tokens : Z; chunk_characters : Z; max_fan_in : Z; max_result_characters : Z;
  max_response_bytes : option Z; managed_input_budget : option ManagedInputBudget;
  max_claims : Z; max_claim_characters : Z; max_annotations : Z; max_source_units : Z;
  max_chunks : Z; max_steps : Z; dp_max_artifact_bytes : Z; max_depth : Z;
  allow_partial : bool; minimum_coverage : Q; max_failed_units : Z }.

Definition between (a x b : Z) : bool := (a <=? x) && (x <=? b).

(** Field constraints and the validator [budget]. *)
Definition valid_digestion_profile (p : DigestionProfile) : bool :=
  forallb is_token [dp_version p; structure_profile p; chunking_profile p; inference_profile p;
                    reducer_profile p; prompt_profile p]
  && is_digest (inference_config p)
  && (0 <? dp_context_tokens p) && (0 <? reserved_output_tokens p) && (0 <=? template_tokens p)
  && (0 <? chunk_characters p) && between 2 (max_fan_in p) 64 && (0 <? max_result_characters p)
  && match max_response_bytes p with Some n => between 1 n 4000000 | None => true end
  && match managed_input_budget p with
     | Some b => (0 <? input_bytes b) && (0 <? base_bytes b) && (1024 <? child_bytes b)
     | None => true
     end
  && between 1 (max_claims p) 64 && between 64 (max_claim_characters p) 4096
  && between 0 (max_annotations p) 64 && between 1 (max_source_units p) 100000
  && between 1 (max_chunks p) 900 && between 3 (max_steps p) 1000
  && (0 <? dp_max_artifact_bytes p) && between 1 (max_depth p) 64
  && Qle_bool 0 (minimum_coverage p) && Qle_bool (minimum_coverage p) 1
  && (0 <=? max_failed_units p)
  && (reserved_output_tokens p + template_tokens p <? dp_context_tokens p).

Definition budget_json (b : ManagedInputBudget) : json :=
  JObj [("input_bytes", JInt (input_bytes b)); ("base_bytes", JInt (base_bytes b));
        ("child_bytes", JInt (child_bytes b))].

(** The serializer drops the two optional fields when unset. *)
Definition digestion_profile_json (p : DigestionProfile) : json :=
  JObj ([("version", jstr (dp_version p)); ("structure_profile", jstr (structure_profile p));
         ("chunking_profile", jstr (chunking_profile p));
         ("inference_profile", jstr (inference_profile p));
         ("inference_config", jstr (inference_config p));
         ("reducer_profile", jstr (reducer_profile p)); ("prompt_profile", jstr (prompt_profile p));
         ("output_schema", jstr "stage-result/1"); ("role", jstr "summarization");
         ("capability", jstr "structured-output"); ("context_tokens", JInt (dp_context_tokens p));
         ("reserved_output_tokens", JInt (reserved_output_tokens p));
         ("template_tokens", JInt (template_tokens p));
         ("chunk_characters", JInt (chunk_characters p)); ("max_fan_in", JInt (max_fan_in p));
         ("max_result_characters", JInt (max_result_characters p))]
        ++ match max_response_bytes p with Some n => [("max_response_bytes", JInt n)] | None => [] end
        ++ match managed_input_budget p with
           | Some b => [("managed_input_budget", budget_json b)] | None => [] end
        ++ [("max_claims", JInt (max_claims p));
            ("max_claim_characters", JInt (max_claim_characters p));
            ("max_annotations", JInt (max_annotations p));
            ("max_source_units", JInt (max_source_units p)); ("max_chunks", JInt (max_chunks p));
            ("max_steps", JInt (max_steps p));
            ("max_artifact_bytes", JInt (dp_max_artifact_bytes p)); ("max_depth", JInt (max_depth p));
            ("overlap_characters", JInt 0); ("estimator", jstr "json-characters/1");
            ("allow_partial", JBool (allow_partial p));
            ("minimum_coverage", JFloat (minimum_coverage p));
            ("max_failed_units", JInt (max_failed_units p))]).

Definition response_byte_limit (p : DigestionProfile) : Z :=
  default (max_result_characters p) (max_response_bytes p).

(** ** Structure, chunks and plans *)

Inductive UnitKind := k_document | k_section | k_subsection | k_fallback.
#[export] Instance UnitKind_eq_dec : EqDecision UnitKind.
Proof. solve_decision. Defined.

Inductive UnitSource := canonical_heading | canonical_page | canonical_text | from_root.
Inductive Confidence := source_declared | fallback_confidence.

Record StructuralUnit := {
  structural_unit_id : uuid; su_parent_id : option uuid; su_child_ids : list uuid; su_order : Z;
  su_kind : UnitKind; heading : option text; su_path : list text; su_source : UnitSource;
  confidence : Confidence; su_block_ids : list uuid; su_source_ids : list uuid;
  physical_pages : list Z }.

Record StructuralMap := {
  sm_extraction : ObjectRef; sm_version_id : uuid; sm_profile : digest; sm_units : list StructuralUnit }.

Definition unit_is (k : uuid) (u : StructuralUnit) : bool := bool_decide (structural_unit_id u = k).

(** One visit of [StructuralMap.tree]: the children are attached to [key] in order. *)
Definition attached (us : list StructuralUnit) (key : uuid) (children : list uuid) : bool :=
  forallb (λ ic : Z * uuid, match find_row (unit_is ic.2) us with
                  | Some c => bool_decide (su_parent_id c = Some key) && (su_order c =? ic.1)
                  | None => false
                  end) (zip (Z.of_nat <$> seq 0 (length children)) children).

(** The depth-first walk: every iteration visits a new unit or raises, so the number of
    units bounds the iterations.  Returns the visited keys. *)
Fixpoint walk (fuel : nat) (us : list StructuralUnit) (visited stack : list uuid)
    : result digest_exn (list uuid) :=
  match stack with
  | [] => Ok visited
  | key :: rest =>
      match fuel with
      | O => Err Stuck
      | S fuel' =>
          if bool_decide (key ∈ visited) then Err OtherError
          else match find_row (unit_is key) us with
               | None => Err OtherError
               | Some u =>
                   if attached us key (su_child_ids u)
                   then walk fuel' us (key :: visited) (rev (su_child_ids u) ++ rest)
                   else Err OtherError
               end
      end
  end.

(** [StructuralMap.tree]: [stack.pop()] takes the last child first. *)
Definition structural_tree (m : StructuralMap) : result digest_exn unit :=
  match sm_units m with
  | [] => Err OtherError
  | root :: _ =>
      _ ← check (bool_decide (NoDup (structural_unit_id <$> sm_units m))) OtherError;
      _ ← check (bool_decide (su_parent_id root = None) && bool_decide (su_kind root = k_document))
            OtherError;
      visited ← walk (S (length (sm_units m))) (sm_units m) [] [structural_unit_id root];
      check (len visited =? len (sm_units m)) OtherError
  end.

Inductive Limitation := visual_uninterpreted | hard_split | no_limitation.

Record SourcePiece := {
  evidence : EvidenceRef; pc_text : text; pc_kind : BlockKind; pc_cells : option (list (list text));
  limitation : Limitation }.

Record AnalysisChunk := {
  chunk_id : uuid; ac_version_id : uuid; ac_parent : uuid; ac_path : list text; sequence : Z;
  ac_profile : digest; pieces : list SourcePiece; ac_tokens : Z }.

Record ReductionNode := {
  rn_stage_id : uuid; rn_parent : uuid; rn_children : list uuid; level : Z; rn_path : list text;
  rn_tokens : Z }.

Record Plan := {
  pl_profile : DigestionProfile; structure : StructuralMap; chunks : list AnalysisChunk;
  reducers : list ReductionNode; root_id : uuid; eligible : list uuid; skipped : list uuid;
  unsupported_ids : list uuid }.

(** ** Results and requests *)

Inductive ClaimKind := fact | unknown | unsupported_claim | commentary | structural.
#[export] Instance ClaimKind_eq_dec : EqDecision ClaimKind.
Proof. solve_decision. Defined.
Inductive Stance := affirmed | denied | stance_unknown.
#[export] Instance Stance_eq_dec : EqDecision Stance.
Proof. solve_decision. Defined.
Inductive ClaimStatus := supported | status_unknown | status_unsupported.
#[export] Instance ClaimStatus_eq_dec : EqDecision ClaimStatus.
Proof. solve_decision. Defined.
Inductive StageKind := analysis | reduction.
#[export] Instance StageKind_eq_dec : EqDecision StageKind.
Proof. solve_decision. Defined.
Inductive StageOutcome := analyzed_outcome | unavailable.
#[export] Instance StageOutcome_eq_dec : EqDecision StageOutcome.
Proof. solve_decision. Defined.

Record ClaimLink := { link_stage : uuid; link_claim : uuid }.
#[export] Instance ClaimLink_eq_dec : EqDecision ClaimLink.
Proof. solve_decision. Defined.

Record Qualification := { q_text : text; q_evidence : list uuid }.
#[export] Instance Qualification_eq_dec : EqDecision Qualification.
Proof. solve_decision. Defined.

Record Claim := {
  claim_id : uuid; originating_stage : uuid; c_text : text; c_kind : ClaimKind;
  evidence_ids : list uuid; contradicting : list uuid; qualifications : list Qualification;
  c_lineage : list ClaimLink; c_subject : option string; stance : Stance; c_status : ClaimStatus }.
#[export] Instance Claim_eq_dec : EqDecision Claim.
Proof. solve_decision. Defined.

Record StageResult := {
  sr_stage_id : uuid; sr_kind : StageKind; sr_outcome : StageOutcome; claims : list Claim;
  open_questions : list text; limitations : list text }.
#[export] Instance StageResult_eq_dec : EqDecision StageResult.
Proof. solve_decision. Defined.

Record Proposition_ := { prop_subject : string; prop_affirmed : bool; prop_denied : bool }.

Record InheritedSummary := {
  analyzed_pieces : Z; failed_pieces : Z; n_qualifications : Z; n_contradictions : Z;
  n_open_questions : Z }.

Record ChildInput := { ci_artifact : ObjectRef; ci_result : StageResult; ci_inherited : InheritedSummary }.

Record StageRequest := {
  rq_stage_id : uuid; rq_stage : StageKind; rq_profile : DigestionProfile;
  rq_path : list text; source_data : list SourcePiece; children : list ChildInput }.

Record Checkpoint := {
  plan_hash : digest; cp_parents : list ObjectRef; cp_result : StageResult;
  cp_inherited : InheritedSummary; propositions : list Proposition_ }.

(** ** JSON forms *)

Definition evidence_json (e : EvidenceRef) : json :=
  JObj [("scope", scope_json (ev_scope e)); ("document_version_id", jstr (ev_version_id e));
        ("extraction_id", jstr (ev_extraction_id e)); ("source_id", jstr (ev_source_id e));
        ("block_id", jstr (ev_block_id e)); ("span", span_json (ev_span e))].

Definition kind_text (k : BlockKind) : string :=
  match k with
  | b_text => "text" | b_paragraph => "paragraph" | b_heading => "heading" | b_table => "table"
  | b_figure => "figure" | b_caption => "caption" | b_unknown => "unknown"
  end.

Definition limitation_text (l : Limitation) : string :=
  match l with
  | visual_uninterpreted => "visual_uninterpreted" | hard_split => "hard_split"
  | no_limitation => "none"
  end.

Definition cells_json (c : option (list (list text))) : json :=
  jopt (λ rows, JArr ((λ row, JArr (JStr <$> row)) <$> rows)) c.

Definition piece_json (p : SourcePiece) : json :=
  JObj [("evidence", evidence_json (evidence p)); ("text", JStr (pc_text p));
        ("kind", jstr (kind_text (pc_kind p))); ("cells", cells_json (pc_cells p));
        ("limitation", jstr (limitation_text (limitation p)))].

Definition ids_json (l : list uuid) : json := JArr (jstr <$> l).

Definition stage_text (k : StageKind) : string :=
  match k with analysis => "analysis" | reduction => "reduction" end.

Definition claim_json (c : Claim) : json :=
  JObj [("claim_id", jstr (claim_id c)); ("originating_stage", jstr (originating_stage c));
        ("text", JStr (c_text c));
        ("kind", jstr (match c_kind c with
                       | fact => "fact" | unknown => "unknown" | unsupported_claim => "unsupported"
                       | commentary => "commentary" | structural => "structural" end));
        ("evidence_ids", ids_json (evidence_ids c));
        ("contradicting_evidence_ids", ids_json (contradicting c));
        ("qualifications", JArr ((λ q, JObj [("text", JStr (q_text q));
                                             ("evidence_ids", ids_json (q_evidence q))])
                                 <$> qualifications c));
        ("lineage", JArr ((λ l, JObj [("stage_id", jstr (link_stage l));
                                      ("claim_id", jstr (link_claim l))]) <$> c_lineage c));
        ("subject", jopt jstr (c_subject c));
        ("stance", jstr (match stance c with
                         | affirmed => "affirmed" | denied => "denied" | stance_unknown => "unknown" end));
        ("status", jstr (match c_status c with
                         | supported => "supported" | status_unknown => "unknown"
                         | status_unsupported => "unsupported" end))].

Definition result_json (r : StageResult) : json :=
  JObj [("schema_version", jstr "stage-result/1"); ("stage_id", jstr (sr_stage_id r));
        ("kind", jstr (stage_text (sr_kind r)));
        ("outcome", jstr (match sr_outcome r with
                          | analyzed_outcome => "analyzed" | unavailable => "unavailable" end));
        ("claims", JArr (claim_json <$> claims r));
        ("open_questions", JArr (JStr <$> open_questions r));
        ("limitations", JArr (JStr <$> limitations r))].

Definition inherited_json (i : InheritedSummary) : json :=
  JObj [("analyzed_pieces", JInt (analyzed_pieces i)); ("failed_pieces", JInt (failed_pieces i));
        ("qualifications", JInt (n_qualifications i)); ("contradictions", JInt (n_contradictions i));
        ("open_questions", JInt (n_open_questions i));
        ("source_set", jstr "application-owned-source-lineage")].

Definition child_json (c : ChildInput) : json :=
  JObj [("artifact", ref_json (ci_artifact c)); ("result", result_json (ci_result c));
        ("inherited", inherited_json (ci_inherited c));
        ("material_kind", jstr "generated-intermediate")].

Definition request_json (r : StageRequest) : json :=
  JObj [("schema_version", jstr "stage-request/1"); ("stage_id", jstr (rq_stage_id r));
        ("stage", jstr (stage_text (rq_stage r)));
        ("profile", digestion_profile_json (rq_profile r));
        ("structural_path", JArr (JStr <$> rq_path r));
        ("source_data", JArr (piece_json <$> source_data r));
        ("children", JArr (child_json <$> children r));
        ("instructions",
         jstr "Analyze data; inherit all child claims and their qualifications/conflicts.");
        ("tools", JArr [])].

Section Sizes.
Context `{Runtime}.

Definition digestion_digest (p : DigestionProfile) : digest := fingerprint (digestion_profile_json p).

(** [SourcePiece.evidence_id]. *)
Definition evidence_id (p : SourcePiece) : uuid :=
  stable_id [cps "source-evidence/1"; cps (fingerprint (evidence_json (evidence p)))].

(** [StageRequest.material_boundary]. *)
Definition material_boundary (r : StageRequest) : result digest_exn unit :=
  match rq_stage r with
  | analysis =>
      _ ← check (negb (bool_decide (length (source_data r) = 0%nat))
                 && bool_decide (length (children r) = 0%nat)) OtherError;
      check (bool_decide (NoDup (evidence_id <$> source_data r))) OtherError
  | reduction =>
      _ ← check (bool_decide (length (source_data r) = 0%nat)
                 && (len (children r) <=? max_fan_in (rq_profile r))) OtherError;
      check (bool_decide (NoDup ((λ c, sr_stage_id (ci_result c)) <$> children r))) OtherError
  end.

(** [encode(request)]: revalidation, then canonical ASCII. *)
Definition encode_request (r : StageRequest) : result digest_exn text :=
  match material_boundary r with
  | Ok _ => Ok (canonical (request_json r))
  | Err _ => Err (DigestionError "inference_contract_error" "canonical_serialization"
                    "canonical_revalidation_failed")
  end.

Definition request_size (r : StageRequest) : result digest_exn Z :=
  t ← encode_request r; Ok (len t + template_tokens (rq_profile r)).

(** ** [documents/digestion/sizing.py] *)

Definition CHILD_WRAPPER_BYTES : Z := 1024.

Definition escaped_size (v : json) : Z := len (canonical (JStr (canonical v))) - 2.

(** [sorted(set)] of strings. *)
Definition sorted_set (l : list string) : list string := order_by String.leb (remove_dups l).

Definition result_contribution (r : StageResult) : Z :=
  let links := JArr ((λ c, JObj [("stage_id", jstr (sr_stage_id r)); ("claim_id", jstr (claim_id c))])
                     <$> claims r) in
  let evidence := JArr (jstr <$> sorted_set (claims r ≫= λ c, evidence_ids c ++ contradicting c)) in
  escaped_size (result_json r) + escaped_size links + escaped_size evidence + 8.

Definition child_contribution (c : ChildInput) : Z :=
  result_contribution (ci_result c) + escaped_size (child_json c)
  - escaped_size (result_json (ci_result c)).

Definition reduction_size (b : ManagedInputBudget) (path : list text) (n : Z) : Z :=
  base_bytes b + escaped_size (JArr (JStr <$> path)) - escaped_size (JArr []) + n * child_bytes b.

Definition analysis_size (b : ManagedInputBudget) (r : StageRequest) : Z :=
  let pieces := JArr ((λ p, JObj [("evidence_id", jstr (evidence_id p)); ("text", JStr (pc_text p));
                                  ("kind", jstr (kind_text (pc_kind p)));
                                  ("cells", cells_json (pc_cells p));
                                  ("limitation", jstr (limitation_text (limitation p)))])
                      <$> source_data r) in
  let evidence := JArr (jstr <$> sorted_set (evidence_id <$> source_data r)) in
  reduction_size b (rq_path r) 0 + escaped_size pieces + escaped_size evidence.

(** [check_request] of [documents/digestion/planning.py]. *)
Definition check_request (r : StageRequest) : result digest_exn Z :=
  size ← request_size r;
  size ← match managed_input_budget (rq_profile r) with
         | None => Ok size
         | Some b =>
             let rendered := match rq_stage r with
                             | analysis => analysis_size b r
                             | reduction => reduction_size b (rq_path r) (len (children r))
                             end in
             _ ← check (negb (existsb (λ c, child_bytes b <? child_contribution c) (children r)
                              || (input_bytes b <? rendered))) limit_exceeded;
             Ok (Z.max size rendered)
         end;
  _ ← check (size + reserved_output_tokens (rq_profile r) <=? dp_context_tokens (rq_profile r))
        limit_exceeded;
  Ok size.

End Sizes.
