(* ===== verification/DigestPlanning.v ===== *)
(** * Deterministic planning of a digestion

    [documents/digestion/planning.py]: the structural map of an artifact, its analysis
    chunks in canonical order, and the tree of reductions.  The loops of the source are
    recursions with fuel; [Stuck] is returned when it runs out. *)

From stdpp Require Import base tactics list strings option.
From Stdlib Require Import ZArith NArith QArith Lia.
From S2P Require Import Prelude Json Contracts JobModels DigestModels.

Local Open Scope Z_scope.

Section Planning.
Context `{Runtime}.

(** ** [_structure] *)

Definition all_blocks (a : ExtractionArtifact) : list Block := units a ≫= blocks.

(** [{b.block_id: b for u in artifact.units for b in u.blocks}], headings only. *)
Definition heading_of (a : ExtractionArtifact) (k : uuid) : option Block :=
  match dict_get k ((λ b, (block_id b, b)) <$> all_blocks a) with
  | Some b => if bool_decide (blk_kind b = b_heading) then Some b else None
  | None => None
  end.

(** The [while parent is not None] loop: [max_depth] bounds [seen]. *)
Fixpoint check_ancestors (fuel : nat) (a : ExtractionArtifact) (depth : Z) (seen : list uuid)
    (parent : option uuid) : result digest_exn unit :=
  match parent with
  | None => Ok tt
  | Some p =>
      match fuel with
      | O => Err Stuck
      | S fuel' =>
          if bool_decide (p ∈ seen) || (depth <? len seen) then Err planning_failed
          else match heading_of a p with
               | None => Err OtherError
               | Some b => check_ancestors fuel' a depth (p :: seen) (parent_id b)
               end
      end
  end.

Definition check_heading (a : ExtractionArtifact) (p : DigestionProfile) (b : Block)
    : result digest_exn unit :=
  match heading_of a (block_id b) with
  | None => Ok tt
  | Some h =>
      _ ← check (match parent_id h with
                 | Some k => match heading_of a k with Some _ => true | None => false end
                 | None => true end) planning_failed;
      check_ancestors (S (S (Z.to_nat (max_depth p)))) a (max_depth p) [block_id b] (parent_id h)
  end.

Definition structure_root (a : ExtractionArtifact) (p : DigestionProfile) : uuid :=
  stable_id [cps (extraction_id a); cps (digestion_digest p); cps "structure-root"].

Definition heading_node (root : uuid) (k : uuid) : uuid := stable_id [cps root; cps k].
Definition fallback_node (root : uuid) : uuid := stable_id [cps root; cps "fallback"].

Definition has_node (k : uuid) (us : list StructuralUnit) : bool := existsb (unit_is k) us.

Definition on_node (k : uuid) (f : StructuralUnit → StructuralUnit) : list StructuralUnit → list StructuralUnit :=
  update_where (unit_is k) f.

Definition set_children (u : StructuralUnit) (l : list uuid) : StructuralUnit := {|
  structural_unit_id := structural_unit_id u; su_parent_id := su_parent_id u; su_child_ids := l;
  su_order := su_order u; su_kind := su_kind u; heading := heading u; su_path := su_path u;
  su_source := su_source u; confidence := confidence u; su_block_ids := su_block_ids u;
  su_source_ids := su_source_ids u; physical_pages := physical_pages u |}.

Definition set_content (u : StructuralUnit) (bs ss : list uuid) (ps : list Z) : StructuralUnit := {|
  structural_unit_id := structural_unit_id u; su_parent_id := su_parent_id u;
  su_child_ids := su_child_ids u; su_order := su_order u; su_kind := su_kind u;
  heading := heading u; su_path := su_path u; su_source := su_source u;
  confidence := confidence u; su_block_ids := bs; su_source_ids := ss; physical_pages := ps |}.

(** [add(key, parent, **kw)]; the parent is in [nodes] at every call. *)
Definition add_node (key parent : uuid) (kind : UnitKind) (src : UnitSource) (conf : Confidence)
    (head : option text) (path : list text) (us : list StructuralUnit) : list StructuralUnit :=
  if has_node key us then us
  else
    let order := match find_row (unit_is parent) us with
                 | Some p => len (su_child_ids p) | None => 0 end in
    on_node parent (λ p, set_children p (su_child_ids p ++ [key])) us
    ++ [{| structural_unit_id := key; su_parent_id := Some parent; su_child_ids := [];
           su_order := order; su_kind := kind; heading := head; su_path := path;
           su_source := src; confidence := conf; su_block_ids := []; su_source_ids := [];
           physical_pages := [] |}].

Definition last_error {A} (l : list A) : option A := head (rev l).

Definition last_is {A} `{EqDecision A} (l : list A) (x : A) : bool := bool_decide (last_error l = Some x).

(** [node['block_ids'].append(...)] and the source ids and pages of the block. *)
Definition add_block (u : TextUnit) (b : Block) (n : StructuralUnit) : StructuralUnit :=
  set_content n (su_block_ids n ++ [block_id b])
    (if last_is (su_source_ids n) (unit_source_id u) then su_source_ids n
     else su_source_ids n ++ [unit_source_id u])
    (match physical_page u with
     | Some p => if (p =? 0) || last_is (physical_pages n) p then physical_pages n
                 else physical_pages n ++ [p]
     | None => physical_pages n
     end).

Definition page_source (a : ExtractionArtifact) : UnitSource :=
  match page_count (document a) with
  | Some n => if n =? 0 then canonical_text else canonical_page
  | None => canonical_text
  end.

Definition add_fallback (a : ExtractionArtifact) (root : uuid) (us : list StructuralUnit)
    : list StructuralUnit :=
  add_node (fallback_node root) root k_fallback (page_source a) fallback_confidence None [] us.

(** The body of the loop over the blocks of the artifact. *)
Definition place_block (a : ExtractionArtifact) (root : uuid) (u : TextUnit) (b : Block)
    (st : list StructuralUnit * option uuid) : result digest_exn (list StructuralUnit * option uuid) :=
  let '(us, current) := st in
  '(us, current) ←
    match heading_of a (block_id b) with
    | Some h =>
        let parent := match parent_id h with Some k => heading_node root k | None => root end in
        match find_row (unit_is parent) us with
        | None => Err planning_failed
        | Some pn =>
            let key := heading_node root (block_id b) in
            Ok (add_node key parent (match parent_id h with Some _ => k_subsection | None => k_section end)
                  canonical_heading source_declared (Some (source_text b))
                  (su_path pn ++ [source_text b]) us, Some key)
        end
    | None =>
        match parent_id b ≫= (λ k, (λ _, k) <$> heading_of a k) with
        | Some k =>
            if has_node (heading_node root k) us then Ok (us, Some (heading_node root k))
            else Err planning_failed
        | None => Ok (us, current)
        end
    end;
  let '(us, key) := match current with
                    | Some k => (us, k)
                    | None => (add_fallback a root us, fallback_node root)
                    end in
  Ok (on_node key (add_block u b) us, Some key).

Fixpoint place_blocks (a : ExtractionArtifact) (root : uuid) (l : list (TextUnit * Block))
    (st : list StructuralUnit * option uuid) : result digest_exn (list StructuralUnit * option uuid) :=
  match l with
  | [] => Ok st
  | (u, b) :: l' => st' ← place_block a root u b st; place_blocks a root l' st'
  end.

Definition root_unit (root : uuid) : StructuralUnit := {|
  structural_unit_id := root; su_parent_id := None; su_child_ids := []; su_order := 0;
  su_kind := k_document; heading := None; su_path := []; su_source := from_root;
  confidence := source_declared; su_block_ids := []; su_source_ids := []; physical_pages := [] |}.

Definition inventory (a : ExtractionArtifact) : list (TextUnit * Block) :=
  units a ≫= λ u, (λ b, (u, b)) <$> blocks u.

Definition build_structure (a : ExtractionArtifact) (ref : ObjectRef) (p : DigestionProfile)
    : result digest_exn StructuralMap :=
  let root := structure_root a p in
  _ ← foldr (λ b acc, _ ← check_heading a p b; acc) (Ok tt) (all_blocks a);
  '(us, _) ← place_blocks a root (inventory a) ([root_unit root], None);
  let us := match find_row (unit_is root) us with
            | Some r => match su_child_ids r with [] => add_fallback a root us | _ => us end
            | None => us
            end in
  let us := on_node root (λ r, set_content r (su_block_ids r) (unit_source_id <$> units a)
                                 (omap physical_page (units a))) us in
  let m := {| sm_extraction := ref; sm_version_id := document_version_id (document a);
              sm_profile := digestion_digest p; sm_units := us |} in
  _ ← structural_tree m;
  Ok m.

(** ** Eligibility *)

Definition unit_ids (u : TextUnit) : list uuid :=
  match blocks u with [] => [unit_source_id u] | bs => block_id <$> bs end.

Definition is_unsupported (u : TextUnit) : bool :=
  bool_decide (status u = u_failed) || negb (bool_decide (outcome (decision u) = native_accepted)).
Definition is_skipped (u : TextUnit) : bool := negb (is_unsupported u) && negb (has_text (unit_text u)).
Definition is_eligible (u : TextUnit) : bool := negb (is_unsupported u) && has_text (unit_text u).

(** ** Chunks *)

Definition make_chunk (a : ExtractionArtifact) (p : DigestionProfile) (node : StructuralUnit)
    (seq_no : Z) (ps : list SourcePiece) : result digest_exn AnalysisChunk :=
  let key := stable_id (cps (extraction_id a) :: cps (digestion_digest p) :: cps "chunk"
                        :: cps (structural_unit_id node) :: ((λ x, cps (evidence_id x)) <$> ps)) in
  let request := {| rq_stage_id := key; rq_stage := analysis; rq_profile := p;
                    rq_path := su_path node; source_data := ps; children := [] |} in
  _ ← material_boundary request;
  estimate ← check_request request;
  Ok {| chunk_id := key; ac_version_id := document_version_id (document a);
        ac_parent := structural_unit_id node; ac_path := su_path node; sequence := seq_no;
        ac_profile := digestion_digest p; pieces := ps; ac_tokens := estimate |}.

Definition append_chunk (a : ExtractionArtifact) (p : DigestionProfile) (node : StructuralUnit)
    (ps : list SourcePiece) (cs : list AnalysisChunk) : result digest_exn (list AnalysisChunk) :=
  match ps with
  | [] => Ok cs
  | _ =>
      _ ← check (len cs <? max_chunks p) limit_exceeded;
      c ← make_chunk a p node (len cs) ps;
      Ok (cs ++ [c])
  end.

(** [unit.text.rfind('\n', start, end)]: position of the last newline of the slice. *)
Definition rfind_newline (t : text) (start stop : Z) : Z :=
  let s := slice t start stop in
  match find_row (λ ic : Z * N, (ic.2 =? newline)%N)
          (rev (zip (Z.of_nat <$> seq 0 (length s)) s)) with
  | Some ic => start + ic.1
  | None => -1
  end.

Definition parsed_cells (b : Block) : option (list (list text)) :=
  match visual b with
  | Some v => match v_state v with v_parsed => v_cells v | _ => None end
  | None => None
  end.

Definition is_visual (k : BlockKind) : bool := bool_decide (k ∈ [b_table; b_figure]).

(** The piece of [block] from [start] to [end]. *)
Definition make_piece (a : ExtractionArtifact) (u : TextUnit) (b : Block) (start stop : Z)
    (line : option Z) : result digest_exn SourcePiece :=
  let t := slice (unit_text u) start stop in
  let span := {| sp_start := start; sp_end := stop; line_start := line;
                 line_end := (λ l, l + count_char newline (rstrip_newlines t)) <$> line |} in
  let whole := (start =? sp_start (blk_span b)) && (stop =? sp_end (blk_span b)) in
  _ ← check (valid_span span) OtherError;
  _ ← check (bool_decide (parsed_cells b = None) || whole) limit_exceeded;
  Ok {| evidence := {| ev_scope := doc_scope (document a);
                       ev_version_id := document_version_id (document a);
                       ev_extraction_id := extraction_id a; ev_source_id := unit_source_id u;
                       ev_block_id := block_id b; ev_span := span |};
        pc_text := t; pc_kind := blk_kind b; pc_cells := parsed_cells b;
        limitation := if is_visual (blk_kind b) && bool_decide (parsed_cells b = None)
                      then visual_uninterpreted
                      else if negb whole then hard_split else no_limitation |}.

(** [while True]: halve the piece until its request fits. *)
Fixpoint shrink (fuel : nat) (a : ExtractionArtifact) (p : DigestionProfile) (node : StructuralUnit)
    (u : TextUnit) (b : Block) (n start stop : Z) (line : option Z)
    : result digest_exn (SourcePiece * Z) :=
  match fuel with
  | O => Err Stuck
  | S fuel' =>
      piece ← make_piece a u b start stop line;
      match make_chunk a p node n [piece] with
      | Ok _ => Ok (piece, stop)
      | Err (DigestionErr c d r) =>
          if negb (bool_decide (parsed_cells b = None)) || (stop - start <=? 1)
          then Err (DigestionErr c d r)
          else shrink fuel' a p node u b n start (start + (stop - start) / 2) line
      | Err e => Err e
      end
  end.

(** Chunks so far, pieces waiting for their chunk, and their characters. *)
Record cut := { done_ : list AnalysisChunk; pending_ : list SourcePiece; characters : Z }.

(** Whether the piece joins the pending ones. *)
Definition joins (a : ExtractionArtifact) (p : DigestionProfile) (node : StructuralUnit) (st : cut)
    (piece : SourcePiece) : result digest_exn bool :=
  if characters st + len (pc_text piece) <=? chunk_characters p then
    match pending_ st with
    | [] => Ok true
    | ps => match make_chunk a p node (len (done_ st)) (ps ++ [piece]) with
            | Ok _ => Ok true
            | Err (DigestionErr _ _ _) => Ok false
            | Err e => Err e
            end
    end
  else Ok false.

Definition add_piece (a : ExtractionArtifact) (p : DigestionProfile) (node : StructuralUnit) (st : cut)
    (piece : SourcePiece) : result digest_exn cut :=
  fits ← joins a p node st piece;
  if fits : bool then
    Ok {| done_ := done_ st; pending_ := pending_ st ++ [piece];
          characters := characters st + len (pc_text piece) |}
  else
    cs ← append_chunk a p node (pending_ st) (done_ st);
    (* without pending pieces the counter is still zero *)
    Ok {| done_ := cs; pending_ := [piece]; characters := len (pc_text piece) |}.

(** First cut of a piece: at most [chunk_characters], preferably after a newline. *)
Definition first_stop (p : DigestionProfile) (u : TextUnit) (b : Block) (start : Z) : Z :=
  let stop := Z.min (sp_end (blk_span b)) (start + chunk_characters p) in
  if stop <? sp_end (blk_span b) then
    let boundary := rfind_newline (unit_text u) start stop in
    if start <=? boundary then boundary + 1 else stop
  else stop.

(** [while start < block.span.end or first]. *)
Fixpoint cut_block (fuel : nat) (a : ExtractionArtifact) (p : DigestionProfile)
    (node : StructuralUnit) (u : TextUnit) (b : Block) (start : Z) (line : option Z) (st : cut)
    : result digest_exn cut :=
  match fuel with
  | O => Err Stuck
  | S fuel' =>
      let stop := first_stop p u b start in
      '(piece, stop) ← shrink (S (Z.to_nat (stop - start))) a p node u b (len (done_ st)) start stop line;
      st ← add_piece a p node st piece;
      if stop <? sp_end (blk_span b)
      then cut_block fuel' a p node u b stop
             ((λ l, l + count_char newline (pc_text piece)) <$> line) st
      else Ok st
  end.

(** The eligible blocks of a group. *)
Fixpoint cut_group (a : ExtractionArtifact) (p : DigestionProfile) (node : StructuralUnit)
    (bs : list (TextUnit * Block)) (st : cut) : result digest_exn cut :=
  match bs with
  | [] => Ok st
  | (u, b) :: bs' =>
      st ← cut_block (S (Z.to_nat (sp_end (blk_span b) - sp_start (blk_span b)))) a p node u b
             (sp_start (blk_span b)) (line_start (blk_span b)) st;
      cut_group a p node bs' st
  end.

(** [{key: node for node in structure.units for key in node.block_ids}]. *)
Definition owner_of (m : StructuralMap) (k : uuid) : option StructuralUnit :=
  dict_get k (sm_units m ≫= λ n, (λ b, (b, n)) <$> su_block_ids n).

(** Maximal runs of blocks with the same owner, in canonical order. *)
Fixpoint group_blocks (m : StructuralMap) (l : list (TextUnit * Block))
    (groups : list (StructuralUnit * list (TextUnit * Block)))
    : result digest_exn (list (StructuralUnit * list (TextUnit * Block))) :=
  match l with
  | [] => Ok groups
  | (u, b) :: l' =>
      match owner_of m (block_id b) with
      | None => Err OtherError
      | Some o =>
          group_blocks m l'
            match last_error groups with
            | Some (n, bs) =>
                if bool_decide (structural_unit_id n = structural_unit_id o)
                then take (length groups - 1) groups ++ [(n, bs ++ [(u, b)])]
                else groups ++ [(o, [(u, b)])]
            | None => groups ++ [(o, [(u, b)])]
            end
      end
  end.

(** The blocks of a group that are analysed; [by_block] finds the last block with the identifier. *)
Definition eligible_blocks (a : ExtractionArtifact) (eligible_ids : list uuid)
    (bs : list (TextUnit * Block)) : list (TextUnit * Block) :=
  omap (λ ub : TextUnit * Block,
    if bool_decide (block_id ub.2 ∈ eligible_ids)
    then dict_get (block_id ub.2) ((λ x, (block_id x.2, x)) <$> inventory a)
    else None) bs.

Fixpoint cut_groups (a : ExtractionArtifact) (p : DigestionProfile)
    (eligible_ids : list uuid) (gs : list (StructuralUnit * list (TextUnit * Block)))
    (cs : list AnalysisChunk) : result digest_exn (list AnalysisChunk) :=
  match gs with
  | [] => Ok cs
  | (n, bs) :: gs' =>
      st ← cut_group a p n (eligible_blocks a eligible_ids bs)
             {| done_ := cs; pending_ := []; characters := 0 |};
      cs ← append_chunk a p n (pending_ st) (done_ st);
      cut_groups a p eligible_ids gs' cs
  end.

(** ** Reductions *)

(** The reduction state: reducers so far, and the dicts [levels] and [positions]. *)
Record tree := {
  t_reducers : list ReductionNode; t_levels : list (uuid * Z); t_positions : list (uuid * Z) }.

Fixpoint lookups (d : list (uuid * Z)) (ks : list uuid) : result digest_exn (list Z) :=
  match ks with
  | [] => Ok []
  | k :: ks' =>
      match dict_get k d with
      | None => Err OtherError
      | Some v => l ← lookups d ks'; Ok (v :: l)
      end
  end.

Definition max_list (l : list Z) : Z := foldr Z.max 0 l.
Definition min_list (l : list Z) : Z := match l with [] => 0 | x :: l' => foldr Z.min x l' end.

(** One reducer over a group of children; returns its key. *)
Definition add_reducer (a : ExtractionArtifact) (p : DigestionProfile) (node : StructuralUnit)
    (n_chunks overhead : Z) (child : Z) (group : list uuid) (t : tree)
    : result digest_exn (uuid * tree) :=
  ls ← lookups (t_levels t) group;
  let level := 1 + max_list ls in
  _ ← check (level <=? max_depth p) limit_exceeded;
  let key := stable_id (cps (extraction_id a) :: cps (digestion_digest p) :: cps "reduction"
                        :: cps (structural_unit_id node) :: (cps <$> group)) in
  ps ← lookups (t_positions t) group;
  let t' := {| t_reducers := t_reducers t ++ [{|
                 rn_stage_id := key; rn_parent := structural_unit_id node; rn_children := group;
                 level := level; rn_path := su_path node;
                 rn_tokens := overhead + len group * child |}];
               t_levels := t_levels t ++ [(key, level)];
               t_positions := t_positions t ++ [(key, min_list ps)] |} in
  _ ← check (n_chunks + len (t_reducers t') + 2 <=? max_steps p) limit_exceeded;
  Ok (key, t').

(** [current[offset:offset+capacity] for offset in range(0, len(current), capacity)]. *)
Fixpoint chop {A} (fuel : nat) (capacity : nat) (l : list A) : list (list A) :=
  match fuel, l with
  | S fuel', _ :: _ => take capacity l :: chop fuel' capacity (drop capacity l)
  | _, _ => []
  end.

Fixpoint add_reducers (a : ExtractionArtifact) (p : DigestionProfile) (node : StructuralUnit)
    (n_chunks overhead child : Z) (groups : list (list uuid)) (t : tree)
    : result digest_exn (list uuid * tree) :=
  match groups with
  | [] => Ok ([], t)
  | g :: groups' =>
      '(k, t) ← add_reducer a p node n_chunks overhead child g t;
      '(ks, t) ← add_reducers a p node n_chunks overhead child groups' t;
      Ok (k :: ks, t)
  end.

(** [while True]: reduce level by level to one key. *)
Fixpoint reduce_levels (fuel : nat) (a : ExtractionArtifact) (p : DigestionProfile)
    (node : StructuralUnit) (n_chunks overhead child capacity : Z) (current : list uuid) (t : tree)
    : result digest_exn (uuid * tree) :=
  match fuel with
  | O => Err Stuck
  | S fuel' =>
      '(following, t) ← add_reducers a p node n_chunks overhead child
                          (chop (length current) (Z.to_nat capacity) current) t;
      match following with
      | [k] => Ok (k, t)
      | _ => reduce_levels fuel' a p node n_chunks overhead child capacity following t
      end
  end.

(** The empty reduction request whose size is the base of every estimate. *)
Definition empty_request (root : uuid) (p : DigestionProfile) (path : list text) : StageRequest := {|
  rq_stage_id := root; rq_stage := reduction; rq_profile := p; rq_path := path;
  source_data := []; children := [] |}.

(** Overhead, size per child and capacity of a reducer of the node. *)
Definition reduction_capacity (root : uuid) (p : DigestionProfile) (base : Z) (path : list text)
    : result digest_exn (Z * Z * Z) :=
  t ← encode_request (empty_request root p path);
  let overhead := base + len t + 512 in
  let room := dp_context_tokens p - reserved_output_tokens p - overhead in
  match managed_input_budget p with
  | None =>
      let per_child := max_result_characters p + 1024 in
      Ok (overhead, per_child, Z.min (max_fan_in p) (room / per_child))
  | Some b =>
      let raw := room / child_bytes b in
      let overhead := reduction_size b path 0 in
      Ok (overhead, child_bytes b,
          Z.min (Z.min (max_fan_in p) raw) ((input_bytes b - overhead) / child_bytes b))
  end.

Definition reduce_group (a : ExtractionArtifact) (root : uuid) (p : DigestionProfile) (base : Z)
    (n_chunks : Z) (node : StructuralUnit) (cs : list uuid) (t : tree)
    : result digest_exn (option uuid * tree) :=
  match cs with
  | [] => Ok (None, t)
  | _ =>
      '(overhead, child, capacity) ← reduction_capacity root p base (su_path node);
      let needed := match managed_input_budget p with Some _ => Z.min 2 (len cs) | None => 2 end in
      _ ← check (needed <=? capacity) limit_exceeded;
      '(k, t) ← reduce_levels (S (length cs)) a p node n_chunks overhead child capacity cs t;
      Ok (Some k, t)
  end.

Definition position_of (t : tree) (k : uuid) : Z := default 0 (dict_get k (t_positions t)).

(** [sorted(children, key=positions.__getitem__)]. *)
Definition sort_children (t : tree) (l : list uuid) : list uuid :=
  order_by (λ x y, position_of t x <=? position_of t y) l.

(** [for node in reversed(structure.units)], with the dict [outputs]. *)
Fixpoint reduce_units (a : ExtractionArtifact) (root : uuid) (p : DigestionProfile) (base : Z)
    (cs : list AnalysisChunk) (us : list StructuralUnit) (outputs : list (uuid * option uuid)) (t : tree)
    : result digest_exn (list (uuid * option uuid) * tree) :=
  match us with
  | [] => Ok (outputs, t)
  | node :: us' =>
      let own := chunk_id <$> List.filter (λ c, bool_decide (ac_parent c = structural_unit_id node)) cs in
      let below := omap (λ k, mjoin (dict_get k outputs)) (su_child_ids node) in
      '(o, t) ← reduce_group a root p base (len cs) node (sort_children t (own ++ below)) t;
      reduce_units a root p base cs us' (outputs ++ [(structural_unit_id node, o)]) t
  end.

(** ** [_build] and [build_plan] *)

Definition build (a : ExtractionArtifact) (ref : ObjectRef) (p : DigestionProfile)
    : result digest_exn Plan :=
  _ ← check (len (inventory a) + len (List.filter (λ u, bool_decide (blocks u = [])) (units a))
             <=? max_source_units p) limit_exceeded;
  m ← build_structure a ref p;
  let el := List.filter is_eligible (units a) ≫= unit_ids in
  groups ← group_blocks m (inventory a) [];
  cs ← cut_groups a p el groups [];
  _ ← check (negb (bool_decide (length cs = 0%nat))) (plain_error "coverage_failed");
  let root := structure_root a p in
  base ← request_size (empty_request root p []);
  let t := {| t_reducers := []; t_levels := (λ c, (chunk_id c, 0)) <$> cs;
              t_positions := (λ c, (chunk_id c, sequence c)) <$> cs |} in
  '(outputs, t) ← reduce_units a root p base cs (rev (sm_units m)) [] t;
  match mjoin (dict_get root outputs) with
  | None => Err OtherError
  | Some top =>
      Ok {| pl_profile := p; structure := m; chunks := cs; reducers := t_reducers t; root_id := top;
            eligible := el; skipped := List.filter is_skipped (units a) ≫= unit_ids;
            unsupported_ids := List.filter is_unsupported (units a) ≫= unit_ids |}
  end.

(** [build_plan]: [data] is [serialize(artifact)]; other exceptions become
    [structural_planning_failed]. *)
Definition build_plan (a : ExtractionArtifact) (data : digest * Z) (ref : ObjectRef)
    (p : DigestionProfile) : result digest_exn Plan :=
  let r :=
    _ ← check (model_valid a && valid_digestion_profile p) OtherError;
    _ ← check (bool_decide (ref_scope ref = doc_scope (document a))
               && bool_decide (ref_kind ref = artifact_kind)
               && bool_decide (ref_object_id ref = extraction_id a)
               && bool_decide (ref_sha256 ref = data.1) && (ref_byte_size ref =? data.2))
          (plain_error "evidence_validation_failed");
    build a ref p in
  match r with
  | Err OtherError => Err planning_failed
  | r => r
  end.

End Planning.
