(* ===== verification/DigestPlanFacts.v ===== *)
(** * Planning: pieces, chunks and their source

    The pieces of a plan tile the eligible blocks; the loops terminate. *)

From stdpp Require Import base tactics list sets strings option.
From Stdlib Require Import ZArith NArith QArith Lia.
From S2P Require Import Prelude Json Contracts ContractFacts JobModels DigestModels DigestPlanning.

Local Open Scope Z_scope.

(** ** Results that are never [Stuck] *)

Definition unstuck {A} (r : result digest_exn A) : Prop := r ≠ Err Stuck.

Lemma unstuck_bind {A B} (m : result digest_exn A) (f : A → result digest_exn B) :
  unstuck m → (∀ a, m = Ok a → unstuck (f a)) → unstuck (m ≫= f).
Proof. unfold unstuck, mbind, result_bind. destruct m; [naive_solver|]. intros Hm _ [= ->]. done. Qed.

Lemma unstuck_Ok {A} (a : A) : unstuck (Ok a).
Proof. done. Qed.

Lemma unstuck_check b e : e ≠ Stuck → unstuck (check b e).
Proof. unfold check, unstuck. destruct b; [done|]. by intros He [= ->]. Qed.

Lemma check_Ok b e x : check b e = Ok x ↔ b = true.
Proof. unfold check. destruct b; [|done]. by destruct x. Qed.

#[export] Hint Resolve unstuck_Ok unstuck_check : polymind.

(** Takes a chain of checks apart. *)
Ltac planned H :=
  repeat lazymatch type of H with
  | (check _ _ ≫= _) = Ok _ =>
      let H1 := fresh "Hc" in
      apply result_bind_Ok in H as ([] & H1 & H); apply check_Ok in H1
  end.

Section Facts.
Context `{Runtime}.

Lemma material_boundary_unstuck r : unstuck (material_boundary r).
Proof.
  unfold material_boundary. destruct (rq_stage r); apply unstuck_bind; auto with polymind;
    intros; by apply unstuck_check.
Qed.

Lemma check_request_unstuck r : unstuck (check_request r).
Proof.
  unfold check_request, request_size, encode_request. apply unstuck_bind.
  - apply unstuck_bind; [by destruct (material_boundary r)|]. intros. apply unstuck_Ok.
  - intros size _. apply unstuck_bind.
    + destruct (managed_input_budget _); [|done]. cbv zeta. apply unstuck_bind; [by apply unstuck_check|].
      intros. apply unstuck_Ok.
    + intros size' _. apply unstuck_bind; [by apply unstuck_check|]. intros. apply unstuck_Ok.
Qed.

Lemma make_chunk_unstuck a p node n ps : unstuck (make_chunk a p node n ps).
Proof.
  unfold make_chunk. apply unstuck_bind; [apply material_boundary_unstuck|]. intros _ _.
  apply unstuck_bind; [apply check_request_unstuck|]. intros. apply unstuck_Ok.
Qed.

Lemma append_chunk_unstuck a p node ps cs : unstuck (append_chunk a p node ps cs).
Proof.
  unfold append_chunk. destruct ps; [done|]. apply unstuck_bind; [by apply unstuck_check|].
  intros _ _. apply unstuck_bind; [apply make_chunk_unstuck|]. intros. apply unstuck_Ok.
Qed.

Lemma make_piece_unstuck a u b start stop line : unstuck (make_piece a u b start stop line).
Proof.
  unfold make_piece. apply unstuck_bind; [by apply unstuck_check|]. intros _ _.
  apply unstuck_bind; [by apply unstuck_check|]. intros. apply unstuck_Ok.
Qed.

Lemma add_piece_unstuck a p node st piece : unstuck (add_piece a p node st piece).
Proof.
  unfold add_piece. apply unstuck_bind.
  - unfold joins. destruct (_ <=? _); [|done]. destruct (pending_ st); [done|].
    pose proof (make_chunk_unstuck a p node (len (done_ st)) ((s :: l) ++ [piece])) as Hm.
    destruct (make_chunk _ _ _ _ _) as [|[]]; done.
  - intros [] _; [apply unstuck_Ok|]. apply unstuck_bind; [apply append_chunk_unstuck|].
    intros. apply unstuck_Ok.
Qed.

(** ** Cuts *)

Lemma last_error_snoc {A} (l : list A) x : last_error (l ++ [x]) = Some x.
Proof. unfold last_error. by rewrite rev_app_distr. Qed.

Lemma last_error_Some {A} (l : list A) x : last_error l = Some x → ∃ k, l = k ++ [x].
Proof.
  unfold last_error. intros E. destruct (rev l) as [|y k] eqn:El; [done|]. injection E as ->.
  exists (rev k). rewrite <-(rev_involutive l), El. done.
Qed.

Lemma rfind_newline_bounds t start stop :
  0 ≤ start → start ≤ rfind_newline t start stop → rfind_newline t start stop < stop.
Proof.
  intros Hs. unfold rfind_newline. destruct (find_row _ _) as [[i c]|] eqn:E; [|lia]. intros _. simpl.
  apply find_row_Some in E as [Hin _]. rewrite list_elem_of_In, <-in_rev, <-list_elem_of_In in Hin.
  apply elem_of_zip_l in Hin. apply list_elem_of_fmap in Hin as (k & -> & Hk%elem_of_seq).
  unfold slice in Hk. rewrite length_take, length_drop in Hk. lia.
Qed.

Lemma first_stop_bounds p u b start :
  0 < chunk_characters p → 0 ≤ start ≤ sp_end (blk_span b) →
  start ≤ first_stop p u b start ≤ sp_end (blk_span b) ∧
  first_stop p u b start - start ≤ chunk_characters p ∧
  (start < sp_end (blk_span b) → start < first_stop p u b start).
Proof.
  intros Hp Hs. unfold first_stop.
  set (stop := Z.min (sp_end (blk_span b)) (start + chunk_characters p)).
  destruct (Z.ltb_spec stop (sp_end (blk_span b))); [|lia].
  destruct (Z.leb_spec start (rfind_newline (unit_text u) start stop)) as [Hb|]; [|lia].
  pose proof (rfind_newline_bounds _ _ _ (proj1 Hs) Hb). lia.
Qed.

Lemma shrink_spec fuel a p node u b n start stop line :
  start ≤ stop → (Z.to_nat (stop - start) < fuel)%nat →
  unstuck (shrink fuel a p node u b n start stop line) ∧
  ∀ piece stop', shrink fuel a p node u b n start stop line = Ok (piece, stop') →
    start ≤ stop' ≤ stop ∧ (start < stop → start < stop') ∧
    make_piece a u b start stop' line = Ok piece ∧ ∃ c, make_chunk a p node n [piece] = Ok c.
Proof.
  revert stop. induction fuel as [|fuel IH]; intros stop Hle Hf; [lia|]. cbn [shrink].
  pose proof (make_piece_unstuck a u b start stop line) as Hp.
  destruct (make_piece a u b start stop line) as [piece|e] eqn:Ep;
    [|split; [intros [= ->]; by apply Hp|done]].
  cbn [mbind result_bind]. pose proof (make_chunk_unstuck a p node n [piece]) as Hm.
  destruct (make_chunk a p node n [piece]) as [c|[ct d r| |]] eqn:Ec; [|..|done|done].
  - split; [done|]. intros piece' stop' [= <- <-]. split_and!; try done; try lia. eauto.
  - destruct (Z.leb_spec (stop - start) 1) as [|Hgt]; [by rewrite orb_true_r|].
    destruct (negb _); simpl; [done|].
    pose proof (Z.div_le_upper_bound (stop - start) 2 (stop - start - 1)).
    pose proof (Z.div_le_lower_bound (stop - start) 2 1).
    destruct (IH (start + (stop - start) / 2)) as [Hst Hsp]; [lia|lia|]. split; [done|].
    intros piece' stop' E. destruct (Hsp _ _ E) as (? & ? & ? & ?). split_and!; try done; lia.
Qed.

(** The pieces of a block, from an offset and a line number to its end. *)
Inductive tiles (a : ExtractionArtifact) (u : TextUnit) (b : Block)
    : Z → option Z → list SourcePiece → Prop :=
| tiles_last start line piece :
    start ≤ sp_end (blk_span b) → make_piece a u b start (sp_end (blk_span b)) line = Ok piece →
    tiles a u b start line [piece]
| tiles_cons start stop line piece ps :
    start < stop < sp_end (blk_span b) → make_piece a u b start stop line = Ok piece →
    tiles a u b stop ((λ l, l + count_char newline (pc_text piece)) <$> line) ps →
    tiles a u b start line (piece :: ps).

Definition flat (st : cut) : list SourcePiece := (done_ st ≫= pieces) ++ pending_ st.

(** Chunks are numbered, within the character and token budgets, and hold a piece. *)
Definition chunk_fits (p : DigestionProfile) (c : AnalysisChunk) : Prop :=
  pieces c ≠ [] ∧ sum_by (λ x, len (pc_text x)) (pieces c) ≤ chunk_characters p ∧
  ac_tokens c + reserved_output_tokens p ≤ dp_context_tokens p ∧
  NoDup (evidence_id <$> pieces c).

Definition chunks_fit (p : DigestionProfile) (cs : list AnalysisChunk) : Prop :=
  Forall (chunk_fits p) cs ∧ len cs ≤ Z.max 0 (max_chunks p) ∧
  sequence <$> cs = Z.of_nat <$> seq 0 (length cs).

Definition cut_ok (p : DigestionProfile) (st : cut) : Prop :=
  chunks_fit p (done_ st) ∧ characters st = sum_by (λ x, len (pc_text x)) (pending_ st) ∧
  characters st ≤ chunk_characters p.

Lemma make_chunk_Ok a p node n ps c :
  make_chunk a p node n ps = Ok c →
  pieces c = ps ∧ sequence c = n ∧ ac_tokens c + reserved_output_tokens p ≤ dp_context_tokens p ∧
  NoDup (evidence_id <$> ps) ∧ ac_parent c = structural_unit_id node.
Proof.
  unfold make_chunk. intros E. apply result_bind_Ok in E as ([] & E1 & E).
  apply result_bind_Ok in E as (est & E2 & E). injection E as <-. simpl.
  unfold material_boundary in E1. simpl in E1. planned E1. apply check_Ok, bool_decide_eq_true in E1.
  unfold check_request in E2. apply result_bind_Ok in E2 as (s1 & _ & E2).
  apply result_bind_Ok in E2 as (s2 & _ & E2). planned E2. injection E2 as <-.
  apply Z.leb_le in Hc0. done.
Qed.

Lemma append_chunk_Ok a p node ps cs cs' :
  append_chunk a p node ps cs = Ok cs' → chunks_fit p cs →
  sum_by (λ x, len (pc_text x)) ps ≤ chunk_characters p →
  chunks_fit p cs' ∧ (cs' ≫= pieces) = (cs ≫= pieces) ++ ps.
Proof.
  unfold append_chunk. intros E (Hf & Hl & Hseq) Hsum. destruct ps as [|x ps].
  { injection E as <-. by rewrite app_nil_r. }
  planned E. apply result_bind_Ok in E as (c & Hmk & E). injection E as <-.
  apply make_chunk_Ok in Hmk as (Ep & Es & Et & Hnd & _). apply Z.ltb_lt in Hc. split.
  - split_and!.
    + apply Forall_app. split; [done|]. constructor; [|done]. unfold chunk_fits. by rewrite Ep.
    + unfold len in *. rewrite length_app. simpl. lia.
    + rewrite fmap_app, length_app, seq_app, fmap_app, Hseq. simpl. by rewrite Es.
  - rewrite bind_app. simpl. by rewrite Ep, app_nil_r.
Qed.

Lemma add_piece_Ok a p node st piece st' :
  add_piece a p node st piece = Ok st' → cut_ok p st → len (pc_text piece) ≤ chunk_characters p →
  cut_ok p st' ∧ flat st' = flat st ++ [piece].
Proof.
  unfold add_piece. intros E (Hd & Hch & Hle) Hpc. apply result_bind_Ok in E as (fits & Ej & E).
  destruct fits.
  - injection E as <-. unfold joins in Ej. destruct (Z.leb_spec (characters st + len (pc_text piece)) (chunk_characters p)); [|done].
    split; [|unfold flat; simpl; by rewrite app_assoc]. split_and!; simpl; try done.
    rewrite sum_by_app, Hch. simpl. lia.
  - apply result_bind_Ok in E as (cs & Ea & E). injection E as <-.
    apply append_chunk_Ok in Ea as [Hcs Efl]; [|done|lia].
    split; [|unfold flat; simpl; by rewrite Efl]. split_and!; simpl; try done. lia.
Qed.

Lemma make_piece_text a u b start stop line piece :
  make_piece a u b start stop line = Ok piece →
  pc_text piece = slice (unit_text u) start stop ∧
  evidence piece = {| ev_scope := doc_scope (document a);
                      ev_version_id := document_version_id (document a);
                      ev_extraction_id := extraction_id a; ev_source_id := unit_source_id u;
                      ev_block_id := block_id b;
                      ev_span := {| sp_start := start; sp_end := stop; line_start := line;
                        line_end := (λ l, l + count_char newline (rstrip_newlines (slice (unit_text u) start stop))) <$> line |} |} ∧
  valid_span (ev_span (evidence piece)) = true ∧ pc_kind piece = blk_kind b.
Proof.
  unfold make_piece. intros E. planned E. injection E as <-. done.
Qed.

Lemma slice_len_le (t : text) start stop : 0 ≤ start ≤ stop → len (slice t start stop) ≤ stop - start.
Proof. intros Hs. unfold slice, len. rewrite length_take. lia. Qed.

Lemma cut_block_spec fuel a p node u b start line st :
  0 < chunk_characters p → 0 ≤ start ≤ sp_end (blk_span b) →
  (Z.to_nat (sp_end (blk_span b) - start) < fuel)%nat → cut_ok p st →
  unstuck (cut_block fuel a p node u b start line st) ∧
  ∀ st', cut_block fuel a p node u b start line st = Ok st' →
    cut_ok p st' ∧ ∃ ps, flat st' = flat st ++ ps ∧ tiles a u b start line ps.
Proof.
  intros Hcc. revert start line st. induction fuel as [|fuel IH]; intros start line st Hs Hf Hst; [lia|].
  cbn [cut_block]. destruct (first_stop_bounds p u b start Hcc Hs) as (Hb1 & Hb2 & Hb3).
  destruct (shrink_spec (S (Z.to_nat (first_stop p u b start - start))) a p node u b (len (done_ st))
    start (first_stop p u b start) line) as [Hu Hsh]; [lia|lia|].
  split.
  - apply unstuck_bind; [exact Hu|]. intros [piece stop] E. destruct (Hsh _ _ E) as (Hr & Hlt & Hmp & _).
    apply unstuck_bind; [apply add_piece_unstuck|]. intros st' E'.
    destruct (Z.ltb_spec stop (sp_end (blk_span b))); [|apply unstuck_Ok].
    apply IH; [lia|lia|]. pose proof (make_piece_text _ _ _ _ _ _ _ Hmp) as (Et & _).
    eapply add_piece_Ok; [exact E'|done|]. rewrite Et. pose proof (slice_len_le (unit_text u) start stop). lia.
  - intros st'' E. apply result_bind_Ok in E as ([piece stop] & E1 & E).
    destruct (Hsh _ _ E1) as (Hr & Hlt & Hmp & _). apply result_bind_Ok in E as (st' & E2 & E).
    pose proof (make_piece_text _ _ _ _ _ _ _ Hmp) as (Et & _).
    apply add_piece_Ok in E2 as [Hst' Hfl]; [|done|rewrite Et; pose proof (slice_len_le (unit_text u) start stop); lia].
    destruct (Z.ltb_spec stop (sp_end (blk_span b))) as [Hlast|Hlast].
    + destruct (IH stop ((λ l, l + count_char newline (pc_text piece)) <$> line) st') as [_ IH']; [lia|lia|done|].
      destruct (IH' _ E) as (Hok & ps & Hfl' & Hti). split; [done|]. exists (piece :: ps).
      split; [rewrite Hfl', Hfl, <-app_assoc; done|]. eapply tiles_cons; [|done|done]. lia.
    + injection E as <-. split; [done|]. exists [piece]. split; [done|].
      assert (stop = sp_end (blk_span b)) as -> by lia. constructor; [lia|done].
Qed.

Lemma cut_group_spec a p node bs st :
  0 < chunk_characters p →
  (∀ u b, (u, b) ∈ bs → 0 ≤ sp_start (blk_span b) ≤ sp_end (blk_span b)) → cut_ok p st →
  unstuck (cut_group a p node bs st) ∧
  ∀ st', cut_group a p node bs st = Ok st' →
    cut_ok p st' ∧ ∃ cuts, flat st' = flat st ++ concat cuts ∧
      Forall2 (λ ub ps, tiles a ub.1 ub.2 (sp_start (blk_span ub.2)) (line_start (blk_span ub.2)) ps) bs cuts.
Proof.
  intros Hcc. revert st. induction bs as [|[u b] bs IH]; intros st Hbs Hst.
  { split; [done|]. intros st' [= <-]. split; [done|]. exists []. by rewrite app_nil_r. }
  cbn [cut_group]. pose proof (Hbs u b ltac:(by left)) as Hb.
  destruct (cut_block_spec (S (Z.to_nat (sp_end (blk_span b) - sp_start (blk_span b)))) a p node u b
    (sp_start (blk_span b)) (line_start (blk_span b)) st Hcc) as [Hu Hcut]; [lia|lia|done|].
  assert (∀ u b, (u, b) ∈ bs → 0 ≤ sp_start (blk_span b) ≤ sp_end (blk_span b)) as Hbs' by set_solver.
  split.
  - apply unstuck_bind; [exact Hu|]. intros st1 E. destruct (Hcut _ E) as [Hst1 _]. by apply IH.
  - intros st' E. apply result_bind_Ok in E as (st1 & E1 & E).
    destruct (Hcut _ E1) as (Hst1 & ps & Hfl & Hti). destruct (IH st1 Hbs' Hst1) as [_ IH'].
    destruct (IH' _ E) as (Hst' & cuts & Hfl' & Hall). split; [done|]. exists (ps :: cuts).
    split; [|by constructor]. simpl. by rewrite Hfl', Hfl, app_assoc.
Qed.

Lemma eligible_blocks_elem a el bs ub : ub ∈ eligible_blocks a el bs → ub ∈ inventory a.
Proof.
  unfold eligible_blocks. intros (x & Hx & E)%list_elem_of_omap.
  case_bool_decide; [|done]. apply dict_get_elem in E.
  apply list_elem_of_fmap in E as (y & [= _ ->] & Hy). done.
Qed.

(** The pieces of the new chunks tile the eligible blocks of the groups, in order. *)
Definition block_tiles (a : ExtractionArtifact) (ub : TextUnit * Block) (ps : list SourcePiece) : Prop :=
  tiles a ub.1 ub.2 (sp_start (blk_span ub.2)) (line_start (blk_span ub.2)) ps.

Definition spans_ordered (a : ExtractionArtifact) : Prop :=
  ∀ u b, (u, b) ∈ inventory a → 0 ≤ sp_start (blk_span b) ≤ sp_end (blk_span b).

Lemma cut_groups_spec a p el gs cs :
  0 < chunk_characters p → spans_ordered a → chunks_fit p cs →
  unstuck (cut_groups a p el gs cs) ∧
  ∀ cs', cut_groups a p el gs cs = Ok cs' →
    chunks_fit p cs' ∧ ∃ cuts, (cs' ≫= pieces) = (cs ≫= pieces) ++ concat cuts ∧
      Forall2 (block_tiles a) (gs.*2 ≫= eligible_blocks a el) cuts.
Proof.
  intros Hcc Hsp. revert cs. induction gs as [|[n bs] gs IH]; intros cs Hcs.
  { split; [done|]. intros cs' [= <-]. split; [done|]. exists []. by rewrite app_nil_r. }
  cbn [cut_groups]. set (st := {| done_ := cs; pending_ := []; characters := 0 |}).
  destruct (cut_group_spec a p n (eligible_blocks a el bs) st Hcc) as [Hu Hcut].
  { intros u b Hub%eligible_blocks_elem. exact (Hsp u b Hub). }
  { split_and!; [done|done|simpl; lia]. }
  split.
  - apply unstuck_bind; [exact Hu|]. intros st1 E1. apply unstuck_bind; [apply append_chunk_unstuck|].
    intros cs1 E2. destruct (Hcut _ E1) as ((Hd & Hch & Hle) & _).
    apply IH. eapply append_chunk_Ok; [exact E2|done|lia].
  - intros cs' E. apply result_bind_Ok in E as (st1 & E1 & E).
    apply result_bind_Ok in E as (cs1 & E2 & E).
    destruct (Hcut _ E1) as ((Hd & Hch & Hle) & cuts & Hfl & Hall).
    apply append_chunk_Ok in E2 as [Hcs1 Efl]; [|done|lia].
    destruct (IH cs1 Hcs1) as [_ IH']. destruct (IH' _ E) as (Hcs' & cuts' & Hfl' & Hall').
    split; [done|]. exists (cuts ++ cuts'). split.
    + rewrite Hfl', Efl, concat_app, app_assoc. unfold flat in Hfl. simpl in Hfl. rewrite app_nil_r in Hfl.
      by rewrite Hfl.
    + csimpl. apply Forall2_app; done.
Qed.

(** Groups keep the blocks in order, and their nodes are units of the map. *)
Lemma group_blocks_spec m l gs :
  Forall (λ g, g.1 ∈ sm_units m) gs →
  unstuck (group_blocks m l gs) ∧
  ∀ gs', group_blocks m l gs = Ok gs' →
    gs'.*2 ≫= (λ x, x) = (gs.*2 ≫= (λ x, x)) ++ l ∧ Forall (λ g, g.1 ∈ sm_units m) gs'.
Proof.
  revert gs. induction l as [|[u b] l IH]; intros gs Hgs.
  { split; [done|]. intros gs' [= <-]. by rewrite app_nil_r. }
  cbn [group_blocks]. destruct (owner_of m (block_id b)) as [o|] eqn:Eo; [|done].
  assert (o ∈ sm_units m) as Ho.
  { unfold owner_of in Eo. apply dict_get_elem in Eo. apply list_elem_of_bind in Eo as (n & Hn & Hb).
    apply list_elem_of_fmap in Hn as (k & [= _ ->] & _). done. }
  set (gs1 := match last_error gs with Some _ => _ | None => _ end).
  assert (gs1.*2 ≫= (λ x, x) = (gs.*2 ≫= (λ x, x)) ++ [(u, b)] ∧ Forall (λ g, g.1 ∈ sm_units m) gs1)
    as [E1 H1].
  { unfold gs1. assert (Forall (λ g, g.1 ∈ sm_units m) (gs ++ [(o, [(u, b)])])) as Hnew.
    { apply Forall_app. split; [done|]. by repeat constructor. }
    destruct (last_error gs) as [[n bs]|] eqn:El.
    - apply last_error_Some in El as [k ->]. case_bool_decide.
      + rewrite length_app, Nat.add_sub, take_app_length. apply Forall_app in Hgs as [Hk Hlast].
        apply Forall_inv in Hlast.
        split; [|apply Forall_app; split; [done|by repeat constructor]].
        rewrite !fmap_app, !bind_app. simpl. by rewrite !app_nil_r, app_assoc.
      + split; [|done]. rewrite fmap_app, bind_app. done.
    - split; [|done]. rewrite fmap_app, bind_app. done. }
  destruct (IH gs1 H1) as [Hu Hsp]. split; [done|]. intros gs' E. apply Hsp in E as [E' Hgs'].
  split; [|done]. rewrite E', E1, <-app_assoc. done.
Qed.

Lemma append_chunk_parents a p node ps cs cs' :
  append_chunk a p node ps cs = Ok cs' → ∃ k, cs' = cs ++ k ∧ Forall (λ c, ac_parent c = structural_unit_id node) k.
Proof.
  unfold append_chunk. destruct ps as [|x ps]; [intros [= <-]; exists []; by rewrite app_nil_r|].
  intros E. planned E. apply result_bind_Ok in E as (c & Hmk & E). injection E as <-.
  apply make_chunk_Ok in Hmk as (_ & _ & _ & _ & Hp). exists [c]. split; [done|]. by repeat constructor.
Qed.

Lemma add_piece_parents a p node st piece st' :
  add_piece a p node st piece = Ok st' →
  ∃ k, done_ st' = done_ st ++ k ∧ Forall (λ c, ac_parent c = structural_unit_id node) k.
Proof.
  unfold add_piece. intros E. apply result_bind_Ok in E as ([] & _ & E).
  - injection E as <-. exists []. by rewrite app_nil_r.
  - apply result_bind_Ok in E as (cs & Ea & E). injection E as <-. by apply append_chunk_parents in Ea.
Qed.

Lemma parents_trans (P : AnalysisChunk → Prop) (l1 l2 l3 : list AnalysisChunk) :
  (∃ k, l2 = l1 ++ k ∧ Forall P k) → (∃ k, l3 = l2 ++ k ∧ Forall P k) → ∃ k, l3 = l1 ++ k ∧ Forall P k.
Proof.
  intros (k1 & -> & H1) (k2 & -> & H2). exists (k1 ++ k2). rewrite app_assoc. split; [done|].
  by apply Forall_app.
Qed.

Lemma cut_block_parents fuel a p node u b start line st st' :
  cut_block fuel a p node u b start line st = Ok st' →
  ∃ k, done_ st' = done_ st ++ k ∧ Forall (λ c, ac_parent c = structural_unit_id node) k.
Proof.
  revert start line st. induction fuel as [|fuel IH]; intros start line st E; [done|]. cbn [cut_block] in E.
  apply result_bind_Ok in E as ([piece stop] & _ & E). apply result_bind_Ok in E as (st1 & E1 & E).
  apply add_piece_parents in E1. destruct (_ <? _).
  - apply IH in E. by eapply parents_trans.
  - by injection E as <-.
Qed.

Lemma cut_group_parents a p node bs st st' :
  cut_group a p node bs st = Ok st' →
  ∃ k, done_ st' = done_ st ++ k ∧ Forall (λ c, ac_parent c = structural_unit_id node) k.
Proof.
  revert st. induction bs as [|[u b] bs IH]; intros st E.
  - injection E as <-. exists []. by rewrite app_nil_r.
  - cbn [cut_group] in E. apply result_bind_Ok in E as (st1 & E1 & E). apply cut_block_parents in E1.
    apply IH in E. by eapply parents_trans.
Qed.

Lemma cut_groups_parents a p el gs cs cs' :
  cut_groups a p el gs cs = Ok cs' →
  ∃ k, cs' = cs ++ k ∧ Forall (λ c, ac_parent c ∈ structural_unit_id <$> gs.*1) k.
Proof.
  revert cs. induction gs as [|[n bs] gs IH]; intros cs E.
  { injection E as <-. exists []. by rewrite app_nil_r. }
  cbn [cut_groups] in E. apply result_bind_Ok in E as (st & E1 & E).
  apply result_bind_Ok in E as (cs1 & E2 & E). apply IH in E as (k2 & -> & H2).
  apply append_chunk_parents in E2.
  apply cut_group_parents in E1.
  destruct (parents_trans _ _ _ _ E1 E2) as (k1 & -> & Hk1). exists (k1 ++ k2). split; [by rewrite app_assoc|].
  csimpl. apply Forall_app. split.
  - eapply Forall_impl; [|exact Hk1]. intros c ->. by left.
  - eapply Forall_impl; [|exact H2]. intros c Hc. by right.
Qed.

End Facts.
