(* ===== verification/DigestPlanSource.v ===== *)
(** * The pieces of a plan and the source

    The pieces that tile a block concatenate to its text, and the evidence of each
    resolves to exactly its characters. *)

From stdpp Require Import base tactics list strings option sets.
From Stdlib Require Import ZArith NArith QArith Lia.
From S2P Require Import Prelude Json Contracts ContractFacts JobModels DigestModels DigestPlanning DigestPlanFacts.

Local Open Scope Z_scope.

Lemma count_char_app c (t s : text) : count_char c (t ++ s) = count_char c t + count_char c s.
Proof. unfold count_char. rewrite List.filter_app, length_app. lia. Qed.

Section Source.
Context `{Runtime}.

(** The line number recorded at an offset of the unit's text. *)
Definition line_at (u : TextUnit) (start : Z) : option Z :=
  match physical_page u with
  | None => Some (1 + count_char newline (slice (unit_text u) 0 start))
  | Some _ => None
  end.

Lemma line_at_next u start stop :
  0 ≤ start ≤ stop →
  (λ l, l + count_char newline (slice (unit_text u) start stop)) <$> line_at u start = line_at u stop.
Proof.
  intros Hs. unfold line_at. destruct (physical_page u); [done|]. simpl. f_equal.
  rewrite <-(slice_app (unit_text u) 0 start stop) by lia. rewrite count_char_app. lia.
Qed.

Lemma check_block_lines a u ids i c l b c' l' :
  check_block a u ids i c l b = Ok (c', l') →
  (page_count (document a) = None → line_start (blk_span b) = Some l) ∧
  (is_Some (page_count (document a)) → line_start (blk_span b) = None) ∧
  l' = l + count_char newline (source_text b).
Proof.
  unfold check_block. intros E. apply result_bind_Ok in E as ([] & _ & E).
  apply result_bind_Ok in E as ([] & E1 & E). apply result_bind_Ok in E as ([] & _ & E).
  injection E as _ <-. destruct (page_count (document a)); apply ensure_Ok in E1;
    rewrite ?andb_true_iff, ?bool_decide_eq_true in E1; split_and!; try done; try naive_solver. 
Qed.

Lemma check_blocks_lines a u ids i c l bs c' b :
  (physical_page u = None ↔ page_count (document a) = None) →
  Forall (λ b, valid_span (blk_span b) = true) bs → 0 ≤ c →
  (page_count (document a) = None → l = 1 + count_char newline (slice (unit_text u) 0 c)) →
  check_blocks a u ids i c l bs = Ok c' → b ∈ bs →
  line_start (blk_span b) = line_at u (sp_start (blk_span b)).
Proof.
  intros Hp Hbs. revert i c l. induction Hbs as [|b0 bs Hb0 Hbs IH]; intros i c l Hc Hl E Hin;
    [by apply not_elem_of_nil in Hin|].
  cbn [check_blocks] in E. apply result_bind_Ok in E as ([c1 l1] & E1 & E).
  pose proof (check_block_lines _ _ _ _ _ _ _ _ _ E1) as (Ht & Hpdf & Hl1).
  apply check_block_Ok in E1 as (Hs & Hc1 & _ & Htx & _).
  pose proof (valid_span_ordered _ Hb0) as Hord. apply elem_of_cons in Hin as [->|Hin].
  - unfold line_at. rewrite Hs. destruct (page_count (document a)) as [n|] eqn:En.
    + destruct (physical_page u) eqn:Eu; [by apply Hpdf|]. by discriminate (proj1 Hp eq_refl).
    + rewrite (proj2 Hp eq_refl), (Ht eq_refl). f_equal. by apply Hl.
  - eapply (IH _ c1 l1); [lia| |done|done]. intros Hn. rewrite Hl1, (Hl Hn), Htx.
    rewrite <-(slice_app (unit_text u) 0 c c1) by lia. rewrite count_char_app. lia.
Qed.

Section Artifact.
Variable a : ExtractionArtifact.
Hypothesis Hvalid : model_valid a = true.

Lemma page_iff u : u ∈ units a → physical_page u = None ↔ page_count (document a) = None.
Proof.
  intros Hu. pose proof Hvalid as Hv. unfold model_valid in Hv.
  rewrite !andb_true_iff in Hv. destruct Hv as [[[[_ Hpc] _] _] _].
  destruct (model_valid_graph a Hvalid) as (_ & Hp & _).
  assert (physical_page u ∈ physical_page <$> units a) as Hin by by apply list_elem_of_fmap_2.
  rewrite Hp in Hin. destruct (page_count (document a)) as [n|].
  - apply Z.leb_le in Hpc. destruct (Z.eqb_spec n 0); [lia|].
    unfold page_range in Hin. apply list_elem_of_fmap in Hin as (k & Hk & _). rewrite Hk. done.
  - apply list_elem_of_singleton in Hin. by rewrite Hin.
Qed.

Lemma block_lines u b :
  u ∈ units a → b ∈ blocks u → line_start (blk_span b) = line_at u (sp_start (blk_span b)).
Proof.
  intros Hu Hb. destruct (model_valid_graph a Hvalid) as (Hus & _ & Hsp).
  destruct (check_units_elem _ _ _ _ Hus Hu) as (ids & Hc). apply check_unit_blocks in Hc as [_ Hc].
  eapply check_blocks_lines; [by apply page_iff| |reflexivity| |exact Hc|done].
  - apply Forall_forall. intros b' Hb'. exact (Hsp u b' Hu Hb').
  - intros _. by rewrite slice_nil.
Qed.

Lemma inventory_elem u b : (u, b) ∈ inventory a ↔ u ∈ units a ∧ b ∈ blocks u.
Proof. unfold inventory. rewrite list_elem_of_bind. setoid_rewrite list_elem_of_fmap. naive_solver. Qed.

Lemma model_spans_ordered : spans_ordered a.
Proof.
  intros u b [Hu Hb]%inventory_elem. destruct (model_valid_unit a u Hvalid Hu) as (_ & _ & Hall).
  rewrite Forall_forall in Hall. by destruct (Hall b Hb) as (_ & ? & _).
Qed.

(** ** Tiles *)

Lemma tiles_text u b start line ps :
  tiles a u b start line ps → 0 ≤ start →
  concat (pc_text <$> ps) = slice (unit_text u) start (sp_end (blk_span b)).
Proof.
  induction 1 as [start line piece Hle Hp|start stop line piece ps Hle Hp Ht IH]; intros Hs; csimpl.
  - apply make_piece_text in Hp as (-> & _). by rewrite app_nil_r.
  - apply make_piece_text in Hp as (-> & _). rewrite IH by lia. apply slice_app; lia.
Qed.

Lemma piece_cites u b start stop piece :
  make_piece a u b start stop (line_at u start) = Ok piece →
  u ∈ units a → b ∈ blocks u → sp_start (blk_span b) ≤ start ≤ stop → stop ≤ sp_end (blk_span b) →
  resolve a (doc_scope (document a)) (evidence piece) = Ok (pc_text piece) ∧
  valid_span (ev_span (evidence piece)) = true.
Proof.
  intros Hp Hu Hb Hs He. apply make_piece_text in Hp as (Et & Ee & Hv & _). split; [|done].
  apply (resolve_Ok_iff a _ _ _ Hvalid). rewrite Ee. simpl. split_and!; try done.
  exists u, b. split_and!; try done. unfold cites, line_at. simpl. split_and!; try done; try lia.
  destruct (physical_page u); simpl; try done.
Qed.

Lemma tiles_resolve u b start line ps :
  tiles a u b start line ps → u ∈ units a → b ∈ blocks u → 0 ≤ sp_start (blk_span b) ≤ start →
  line = line_at u start →
  Forall (λ x, ev_block_id (evidence x) = block_id b ∧ pc_kind x = blk_kind b ∧
    valid_span (ev_span (evidence x)) = true ∧
    resolve a (doc_scope (document a)) (evidence x) = Ok (pc_text x)) ps.
Proof.
  intros Ht Hu Hb. induction Ht as [start line piece Hle Hp|start stop line piece ps Hle Hp Ht IH];
    intros Hs ->; constructor.
  1,3: pose proof (make_piece_text _ _ _ _ _ _ _ Hp) as (_ & Ee & _ & Hk);
       destruct (piece_cites _ _ _ _ _ Hp Hu Hb); [lia|lia|];
       split_and!; try done; by rewrite Ee.
  - constructor.
  - apply IH; [lia|]. pose proof (make_piece_text _ _ _ _ _ _ _ Hp) as (-> & _).
    apply line_at_next. lia.
Qed.

(** ** Eligible blocks *)

Lemma inventory_ids : block_id <$> (inventory a).*2 = all_block_ids a.
Proof.
  unfold inventory, all_block_ids. clear Hvalid. induction (units a) as [|u us IH]; [done|]. csimpl.
  rewrite !fmap_app, IH. f_equal. rewrite <-!list_fmap_compose. done.
Qed.

(** The identifiers of the eligible units. *)
Definition eligible_ids : list uuid := List.filter is_eligible (units a) ≫= unit_ids.

Lemma eligible_unit_blocks u : u ∈ units a → is_eligible u = true → blocks u ≠ [].
Proof.
  intros Hu He Hn. destruct (model_valid_unit a u Hvalid Hu) as (_ & Ht & _). rewrite Hn in Ht.
  unfold is_eligible in He. by rewrite <-Ht, andb_false_r in He.
Qed.

Lemma eligible_ids_iff u b :
  NoDup (all_block_ids a) → (u, b) ∈ inventory a →
  bool_decide (block_id b ∈ eligible_ids) = is_eligible u.
Proof.
  intros Hnd Hin. apply Bool.eq_iff_eq_true. rewrite bool_decide_eq_true. unfold eligible_ids.
  rewrite list_elem_of_bind. split.
  - intros (v & Hb & Hv). rewrite list_elem_of_In, filter_In, <-list_elem_of_In in Hv. destruct Hv as [Hv He].
    pose proof (eligible_unit_blocks v Hv He) as Hne. unfold unit_ids in Hb.
    destruct (blocks v) as [|b0 bs] eqn:Eb; [done|]. rewrite <-Eb in Hb.
    apply list_elem_of_fmap in Hb as (b' & Hid & Hb').
    assert ((v, b') ∈ inventory a) as Hin' by (apply inventory_elem; done).
    rewrite <-inventory_ids, <-list_fmap_compose in Hnd.
    assert ((u, b) = (v, b')) as [= -> ->]; [|done].
    eapply (elem_of_unique (λ x : TextUnit * Block, block_id x.2)); [exact Hnd|done|done|done].
  - intros He. exists u. apply inventory_elem in Hin as [Hu Hb]. split.
    + unfold unit_ids. destruct (blocks u) as [|b0 bs] eqn:Eb; [by apply not_elem_of_nil in Hb|].
      rewrite <-Eb in Hb |- *. by apply list_elem_of_fmap_2.
    + rewrite list_elem_of_In, filter_In, <-list_elem_of_In. done.
Qed.

Lemma eligible_blocks_filter bs :
  NoDup (all_block_ids a) → (∀ ub, ub ∈ bs → ub ∈ inventory a) →
  eligible_blocks a eligible_ids bs = List.filter (λ ub, is_eligible ub.1) bs.
Proof.
  intros Hnd. induction bs as [|[u b] bs IH]; intros Hin; [done|].
  pose proof (Hin (u, b) ltac:(by left)) as Hub. unfold eligible_blocks. cbn [omap list_omap List.filter].
  simpl. rewrite (eligible_ids_iff u b Hnd Hub). destruct (is_eligible u) eqn:Ee.
  - assert (dict_get (block_id b) ((λ x, (block_id x.2, x)) <$> inventory a) = Some (u, b)) as ->.
    { apply dict_get_unique.
      - rewrite <-list_fmap_compose. rewrite <-inventory_ids, <-list_fmap_compose in Hnd. exact Hnd.
      - apply list_elem_of_fmap. by exists (u, b). }
    f_equal. apply IH. intros ub Hx. apply Hin. by right.
  - apply IH. intros ub Hx. apply Hin. by right.
Qed.

Lemma eligible_blocks_bind gs :
  (gs ≫= eligible_blocks a eligible_ids) = eligible_blocks a eligible_ids (gs ≫= (λ x, x)).
Proof.
  induction gs as [|g gs IH]; [done|]. csimpl. rewrite IH. unfold eligible_blocks. by rewrite omap_app.
Qed.

End Artifact.
End Source.
