(* ===== verification/DigestPlanTree.v ===== *)
(** * The structural tree and the tree of reductions

    The units form a tree in document order; the reductions of a plan form a tree whose
    leaves are the chunks, each exactly once; the loops of both passes terminate. *)

From stdpp Require Import base tactics list strings option sets.
From Stdlib Require Import ZArith NArith QArith Lia.
From S2P Require Import Prelude Json Contracts ContractFacts JobModels DigestModels DigestPlanning DigestPlanFacts.

Local Open Scope Z_scope.

(** ** The walk of [StructuralMap.tree] *)

Lemma walk_unstuck fuel us visited stack :
  NoDup visited → (∀ k, k ∈ visited → k ∈ structural_unit_id <$> us) →
  (length us < fuel + length visited)%nat → unstuck (walk fuel us visited stack).
Proof.
  revert visited stack. induction fuel as [|fuel IH]; intros visited stack Hnd Hsub Hf;
    destruct stack as [|key rest]; try done.
  - assert (length visited ≤ length (structural_unit_id <$> us))%nat as Hle.
    { apply submseteq_length, NoDup_submseteq; [done|]. exact Hsub. }
    rewrite length_fmap in Hle. simpl in Hf. lia.
  - cbn [walk]. case_bool_decide as Hk; [done|].
    destruct (find_row (unit_is key) us) as [u|] eqn:Eu; [|done].
    destruct (attached us key (su_child_ids u)); [|done].
    apply find_row_Some in Eu as [Hu He]. unfold unit_is in He. apply bool_decide_eq_true in He.
    apply IH; [by constructor| |simpl; lia].
    intros k [->|Hin]%elem_of_cons; [rewrite <-He; by apply list_elem_of_fmap_2|by apply Hsub].
Qed.

Lemma structural_tree_unstuck m : unstuck (structural_tree m).
Proof.
  unfold structural_tree. destruct (sm_units m) as [|root us] eqn:E; [done|].
  apply unstuck_bind; [by apply unstuck_check|]. intros _ _.
  apply unstuck_bind; [by apply unstuck_check|]. intros _ _.
  apply unstuck_bind; [|intros; by apply unstuck_check].
  apply walk_unstuck; [constructor|set_solver|simpl; lia].
Qed.

Lemma check_ancestors_unstuck `{Runtime} fuel a depth seen parent :
  depth + 1 < Z.of_nat fuel + len seen → len seen ≤ depth + 1 ∨ (0 < fuel)%nat →
  unstuck (check_ancestors fuel a depth seen parent).
Proof.
  revert seen parent. induction fuel as [|fuel IH]; intros seen parent Hf Hor.
  - destruct parent; [|done]. simpl in Hf. lia.
  - destruct parent as [k|]; [|done]. cbn [check_ancestors].
    case_bool_decide; [done|]. simpl. destruct (Z.ltb_spec depth (len seen)); [done|].
    destruct (heading_of a k); [|done]. apply IH; unfold len in *; simpl; lia.
Qed.

(** ** The shape of the structural map *)

(** Identifiers with their children, in document order. *)
Definition shape (us : list StructuralUnit) : list (uuid * list uuid) :=
  (λ u, (structural_unit_id u, su_child_ids u)) <$> us.

(** Children come after their parent. *)
Fixpoint later (l : list (uuid * list uuid)) : Prop :=
  match l with
  | [] => True
  | (_, cs) :: l' => (∀ c, c ∈ cs → c ∈ l'.*1) ∧ later l'
  end.

(** Distinct identifiers; every unit but the first is the child of exactly one unit. *)
Record tree_shape (root : uuid) (l : list (uuid * list uuid)) : Prop := {
  ts_nodup : NoDup l.*1;
  ts_root : head l.*1 = Some root;
  ts_later : later l;
  ts_children : l ≫= snd ≡ₚ tail l.*1 }.

Definition grow (parent key : uuid) (x : uuid * list uuid) : uuid * list uuid :=
  if bool_decide (x.1 = parent) then (x.1, x.2 ++ [key]) else x.

Lemma grow_keys parent key l : (grow parent key <$> l).*1 = l.*1.
Proof.
  rewrite <-list_fmap_compose. apply list_fmap_ext. intros i x _. simpl. unfold grow.
  by case_bool_decide.
Qed.

Lemma grow_other parent key l : parent ∉ l.*1 → grow parent key <$> l = l.
Proof.
  induction l as [|x l IH]; csimpl; intros Hn; [done|]. unfold grow at 1.
  rewrite bool_decide_eq_false_2 by set_solver. rewrite IH by set_solver. done.
Qed.

Lemma grow_children parent key l :
  NoDup l.*1 → parent ∈ l.*1 → (grow parent key <$> l) ≫= snd ≡ₚ (l ≫= snd) ++ [key].
Proof.
  induction l as [|x l IH]; csimpl; intros Hnd Hin; [by apply not_elem_of_nil in Hin|].
  apply NoDup_cons in Hnd as [Hx Hnd]. unfold grow at 1. case_bool_decide as E; simpl.
  - subst. rewrite (grow_other x.1 key l) by done. rewrite <-!app_assoc. f_equiv. apply Permutation_app_comm.
  - rewrite IH by set_solver. by rewrite app_assoc.
Qed.

Lemma later_grow parent key l : later l → later ((grow parent key <$> l) ++ [(key, [])]).
Proof.
  induction l as [|[k cs] l IH]; csimpl; [set_solver|]. intros [Hc Hl].
  assert (∃ cs', grow parent key (k, cs) = (k, cs') ∧ ∀ c, c ∈ cs' → c ∈ cs ∨ c = key) as (cs' & -> & Hcs').
  { unfold grow. simpl. case_bool_decide; eexists; (split; [done|]); set_solver. }
  split; [|by apply IH]. intros c [Hin| ->]%Hcs'; rewrite fmap_app, grow_keys; set_solver.
Qed.

Lemma tree_shape_grow root parent key l :
  tree_shape root l → parent ∈ l.*1 → key ∉ l.*1 →
  tree_shape root ((grow parent key <$> l) ++ [(key, [])]).
Proof.
  intros [Hnd Hr Hl Hc] Hp Hk. split.
  - rewrite fmap_app, grow_keys. apply NoDup_app. split_and!; [done|set_solver|apply NoDup_singleton].
  - rewrite fmap_app, grow_keys. by destruct l.*1.
  - by apply later_grow.
  - rewrite bind_app, (grow_children parent key l Hnd Hp), fmap_app, grow_keys. simpl. rewrite app_nil_r, Hc.
    by destruct l.*1.
Qed.

Lemma has_node_iff k us : has_node k us = true ↔ k ∈ (shape us).*1.
Proof.
  unfold has_node, shape. rewrite existsb_exists, <-list_fmap_compose, list_elem_of_fmap.
  setoid_rewrite list_elem_of_In. unfold unit_is. setoid_rewrite bool_decide_eq_true. simpl. naive_solver.
Qed.

Lemma find_node_elem k us u : find_row (unit_is k) us = Some u → k ∈ (shape us).*1.
Proof.
  intros [Hin He]%find_row_Some. apply has_node_iff. unfold has_node.
  apply existsb_exists. exists u. rewrite <-list_elem_of_In. done.
Qed.

Lemma shape_on_node k f us :
  (∀ u, structural_unit_id (f u) = structural_unit_id u ∧ su_child_ids (f u) = su_child_ids u) →
  shape (on_node k f us) = shape us.
Proof.
  intros Hf. unfold shape, on_node. rewrite update_where_fmap; [done|].
  intros u _ _. by destruct (Hf u) as [-> ->].
Qed.

Lemma add_node_shape root key parent kind src conf head path us :
  tree_shape root (shape us) → parent ∈ (shape us).*1 →
  tree_shape root (shape (add_node key parent kind src conf head path us)) ∧
  (∀ k, k ∈ (shape us).*1 ∨ k = key → k ∈ (shape (add_node key parent kind src conf head path us)).*1).
Proof.
  intros Ht Hp. unfold add_node. destruct (has_node key us) eqn:Eh.
  { apply has_node_iff in Eh. split; [done|]. by intros k [?| ->]. }
  assert (key ∉ (shape us).*1) as Hk by (rewrite <-has_node_iff; by rewrite Eh).
  match goal with |- context [shape ?x] => set (us' := x) end.
  assert (shape us' = (grow parent key <$> shape us) ++ [(key, [])]) as ->.
  { unfold us', shape. rewrite fmap_app. csimpl. f_equal. unfold on_node, update_where.
    rewrite <-!list_fmap_compose. apply list_fmap_ext. intros i u _. unfold compose, unit_is, grow.
    cbn -[bool_decide]. by case_bool_decide. }
  split; [by apply tree_shape_grow|]. intros k Hin. rewrite fmap_app, grow_keys.
  apply elem_of_app. destruct Hin as [?| ->]; [by left|right; by left].
Qed.

Section Structure.
Context `{Runtime}.

Lemma root_in root l : tree_shape root l → root ∈ l.*1.
Proof. intros [_ Hr _ _]. destruct l.*1; [done|]. injection Hr as ->. by left. Qed.

Lemma place_block_spec a root u b st :
  tree_shape root (shape st.1) →
  unstuck (place_block a root u b st) ∧
  ∀ st', place_block a root u b st = Ok st' → tree_shape root (shape st'.1).
Proof.
  destruct st as [us current]. simpl. intros Ht.
  assert (∀ us current, tree_shape root (shape us) → tree_shape root (shape
    (let '(us, key) := match current with
                       | Some k => (us, k)
                       | None => (add_fallback a root us, fallback_node root) end in
     (on_node key (add_block u b) us, Some key)).1)) as Hrest.
  { clear. intros us [k|] Ht; cbn [fst]; rewrite shape_on_node; try done.
    apply add_node_shape; [done|by apply root_in]. }
  unfold place_block. split.
  - apply unstuck_bind; [|by intros [? []]].
    destruct (heading_of a (block_id b)) as [h|].
    + by destruct (find_row _ us).
    + destruct (parent_id b ≫= _) as [k|]; [|done]. by destruct (has_node _ us).
  - intros st' E. apply result_bind_Ok in E as ([us1 cur1] & E1 & E).
    assert (tree_shape root (shape us1)) as Ht1.
    { destruct (heading_of a (block_id b)) as [h|].
      - destruct (find_row _ us) as [pn|] eqn:Ep; [|done]. injection E1 as <- <-.
        apply find_node_elem in Ep. by apply add_node_shape.
      - destruct (parent_id b ≫= _) as [k|]; [|by injection E1 as <- _].
        destruct (has_node _ us); [|done]. by injection E1 as <- _. }
    pose proof (Hrest us1 cur1 Ht1) as Hfin. destruct cur1; injection E as <-; exact Hfin.
Qed.

Lemma place_blocks_spec a root l st :
  tree_shape root (shape st.1) →
  unstuck (place_blocks a root l st) ∧
  ∀ st', place_blocks a root l st = Ok st' → tree_shape root (shape st'.1).
Proof.
  revert st. induction l as [|[u b] l IH]; intros st Ht; [split; [done|by intros st' [= <-]]|].
  cbn [place_blocks]. destruct (place_block_spec a root u b st Ht) as [Hu Hp]. split.
  - apply unstuck_bind; [done|]. intros st1 E. by apply IH, Hp.
  - intros st' E. apply result_bind_Ok in E as (st1 & E1 & E). apply (IH st1); [by apply Hp|done].
Qed.

Lemma check_heading_unstuck a p b : unstuck (check_heading a p b).
Proof.
  unfold check_heading. destruct (heading_of a (block_id b)) as [h|]; [|done].
  apply unstuck_bind; [by apply unstuck_check|]. intros _ _. apply check_ancestors_unstuck.
  - unfold len. simpl length. lia.
  - right. lia.
Qed.

Lemma root_shape root : tree_shape root (shape [root_unit root]).
Proof. split; simpl; [apply NoDup_singleton|done|set_solver|done]. Qed.

Lemma build_structure_spec a ref p :
  unstuck (build_structure a ref p) ∧
  ∀ m, build_structure a ref p = Ok m →
    tree_shape (structure_root a p) (shape (sm_units m)) ∧ structural_tree m = Ok tt.
Proof.
  unfold build_structure. set (root := structure_root a p).
  destruct (place_blocks_spec a root (inventory a) ([root_unit root], None) (root_shape root)) as [Hu Hp].
  split.
  - apply unstuck_bind.
    { induction (all_blocks a) as [|b bs IH]; [done|]. simpl. apply unstuck_bind; [apply check_heading_unstuck|].
      by intros. }
    intros _ _. apply unstuck_bind; [done|]. intros [us cur] _. apply unstuck_bind; [apply structural_tree_unstuck|].
    by intros.
  - intros m E. apply result_bind_Ok in E as ([] & _ & E). apply result_bind_Ok in E as ([us cur] & E1 & E).
    apply result_bind_Ok in E as ([] & E2 & E). injection E as <-. split; [|done]. simpl.
    apply Hp in E1. simpl in E1. rewrite shape_on_node by done.
    destruct (find_row (unit_is root) us) as [r|]; [|done]. destruct (su_child_ids r); [|done].
    apply add_node_shape; [done|by apply root_in].
Qed.

End Structure.
