(* ===== verification/DigestPlanReduce.v ===== *)
(** * Reductions

    The reducers of a plan form a tree over its chunks: children before parents, fan-in,
    depth and size within the profile, every chunk below the root exactly once. *)

From stdpp Require Import base tactics list strings option sets.
From Stdlib Require Import ZArith NArith QArith Lia.
From S2P Require Import Prelude Json Contracts ContractFacts JobModels DigestModels DigestPlanning DigestPlanFacts DigestPlanTree.

Local Open Scope Z_scope.

(** ** Chopping *)

Lemma chop_concat {A} fuel cap (l : list A) :
  (0 < cap)%nat → (length l ≤ fuel)%nat → concat (chop fuel cap l) = l.
Proof.
  intros Hc. revert l. induction fuel as [|fuel IH]; intros l Hl.
  - by destruct l; simpl in *; [|lia].
  - destruct l as [|x l]; [done|]. cbn [chop concat]. rewrite IH; [apply take_drop|].
    rewrite length_drop. simpl length in *. lia.
Qed.

Lemma chop_groups {A} fuel cap (l : list A) :
  (0 < cap)%nat → Forall (λ g, g ≠ [] ∧ (length g ≤ cap)%nat) (chop fuel cap l).
Proof.
  intros Hc. revert l. induction fuel as [|fuel IH]; intros l; [constructor|].
  destruct l as [|x l]; [constructor|]. cbn [chop]. constructor; [|apply IH]. split.
  - destruct cap; [lia|done].
  - rewrite length_take. lia.
Qed.

Lemma chop_length {A} fuel cap (l : list A) :
  (0 < cap)%nat → (cap * length (chop fuel cap l) < length l + cap)%nat.
Proof.
  intros Hc. revert l. induction fuel as [|fuel IH]; intros l; [simpl; lia|].
  destruct l as [|x l]; [simpl; lia|]. cbn [chop]. specialize (IH (drop cap (x :: l))).
  rewrite length_drop in IH. destruct (decide (length (x :: l) ≤ cap)%nat) as [Hle|Hgt].
  - rewrite drop_ge by done. destruct fuel; simpl; lia.
  - cbn [length]. simpl length in *. lia.
Qed.

(** At least two groups: the capacity is at least two or there was one element. *)
Lemma groups_decrease c g n :
  (0 < c)%nat → (c * g < n + c)%nat → (1 < g)%nat → (n = 1%nat ∨ 2 ≤ c)%nat → (2 ≤ c ∧ g < n)%nat.
Proof. intros Hc0 Hlt Hg [->|Hc]; split; nia. Qed.

(** ** Covering *)

(** [covers chunks reducers frontier leaves]: expanding the keys of the frontier through
    the reducers, down to chunks, yields the leaves from left to right. *)
Inductive covers (cs : list uuid) (rs : list ReductionNode) : list uuid → list uuid → Prop :=
| covers_nil : covers cs rs [] []
| covers_chunk k ks ls : k ∈ cs → covers cs rs ks ls → covers cs rs (k :: ks) (k :: ls)
| covers_node n ks l ls :
    n ∈ rs → covers cs rs (rn_children n) l → covers cs rs ks ls →
    covers cs rs (rn_stage_id n :: ks) (l ++ ls).

Lemma covers_app cs rs ks1 ks2 l1 l2 :
  covers cs rs ks1 l1 → covers cs rs ks2 l2 → covers cs rs (ks1 ++ ks2) (l1 ++ l2).
Proof.
  intros H1 H2. induction H1; simpl; [done|by constructor|]. rewrite <-app_assoc. by constructor.
Qed.

Lemma covers_app_inv cs rs ks1 ks2 l :
  covers cs rs (ks1 ++ ks2) l → ∃ l1 l2, l = l1 ++ l2 ∧ covers cs rs ks1 l1 ∧ covers cs rs ks2 l2.
Proof.
  revert l. induction ks1 as [|k ks1 IH]; simpl; intros l Hc.
  - exists [], l. split_and!; [done|constructor|done].
  - inversion Hc as [|? ? ls Hk Hks|n ? l0 ls Hn Hn1 Hks]; subst.
    + apply IH in Hks as (l1 & l2 & -> & H1 & H2). exists (k :: l1), l2. split_and!; [done|by constructor|done].
    + apply IH in Hks as (l1 & l2 & -> & H1 & H2). exists (l0 ++ l1), l2.
      split_and!; [by rewrite app_assoc|by constructor|done].
Qed.

Lemma covers_mono cs rs rs' ks l :
  (∀ n, n ∈ rs → n ∈ rs') → covers cs rs ks l → covers cs rs' ks l.
Proof. intros Hsub. induction 1; constructor; auto. Qed.

Lemma covers_leaves cs rs ks : (∀ k, k ∈ ks → k ∈ cs) → covers cs rs ks ks.
Proof. induction ks as [|k ks IH]; intros Hk; constructor; set_solver. Qed.

(** ** The reducers of a tree *)

(** Estimated size of a reducer's request that a stage may have. *)
Definition token_limit (p : DigestionProfile) : Z :=
  match managed_input_budget p with
  | Some b => input_bytes b
  | None => dp_context_tokens p - reserved_output_tokens p
  end.

Definition node_ok (p : DigestionProfile) (n : ReductionNode) : Prop :=
  rn_children n ≠ [] ∧ len (rn_children n) ≤ max_fan_in p ∧ 1 ≤ level n ≤ max_depth p ∧
  rn_tokens n ≤ token_limit p.

(** Every reducer comes after its children. *)
Fixpoint after_children (known : list uuid) (rs : list ReductionNode) : Prop :=
  match rs with
  | [] => True
  | n :: rs' => (∀ k, k ∈ rn_children n → k ∈ known) ∧ after_children (known ++ [rn_stage_id n]) rs'
  end.

Lemma after_children_snoc known rs n :
  after_children known rs → (∀ k, k ∈ rn_children n → k ∈ known ++ (rn_stage_id <$> rs)) →
  after_children known (rs ++ [n]).
Proof.
  revert known. induction rs as [|m rs IH]; csimpl; intros known Hr Hn.
  - rewrite app_nil_r in Hn. done.
  - destruct Hr as [Hm Hr]. split; [done|]. apply IH; [done|]. by rewrite <-app_assoc.
Qed.

Record tree_ok (p : DigestionProfile) (cs : list uuid) (t : tree) : Prop := {
  tk_keys : (t_levels t).*1 = cs ++ (rn_stage_id <$> t_reducers t);
  tk_levels : Forall (λ v, 0 ≤ v) (t_levels t).*2;
  tk_after : after_children cs (t_reducers t);
  tk_nodes : Forall (node_ok p) (t_reducers t);
  tk_steps : t_reducers t ≠ [] → len cs + len (t_reducers t) + 2 ≤ max_steps p }.

Definition extends (t t' : tree) : Prop := ∃ k, t_reducers t' = t_reducers t ++ k.

#[export] Instance extends_preorder : PreOrder extends.
Proof.
  split.
  - intros t. exists []. by rewrite app_nil_r.
  - intros t1 t2 t3 [k1 E1] [k2 E2]. exists (k1 ++ k2). by rewrite E2, E1, app_assoc.
Qed.

Lemma extends_covers cs t t' ks l :
  extends t t' → covers cs (t_reducers t) ks l → covers cs (t_reducers t') ks l.
Proof. intros [k E]. apply covers_mono. rewrite E. set_solver. Qed.

(** The keys are stages of reducers. *)
Definition made (t : tree) (ks : list uuid) : Prop := ∀ k, k ∈ ks → k ∈ rn_stage_id <$> t_reducers t.

Lemma extends_made t t' ks : extends t t' → made t ks → made t' ks.
Proof. intros [l E] Hm k Hk. rewrite E, fmap_app. apply elem_of_app. left. by apply Hm. Qed.

Lemma lookups_unstuck d ks : unstuck (lookups d ks).
Proof.
  induction ks as [|k ks IH]; simpl; [done|]. destruct (dict_get k d); [|done].
  apply unstuck_bind; [done|]. by intros.
Qed.

Lemma lookups_Ok d ks l :
  lookups d ks = Ok l → (∀ k, k ∈ ks → k ∈ d.*1) ∧ (∀ v, v ∈ l → v ∈ d.*2).
Proof.
  revert l. induction ks as [|k ks IH]; simpl; intros l E.
  - injection E as <-. set_solver.
  - destruct (dict_get k d) as [v|] eqn:Ev; [|done]. apply result_bind_Ok in E as (l' & E1 & E).
    injection E as <-. apply IH in E1 as [Hk Hv]. apply dict_get_elem in Ev. split.
    + intros x [->|Hx]%elem_of_cons; [|by apply Hk]. apply list_elem_of_fmap. by exists (k, v).
    + intros x [->|Hx]%elem_of_cons; [|by apply Hv]. apply list_elem_of_fmap. by exists (k, v).
Qed.

Lemma max_list_nonneg l : 0 ≤ max_list l.
Proof. unfold max_list. induction l; simpl; lia. Qed.

Section Reduce.
Context `{Runtime}.
Variables (a : ExtractionArtifact) (p : DigestionProfile) (node : StructuralUnit).
Variables (cs : list uuid) (overhead child capacity : Z).
Hypothesis Hcap : 0 < capacity ≤ max_fan_in p.
Hypothesis Htok : overhead + capacity * child ≤ token_limit p.
Hypothesis Hchild : 0 ≤ child.

Lemma add_reducer_spec group t :
  tree_ok p cs t → group ≠ [] → len group ≤ capacity →
  unstuck (add_reducer a p node (len cs) overhead child group t) ∧
  ∀ k t', add_reducer a p node (len cs) overhead child group t = Ok (k, t') →
    tree_ok p cs t' ∧ extends t t' ∧ made t' [k] ∧
    ∀ l, covers cs (t_reducers t) group l → covers cs (t_reducers t') [k] l.
Proof.
  intros Ht Hne Hlen. unfold add_reducer. split.
  { apply unstuck_bind; [apply lookups_unstuck|]. intros ls _.
    apply unstuck_bind; [by apply unstuck_check|]. intros _ _.
    apply unstuck_bind; [apply lookups_unstuck|]. intros ps _.
    apply unstuck_bind; [by apply unstuck_check|]. intros. apply unstuck_Ok. }
  intros k t' E. apply result_bind_Ok in E as (ls & E1 & E). planned E.
  apply result_bind_Ok in E as (ps & E2 & E). planned E. simpl in Hc0.
  match type of Hc0 with context [?rs ++ [?n]] => set (new := n) in * end.
  apply Z.leb_le in Hc, Hc0. injection E as <- <-.
  destruct (lookups_Ok _ _ _ E1) as [Hk _]. destruct Ht as [Tk Tl Ta Tn Ts]. rewrite Tk in Hk.
  pose proof (max_list_nonneg ls). split_and!.
  - split; simpl.
    + rewrite !fmap_app, Tk. simpl. by rewrite app_assoc.
    + rewrite fmap_app. apply Forall_app. split; [done|]. repeat constructor. simpl. lia.
    + by apply after_children_snoc.
    + apply Forall_app. split; [done|]. repeat constructor; simpl; try done; try lia. nia.
    + done.
  - by exists [new].
  - intros k ->%list_elem_of_singleton. simpl. rewrite fmap_app. apply elem_of_app. right. by left.
  - intros l Hl. simpl. rewrite <-(app_nil_r l). apply (covers_node cs _ new); [set_solver| |constructor].
    eapply covers_mono; [|exact Hl]. set_solver.
Qed.

Lemma add_reducers_spec groups t :
  tree_ok p cs t → Forall (λ g, g ≠ [] ∧ len g ≤ capacity) groups →
  unstuck (add_reducers a p node (len cs) overhead child groups t) ∧
  ∀ ks t', add_reducers a p node (len cs) overhead child groups t = Ok (ks, t') →
    tree_ok p cs t' ∧ extends t t' ∧ length ks = length groups ∧ made t' ks ∧
    ∀ l, covers cs (t_reducers t) (concat groups) l → covers cs (t_reducers t') ks l.
Proof.
  intros Ht Hg. revert t Ht. induction Hg as [|g gs [Hne Hlen] Hg IH]; intros t Ht.
  { split; [done|]. intros ks t' [= <- <-]. split_and!; try done. by intros k ?%not_elem_of_nil. }
  cbn [add_reducers]. destruct (add_reducer_spec g t Ht Hne Hlen) as [Hu Hadd]. split.
  - apply unstuck_bind; [done|]. intros [k t1] E1. destruct (Hadd _ _ E1) as (Ht1 & _).
    apply unstuck_bind; [by apply IH|]. by intros [].
  - intros ks t' E. apply result_bind_Ok in E as ([k t1] & E1 & E).
    destruct (Hadd _ _ E1) as (Ht1 & He1 & Hm1 & Hc1). apply result_bind_Ok in E as ([ks1 t2] & E2 & E).
    injection E as <- <-. destruct (IH t1 Ht1) as [_ IH']. destruct (IH' _ _ E2) as (Ht2 & He2 & Hl & Hm2 & Hc2).
    split_and!; [done|by etrans|by simpl; f_equal| |].
    { intros k' [->|Hk']%elem_of_cons; [|by apply Hm2]. apply (extends_made t1 t2 [k]); [done|done|by left]. } intros l Hl0. simpl in Hl0.
    apply covers_app_inv in Hl0 as (l1 & l2 & -> & H1 & H2).
    apply (covers_app cs _ [k] ks1); [|apply Hc2; by apply (extends_covers _ t)].
    apply (extends_covers _ t1); auto.
Qed.

Lemma reduce_levels_spec fuel current t :
  tree_ok p cs t → current ≠ [] → (length current < fuel)%nat → (length current = 1%nat ∨ 2 ≤ capacity) →
  unstuck (reduce_levels fuel a p node (len cs) overhead child capacity current t) ∧
  ∀ k t', reduce_levels fuel a p node (len cs) overhead child capacity current t = Ok (k, t') →
    tree_ok p cs t' ∧ extends t t' ∧ made t' [k] ∧
    ∀ l, covers cs (t_reducers t) current l → covers cs (t_reducers t') [k] l.
Proof.
  revert current t. induction fuel as [|fuel IH]; intros current t Ht Hne Hf Hor; [lia|].
  cbn [reduce_levels]. set (groups := chop (length current) (Z.to_nat capacity) current).
  assert (Forall (λ g, g ≠ [] ∧ len g ≤ capacity) groups) as Hg.
  { eapply Forall_impl; [apply (chop_groups (length current) (Z.to_nat capacity)); lia|].
    intros g [Hg Hl]. split; [done|]. unfold len. lia. }
  assert (concat groups = current) as Hcat by (apply chop_concat; lia).
  pose proof (chop_length (length current) (Z.to_nat capacity) current ltac:(lia)) as Hlen.
  fold groups in Hlen.
  assert (length groups ≠ 0%nat) as Hn0 by (intros E0%nil_length_inv; rewrite E0 in Hcat; by subst).
  destruct (add_reducers_spec groups t Ht Hg) as [Hu Hadd].
  assert (∀ following : list uuid, length following = length groups → length following ≠ 1%nat →
    following ≠ [] ∧ (length following < fuel)%nat ∧ (length following = 1%nat ∨ 2 ≤ capacity)) as Hnext.
  { intros fw Hfw H1. apply groups_decrease in Hlen as [Hc2 Hlt]; [|lia|lia|lia].
    split_and!; [intros ->; simpl in *| |]; lia. }
  split.
  - apply unstuck_bind; [done|]. intros [following t1] E1. destruct (Hadd _ _ E1) as (Ht1 & _ & Hl & _).
    destruct (decide (length following = 1%nat)) as [H1|H1].
    + destruct following as [|k [|]]; done.
    + destruct (Hnext following Hl H1) as (? & ? & ?).
      destruct following as [|k [|k2 fw]]; [done|done|]. by apply IH.
  - intros k t' E. apply result_bind_Ok in E as ([following t1] & E1 & E).
    destruct (Hadd _ _ E1) as (Ht1 & He1 & Hl & Hm1 & Hc1). rewrite Hcat in Hc1.
    destruct (decide (length following = 1%nat)) as [H1|H1].
    + destruct following as [|k1 [|]]; try done. injection E as <- <-. done.
    + destruct (Hnext following Hl H1) as (Hn1 & Hn2 & Hn3).
      assert (reduce_levels fuel a p node (len cs) overhead child capacity following t1 = Ok (k, t')) as E'
        by (destruct following as [|? [|? ?]]; done).
      destruct (IH following t1 Ht1 Hn1 Hn2 Hn3) as [_ IH']. destruct (IH' _ _ E') as (Ht' & He' & Hm' & Hc').
      split_and!; [done|by etrans|done|]. auto.
Qed.

End Reduce.

(** ** Accounting for the leaves *)

Lemma covers_perm cs rs ks ks' l :
  ks ≡ₚ ks' → covers cs rs ks l → ∃ l', covers cs rs ks' l' ∧ l ≡ₚ l'.
Proof.
  intros Hp. revert l. induction Hp as [|k ks ks' Hp IH|x y ks|ks1 ks2 ks3 _ IH1 _ IH2]; intros l Hc.
  - by exists l.
  - apply (covers_app_inv _ _ [k]) in Hc as (l1 & l2 & -> & H1 & H2).
    apply IH in H2 as (l' & H2 & Hl). exists (l1 ++ l'). split; [by apply (covers_app _ _ [k])|by f_equiv].
  - apply (covers_app_inv _ _ [y]) in Hc as (l1 & l2 & -> & H1 & H2).
    apply (covers_app_inv _ _ [x]) in H2 as (l3 & l4 & -> & H2 & H3).
    exists (l3 ++ l1 ++ l4). split; [|by rewrite Permutation_app_swap_app].
    apply (covers_app _ _ [x]); [done|]. by apply (covers_app _ _ [y]).
  - apply IH1 in Hc as (l2 & Hc & E1). apply IH2 in Hc as (l3 & Hc & E2). exists l3. split; [done|by etrans].
Qed.

Lemma filter_partition {A} (p : A → bool) l :
  List.filter p l ++ List.filter (λ x, negb (p x)) l ≡ₚ l.
Proof.
  induction l as [|x l IH]; [done|]. simpl. destruct (p x); simpl; [by rewrite IH|].
  rewrite <-IH at 3. by rewrite <-Permutation_middle.
Qed.

Lemma fmap_bind_list {A B C} (g : B → C) (f : A → list B) l : g <$> (l ≫= f) = l ≫= λ x, g <$> f x.
Proof. induction l as [|x l IH]; [done|]. csimpl. by rewrite fmap_app, IH. Qed.

(** Elements grouped by their key. *)
Lemma group_by_key {A} (key : A → uuid) ks l :
  NoDup ks → (∀ x, x ∈ l → key x ∈ ks) →
  (ks ≫= λ k, List.filter (λ x, bool_decide (key x = k)) l) ≡ₚ l.
Proof.
  revert l. induction ks as [|k ks IH]; intros l Hnd Hin.
  - destruct l as [|x l]; [done|]. by specialize (Hin x ltac:(by left)) as ?%not_elem_of_nil.
  - apply NoDup_cons in Hnd as [Hk Hnd]. csimpl.
    set (rest := List.filter (λ x, negb (bool_decide (key x = k))) l).
    assert ((ks ≫= λ k, List.filter (λ x, bool_decide (key x = k)) l) =
            (ks ≫= λ k, List.filter (λ x, bool_decide (key x = k)) rest)) as ->.
    { apply Forall_bind_ext, Forall_forall. intros k' Hk'.
      change (select (λ x, bool_decide (key x = k')) l = select (λ x, bool_decide (key x = k'))
        (select (λ x, negb (bool_decide (key x = k))) l)). rewrite select_select. apply select_ext. intros x _. repeat case_bool_decide; try done. by subst. }
    rewrite IH; [apply filter_partition|done|].
    intros x Hx. unfold rest in Hx. apply elem_of_select in Hx as [Hne Hx].
    specialize (Hin x Hx). apply negb_true_iff, bool_decide_eq_false in Hne. set_solver.
Qed.

(** ** A whole plan *)

Section Units.
Context `{Runtime}.
Variables (a : ExtractionArtifact) (root : uuid) (p : DigestionProfile) (base : Z).
Variable chs : list AnalysisChunk.
Hypothesis Hprofile : valid_digestion_profile p = true.

Notation cs := (chunk_id <$> chs).

Lemma reduction_capacity_unstuck path : unstuck (reduction_capacity root p base path).
Proof.
  unfold reduction_capacity. apply unstuck_bind.
  - unfold encode_request. by destruct (material_boundary _).
  - intros t _. by destruct (managed_input_budget p).
Qed.

Lemma reduction_capacity_Ok path o c k :
  reduction_capacity root p base path = Ok (o, c, k) →
  k ≤ max_fan_in p ∧ 0 ≤ c ∧ o + k * c ≤ token_limit p.
Proof.
  unfold reduction_capacity, token_limit. intros E. apply result_bind_Ok in E as (t & _ & E).
  unfold valid_digestion_profile in Hprofile. rewrite !andb_true_iff in Hprofile.
  destruct_and! Hprofile. destruct (managed_input_budget p) as [b|].
  - rewrite !andb_true_iff, !Z.ltb_lt in *. destruct_and!. injection E as <- <- <-.
    match goal with |- context [reduction_size ?x ?y ?z] => set (o := reduction_size x y z) end.
    pose proof (Z.mul_div_le (input_bytes b - o) (child_bytes b)). split_and!; [lia|lia|]. nia.
  - injection E as <- <- <-. rewrite !Z.ltb_lt in *.
    match goal with |- context [?r / ?c] => set (room := r); set (child := c) end.
    assert (0 < child) by (unfold child; lia).
    pose proof (Z.mul_div_le room child). unfold room in *. split_and!; [lia|lia|]. nia.
Qed.

Lemma reduce_group_spec node ks t :
  tree_ok p cs t →
  unstuck (reduce_group a root p base (len chs) node ks t) ∧
  ∀ o t', reduce_group a root p base (len chs) node ks t = Ok (o, t') →
    tree_ok p cs t' ∧ extends t t' ∧ match o with Some k => made t' [k] | None => True end ∧
    ∀ l, covers cs (t_reducers t) ks l →
         match o with Some k => covers cs (t_reducers t') [k] l | None => l = [] end.
Proof.
  intros Ht. assert (len chs = len cs) as Hlen by (unfold len; by rewrite length_fmap).
  unfold reduce_group. destruct ks as [|k0 ks].
  { split; [done|]. intros o t' [= <- <-]. split_and!; try done. intros l Hl. by inversion Hl. }
  set (current := k0 :: ks) in *.
  assert (∀ o c cap, reduction_capacity root p base (su_path node) = Ok (o, c, cap) →
    (match managed_input_budget p with Some _ => Z.min 2 (len current) | None => 2 end <=? cap) = true →
    unstuck (reduce_levels (S (length current)) a p node (len chs) o c cap current t) ∧
    ∀ k t', reduce_levels (S (length current)) a p node (len chs) o c cap current t = Ok (k, t') →
      tree_ok p cs t' ∧ extends t t' ∧ made t' [k] ∧
      ∀ l, covers cs (t_reducers t) current l → covers cs (t_reducers t') [k] l) as Hlv.
  { intros o c cap (H1 & H2 & H3)%reduction_capacity_Ok Hn%Z.leb_le. rewrite Hlen.
    assert (1 ≤ len current) by (unfold len, current; simpl; lia).
    apply reduce_levels_spec; try done; try lia.
    - destruct (managed_input_budget p); lia.
    - destruct (decide (length current = 1%nat)) as [?|Hne]; [by left|right].
      destruct (managed_input_budget p); unfold len in *; lia. }
  split.
  - apply unstuck_bind; [apply reduction_capacity_unstuck|]. intros [[o c] cap] E1.
    apply unstuck_bind; [by apply unstuck_check|]. intros [] E2%check_Ok.
    apply unstuck_bind; [by apply Hlv|]. by intros [].
  - intros o' t' E. apply result_bind_Ok in E as ([[o c] cap] & E1 & E). cbv zeta in E. planned E.
    apply result_bind_Ok in E as ([k t1] & E2 & E). injection E as <- <-.
    by apply (Hlv o c cap E1 Hc).
Qed.

Definition own (k : uuid) : list uuid :=
  chunk_id <$> List.filter (λ c, bool_decide (ac_parent c = k)) chs.

(** Each processed unit has an output that covers its own chunks and those below it. *)
Definition settled (outputs : list (uuid * option uuid)) (t : tree) (Lf : uuid → list uuid)
    (x : uuid * list uuid) : Prop :=
  (∃ o, dict_get x.1 outputs = Some o ∧
     match o with Some k => made t [k] ∧ covers cs (t_reducers t) [k] (Lf x.1) | None => Lf x.1 = [] end) ∧
  Lf x.1 ≡ₚ own x.1 ++ (x.2 ≫= Lf).

Lemma covers_below outputs t Lf ks :
  (∀ k, k ∈ ks → ∃ o, dict_get k outputs = Some o ∧
     match o with Some k' => made t [k'] ∧ covers cs (t_reducers t) [k'] (Lf k) | None => Lf k = [] end) →
  covers cs (t_reducers t) (omap (λ k, mjoin (dict_get k outputs)) ks) (ks ≫= Lf).
Proof.
  induction ks as [|k ks IH]; intros Hk; [constructor|]. csimpl.
  destruct (Hk k ltac:(by left)) as (o & -> & Ho). pose proof (IH ltac:(intros k' Hin; apply Hk; by right)).
  destruct o as [k'|]; simpl; [destruct Ho; by apply (covers_app _ _ [k'])|]. by rewrite Ho.
Qed.

Definition keys_of (us : list StructuralUnit) : list uuid := structural_unit_id <$> us.

Lemma shape_keys us : (shape us).*1 = keys_of us.
Proof. unfold shape, keys_of. by rewrite <-list_fmap_compose. Qed.

Lemma later_app l1 l2 : later (l1 ++ l2) → later l2.
Proof. induction l1 as [|[k ks] l1 IH]; simpl; [done|]. intros [_ Hl]. auto. Qed.

(** A unit is settled when its children are and its own reduction has run. *)
Lemma settle_unit node outputs t o t' Lf l2 :
  NoDup (structural_unit_id node :: l2.*1) → outputs.*1 = rev l2.*1 →
  (∀ c, c ∈ su_child_ids node → c ∈ l2.*1) → later l2 →
  Forall (settled outputs t Lf) l2 → extends t t' →
  match o with Some k => made t' [k] | None => True end →
  (∀ l, covers cs (t_reducers t) (sort_children t (own (structural_unit_id node) ++
          omap (λ k, mjoin (dict_get k outputs)) (su_child_ids node))) l →
        match o with Some k => covers cs (t_reducers t') [k] l | None => l = [] end) →
  ∃ Lf', Forall (settled (outputs ++ [(structural_unit_id node, o)]) t' Lf')
           ((structural_unit_id node, su_child_ids node) :: l2).
Proof.
  set (key := structural_unit_id node). intros Hnd Hout Hch Hlat Hset Hext Hmade Hcov.
  apply NoDup_cons in Hnd as [Hk Hnd]. rewrite Forall_forall in Hset.
  assert (∀ c, c ∈ l2.*1 → ∃ x, x ∈ l2 ∧ x.1 = c) as Hmem.
  { intros c Hc. apply list_elem_of_fmap in Hc as (x & -> & Hx). by exists x. }
  assert (covers cs (t_reducers t) (own key ++ omap (λ k, mjoin (dict_get k outputs)) (su_child_ids node))
            (own key ++ (su_child_ids node ≫= Lf))) as Hc.
  { apply covers_app.
    - apply covers_leaves. unfold own. intros k Hin. apply list_elem_of_fmap in Hin as (c & -> & Hin).
      apply elem_of_select in Hin as [_ Hin]. by apply list_elem_of_fmap_2.
    - apply covers_below. intros k Hin. destruct (Hmem k (Hch k Hin)) as (x & Hx & <-). by apply Hset. }
  eapply covers_perm in Hc as (leaves & Hc & Hperm); [|symmetry; apply order_by_Permutation].
  apply Hcov in Hc. set (Lf' := λ k, if bool_decide (k = key) then leaves else Lf k).
  assert (∀ k, k ≠ key → Lf' k = Lf k) as Hold by (intros k Hne; unfold Lf'; by rewrite bool_decide_eq_false_2).
  assert (∀ ks, (∀ c, c ∈ ks → c ∈ l2.*1) → (ks ≫= Lf') = (ks ≫= Lf)) as Hbind.
  { intros ks Hks. apply Forall_bind_ext, Forall_forall. intros c Hc'. apply Hold. intros ->. by apply Hk, Hks. }
  assert (NoDup (outputs ++ [(key, o)]).*1) as Hndo.
  { rewrite fmap_app, Hout. apply NoDup_app. split_and!; [by rewrite <-(Permutation_rev l2.*1)| |apply NoDup_singleton].
    intros k Hin Hin'%list_elem_of_singleton. simpl in Hin'. subst k. apply Hk. by rewrite (Permutation_rev l2.*1). }
  exists Lf'. constructor.
  - split; simpl.
    + exists o. split; [apply dict_get_unique; [done|set_solver]|].
      unfold Lf'. rewrite bool_decide_eq_true_2 by done. by destruct o.
    + rewrite Hbind by done. unfold Lf' at 1. rewrite bool_decide_eq_true_2 by done. by symmetry.
  - apply Forall_forall. intros x Hx. destruct (Hset x Hx) as [(o' & Hg & Ho') Hp].
    assert (x.1 ∈ l2.*1) as Hx1 by (by apply list_elem_of_fmap_2).
    assert (x.1 ≠ key) as Hne by (intros E; apply Hk; by rewrite <-E). split.
    + exists o'. rewrite Hold by done. split.
      * apply dict_get_unique; [done|]. apply dict_get_elem in Hg. set_solver.
      * destruct o'; [|done]. destruct Ho'. split; [by apply (extends_made t)|by apply (extends_covers _ t)].
    + rewrite Hold, Hbind; [done| |done]. intros c Hin. clear -Hlat Hx Hin.
      induction l2 as [|[k ks] l2 IH]; [by apply not_elem_of_nil in Hx|]. simpl in Hlat. destruct Hlat as [H1 H2].
      apply elem_of_cons in Hx as [->|Hx]; [right; by apply H1|right; by apply IH].
Qed.

Lemma reduce_units_spec us outputs t Lf l2 :
  NoDup (keys_of (rev us) ++ l2.*1) → later (shape (rev us) ++ l2) → outputs.*1 = rev l2.*1 →
  tree_ok p cs t → Forall (settled outputs t Lf) l2 →
  unstuck (reduce_units a root p base chs us outputs t) ∧
  ∀ outputs' t', reduce_units a root p base chs us outputs t = Ok (outputs', t') →
    tree_ok p cs t' ∧ ∃ Lf', Forall (settled outputs' t' Lf') (shape (rev us) ++ l2).
Proof.
  revert outputs t Lf l2. induction us as [|node us IH]; intros outputs t Lf l2 Hnd Hlat Hout Ht Hset.
  { split; [done|]. intros outputs' t' [= <- <-]. split; [done|]. by exists Lf. }
  cbn [reduce_units]. fold (own (structural_unit_id node)).
  match goal with |- context [reduce_group a root p base (len chs) node ?ks t] => set (kids := ks) end.
  destruct (reduce_group_spec node kids t Ht) as [Hu Hg].
  set (l2' := (structural_unit_id node, su_child_ids node) :: l2).
  assert (keys_of (rev (node :: us)) ++ l2.*1 = keys_of (rev us) ++ l2'.*1) as Ek.
  { unfold keys_of. simpl. by rewrite fmap_app, <-app_assoc. }
  assert (shape (rev (node :: us)) ++ l2 = shape (rev us) ++ l2') as Es.
  { unfold shape. simpl. by rewrite fmap_app, <-app_assoc. }
  rewrite Ek in Hnd. rewrite Es in Hlat. rewrite Es.
  assert (∀ o t1, reduce_group a root p base (len chs) node kids t = Ok (o, t1) →
    tree_ok p cs t1 ∧ ∃ Lf', Forall (settled (outputs ++ [(structural_unit_id node, o)]) t1 Lf') l2') as Hstep.
  { intros o t1 E. destruct (Hg _ _ E) as (Ht1 & Hext & Hmade & Hcov). split; [done|].
    apply later_app in Hlat. destruct Hlat as [Hch Hlat]. apply NoDup_app in Hnd as (_ & _ & Hnd).
    by eapply settle_unit. }
  assert (∀ o, (outputs ++ [(structural_unit_id node, o)]).*1 = rev l2'.*1) as Hout'.
  { intros o. rewrite fmap_app, Hout. done. }
  split.
  - apply unstuck_bind; [done|]. intros [o t1] E. destruct (Hstep _ _ E) as (Ht1 & Lf' & Hset').
    by eapply (IH _ t1 Lf' l2').
  - intros outputs' t' E. apply result_bind_Ok in E as ([o t1] & E1 & E).
    destruct (Hstep _ _ E1) as (Ht1 & Lf' & Hset').
    by eapply (IH _ t1 Lf' l2' Hnd Hlat (Hout' o) Ht1 Hset').
Qed.

(** The leaves of the root are the chunks. *)
Lemma root_leaves outputs t Lf l :
  tree_shape root l → (∀ c, c ∈ chs → ac_parent c ∈ l.*1) → Forall (settled outputs t Lf) l →
  Lf root ≡ₚ cs.
Proof.
  intros [Hnd Hr _ Hch] Hpar Hset.
  assert ((l.*1 ≫= Lf) ≡ₚ (l.*1 ≫= own) ++ ((l ≫= snd) ≫= Lf)) as E.
  { clear -Hset. induction Hset as [|x l [_ Hp] Hset IH]; [done|]. csimpl. rewrite Hp, IH, bind_app.
    rewrite <-!app_assoc. f_equiv. rewrite !app_assoc. f_equiv. apply Permutation_app_comm. }
  rewrite Hch in E. revert Hnd Hr Hpar E. destruct l.*1 as [|r ks]; [done|]. intros Hnd Hr Hpar E. injection Hr as ->. csimpl in E.
  apply Permutation_app_inv_r in E. rewrite E.
  pose proof (group_by_key ac_parent (root :: ks) chs Hnd Hpar) as Eg.
  etrans; [|apply fmap_Permutation; exact Eg]. by rewrite fmap_bind_list.
Qed.

End Units.
