(* ===== verification/DigestPlanForest.v ===== *)
(** * Every stage of a plan is consumed at most once

    While reducers are added, the children already consumed and the keys still pending are
    distinct; so no reducer lists a child twice and no two reducers share a child. *)

From stdpp Require Import base tactics list strings option sets.
From Stdlib Require Import ZArith NArith QArith Lia.
From S2P Require Import Prelude Json Contracts ContractFacts JobModels DigestModels DigestPlanning DigestPlanFacts DigestPlanTree DigestPlanReduce.

Local Open Scope Z_scope.

Definition keys (t : tree) : list uuid := (t_levels t).*1.
Definition used_children (t : tree) : list uuid := t_reducers t ≫= rn_children.

(** What every [add_reducer] does, a whole reduction does. *)
Section Steps.
Context `{Runtime}.
Variables (a : ExtractionArtifact) (p : DigestionProfile) (R : tree → tree → Prop).
Context `{!PreOrder R}.
Hypothesis Hstep : ∀ node n overhead child group t k t',
  add_reducer a p node n overhead child group t = Ok (k, t') → R t t'.

Lemma add_reducers_steps node n overhead child groups t ks t' :
  add_reducers a p node n overhead child groups t = Ok (ks, t') → R t t'.
Proof.
  revert t ks. induction groups as [|g groups IH]; intros t ks E; [by injection E as <- <-|].
  cbn [add_reducers] in E. apply result_bind_Ok in E as ([k t1] & E1 & E).
  apply result_bind_Ok in E as ([ks1 t2] & E2 & E). injection E as <- ->. etrans; [by eapply Hstep|by eapply IH].
Qed.

Lemma reduce_levels_steps node n overhead child fuel capacity current t k t' :
  reduce_levels fuel a p node n overhead child capacity current t = Ok (k, t') → R t t'.
Proof.
  revert current t. induction fuel as [|fuel IH]; intros current t E; [done|]. cbn [reduce_levels] in E.
  apply result_bind_Ok in E as ([following t1] & E1 & E). etrans; [by eapply add_reducers_steps|].
  destruct following as [|x [|y following]]; [by eapply IH| |by eapply IH]. by injection E as <- <-.
Qed.

Lemma reduce_units_steps root base chs us outputs t outputs' t' :
  reduce_units a root p base chs us outputs t = Ok (outputs', t') → R t t'.
Proof.
  revert outputs t. induction us as [|node us IH]; intros outputs t E; [by injection E as <- <-|].
  cbn [reduce_units] in E. apply result_bind_Ok in E as ([o t1] & E1 & E). etrans; [|by eapply IH].
  unfold reduce_group in E1. destruct (sort_children _ _) as [|k0 ks]; [by injection E1 as <- <-|].
  apply result_bind_Ok in E1 as ([[ov ch] cap] & _ & E1). cbv zeta in E1. planned E1.
  apply result_bind_Ok in E1 as ([k t2] & E2 & E1). injection E1 as <- ->. by eapply reduce_levels_steps.
Qed.
End Steps.

Definition grown (t t' : tree) : Prop := keys t `prefix_of` keys t'.
#[export] Instance grown_preorder : PreOrder grown.
Proof. split; [intros t; by exists []; rewrite app_nil_r|]. intros t1 t2 t3. apply (PreOrder_Transitive (R := prefix)). Qed.

Lemma add_reducer_grown `{Runtime} a p node n overhead child group t k t' :
  add_reducer a p node n overhead child group t = Ok (k, t') → grown t t'.
Proof.
  unfold add_reducer, grown. intros E. apply result_bind_Ok in E as (ls & _ & E). planned E.
  apply result_bind_Ok in E as (ps & _ & E). planned E. injection E as <- <-.
  unfold keys. simpl. rewrite fmap_app. by eexists.
Qed.

(** The keys of the tree are the chunks and the stages of its reducers. *)
Definition keyed (cs : list uuid) (t : tree) : Prop := keys t = cs ++ (rn_stage_id <$> t_reducers t).
Definition keyed_step (cs : list uuid) (t t' : tree) : Prop := keyed cs t → keyed cs t'.
#[export] Instance keyed_step_preorder (cs : list uuid) : PreOrder (keyed_step cs).
Proof. split; unfold keyed_step; intros ?; auto. Qed.

Lemma add_reducer_keyed `{Runtime} a p (cs : list uuid) node n overhead child group t k t' :
  add_reducer a p node n overhead child group t = Ok (k, t') → keyed_step cs t t'.
Proof.
  unfold add_reducer, keyed_step, keyed. intros E Hk. apply result_bind_Ok in E as (ls & _ & E). planned E.
  apply result_bind_Ok in E as (ps & _ & E). planned E. injection E as <- <-.
  unfold keys in *. simpl. by rewrite !fmap_app, Hk, app_assoc.
Qed.

Lemma grown_nodup t t' : grown t t' → NoDup (keys t') → NoDup (keys t).
Proof. intros [l ->] Hnd. by apply NoDup_app in Hnd as (? & _). Qed.

(** [pending] holds keys no reducer has consumed. *)
Record forest (t : tree) (pending : list uuid) : Prop := {
  fo_once : NoDup (used_children t ++ pending);
  fo_known : ∀ k, k ∈ used_children t ++ pending → k ∈ keys t }.

Lemma forest_weaken t p p' : p' ⊆+ p → forest t p → forest t p'.
Proof.
  intros Hs [Hn Hi].
  assert (used_children t ++ p' ⊆+ used_children t ++ p) as Hs' by (by apply submseteq_app).
  split.
  - apply submseteq_Permutation in Hs' as [k Hp]. rewrite Hp in Hn. by apply NoDup_app in Hn as (? & _).
  - intros k Hin. apply Hi. by eapply elem_of_submseteq.
Qed.

Lemma forest_perm t p p' : p' ≡ₚ p → forest t p → forest t p'.
Proof. intros Hp. apply forest_weaken. by rewrite Hp. Qed.

Section Add.
Context `{Runtime}.
Variables (a : ExtractionArtifact) (p : DigestionProfile) (node : StructuralUnit).
Variables (n overhead child : Z).

Lemma add_reducer_forest group t k t' rest :
  add_reducer a p node n overhead child group t = Ok (k, t') → NoDup (keys t') →
  forest t (group ++ rest) → forest t' (k :: rest).
Proof.
  unfold add_reducer. intros E Hnd [Hn Hi]. apply result_bind_Ok in E as (ls & _ & E). planned E.
  apply result_bind_Ok in E as (ps & _ & E). planned E. injection E as <- <-.
  match goal with H : NoDup (keys ?t') |- _ => set (t1 := t') in * end.
  match goal with |- forest _ (?k :: _) => set (key := k) in * end.
  assert (keys t1 = keys t ++ [key]) as Ek by (unfold keys; simpl; by rewrite fmap_app).
  assert (used_children t1 = used_children t ++ group) as Eu.
  { unfold used_children. simpl. by rewrite bind_app, bind_singleton. }
  rewrite Ek in Hnd. apply NoDup_app in Hnd as (_ & Hfresh & _).
  assert (used_children t1 ++ key :: rest ≡ₚ key :: (used_children t ++ group ++ rest)) as Hp.
  { rewrite Eu, <-app_assoc. by rewrite <-!Permutation_middle. }
  split.
  - rewrite Hp. constructor; [|done]. intros Hin. apply (Hfresh key); [by apply Hi|by left].
  - intros x. rewrite Hp, Ek. intros [->|Hx]%elem_of_cons; apply elem_of_app; [right; by left|left; by apply Hi].
Qed.

Lemma add_reducers_forest groups t ks t' rest :
  add_reducers a p node n overhead child groups t = Ok (ks, t') → NoDup (keys t') →
  forest t (concat groups ++ rest) → forest t' (ks ++ rest).
Proof.
  intros E Hnd. revert t ks rest E. induction groups as [|g groups IH]; intros t ks rest E Hf.
  { by injection E as <- <-. }
  cbn [add_reducers] in E. apply result_bind_Ok in E as ([k t1] & E1 & E).
  apply result_bind_Ok in E as ([ks1 t2] & E2 & E). injection E as <- ->.
  assert (NoDup (keys t1)) as Hnd1.
  { eapply grown_nodup; [|exact Hnd]. eapply (add_reducers_steps a p grown); [|exact E2]. intros *. apply add_reducer_grown. }
  simpl in Hf. rewrite <-app_assoc in Hf.
  pose proof (add_reducer_forest g t k t1 _ E1 Hnd1 Hf) as Hf1.
  assert (forest t' (ks1 ++ k :: rest)) as Hf2.
  { apply (IH t1 ks1 (k :: rest) E2). eapply forest_perm; [|exact Hf1]. by rewrite <-Permutation_middle. }
  eapply forest_perm; [|exact Hf2]. simpl. by rewrite <-Permutation_middle.
Qed.

Lemma reduce_levels_forest fuel capacity current t k t' rest :
  0 < capacity → reduce_levels fuel a p node n overhead child capacity current t = Ok (k, t') →
  NoDup (keys t') → forest t (current ++ rest) → forest t' (k :: rest).
Proof.
  intros Hcap. revert current t. induction fuel as [|fuel IH]; intros current t E Hnd Hf; [done|].
  cbn [reduce_levels] in E. apply result_bind_Ok in E as ([following t1] & E1 & E).
  assert (concat (chop (length current) (Z.to_nat capacity) current) = current) as Hcat by (apply chop_concat; lia).
  assert (grown t1 t') as Hp.
  { destruct following as [|x [|y following]]; [| by injection E as <- <- |];
      (eapply (reduce_levels_steps a p grown); [|exact E]; intros *; apply add_reducer_grown). }
  assert (forest t1 (following ++ rest)) as Hf1.
  { eapply add_reducers_forest; [exact E1|by eapply grown_nodup|by rewrite Hcat]. }
  destruct following as [|x [|y following]]; [by eapply IH| |by eapply IH]. by injection E as <- <-.
Qed.

End Add.

Section Units.
Context `{Runtime}.
Variables (a : ExtractionArtifact) (root : uuid) (p : DigestionProfile) (base : Z) (chs : list AnalysisChunk).

Lemma reduce_group_forest node ks t o t' rest :
  reduce_group a root p base (len chs) node ks t = Ok (o, t') →
  NoDup (keys t') → forest t (ks ++ rest) → forest t' (option_list o ++ rest).
Proof.
  unfold reduce_group. destruct ks as [|k0 ks]; intros E Hnd Hf; [by injection E as <- <-|].
  apply result_bind_Ok in E as ([[ov ch] cap] & _ & E). cbv zeta in E. planned E.
  apply result_bind_Ok in E as ([k t1] & E1 & E). injection E as <- ->.
  eapply (reduce_levels_forest a p node); [|exact E1|done|done]. apply Z.leb_le in Hc.
  assert (1 ≤ len (k0 :: ks)) by (unfold len; simpl; lia). destruct (managed_input_budget p); lia.
Qed.

(** The output of a processed unit, and what the units still to process will consume. *)
Definition out (outputs : list (uuid * option uuid)) (k : uuid) : list uuid :=
  option_list (mjoin (dict_get k outputs)).

Definition pending (outputs : list (uuid * option uuid)) (us : list StructuralUnit) : list uuid :=
  (us ≫= λ u, own chs (structural_unit_id u)) ++ ((us ≫= su_child_ids) ≫= out outputs).

Lemma pending_cons outputs node us :
  pending outputs (node :: us) ≡ₚ
  (own chs (structural_unit_id node) ++ (su_child_ids node ≫= out outputs)) ++ pending outputs us.
Proof.
  unfold pending. csimpl. rewrite bind_app, <-!app_assoc. f_equiv. rewrite !app_assoc. f_equiv.
  apply Permutation_app_comm.
Qed.

Lemma omap_out outputs ks : omap (λ k, mjoin (dict_get k outputs)) ks = ks ≫= out outputs.
Proof.
  induction ks as [|k ks IH]; [done|]. csimpl. rewrite <-IH. unfold out.
  by destruct (mjoin (dict_get k outputs)).
Qed.

Lemma out_snoc outputs n o k :
  out (outputs ++ [(n, o)]) k = if bool_decide (k = n) then option_list o else out outputs k.
Proof.
  assert (dict_get k (outputs ++ [(n, o)]) = if bool_decide (k = n) then Some o else dict_get k outputs) as E.
  { induction outputs as [|[k' o'] outputs IH]; simpl.
    - repeat case_bool_decide; by subst.
    - rewrite IH. by case_bool_decide. }
  unfold out. rewrite E. by case_bool_decide.
Qed.

Lemma bind_out_snoc outputs n o ks :
  NoDup ks → (ks ≫= out (outputs ++ [(n, o)])) ⊆+ option_list o ++ (ks ≫= out outputs).
Proof.
  induction ks as [|k ks IH]; intros Hnd; [apply submseteq_nil_l|]. apply NoDup_cons in Hnd as [Hk Hnd]. csimpl.
  rewrite out_snoc. case_bool_decide as E.
  - subst. apply submseteq_app; [done|]. apply submseteq_inserts_l.
    assert ((ks ≫= out (outputs ++ [(n, o)])) = (ks ≫= out outputs)) as ->; [|done].
    apply Forall_bind_ext, Forall_forall. intros x Hx. rewrite out_snoc. case_bool_decide; [by subst|done].
  - etrans; [apply submseteq_app; [done|exact (IH Hnd)]|].
    rewrite !app_assoc. by rewrite (Permutation_app_comm (out outputs k)).
Qed.

Lemma reduce_units_forest us outputs t outputs' t' :
  reduce_units a root p base chs us outputs t = Ok (outputs', t') →
  NoDup (us ≫= su_child_ids) → NoDup (keys t') →
  forest t (pending outputs us) → NoDup (used_children t').
Proof.
  revert outputs t. induction us as [|node us IH]; intros outputs t E Hch Hnd Hf.
  { injection E as <- <-. destruct Hf as [Hf _]. by apply NoDup_app in Hf as (? & _). }
  pose proof E as E0. cbn [reduce_units] in E. apply result_bind_Ok in E as ([o t1] & E1 & E).
  assert (NoDup (keys t1)) as Hnd1.
  { eapply grown_nodup; [|exact Hnd]. eapply (reduce_units_steps a p grown); [|exact E]. intros *. apply add_reducer_grown. }
  csimpl in Hch. apply NoDup_app in Hch as (_ & _ & Hch).
  assert (forest t1 (option_list o ++ pending outputs us)) as Hf1.
  { eapply (reduce_group_forest _ _ _ _ _ _ E1 Hnd1). eapply forest_perm; [|exact Hf].
    rewrite pending_cons, <-omap_out. f_equiv. apply order_by_Permutation. }
  eapply (IH _ _ E Hch Hnd). eapply forest_weaken; [|exact Hf1]. unfold pending.
  etrans; [apply submseteq_app; [done|exact (bind_out_snoc outputs _ o _ Hch)]|].
  rewrite !app_assoc. by rewrite (Permutation_app_comm (option_list o)).
Qed.

End Units.

Lemma own_submseteq chs ks :
  NoDup ks → (ks ≫= own chs) ⊆+ chunk_id <$> chs.
Proof.
  intros Hnd. set (l := List.filter (λ c, bool_decide (ac_parent c ∈ ks)) chs).
  assert ((ks ≫= own chs) = (ks ≫= own l)) as ->.
  { apply Forall_bind_ext, Forall_forall. intros k Hk. unfold own. f_equal.
    change (select (λ c, bool_decide (ac_parent c = k)) chs =
      select (λ c, bool_decide (ac_parent c = k)) (select (λ c, bool_decide (ac_parent c ∈ ks)) chs)).
    rewrite select_select. apply select_ext. intros c _. repeat case_bool_decide; try done. by subst. }
  unfold own. rewrite <-fmap_bind_list, (group_by_key ac_parent ks l Hnd).
  - apply fmap_submseteq. unfold l. rewrite <-(filter_partition (λ c, bool_decide (ac_parent c ∈ ks)) chs) at 2.
    apply submseteq_inserts_r. done.
  - intros c Hc. unfold l in Hc. apply elem_of_select in Hc as [Hc _]. by apply bool_decide_eq_true in Hc.
Qed.

(** ** The plan *)

Section Build.
Context `{Runtime}.

Lemma build_consumes_once a ref p pl :
  build a ref p = Ok pl → NoDup ((chunk_id <$> chunks pl) ++ (rn_stage_id <$> reducers pl)) →
  NoDup (reducers pl ≫= rn_children).
Proof.
  unfold build. intros E Hnd. planned E. apply result_bind_Ok in E as (m & Em & E).
  apply build_structure_spec in Em as [[Hks _ _ Hch] _].
  apply result_bind_Ok in E as (gs & _ & E). apply result_bind_Ok in E as (cs & _ & E). planned E.
  apply result_bind_Ok in E as (b & _ & E). apply result_bind_Ok in E as ([outputs t] & Er & E).
  destruct (mjoin _) as [top|]; [|done]. injection E as <-. cbn [chunks reducers] in *.
  match type of Er with reduce_units _ _ _ _ _ _ _ ?x = _ => set (t0 := x) in * end.
  assert (keys t0 = chunk_id <$> cs) as Hk0 by (unfold keys; simpl; by rewrite <-list_fmap_compose).
  assert (keyed (chunk_id <$> cs) t) as Hk.
  { eapply (reduce_units_steps a p (keyed_step (chunk_id <$> cs))); [|exact Er|].
    - intros *. apply add_reducer_keyed.
    - unfold keyed. rewrite Hk0. simpl. by rewrite app_nil_r. }
  assert (∀ us : list StructuralUnit, (us ≫= su_child_ids) = shape us ≫= snd) as Hsh.
  { intros us. induction us as [|u us IH]; [done|]. csimpl. by rewrite IH. }
  assert (rev (sm_units m) ≡ₚ sm_units m) as Hrev by (symmetry; apply Permutation_rev).
  assert (∀ l : list (uuid * list uuid), NoDup l.*1 → NoDup (tail l.*1)) as Htail.
  { intros [|x l] Hl; [constructor|]. csimpl. csimpl in Hl. by apply NoDup_cons in Hl as [_ ?]. }
  eapply (reduce_units_forest a _ p b cs _ _ _ _ _ Er).
  - rewrite Hrev, Hsh, Hch. by apply Htail.
  - unfold keyed in Hk. by rewrite Hk.
  - assert (pending cs [] (rev (sm_units m)) ⊆+ chunk_id <$> cs) as Hp.
    { unfold pending. assert ((rev (sm_units m) ≫= su_child_ids) ≫= out [] = []) as ->.
      { generalize (rev (sm_units m) ≫= su_child_ids) as l. induction l as [|x l IH]; [done|]. csimpl. by rewrite IH. }
      rewrite app_nil_r, Hrev. etrans; [|apply (own_submseteq cs (shape (sm_units m)).*1 Hks)].
      unfold shape. rewrite <-list_fmap_compose. generalize (sm_units m) as us.
      induction us as [|u us IH]; [done|]. csimpl. by apply submseteq_app. }
    apply (forest_weaken _ _ _ Hp). split.
    + simpl. by apply NoDup_app in Hnd as (? & _).
    + simpl. by rewrite Hk0.
Qed.

End Build.
