(* ===== verification/DigestPlanTheorems.v ===== *)
(** * What digestion planning guarantees

    Planning always ends; the chunks reproduce the eligible source exactly; chunks and
    reducers are within the profile; the reductions cover every chunk exactly once. *)

From stdpp Require Import base tactics list strings option sets.
From Stdlib Require Import ZArith NArith QArith Lia.
From S2P Require Import Prelude Json Contracts ContractFacts JobModels JobLedger Sample ContractTheorems.
From S2P Require Import DigestModels DigestPlanning DigestPlanFacts DigestPlanSource DigestPlanTree DigestPlanReduce.

Local Open Scope Z_scope.

Section Build.
Context `{Runtime}.

Lemma valid_profile_chunk p : valid_digestion_profile p = true → 0 < chunk_characters p.
Proof.
  unfold valid_digestion_profile. rewrite !andb_true_iff, !Z.ltb_lt. intros Hv. destruct_and! Hv. done.
Qed.

(** What the parts of [_build] establish together. *)
Record plan_facts (a : ExtractionArtifact) (p : DigestionProfile) (pl : Plan) : Prop := {
  pf_profile : pl_profile pl = p;
  pf_shape : tree_shape (structure_root a p) (shape (sm_units (structure pl)));
  pf_chunks : chunks pl ≠ [] ∧ chunks_fit p (chunks pl);
  pf_cuts : ∃ cuts, (chunks pl ≫= pieces) = concat cuts ∧
    Forall2 (block_tiles a) (eligible_blocks a (eligible_ids a) (inventory a)) cuts;
  pf_tree : ∃ t, t_reducers t = reducers pl ∧ tree_ok p (chunk_id <$> chunks pl) t;
  pf_root : root_id pl ∈ rn_stage_id <$> reducers pl;
  pf_covers : ∃ leaves, covers (chunk_id <$> chunks pl) (reducers pl) [root_id pl] leaves ∧
    leaves ≡ₚ chunk_id <$> chunks pl;
  pf_ids : eligible pl = List.filter is_eligible (units a) ≫= unit_ids ∧
    skipped pl = List.filter is_skipped (units a) ≫= unit_ids ∧
    unsupported_ids pl = List.filter is_unsupported (units a) ≫= unit_ids }.

Lemma rev_shape us : shape (rev (rev us)) ++ [] = shape us.
Proof. by rewrite rev_involutive, app_nil_r. Qed.

Lemma build_spec a ref p :
  model_valid a = true → valid_digestion_profile p = true →
  unstuck (build a ref p) ∧ ∀ pl, build a ref p = Ok pl → plan_facts a p pl.
Proof.
  intros Hv Hp. pose proof (valid_profile_chunk p Hp) as Hcc.
  destruct (build_structure_spec a ref p) as [Hus Hsh].
  pose proof (λ gs, cut_groups_spec a p (eligible_ids a) gs [] Hcc (model_spans_ordered a Hv)) as Hcut.
  assert (chunks_fit p []) as Hfit0 by (split_and!; [constructor|unfold len; simpl; lia|done]).
  set (t0 := λ cs, {| t_reducers := []; t_levels := (λ c, (chunk_id c, 0)) <$> cs;
                t_positions := (λ c, (chunk_id c, sequence c)) <$> cs |}).
  assert (∀ cs, tree_ok p (chunk_id <$> cs) (t0 cs)) as Ht0.
  { intros cs. split; simpl; try done.
    - by rewrite app_nil_r, <-list_fmap_compose.
    - rewrite <-list_fmap_compose. apply Forall_fmap, Forall_true. intros c. simpl. lia. }
  assert (∀ m cs base, tree_shape (structure_root a p) (shape (sm_units m)) →
    unstuck (reduce_units a (structure_root a p) p base cs (rev (sm_units m)) [] (t0 cs)) ∧
    ∀ outputs t, reduce_units a (structure_root a p) p base cs (rev (sm_units m)) [] (t0 cs) = Ok (outputs, t) →
      tree_ok p (chunk_id <$> cs) t ∧ ∃ Lf, Forall (settled cs outputs t Lf) (shape (sm_units m))) as Hred.
  { intros m cs base Hm. rewrite <-(rev_shape (sm_units m)).
    apply (reduce_units_spec a (structure_root a p) p base cs Hp _ _ _ (λ _, []) []); try done.
    - rewrite rev_involutive. simpl. rewrite app_nil_r, <-shape_keys. by destruct Hm.
    - rewrite rev_shape. by destruct Hm. }
  unfold build. split.
  - apply unstuck_bind; [by apply unstuck_check|]. intros _ _.
    apply unstuck_bind; [done|]. intros m Em. destruct (Hsh m Em) as [Hm _].
    apply unstuck_bind; [by apply group_blocks_spec|]. intros gs _.
    apply unstuck_bind; [by apply Hcut|]. intros cs _.
    apply unstuck_bind; [by apply unstuck_check|]. intros _ _.
    apply unstuck_bind; [unfold request_size, encode_request; by destruct (material_boundary _)|]. intros base _.
    apply unstuck_bind; [by apply Hred|]. intros [outputs t] _. by destruct (mjoin _).
  - intros pl E. planned E. apply result_bind_Ok in E as (m & Em & E). destruct (Hsh m Em) as [Hm _].
    apply result_bind_Ok in E as (gs & Eg & E). apply group_blocks_spec in Eg as [Egs Hgs]; [|constructor].
    apply result_bind_Ok in E as (cs & Ec & E). destruct (Hcut gs Hfit0) as [_ Hcut'].
    destruct (Hcut' _ Ec) as (Hfit & cuts & Hcuts & Htiles). planned E.
    apply result_bind_Ok in E as (base & _ & E). apply result_bind_Ok in E as ([outputs t] & Er & E).
    destruct (Hred m cs base Hm) as [_ Hred']. destruct (Hred' _ _ Er) as (Ht & Lf & Hset).
    destruct (mjoin (dict_get (structure_root a p) outputs)) as [top|] eqn:Etop; [|done].
    assert (∀ k, Some top = Some k → k ∈ rn_stage_id <$> t_reducers t ∧
      covers (chunk_id <$> cs) (t_reducers t) [k] (Lf (structure_root a p))) as Hroot.
    { intros k [= <-]. pose proof (root_in _ _ Hm) as Hin. apply list_elem_of_fmap in Hin as (x & Ex & Hx).
      rewrite Forall_forall in Hset. destruct (Hset x Hx) as [(o & Hg & Ho) _]. rewrite <-Ex in Hg, Ho.
      rewrite Hg in Etop. simpl in Etop. subst o. destruct Ho as [Hmd Hco]. split; [apply Hmd; by left|done]. }
    injection E as <-. split; simpl; try done.
    + apply negb_true_iff, bool_decide_eq_false in Hc0. split; [by intros ->|done].
    + exists cuts. split; [done|]. by rewrite eligible_blocks_bind, Egs in Htiles.
    + by exists t.
    + by destruct (Hroot _ eq_refl).
    + exists (Lf (structure_root a p)). split; [by destruct (Hroot _ eq_refl)|].
      eapply root_leaves; [exact Hm| |exact Hset].
      apply cut_groups_parents in Ec as (k & -> & Hk). simpl. rewrite Forall_forall in Hk. rewrite Forall_forall in Hgs.
        intros c Hc'. apply Hk in Hc'. apply list_elem_of_fmap in Hc' as (n & -> & Hn).
        apply list_elem_of_fmap in Hn as (g & -> & Hg). rewrite shape_keys.
        by apply list_elem_of_fmap_2, Hgs.
Qed.

Lemma build_plan_Ok a data ref p pl :
  build_plan a data ref p = Ok pl →
  model_valid a = true ∧ valid_digestion_profile p = true ∧
  ref_sha256 ref = data.1 ∧ ref_byte_size ref = data.2 ∧ ref_object_id ref = extraction_id a ∧
  plan_facts a p pl.
Proof.
  unfold build_plan. cbv zeta. intros E.
  match type of E with (match ?r with Ok _ => _ | Err _ => _ end) = _ => destruct r as [pl'|[]] eqn:Er; try done end.
  injection E as <-. planned Er. rewrite !andb_true_iff, !bool_decide_eq_true, Z.eqb_eq in *.
  destruct_and!. split_and!; try done. by apply (build_spec a ref p).
Qed.

Lemma build_plan_scope a data ref p pl :
  build_plan a data ref p = Ok pl → ref_scope ref = doc_scope (document a) ∧ ref_kind ref = artifact_kind.
Proof.
  unfold build_plan. cbv zeta. intros E.
  match type of E with (match ?r with Ok _ => _ | Err _ => _ end) = _ => destruct r as [pl'|[]] eqn:Er; try done end.
  injection E as <-. planned Er. rewrite !andb_true_iff, !bool_decide_eq_true in *. by destruct_and!.
Qed.

Lemma build_plan_unstuck a data ref p : unstuck (build_plan a data ref p).
Proof.
  unfold build_plan. cbv zeta.
  match goal with |- unstuck (match ?r with Ok _ => _ | Err _ => _ end) => assert (unstuck r) as Hr end.
  { apply unstuck_bind; [by apply unstuck_check|]. intros _ Hc%check_Ok.
    apply andb_true_iff in Hc as [Hv Hp]. apply unstuck_bind; [by apply unstuck_check|].
    intros _ _. by apply build_spec. }
  unfold unstuck in *. by destruct (_ ≫= _) as [|[]].
Qed.

Lemma inventory_partition_unit u :
  (if is_eligible u then 1 else 0) + (if is_skipped u then 1 else 0) + (if is_unsupported u then 1 else 0) = 1.
Proof. unfold is_eligible, is_skipped. by destruct (is_unsupported u), (has_text (unit_text u)). Qed.

Lemma inventory_partition us :
  (List.filter is_eligible us ≫= unit_ids) ++ (List.filter is_skipped us ≫= unit_ids)
    ++ (List.filter is_unsupported us ≫= unit_ids) ≡ₚ (us ≫= unit_ids).
Proof.
  induction us as [|u us IH]; [done|]. csimpl. rewrite <-IH. pose proof (inventory_partition_unit u).
  destruct (is_eligible u), (is_skipped u), (is_unsupported u); try done; csimpl.
  - by rewrite <-app_assoc.
  - rewrite <-!app_assoc. apply Permutation_app_swap_app.
  - rewrite !app_assoc. f_equiv. rewrite <-!app_assoc. rewrite (app_assoc _ _ (unit_ids u)).
    apply Permutation_app_comm.
Qed.

Lemma tiles_source a u b ps :
  model_valid a = true → NoDup (all_block_ids a) → (u, b) ∈ inventory a → block_tiles a (u, b) ps →
  concat (pc_text <$> ps) = source_text b ∧
  Forall (λ x, ev_block_id (evidence x) = block_id b ∧ pc_kind x = blk_kind b ∧
               index_resolve (build_index a) (evidence x) = Ok (pc_text x)) ps.
Proof.
  intros Hv Hnd [Hu Hb]%inventory_elem Ht. unfold block_tiles in Ht. simpl in Ht.
  destruct (model_valid_unit a u Hv Hu) as (_ & _ & Hall). rewrite Forall_forall in Hall.
  destruct (Hall b Hb) as (Htx & Hs & He). split.
  - rewrite Htx. eapply tiles_text; [exact Ht|lia].
  - eapply tiles_resolve in Ht; [|exact Hv|done|done|lia|by apply (block_lines a)].
    eapply Forall_impl; [exact Ht|]. intros x (H1 & H2 & H3 & H4). split_and!; [done|done|].
    apply (index_resolve_Ok_iff a Hv _ _ Hnd H3). apply (resolve_Ok_iff a _ _ _ Hv) in H4. naive_solver.
Qed.

Lemma Forall2_impl_elem {A B} (P Q : A → B → Prop) l k :
  Forall2 P l k → (∀ x y, x ∈ l → P x y → Q x y) → Forall2 Q l k.
Proof. intros HP. induction HP; intros HQ; constructor; [apply HQ; [by left|done]|]. apply IHHP. set_solver. Qed.

(** C13: planning ends on every input, valid or not: the loops that split pieces, walk
    headings and reduce level by level never run on, and the only outcomes are a plan or
    a digestion error with its category. *)
Theorem planning_terminates a data ref p :
  (∃ pl, build_plan a data ref p = Ok pl) ∨
  (∃ c d r, build_plan a data ref p = Err (DigestionErr c d r)).
Proof.
  pose proof (build_plan_unstuck a data ref p) as Hu. unfold build_plan in *. cbv zeta in *.
  match goal with |- context [match ?r with Ok _ => _ | Err _ => _ end] => destruct r as [pl|[c d e| |]] end;
    [left; by exists pl|right; by exists c, d, e|right; unfold planning_failed, plain_error, DigestionError; eauto|].
  by destruct Hu.
Qed.

(** C11: a plan reproduces the source: its pieces, chunk after chunk, are the consecutive
    cuts of the eligible blocks in document order; the pieces of each block concatenate
    to the block's text, and the evidence of each piece resolves to exactly its text.
    Every unit is inventoried as eligible, skipped or unsupported. *)
Theorem plan_covers_source a data ref p pl :
  build_plan a data ref p = Ok pl → NoDup (all_block_ids a) →
  (∃ cuts, (chunks pl ≫= pieces) = concat cuts ∧
    Forall2 (λ ub ps,
      concat (pc_text <$> ps) = source_text ub.2 ∧
      Forall (λ x, ev_block_id (evidence x) = block_id ub.2 ∧ pc_kind x = blk_kind ub.2 ∧
                   index_resolve (build_index a) (evidence x) = Ok (pc_text x)) ps)
      (List.filter (λ ub, is_eligible ub.1) (inventory a)) cuts) ∧
  (eligible pl ++ skipped pl ++ unsupported_ids pl) ≡ₚ (units a ≫= unit_ids).
Proof.
  intros (Hv & _ & _ & _ & _ & [_ _ _ (cuts & Hcuts & Htiles) _ _ _ (-> & -> & ->)])%build_plan_Ok Hnd.
  rewrite eligible_blocks_filter in Htiles by done. split; [|apply inventory_partition].
  exists cuts. split; [done|]. eapply Forall2_impl_elem; [exact Htiles|].
  intros [u b] ps Hin Ht. apply elem_of_select in Hin as [_ Hin]. by apply (tiles_source a u b).
Qed.

(** The chunks and reducers of a plan are within its profile: characters and
    estimated tokens of a chunk, number and numbering of the chunks, fan-in, depth and
    estimated size of a reducer, and the number of steps. *)
Theorem plan_within_profile a data ref p pl :
  build_plan a data ref p = Ok pl →
  Forall (chunk_fits p) (chunks pl) ∧ 1 ≤ len (chunks pl) ≤ max_chunks p ∧
  sequence <$> chunks pl = Z.of_nat <$> seq 0 (length (chunks pl)) ∧
  Forall (node_ok p) (reducers pl) ∧ len (chunks pl) + len (reducers pl) + 2 ≤ max_steps p.
Proof.
  intros (_ & Hp & _ & _ & _ & [_ _ [Hne (Hf & Hl & Hs)] _ (t & Et & [_ _ _ Hn Hst]) Hroot _ _])%build_plan_Ok.
  assert (1 ≤ len (chunks pl)) as H1 by (destruct (chunks pl); [done|unfold len; simpl; lia]).
  rewrite Et in Hn, Hst. assert (reducers pl ≠ []) as Hr by (intros Hr; rewrite Hr in Hroot; set_solver).
  apply Hst in Hr. unfold len in Hr at 1. rewrite length_fmap in Hr. split_and!; try done.
  unfold valid_digestion_profile, between in Hp. rewrite !andb_true_iff in Hp. destruct_and! Hp.
  rewrite !Z.leb_le in *. lia.
Qed.

(** The reducers of a plan are listed after their children, and expanding the root
    through the reducers reaches every chunk exactly once: no chunk is dropped or
    reduced twice. *)
Theorem reductions_cover_chunks a data ref p pl :
  build_plan a data ref p = Ok pl →
  after_children (chunk_id <$> chunks pl) (reducers pl) ∧
  root_id pl ∈ rn_stage_id <$> reducers pl ∧
  ∃ leaves, covers (chunk_id <$> chunks pl) (reducers pl) [root_id pl] leaves ∧
            leaves ≡ₚ chunk_id <$> chunks pl.
Proof.
  intros (_ & _ & _ & _ & _ & [_ _ _ _ (t & Et & [_ _ Ha _ _]) Hroot Hc _])%build_plan_Ok.
  rewrite Et in Ha. done.
Qed.

End Build.

(** ** Witnesses *)

(** Two characters per chunk and two children per reducer: three chunks, four reducers. *)
Definition sample_digestion : DigestionProfile := {|
  dp_version := "digestion/1"; structure_profile := "source-structure/1";
  chunking_profile := "analysis-chunks/1"; inference_profile := "deterministic/1";
  inference_config := sample_sha256; reducer_profile := "lineage-reduction/1";
  prompt_profile := "structured-data/1"; dp_context_tokens := 100000; reserved_output_tokens := 1000;
  template_tokens := 10; chunk_characters := 2; max_fan_in := 2; max_result_characters := 4000;
  max_response_bytes := None; managed_input_budget := None; max_claims := 8;
  max_claim_characters := 1024; max_annotations := 8; max_source_units := 100; max_chunks := 10;
  max_steps := 20; dp_max_artifact_bytes := 1000000; max_depth := 4; allow_partial := false;
  minimum_coverage := 1; max_failed_units := 0 |}.

Definition sample_data : digest * Z := (sample_sha (cps "artifact"), 500).

Definition sample_extraction_ref : ObjectRef := {|
  ref_scope := sample_scope; ref_kind := artifact_kind; ref_object_id := sample_extraction;
  ref_key := @object_key sample_runtime sample_scope artifact_kind sample_extraction;
  ref_sha256 := sample_data.1; ref_byte_size := sample_data.2 |}.

Notation sample_planning :=
  (@build_plan sample_runtime sample_extracted sample_data sample_extraction_ref sample_digestion).

(** The sample plan is built, with the shape above. *)
Lemma sample_planning_Ok :
  match sample_planning with
  | Ok pl => (length (chunks pl), (λ n, (level n, length (rn_children n))) <$> reducers pl)
             = (3%nat, [(1, 2%nat); (1, 1%nat); (2, 2%nat); (3, 1%nat)])
  | Err _ => False
  end.
Proof. vm_compute. reflexivity. Qed.

Lemma plan_covers_source_witness :
  ∃ pl, sample_planning = Ok pl ∧
  (∃ cuts, (chunks pl ≫= pieces) = concat cuts ∧
    Forall2 (λ ub ps,
      concat (pc_text <$> ps) = source_text ub.2 ∧
      Forall (λ x, ev_block_id (evidence x) = block_id ub.2 ∧ pc_kind x = blk_kind ub.2 ∧
                   index_resolve (build_index sample_extracted) (evidence x) = Ok (pc_text x)) ps)
      (List.filter (λ ub, is_eligible ub.1) (inventory sample_extracted)) cuts) ∧
  (eligible pl ++ skipped pl ++ unsupported_ids pl) ≡ₚ (units sample_extracted ≫= unit_ids).
Proof.
  pose proof sample_planning_Ok as Hok. destruct sample_planning as [pl|e] eqn:E; [|destruct Hok].
  exists pl. split; [reflexivity|].
  apply (@plan_covers_source sample_runtime sample_extracted sample_data sample_extraction_ref
           sample_digestion pl E).
  refine (bool_decide_unpack _ _). vm_compute. exact I.
Defined.

Lemma plan_within_profile_witness :
  ∃ pl, sample_planning = Ok pl ∧
  Forall (@chunk_fits sample_runtime sample_digestion) (chunks pl) ∧
  1 ≤ len (chunks pl) ≤ max_chunks sample_digestion ∧
  sequence <$> chunks pl = Z.of_nat <$> seq 0 (length (chunks pl)) ∧
  Forall (node_ok sample_digestion) (reducers pl) ∧
  len (chunks pl) + len (reducers pl) + 2 ≤ max_steps sample_digestion.
Proof.
  pose proof sample_planning_Ok as Hok. destruct sample_planning as [pl|e] eqn:E; [|destruct Hok].
  exists pl. split; [reflexivity|].
  exact (@plan_within_profile sample_runtime sample_extracted sample_data sample_extraction_ref
           sample_digestion pl E).
Defined.

Lemma reductions_cover_chunks_witness :
  ∃ pl, sample_planning = Ok pl ∧
  after_children (chunk_id <$> chunks pl) (reducers pl) ∧
  root_id pl ∈ rn_stage_id <$> reducers pl ∧
  ∃ leaves, covers (chunk_id <$> chunks pl) (reducers pl) [root_id pl] leaves ∧
            leaves ≡ₚ chunk_id <$> chunks pl.
Proof.
  pose proof sample_planning_Ok as Hok. destruct sample_planning as [pl|e] eqn:E; [|destruct Hok].
  exists pl. split; [reflexivity|].
  exact (@reductions_cover_chunks sample_runtime sample_extracted sample_data sample_extraction_ref
           sample_digestion pl E).
Defined.
