(* ===== verification/DigestValidation.v ===== *)
(** * Validation of stage results and the final digest

    [documents/digestion/validation.py] and [encode]/[decode] of
    [documents/digestion/codec.py]: which generated results are accepted, what reducers
    inherit, and how the final digest is derived from the accepted results.
    [json.loads] and the model's pydantic validation are parameters. *)

From stdpp Require Import base tactics list strings option.
From Stdlib Require Import ZArith NArith QArith Lia.
From S2P Require Import Prelude Json Contracts JobModels DigestModels DigestPlanning.

Local Open Scope Z_scope.

(** ** Errors *)

Definition evidence_error (reason : string) : digest_exn :=
  DigestionError "evidence_validation_failed" "evidence_validation" reason.
Definition response_error (reason : string) : digest_exn :=
  DigestionError "synthesis_limit_exceeded" "response_limit" reason.
Definition binding_error (reason : string) : digest_exn :=
  DigestionError "inference_contract_error" "stage_binding" reason.
Definition identity_error (reason : string) : digest_exn :=
  DigestionError "inference_contract_error" "claim_identity" reason.
Definition coverage_error (reason : string) : digest_exn :=
  DigestionError "coverage_failed" "coverage_validation" reason.

(** ** Decoding *)

(** What [json.loads] raises: the hook's exception, or its own. *)
Inductive load_error := hook_raised | malformed.

(** [unique]: the hook that builds an object from its pairs. *)
Definition unique (pairs : list (string * json)) : option json :=
  if bool_decide (NoDup pairs.*1) then Some (JObj pairs) else None.

Class Decoder := {
  (** [json.loads(data, object_pairs_hook=hook)] *)
  json_loads : (list (string * json) → option json) → text → result load_error json;
  (** [StageResult.model_validate]; an error carries [classify_pydantic]'s reason *)
  stage_result_validate : json → result string StageResult }.

(** Field constraints of [StageResult] and its parts. *)
Definition is_Text (t : text) : bool := between 1 (len t) 4096.

Definition valid_claim (c : Claim) : bool :=
  is_Text (c_text c) && forallb (λ q, is_Text (q_text q)) (qualifications c)
  && match c_subject c with Some s => is_token s | None => true end.

Definition valid_stage_result (r : StageResult) : bool :=
  forallb valid_claim (claims r) && forallb is_Text (open_questions r)
  && forallb is_Text (limitations r).

Section Validation.
Context `{Runtime} `{Decoder}.

(** [encode(result)] *)
Definition encode_result (r : StageResult) : result digest_exn text :=
  if valid_stage_result r then Ok (canonical (result_json r))
  else Err (DigestionError "inference_contract_error" "canonical_serialization"
              "canonical_revalidation_failed").

(** [decode(data, StageResult, limit)] *)
Definition decode_result (data : text) (limit : Z) : result digest_exn StageResult :=
  if limit <? len data then Err (response_error "raw_response_limit")
  else match json_loads unique data with
       | Err hook_raised =>
           Err (DigestionError "inference_contract_error" "duplicate_json_key" "duplicate_json_key")
       | Err malformed => Err (DigestionError "inference_contract_error" "json_decode" "malformed_json")
       | Ok payload =>
           match stage_result_validate payload with
           | Ok r => Ok r
           | Err reason => Err (DigestionError "inference_contract_error" "pydantic_validation" reason)
           end
       end.

(** ** [validate_result] *)

Definition subset (l k : list uuid) : bool := forallb (λ x, bool_decide (x ∈ k)) l.

(** [for piece in request.source_data]: the evidence resolves to the piece's text. *)
Fixpoint check_pieces (i : EvidenceIndex) (ps : list SourcePiece) : result digest_exn unit :=
  match ps with
  | [] => Ok tt
  | p :: ps' =>
      match index_resolve i (evidence p) with
      | Ok t => _ ← check (text_eqb t (pc_text p)) (evidence_error "other_evidence_validation");
                check_pieces i ps'
      | Err _ => Err (evidence_error "other_evidence_validation")
      end
  end.

(** [links]: the claims of the children by stage and claim identifier; the last wins. *)
Definition links (r : StageRequest) : list (ClaimLink * Claim) :=
  children r ≫= λ ch,
    (λ c, ({| link_stage := sr_stage_id (ci_result ch); link_claim := claim_id c |}, c))
      <$> claims (ci_result ch).

Definition link_get (k : ClaimLink) (l : list (ClaimLink * Claim)) : option Claim :=
  snd <$> last_error (List.filter (λ kc : ClaimLink * Claim, bool_decide (kc.1 = k)) l).

(** [allowed]: the request's own evidence and the evidence cited by the children. *)
Definition allowed (r : StageRequest) : list uuid :=
  (evidence_id <$> source_data r)
  ++ (children r ≫= λ ch, claims (ci_result ch) ≫= λ c, evidence_ids c ++ contradicting c).

Definition check_references (al ids : list uuid) : result digest_exn unit :=
  if negb (bool_decide (NoDup ids)) then Err (evidence_error "duplicate_evidence")
  else check (subset ids al) (evidence_error "foreign_evidence").

Fixpoint check_qualifications (p : DigestionProfile) (al : list uuid) (qs : list Qualification)
    : result digest_exn unit :=
  match qs with
  | [] => Ok tt
  | q :: qs' =>
      if bool_decide (q_evidence q = []) || (max_claim_characters p <? len (q_text q))
         || negb (bool_decide (NoDup (q_evidence q))) || negb (subset (q_evidence q) al)
      then Err (evidence_error
             (if negb (bool_decide (q_evidence q = [])) && (max_claim_characters p <? len (q_text q))
              then "text_limit" else "invalid_qualification_source"))
      else check_qualifications p al qs'
  end.

(** [has_source] *)
Definition has_source (ls : list (ClaimLink * Claim)) (c : Claim) : bool :=
  negb (bool_decide (evidence_ids c = []))
  || existsb (λ k, match link_get k ls with
                   | Some l => negb (bool_decide (evidence_ids l = [])) || negb (bool_decide (c_lineage l = []))
                   | None => false
                   end) (c_lineage c).

(** One claim at its position; [ids] are the claim identifiers before it. *)
Definition check_claim (r : StageRequest) (position : Z) (ids : list uuid) (c : Claim)
    : result digest_exn unit :=
  let p := rq_profile r in
  let expected := stable_id [cps (rq_stage_id r); z_text position] in
  let al := allowed r in
  let ls := links r in
  _ ← (if negb (bool_decide (claim_id c = expected)) || bool_decide (claim_id c ∈ ids)
          || negb (bool_decide (originating_stage c = rq_stage_id r))
       then Err (identity_error
              (if bool_decide (claim_id c ∈ ids) then "duplicate_claim_id"
               else if negb (bool_decide (claim_id c = expected)) then "claim_id_mismatch"
               else "originating_stage_mismatch"))
       else Ok tt);
  _ ← (if (max_claim_characters p <? len (c_text c)) || (max_annotations p <? len (qualifications c))
       then Err (response_error
              (if max_claim_characters p <? len (c_text c) then "text_limit" else "annotation_limit"))
       else Ok tt);
  _ ← check_references al (evidence_ids c);
  _ ← check_references al (contradicting c);
  _ ← (if negb (bool_decide (NoDup (c_lineage c)))
       then Err (evidence_error "duplicate_child_link")
       else check (forallb (λ k, bool_decide (k ∈ ls.*1)) (c_lineage c))
              (evidence_error "invalid_child_link"));
  _ ← check (negb (bool_decide (c_kind c = fact)
                   && (negb (has_source ls c) || negb (bool_decide (c_status c = supported)))))
        (evidence_error "unsupported_fact");
  _ ← check_qualifications p al (qualifications c);
  check (match c_subject c with Some _ => bool_decide (c_kind c = fact) | None => true end)
    (DigestionError "inference_contract_error" "claim_contract" "subject_on_nonfact").

Fixpoint check_claims (r : StageRequest) (position : Z) (ids : list uuid) (cs : list Claim)
    : result digest_exn unit :=
  match cs with
  | [] => Ok tt
  | c :: cs' => _ ← check_claim r position ids c; check_claims r (position + 1) (claim_id c :: ids) cs'
  end.

(** The checks on stage, outcome and counts. *)
Definition check_binding (res : StageResult) (r : StageRequest) : result digest_exn unit :=
  let p := rq_profile r in
  _ ← (if negb (bool_decide (sr_stage_id res = rq_stage_id r)) then Err (binding_error "stage_id_mismatch")
       else check (bool_decide (sr_kind res = rq_stage r)) (binding_error "stage_kind_mismatch"));
  _ ← match sr_outcome res with
      | unavailable =>
          if negb (bool_decide (rq_stage r = analysis)) then Err (binding_error "unavailable_reduction")
          else if negb (bool_decide (length (claims res) = 0%nat)) then Err (binding_error "unavailable_with_claims")
          else check (negb (bool_decide (length (limitations res) = 0%nat)))
                 (binding_error "unavailable_missing_limitation")
      | analyzed_outcome =>
          check (negb (bool_decide (rq_stage r = analysis) && bool_decide (length (claims res) = 0%nat)))
            (binding_error "analyzed_without_claims")
      end;
  if (max_claims p <? len (claims res)) || (max_annotations p <? len (open_questions res))
     || (max_annotations p <? len (limitations res))
  then Err (response_error (if max_claims p <? len (claims res) then "claim_limit" else "annotation_limit"))
  else Ok tt.

Definition same_set {A} `{EqDecision A} (l k : list A) : bool :=
  forallb (λ x, bool_decide (x ∈ k)) l && forallb (λ x, bool_decide (x ∈ l)) k.

(** [used] and [linked] *)
Definition used (res : StageResult) : list uuid := claims res ≫= λ c, evidence_ids c ++ contradicting c.
Definition linked (res : StageResult) : list ClaimLink := claims res ≫= c_lineage.

(** The checks after decoding, in the order of the source. *)
Definition check_result (res : StageResult) (r : StageRequest) (i : EvidenceIndex)
    : result digest_exn unit :=
  let p := rq_profile r in
  t ← encode_result res;
  _ ← check (len t <=? max_result_characters p) (response_error "canonical_response_limit");
  _ ← match managed_input_budget p with
      | None => Ok tt
      | Some b => check (result_contribution res + CHILD_WRAPPER_BYTES <=? child_bytes b)
                    (response_error EmptyString)
      end;
  _ ← check_binding res r;
  _ ← check_pieces i (source_data r);
  _ ← check_claims r 0 [] (claims res);
  _ ← check (negb (bool_decide (sr_outcome res = analyzed_outcome) && bool_decide (rq_stage r = analysis)
                   && negb (same_set (used res) (evidence_id <$> source_data r))))
        (coverage_error "missing_source_coverage");
  _ ← check (negb (bool_decide (rq_stage r = reduction) && negb (same_set (linked res) (links r).*1)))
        (coverage_error "missing_child_coverage");
  check (forallb (λ t, len t <=? max_claim_characters p) (open_questions res ++ limitations res))
    (response_error "text_limit").

Definition validate_result (raw : text) (r : StageRequest) (i : EvidenceIndex)
    : result digest_exn StageResult :=
  _ ← check_request r;
  res ← decode_result raw (response_byte_limit (rq_profile r));
  _ ← check_result res r i;
  Ok res.

(** ** [inherited_summary] *)

(** [subjects[key]]: a [defaultdict] of sides; [note] sets one or both. *)
Fixpoint note (key : string) (aff den : bool) (d : list (string * (bool * bool)))
    : list (string * (bool * bool)) :=
  match d with
  | [] => [(key, (aff, den))]
  | (k, (x, y)) :: d' =>
      if bool_decide (k = key) then (k, (x || aff, y || den)) :: d' else (k, (x, y)) :: note key aff den d'
  end.

(** A claim that takes a side on a subject. *)
Definition side (c : Claim) : option (string * bool) :=
  match c_subject c with
  | Some s => if bool_decide (s = EmptyString) then None else
      match stance c with affirmed => Some (s, true) | denied => Some (s, false) | stance_unknown => None end
  | None => None
  end.

Definition note_claim (d : list (string * (bool * bool))) (c : Claim) : list (string * (bool * bool)) :=
  match side c with
  | Some (s, true) => note s true false d
  | Some (s, false) => note s false true d
  | None => d
  end.

Definition note_prop (d : list (string * (bool * bool))) (q : Proposition_) : list (string * (bool * bool)) :=
  note (prop_subject q) (prop_affirmed q) (prop_denied q) d.

(** [sorted(subjects.items())]; keys are distinct. *)
Definition sorted_items {V} (d : list (string * V)) : list (string * V) :=
  order_by (λ x y : string * V, String.leb x.1 y.1) d.

Definition conflicts (qs : list Proposition_) : Z :=
  count (λ q, prop_affirmed q && prop_denied q) qs.

Definition inherited_summary (res : StageResult) (r : StageRequest) (cps : list Checkpoint)
    : InheritedSummary * list Proposition_ :=
  let subjects := foldl note_claim (foldl note_prop [] (cps ≫= propositions)) (claims res) in
  let props := (λ ks : string * (bool * bool),
    {| prop_subject := ks.1; prop_affirmed := ks.2.1; prop_denied := ks.2.2 |}) <$> sorted_items subjects in
  let own := len (source_data r) in
  let sum f := sum_by (λ c, f (cp_inherited c)) cps in
  ({| analyzed_pieces := sum analyzed_pieces +
        (if bool_decide (sr_outcome res = analyzed_outcome) then own else 0);
      failed_pieces := sum failed_pieces + (if bool_decide (sr_outcome res = unavailable) then own else 0);
      n_qualifications := sum n_qualifications + sum_by (λ c, len (qualifications c)) (claims res);
      n_contradictions := conflicts props;
      n_open_questions := sum n_open_questions + len (open_questions res) |}, props).

End Validation.
