(* ===== verification/ModelClients.v ===== *)
(** * Bounded calls of model providers

    [llm/bounded_http.py] and the [execute] methods of [llm/openai_compatible.py] and
    [llm/ollama_client.py].  The HTTP client and the peer behind it are parameters: a peer answers
    with a status and a body that may go on for ever, fail anywhere, and be slow; every chunk
    comes with the time since the call began.  Metrics and logging are not modelled. *)

From stdpp Require Import base tactics list strings option sets.
From Stdlib Require Import ZArith NArith QArith Lia.
From S2P Require Import Prelude Json Contracts JobModels ProviderAdmission Utf8 Inference DigestModels DigestValidation.

Local Open Scope Z_scope.

(** ** The transport *)

(** What the HTTP library raises: a timeout, a [RequestException] that wraps a read timeout, another
    [RequestException], an [OSError] that is none, or anything else. *)
Inductive transport := t_timeout | t_read_timeout | t_request | t_os | t_other.

Record HttpRequest := {
  ht_url : text; ht_headers : list (text * text); ht_payload : json; ht_connect : Q; ht_read : Q }.

(** One step of [iter_content(chunk_size=1)]. *)
Inductive body_event := BChunk (data : text) (elapsed : Q) | BEnd (elapsed : Q) | BRaise (t : transport).

Record HttpResponse := {
  rs_status : Z; rs_retry_after : option text; rs_body : nat → body_event; rs_close : option transport }.

Class HttpClient := {
  post : HttpRequest → result transport HttpResponse;
  (** seconds of a [Retry-After] value: [float(value)], or the time until the HTTP date it is;
      [None] when it is neither, or not finite *)
  retry_seconds : text → option Q }.

(** An exception inside a call: an [InferenceError], one of the HTTP library, or [ValueError],
    [TypeError], [UnicodeError] and [RecursionError]; [Unfinished] marks a loop that ran out of fuel
    (theorem [provider_call_ends]: it never happens). *)
Inductive call_exn :=
| CallInference (e : InferenceError)
| CallTransport (t : transport)
| CallValue
| Unfinished.

(** ** [llm/bounded_http.py] *)

Section BoundedHttp.
Context `{HttpClient} `{Decoder}.

Definition clamp_seconds (s : Q) : Q :=
  let s := if Qle_bool s 0 then 0%Q else s in if Qle_bool (inject_Z 604800) s then inject_Z 604800 else s.

Definition retry_after (header : option text) : option Q :=
  match header with Some v => clamp_seconds <$> retry_seconds v | None => None end.

(** The loop that collects the body of an answer. *)
Fixpoint read_body (fuel : nat) (body : nat → body_event) (total : Q) (max_bytes : Z) (i : nat) (data : text)
    : result call_exn text :=
  match fuel with
  | O => Err Unfinished
  | S fuel' =>
      match body i with
      | BChunk chunk elapsed =>
          if negb (Qle_bool elapsed total) then Err (CallInference InferenceTimeoutError)
          else if max_bytes <? len data + len chunk
          then Err (CallInference (InferenceOutputLimitError no_diagnostics))
          else read_body fuel' body total max_bytes (S i) (data ++ chunk)
      | BEnd elapsed =>
          if negb (Qle_bool elapsed total) then Err (CallInference InferenceTimeoutError) else Ok data
      | BRaise t => Err (CallTransport t)
      end
  end.

(** The loop of [rejection_diagnostics]; [None] when it gives up. *)
Fixpoint read_rejection (fuel : nat) (body : nat → body_event) (total : Q) (i : nat) (data : text)
    : result call_exn (option text) :=
  match fuel with
  | O => Err Unfinished
  | S fuel' =>
      match body i with
      | BChunk chunk elapsed =>
          if negb (Qle_bool elapsed total) || (4096 <? len data + len chunk) then Ok None
          else read_rejection fuel' body total (S i) (data ++ chunk)
      | BEnd _ => Ok (Some data)
      | BRaise ((t_os | t_other) as t) => Err (CallTransport t)
      | BRaise _ => Ok None
      end
  end.

Definition starts_with (s : string) (t : text) : bool := bool_decide (take (length (cps s)) t = cps s).

Definition is_string (v : option json) (ss : list string) : bool :=
  match v with Some (JStr t) => bool_decide (t ∈ cps <$> ss) | _ => false end.

(** Whether an error body says that the schema was refused. *)
Definition schema_rejected (value : json) : bool :=
  match value with
  | JObj kvs =>
      match field "error" kvs with
      | Some (JObj error) =>
          let code := field "code" error in let param := field "param" error in
          (is_string code ["invalid_json_schema"; "json_schema_invalid"]
           && is_string param ["response_format"; "response_format.json_schema"; "response_format.json_schema.schema"])
          || (is_string code ["invalid_request_error"] && is_string param ["response_format"]
              && match field "message" error with
                 | Some (JStr m) => starts_with "Invalid schema for response_format" m
                 | _ => false
                 end)
      | _ => false
      end
  | _ => false
  end.

(** [json.loads] without a hook: of equal keys the last one counts. *)
Definition any_pairs (pairs : list (string * json)) : option json := Some (JObj pairs).

(** Status and reason. *)
Definition rejection_diagnostics (rs : HttpResponse) (total : Q) : result call_exn (Z * string) :=
  match read_rejection 4098 (rs_body rs) total 0 [] with
  | Err e => Err e
  | Ok (Some data) =>
      match json_loads any_pairs data with
      | Ok v => Ok (rs_status rs, if schema_rejected v then "strict_schema_rejected" else "request_configuration")
      | Err _ => Ok (rs_status rs, "request_configuration")
      end
  | Ok None => Ok (rs_status rs, "request_configuration")
  end.

Definition fail_with {A} (e : InferenceError) : result call_exn A := Err (CallInference e).

(** The [try] body of [request_json], after the answer's head arrived. *)
Definition received (rs : HttpResponse) (total : Q) (max_bytes : Z) : result call_exn json :=
  let status := rs_status rs in
  if (300 <=? status) && (status <? 400) then fail_with InferenceConfigurationError
  else if 400 <=? status then
    if (status =? 429) || (status =? 502) || (status =? 503)
    then fail_with (InferenceRateLimitError (retry_after (rs_retry_after rs)))
    else if (status =? 400) || (status =? 422) then
      d ← rejection_diagnostics rs total;
      fail_with {| ie_category := "configuration_failure"; ie_retry_after := None; ie_usage := None;
                   ie_diagnostics := None; ie_rejection := Some d |}
    else if (500 <=? status) && negb (status =? 504) then fail_with InferenceConnectionError
    else fail_with (error_for_status (Some status))
  else
    data ← read_body (Z.to_nat max_bytes + 2) (rs_body rs) total max_bytes 0 [];
    match json_loads unique data with
    | Ok v => Ok v
    | Err _ => Err CallValue
    end.

(** The [except] clauses. *)
Definition classified {A} (r : result call_exn A) : result call_exn A :=
  match r with
  | Err (CallTransport (t_timeout | t_read_timeout)) => fail_with InferenceTimeoutError
  | Err (CallTransport t_request) => fail_with InferenceConnectionError
  | Err CallValue => fail_with InferenceResponseError
  | _ => r
  end.

Definition request_json (rq : HttpRequest) (total : Q) (max_bytes : Z) : result call_exn json :=
  match post rq with
  | Err t => classified (Err (CallTransport t))
  | Ok rs =>
      let r := received rs total max_bytes in
      match rs_close rs, r with
      | None, _ => classified r
      | Some t_other, _ => Err (CallTransport t_other)
      | Some _, Ok _ => fail_with InferenceConnectionError
      | Some _, Err _ => classified r
      end
  end.

Definition validate_request (rq : GenerationRequest) : result call_exn unit :=
  if match gr_max_envelope rq with Some n => (0 <? n) && (n <=? 24008192) | None => true end
     && (0 <? gr_output_tokens rq) && (gr_output_tokens rq <=? max_output_tokens (gr_capability rq))
     && (0 <? gr_response_bytes rq) && (gr_response_bytes rq <=? 4000000)
     && negb (Qle_bool (gr_total_seconds rq) 0) && Qle_bool (gr_total_seconds rq) (inject_Z 600)
  then Ok tt else fail_with InferenceConfigurationError.

Definition envelope (rq : GenerationRequest) : Z := default (gr_response_bytes rq * 6 + 8192) (gr_max_envelope rq).

Definition truncated (finish : json) : bool := is_string (Some finish) ["length"; "max_tokens"].

Definition nonneg (o : option Z) : bool := match o with Some z => 0 <=? z | None => false end.

(** [known]: both counts, and a total that is their sum when there is one. *)
Definition usage_known (usage : option InferenceUsage) : bool :=
  match usage with
  | Some u =>
      nonneg (prompt_tokens u) && nonneg (completion_tokens u)
      && match total_tokens u with
         | Some t => t =? default 0 (prompt_tokens u) + default 0 (completion_tokens u)
         | None => true
         end
  | None => false
  end.

Definition limit_diagnostics (rq : GenerationRequest) (size : option Z) (overflow : bool) (finish : json)
    (usage : option InferenceUsage) (reasoning : option Z) : OutputLimitDiagnostics := {|
  od_cause := if overflow then "response_bytes_exceeded" else "provider_completion_truncated";
  od_bytes := size; od_byte_limit := Some (gr_response_bytes rq);
  od_finish := match finish with
               | JNull => None
               | _ => if is_string (Some finish) ["stop"] then Some "stop"
                      else if is_string (Some finish) ["length"] then Some "length"
                      else if is_string (Some finish) ["max_tokens"] then Some "max_tokens" else Some "other"
               end;
  od_completion := match usage with
                   | Some u => if nonneg (completion_tokens u) then completion_tokens u else None
                   | None => None end;
  od_token_limit := Some (gr_output_tokens rq); od_reasoning := reasoning; od_usage := usage_known usage |}.

Definition result_text (content finish : json) (rq : GenerationRequest) (usage : option InferenceUsage)
    (reasoning : option Z) : result call_exn text :=
  size ← match content with
         | JStr t => match utf8_encode t with Some bs => Ok (Some (len bs)) | None => Err CallValue end
         | JNull => if truncated finish then Ok None else fail_with InferenceResponseError
         | _ => fail_with InferenceResponseError
         end;
  _ ← match finish with JNull | JStr _ => Ok tt | _ => fail_with InferenceResponseError end;
  let overflow := match size with Some n => gr_response_bytes rq <? n | None => false end in
  if overflow || truncated finish
  then fail_with (InferenceOutputLimitError (limit_diagnostics rq size overflow finish usage reasoning))
  else match finish, content with
       | JNull, JStr t => Ok t
       | JStr s, JStr t => if bool_decide (s = cps "stop") then Ok t else fail_with InferenceResponseError
       | _, _ => fail_with InferenceResponseError
       end.

(** ** What both providers share *)

Definition of_exn {A} (e : InferenceError) (r : option A) : result call_exn A :=
  match r with Some a => Ok a | None => fail_with e end.

(** [dict.get] on any value that is a dict. *)
Definition get_field (k : string) (v : json) : json :=
  match v with JObj kvs => default JNull (field k kvs) | _ => JNull end.

Definition is_dict (v : json) : bool := match v with JObj _ => true | _ => false end.

(** [value if type(value) is int and value >= 0 else None] *)
Definition count_value (v : json) : option Z := match v with JInt z => if 0 <=? z then Some z else None | _ => None end.

(** [returned or model], after it was found to be absent or accepted. *)
Definition served_model (returned : json) (model : text) (c : CapabilityProfile) : option text :=
  match returned with
  | JNull => Some model
  | JStr [] => if bool_decide ([] ∈ model :: response_models c) then Some model else None
  | JStr t => if bool_decide (t ∈ model :: response_models c) then Some t else None
  | _ => None
  end.

(** The attributes [execute] sets on an exception before it raises it again. *)
Definition annotated (rq : GenerationRequest) (usage : option InferenceUsage) (e : InferenceError) : InferenceError :=
  let limited := bool_decide (ie_category e = "output_limit") in {|
  ie_category := ie_category e; ie_retry_after := ie_retry_after e;
  ie_usage := if limited || bool_decide (ie_category e = "protocol_failure") then usage else ie_usage e;
  ie_diagnostics :=
    if limited
    then (λ d, {| od_cause := od_cause d; od_bytes := od_bytes d; od_byte_limit := Some (gr_response_bytes rq);
                  od_finish := od_finish d; od_completion := od_completion d;
                  od_token_limit := Some (gr_output_tokens rq); od_reasoning := od_reasoning d;
                  od_usage := od_usage d |}) <$> ie_diagnostics e
    else ie_diagnostics e;
  ie_rejection := ie_rejection e |}.

(** The [except] clause: [r] is the outcome of the [try] body with the value of [usage] then. *)
Definition reraised (rq : GenerationRequest) (r : result call_exn GenerationResult * option InferenceUsage)
    : result call_exn GenerationResult :=
  match r.1 with
  | Err (CallInference e) => Err (CallInference (annotated rq r.2 e))
  | x => x
  end.

Definition role_model (models : list (string * text)) (role : string) : result call_exn text :=
  of_exn InferenceResponseError (foldl (λ acc kv, if bool_decide (kv.1 = role) then Some kv.2 else acc) None models).

Definition message (role : string) (content : text) : json :=
  JObj [("role", jstr role); ("content", JStr content)].

Definition finish_text (v : json) : option text := match v with JStr t => Some t | _ => None end.

(** ** [llm/openai_compatible.py] *)

Record OpenAICompatibleProvider := {
  oa_url : text; oa_headers : list (text * text); oa_models : list (string * text); oa_connect : Q; oa_read : Q }.

Definition qmin (a b : Q) : Q := if Qle_bool a b then a else b.

(** The recursion limit of the interpreter. *)
Variable limit : nat.

Definition openai_payload (model : text) (schema : json) (rq : GenerationRequest) : json :=
  let c := gr_capability rq in
  JObj ([("model", JStr model); ("stream", JBool false);
         ("messages", JArr [message "system" (gr_system rq); message "user" (gr_data rq)]);
         (parameter_text (output_parameter c), JInt (gr_output_tokens rq))]
        ++ match temperature c with Some q => [("temperature", JFloat q)] | None => [] end
        ++ match reasoning_effort c with Some e => [("reasoning_effort", jstr e)] | None => [] end
        ++ match structured_output c with
           | so_prompt => []
           | so_json_object => [("response_format", JObj [("type", jstr "json_object")])]
           | so_json_schema =>
               [("response_format", JObj [("type", jstr "json_schema");
                  ("json_schema", JObj [("name", jstr (match schema_profile c with
                                                       | Some _ => "polymind_stage_result" | None => "stage_result" end));
                                        ("strict", JBool (match schema_profile c with Some _ => true | None => false end));
                                        ("schema", schema)])])]
           end).

(** [_completion_content] *)
Definition completion_content (payload : json) : result call_exn text :=
  match payload with
  | JObj kvs =>
      match field "choices" kvs with
      | Some (JArr (JObj c :: _)) =>
          match field "message" c with
          | Some (JObj m) => match field "content" m with Some (JStr t) => Ok t | _ => fail_with InferenceResponseError end
          | _ => fail_with InferenceResponseError
          end
      | _ => fail_with InferenceResponseError
      end
  | _ => fail_with InferenceResponseError
  end.

(** [_usage] *)
Definition openai_usage (payload : json) : option InferenceUsage :=
  match get_field "usage" payload with
  | JObj u =>
      let get k := count_value (default JNull (field k u)) in
      match get "prompt_tokens", get "completion_tokens", get "total_tokens" with
      | None, None, None => None
      | p, c, t => Some {| prompt_tokens := p; completion_tokens := c; total_tokens := t |}
      end
  | _ => None
  end.

(** A count that is present is a non-negative [int]. *)
Definition count_ok (v : json) : bool := match v with JNull => true | JInt z => 0 <=? z | _ => false end.

(** The checks of the reported usage: [None] is [invalid], otherwise the reasoning tokens. *)
Definition checked_usage (raw : json) : option (option Z) :=
  match raw with
  | JNull => Some None
  | JObj u =>
      let p := default JNull (field "prompt_tokens" u) in
      let c := default JNull (field "completion_tokens" u) in
      let t := default JNull (field "total_tokens" u) in
      if count_ok p && count_ok c && count_ok t
         && match p, c, t with JInt a, JInt b, JInt n => n =? a + b | _, _, _ => true end
      then match default JNull (field "completion_tokens_details" u) with
           | JNull => Some None
           | JObj details =>
               match default JNull (field "reasoning_tokens" details), c with
               | JNull, _ => Some None
               | JInt r, JInt n => if (0 <=? r) && (r <=? n) then Some (Some r) else None
               | _, _ => None
               end
           | _ => None
           end
      else None
  | _ => None
  end.

Definition first_choice (value : json) : list (string * json) :=
  match get_field "choices" value with JArr (JObj c :: _) => c | _ => [] end.

(** The envelope a strict provider must send. *)
Definition strict_envelope (value : json) : bool :=
  match get_field "choices" value with
  | JArr [JObj c] =>
      match field "message" c with
      | Some (JObj m) => match default JNull (field "refusal" m) with JNull => true | _ => false end
                         && match default JNull (field "finish_reason" c) with JNull => false | _ => true end
      | _ => false
      end
  | _ => false
  end.

Definition openai_metadata (rq : GenerationRequest) (value : json) (usage : option InferenceUsage) (reasoning : option Z)
    : ProviderResultMetadata :=
  let count f := match usage with Some u => jopt JInt (f u) | None => JNull end in
  let content := get_field "content" (default JNull (field "message" (first_choice value))) in
  sanitized_metadata (sanitized_metadata {|
    md_finish := default JNull (field "finish_reason" (first_choice value));
    md_prompt := count prompt_tokens; md_completion := count completion_tokens; md_total := count total_tokens;
    md_reasoning := jopt JInt reasoning;
    md_bytes := match content with JStr t => jopt (λ bs, JInt (len bs)) (utf8_encode t) | _ => JNull end;
    md_token_limit := JInt (gr_output_tokens rq); md_byte_limit := JInt (gr_response_bytes rq) |}).

(** After the usage was checked. *)
Definition openai_answer (rq : GenerationRequest) (model : text) (value : json) (usage : option InferenceUsage)
    (reasoning : option Z) : result call_exn GenerationResult :=
  let c := gr_capability rq in
  let first := first_choice value in
  let reason := default JNull (field "finish_reason" first) in
  let msg := default JNull (field "message" first) in
  _ ← (if match schema_profile c with Some _ => negb (strict_envelope value) | None => false end
       then fail_with InferenceResponseError else Ok tt);
  content ← (if is_dict msg && match get_field "content" msg with JNull => true | _ => false end && truncated reason
             then Ok JNull else t ← completion_content value; Ok (JStr t));
  served ← of_exn InferenceResponseError (served_model (get_field "model" value) model c);
  t ← result_text content reason rq usage reasoning;
  Ok {| gr_text := t; gr_usage := usage; gr_served_model := Some served; gr_finish := finish_text reason;
        gr_metadata := Some (openai_metadata rq value usage reasoning) |}.

Definition openai_request (self : OpenAICompatibleProvider) (rq : GenerationRequest) (model : text) (schema : json)
    : HttpRequest := {|
  ht_url := oa_url self; ht_headers := oa_headers self; ht_payload := openai_payload model schema rq;
  ht_connect := qmin (oa_connect self) (gr_total_seconds rq); ht_read := qmin (oa_read self) (gr_total_seconds rq) |}.

Definition openai_body (self : OpenAICompatibleProvider) (rq : GenerationRequest) (model : text) (schema : json)
    : result call_exn GenerationResult * option InferenceUsage :=
  match request_json (openai_request self rq model schema) (gr_total_seconds rq) (envelope rq) with
  | Err e => (Err e, None)
  | Ok value =>
      match checked_usage (get_field "usage" value) with
      | None => (fail_with InferenceResponseError, None)
      | Some reasoning =>
          let usage := openai_usage value in (openai_answer rq model value usage reasoning, usage)
      end
  end.

(** [OpenAICompatibleProvider.execute] *)
Definition openai_execute (self : OpenAICompatibleProvider) (rq : GenerationRequest) : result call_exn GenerationResult :=
  _ ← validate_request rq;
  schema ← match generation_schema_for_capability limit (gr_capability rq) (gr_schema rq) with
           | Ok s => Ok s | Err e => fail_with e end;
  model ← role_model (oa_models self) (gr_role rq);
  reraised rq (openai_body self rq model schema).

(** ** [llm/ollama_client.py] *)

Record OllamaClient := {
  ol_url : text; ol_model : option text; ol_map : list (string * text); ol_connect : Q; ol_read : Q }.

(** [self.model or self.model_map[role]] *)
Definition ollama_model (self : OllamaClient) (role : string) : result call_exn text :=
  match ol_model self with
  | Some ((_ :: _) as m) => Ok m
  | _ => role_model (ol_map self) role
  end.

Definition ollama_payload (model : text) (rq : GenerationRequest) : json :=
  let c := gr_capability rq in
  JObj ([("model", JStr model); ("stream", JBool false);
         ("options", JObj ([("num_predict", JInt (gr_output_tokens rq)); ("num_ctx", JInt (context_tokens c))]
            ++ match temperature c with Some q => [("temperature", JFloat q)] | None => [] end));
         ("messages", JArr [message "system" (gr_system rq); message "user" (gr_data rq)])]
        ++ match structured_output c with
           | so_prompt => []
           | so_json_object => [("format", jstr "json")]
           | so_json_schema => [("format", gr_schema rq)]
           end).

(** [_usage] *)
Definition ollama_usage (payload : json) : option InferenceUsage :=
  match count_value (get_field "prompt_eval_count" payload), count_value (get_field "eval_count" payload) with
  | None, None => None
  | p, c => Some {| prompt_tokens := p; completion_tokens := c;
                    total_tokens := match p, c with Some a, Some b => Some (a + b) | _, _ => None end |}
  end.

Definition ollama_request (self : OllamaClient) (rq : GenerationRequest) (model : text) : HttpRequest := {|
  ht_url := ol_url self; ht_headers := []; ht_payload := ollama_payload model rq;
  ht_connect := qmin (ol_connect self) (gr_total_seconds rq); ht_read := qmin (ol_read self) (gr_total_seconds rq) |}.

Definition ollama_body (self : OllamaClient) (rq : GenerationRequest) (model : text)
    : result call_exn GenerationResult * option InferenceUsage :=
  match request_json (ollama_request self rq model) (gr_total_seconds rq) (envelope rq) with
  | Err e => (Err e, None)
  | Ok value =>
      match get_field "message" value, get_field "done" value,
            served_model (get_field "model" value) model (gr_capability rq) with
      | JObj m, JBool true, Some served =>
          match field "content" m with
          | Some content =>
              let usage := ollama_usage value in
              let reason := get_field "done_reason" value in
              (t ← result_text content reason rq usage None;
               Ok {| gr_text := t; gr_usage := usage; gr_served_model := Some served;
                     gr_finish := finish_text reason; gr_metadata := None |}, usage)
          | None => (fail_with InferenceResponseError, None)
          end
      | _, _, _ => (fail_with InferenceResponseError, None)
      end
  end.

(** [OllamaClient.execute] *)
Definition ollama_execute (self : OllamaClient) (rq : GenerationRequest) : result call_exn GenerationResult :=
  _ ← validate_request rq;
  _ ← match schema_profile (gr_capability rq) with Some _ => fail_with InferenceConfigurationError | None => Ok tt end;
  _ ← match reasoning_effort (gr_capability rq) with Some _ => fail_with InferenceConfigurationError | None => Ok tt end;
  model ← ollama_model self (gr_role rq);
  reraised rq (ollama_body self rq model).

End BoundedHttp.

(** ** The two providers *)

Inductive provider := openai (self : OpenAICompatibleProvider) | ollama (self : OllamaClient).

Section Clients.
Context `{HttpClient} `{Decoder}.
Variable limit : nat.

Definition provider_execute (p : provider) (rq : GenerationRequest) : result call_exn GenerationResult :=
  match p with openai self => openai_execute limit self rq | ollama self => ollama_execute self rq end.

Definition provider_model (p : provider) (role : string) : result call_exn text :=
  match p with openai self => role_model (oa_models self) role | ollama self => ollama_model self role end.

(** Every chunk of every answer holds at least one byte, as [iter_content(chunk_size=1)] yields them. *)
Definition chunks_nonempty : Prop :=
  ∀ rq rs i chunk e, post rq = Ok rs → rs_body rs i = BChunk chunk e → chunk ≠ [].

(** ** Reading the body *)

Lemma read_body_bound fuel body total m i data d :
  len data ≤ m → read_body fuel body total m i data = Ok d → len d ≤ m.
Proof.
  revert i data. induction fuel as [|fuel IH]; intros i data Hl E; [done|]. cbn [read_body] in E.
  destruct (body i) as [chunk e|e|t]; [| |done].
  - destruct (negb _); [done|]. destruct (Z.ltb_spec m (len data + len chunk)); [done|].
    apply (IH _ _) in E; [done|]. unfold len in *. rewrite length_app. lia.
  - destruct (negb _); [done|]. by injection E as <-.
Qed.

(** Whoever answers, the loops end within one chunk more than the bytes they may keep. *)
Lemma read_body_ends fuel body total m i data :
  (∀ j chunk e, body j = BChunk chunk e → chunk ≠ []) → 1 ≤ Z.of_nat fuel → m - len data + 2 ≤ Z.of_nat fuel →
  read_body fuel body total m i data ≠ Err Unfinished.
Proof.
  intros Hne. revert i data. induction fuel as [|fuel IH]; intros i data H1 H2; cbn [read_body]; [done|].
  destruct (body i) as [chunk e|e|t] eqn:E; [|by destruct (negb _)|done].
  destruct (negb _); [done|]. destruct (Z.ltb_spec m (len data + len chunk)); [done|].
  apply Hne in E. destruct chunk as [|b chunk]; [done|].
  apply IH; unfold len in *; rewrite ?length_app; simpl length in *; lia.
Qed.

Lemma read_rejection_ends fuel body total i data :
  (∀ j chunk e, body j = BChunk chunk e → chunk ≠ []) → 1 ≤ Z.of_nat fuel → 4098 - len data ≤ Z.of_nat fuel →
  read_rejection fuel body total i data ≠ Err Unfinished.
Proof.
  intros Hne. revert i data. induction fuel as [|fuel IH]; intros i data H1 H2; cbn [read_rejection]; [done|].
  destruct (body i) as [chunk e|e|t] eqn:E; [|done|by destruct t].
  destruct (negb _); [done|]. simpl. destruct (Z.ltb_spec 4096 (len data + len chunk)); [done|].
  apply Hne in E. destruct chunk as [|b chunk]; [done|].
  apply IH; unfold len in *; rewrite ?length_app; simpl length in *; lia.
Qed.

(** ** What a call may raise *)

Definition CATEGORIES : list string :=
  ["provider_unreachable"; "timeout"; "authentication_failure"; "overloaded"; "configuration_failure"; "output_limit";
   "model_unavailable"; "protocol_failure"; "upstream_failure"].

(** Inside a call: everything but an unfinished loop. *)
Definition inner_exn (x : call_exn) : Prop :=
  match x with
  | CallInference e => ie_category e ∈ CATEGORIES
  | CallTransport _ | CallValue => True
  | Unfinished => False
  end.

(** Leaving a call: an [InferenceError] of a known category, or an exception that is none of the
    HTTP library's request errors. *)
Definition outer_exn (x : call_exn) : Prop :=
  match x with
  | CallInference e => ie_category e ∈ CATEGORIES
  | CallTransport t => t = t_os ∨ t = t_other
  | CallValue => True
  | Unfinished => False
  end.

Definition raises {A} (P : call_exn → Prop) (r : result call_exn A) : Prop :=
  match r with Ok _ => True | Err x => P x end.

Lemma raises_bind {A B} P (r : result call_exn A) (f : A → result call_exn B) :
  raises P r → (∀ a, r = Ok a → raises P (f a)) → raises P (r ≫= f).
Proof. destruct r; simpl; auto. Qed.

Lemma error_for_status_known s : ie_category (error_for_status s) ∈ CATEGORIES.
Proof. destruct s as [s|]; simpl; repeat case_match; simpl; set_solver. Qed.

Lemma read_body_raises fuel body total m i data :
  (∀ j chunk e, body j = BChunk chunk e → chunk ≠ []) → 1 ≤ Z.of_nat fuel → m - len data + 2 ≤ Z.of_nat fuel →
  raises inner_exn (read_body fuel body total m i data).
Proof.
  intros Hne H1 H2. pose proof (read_body_ends fuel body total m i data Hne H1 H2) as He.
  revert He. clear. revert i data. induction fuel as [|fuel IH]; intros i data; cbn [read_body]; [done|].
  repeat case_match; intros He; try done; simpl; try set_solver.
Qed.

Lemma rejection_raises rs total :
  (∀ j chunk e, rs_body rs j = BChunk chunk e → chunk ≠ []) → raises inner_exn (rejection_diagnostics rs total).
Proof.
  intros Hne. unfold rejection_diagnostics.
  assert (read_rejection 4098 (rs_body rs) total 0 [] ≠ Err Unfinished) as He
    by (apply read_rejection_ends; [done|lia|unfold len; simpl length; lia]).
  assert (∀ fuel i data x, read_rejection fuel (rs_body rs) total i data = Err x → x = Unfinished ∨ inner_exn x) as Hx.
  { induction fuel as [|fuel IH]; intros i data x E; cbn [read_rejection] in E; [left; by simplify_eq|].
    repeat case_match; simplify_eq; eauto; by right. }
  destruct (read_rejection _ _ _ _ _) as [[d|]|x] eqn:E; [by destruct (json_loads _ _)|done|].
  destruct (Hx _ _ _ _ E) as [->|]; done.
Qed.

Lemma received_raises rs total m :
  (∀ j chunk e, rs_body rs j = BChunk chunk e → chunk ≠ []) → raises inner_exn (received rs total m).
Proof.
  intros Hne. unfold received, fail_with. cbv zeta.
  repeat match goal with |- context [if ?b then _ else _] => destruct b end; simpl; try set_solver.
  - apply raises_bind; [by apply rejection_raises|]. intros d _. simpl. set_solver.
  - apply (error_for_status_known (Some (rs_status rs))).
  - apply raises_bind; [apply read_body_raises; [done|lia|unfold len; simpl; lia]|].
    intros d _. by destruct (json_loads unique d).
Qed.

Lemma classified_raises {A} (r : result call_exn A) : raises inner_exn r →
  raises (λ x, outer_exn x ∧ x ≠ CallValue) (classified r).
Proof. destruct r as [a|[e|t| |]]; simpl; try done; [destruct t; simpl; intuition set_solver|intuition set_solver]. Qed.

Lemma request_json_raises rq total m : chunks_nonempty →
  raises (λ x, outer_exn x ∧ x ≠ CallValue) (request_json rq total m).
Proof.
  intros Hne. unfold request_json. destruct (post rq) as [rs|t] eqn:E; [|by apply classified_raises].
  assert (raises inner_exn (received rs total m)) as Hr by (apply received_raises; intros; by eapply Hne).
  destruct (rs_close rs) as [[]|]; try (by apply classified_raises);
    try (by destruct (received rs total m); [simpl; split; [set_solver|done]|apply classified_raises]).
  simpl. auto.
Qed.

Lemma result_text_raises c f rq u r : raises (λ x, outer_exn x ∧
  (x = CallValue → ∃ t, c = JStr t ∧ utf8_encode t = None)) (result_text c f rq u r).
Proof.
  unfold result_text, fail_with.
  destruct c as [| | | |t| |]; try (simpl; split; [set_solver|done]).
  - destruct (truncated f); [|simpl; split; [set_solver|done]].
    destruct f; simpl; repeat case_match; simpl; split; try done; set_solver.
  - destruct (utf8_encode t) as [bs|] eqn:E; [|simpl; eauto].
    destruct f; simpl; repeat case_match; simpl; try done; split; try done; set_solver.
Qed.

(** The answer of a call: its parsed body, and the text in it. *)
Definition reply_content (p : provider) (value : json) : option text :=
  match p with
  | openai _ => match completion_content value with Ok t => Some t | Err _ => None end
  | ollama _ => match get_field "content" (get_field "message" value) with JStr t => Some t | _ => None end
  end.

(** What a call that raises says. *)
Definition call_failure (p : provider) (rq : GenerationRequest) (x : call_exn) : Prop :=
  outer_exn x ∧
  (x = CallValue → ∃ sent value t, request_json sent (gr_total_seconds rq) (envelope rq) = Ok value ∧
     reply_content p value = Some t ∧ utf8_encode t = None).

Lemma failure_inference p rq e : ie_category e ∈ CATEGORIES → call_failure p rq (CallInference e).
Proof. by split. Qed.

Lemma protocol_failure p rq {A} : raises (call_failure p rq) (fail_with (A := A) InferenceResponseError).
Proof. apply failure_inference. simpl. set_solver. Qed.

Lemma reraised_raises p rq r : raises (call_failure p rq) r.1 → raises (call_failure p rq) (reraised rq r).
Proof. destruct r as [[g|[e| | |]] u]; simpl; auto. intros [He _]. by apply failure_inference. Qed.

Lemma validate_raises p rq : raises (call_failure p rq) (validate_request rq).
Proof. unfold validate_request. case_match; simpl; [done|]. apply failure_inference. simpl. set_solver. Qed.

Lemma role_model_raises p rq ms role : raises (call_failure p rq) (role_model ms role).
Proof. unfold role_model, of_exn. case_match; [done|]. apply protocol_failure. Qed.

Lemma request_failure p rq sent : chunks_nonempty →
  raises (call_failure p rq) (request_json sent (gr_total_seconds rq) (envelope rq)).
Proof.
  intros Hne. pose proof (request_json_raises sent (gr_total_seconds rq) (envelope rq) Hne) as Hr.
  destruct (request_json _ _ _) as [|x]; [done|]. destruct Hr. by split.
Qed.

Lemma openai_answer_raises self rq sent model value u r :
  request_json sent (gr_total_seconds rq) (envelope rq) = Ok value →
  raises (call_failure (openai self) rq) (openai_answer rq model value u r).
Proof.
  intros Er. unfold openai_answer. apply raises_bind; [case_match; [apply protocol_failure|done]|]. intros [] _.
  apply raises_bind.
  { case_match; [done|]. apply raises_bind; [|done].
    unfold completion_content. repeat case_match; try done; apply protocol_failure. }
  intros c Hc. apply raises_bind; [destruct (served_model _ _ _); [done|apply protocol_failure]|]. intros s _.
  apply raises_bind; [|done].
  pose proof (result_text_raises c (default JNull (field "finish_reason" (first_choice value))) rq u r) as Hr.
  destruct (result_text _ _ _ _ _) as [|x]; [done|]. destruct Hr as [Ho Hv]. split; [done|]. intros Hx.
  destruct (Hv Hx) as (t & -> & Et). exists sent, value, t. split_and!; try done. simpl.
  case_match; [done|]. destruct (completion_content value); simplify_eq/=. done.
Qed.

Lemma openai_raises self rq : chunks_nonempty → raises (call_failure (openai self) rq) (openai_execute limit self rq).
Proof.
  intros Hne. unfold openai_execute. apply raises_bind; [apply validate_raises|]. intros _ _.
  apply raises_bind.
  { unfold generation_schema_for_capability. repeat case_match; simplify_eq; try done;
      apply failure_inference; simpl; set_solver. }
  intros schema _. apply raises_bind; [apply role_model_raises|]. intros model _. apply reraised_raises.
  unfold openai_body. pose proof (request_failure (openai self) rq (openai_request self rq model schema) Hne) as Hr.
  destruct (request_json _ _ _) as [value|x] eqn:Er; [|done].
  destruct (checked_usage _) as [r|]; cbn [fst]; [by eapply openai_answer_raises|apply protocol_failure].
Qed.

Lemma ollama_raises self rq : chunks_nonempty → raises (call_failure (ollama self) rq) (ollama_execute self rq).
Proof.
  intros Hne. unfold ollama_execute. apply raises_bind; [apply validate_raises|]. intros _ _.
  do 2 (apply raises_bind; [case_match; [apply failure_inference; simpl; set_solver|done]|]; intros _ _).
  apply raises_bind; [unfold ollama_model; repeat case_match; try done; apply role_model_raises|].
  intros model _. apply reraised_raises. unfold ollama_body.
  pose proof (request_failure (ollama self) rq (ollama_request self rq model) Hne) as Hr.
  destruct (request_json _ _ _) as [value|x] eqn:Er; [|done].
  destruct (get_field "message" value) as [| | | | | |m] eqn:Em; try apply protocol_failure.
  destruct (get_field "done" value) as [|[]| | | | |]; try apply protocol_failure.
  destruct (served_model _ _ _) as [served|]; [|apply protocol_failure].
  destruct (field "content" m) as [c|] eqn:Ec; [|apply protocol_failure]. cbn [fst]. apply raises_bind; [|done].
  pose proof (result_text_raises c (get_field "done_reason" value) rq (ollama_usage value) None) as Ht.
  destruct (result_text _ _ _ _ _) as [|x]; [done|]. destruct Ht as [Ho Hv]. split; [done|]. intros Hx.
  destruct (Hv Hx) as (t & -> & Et). exists (ollama_request self rq model), value, t. split_and!; try done.
  simpl. rewrite Em. simpl. by rewrite Ec.
Qed.

(** C39: a call of a model provider always ends, whatever the peer sends - a body without end, slow, broken
    or malformed - and what it raises is an [InferenceError] of a known category.  The only other
    exceptions are those that are no request errors of the HTTP library, and [UnicodeEncodeError]
    when the text in the answer has a lone surrogate. *)
Theorem provider_call_ends p rq : chunks_nonempty → raises (call_failure p rq) (provider_execute p rq).
Proof. intros Hne. destruct p; [by apply openai_raises|by apply ollama_raises]. Qed.

(** ** What a result is worth *)

Definition usage_consistent (u : InferenceUsage) : Prop :=
  (∀ z, prompt_tokens u = Some z ∨ completion_tokens u = Some z ∨ total_tokens u = Some z → 0 ≤ z) ∧
  (∀ a b n, prompt_tokens u = Some a → completion_tokens u = Some b → total_tokens u = Some n → n = a + b).

(** [value] is the parsed body of an accepted answer, of at most the envelope's bytes. *)
Definition answered (sent : HttpRequest) (rq : GenerationRequest) (value : json) : Prop :=
  ∃ rs data, post sent = Ok rs ∧ rs_status rs < 300 ∧ rs_close rs = None ∧ len data ≤ envelope rq ∧
    json_loads unique data = Ok value.

Lemma received_Ok rs total m v : 0 ≤ m → received rs total m = Ok v →
  rs_status rs < 300 ∧ ∃ data, len data ≤ m ∧ json_loads unique data = Ok v.
Proof.
  intros Hm. unfold received, fail_with. cbv zeta. destruct ((300 <=? rs_status rs) && _) eqn:E1; [done|].
  destruct (Z.leb_spec 400 (rs_status rs)).
  - repeat match goal with |- context [if ?b then _ else _] => destruct b end; try done.
    by intros (d & _ & ?)%result_bind_Ok.
  - intros (data & Hd%read_body_bound & E)%result_bind_Ok; [|unfold len; simpl; lia]. split; [lia|].
    exists data. split; [done|]. destruct (json_loads unique data); congruence.
Qed.

Lemma request_json_Ok sent rq v : 0 ≤ envelope rq →
  request_json sent (gr_total_seconds rq) (envelope rq) = Ok v → answered sent rq v.
Proof.
  intros Hm. unfold request_json. destruct (post sent) as [rs|t] eqn:E; [|by destruct t].
  assert (classified (received rs (gr_total_seconds rq) (envelope rq)) = Ok v →
          received rs (gr_total_seconds rq) (envelope rq) = Ok v) as Hc.
  { destruct (received _ _ _) as [|[e|t| |]]; try done. by destruct t. }
  destruct (rs_close rs) as [t|] eqn:Ec.
  - destruct t; try done; destruct (received _ _ _) as [|[e|t| |]]; try done; by destruct t.
  - intros [Hs (data & Hl & Hj)]%Hc%received_Ok; [|done]. by exists rs, data.
Qed.

Lemma validate_request_Ok rq u : validate_request rq = Ok u →
  0 ≤ envelope rq ∧ 0 < gr_output_tokens rq ≤ max_output_tokens (gr_capability rq) ∧
  0 < gr_response_bytes rq ≤ 4000000 ∧ (0 < gr_total_seconds rq <= inject_Z 600)%Q.
Proof.
  unfold validate_request. destruct (_ && _) eqn:E; [|done]. intros _. rewrite !andb_true_iff in E.
  destruct E as [[[[[[He Ho1%Z.ltb_lt] Ho2%Z.leb_le] Hr1%Z.ltb_lt] Hr2%Z.leb_le] Ht1%negb_true_iff] Ht2%Qle_bool_iff].
  split_and!; try done.
  - unfold envelope. destruct (gr_max_envelope rq); simpl; lia.
  - apply Qnot_le_lt. intros F%Qle_bool_iff. congruence.
Qed.

Lemma result_text_Ok c f rq u r t : result_text c f rq u r = Ok t →
  c = JStr t ∧ (∃ bs, utf8_encode t = Some bs ∧ len bs ≤ gr_response_bytes rq) ∧
  (finish_text f = None ∨ finish_text f = Some (cps "stop")).
Proof.
  unfold result_text, fail_with. intros (size & Es & E)%result_bind_Ok.
  apply result_bind_Ok in E as ([] & Ef & E). destruct (_ || _) eqn:Eo; [done|].
  apply orb_false_iff in Eo as [Eo Et]. destruct c as [| | | |t'| |]; try done.
  { rewrite Et in Es. done. }
  destruct (utf8_encode t') as [bs|] eqn:Eb; [|done]. injection Es as <-. apply Z.ltb_ge in Eo.
  destruct f as [| | | |s| |]; try done; [|case_bool_decide as Hs; [|done]]; injection E as <-; split_and!; eauto.
  subst s. by right.
Qed.

Lemma served_model_ok v m c s : served_model v m c = Some s → s ∈ m :: response_models c.
Proof.
  unfold served_model. destruct v as [| | | |t| |]; try done; [intros [= <-]; set_solver|].
  destruct t; case_bool_decide; intros [= <-]; set_solver.
Qed.

Lemma count_value_ok v z : count_value v = Some z → v = JInt z ∧ 0 ≤ z.
Proof. unfold count_value. destruct v; try done. destruct (Z.leb_spec 0 z0); [|done]. by intros [= <-]. Qed.

Lemma openai_usage_consistent value r u :
  checked_usage (get_field "usage" value) = Some r → openai_usage value = Some u → usage_consistent u.
Proof.
  unfold checked_usage, openai_usage. destruct (get_field "usage" value) as [| | | | | |o]; try done. cbv zeta.
  set (p := default JNull (field "prompt_tokens" o)). set (c := default JNull (field "completion_tokens" o)).
  set (t := default JNull (field "total_tokens" o)). destruct (_ && _) eqn:E; [|done]. intros _.
  apply andb_true_iff in E as [_ Hsum]. intros Hu.
  assert (u = {| prompt_tokens := count_value p; completion_tokens := count_value c; total_tokens := count_value t |}) as ->
    by (destruct (count_value p), (count_value c), (count_value t); congruence).
  split; cbn [prompt_tokens completion_tokens total_tokens].
  - intros z [E|[E|E]]; by apply count_value_ok in E as [_ ?].
  - intros a b n [Ea _]%count_value_ok [Eb _]%count_value_ok [En _]%count_value_ok.
    rewrite Ea, Eb, En in Hsum. by apply Z.eqb_eq in Hsum.
Qed.

Lemma ollama_usage_consistent value u : ollama_usage value = Some u → usage_consistent u.
Proof.
  unfold ollama_usage. destruct (count_value (get_field "prompt_eval_count" value)) as [p|] eqn:Ep;
    destruct (count_value (get_field "eval_count" value)) as [c|] eqn:Ec; intros [= <-];
    repeat match goal with E : count_value _ = Some _ |- _ => apply count_value_ok in E as [_ E] end;
    split; simpl; naive_solver lia.
Qed.

(** What a caller may rely on. *)
Definition trusted (p : provider) (rq : GenerationRequest) (g : GenerationResult) : Prop :=
  ∃ model sent value,
    provider_model p (gr_role rq) = Ok model ∧ answered sent rq value ∧ reply_content p value = Some (gr_text g) ∧
    (∃ bs, utf8_encode (gr_text g) = Some bs ∧ len bs ≤ gr_response_bytes rq) ∧
    (gr_finish g = None ∨ gr_finish g = Some (cps "stop")) ∧
    (∃ s, gr_served_model g = Some s ∧ s ∈ model :: response_models (gr_capability rq)) ∧
    (∀ u, gr_usage g = Some u → usage_consistent u).

Lemma reraised_Ok rq r g : reraised rq r = Ok g → r.1 = Ok g.
Proof. destruct r as [[x|[e|t| |]] u]; done. Qed.

Lemma of_exn_Ok {A} e (o : option A) a : of_exn e o = Ok a ↔ o = Some a.
Proof. destruct o; simpl; naive_solver. Qed.

Lemma openai_trusted self rq g : openai_execute limit self rq = Ok g → trusted (openai self) rq g.
Proof.
  unfold openai_execute. intros (u0 & Hv%validate_request_Ok & E)%result_bind_Ok.
  apply result_bind_Ok in E as (schema & _ & E). apply result_bind_Ok in E as (model & Hm & E).
  apply reraised_Ok in E. unfold openai_body in E.
  destruct (request_json _ _ _) as [value|x] eqn:Er; [|done]. apply request_json_Ok in Er; [|apply Hv].
  destruct (checked_usage _) as [r|] eqn:Eu; [|done]. cbn [fst] in E. unfold openai_answer in E.
  apply result_bind_Ok in E as (u1 & _ & E). apply result_bind_Ok in E as (c & Hc & E).
  apply result_bind_Ok in E as (s & Hs%of_exn_Ok%served_model_ok & E). apply result_bind_Ok in E as (t & Ht & [= <-]).
  apply result_text_Ok in Ht as (-> & Hb & Hf).
  exists model, (openai_request self rq model schema), value. cbn [gr_text gr_finish gr_served_model gr_usage].
  split_and!; try done; [|eauto|intros u; by eapply openai_usage_consistent].
  simpl. destruct (_ && _ && _) in Hc; [done|]. apply result_bind_Ok in Hc as (t' & -> & [= ->]). done.
Qed.

Lemma ollama_trusted self rq g : ollama_execute self rq = Ok g → trusted (ollama self) rq g.
Proof.
  unfold ollama_execute. intros (u0 & Hv%validate_request_Ok & E)%result_bind_Ok.
  apply result_bind_Ok in E as (u1 & _ & E). apply result_bind_Ok in E as (u2 & _ & E).
  apply result_bind_Ok in E as (model & Hm & E).
  apply reraised_Ok in E. unfold ollama_body in E.
  destruct (request_json _ _ _) as [value|x] eqn:Er; [|done]. apply request_json_Ok in Er; [|apply Hv].
  destruct (get_field "message" value) as [| | | | | |m] eqn:Em; try done.
  destruct (get_field "done" value) as [|[]| | | | |]; try done.
  destruct (served_model _ _ _) as [served|] eqn:Es; [|done]. apply served_model_ok in Es.
  destruct (field "content" m) as [c|] eqn:Ec; [|done]. cbn [fst] in E.
  apply result_bind_Ok in E as (t & (-> & Hb & Hf)%result_text_Ok & [= <-]).
  exists model, (ollama_request self rq model), value. cbn [gr_text gr_finish gr_served_model gr_usage].
  split_and!; try done; [|eauto|intros u; by eapply ollama_usage_consistent].
  simpl. rewrite Em. simpl. by rewrite Ec.
Qed.

(** C38: what a bounded call of a model provider returns is the text of one accepted answer - a status below
    300, a body of at most the configured envelope, parsed without duplicate keys, on a connection that
    closed -, it fits the response bound in UTF-8, it was not truncated, it comes from the configured
    model or one the capability names, and its usage is consistent; everything else is an error. *)
Theorem provider_reply_trusted p rq g : provider_execute p rq = Ok g → trusted p rq g.
Proof. destruct p; [apply openai_trusted|apply ollama_trusted]. Qed.

End Clients.

(** ** Concrete peers *)

Definition sample_reply : text := cps "the answer".
Definition sample_value : json :=
  JObj [("model", jstr "m-2024"); ("usage", JObj [("prompt_tokens", JInt 90); ("completion_tokens", JInt 20);
                                                  ("total_tokens", JInt 110)]);
        ("choices", JArr [JObj [("message", JObj [("content", JStr sample_reply)]); ("finish_reason", jstr "stop")]])].

(** A decoder that knows one body. *)
Definition one_body : Decoder := {|
  json_loads hook data := if bool_decide (data = cps "body") then Ok sample_value else Err malformed;
  stage_result_validate v := Err "none" |}.

(** A peer that sends a body byte by byte, and one that never stops. *)
Definition bytes_then_end (t : text) (i : nat) : body_event :=
  match t !! i with Some b => BChunk [b] (1 # 10) | None => BEnd (2 # 10) end.

Definition peer (status : Z) (body : nat → body_event) : HttpClient := {|
  post rq := Ok {| rs_status := status; rs_retry_after := None; rs_body := body; rs_close := None |};
  retry_seconds t := None |}.

Definition good_peer : HttpClient := peer 200 (bytes_then_end (cps "body")).
Definition endless_peer : HttpClient := peer 200 (λ _, BChunk [48%N] 0).

Definition sample_openai : provider := openai {|
  oa_url := cps "https://model/chat/completions"; oa_headers := []; oa_models := [("summarization", cps "m")];
  oa_connect := inject_Z 5; oa_read := inject_Z 120 |}.

Definition sample_capabilities : CapabilityProfile := {|
  cap_version := "c/1"; context_tokens := 100000; max_output_tokens := 1000; overhead_tokens := 10;
  safety_tokens := 10; structured_output := so_json_object; output_parameter := op_max_tokens; streaming := true;
  usage_reporting := true; temperature := Some 0%Q; response_models := [cps "m-2024"]; reasoning_effort := None;
  schema_profile := None |}.

Definition sample_request : GenerationRequest := {|
  gr_system := cps "s"; gr_data := cps "d"; gr_role := "summarization"; gr_capability := sample_capabilities;
  gr_output_tokens := 50; gr_response_bytes := 100; gr_schema := JObj []; gr_total_seconds := inject_Z 60;
  gr_max_envelope := None |}.

Definition sample_outcome : GenerationResult := {|
  gr_text := sample_reply;
  gr_usage := Some {| prompt_tokens := Some 90; completion_tokens := Some 20; total_tokens := Some 110 |};
  gr_served_model := Some (cps "m-2024"); gr_finish := Some (cps "stop");
  gr_metadata := Some {| md_finish := jstr "stop"; md_prompt := JInt 90; md_completion := JInt 20; md_total := JInt 110;
                         md_reasoning := JNull; md_bytes := JInt 10; md_token_limit := JInt 50; md_byte_limit := JInt 100 |} |}.

Lemma provider_reply_trusted_witness : @trusted good_peer one_body sample_openai sample_request sample_outcome.
Proof. apply (@provider_reply_trusted good_peer one_body 100%nat). vm_compute. reflexivity. Defined.

(** The endless answer is cut off at the envelope of 8792 bytes. *)
Lemma provider_call_ends_witness :
  @chunks_nonempty endless_peer ∧
  @raises GenerationResult (@call_failure endless_peer one_body sample_openai sample_request)
    (@provider_execute endless_peer one_body 100 sample_openai sample_request).
Proof.
  assert (@chunks_nonempty endless_peer) as Hne by (intros rq rs i chunk e [= <-] [= <-]; done).
  split; [done|]. by apply (@provider_call_ends endless_peer one_body 100%nat).
Defined.

Example endless_answer :
  match @provider_execute endless_peer one_body 100 sample_openai sample_request with
  | Err (CallInference e) => ie_category e = "output_limit"
  | _ => False
  end.
Proof. vm_compute. reflexivity. Qed.
