(* ===== verification/DigestArtifacts.v ===== *)
(** * The final digest

    [make_digest] of [documents/digestion/validation.py]: the walk of the accepted claims
    from the root, the coverage of the eligible blocks, the status, and the assembled
    artifact. *)

From stdpp Require Import base tactics list strings option.
From Stdlib Require Import ZArith NArith QArith Lia.
From S2P Require Import Prelude Json Contracts JobModels DigestModels DigestPlanning DigestValidation.

Local Open Scope Z_scope.

Record Coverage := {
  cv_eligible : list uuid; analyzed : list uuid; cv_failed : list uuid; cv_skipped : list uuid;
  cv_unsupported : list uuid; included : list uuid; fraction : Q }.

Record Contradiction := { ct_subject : string; ct_affirmed : list uuid; ct_denied : list uuid }.

Record SectionSummary := { ss_unit : uuid; ss_stage : uuid; synthesis : text }.

Inductive DigestStatus := COMPLETE | PARTIAL | FAILED.
#[export] Instance DigestStatus_eq_dec : EqDecision DigestStatus.
Proof. solve_decision. Defined.

Record DigestArtifact := {
  da_version_id : uuid; da_extraction : ObjectRef; da_plan : ObjectRef; da_profile : digest;
  da_status : DigestStatus; executive_summary : text; da_root : uuid; sections : list SectionSummary;
  findings : list Claim; synthesis_claims : list Claim; da_qualifications : list Qualification;
  contradictions : list Contradiction; da_open_questions : list text; da_coverage : Coverage;
  da_limitations : list text; da_evidence : list EvidenceRef; da_checkpoints : list ObjectRef }.

(** ** Dictionaries of stages *)

(** A dict: an insertion keeps the position of an existing key. *)
Fixpoint dict_set {K V} `{EqDecision K} (k : K) (v : V) (d : list (K * V)) : list (K * V) :=
  match d with
  | [] => [(k, v)]
  | (k', v') :: d' => if bool_decide (k' = k) then (k, v) :: d' else (k', v') :: dict_set k v d'
  end.

Definition dict_of {K V} `{EqDecision K} (l : list (K * V)) : list (K * V) :=
  foldl (λ d kv, dict_set kv.1 kv.2 d) [] l.

(** [claims]: the accepted claims of every checkpoint by stage and claim identifier. *)
Definition claim_graph (cps : list (uuid * Checkpoint)) : list (ClaimLink * Claim) :=
  dict_of (cps ≫= λ kc,
    (λ c, ({| link_stage := kc.1; link_claim := claim_id c |}, c)) <$> claims (cp_result kc.2)).

(** The checkpoint of a stage; [set(checkpoints) == expected] makes it total. *)
Definition result_of (cps : list (uuid * Checkpoint)) (k : uuid) : option StageResult :=
  cp_result <$> dict_get k cps.

(** [while todo]: a key is expanded once; [todo.pop()] takes the last entry. *)
Fixpoint reach (fuel : nat) (graph : list (ClaimLink * Claim)) (seen todo : list ClaimLink)
    : result digest_exn (list ClaimLink) :=
  match todo with
  | [] => Ok seen
  | key :: rest =>
      match fuel with
      | O => Err Stuck
      | S fuel' =>
          if bool_decide (key ∈ seen) then reach fuel' graph seen rest
          else match link_get key graph with
               | None => Err (plain_error "evidence_validation_failed")
               | Some c => reach fuel' graph (key :: seen) (rev (c_lineage c) ++ rest)
               end
      end
  end.

(** Every expansion pushes the lineage of one accepted claim, once. *)
Definition reach_fuel (graph : list (ClaimLink * Claim)) (todo : list ClaimLink) : nat :=
  S (length todo + length (graph ≫= λ kc, c_lineage kc.2)).

(** ** Coverage *)

(** [full]: the sorted intervals cover the block's span without a gap. *)
Fixpoint sweep (cursor : Z) (l : list (Z * Z)) : option Z :=
  match l with
  | [] => Some cursor
  | (start, stop) :: l' => if cursor <? start then None else sweep (Z.max cursor stop) l'
  end.

Definition interval_le (x y : Z * Z) : bool := (x.1 <? y.1) || ((x.1 =? y.1) && (x.2 <=? y.2)).

(** [index.blocks[block_id]]; a key that is no block raises. *)
Definition full (i : EvidenceIndex) (parts : list (uuid * (Z * Z))) (k : uuid) : result digest_exn bool :=
  match dict_get k (idx_blocks i) with
  | None => Err OtherError
  | Some (_, b) =>
      let own := snd <$> List.filter (λ kp : uuid * (Z * Z), bool_decide (kp.1 = k)) parts in
      Ok (match sweep (sp_start (blk_span b)) (order_by interval_le own) with
          | Some cursor => (cursor =? sp_end (blk_span b)) && negb (bool_decide (own = []))
          | None => false
          end)
  end.

Fixpoint select_full (i : EvidenceIndex) (parts : list (uuid * (Z * Z))) (ks : list uuid)
    : result digest_exn (list uuid) :=
  match ks with
  | [] => Ok []
  | k :: ks' =>
      f ← full i parts k;
      l ← select_full i parts ks';
      Ok (if f : bool then k :: l else l)
  end.

(** [a / b] of integers with [0 <= a <= b], [0 < b]: the nearest binary64, ties to even. *)
Definition float_div (a b : Z) : Q :=
  if a =? 0 then 0 else
  let e0 := Z.log2 a - Z.log2 b in
  let smaller := if 0 <=? e0 then a <? b * 2 ^ e0 else a * 2 ^ (- e0) <? b in
  let e := if smaller then e0 - 1 else e0 in
  (* the quotient is in [2^e, 2^(e+1)), and e <= 0 *)
  let m := round_half_even (inject_Z (a * 2 ^ (52 - e)) / inject_Z b) in
  inject_Z m / inject_Z (2 ^ (52 - e)).

(** [index.resolve(piece.evidence)] for every piece. *)
Fixpoint resolve_all (i : EvidenceIndex) (ps : list SourcePiece) : result digest_exn unit :=
  match ps with
  | [] => Ok tt
  | p :: ps' =>
      match index_resolve i (evidence p) with
      | Ok _ => resolve_all i ps'
      | Err _ => Err (evidence_error "other_evidence_validation")
      end
  end.

Definition interval (p : SourcePiece) : uuid * (Z * Z) :=
  (ev_block_id (evidence p), (sp_start (ev_span (evidence p)), sp_end (ev_span (evidence p)))).

(** [for chunk in plan.chunks]: the analysed chunks in order. *)
Fixpoint analysed_chunks (i : EvidenceIndex) (cps : list (uuid * Checkpoint)) (seen : list ClaimLink)
    (cs : list AnalysisChunk) : result digest_exn (list (AnalysisChunk * StageResult)) :=
  match cs with
  | [] => Ok []
  | c :: cs' =>
      match result_of cps (chunk_id c) with
      | None => Err OtherError
      | Some r =>
          if bool_decide (sr_outcome r = unavailable) then analysed_chunks i cps seen cs'
          else
            _ ← check (forallb (λ cl, bool_decide ({| link_stage := chunk_id c; link_claim := claim_id cl |} ∈ seen))
                         (claims r)) (plain_error "coverage_failed");
            _ ← resolve_all i (pieces c);
            l ← analysed_chunks i cps seen cs';
            Ok ((c, r) :: l)
      end
  end.

Section Digest.
Context `{Runtime}.

(** [subjects[claim.subject][claim.stance].append(claim.claim_id)] *)
Fixpoint take_side (s : string) (aff : bool) (k : uuid) (d : list (string * (list uuid * list uuid)))
    : list (string * (list uuid * list uuid)) :=
  match d with
  | [] => [(s, if aff then ([k], []) else ([], [k]))]
  | (s', (x, y)) :: d' =>
      if bool_decide (s' = s) then (s', if aff then (x ++ [k], y) else (x, y ++ [k])) :: d'
      else (s', (x, y)) :: take_side s aff k d'
  end.

Definition find_contradictions (cs : list Claim) : list Contradiction :=
  let subjects := foldl (λ d c, match side c with
                                | Some (s, aff) => take_side s aff (claim_id c) d
                                | None => d
                                end) [] cs in
  omap (λ kv : string * (list uuid * list uuid),
          if bool_decide (kv.2.1 = []) || bool_decide (kv.2.2 = []) then None
          else Some {| ct_subject := kv.1; ct_affirmed := kv.2.1; ct_denied := kv.2.2 |})
       (sorted_items subjects).

(** [sorted(set of texts)]: code point order. *)
Fixpoint text_le (a b : text) : bool :=
  match a, b with
  | [], _ => true
  | _ :: _, [] => false
  | x :: a', y :: b' => (x <? y)%N || ((x =? y)%N && text_le a' b')
  end.

Definition sorted_texts (l : list text) : list text := order_by text_le (remove_dups l).

Definition status_of (p : DigestionProfile) (complete : bool) (inc failed_ : list uuid) (f : Q) : DigestStatus :=
  let permitted := allow_partial p && negb (bool_decide (inc = [])) && Qle_bool (minimum_coverage p) f
                   && (len failed_ <=? max_failed_units p) in
  if negb (Qle_bool (minimum_coverage p) f) then FAILED
  else if complete then COMPLETE else if permitted then PARTIAL else FAILED.

Definition make_coverage (pl : Plan) (an inc : list uuid) : Coverage :=
  let denominator := len (eligible pl) + len (unsupported_ids pl) in
  {| cv_eligible := eligible pl; analyzed := an;
     cv_failed := List.filter (λ k, negb (bool_decide (k ∈ an))) (eligible pl);
     cv_skipped := skipped pl; cv_unsupported := unsupported_ids pl; included := inc;
     fraction := if denominator =? 0 then 0 else float_div (len inc) denominator |}.

Definition is_complete (pl : Plan) (c : Coverage) : bool :=
  bool_decide (cv_failed c = []) && bool_decide (unsupported_ids pl = [])
  && (len (included c) =? len (eligible pl)).

Definition expected_stages (pl : Plan) : list uuid :=
  (chunk_id <$> chunks pl) ++ (rn_stage_id <$> reducers pl).

(** The sections with a reducer whose result has claims: the reducer's first claim. *)
Definition section_summaries (pl : Plan) (cps : list (uuid * Checkpoint)) : list SectionSummary :=
  let nodes := (λ n, (rn_parent n, rn_stage_id n)) <$> reducers pl in
  omap (λ u,
    if bool_decide (su_kind u ∈ [k_section; k_subsection]) then
      k ← dict_get (structural_unit_id u) nodes;
      r ← result_of cps k;
      c ← head (claims r);
      Some {| ss_unit := structural_unit_id u; ss_stage := k; synthesis := c_text c |}
    else None) (sm_units (structure pl)).

Definition make_digest (pl : Plan) (plan_ref : ObjectRef) (cps : list (uuid * Checkpoint))
    (refs : list (uuid * ObjectRef)) (i : EvidenceIndex) : result digest_exn DigestArtifact :=
  _ ← check (same_set cps.*1 (expected_stages pl) && same_set refs.*1 (expected_stages pl))
        (plain_error "coverage_failed");
  match result_of cps (root_id pl) with
  | None => Err OtherError
  | Some root =>
      let graph := claim_graph cps in
      let todo := rev ((λ c, {| link_stage := root_id pl; link_claim := claim_id c |}) <$> claims root) in
      seen ← reach (reach_fuel graph todo) graph [] todo;
      done_chunks ← analysed_chunks i cps seen (chunks pl);
      let found := done_chunks ≫= λ cr, claims cr.2 in
      let used_pieces := done_chunks ≫= λ cr, pieces cr.1 in
      let parts := interval <$> used_pieces in
      an ← select_full i parts (eligible pl);
      inc ← select_full i parts (eligible pl);
      let cov := make_coverage pl an inc in
      let complete := is_complete pl cov in
      let cons := find_contradictions found in
      let results := (λ kc : uuid * Checkpoint, cp_result kc.2) <$> cps in
      let lims := (results ≫= limitations)
        ++ (if complete then []
            else [Json.cps "Incomplete source coverage; this digest is not complete publishable knowledge."]) in
      let qs := (results ≫= open_questions)
        ++ (if bool_decide (unsupported_ids pl = []) then []
            else [Json.cps "Content unavailable for unsupported or unextractable source units."])
        ++ (if bool_decide (length cons = 0%nat) then []
            else [Json.cps "Conflicting source propositions remain unresolved."]) in
      Ok {| da_version_id := sm_version_id (structure pl); da_extraction := sm_extraction (structure pl);
            da_plan := plan_ref; da_profile := digestion_digest (pl_profile pl);
            da_status := status_of (pl_profile pl) complete inc (cv_failed cov) (fraction cov);
            executive_summary := match claims root with
                                 | c :: _ => c_text c
                                 | [] => Json.cps "No supported root findings are available."
                                 end;
            da_root := root_id pl; sections := section_summaries pl cps; findings := found;
            synthesis_claims := claims root;
            da_qualifications := List.filter (λ kc : ClaimLink * Claim, bool_decide (kc.1 ∈ seen)) graph
                                   ≫= λ kc, qualifications kc.2;
            contradictions := cons; da_open_questions := sorted_texts qs; da_coverage := cov;
            da_limitations := sorted_texts lims; da_evidence := (dict_of ((λ p, (evidence_id p, evidence p)) <$> used_pieces)).*2;
            da_checkpoints := omap (λ k, dict_get k refs) cps.*1 |}
  end.

End Digest.
