(* ===== verification/DigestFlow.v ===== *)
(** * Accepting stage results and finalizing a digestion

    [DigestionHandler] of [documents/digestion/workflow.py]: the request of a stage, the
    revalidation of every accepted checkpoint in topological order, and the digest step. *)

From stdpp Require Import base tactics list strings option.
From Stdlib Require Import ZArith NArith QArith Lia.
From S2P Require Import Prelude Json Contracts JobModels DigestModels DigestPlanning DigestValidation DigestArtifacts.

Local Open Scope Z_scope.

#[export] Instance InheritedSummary_eq_dec : EqDecision InheritedSummary.
Proof. solve_decision. Defined.
#[export] Instance Proposition_eq_dec : EqDecision Proposition_.
Proof. solve_decision. Defined.

Definition incompatible : digest_exn := plain_error "incompatible_checkpoint".

(** [nodes]: the chunks, then the reducers, by stage. *)
Inductive node := node_chunk (c : AnalysisChunk) | node_reducer (n : ReductionNode).

Definition plan_nodes (pl : Plan) : list (uuid * node) :=
  ((λ c, (chunk_id c, node_chunk c)) <$> chunks pl)
  ++ ((λ n, (rn_stage_id n, node_reducer n)) <$> reducers pl).

Section Flow.
Context `{Runtime} `{Decoder}.

(** [ChildInput(artifact=refs[k], result=checkpoints[k].result, ...)] for each child. *)
Fixpoint child_inputs (cps : list (uuid * Checkpoint)) (refs : list (uuid * ObjectRef)) (ks : list uuid)
    : result digest_exn (list ChildInput) :=
  match ks with
  | [] => Ok []
  | k :: ks' =>
      match dict_get k refs, dict_get k cps with
      | Some ref, Some cp =>
          l ← child_inputs cps refs ks';
          Ok ({| ci_artifact := ref; ci_result := cp_result cp; ci_inherited := cp_inherited cp |} :: l)
      | _, _ => Err OtherError
      end
  end.

(** [DigestionHandler.request] *)
Definition stage_request (pl : Plan) (k : uuid) (cps : list (uuid * Checkpoint))
    (refs : list (uuid * ObjectRef)) : result digest_exn StageRequest :=
  match dict_get k (plan_nodes pl) with
  | None => Err incompatible
  | Some (node_chunk c) =>
      let r := {| rq_stage_id := k; rq_stage := analysis; rq_profile := pl_profile pl;
                  rq_path := ac_path c; source_data := pieces c; children := [] |} in
      _ ← material_boundary r; Ok r
  | Some (node_reducer n) =>
      l ← child_inputs cps refs (rn_children n);
      let r := {| rq_stage_id := k; rq_stage := reduction; rq_profile := pl_profile pl;
                  rq_path := rn_path n; source_data := []; children := l |} in
      _ ← material_boundary r; Ok r
  end.

Definition stage_parents (pl : Plan) (plan_ref : ObjectRef) (r : StageRequest) : list ObjectRef :=
  match rq_stage r with
  | analysis => [plan_ref; sm_extraction (structure pl)]
  | reduction => ci_artifact <$> children r
  end.

(** [tuple(ordered[c.result.stage_id] for c in request.children)] *)
Fixpoint checkpoints_of (cps : list (uuid * Checkpoint)) (cs : list ChildInput)
    : result digest_exn (list Checkpoint) :=
  match cs with
  | [] => Ok []
  | c :: cs' =>
      match dict_get (sr_stage_id (ci_result c)) cps with
      | None => Err OtherError
      | Some cp => l ← checkpoints_of cps cs'; Ok (cp :: l)
      end
  end.

(** One accepted checkpoint is revalidated against its request. *)
Definition accept (pl : Plan) (plan_ref : ObjectRef) (i : EvidenceIndex) (refs : list (uuid * ObjectRef))
    (ordered : list (uuid * Checkpoint)) (k : uuid) (cp : Checkpoint) : result digest_exn unit :=
  r ← stage_request pl k ordered refs;
  _ ← check (bool_decide (cp_parents cp = stage_parents pl plan_ref r)) incompatible;
  raw ← encode_result (cp_result cp);
  _ ← validate_result raw r i;
  cs ← checkpoints_of ordered (children r);
  check (bool_decide ((cp_inherited cp, propositions cp) = inherited_summary (cp_result cp) r cs)) incompatible.

(** The accepted graph in topological order: chunks, then reducers. *)
Fixpoint accept_all (pl : Plan) (plan_ref : ObjectRef) (i : EvidenceIndex) (refs : list (uuid * ObjectRef))
    (cps ordered : list (uuid * Checkpoint)) (ks : list uuid) : result digest_exn (list (uuid * Checkpoint)) :=
  match ks with
  | [] => Ok ordered
  | k :: ks' =>
      match dict_get k cps with
      | None => Err OtherError
      | Some cp =>
          _ ← accept pl plan_ref i refs ordered k cp;
          accept_all pl plan_ref i refs cps (dict_set k cp ordered) ks'
      end
  end.

(** The [digest] step, after the checkpoints were read and before its two objects are
    written. *)
Definition finalize (pl : Plan) (plan_ref : ObjectRef) (i : EvidenceIndex)
    (cps : list (uuid * Checkpoint)) (refs : list (uuid * ObjectRef)) : result digest_exn DigestArtifact :=
  ordered ← accept_all pl plan_ref i refs cps [] (expected_stages pl);
  d ← make_digest pl plan_ref ordered refs i;
  _ ← check (negb (bool_decide (da_status d = FAILED))) (plain_error "coverage_failed");
  Ok d.

(** The checkpoint of an analysis or reduction step, from the generated bytes. *)
Definition stage_checkpoint (pl : Plan) (plan_ref : ObjectRef) (plan_hash_ : digest) (i : EvidenceIndex)
    (refs : list (uuid * ObjectRef)) (cps : list (uuid * Checkpoint)) (k : uuid) (limit : Z) (raw : text)
    : result digest_exn Checkpoint :=
  r ← stage_request pl k cps refs;
  res ← validate_result raw r i;
  cs ← checkpoints_of cps (children r);
  let '(inh, props) := inherited_summary res r cs in
  let material := {| ci_artifact := {| ref_scope := ref_scope plan_ref; ref_kind := ref_kind plan_ref;
                       ref_object_id := ref_object_id plan_ref; ref_key := ref_key plan_ref;
                       ref_sha256 := ref_sha256 plan_ref; ref_byte_size := limit |};
                     ci_result := res; ci_inherited := inh |} in
  _ ← match managed_input_budget (pl_profile pl) with
      | None => Ok tt
      | Some b => check (child_contribution material <=? child_bytes b) limit_exceeded
      end;
  Ok {| plan_hash := plan_hash_; cp_parents := stage_parents pl plan_ref r; cp_result := res;
        cp_inherited := inh; propositions := props |}.

End Flow.
