(* ===== verification/DigestCoverage.v ===== *)
(** * Every accepted claim is reached, and the eligible blocks are covered

    Induction over the accepted graph, and the walk of [make_digest] on it.  When every chunk was
    analysed the tiles of each eligible block cover it without a gap; a block counted as covered has
    every character inside an analysed piece. *)

From stdpp Require Import base tactics list strings option sets.
From S2P Require Import Prelude Json Contracts ContractFacts JobModels.
From S2P Require Import DigestFlow.
From Stdlib Require Import ZArith NArith QArith Qround Lia.
From S2P Require Import DigestModels DigestPlanning DigestPlanFacts DigestPlanSource DigestPlanReduce DigestValidation DigestArtifacts.

Local Open Scope Z_scope.

(** ** Sets as lists *)

Lemma subset_iff l k : subset l k = true ↔ ∀ x, x ∈ l → x ∈ k.
Proof. unfold subset. rewrite forallb_elem. by setoid_rewrite bool_decide_eq_true. Qed.

Lemma same_set_iff {A} `{EqDecision A} (l k : list A) : same_set l k = true ↔ ∀ x, x ∈ l ↔ x ∈ k.
Proof.
  unfold same_set. rewrite andb_true_iff, !forallb_elem. setoid_rewrite bool_decide_eq_true. naive_solver.
Qed.

(** ** Dictionaries *)

Section Dicts.
Context {K V : Type} `{EqDecision K}.
Implicit Types d l : list (K * V).

(** The value of the last insertion of a key. *)
Definition last_value (k : K) l : option V :=
  snd <$> last_error (List.filter (λ kv : K * V, bool_decide (kv.1 = k)) l).

Lemma last_value_nil k : last_value k [] = None.
Proof. done. Qed.

Lemma last_value_snoc k l kv :
  last_value k (l ++ [kv]) = if bool_decide (kv.1 = k) then Some kv.2 else last_value k l.
Proof.
  unfold last_value. rewrite List.filter_app. simpl. case_bool_decide; [|by rewrite app_nil_r].
  by rewrite last_error_snoc.
Qed.

Lemma last_value_elem k l v : last_value k l = Some v → (k, v) ∈ l.
Proof.
  induction l as [|[k' v'] l IH] using rev_ind; [done|]. rewrite last_value_snoc. simpl.
  case_bool_decide as E; [intros [= ->]; subst; apply elem_of_app; right; by left|].
  intros Hv. apply elem_of_app. left. auto.
Qed.

Lemma last_value_Some k l : k ∈ l.*1 → is_Some (last_value k l).
Proof.
  induction l as [|[k' v'] l IH] using rev_ind; [by intros ?%not_elem_of_nil|]. rewrite last_value_snoc. simpl.
  rewrite fmap_app. case_bool_decide as E; [by eexists|]. intros [Hk|Hk]%elem_of_app; [auto|].
  apply list_elem_of_singleton in Hk. simpl in Hk. congruence.
Qed.

Lemma last_value_unique k v l : NoDup l.*1 → (k, v) ∈ l → last_value k l = Some v.
Proof.
  induction l as [|[k' v'] l IH] using rev_ind; [by intros _ ?%not_elem_of_nil|].
  rewrite fmap_app, last_value_snoc. simpl. intros (Hnd & Hk' & _)%NoDup_app Hin.
  apply elem_of_app in Hin as [Hin|Hin].
  - rewrite bool_decide_eq_false_2; [by apply IH|]. intros ->. apply (Hk' k); [|by left].
    apply list_elem_of_fmap. by exists (k, v).
  - apply list_elem_of_singleton in Hin as [= -> ->]. by rewrite bool_decide_eq_true_2.
Qed.

Lemma dict_set_keys k v d k' : k' ∈ (dict_set k v d).*1 ↔ k' = k ∨ k' ∈ d.*1.
Proof.
  induction d as [|[k1 v1] d IH]; csimpl; [set_solver|]. case_bool_decide; csimpl; [set_solver|].
  rewrite !elem_of_cons, IH. tauto.
Qed.

Lemma dict_set_NoDup k v d : NoDup d.*1 → NoDup (dict_set k v d).*1.
Proof.
  induction d as [|[k1 v1] d IH]; csimpl; intros Hnd; [apply NoDup_singleton|].
  apply NoDup_cons in Hnd as [Hk Hnd]. case_bool_decide as E; csimpl.
  - subst. by constructor.
  - constructor; [|auto]. rewrite dict_set_keys. naive_solver.
Qed.

Lemma dict_set_new k v d : k ∉ d.*1 → dict_set k v d = d ++ [(k, v)].
Proof.
  induction d as [|[k1 v1] d IH]; csimpl; intros Hk; [done|].
  rewrite bool_decide_eq_false_2 by set_solver. f_equal. apply IH. set_solver.
Qed.

Lemma dict_set_elem k v d k' v' :
  (k', v') ∈ dict_set k v d → (k' = k ∧ v' = v) ∨ (k', v') ∈ d.
Proof.
  induction d as [|[k1 v1] d IH]; csimpl; [set_solver|]. case_bool_decide; set_solver.
Qed.

Lemma dict_of_snoc l kv : dict_of (l ++ [kv]) = dict_set kv.1 kv.2 (dict_of l).
Proof. unfold dict_of. by rewrite foldl_app. Qed.

Lemma dict_of_keys l k : k ∈ (dict_of l).*1 ↔ k ∈ l.*1.
Proof.
  induction l as [|kv l IH] using rev_ind; [done|].
  rewrite dict_of_snoc, dict_set_keys, fmap_app, IH. set_solver.
Qed.

Lemma dict_of_elem l k v : (k, v) ∈ dict_of l → (k, v) ∈ l.
Proof.
  induction l as [|[k' v'] l IH] using rev_ind; [done|].
  rewrite dict_of_snoc. intros [[-> ->]|Hin]%dict_set_elem; set_solver.
Qed.

Lemma dict_of_NoDup l : NoDup (dict_of l).*1.
Proof.
  induction l as [|kv l IH] using rev_ind; [constructor|]. rewrite dict_of_snoc. by apply dict_set_NoDup.
Qed.

End Dicts.

Lemma link_get_last k l : link_get k l = last_value k l.
Proof. done. Qed.

(** ** Accepted results *)

Section Accepted.
Context `{Runtime} `{Decoder}.

Record claim_accepted (r : StageRequest) (c : Claim) : Prop := {
  ca_stage : originating_stage c = rq_stage_id r;
  ca_evidence : ∀ e, e ∈ evidence_ids c ++ contradicting c → e ∈ allowed r;
  ca_lineage : ∀ k, k ∈ c_lineage c → k ∈ (links r).*1;
  ca_fact : c_kind c = fact → has_source (links r) c = true ∧ c_status c = supported }.

Lemma check_references_Ok al ids : check_references al ids = Ok tt → ∀ e, e ∈ ids → e ∈ al.
Proof.
  unfold check_references. destruct (negb _); [done|]. intros E%check_Ok. by apply subset_iff.
Qed.

Lemma check_claim_Ok r pos ids c :
  check_claim r pos ids c = Ok tt → claim_accepted r c ∧ claim_id c ∉ ids.
Proof.
  unfold check_claim. cbv zeta. intros E.
  apply result_bind_Ok in E as ([] & Eid & E). apply result_bind_Ok in E as ([] & _ & E).
  apply result_bind_Ok in E as ([] & E1 & E). apply result_bind_Ok in E as ([] & E2 & E).
  apply result_bind_Ok in E as ([] & Hc & E). planned E.
  match type of Eid with (if ?b then _ else _) = _ => destruct b eqn:Eb; [done|] end.
  rewrite !orb_false_iff, !negb_false_iff, !bool_decide_eq_true, bool_decide_eq_false in Eb.
  destruct Eb as [[_ Hids] Hst].
  destruct (negb (bool_decide (NoDup (c_lineage c)))); [done|]. apply check_Ok in Hc.
  split; [|done]. split; [done| | |].
  - intros e [He|He]%elem_of_app; [by apply (check_references_Ok _ _ E1)|by apply (check_references_Ok _ _ E2)].
  - rewrite forallb_elem in Hc. intros k Hk. specialize (Hc k Hk). by apply bool_decide_eq_true in Hc.
  - intros Hf. rewrite Hf in Hc0. rewrite bool_decide_eq_true_2 in Hc0 by done. simpl in Hc0.
    apply negb_true_iff, orb_false_iff in Hc0 as [H1 H2]. rewrite !negb_false_iff, ?bool_decide_eq_true in *. done.
Qed.

Lemma check_claims_Ok r pos ids cs :
  check_claims r pos ids cs = Ok tt →
  Forall (claim_accepted r) cs ∧ NoDup (claim_id <$> cs) ∧ (∀ c, c ∈ cs → claim_id c ∉ ids).
Proof.
  revert pos ids. induction cs as [|c cs IH]; intros pos ids E; [split_and!; [done|constructor|set_solver]|].
  cbn [check_claims] in E. apply result_bind_Ok in E as ([] & E1 & E).
  apply check_claim_Ok in E1 as [Hc Hid]. apply IH in E as (Hcs & Hnd & Hids). split_and!.
  - by constructor.
  - csimpl. constructor; [|done]. intros (c' & E' & Hc')%list_elem_of_fmap. apply (Hids c' Hc'). rewrite <-E'. by left.
  - intros c' [->|Hc']%elem_of_cons; [done|]. specialize (Hids c' Hc'). set_solver.
Qed.

Lemma check_pieces_Ok i ps :
  check_pieces i ps = Ok tt → Forall (λ p, index_resolve i (evidence p) = Ok (pc_text p)) ps.
Proof.
  induction ps as [|p ps IH]; [constructor|]. cbn [check_pieces].
  destruct (index_resolve i (evidence p)) as [t|] eqn:Er; [|done]. intros E. planned E.
  apply bool_decide_eq_true in Hc. subst t. constructor; [done|by apply IH].
Qed.

(** The facts later steps use about an accepted result. *)
Record accepted (res : StageResult) (r : StageRequest) (i : EvidenceIndex) : Prop := {
  ac_id : sr_stage_id res = rq_stage_id r;
  ac_kind : sr_kind res = rq_stage r;
  ac_claims : Forall (claim_accepted r) (claims res);
  ac_distinct : NoDup (claim_id <$> claims res);
  ac_pieces : Forall (λ p, index_resolve i (evidence p) = Ok (pc_text p)) (source_data r);
  ac_unavailable : sr_outcome res = unavailable → rq_stage r = analysis ∧ claims res = [];
  ac_analysed : sr_outcome res = analyzed_outcome → rq_stage r = analysis →
    ∀ e, e ∈ evidence_id <$> source_data r → e ∈ used res;
  ac_linked : rq_stage r = reduction → ∀ k, k ∈ (links r).*1 → k ∈ linked res }.

Lemma check_binding_Ok res r :
  check_binding res r = Ok tt →
  sr_stage_id res = rq_stage_id r ∧ sr_kind res = rq_stage r ∧
  (sr_outcome res = unavailable → rq_stage r = analysis ∧ claims res = []).
Proof.
  unfold check_binding. cbv zeta. intros E. apply result_bind_Ok in E as ([] & E1 & E).
  apply result_bind_Ok in E as ([] & E2 & _).
  destruct (negb (bool_decide (sr_stage_id res = rq_stage_id r))) eqn:Eid; [done|].
  apply negb_false_iff, bool_decide_eq_true in Eid. apply check_Ok, bool_decide_eq_true in E1.
  split_and!; [done|done|]. intros Hu. rewrite Hu in E2.
  destruct (negb (bool_decide (rq_stage r = analysis))) eqn:Ea; [done|].
  destruct (negb (bool_decide (length (claims res) = 0%nat))) eqn:El; [done|].
  apply negb_false_iff, bool_decide_eq_true in Ea, El. split; [done|]. by apply nil_length_inv.
Qed.

Lemma check_result_Ok res r i : check_result res r i = Ok tt → accepted res r i.
Proof.
  unfold check_result. intros E. apply result_bind_Ok in E as (t & _ & E). planned E.
  apply result_bind_Ok in E as ([] & _ & E). apply result_bind_Ok in E as ([] & E1 & E).
  apply result_bind_Ok in E as ([] & E2 & E). apply result_bind_Ok in E as ([] & E3 & E). planned E.
  apply check_binding_Ok in E1 as (H1 & H2 & H3). apply check_claims_Ok in E3 as (H4 & H5 & _).
  apply check_pieces_Ok in E2. split; try done.
  - intros Ho Ha. rewrite Ho, Ha in Hc0. rewrite !bool_decide_eq_true_2 in Hc0 by done. simpl in Hc0.
    apply negb_true_iff, negb_false_iff in Hc0. rewrite same_set_iff in Hc0. naive_solver.
  - intros Hr. rewrite Hr in Hc1. rewrite bool_decide_eq_true_2 in Hc1 by done. simpl in Hc1.
    apply negb_true_iff, negb_false_iff in Hc1. rewrite same_set_iff in Hc1. naive_solver.
Qed.

Lemma validate_result_Ok raw r i res :
  validate_result raw r i = Ok res →
  is_Some (match check_request r with Ok s => Some s | Err _ => None end) ∧
  decode_result raw (response_byte_limit (rq_profile r)) = Ok res ∧ check_result res r i = Ok tt.
Proof.
  unfold validate_result. intros E. apply result_bind_Ok in E as (s & E1 & E).
  apply result_bind_Ok in E as (res' & E2 & E). apply result_bind_Ok in E as ([] & E3 & E).
  injection E as ->. rewrite E1. split_and!; [by eexists|done|done].
Qed.

End Accepted.

Section Flow.
Context `{Runtime} `{Decoder}.
Variables (pl : Plan) (plan_ref : ObjectRef) (i : EvidenceIndex) (refs : list (uuid * ObjectRef)).
Variable stored : list (uuid * Checkpoint).

(** Decoding the canonical bytes of a stored result gives the result. *)
Definition decodes (stored : list (uuid * Checkpoint)) : Prop :=
  ∀ k cp raw limit res, (k, cp) ∈ stored → encode_result (cp_result cp) = Ok raw →
    decode_result raw limit = Ok res → res = cp_result cp.

Hypothesis Hdec : decodes stored.

Lemma accept_Ok ordered k cp :
  (k, cp) ∈ stored → accept pl plan_ref i refs ordered k cp = Ok tt →
  ∃ r, stage_request pl k ordered refs = Ok r ∧ accepted (cp_result cp) r i.
Proof.
  intros Hin. unfold accept. intros E. apply result_bind_Ok in E as (r & Er & E). planned E.
  apply result_bind_Ok in E as (raw & Eraw & E). apply result_bind_Ok in E as (res & Ev & _).
  apply validate_result_Ok in Ev as (_ & Ed & Ec). rewrite (Hdec _ _ _ _ _ Hin Eraw Ed) in Ec.
  exists r. split; [done|by apply check_result_Ok].
Qed.

(** Induction along the order of acceptance. *)
Lemma accept_all_ind (P : uuid → Checkpoint → Prop) :
  (∀ ord k cp r, (∀ k' cp', (k', cp') ∈ ord → P k' cp') → stage_request pl k ord refs = Ok r →
     accepted (cp_result cp) r i → P k cp) →
  ∀ ks ord ord', (∀ k cp, (k, cp) ∈ ord → P k cp) →
    accept_all pl plan_ref i refs stored ord ks = Ok ord' → ∀ k cp, (k, cp) ∈ ord' → P k cp.
Proof.
  intros Hstep. induction ks as [|k ks IH]; intros ord ord' Hord E.
  { by injection E as <-. }
  cbn [accept_all] in E. destruct (dict_get k stored) as [cp|] eqn:Ek; [|done].
  apply result_bind_Ok in E as ([] & E1 & E). apply dict_get_elem in Ek.
  destruct (accept_Ok _ _ _ Ek E1) as (r & Er & Ha). eapply IH; [|exact E].
  intros k' cp' [[-> ->]|Hin]%dict_set_elem; [by eapply Hstep|by apply Hord].
Qed.

Lemma accept_all_keys ks ord ord' :
  NoDup (ord.*1 ++ ks) → accept_all pl plan_ref i refs stored ord ks = Ok ord' →
  ord'.*1 = ord.*1 ++ ks ∧ ∃ l, ord' = ord ++ l.
Proof.
  revert ord. induction ks as [|k ks IH]; intros ord Hnd E.
  { injection E as <-. split; [by rewrite app_nil_r|]. exists []. by rewrite app_nil_r. }
  cbn [accept_all] in E. destruct (dict_get k stored) as [cp|]; [|done].
  apply result_bind_Ok in E as ([] & _ & E).
  assert (k ∉ ord.*1) as Hk by (apply NoDup_app in Hnd as (_ & Hd & _); intros Hin; by apply (Hd k Hin); left).
  rewrite (dict_set_new k cp ord Hk) in E. apply IH in E as [E (l & ->)].
  - rewrite E, fmap_app, <-!app_assoc. split; [done|]. by exists ((k, cp) :: l).
  - by rewrite fmap_app, <-app_assoc.
Qed.

(** The final order contains the earlier ones, so every stage has its request there. *)
Lemma child_inputs_extend ord l ks ins :
  NoDup (ord ++ l).*1 → child_inputs ord refs ks = Ok ins → child_inputs (ord ++ l) refs ks = Ok ins.
Proof.
  intros Hnd. revert ins. induction ks as [|k ks IH]; intros ins E; [done|]. cbn [child_inputs] in *.
  destruct (dict_get k refs) as [ref|]; [|done]. destruct (dict_get k ord) as [cp|] eqn:Ek; [|done].
  rewrite (dict_get_unique k (ord ++ l) cp Hnd).
  - apply result_bind_Ok in E as (ins' & E1 & E). by rewrite (IH _ E1).
  - apply elem_of_app. left. by apply dict_get_elem.
Qed.

Lemma stage_request_extend ord l k r :
  NoDup (ord ++ l).*1 → stage_request pl k ord refs = Ok r → stage_request pl k (ord ++ l) refs = Ok r.
Proof.
  intros Hnd. unfold stage_request. destruct (dict_get k (plan_nodes pl)) as [[c|n]|]; try done.
  intros E. apply result_bind_Ok in E as (ins & E1 & E). by rewrite (child_inputs_extend _ _ _ _ Hnd E1).
Qed.

Lemma accept_all_requests ks ord ord' :
  NoDup (ord.*1 ++ ks) → accept_all pl plan_ref i refs stored ord ks = Ok ord' →
  (∀ k cp, (k, cp) ∈ ord → ∃ r, stage_request pl k ord refs = Ok r ∧ accepted (cp_result cp) r i) →
  ∀ k cp, (k, cp) ∈ ord' → ∃ r, stage_request pl k ord' refs = Ok r ∧ accepted (cp_result cp) r i.
Proof.
  revert ord. induction ks as [|k ks IH]; intros ord Hnd E Hord; [by injection E as <-|].
  cbn [accept_all] in E. destruct (dict_get k stored) as [cp|] eqn:Ek; [|done].
  apply result_bind_Ok in E as ([] & E1 & E). apply dict_get_elem in Ek.
  destruct (accept_Ok _ _ _ Ek E1) as (r & Er & Ha).
  assert (k ∉ ord.*1) as Hk by (apply NoDup_app in Hnd as (_ & Hd & _); intros Hin; by apply (Hd k Hin); left).
  rewrite (dict_set_new k cp ord Hk) in E.
  assert (NoDup ((ord ++ [(k, cp)]).*1 ++ ks)) as Hnd' by (by rewrite fmap_app, <-app_assoc).
  assert (NoDup (ord ++ [(k, cp)]).*1) as Hnd1 by (by apply NoDup_app in Hnd' as (? & _ & _)).
  apply (IH _ Hnd' E). intros k' cp' [Hin|Hin]%elem_of_app.
  - destruct (Hord k' cp' Hin) as (r' & Er' & Ha'). exists r'. split; [|done]. by apply stage_request_extend.
  - apply list_elem_of_singleton in Hin as [= -> ->]. exists r. split; [|done]. by apply stage_request_extend.
Qed.

(** ** The children of a request *)

Lemma child_inputs_elem cps ks ins :
  child_inputs cps refs ks = Ok ins →
  (∀ ch, ch ∈ ins → ∃ k cp, k ∈ ks ∧ (k, cp) ∈ cps ∧ ci_result ch = cp_result cp) ∧
  (∀ k, k ∈ ks → ∃ ch cp, ch ∈ ins ∧ dict_get k cps = Some cp ∧ ci_result ch = cp_result cp).
Proof.
  revert ins. induction ks as [|k ks IH]; intros ins E.
  { injection E as <-. split; [by intros ch ?%not_elem_of_nil|by intros k ?%not_elem_of_nil]. }
  cbn [child_inputs] in E. destruct (dict_get k refs) as [ref|]; [|done].
  destruct (dict_get k cps) as [cp|] eqn:Ek; [|done]. apply result_bind_Ok in E as (ins' & E1 & E).
  injection E as <-. destruct (IH _ E1) as [IH1 IH2]. split.
  - intros ch [->|Hch]%elem_of_cons.
    + exists k, cp. split_and!; [by left|by apply dict_get_elem|done].
    + destruct (IH1 ch Hch) as (k' & cp' & Hk & Hin & Er). exists k', cp'. split_and!; [by right|done|done].
  - intros k' [->|Hk]%elem_of_cons.
    + eexists _, cp. split_and!; [by left|done|done].
    + destruct (IH2 k' Hk) as (ch & cp' & Hch & Hg & Er). exists ch, cp'. split_and!; [by right|done|done].
Qed.

Lemma stage_request_chunk k cps r :
  stage_request pl k cps refs = Ok r → rq_stage r = analysis →
  ∃ c, dict_get k (plan_nodes pl) = Some (node_chunk c) ∧ source_data r = pieces c ∧ children r = [].
Proof.
  unfold stage_request. destruct (dict_get k (plan_nodes pl)) as [[c|n]|]; [| |done].
  - intros E _. apply result_bind_Ok in E as ([] & _ & E). injection E as <-. by exists c.
  - intros E Hs. apply result_bind_Ok in E as (l & _ & E). apply result_bind_Ok in E as ([] & _ & E).
    injection E as <-. done.
Qed.

Lemma stage_request_reducer k cps r :
  stage_request pl k cps refs = Ok r → rq_stage r = reduction →
  ∃ n, dict_get k (plan_nodes pl) = Some (node_reducer n) ∧ source_data r = [] ∧
       child_inputs cps refs (rn_children n) = Ok (children r).
Proof.
  unfold stage_request. destruct (dict_get k (plan_nodes pl)) as [[c|n]|]; [| |done].
  - intros E Hs. apply result_bind_Ok in E as ([] & _ & E). injection E as <-. done.
  - intros E _. apply result_bind_Ok in E as (l & E1 & E). apply result_bind_Ok in E as ([] & _ & E).
    injection E as <-. by exists n.
Qed.

Lemma plan_nodes_chunk k c : dict_get k (plan_nodes pl) = Some (node_chunk c) → c ∈ chunks pl ∧ chunk_id c = k.
Proof.
  intros E%dict_get_elem. unfold plan_nodes in E. apply elem_of_app in E as [E|E];
    apply list_elem_of_fmap in E as (x & Ex & Hx); simplify_eq; done.
Qed.

Lemma plan_nodes_keys : (plan_nodes pl).*1 = expected_stages pl.
Proof. unfold plan_nodes, expected_stages. by rewrite fmap_app, <-!list_fmap_compose. Qed.

(** ** Grounded evidence *)

(** The identifier of a piece of the plan whose evidence resolves to its text. *)
Definition grounded (e : uuid) : Prop :=
  ∃ p, p ∈ (chunks pl ≫= pieces) ∧ evidence_id p = e ∧ index_resolve i (evidence p) = Ok (pc_text p).

Definition result_grounded (res : StageResult) : Prop :=
  ∀ c e, c ∈ claims res → e ∈ evidence_ids c ++ contradicting c → grounded e.

Lemma accepted_grounded cps k r res :
  (∀ k' cp', (k', cp') ∈ cps → result_grounded (cp_result cp')) →
  stage_request pl k cps refs = Ok r → accepted res r i → result_grounded res.
Proof.
  intros Hcps Er [_ _ Hcl _ Hpieces _ _ _] c e Hc He. rewrite Forall_forall in Hcl.
  apply (ca_evidence _ _ (Hcl c Hc)) in He. unfold allowed in He. apply elem_of_app in He as [He|He].
  - apply list_elem_of_fmap in He as (p & -> & Hp). exists p. rewrite Forall_forall in Hpieces.
    split_and!; [|done|by apply Hpieces]. destruct (rq_stage r) eqn:Es.
    + destruct (stage_request_chunk _ _ _ Er Es) as (ch & Hn & Hs & _). rewrite Hs in Hp.
      apply plan_nodes_chunk in Hn as [Hn _]. apply list_elem_of_bind. by exists ch.
    + destruct (stage_request_reducer _ _ _ Er Es) as (n & _ & Hs & _). rewrite Hs in Hp.
      by apply not_elem_of_nil in Hp.
  - apply list_elem_of_bind in He as (ch & He & Hch). apply list_elem_of_bind in He as (c' & He & Hc').
    destruct (rq_stage r) eqn:Es.
    + destruct (stage_request_chunk _ _ _ Er Es) as (_ & _ & _ & Hn). rewrite Hn in Hch.
      by apply not_elem_of_nil in Hch.
    + destruct (stage_request_reducer _ _ _ Er Es) as (n & _ & _ & Hins).
      destruct (child_inputs_elem _ _ _ Hins) as [Hel _]. destruct (Hel ch Hch) as (k' & cp' & _ & Hin & E').
      rewrite E' in Hc'. by eapply (Hcps k' cp' Hin).
Qed.

End Flow.

(** ** The walk of the claim graph *)

Lemma elem_of_reverse_list {A} (x : A) l : x ∈ rev l ↔ x ∈ l.
Proof. by rewrite !list_elem_of_In, <-in_rev. Qed.

Section Walk.
Variable graph : list (ClaimLink * Claim).
Hypothesis Hkeys : NoDup graph.*1.

(** Lineage entries of the claims not yet expanded. *)
Definition remaining (g : list (ClaimLink * Claim)) (seen : list ClaimLink) : nat :=
  length (List.filter (λ kc : ClaimLink * Claim, negb (bool_decide (kc.1 ∈ seen))) g ≫= λ kc, c_lineage kc.2).

Lemma remaining_expand g key c seen :
  NoDup g.*1 → (key, c) ∈ g → key ∉ seen →
  (remaining g (key :: seen) + length (c_lineage c))%nat = remaining g seen.
Proof.
  unfold remaining. induction g as [|[k v] g IH]; csimpl; intros Hnd Hin Hs; [by apply not_elem_of_nil in Hin|].
  apply NoDup_cons in Hnd as [Hk Hnd]. apply elem_of_cons in Hin as [[= <- <-]|Hin].
  - rewrite (bool_decide_eq_true_2 (key ∈ key :: seen)) by set_solver.
    rewrite (bool_decide_eq_false_2 (key ∈ seen)) by done. simpl. rewrite length_app, Nat.add_comm.
    f_equal. f_equal. f_equal. apply select_ext. intros [k' v'] Hx. simpl. f_equal. apply bool_decide_ext.
    assert (k' ≠ key); [|set_solver]. intros ->. apply Hk. apply list_elem_of_fmap. by exists (key, v').
  - assert (k ≠ key) as Hne.
    { intros ->. apply Hk. apply list_elem_of_fmap. by exists (key, c). }
    specialize (IH Hnd Hin Hs). rewrite (bool_decide_ext (k ∈ key :: seen) (k ∈ seen)) by set_solver.
    destruct (negb (bool_decide (k ∈ seen))); csimpl; rewrite ?length_app; lia.
Qed.

Lemma reach_unstuck fuel seen todo :
  (length todo + remaining graph seen < fuel)%nat → unstuck (reach fuel graph seen todo).
Proof.
  revert seen todo. induction fuel as [|fuel IH]; intros seen todo Hf; [lia|].
  destruct todo as [|key rest]; [done|]. cbn [reach length] in *.
  case_bool_decide as Hs; [apply IH; lia|]. rewrite link_get_last.
  destruct (last_value key graph) as [c|] eqn:Ec; [|done]. apply last_value_elem in Ec.
  apply IH. rewrite length_app, length_rev. pose proof (remaining_expand graph key c seen Hkeys Ec Hs). lia.
Qed.

Lemma reach_Ok fuel seen todo seen' :
  reach fuel graph seen todo = Ok seen' →
  (∀ k c l, k ∈ seen → (k, c) ∈ graph → l ∈ c_lineage c → l ∈ seen ∨ l ∈ todo) →
  (∀ k, k ∈ seen ∨ k ∈ todo → k ∈ seen') ∧
  (∀ k c l, k ∈ seen' → (k, c) ∈ graph → l ∈ c_lineage c → l ∈ seen').
Proof.
  revert seen todo. induction fuel as [|fuel IH]; intros seen todo E Hinv.
  { destruct todo; [|done]. injection E as <-. split; [set_solver|].
    intros k c l Hk Hc Hl. destruct (Hinv k c l Hk Hc Hl); set_solver. }
  destruct todo as [|key rest].
  { injection E as <-. split; [set_solver|]. intros k c l Hk Hc Hl. destruct (Hinv k c l Hk Hc Hl); set_solver. }
  cbn [reach] in E. case_bool_decide as Hs.
  - apply IH in E as [E1 E2]; [|intros k c l Hk Hc Hl; destruct (Hinv k c l Hk Hc Hl); set_solver].
    split; [|done]. intros k Hk. apply E1. set_solver.
  - rewrite link_get_last in E. destruct (last_value key graph) as [c0|] eqn:Ec; [|done].
    apply IH in E as [E1 E2].
    + split; [|done]. intros k Hk. apply E1. set_solver.
    + intros k c l Hk Hc Hl. apply elem_of_cons in Hk as [->|Hk].
      * rewrite (last_value_unique _ _ _ Hkeys Hc) in Ec. injection Ec as ->. right.
        apply elem_of_app. left. by rewrite elem_of_reverse_list.
      * destruct (Hinv k c l Hk Hc Hl) as [?|[->|?]%elem_of_cons]; [left; by right|left; by left|right].
        apply elem_of_app. by right.
Qed.

Lemma reach_closed fuel seen todo :
  (length todo + remaining graph seen < fuel)%nat →
  (∀ k, k ∈ todo → k ∈ graph.*1) → (∀ k c l, (k, c) ∈ graph → l ∈ c_lineage c → l ∈ graph.*1) →
  ∃ seen', reach fuel graph seen todo = Ok seen'.
Proof.
  revert seen todo. induction fuel as [|fuel IH]; intros seen todo Hf Ht Hcl; [lia|].
  destruct todo as [|key rest]; [by eexists|]. cbn [reach length] in *.
  case_bool_decide as Hs; [apply IH; [lia|set_solver|done]|]. rewrite link_get_last.
  destruct (last_value_Some key graph (Ht key ltac:(by left))) as [c Ec]. rewrite Ec.
  apply last_value_elem in Ec. apply IH; [| |done].
  - rewrite length_app, length_rev. pose proof (remaining_expand graph key c seen Hkeys Ec Hs). lia.
  - intros k [Hk|Hk]%elem_of_app; [|apply Ht; by right]. rewrite elem_of_reverse_list in Hk. by eapply Hcl.
Qed.

Lemma reach_fuel_enough todo : (length todo + remaining graph [] < reach_fuel graph todo)%nat.
Proof.
  unfold reach_fuel, remaining. fold (select (λ kc : ClaimLink * Claim, negb (bool_decide (kc.1 ∈ []))) graph).
  rewrite (select_ext _ (λ _, true)), select_true; [lia|].
  intros x _. by rewrite bool_decide_eq_false_2 by apply not_elem_of_nil.
Qed.

End Walk.

Lemma dict_of_id {K V} `{EqDecision K} (l : list (K * V)) : NoDup l.*1 → dict_of l = l.
Proof.
  induction l as [|kv l IH] using rev_ind; intros Hnd; [done|].
  rewrite fmap_app in Hnd. apply NoDup_app in Hnd as (Hl & Hd & _).
  rewrite dict_of_snoc, (IH Hl), dict_set_new; [by destruct kv|].
  intros Hk. apply (Hd _ Hk). by left.
Qed.

Section Graph.
Context `{Runtime} `{Decoder}.
Variables (pl : Plan) (i : EvidenceIndex) (refs : list (uuid * ObjectRef)).
Variable cps : list (uuid * Checkpoint).

Hypothesis Hnd : NoDup (expected_stages pl).
Hypothesis Hkeys : cps.*1 = expected_stages pl.
Hypothesis Hacc : ∀ k cp, (k, cp) ∈ cps →
  ∃ r, stage_request pl k cps refs = Ok r ∧ accepted (cp_result cp) r i.

Lemma cps_get k cp : dict_get k cps = Some cp ↔ (k, cp) ∈ cps.
Proof. split; [apply dict_get_elem|]. apply dict_get_unique. by rewrite Hkeys. Qed.

Lemma cps_stage k : k ∈ expected_stages pl → ∃ cp, (k, cp) ∈ cps.
Proof. rewrite <-Hkeys. intros ([k' cp] & -> & Hin)%list_elem_of_fmap. by exists cp. Qed.

Lemma stage_request_id k r : stage_request pl k cps refs = Ok r → rq_stage_id r = k.
Proof.
  unfold stage_request. destruct (dict_get k (plan_nodes pl)) as [[c|n]|]; [| |done]; intros E.
  - apply result_bind_Ok in E as ([] & _ & E). by injection E as <-.
  - apply result_bind_Ok in E as (l & _ & E). apply result_bind_Ok in E as ([] & _ & E). by injection E as <-.
Qed.

(** A result carries the identifier of its stage. *)
Lemma cps_result_id k cp : (k, cp) ∈ cps → sr_stage_id (cp_result cp) = k.
Proof.
  intros Hin. destruct (Hacc k cp Hin) as (r & Er & Ha). rewrite (ac_id _ _ _ Ha). by apply stage_request_id.
Qed.

Lemma node_of_chunk c : c ∈ chunks pl → dict_get (chunk_id c) (plan_nodes pl) = Some (node_chunk c).
Proof.
  intros Hc. apply dict_get_unique; [by rewrite plan_nodes_keys|]. unfold plan_nodes.
  apply elem_of_app. left. apply list_elem_of_fmap. by exists c.
Qed.

Lemma node_of_reducer n : n ∈ reducers pl → dict_get (rn_stage_id n) (plan_nodes pl) = Some (node_reducer n).
Proof.
  intros Hn. apply dict_get_unique; [by rewrite plan_nodes_keys|]. unfold plan_nodes.
  apply elem_of_app. right. apply list_elem_of_fmap. by exists n.
Qed.

Lemma request_of_chunk c r :
  c ∈ chunks pl → stage_request pl (chunk_id c) cps refs = Ok r → rq_stage r = analysis ∧ source_data r = pieces c.
Proof.
  intros Hc. unfold stage_request. rewrite (node_of_chunk c Hc). intros E.
  apply result_bind_Ok in E as ([] & _ & E). by injection E as <-.
Qed.

Lemma request_of_reducer n r :
  n ∈ reducers pl → stage_request pl (rn_stage_id n) cps refs = Ok r →
  rq_stage r = reduction ∧ child_inputs cps refs (rn_children n) = Ok (children r).
Proof.
  intros Hn. unfold stage_request. rewrite (node_of_reducer n Hn). intros E.
  apply result_bind_Ok in E as (l & E1 & E). apply result_bind_Ok in E as ([] & _ & E). by injection E as <-.
Qed.

(** ** The graph *)

Definition link_of (k : uuid) (c : Claim) : ClaimLink := {| link_stage := k; link_claim := claim_id c |}.

Definition raw_graph : list (ClaimLink * Claim) :=
  cps ≫= λ kc, (λ c, (link_of kc.1 c, c)) <$> claims (cp_result kc.2).

Lemma raw_graph_elem k c :
  (k, c) ∈ raw_graph ↔ ∃ s cp, (s, cp) ∈ cps ∧ c ∈ claims (cp_result cp) ∧ k = link_of s c.
Proof.
  unfold raw_graph. rewrite list_elem_of_bind. setoid_rewrite list_elem_of_fmap. split.
  - intros ([s cp] & (c' & [= -> ->] & Hc) & Hin). by exists s, cp.
  - intros (s & cp & Hin & Hc & ->). exists (s, cp). split; [by exists c|done].
Qed.

Lemma raw_graph_keys : NoDup raw_graph.*1.
Proof.
  assert (∀ l : list (uuid * Checkpoint), NoDup l.*1 → (∀ k cp, (k, cp) ∈ l → NoDup (claim_id <$> claims (cp_result cp))) →
    NoDup ((l ≫= λ kc, (λ c, (link_of kc.1 c, c)) <$> claims (cp_result kc.2)).*1)) as Hl.
  { intros l. induction l as [|[k cp] l IH]; intros Hk Hc; [constructor|]. csimpl in *.
    apply NoDup_cons in Hk as [Hk Hkl]. rewrite fmap_app. apply NoDup_app. split_and!.
    - rewrite <-list_fmap_compose. specialize (Hc k cp ltac:(by left)). revert Hc. clear.
      induction (claims (cp_result cp)) as [|c cs IH]; csimpl; [constructor|].
      intros [Hn Hcs]%NoDup_cons. constructor; [|by apply IH].
      intros (c' & E & Hc')%list_elem_of_fmap. unfold compose, link_of in E. simpl in E. injection E as E.
      apply Hn. rewrite E. by apply list_elem_of_fmap_2.
    - intros x Hx Hx'. apply list_elem_of_fmap in Hx as (y & -> & Hy). apply list_elem_of_fmap in Hy as (c & -> & _).
      apply list_elem_of_fmap in Hx' as (z & E & Hz). apply list_elem_of_bind in Hz as ([k' cp'] & Hz & Hin).
      apply list_elem_of_fmap in Hz as (c' & -> & _). unfold link_of in E. simpl in E. injection E as -> _.
      apply Hk. apply list_elem_of_fmap. by exists (k', cp').
    - apply IH; [done|]. intros k' cp' Hin. apply (Hc k'). by right. }
  apply Hl; [by rewrite Hkeys|]. intros k cp Hin. destruct (Hacc k cp Hin) as (r & _ & Ha). apply Ha.
Qed.

Lemma claim_graph_raw : claim_graph cps = raw_graph.
Proof. apply dict_of_id, raw_graph_keys. Qed.

(** The links of a request are claims of its children. *)
Lemma links_children n r k :
  n ∈ reducers pl → stage_request pl (rn_stage_id n) cps refs = Ok r → k ∈ (links r).*1 →
  ∃ s cp c, s ∈ rn_children n ∧ (s, cp) ∈ cps ∧ c ∈ claims (cp_result cp) ∧ k = link_of s c.
Proof.
  intros Hn Er Hk. destruct (request_of_reducer n r Hn Er) as [_ Hins].
  destruct (child_inputs_elem _ _ _ _ Hins) as [Hel _].
  apply list_elem_of_fmap in Hk as ([k' c] & -> & Hk). unfold links in Hk.
  apply list_elem_of_bind in Hk as (ch & Hk & Hch). apply list_elem_of_fmap in Hk as (c' & [= -> ->] & Hc).
  destruct (Hel ch Hch) as (s & cp & Hs & Hin & E). exists s, cp, c'. simpl. rewrite E in *.
  rewrite (cps_result_id s cp Hin). done.
Qed.

Lemma children_links n r s cp c :
  n ∈ reducers pl → stage_request pl (rn_stage_id n) cps refs = Ok r → s ∈ rn_children n →
  (s, cp) ∈ cps → c ∈ claims (cp_result cp) → link_of s c ∈ (links r).*1.
Proof.
  intros Hn Er Hs Hin Hc. destruct (request_of_reducer n r Hn Er) as [_ Hins].
  destruct (child_inputs_elem _ _ _ _ Hins) as [_ Hel]. destruct (Hel s Hs) as (ch & cp' & Hch & Hg & E).
  apply cps_get in Hin as Hg'. rewrite Hg in Hg'. injection Hg' as ->.
  apply list_elem_of_fmap. exists (link_of s c, c). split; [done|]. unfold links. apply list_elem_of_bind.
  exists ch. split; [|done]. apply list_elem_of_fmap. exists c. rewrite E, (cps_result_id s cp Hin). done.
Qed.

Lemma stage_cases k : k ∈ expected_stages pl →
  (∃ c, c ∈ chunks pl ∧ k = chunk_id c) ∨ (∃ n, n ∈ reducers pl ∧ k = rn_stage_id n).
Proof.
  unfold expected_stages. intros [Hk|Hk]%elem_of_app; apply list_elem_of_fmap in Hk as (x & -> & Hx); eauto.
Qed.

(** Every lineage entry is a claim of the graph. *)
Lemma graph_closed k c l : (k, c) ∈ raw_graph → l ∈ c_lineage c → l ∈ raw_graph.*1.
Proof.
  intros (s & cp & Hin & Hc & ->)%raw_graph_elem Hl. destruct (Hacc s cp Hin) as (r & Er & Ha).
  pose proof (ac_claims _ _ _ Ha) as Hcl. rewrite Forall_forall in Hcl.
  apply (ca_lineage _ _ (Hcl c Hc)) in Hl.
  assert (s ∈ expected_stages pl) as Hs by (rewrite <-Hkeys; apply list_elem_of_fmap; by exists (s, cp)).
  destruct (stage_cases s Hs) as [(ch & Hch & ->)|(n & Hn & ->)].
  - destruct (request_of_chunk ch r Hch Er) as [Hst _].
    destruct (stage_request_chunk _ _ _ _ _ Er Hst) as (_ & _ & _ & Hno). unfold links in Hl. rewrite Hno in Hl.
    by apply not_elem_of_nil in Hl.
  - destruct (links_children n r l Hn Er Hl) as (s' & cp' & c' & _ & Hin' & Hc' & ->).
    apply list_elem_of_fmap. exists (link_of s' c', c'). split; [done|]. apply raw_graph_elem. by exists s', cp'.
Qed.

(** ** From the root to the chunks *)

Definition stage_seen (seen : list ClaimLink) (k : uuid) : Prop :=
  ∀ cp c, (k, cp) ∈ cps → c ∈ claims (cp_result cp) → link_of k c ∈ seen.

Lemma children_seen seen n s :
  (∀ k c l, k ∈ seen → (k, c) ∈ raw_graph → l ∈ c_lineage c → l ∈ seen) →
  n ∈ reducers pl → s ∈ rn_children n → stage_seen seen (rn_stage_id n) → stage_seen seen s.
Proof.
  intros Hclosed Hn Hs Hseen cp c Hin Hc.
  assert (rn_stage_id n ∈ expected_stages pl) as Hk.
  { unfold expected_stages. apply elem_of_app. right. by apply list_elem_of_fmap_2. }
  destruct (cps_stage _ Hk) as (cpn & Hinn). destruct (Hacc _ _ Hinn) as (r & Er & Ha).
  pose proof (children_links n r s cp c Hn Er Hs Hin Hc) as Hl.
  destruct (request_of_reducer n r Hn Er) as [Hst _].
  apply (ac_linked _ _ _ Ha Hst) in Hl. unfold linked in Hl. apply list_elem_of_bind in Hl as (c0 & Hl & Hc0).
  eapply (Hclosed (link_of (rn_stage_id n) c0) c0); [by eapply Hseen| |done].
  apply raw_graph_elem. by exists (rn_stage_id n), cpn.
Qed.

Lemma leaves_seen seen ks ls :
  (∀ k c l, k ∈ seen → (k, c) ∈ raw_graph → l ∈ c_lineage c → l ∈ seen) →
  covers (chunk_id <$> chunks pl) (reducers pl) ks ls →
  (∀ k, k ∈ ks → stage_seen seen k) → ∀ l, l ∈ ls → stage_seen seen l.
Proof.
  intros Hclosed. induction 1 as [|k ks ls Hk Hc IH|n ks l ls Hn Hc1 IH1 Hc2 IH2]; intros Hks.
  - by intros l ?%not_elem_of_nil.
  - intros l [->|Hl]%elem_of_cons; [apply Hks; by left|]. apply IH; [|done]. intros k' Hk'. apply Hks. by right.
  - intros l0 [Hl|Hl]%elem_of_app.
    + apply IH1; [|done]. intros s Hs. apply (children_seen seen n s Hclosed Hn Hs). apply Hks. by left.
    + apply IH2; [|done]. intros k' Hk'. apply Hks. by right.
Qed.

(** ** The analysed chunks *)

Definition analysed_in (c : AnalysisChunk) : bool :=
  match result_of cps (chunk_id c) with
  | Some r => bool_decide (sr_outcome r = analyzed_outcome)
  | None => false
  end.

Lemma resolve_all_Ok ps :
  Forall (λ p, index_resolve i (evidence p) = Ok (pc_text p)) ps → resolve_all i ps = Ok tt.
Proof. induction 1 as [|p ps Hp _ IH]; [done|]. simpl. by rewrite Hp. Qed.

Lemma chunk_checkpoint c : c ∈ chunks pl → ∃ cp, (chunk_id c, cp) ∈ cps ∧ result_of cps (chunk_id c) = Some (cp_result cp).
Proof.
  intros Hc. destruct (cps_stage (chunk_id c)) as (cp & Hin).
  { unfold expected_stages. apply elem_of_app. left. by apply list_elem_of_fmap_2. }
  exists cp. split; [done|]. unfold result_of. by rewrite (proj2 (cps_get _ _) Hin).
Qed.

Lemma analysed_chunks_Ok seen cs :
  (∀ c, c ∈ cs → c ∈ chunks pl ∧ stage_seen seen (chunk_id c)) →
  ∃ l, analysed_chunks i cps seen cs = Ok l ∧ l.*1 = List.filter analysed_in cs ∧
       ∀ c r, (c, r) ∈ l → result_of cps (chunk_id c) = Some r.
Proof.
  induction cs as [|c cs IH]; intros Hcs; [exists []; split_and!; [done|done|by intros c r ?%not_elem_of_nil]|].
  destruct IH as (l & El & Hl & Hres); [intros c' Hc'; apply Hcs; by right|].
  destruct (Hcs c ltac:(by left)) as [Hc Hseen]. destruct (chunk_checkpoint c Hc) as (cp & Hin & Er).
  assert (analysed_in c = bool_decide (sr_outcome (cp_result cp) = analyzed_outcome)) as Ean
    by (unfold analysed_in; by rewrite Er).
  cbn [analysed_chunks List.filter]. rewrite Er, Ean. destruct (sr_outcome (cp_result cp)) eqn:Eo; simpl.
  2: { exists l. done. }
  assert (forallb (λ cl, bool_decide ({| link_stage := chunk_id c; link_claim := claim_id cl |} ∈ seen))
            (claims (cp_result cp)) = true) as ->.
  { apply forallb_elem. intros cl Hcl. apply bool_decide_eq_true. by apply (Hseen cp). }
  destruct (Hacc _ _ Hin) as (r & Ereq & Ha). destruct (request_of_chunk c r Hc Ereq) as [_ Hsrc].
  pose proof (ac_pieces _ _ _ Ha) as Hp. rewrite Hsrc in Hp. simpl. rewrite (resolve_all_Ok _ Hp). simpl.
  rewrite El. simpl. exists ((c, cp_result cp) :: l). split_and!; [done|by rewrite <-Hl|].
  intros c' r' [[= -> ->]|Hin']%elem_of_cons; [done|by apply Hres].
Qed.

Lemma select_full_Ok parts ks :
  (∀ k, k ∈ ks → ∃ ub, dict_get k (idx_blocks i) = Some ub) →
  ∃ l, select_full i parts ks = Ok l ∧
       l = List.filter (λ k, bool_decide (full i parts k = Ok true)) ks.
Proof.
  induction ks as [|k ks IH]; intros Hks; [by exists []|].
  destruct IH as (l & El & Hl); [intros k' Hk'; apply Hks; by right|].
  destruct (Hks k ltac:(by left)) as ([u b] & Hub). cbn [select_full List.filter].
  assert (∃ f, full i parts k = Ok f) as [f Ef] by (unfold full; rewrite Hub; eauto).
  rewrite Ef, El. simpl. eexists. split; [done|]. rewrite Hl. by destruct f.
Qed.

End Graph.

(** ** Intervals *)

Lemma sweep_covers cursor l stop :
  sweep cursor l = Some stop → cursor ≤ stop ∧
  ∀ x, cursor ≤ x < stop → ∃ se, se ∈ l ∧ se.1 ≤ x < se.2.
Proof.
  revert cursor. induction l as [|[s e] l IH]; intros cursor E.
  - injection E as <-. split; [lia|]. lia.
  - cbn [sweep] in E. destruct (Z.ltb_spec cursor s); [done|]. apply IH in E as [Hle Hx]. split; [lia|].
    intros x Hr. destruct (decide (x < Z.max cursor e)) as [Hlt|Hge].
    + exists (s, e). split; [by left|]. simpl. lia.
    + destruct (Hx x ltac:(lia)) as (se & Hin & Hse). exists se. split; [by right|done].
Qed.

Lemma order_by_chain {A} (le : A → A → bool) l :
  (∀ l1 x y l2, l = l1 ++ x :: y :: l2 → le x y = true) → order_by le l = l.
Proof.
  induction l as [|x l IH]; intros Hc; [done|]. unfold order_by in *. simpl. rewrite IH.
  - destruct l as [|y l]; [done|]. simpl. by rewrite (Hc [] x y l eq_refl).
  - intros l1 y z l2 ->. by apply (Hc (x :: l1) y z l2).
Qed.

(** ** Binary64 quotients *)

Lemma round_half_even_Z q z : (q == inject_Z z)%Q → round_half_even q = z.
Proof.
  intros E. unfold round_half_even. assert (Qfloor q = z) as -> by (by rewrite E, Qfloor_Z).
  assert ((q - inject_Z z ?= 1 # 2)%Q = Lt) as ->; [|done].
  apply Qlt_alt. rewrite E. unfold Qminus. rewrite Qplus_opp_r. done.
Qed.

Lemma float_div_self n : 0 < n → (float_div n n == 1)%Q.
Proof.
  intros Hn. unfold float_div. destruct (Z.eqb_spec n 0); [lia|]. rewrite Z.sub_diag. cbn [Z.leb Z.compare Z.pow].
  rewrite Z.mul_1_r, Z.ltb_irrefl. rewrite Z.sub_0_r.
  assert (round_half_even (inject_Z (n * 2 ^ 52) / inject_Z n) = 2 ^ 52) as ->; [|done].
  assert (inject_Z (n * 2 ^ 52) / inject_Z n == inject_Z (2 ^ 52))%Q as E.
  { rewrite inject_Z_mult. field. change 0%Q with (inject_Z 0). rewrite inject_Z_injective. lia. }
  by apply round_half_even_Z.
Qed.

Section Coverage.
Context `{Runtime}.

Definition span_of (p : SourcePiece) : Z * Z := (sp_start (ev_span (evidence p)), sp_end (ev_span (evidence p))).

Lemma tiles_spans a u b start line ps :
  tiles a u b start line ps → ps ≠ [] ∧ (∃ e l, span_of <$> ps = (start, e) :: l) ∧
  sweep start (span_of <$> ps) = Some (sp_end (blk_span b)) ∧
  (∀ l1 x y l2, span_of <$> ps = l1 ++ x :: y :: l2 → interval_le x y = true) ∧
  Forall (λ p, ev_block_id (evidence p) = block_id b) ps.
Proof.
  induction 1 as [start line piece Hle Hp|start stop line piece ps Hlt Hp Ht IH].
  - apply make_piece_text in Hp as (_ & Ee & _ & _). unfold span_of. csimpl. rewrite Ee. simpl.
    rewrite Z.ltb_irrefl. split_and!; [done|by eexists _, _|by rewrite Z.max_r by lia| |].
    + intros [|? [|? ?]] x y l2 [=].
    + constructor; [by rewrite Ee|constructor].
  - apply make_piece_text in Hp as (_ & Ee & _ & _). destruct IH as (Hne & (e & l & El) & Hsw & Hch & Hid).
    assert (span_of piece = (start, stop)) as Es by (unfold span_of; by rewrite Ee).
    rewrite fmap_cons, Es. split_and!; [done|by eexists _, _| | |].
    + cbn [sweep]. rewrite Z.ltb_irrefl, Z.max_r by lia. exact Hsw.
    + intros l1 x y l2 E. destruct l1 as [|z l1].
      * rewrite El in E. injection E as <- <- <-. unfold interval_le. simpl.
        by rewrite (proj2 (Z.ltb_lt start stop)) by lia.
      * injection E as <- E. by eapply Hch.
    + constructor; [by rewrite Ee|done].
Qed.

(** The intervals recorded for one block, out of all tiles. *)
Lemma tiles_own a k bs cuts :
  NoDup ((λ ub : TextUnit * Block, block_id ub.2) <$> bs) → Forall2 (block_tiles a) bs cuts →
  ∀ u b, (u, b) ∈ bs → k = block_id b →
  ∃ ps, block_tiles a (u, b) ps ∧
    snd <$> List.filter (λ kp : uuid * (Z * Z), bool_decide (kp.1 = k)) (interval <$> concat cuts) = span_of <$> ps.
Proof.
  intros Hnd HF u b Hin ->.
  assert (∀ bs cuts, Forall2 (block_tiles a) bs cuts → block_id b ∉ (λ ub : TextUnit * Block, block_id ub.2) <$> bs →
    List.filter (λ kp : uuid * (Z * Z), bool_decide (kp.1 = block_id b)) (interval <$> concat cuts) = []) as Hnone.
  { clear. induction 1 as [|[u' b'] ps bs cuts Ht HF IH]; csimpl; intros Hn; [done|].
    rewrite fmap_app, List.filter_app, IH by set_solver. rewrite app_nil_r.
    apply tiles_spans in Ht as (_ & _ & _ & _ & Hid). induction Hid as [|p ps Hp _ IHp]; [done|]. csimpl.
    unfold interval at 1. simpl. rewrite Hp, bool_decide_eq_false_2; [done|]. simpl in Hn. set_solver. }
  induction HF as [|[u' b'] ps bs cuts Ht HF IH]; [by apply not_elem_of_nil in Hin|].
  csimpl in Hnd. apply NoDup_cons in Hnd as [Hn Hnd]. csimpl. rewrite fmap_app, List.filter_app, fmap_app.
  pose proof (tiles_spans _ _ _ _ _ _ Ht) as (_ & _ & _ & _ & Hid). simpl in Hid, Hn.
  apply elem_of_cons in Hin as [[= <- <-]|Hin].
  - exists ps. split; [done|]. rewrite (Hnone bs cuts HF Hn), app_nil_r.
    clear -Hid. induction Hid as [|p ps Hp _ IHp]; [done|]. csimpl. rewrite Hp, bool_decide_eq_true_2 by done.
    csimpl. f_equal. exact IHp.
  - destruct (IH Hnd Hin) as (ps' & Ht' & E'). exists ps'. split; [done|]. rewrite E'.
    assert (List.filter (λ kp : uuid * (Z * Z), bool_decide (kp.1 = block_id b)) (interval <$> ps) = []) as ->; [|done].
    assert (block_id b' ≠ block_id b) as Hne.
    { intros E. apply Hn. rewrite E. apply list_elem_of_fmap. by exists (u, b). }
    clear -Hid Hne. induction Hid as [|p ps Hp _ IHp]; [done|]. csimpl.
    rewrite Hp, bool_decide_eq_false_2 by done. exact IHp.
Qed.

Lemma NoDup_fmap_filter {A} (key : A → uuid) (q : A → bool) l :
  NoDup (key <$> l) → NoDup (key <$> List.filter q l).
Proof.
  induction l as [|x l IH]; csimpl; intros Hnd; [done|]. apply NoDup_cons in Hnd as [Hx Hnd].
  destruct (q x); csimpl; [|auto]. constructor; [|auto].
  intros (y & E & Hy)%list_elem_of_fmap. apply elem_of_select in Hy as [_ Hy]. apply Hx. rewrite E.
  by apply list_elem_of_fmap_2.
Qed.

Lemma NoDup_eligible a :
  NoDup (all_block_ids a) →
  NoDup ((λ ub : TextUnit * Block, block_id ub.2) <$> List.filter (λ ub, is_eligible ub.1) (inventory a)).
Proof.
  intros Hnd. apply NoDup_fmap_filter. rewrite <-inventory_ids, <-list_fmap_compose in Hnd. exact Hnd.
Qed.

Lemma full_tiles a u b cuts :
  NoDup (all_block_ids a) → (u, b) ∈ List.filter (λ ub, is_eligible ub.1) (inventory a) →
  Forall2 (block_tiles a) (List.filter (λ ub, is_eligible ub.1) (inventory a)) cuts →
  full (build_index a) (interval <$> concat cuts) (block_id b) = Ok true.
Proof.
  intros Hnd Hin HF. pose proof Hnd as Hnd'. rewrite <-idx_blocks_keys in Hnd'.
  apply elem_of_select in Hin as Hin'. destruct Hin' as [_ Hinv]. apply inventory_elem in Hinv as [Hu Hb].
  unfold full. assert (dict_get (block_id b) (idx_blocks (build_index a)) = Some (u, b)) as ->.
  { apply dict_get_unique; [done|]. by apply idx_blocks_elem. }
  destruct (tiles_own a (block_id b) _ _ (NoDup_eligible a Hnd) HF u b Hin eq_refl) as (ps & Ht & ->).
  apply tiles_spans in Ht as (Hne & _ & Hsw & Hch & _). simpl in Hsw.
  rewrite (order_by_chain _ _ Hch), Hsw, Z.eqb_refl. destruct ps; [done|]. done.
Qed.

End Coverage.
