(* ===== verification/DigestInference.v ===== *)
(** * The deterministic local inference

    [FakeInference] of [documents/digestion/inference.py]: fixtures by block, simulated
    failures counted per stage, and a result built from the request alone. *)

From stdpp Require Import base tactics list strings option.
From Stdlib Require Import ZArith NArith QArith Lia.
From S2P Require Import Prelude Json Contracts JobModels DigestModels DigestPlanning DigestValidation DigestArtifacts.

Local Open Scope Z_scope.

Record Fixture := {
  fx_block : uuid; fx_text : text; fx_qualification : option text; fx_subject : option string;
  fx_stance : Stance }.

Record FakeInference := {
  fixtures : list Fixture; config : digest; fail_first : list uuid; fail_always : list uuid;
  unavailable_stages : list uuid }.

(** A digestion error, or [JobError] with its category. *)
Inductive inference_exn := Digestion (e : digest_exn) | Job (category : string).

Section Inference.
Context `{Runtime}.

(** The constructor; [cfg] is the fingerprint of the dumped fixtures. *)
Definition make_inference (fs : list Fixture) (cfg : digest) (first_ always unavail : list uuid)
    : result digest_exn FakeInference :=
  _ ← check (bool_decide (NoDup (fx_block <$> fs))) (plain_error "inference_contract_error");
  Ok {| fixtures := fs; config := cfg; fail_first := first_; fail_always := always;
        unavailable_stages := unavail |}.

Definition fixture_of (f : FakeInference) (k : uuid) : option Fixture :=
  dict_get k ((λ x, (fx_block x, x)) <$> fixtures f).

Definition claim_key (r : StageRequest) (n : Z) : uuid := stable_id [cps (rq_stage_id r); z_text n].

Definition blank_claim (r : StageRequest) (n : Z) (t : text) (k : ClaimKind) : Claim := {|
  claim_id := claim_key r n; originating_stage := rq_stage_id r; c_text := t; c_kind := k;
  evidence_ids := []; contradicting := []; qualifications := []; c_lineage := []; c_subject := None;
  stance := stance_unknown; c_status := supported |}.

(** The claim of a fixture about one piece. *)
Definition fixture_claim (r : StageRequest) (n : Z) (p : SourcePiece) (x : Fixture) : Claim :=
  let b := blank_claim r n (fx_text x) fact in
  {| claim_id := claim_id b; originating_stage := originating_stage b; c_text := c_text b;
     c_kind := fact; evidence_ids := [evidence_id p]; contradicting := [];
     qualifications := match fx_qualification x with
                       | Some q => if bool_decide (q = []) then []
                                   else [{| q_text := q; q_evidence := [evidence_id p] |}]
                       | None => []
                       end;
     c_lineage := []; c_subject := fx_subject x; stance := fx_stance x; c_status := supported |}.

Definition with_evidence (c : Claim) (ids : list uuid) (ls : list ClaimLink) : Claim := {|
  claim_id := claim_id c; originating_stage := originating_stage c; c_text := c_text c;
  c_kind := c_kind c; evidence_ids := ids; contradicting := []; qualifications := [];
  c_lineage := ls; c_subject := None; stance := stance_unknown; c_status := supported |}.

(** Fixtures first, then one claim about all ordinary pieces. *)
Definition analysis_claims (f : FakeInference) (r : StageRequest) : list Claim :=
  let known := omap (λ p, (λ x, (p, x)) <$> fixture_of f (ev_block_id (evidence p))) (source_data r) in
  let ordinary := List.filter (λ p, match fixture_of f (ev_block_id (evidence p)) with
                                       Some _ => false | None => true end) (source_data r) in
  let cs := (λ nx : Z * (SourcePiece * Fixture), fixture_claim r nx.1 nx.2.1 nx.2.2)
              <$> zip (Z.of_nat <$> seq 0 (length known)) known in
  cs ++ match ordinary with
        | [] => []
        | _ => [with_evidence (blank_claim r (len cs)
                  (Json.cps "Synthetic source observation; no semantic quality asserted.") fact)
                  (evidence_id <$> ordinary) []]
        end.

Definition reduction_claims (r : StageRequest) : list Claim :=
  match (links r).*1 with
  | [] => []
  | ls => [with_evidence (blank_claim r 0
             (Json.cps "Inherited findings; all linked qualifications and unresolved conflicts apply.")
             commentary) [] ls]
  end.

Definition piece_limitations (r : StageRequest) : list text :=
  (λ s, Json.cps s) <$> sorted_set (omap (λ p, match limitation p with
    | no_limitation => None | l => Some (limitation_text l) end) (source_data r)).

Definition fake_result (f : FakeInference) (r : StageRequest) : StageResult := {|
  sr_stage_id := rq_stage_id r; sr_kind := rq_stage r; sr_outcome := analyzed_outcome;
  claims := match rq_stage r with analysis => analysis_claims f r | reduction => reduction_claims r end;
  open_questions := []; limitations := piece_limitations r |}.

Definition unavailable_result (r : StageRequest) : StageResult := {|
  sr_stage_id := rq_stage_id r; sr_kind := rq_stage r; sr_outcome := unavailable; claims := [];
  open_questions := []; limitations := [Json.cps "Synthetic analysis unavailable."] |}.

(** [analyze]; [calls] counts the calls per stage. *)
Definition analyze (f : FakeInference) (calls : list (uuid * Z)) (r : StageRequest)
    : result inference_exn text * list (uuid * Z) :=
  match check_request r with
  | Err e => (Err (Digestion e), calls)
  | Ok _ =>
      if negb (bool_decide (inference_config (rq_profile r) = config f))
      then (Err (Digestion (plain_error "incompatible_checkpoint")), calls)
      else
        let key := rq_stage_id r in
        let n := default 0 (dict_get key calls) + 1 in
        let calls := dict_set key n calls in
        (if bool_decide (key ∈ fail_first f) && (n =? 1) then Err (Job "worker_interrupted")
         else if bool_decide (key ∈ fail_always f)
         then Err (Digestion (plain_error (match rq_stage r with analysis => "analysis_failed"
                                                               | reduction => "reducer_failed" end)))
         else
           let res := if bool_decide (key ∈ unavailable_stages f) && bool_decide (rq_stage r = analysis)
                      then unavailable_result r else fake_result f r in
           (* constructing an invalid claim raises *)
           if valid_stage_result res then Ok (canonical (result_json res)) else Err (Digestion OtherError),
         calls)
  end.

End Inference.
