(* ===== verification/DigestTheorems.v ===== *)
(** * What digestion guarantees

    Citations of a finished digest are grounded in the source; accepted checkpoints always
    assemble into a digest that reaches every chunk; COMPLETE means covered; what a stage
    stores is what finalization accepts. *)

From stdpp Require Import base tactics list strings option sets.
From Stdlib Require Import ZArith NArith QArith Lia.
From S2P Require Import Prelude Json Contracts ContractFacts JobModels JobLedger Sample ContractTheorems.
From S2P Require Import DigestModels DigestPlanning DigestPlanFacts DigestPlanSource DigestPlanTree DigestPlanReduce DigestPlanTheorems.
From S2P Require Import DigestValidation DigestArtifacts DigestFlow DigestCoverage.

Local Open Scope Z_scope.

Section Theorems.
Context `{Runtime} `{Decoder}.

(** What [make_digest] computed when it returns. *)
Lemma make_digest_inv pl plan_ref cps refs i d :
  make_digest pl plan_ref cps refs i = Ok d →
  ∃ root seen l an inc, result_of cps (root_id pl) = Some root ∧ synthesis_claims d = claims root ∧
    analysed_chunks i cps seen (chunks pl) = Ok l ∧
    findings d = (l ≫= λ cr, claims cr.2) ∧
    select_full i (interval <$> (l ≫= λ cr, pieces cr.1)) (eligible pl) = Ok an ∧
    select_full i (interval <$> (l ≫= λ cr, pieces cr.1)) (eligible pl) = Ok inc ∧
    da_coverage d = make_coverage pl an inc ∧
    da_status d = status_of (pl_profile pl) (is_complete pl (da_coverage d)) inc
                    (cv_failed (da_coverage d)) (fraction (da_coverage d)).
Proof.
  unfold make_digest. intros E. planned E.
  destruct (result_of cps (root_id pl)) as [root|]; [|done]. cbv zeta in E.
  apply result_bind_Ok in E as (seen & _ & E). apply result_bind_Ok in E as (l & El & E).
  apply result_bind_Ok in E as (an & Ea & E). apply result_bind_Ok in E as (inc & Ei & E).
  injection E as <-. exists root, seen, l, an, inc. done.
Qed.

Lemma analysed_chunks_inv i cps seen cs l :
  analysed_chunks i cps seen cs = Ok l →
  ∀ c r, (c, r) ∈ l → c ∈ cs ∧ result_of cps (chunk_id c) = Some r ∧ sr_outcome r = analyzed_outcome.
Proof.
  revert l. induction cs as [|c cs IH]; intros l E; [injection E as <-; by intros c r ?%not_elem_of_nil|].
  cbn [analysed_chunks] in E. destruct (result_of cps (chunk_id c)) as [r|] eqn:Er; [|done].
  case_bool_decide as Eo.
  - intros c' r' Hin. destruct (IH _ E c' r' Hin) as (? & ? & ?). split_and!; [by right|done|done].
  - planned E. apply result_bind_Ok in E as ([] & _ & E). apply result_bind_Ok in E as (l' & E1 & E).
    injection E as <-. intros c' r' [[= -> ->]|Hin]%elem_of_cons.
    + split_and!; [by left|done|by destruct (sr_outcome r)].
    + destruct (IH _ E1 c' r' Hin) as (? & ? & ?). split_and!; [by right|done|done].
Qed.

Lemma result_of_elem cps k r : result_of cps k = Some r → ∃ cp, (k, cp) ∈ cps ∧ cp_result cp = r.
Proof.
  unfold result_of. destruct (dict_get k cps) as [cp|] eqn:E; [|done]. intros [= <-]. exists cp.
  split; [by apply dict_get_elem|done].
Qed.

(** C7: every citation of a finished digest is grounded: whatever the model generated at
    any stage, each evidence identifier cited by a finding or by a claim of the synthesis,
    for or against, is the identifier of a piece of the plan whose evidence resolves in
    the artifact to exactly the piece's text. *)
Theorem digest_grounded pl plan_ref i cps refs d c e :
  finalize pl plan_ref i cps refs = Ok d → decodes cps →
  c ∈ findings d ++ synthesis_claims d → e ∈ evidence_ids c ++ contradicting c →
  ∃ p, p ∈ (chunks pl ≫= pieces) ∧ evidence_id p = e ∧ index_resolve i (evidence p) = Ok (pc_text p).
Proof.
  unfold finalize. intros E Hdec Hc He. apply result_bind_Ok in E as (ordered & Eo & E).
  apply result_bind_Ok in E as (d' & Ed & E). planned E. injection E as ->.
  assert (∀ k cp, (k, cp) ∈ ordered → result_grounded pl i (cp_result cp)) as Hg.
  { apply (accept_all_ind pl plan_ref i refs cps Hdec (λ _ cp, result_grounded pl i (cp_result cp)))
      with (ks := expected_stages pl) (ord := []); [|by intros k cp ?%not_elem_of_nil|done].
    intros ord k cp r Hord Er Ha. by eapply accepted_grounded. }
  apply make_digest_inv in Ed as (root & seen & l & an & inc & Er & Es & El & Ef & _).
  rewrite Ef, Es in Hc. apply elem_of_app in Hc as [Hc|Hc].
  - apply list_elem_of_bind in Hc as ([ch r] & Hc & Hin).
    destruct (analysed_chunks_inv _ _ _ _ _ El ch r Hin) as (_ & Hr & _).
    apply result_of_elem in Hr as (cp & Hcp & <-). exact (Hg _ cp Hcp c e Hc He).
  - apply result_of_elem in Er as (cp & Hcp & <-). exact (Hg _ cp Hcp c e Hc He).
Qed.

(** ** COMPLETE *)

Lemma select_full_elem i parts ks l k :
  select_full i parts ks = Ok l → k ∈ l → full i parts k = Ok true.
Proof.
  revert l. induction ks as [|k' ks IH]; intros l E Hk; [injection E as <-; by apply not_elem_of_nil in Hk|].
  cbn [select_full] in E. apply result_bind_Ok in E as (f & Ef & E). apply result_bind_Ok in E as (l' & El & E).
  injection E as <-. destruct f; [|by eapply IH]. apply elem_of_cons in Hk as [->|Hk]; [done|by eapply IH].
Qed.

Lemma full_covers i parts k b u x :
  full i parts k = Ok true → dict_get k (idx_blocks i) = Some (u, b) →
  sp_start (blk_span b) ≤ x < sp_end (blk_span b) →
  ∃ se, (k, se) ∈ parts ∧ se.1 ≤ x < se.2.
Proof.
  unfold full. intros E Hg Hx. rewrite Hg in E. injection E as E.
  set (own := snd <$> List.filter (λ kp : uuid * (Z * Z), bool_decide (kp.1 = k)) parts) in *.
  destruct (sweep _ _) as [cursor|] eqn:Es; [|done]. apply andb_true_iff in E as [E _]. apply Z.eqb_eq in E.
  apply sweep_covers in Es as [_ Hsw]. destruct (Hsw x ltac:(lia)) as (se & Hin & Hse).
  rewrite order_by_Permutation in Hin. unfold own in Hin. apply list_elem_of_fmap in Hin as ([k' se'] & -> & Hin).
  apply elem_of_select in Hin as [Hk Hin]. apply bool_decide_eq_true in Hk. simpl in Hk. subst k'. by exists se'.
Qed.

(** C9: a COMPLETE digest left nothing out: no unit was unsupported, and every character
    of every eligible block lies inside a piece of a chunk whose accepted analysis is
    among the findings. *)
Theorem complete_covers_source pl plan_ref cps refs a d k u b x :
  make_digest pl plan_ref cps refs (build_index a) = Ok d → da_status d = COMPLETE →
  k ∈ eligible pl → dict_get k (idx_blocks (build_index a)) = Some (u, b) →
  sp_start (blk_span b) ≤ x < sp_end (blk_span b) →
  unsupported_ids pl = [] ∧
  ∃ c r p, c ∈ chunks pl ∧ p ∈ pieces c ∧ result_of cps (chunk_id c) = Some r ∧
    sr_outcome r = analyzed_outcome ∧ (∀ cl, cl ∈ claims r → cl ∈ findings d) ∧
    ev_block_id (evidence p) = k ∧ sp_start (ev_span (evidence p)) ≤ x < sp_end (ev_span (evidence p)).
Proof.
  intros E Hst Hk Hg Hx. apply make_digest_inv in E as (root & seen & l & an & inc & _ & _ & El & Ef & Ean & _ & Ecov & Est).
  rewrite Hst in Est. unfold status_of in Est.
  destruct (negb (Qle_bool _ _)); [done|].
  destruct (is_complete pl (da_coverage d)) eqn:Ec; [|by destruct (_ && _)].
  rewrite Ecov in Ec. unfold is_complete in Ec. rewrite !andb_true_iff, !bool_decide_eq_true in Ec.
  destruct Ec as [[Hf Hu] _]. split; [done|].
  assert (k ∈ an) as Han.
  { destruct (decide (k ∈ an)) as [?|Hn]; [done|]. exfalso. simpl in Hf.
    assert (k ∈ List.filter (λ k, negb (bool_decide (k ∈ an))) (eligible pl)) as Hin.
    { apply elem_of_select. split; [|done]. by apply negb_true_iff, bool_decide_eq_false. }
    rewrite Hf in Hin. by apply not_elem_of_nil in Hin. }
  pose proof (select_full_elem _ _ _ _ _ Ean Han) as Hfull.
  destruct (full_covers _ _ _ _ _ _ Hfull Hg Hx) as ([s e] & Hin & Hse).
  apply list_elem_of_fmap in Hin as (p & Ep & Hp). unfold interval in Ep. injection Ep as Ek Es Ee.
  apply list_elem_of_bind in Hp as ([c r] & Hp & Hcr).
  destruct (analysed_chunks_inv _ _ _ _ _ El c r Hcr) as (Hc & Hr & Ho).
  exists c, r, p. simpl in Hse, Hp. subst s e. split_and!; try done; try lia.
  intros cl Hcl. rewrite Ef. apply list_elem_of_bind. by exists (c, r).
Qed.

(** ** Assembly *)

(** An accepted graph of a plan: the checkpoints and references of every stage. *)
Record accepted_graph (pl : Plan) (plan_ref : ObjectRef) (i : EvidenceIndex)
    (stored : list (uuid * Checkpoint)) (refs : list (uuid * ObjectRef))
    (ordered : list (uuid * Checkpoint)) : Prop := {
  ag_distinct : NoDup (expected_stages pl);
  ag_decodes : decodes stored;
  ag_accept : accept_all pl plan_ref i refs stored [] (expected_stages pl) = Ok ordered;
  ag_refs : same_set refs.*1 (expected_stages pl) = true }.

Lemma eligible_in_index a pl p k :
  model_valid a = true → plan_facts a p pl → NoDup (all_block_ids a) → k ∈ eligible pl →
  ∃ u b, dict_get k (idx_blocks (build_index a)) = Some (u, b) ∧ k = block_id b ∧
         (u, b) ∈ List.filter (λ ub, is_eligible ub.1) (inventory a).
Proof.
  intros Hv Hpl Hnd Hk. destruct (pf_ids _ _ _ Hpl) as (E & _ & _). rewrite E in Hk.
  apply list_elem_of_bind in Hk as (u & Hk & Hu). apply elem_of_select in Hu as [He Hu].
  pose proof (eligible_unit_blocks a Hv u Hu He) as Hne. unfold unit_ids in Hk.
  destruct (blocks u) as [|b0 bs] eqn:Eb; [done|]. rewrite <-Eb in Hk.
  apply list_elem_of_fmap in Hk as (b & -> & Hb). exists u, b. split_and!; [|done|].
  - apply dict_get_unique; [by rewrite idx_blocks_keys|]. by apply idx_blocks_elem.
  - apply elem_of_select. split; [done|]. by apply inventory_elem.
Qed.

Lemma select_none {A} (q : A → bool) l : (∀ x, x ∈ l → q x = false) → List.filter q l = [].
Proof.
  induction l as [|x l IH]; intros Hq; [done|]. simpl. rewrite (Hq x) by (by left). apply IH.
  intros y Hy. apply Hq. by right.
Qed.

(** Everything analysed and supported makes the digest complete. *)
Lemma full_status a pl p cps :
  model_valid a = true → valid_digestion_profile p = true → plan_facts a p pl → NoDup (all_block_ids a) →
  (∀ c, c ∈ chunks pl → analysed_in cps c = true) → unsupported_ids pl = [] →
  ∀ l an inc, l.*1 = List.filter (analysed_in cps) (chunks pl) →
    an = List.filter (λ k, bool_decide (full (build_index a) (interval <$> (l ≫= λ cr : AnalysisChunk * StageResult, pieces cr.1)) k = Ok true)) (eligible pl) →
    inc = an →
    status_of p (is_complete pl (make_coverage pl an inc)) inc
      (cv_failed (make_coverage pl an inc)) (fraction (make_coverage pl an inc)) = COMPLETE.
Proof.
  intros Hv Hp Hpl Hnd Han Hun l an inc El Ean ->.
  assert (List.filter (analysed_in cps) (chunks pl) = chunks pl) as Eall.
  { pose proof (select_ext (analysed_in cps) (λ _, true) (chunks pl) Han) as E.
    unfold select at 1 in E. by rewrite E, select_true. }
  rewrite Eall in El. destruct (pf_cuts _ _ _ Hpl) as (cuts & Ecuts & HF).
  rewrite eligible_blocks_filter in HF by done.
  assert ((l ≫= λ cr : AnalysisChunk * StageResult, pieces cr.1) = concat cuts) as Ep.
  { rewrite <-Ecuts, <-El. by rewrite list_fmap_bind. }
  rewrite Ep in Ean.
  assert (an = eligible pl) as ->.
  { rewrite Ean. etrans; [|apply (select_true (eligible pl))].
    apply select_ext. intros k Hk. apply bool_decide_eq_true.
    destruct (eligible_in_index a pl p k Hv Hpl Hnd Hk) as (u & b & _ & -> & Hin). by eapply full_tiles. }
  unfold is_complete, make_coverage. simpl. rewrite Hun. change (len []) with 0. rewrite Z.add_0_r.
  assert (List.filter (λ k, negb (bool_decide (k ∈ eligible pl))) (eligible pl) = []) as ->.
  { apply select_none. intros k Hk. by rewrite bool_decide_eq_true_2. }
  rewrite Z.eqb_refl. simpl. unfold status_of.
  assert (0 < len (eligible pl)) as Hpos.
  { destruct (eligible pl) as [|k ks] eqn:Ee; [|unfold len; simpl; lia]. exfalso.
    destruct (pf_chunks _ _ _ Hpl) as [Hne (Hf & _ & _)]. destruct (chunks pl) as [|c cs] eqn:Ec; [done|].
    apply Forall_inv in Hf as (Hpc & _). destruct (pieces c) as [|x xs] eqn:Epc; [done|].
    assert (x ∈ concat cuts) as Hx by (rewrite <-Ecuts; csimpl; rewrite Epc; by left).
    destruct cuts as [|ps cuts]; [by apply not_elem_of_nil in Hx|]. inversion HF as [|ub ? bs ? Hub Hbs Ebs]; subst.
    assert (ub ∈ List.filter (λ ub, is_eligible ub.1) (inventory a)) as Hin by (rewrite <-Ebs; by left).
    destruct ub as [u b]. apply elem_of_select in Hin as [He Hin]. apply inventory_elem in Hin as [Hu Hb].
    destruct (pf_ids _ _ _ Hpl) as (E & _ & _). rewrite Ee in E.
    assert (block_id b ∈ ([] : list uuid)) as Hbad; [|by apply not_elem_of_nil in Hbad]. rewrite E.
    apply list_elem_of_bind. exists u. split; [|by apply elem_of_select]. unfold unit_ids.
    destruct (blocks u) as [|b0 bs'] eqn:Eb; [by apply not_elem_of_nil in Hb|]. rewrite <-Eb in Hb |- *.
    by apply list_elem_of_fmap_2. }
  destruct (Z.eqb_spec (len (eligible pl)) 0); [lia|].
  assert (Qle_bool (minimum_coverage p) (float_div (len (eligible pl)) (len (eligible pl))) = true) as ->; [|done].
  apply Qle_bool_iff. rewrite (float_div_self _ Hpos). apply Qle_bool_iff.
  unfold valid_digestion_profile in Hp. rewrite !andb_true_iff in Hp. by destruct_and! Hp.
Qed.

(** C8: accepted checkpoints always assemble. For a plan built from an artifact, and
    checkpoints that passed acceptance, [make_digest] never fails: the walk from the root
    reaches every claim of every analysed chunk, the findings are exactly those claims in
    document order, and if every chunk was analysed and nothing was unsupported the
    digest is COMPLETE. *)
Theorem accepted_graph_assembles a data ref p pl plan_ref stored refs ordered :
  build_plan a data ref p = Ok pl → NoDup (all_block_ids a) →
  accepted_graph pl plan_ref (build_index a) stored refs ordered →
  ∃ d, make_digest pl plan_ref ordered refs (build_index a) = Ok d ∧
    (∃ rs, Forall2 (λ c r, result_of ordered (chunk_id c) = Some r)
             (List.filter (analysed_in ordered) (chunks pl)) rs ∧ findings d = rs ≫= claims) ∧
    ((∀ c, c ∈ chunks pl → analysed_in ordered c = true) → unsupported_ids pl = [] → da_status d = COMPLETE).
Proof.
  intros (Hv & Hp & _ & _ & _ & Hpl)%build_plan_Ok Hnd [Hst Hdec Eacc Hrefs]. set (i := build_index a) in *.
  assert (NoDup (([] : list (uuid * Checkpoint)).*1 ++ expected_stages pl)) as Hst0 by done.
  destruct (accept_all_keys pl plan_ref i refs stored _ _ _ Hst0 Eacc) as [Hkeys _]. simpl in Hkeys.
  pose proof (accept_all_requests pl plan_ref i refs stored Hdec _ _ _ Hst0 Eacc
                ltac:(by intros k cp ?%not_elem_of_nil)) as Hacc.
  set (graph := raw_graph ordered).
  pose proof (claim_graph_raw pl i refs ordered Hst Hkeys Hacc) as Eg.
  pose proof (raw_graph_keys pl i refs ordered Hst Hkeys Hacc) as Hgk.
  destruct (pf_covers _ _ _ Hpl) as (leaves & Hcov & Hperm).
  assert (root_id pl ∈ expected_stages pl) as Hroot.
  { unfold expected_stages. apply elem_of_app. right. exact (pf_root _ _ _ Hpl). }
  destruct (cps_stage pl ordered Hkeys _ Hroot) as (rcp & Hrcp).
  assert (result_of ordered (root_id pl) = Some (cp_result rcp)) as Eroot.
  { unfold result_of. by rewrite (proj2 (cps_get pl ordered Hst Hkeys _ _) Hrcp). }
  set (todo := rev ((λ c, {| link_stage := root_id pl; link_claim := claim_id c |}) <$> claims (cp_result rcp))).
  assert (∀ k, k ∈ todo → k ∈ graph.*1) as Htodo.
  { intros k Hk. unfold todo in Hk. rewrite elem_of_reverse_list in Hk.
    apply list_elem_of_fmap in Hk as (c & -> & Hc). apply list_elem_of_fmap. exists (link_of (root_id pl) c, c).
    split; [done|]. apply raw_graph_elem. by exists (root_id pl), rcp. }
  destruct (reach_closed graph Hgk (reach_fuel graph todo) [] todo) as (seen & Eseen);
    [apply reach_fuel_enough|done|by eapply graph_closed|].
  destruct (reach_Ok graph Hgk _ _ _ _ Eseen) as [Hin Hclosed]; [by intros k c l ?%not_elem_of_nil|].
  assert (∀ c, c ∈ chunks pl → stage_seen ordered seen (chunk_id c)) as Hseen.
  { intros c Hc. eapply (leaves_seen pl i refs ordered Hst Hkeys Hacc seen [root_id pl] leaves Hclosed Hcov).
    - intros k ->%list_elem_of_singleton cp cl Hcp Hcl. apply Hin. right. unfold todo.
      rewrite elem_of_reverse_list. apply (cps_get pl ordered Hst Hkeys) in Hcp, Hrcp.
      rewrite Hcp in Hrcp. injection Hrcp as ->. apply list_elem_of_fmap. by exists cl.
    - rewrite Hperm. by apply list_elem_of_fmap_2. }
  destruct (analysed_chunks_Ok pl i refs ordered Hst Hkeys Hacc seen (chunks pl)) as (l & El & Hl & Hres); [by eauto|].
  destruct (select_full_Ok i (interval <$> (l ≫= λ cr : AnalysisChunk * StageResult, pieces cr.1)) (eligible pl)) as (an & Ean & Han).
  { intros k Hk. destruct (eligible_in_index a pl p k Hv Hpl Hnd Hk) as (u & b & ? & _). by exists (u, b). }
  unfold make_digest. rewrite Hkeys, Hrefs.
  assert (same_set (expected_stages pl) (expected_stages pl) = true) as -> by by apply same_set_iff.
  cbn [check andb mbind result_bind]. rewrite Eroot. cbv zeta. rewrite Eg. fold graph todo.
  rewrite Eseen. cbn [mbind result_bind]. rewrite El. cbn [mbind result_bind]. rewrite Ean. cbn [mbind result_bind].
  eexists. split; [done|]. cbn [findings da_status]. split.
  - exists l.*2. split; [|by rewrite list_fmap_bind]. rewrite <-Hl. clear -Hres.
    induction l as [|[c r] l IH]; csimpl; constructor; [apply Hres; by left|]. apply IH.
    intros c' r' Hin. apply Hres. by right.
  - intros Hall Hun. rewrite (pf_profile _ _ _ Hpl). by eapply full_status.
Qed.

(** ** Stored checkpoints *)

(** Encoding a result and decoding it gives the result back. *)
Definition round_trips (r : StageResult) : Prop :=
  ∀ t, encode_result r = Ok t → ∃ v, json_loads unique t = Ok v ∧ stage_result_validate v = Ok r.

Lemma check_result_encodes res r i :
  check_result res r i = Ok tt → ∃ t, encode_result res = Ok t ∧ len t ≤ max_result_characters (rq_profile r).
Proof.
  unfold check_result. intros E. apply result_bind_Ok in E as (t & Et & E). planned E.
  apply Z.leb_le in Hc. by exists t.
Qed.

(** C10: what a stage stores is what finalization accepts: a checkpoint that an analysis
    or reduction step produced from the generated bytes passes acceptance against the
    same children, when the bound on response bytes is not below the bound on canonical
    results. *)
Theorem stored_checkpoint_accepted pl plan_ref h i refs cps k limit raw cp :
  stage_checkpoint pl plan_ref h i refs cps k limit raw = Ok cp → round_trips (cp_result cp) →
  max_result_characters (pl_profile pl) ≤ response_byte_limit (pl_profile pl) →
  accept pl plan_ref i refs cps k cp = Ok tt.
Proof.
  unfold stage_checkpoint. intros E Hrt Hbound. apply result_bind_Ok in E as (r & Er & E).
  apply result_bind_Ok in E as (res & Ev & E). apply result_bind_Ok in E as (cs & Ecs & E).
  destruct (inherited_summary res r cs) as [inh props] eqn:Einh. cbv zeta in E.
  apply result_bind_Ok in E as ([] & _ & E). injection E as <-. simpl in Hrt.
  unfold validate_result in Ev. apply result_bind_Ok in Ev as (s & Es & Ev).
  apply result_bind_Ok in Ev as (res' & _ & Ev). apply result_bind_Ok in Ev as ([] & Ec & Ev). injection Ev as ->.
  destruct (check_result_encodes _ _ _ Ec) as (t & Et & Hlen). destruct (Hrt t Et) as (v & Hl & Hv).
  assert (rq_profile r = pl_profile pl) as Epr.
  { unfold stage_request in Er. destruct (dict_get k (plan_nodes pl)) as [[c|n]|]; [| |done].
    - apply result_bind_Ok in Er as ([] & _ & Er). by injection Er as <-.
    - apply result_bind_Ok in Er as (l & _ & Er). apply result_bind_Ok in Er as ([] & _ & Er). by injection Er as <-. }
  unfold accept. rewrite Er. cbn [mbind result_bind cp_parents cp_result].
  rewrite bool_decide_eq_true_2 by done. cbn [check mbind result_bind]. rewrite Et. cbn [mbind result_bind].
  unfold validate_result. rewrite Es. cbn [mbind result_bind].
  assert (decode_result t (response_byte_limit (rq_profile r)) = Ok res) as ->.
  { unfold decode_result. rewrite Epr in *. rewrite (proj2 (Z.ltb_ge _ _)) by lia. by rewrite Hl, Hv. }
  cbn [mbind result_bind]. rewrite Ec. cbn [mbind result_bind]. rewrite Ecs. cbn [mbind result_bind].
  simpl. rewrite Einh. by rewrite bool_decide_eq_true_2.
Qed.

End Theorems.
