(* ===== verification/DigestWitnesses.v ===== *)
(** * A digestion from plan to digest

    The sample plan of three chunks and four reducers, run with the local inference; the
    hypotheses of the digestion theorems hold on it. *)

From stdpp Require Import base tactics list strings option sets.
From Stdlib Require Import ZArith NArith QArith Lia.
From S2P Require Import Prelude Json Contracts ContractFacts JobModels JobLedger Sample ContractTheorems.
From S2P Require Import DigestModels DigestPlanning DigestPlanFacts DigestPlanTheorems DigestValidation DigestArtifacts DigestFlow.
From S2P Require Import DigestCoverage DigestInference DigestTheorems.

Local Open Scope Z_scope.

#[local] Existing Instance sample_runtime.

(** A decoder that knows the canonical text of some results. *)
Definition table_decoder (known : list StageResult) : Decoder := {|
  json_loads := λ _ t, match find_row (λ r, text_eqb (canonical (result_json r)) t) known with
                       | Some r => Ok (result_json r)
                       | None => Err malformed
                       end;
  stage_result_validate := λ v,
    match find_row (λ r, text_eqb (canonical (result_json r)) (canonical v)) known with
    | Some r => Ok r
    | None => Err "other_pydantic_validation"
    end |}.

(** Boolean form of [decodes]. *)
Definition decodes_check `{Decoder} (stored : list (uuid * Checkpoint)) : bool :=
  forallb (λ kc : uuid * Checkpoint,
    match json_loads unique (canonical (result_json (cp_result kc.2))) with
    | Ok v => match stage_result_validate v with
              | Ok r => bool_decide (r = cp_result kc.2)
              | Err _ => true
              end
    | Err _ => true
    end) stored.

Lemma decodes_checked `{Decoder} stored : decodes_check stored = true → decodes stored.
Proof.
  unfold decodes_check. rewrite forallb_elem. intros Hall k cp raw limit res Hin Eraw Edec.
  specialize (Hall (k, cp) Hin). simpl in Hall. unfold encode_result in Eraw.
  destruct (valid_stage_result (cp_result cp)); [|done]. injection Eraw as <-.
  unfold decode_result in Edec. destruct (_ <? _); [done|].
  destruct (json_loads unique _) as [v|[]]; [|done|done].
  destruct (stage_result_validate v); [|done]. injection Edec as ->. by apply bool_decide_eq_true in Hall.
Qed.

(** One fixture, on the block ["cd"]; everything else is an ordinary observation. *)
Definition sample_inference : FakeInference := {|
  fixtures := [{| fx_block := block_id (sample_block 1 3 5 2); fx_text := cps "the block says cd";
                  fx_qualification := Some (cps "in this sample"); fx_subject := Some "letters";
                  fx_stance := affirmed |}];
  config := sample_sha256; fail_first := []; fail_always := []; unavailable_stages := [] |}.

Definition stage_ref (k : uuid) : ObjectRef := {|
  ref_scope := sample_scope; ref_kind := artifact_kind; ref_object_id := k;
  ref_key := object_key sample_scope artifact_kind k; ref_sha256 := sample_sha (cps k);
  ref_byte_size := 1 |}.

Definition sample_plan_ref : ObjectRef := stage_ref "plan".

(** The results and checkpoints of the stages, in topological order. *)
Fixpoint run_stages (pl : Plan) (refs : list (uuid * ObjectRef)) (done_ : list (uuid * Checkpoint))
    (ks : list uuid) : list (uuid * Checkpoint) :=
  match ks with
  | [] => done_
  | k :: ks' =>
      match stage_request pl k done_ refs with
      | Ok r =>
          let res := fake_result sample_inference r in
          match checkpoints_of done_ (children r) with
          | Ok cs =>
              let '(inh, props) := inherited_summary res r cs in
              run_stages pl refs (done_ ++ [(k, {| plan_hash := sample_sha256;
                cp_parents := stage_parents pl sample_plan_ref r; cp_result := res;
                cp_inherited := inh; propositions := props |})]) ks'
          | Err _ => done_
          end
      | Err _ => done_
      end
  end.

Definition sample_refs (pl : Plan) : list (uuid * ObjectRef) := (λ k, (k, stage_ref k)) <$> expected_stages pl.
Definition sample_checkpoints (pl : Plan) : list (uuid * Checkpoint) :=
  run_stages pl (sample_refs pl) [] (expected_stages pl).
Definition sample_decoder (pl : Plan) : Decoder :=
  table_decoder ((λ kc : uuid * Checkpoint, cp_result kc.2) <$> sample_checkpoints pl).
Definition sample_index : EvidenceIndex := build_index sample_extracted.

(** The block ["cd"], cited by the fixture. *)
Definition sample_key : uuid := block_id (sample_block 1 3 5 2).

(** What the run computes: seven checkpoints are accepted, the digest is complete with
    three findings and one synthesis claim, each finding citing one piece. *)
Definition sample_outcome (pl : Plan) : option (nat * bool * DigestStatus * nat * list nat * bool * bool) :=
  let cs := sample_checkpoints pl in
  match @finalize _ (sample_decoder pl) pl sample_plan_ref sample_index cs (sample_refs pl) with
  | Ok d => Some (length cs, bool_decide (NoDup (expected_stages pl)), da_status d,
                  length (synthesis_claims d), (λ c, length (evidence_ids c)) <$> findings d,
                  @decodes_check (sample_decoder pl) cs, bool_decide (sample_key ∈ eligible pl))
  | Err _ => None
  end.

Lemma sample_outcome_computed :
  match sample_planning with
  | Ok pl => sample_outcome pl = Some (7%nat, true, COMPLETE, 1%nat, [1%nat; 1%nat; 1%nat], true, true)
  | Err _ => False
  end.
Proof. vm_compute. reflexivity. Qed.

(** The run, with what the theorems need of it. *)
Lemma sample_run :
  ∃ pl d, sample_planning = Ok pl ∧
    @finalize _ (sample_decoder pl) pl sample_plan_ref sample_index (sample_checkpoints pl) (sample_refs pl) = Ok d ∧
    @decodes _ (sample_decoder pl) (sample_checkpoints pl) ∧ NoDup (expected_stages pl) ∧
    da_status d = COMPLETE ∧ (λ c, length (evidence_ids c)) <$> findings d = [1%nat; 1%nat; 1%nat] ∧
    sample_key ∈ eligible pl.
Proof.
  pose proof sample_outcome_computed as Hc. destruct sample_planning as [pl|]; [|done].
  unfold sample_outcome in Hc.
  destruct (@finalize _ (sample_decoder pl) pl sample_plan_ref sample_index (sample_checkpoints pl) (sample_refs pl))
    as [d|] eqn:Ef; [|done].
  injection Hc as _ Hnd Hst _ Hf Hd Hk. exists pl, d. split_and!; try done.
  - by apply decodes_checked.
  - by apply bool_decide_eq_true in Hnd.
  - by apply bool_decide_eq_true in Hk.
Qed.

Lemma digest_grounded_witness :
  ∃ pl d c e p, sample_planning = Ok pl ∧ c ∈ findings d ++ synthesis_claims d ∧
    e ∈ evidence_ids c ++ contradicting c ∧
    p ∈ (chunks pl ≫= pieces) ∧ evidence_id p = e ∧ index_resolve sample_index (evidence p) = Ok (pc_text p).
Proof.
  destruct sample_run as (pl & d & Ep & Ef & Hd & _ & _ & Hf & _).
  destruct (findings d) as [|c cs] eqn:Efd; [discriminate Hf|]. injection Hf as Hc _.
  destruct (evidence_ids c) as [|e es] eqn:Ee; [discriminate Hc|].
  assert (c ∈ findings d ++ synthesis_claims d) as Hin by (rewrite Efd; by left).
  assert (e ∈ evidence_ids c ++ contradicting c) as Hine by (rewrite Ee; by left).
  destruct (@digest_grounded _ (sample_decoder pl) pl sample_plan_ref sample_index (sample_checkpoints pl)
              (sample_refs pl) d c e Ef Hd Hin Hine) as (p & Hp).
  exists pl, d, c, e, p. exact (conj Ep (conj Hin (conj Hine Hp))).
Defined.

Lemma complete_covers_source_witness :
  ∃ pl d cps, da_status d = COMPLETE ∧ sample_key ∈ eligible pl ∧ unsupported_ids pl = [] ∧
  ∃ c r p, c ∈ chunks pl ∧ p ∈ pieces c ∧ result_of cps (chunk_id c) = Some r ∧
    sr_outcome r = analyzed_outcome ∧ (∀ cl, cl ∈ claims r → cl ∈ findings d) ∧
    ev_block_id (evidence p) = sample_key ∧ sp_start (ev_span (evidence p)) ≤ 4 < sp_end (ev_span (evidence p)).
Proof.
  destruct sample_run as (pl & d & _ & Ef & _ & _ & Hst & _ & Hk).
  unfold finalize in Ef. apply result_bind_Ok in Ef as (cps & _ & Ef).
  apply result_bind_Ok in Ef as (d' & Ed & Ef). apply result_bind_Ok in Ef as (x & _ & Ef).
  injection Ef as ->. exists pl, d, cps. split; [exact Hst|]. split; [exact Hk|].
  apply (@complete_covers_source _ pl sample_plan_ref cps (sample_refs pl) sample_extracted d sample_key
           sample_unit (sample_block 1 3 5 2) 4 Ed Hst Hk); [vm_compute; reflexivity|].
  simpl. lia.
Defined.

Lemma accepted_graph_assembles_witness :
  ∃ pl ordered d, sample_planning = Ok pl ∧
    make_digest pl sample_plan_ref ordered (sample_refs pl) sample_index = Ok d ∧
    (∃ rs, Forall2 (λ c r, result_of ordered (chunk_id c) = Some r)
             (List.filter (analysed_in ordered) (chunks pl)) rs ∧ findings d = rs ≫= claims) ∧
    ((∀ c, c ∈ chunks pl → analysed_in ordered c = true) → unsupported_ids pl = [] → da_status d = COMPLETE).
Proof.
  destruct sample_run as (pl & d & Ep & Ef & Hd & Hnd & _ & _ & _).
  unfold finalize in Ef. apply result_bind_Ok in Ef as (ordered & Ea & _). exists pl, ordered.
  assert (NoDup (all_block_ids sample_extracted)) as Hb.
  { refine (bool_decide_unpack _ _). vm_compute. exact I. }
  assert (same_set (sample_refs pl).*1 (expected_stages pl) = true) as Hrefs.
  { unfold sample_refs. rewrite <-list_fmap_compose, list_fmap_id. by apply same_set_iff. }
  destruct (@accepted_graph_assembles _ (sample_decoder pl) sample_extracted sample_data sample_extraction_ref
              sample_digestion pl sample_plan_ref (sample_checkpoints pl) (sample_refs pl) ordered Ep Hb
              (Build_accepted_graph _ _ _ _ _ _ Hnd Hd Ea Hrefs)) as (d' & Hd').
  exists d'. exact (conj Ep Hd').
Defined.

(** The first stage's bytes are its canonical result. *)
Definition first_stage (pl : Plan) : uuid := default EmptyString (head (expected_stages pl)).

Definition first_result (pl : Plan) : option StageResult :=
  match stage_request pl (first_stage pl) [] [] with
  | Ok r => Some (fake_result sample_inference r)
  | Err _ => None
  end.

Definition first_decoder (pl : Plan) : Decoder := table_decoder (option_list (first_result pl)).

Definition first_checkpoint (pl : Plan) (raw : text) : result digest_exn Checkpoint :=
  @stage_checkpoint _ (first_decoder pl) pl sample_plan_ref sample_sha256 sample_index [] []
    (first_stage pl) 1000 raw.

Lemma table_round_trips r : @round_trips _ (table_decoder [r]) r.
Proof.
  intros t. unfold encode_result. destruct (valid_stage_result r); [|done]. intros [= <-].
  exists (result_json r). unfold table_decoder, find_row. cbn [json_loads stage_result_validate List.find].
  unfold text_eqb. by rewrite bool_decide_eq_true_2.
Qed.

Lemma first_checkpoint_computed :
  match sample_planning with
  | Ok pl =>
      match first_result pl with
      | Some res => match first_checkpoint pl (canonical (result_json res)) with
                    | Ok cp => bool_decide (cp_result cp = res) = true
                    | Err _ => False
                    end
      | None => False
      end ∧ (max_result_characters (pl_profile pl) <=? response_byte_limit (pl_profile pl)) = true
  | Err _ => False
  end.
Proof. vm_compute. split; reflexivity. Qed.

Lemma stored_checkpoint_accepted_witness :
  ∃ pl cp, sample_planning = Ok pl ∧
    @accept _ (first_decoder pl) pl sample_plan_ref sample_index [] [] (first_stage pl) cp = Ok tt.
Proof.
  pose proof first_checkpoint_computed as Hc. destruct sample_planning as [pl|e] eqn:Ep; [|destruct Hc].
  destruct Hc as [Hc Hb]. destruct (first_result pl) as [res|] eqn:Er; [|destruct Hc].
  destruct (first_checkpoint pl (canonical (result_json res))) as [cp|e] eqn:Ef; [|destruct Hc].
  exists pl, cp. split; [reflexivity|]. apply Z.leb_le in Hb.
  refine (@stored_checkpoint_accepted _ (first_decoder pl) pl sample_plan_ref sample_sha256 sample_index [] []
            (first_stage pl) 1000 (canonical (result_json res)) cp Ef _ Hb).
  apply bool_decide_eq_true in Hc. rewrite Hc. unfold first_decoder. rewrite Er. apply table_round_trips.
Defined.

(** ** A response bound below the canonical bound

    A profile may set [max_response_bytes] below [max_result_characters].  A stage then
    accepts a compact response whose canonical form is longer than the response bound,
    and the digest step, which decodes the stored canonical form under the same bound,
    rejects the checkpoint that the stage committed. *)

Definition gap_profile (n : Z) : DigestionProfile := {|
  dp_version := "digestion/1"; structure_profile := "source-structure/1";
  chunking_profile := "analysis-chunks/1"; inference_profile := "deterministic/1";
  inference_config := sample_sha256; reducer_profile := "lineage-reduction/1";
  prompt_profile := "structured-data/1"; dp_context_tokens := 100000; reserved_output_tokens := 1000;
  template_tokens := 10; chunk_characters := 2; max_fan_in := 2; max_result_characters := 4000;
  max_response_bytes := Some n; managed_input_budget := None; max_claims := 8;
  max_claim_characters := 1024; max_annotations := 8; max_source_units := 100; max_chunks := 10;
  max_steps := 20; dp_max_artifact_bytes := 1000000; max_depth := 4; allow_partial := false;
  minimum_coverage := 1; max_failed_units := 0 |}.

(** The response without the fields that have defaults. *)
Definition compact_json (r : StageResult) : json :=
  JObj [("stage_id", jstr (sr_stage_id r)); ("kind", jstr "analysis");
        ("claims", JArr ((λ c, JObj [("claim_id", jstr (claim_id c));
            ("originating_stage", jstr (originating_stage c)); ("text", JStr (c_text c));
            ("kind", jstr "fact"); ("evidence_ids", ids_json (evidence_ids c))]) <$> claims r))].

(** Both forms of the result decode to it. *)
Definition gap_decoder (r : StageResult) : Decoder := {|
  json_loads := λ _ t, if text_eqb t (canonical (compact_json r)) then Ok (compact_json r)
                       else if text_eqb t (canonical (result_json r)) then Ok (result_json r)
                       else Err malformed;
  stage_result_validate := λ v,
    if text_eqb (canonical v) (canonical (compact_json r)) || text_eqb (canonical v) (canonical (result_json r))
    then Ok r else Err "other_pydantic_validation" |}.

Definition gap_run (n : Z) : option (bool * result digest_exn unit) :=
  match build_plan sample_extracted sample_data sample_extraction_ref (gap_profile n) with
  | Ok pl =>
      res ← first_result pl;
      match @stage_checkpoint _ (gap_decoder res) pl sample_plan_ref sample_sha256 sample_index [] []
              (first_stage pl) 1000 (canonical (compact_json res)) with
      | Ok cp => Some (valid_digestion_profile (gap_profile n),
                   @accept _ (gap_decoder res) pl sample_plan_ref sample_index [] [] (first_stage pl) cp)
      | Err _ => None
      end
  | Err _ => None
  end.

(** The profile is valid, the stage commits its checkpoint, finalization refuses it. *)
Example response_bound_gap :
  gap_run 300 = Some (true, Err (DigestionErr "synthesis_limit_exceeded" "response_limit" "raw_response_limit")).
Proof. vm_compute. reflexivity. Qed.
