(* ===== verification/DigestWorkflow.v ===== *)
(** * Digestion as steps of a job

    [documents/digestion/workflow.py] and the codec of [documents/digestion/codec.py]: models are
    written to and read from the object store as canonical JSON; a plan becomes the steps of a
    job; [DigestionHandler] executes a step through the store it is given. *)

From stdpp Require Import base tactics list strings option.
From Stdlib Require Import ZArith NArith QArith Lia.
From S2P Require Import Prelude Json Contracts JobModels JobLedger Storage Utf8 Extraction DigestModels DigestPlanning DigestValidation DigestArtifacts DigestFlow.

Local Open Scope Z_scope.

(** ** Models as JSON *)

Definition unit_kind_text (k : UnitKind) : string :=
  match k with
  | k_document => "document" | k_section => "section" | k_subsection => "subsection" | k_fallback => "fallback"
  end.

Definition unit_source_text (s : UnitSource) : string :=
  match s with
  | canonical_heading => "canonical-heading" | canonical_page => "canonical-page"
  | canonical_text => "canonical-text" | from_root => "root"
  end.

Definition confidence_text (c : Confidence) : string :=
  match c with source_declared => "source-declared" | fallback_confidence => "fallback" end.

Definition structural_unit_json (u : StructuralUnit) : json :=
  JObj [("structural_unit_id", juuid (structural_unit_id u)); ("parent_id", jopt juuid (su_parent_id u));
        ("child_ids", ids_json (su_child_ids u)); ("order", JInt (su_order u));
        ("kind", jstr (unit_kind_text (su_kind u))); ("heading", jopt JStr (heading u));
        ("path", JArr (JStr <$> su_path u)); ("source", jstr (unit_source_text (su_source u)));
        ("confidence", jstr (confidence_text (confidence u))); ("block_ids", ids_json (su_block_ids u));
        ("source_ids", ids_json (su_source_ids u)); ("physical_pages", JArr (JInt <$> physical_pages u))].

Definition structure_json (m : StructuralMap) : json :=
  JObj [("schema_version", jstr "structure/1"); ("extraction", ref_json (sm_extraction m));
        ("document_version_id", juuid (sm_version_id m)); ("profile", jstr (sm_profile m));
        ("units", JArr (structural_unit_json <$> sm_units m))].

Definition chunk_json (c : AnalysisChunk) : json :=
  JObj [("schema_version", jstr "analysis-chunk/1"); ("chunk_id", juuid (chunk_id c));
        ("document_version_id", juuid (ac_version_id c)); ("structural_parent", juuid (ac_parent c));
        ("path", JArr (JStr <$> ac_path c)); ("sequence", JInt (sequence c)); ("profile", jstr (ac_profile c));
        ("pieces", JArr (piece_json <$> pieces c)); ("estimated_tokens", JInt (ac_tokens c));
        ("overlap_with", JArr [])].

Definition reducer_json (n : ReductionNode) : json :=
  JObj [("stage_id", juuid (rn_stage_id n)); ("structural_parent", juuid (rn_parent n));
        ("children", ids_json (rn_children n)); ("level", JInt (level n));
        ("path", JArr (JStr <$> rn_path n)); ("estimated_tokens", JInt (rn_tokens n))].

Definition plan_json (pl : Plan) : json :=
  JObj [("schema_version", jstr "digestion-plan/1"); ("profile", digestion_profile_json (pl_profile pl));
        ("structure", structure_json (structure pl)); ("chunks", JArr (chunk_json <$> chunks pl));
        ("reducers", JArr (reducer_json <$> reducers pl)); ("root_id", juuid (root_id pl));
        ("eligible", ids_json (eligible pl)); ("skipped", ids_json (skipped pl));
        ("unsupported", ids_json (unsupported_ids pl))].

Definition proposition_json (p : Proposition_) : json :=
  JObj [("subject", jstr (prop_subject p)); ("affirmed", JBool (prop_affirmed p)); ("denied", JBool (prop_denied p))].

Definition checkpoint_json (c : Checkpoint) : json :=
  JObj [("schema_version", jstr "synthesis-checkpoint/1"); ("plan_hash", jstr (plan_hash c));
        ("parents", JArr (ref_json <$> cp_parents c)); ("result", result_json (cp_result c));
        ("inherited", inherited_json (cp_inherited c)); ("propositions", JArr (proposition_json <$> propositions c))].

Definition coverage_json (c : Coverage) : json :=
  JObj [("schema_version", jstr "coverage/1"); ("eligible", ids_json (cv_eligible c));
        ("analyzed", ids_json (analyzed c)); ("failed", ids_json (cv_failed c)); ("skipped", ids_json (cv_skipped c));
        ("unsupported", ids_json (cv_unsupported c)); ("included", ids_json (included c));
        ("fraction", JFloat (fraction c))].

Definition contradiction_json (c : Contradiction) : json :=
  JObj [("subject", jstr (ct_subject c)); ("affirmed", ids_json (ct_affirmed c));
        ("denied", ids_json (ct_denied c)); ("resolution", jstr "unresolved")].

Definition section_json (s : SectionSummary) : json :=
  JObj [("structural_unit_id", juuid (ss_unit s)); ("stage_id", juuid (ss_stage s)); ("synthesis", JStr (synthesis s))].

Definition qualification_json (q : Qualification) : json :=
  JObj [("text", JStr (q_text q)); ("evidence_ids", ids_json (q_evidence q))].

Definition status_text (s : DigestStatus) : string :=
  match s with COMPLETE => "COMPLETE" | PARTIAL => "PARTIAL" | FAILED => "FAILED" end.

Definition digest_fields (d : DigestArtifact) (qs cps : list json) : list (string * json) :=
  [("schema_version", jstr "document-digest/1"); ("document_version_id", juuid (da_version_id d));
   ("extraction", ref_json (da_extraction d)); ("plan", ref_json (da_plan d)); ("profile", jstr (da_profile d));
   ("status", jstr (status_text (da_status d))); ("executive_summary", JStr (executive_summary d));
   ("root", juuid (da_root d)); ("sections", JArr (section_json <$> sections d));
   ("findings", JArr (claim_json <$> findings d)); ("synthesis_claims", JArr (claim_json <$> synthesis_claims d));
   ("qualifications", JArr qs); ("contradictions", JArr (contradiction_json <$> contradictions d));
   ("open_questions", JArr (JStr <$> da_open_questions d)); ("coverage", coverage_json (da_coverage d));
   ("limitations", JArr (JStr <$> da_limitations d)); ("evidence", JArr (evidence_json <$> da_evidence d));
   ("checkpoints", JArr cps)].

Definition digest_json (d : DigestArtifact) : json :=
  JObj (digest_fields d (qualification_json <$> da_qualifications d) (ref_json <$> da_checkpoints d)).

(** ** Field constraints and validators *)

Section Valid.
Context `{Runtime}.

Definition valid_structural_map (m : StructuralMap) : bool :=
  valid_object_ref (sm_extraction m) && is_digest (sm_profile m) && forallb (λ u, 0 <=? su_order u) (sm_units m)
  && match structural_tree m with Ok _ => true | Err _ => false end.

Definition valid_chunk (c : AnalysisChunk) : bool :=
  (0 <=? sequence c) && is_digest (ac_profile c) && (0 <=? ac_tokens c)
  && forallb (λ p, valid_span (ev_span (evidence p))) (pieces c).

Definition valid_reducer (n : ReductionNode) : bool := (1 <=? level n) && (0 <=? rn_tokens n).

Definition valid_plan_model (pl : Plan) : bool :=
  valid_digestion_profile (pl_profile pl) && valid_structural_map (structure pl)
  && forallb valid_chunk (chunks pl) && forallb valid_reducer (reducers pl).

Definition valid_inherited (i : InheritedSummary) : bool :=
  (0 <=? analyzed_pieces i) && (0 <=? failed_pieces i) && (0 <=? n_qualifications i) && (0 <=? n_contradictions i)
  && (0 <=? n_open_questions i).

Definition valid_checkpoint (c : Checkpoint) : bool :=
  is_digest (plan_hash c) && forallb valid_object_ref (cp_parents c) && valid_stage_result (cp_result c)
  && valid_inherited (cp_inherited c) && forallb (λ p, is_token (prop_subject p)) (propositions c).

Definition valid_coverage (c : Coverage) : bool := Qle_bool 0 (fraction c) && Qle_bool (fraction c) 1.

Definition valid_digest (d : DigestArtifact) : bool :=
  valid_object_ref (da_extraction d) && valid_object_ref (da_plan d) && is_digest (da_profile d)
  && is_Text (executive_summary d) && forallb (λ s, is_Text (synthesis s)) (sections d)
  && forallb valid_claim (findings d) && forallb valid_claim (synthesis_claims d)
  && forallb (λ q, is_Text (q_text q)) (da_qualifications d)
  && forallb (λ c, is_token (ct_subject c)) (contradictions d)
  && forallb is_Text (da_open_questions d) && valid_coverage (da_coverage d) && forallb is_Text (da_limitations d)
  && forallb (λ e, valid_span (ev_span e)) (da_evidence d) && forallb valid_object_ref (da_checkpoints d).

End Valid.

(** ** [documents/digestion/codec.py] *)

(** What the codec uses of a pydantic model: [model_dump(mode='json')], whether
    [model_validate] accepts the dump, and [model_validate] itself, which is pydantic's. *)
Class Model (A : Type) := { dump : A → json; revalidates : A → bool }.
Class Parses (A : Type) := model_validate : json → result string A.

Section Models.
Context `{Runtime}.
#[export] Instance plan_model : Model Plan := {| dump := plan_json; revalidates := valid_plan_model |}.
#[export] Instance structure_model : Model StructuralMap :=
  {| dump := structure_json; revalidates := valid_structural_map |}.
#[export] Instance checkpoint_model : Model Checkpoint :=
  {| dump := checkpoint_json; revalidates := valid_checkpoint |}.
#[export] Instance coverage_model : Model Coverage := {| dump := coverage_json; revalidates := valid_coverage |}.
#[export] Instance digest_model : Model DigestArtifact := {| dump := digest_json; revalidates := valid_digest |}.
End Models.

(** A [DigestionError] leaves a program as its category. *)
Definition digestion_exn (e : digest_exn) : exn :=
  match e with DigestionErr c _ _ => DigErr c | OtherError | Stuck => OtherExn end.

Definition digested {A} (r : result digest_exn A) : handling A :=
  from_result (match r with Ok a => Ok a | Err e => Err (digestion_exn e) end).

Section Codec.
Context `{Runtime} `{Decoder}.

Definition encode_model {A} `{Model A} (a : A) : result digest_exn text :=
  if revalidates a then Ok (canonical (dump a))
  else Err (DigestionError "inference_contract_error" "canonical_serialization" "canonical_revalidation_failed").

Definition decode_model {A} `{Parses A} (data : text) (limit : Z) : result digest_exn A :=
  if limit <? len data then Err (response_error "raw_response_limit")
  else match json_loads unique data with
       | Err hook_raised =>
           Err (DigestionError "inference_contract_error" "duplicate_json_key" "duplicate_json_key")
       | Err malformed => Err (DigestionError "inference_contract_error" "json_decode" "malformed_json")
       | Ok payload =>
           match model_validate payload with
           | Ok a => Ok a
           | Err reason => Err (DigestionError "inference_contract_error" "pydantic_validation" reason)
           end
       end.

Definition object_identity (v : json) : uuid := stable_id [cps "digestion-object/1"; cps (fingerprint v)].

Definition put_model {A} `{Model A} (sc : Scope) (a : A) (limit : Z) : handling ObjectRef :=
  data ← digested (encode_model a);
  _ ← digested (check (len data <=? limit) limit_exceeded);
  put_object sc artifact_kind (object_identity (dump a)) data limit None.

Definition read_model {A} `{Parses A} (sc : Scope) (ref : ObjectRef) (limit : Z) : handling A :=
  data ← read_object sc ref limit;
  digested (decode_model data limit).

(** [deserialize] of [documents/serialization.py]: every failure is [serialization_error]. *)
Definition deserialize `{Parses ExtractionArtifact} (data : text) (max_bytes : Z) : result exn ExtractionArtifact :=
  if max_bytes <? len data then doc_error "serialization_error"
  else match utf8_decode data with
       | None => doc_error "serialization_error"
       | Some t =>
           match json_loads unique t with
           | Err _ => doc_error "serialization_error"
           | Ok payload =>
               match model_validate payload with
               | Ok a => Ok a
               | Err _ => doc_error "serialization_error"
               end
           end
       end.

Definition read_artifact `{Parses ExtractionArtifact} (sc : Scope) (ref : ObjectRef) (limit : Z)
    : handling ExtractionArtifact :=
  data ← read_object sc ref limit;
  from_result (deserialize data limit).

End Codec.
