(* ===== verification/DigestSteps.v ===== *)
(** * The steps of a digestion job and their handler

    [classify_digestion], [specs], [prepare], [DigestionHandler] and [load_digest] of
    [documents/digestion/workflow.py].  The handler is a program over the store and the ledger it
    is given; the generating model is a parameter. *)

From stdpp Require Import base tactics list strings option.
From Stdlib Require Import ZArith NArith QArith Lia.
From S2P Require Import Prelude Json Contracts JobModels JobLedger Storage Extraction DigestModels DigestPlanning DigestValidation DigestArtifacts DigestFlow DigestWorkflow.

Local Open Scope Z_scope.

(** Equality of plans is equality of their fields (a float is one fixed fraction). *)
#[export] Instance Q_fraction_eq_dec : EqDecision Q.
Proof. solve_decision. Defined.
#[export] Instance ManagedInputBudget_eq_dec : EqDecision ManagedInputBudget.
Proof. solve_decision. Defined.
#[export] Instance DigestionProfile_eq_dec : EqDecision DigestionProfile.
Proof. solve_decision. Defined.
#[export] Instance UnitSource_eq_dec : EqDecision UnitSource.
Proof. solve_decision. Defined.
#[export] Instance Confidence_eq_dec : EqDecision Confidence.
Proof. solve_decision. Defined.
#[export] Instance StructuralUnit_eq_dec : EqDecision StructuralUnit.
Proof. solve_decision. Defined.
#[export] Instance StructuralMap_eq_dec : EqDecision StructuralMap.
Proof. solve_decision. Defined.
#[export] Instance Limitation_eq_dec : EqDecision Limitation.
Proof. solve_decision. Defined.
#[export] Instance SourcePiece_eq_dec : EqDecision SourcePiece.
Proof. solve_decision. Defined.
#[export] Instance AnalysisChunk_eq_dec : EqDecision AnalysisChunk.
Proof. solve_decision. Defined.
#[export] Instance ReductionNode_eq_dec : EqDecision ReductionNode.
Proof. solve_decision. Defined.
#[export] Instance Plan_eq_dec : EqDecision Plan.
Proof. solve_decision. Defined.

(** ** [classify_digestion] *)

Definition digestion_category (c : string) : string :=
  if bool_decide (c = "evidence_validation_failed") then "invalid_reference"
  else if bool_decide (c = "synthesis_limit_exceeded") then "extraction_limit_exceeded"
  else if bool_decide (c = "incompatible_checkpoint") then "profile_mismatch"
  else if bool_decide (c = "inference_contract_error") then "serialization_error"
  else if bool_decide (c = "structural_planning_failed") then "invalid_document"
  else "extraction_failed".

Definition classify_digestion (e : exn) : Failure :=
  match e with
  | DigErr c => classify (DocErr (digestion_category c)) false
  | _ => classify e false
  end.

Section Steps.
Context `{Runtime}.
(** How pydantic dumps a datetime. *)
Variable datetime_json : Z → text.

(** ** [specs] *)

Definition plan_fingerprint (pl : Plan) : digest := fingerprint (plan_json pl).

Definition anchor (plan_ref : ObjectRef) : string := "plan/" +:+ ref_object_id plan_ref.

Definition specs (pl : Plan) (plan_ref : ObjectRef) : list StepSpec :=
  let h := plan_fingerprint pl in
  [{| unit_id := anchor plan_ref; stage := Stage.NORMALIZING; schema_version := "digestion-plan/1";
      config_fingerprint := h; depends_on := [] |}]
  ++ ((λ c, {| unit_id := chunk_id c; stage := Stage.NORMALIZING; schema_version := "stage-result/1";
               config_fingerprint := h; depends_on := [anchor plan_ref] |}) <$> chunks pl)
  ++ ((λ n, {| unit_id := rn_stage_id n; stage := Stage.NORMALIZING; schema_version := "stage-result/1";
               config_fingerprint := h; depends_on := rn_children n |}) <$> reducers pl)
  ++ [{| unit_id := "digest"; stage := Stage.VALIDATING; schema_version := "document-digest/1";
         config_fingerprint := h; depends_on := [root_id pl] |}].

(** [build_plan] with the bytes of the artifact; a failure to serialize is a planning failure. *)
Definition plan_of (a : ExtractionArtifact) (ref : ObjectRef) (p : DigestionProfile) : result digest_exn Plan :=
  match serialize datetime_json a with
  | Ok data => build_plan a (sha256_hex data, len data) ref p
  | Err _ => Err planning_failed
  end.

Definition prepare (a : ExtractionArtifact) (ref : ObjectRef) (p : DigestionProfile) : handling (Plan * ObjectRef) :=
  pl ← digested (plan_of a ref p);
  plan_ref ← put_model (doc_scope (document a)) pl (dp_max_artifact_bytes p);
  mret (pl, plan_ref).

(** The request of [admit] for a plan of the artifact; [pv] is the artifact's parser version as a
    token. *)
Definition digest_admission (a : ExtractionArtifact) (pl : Plan) (plan_ref : ObjectRef) (pv key : string)
    (resume : option uuid) (rt : option RetryPolicy) : Admission :=
  let doc := document a in {|
  a_scope := doc_scope doc; a_document_id := document_id doc; a_document_version_id := document_version_id doc;
  a_source := doc_source doc; request_idempotency_key := key; a_display_filename := display_filename doc;
  a_mime := detected_mime doc;
  profile := {| version := dp_version (pl_profile pl); parser_version := pv;
                p_max_source_bytes := max_source_bytes a; p_max_pages := max_pages a;
                p_max_characters := max_characters a; p_max_blocks := max_blocks a;
                p_max_artifact_bytes := dp_max_artifact_bytes (pl_profile pl);
                p_structure_required := art_structure_required a;
                retry := default {| max_attempts := 3; base_seconds := 1; max_seconds := inject_Z 60;
                                    budget_seconds := inject_Z 3600; jitter_fraction := 0 |} rt |};
  steps := specs pl plan_ref; resume_from := resume |}.

(** ** [DigestionHandler] *)

Context `{Decoder} `{Parses Plan} `{Parses ExtractionArtifact} `{Parses Checkpoint} `{Parses DigestArtifact}.

Variable plan_ref : ObjectRef.
(** [self.analyze], the model: the bytes generated for a request. *)
Variable analyze : StageRequest → result exn text.
(** The order in which a set of keys is iterated. *)
Variable iterate : list string → list string.

(** [_load]; [loaded] is the planning cache of the handler, filled by its first step. *)
Definition load_plan (sc : Scope) (limit : Z) : handling (Plan * ExtractionArtifact) :=
  pl ← read_model sc plan_ref limit;
  a ← read_artifact sc (sm_extraction (structure pl)) limit;
  pl' ← digested (plan_of a (sm_extraction (structure pl)) (pl_profile pl));
  _ ← digested (check (bool_decide (pl' = pl)) incompatible);
  mret (pl, a).

Definition _load (loaded : option (Plan * ExtractionArtifact)) (sc : Scope) (limit : Z)
    : handling (Plan * ExtractionArtifact) :=
  '(pl, a) ← match loaded with Some l => mret l | None => load_plan sc limit end;
  _ ← digested (check (bool_decide (sc = ref_scope plan_ref)
                       && (limit =? dp_max_artifact_bytes (pl_profile pl))) incompatible);
  mret (pl, a).

(** [steps[key]], with [steps] a dict of the job's steps by unit. *)
Definition step_of (key : string) (ss : list (step_row * list ObjectRef)) : option (step_row * list ObjectRef) :=
  find_row (λ s, bool_decide (unit_id (spec s.1) = key)) (rev ss).

(** [for key in wanted]: the accepted checkpoints of the units, and their references. *)
Fixpoint read_checkpoints (sc : Scope) (limit : Z) (h : digest) (first_ : string)
    (ss : list (step_row * list ObjectRef)) (cps : list (uuid * Checkpoint)) (refs : list (uuid * ObjectRef))
    (wanted : list string) : handling (list (uuid * Checkpoint) * list (uuid * ObjectRef)) :=
  match wanted with
  | [] => mret (cps, refs)
  | key :: wanted' =>
      if bool_decide (key = first_) then read_checkpoints sc limit h first_ ss cps refs wanted'
      else match step_of key ss with
           | None => Raise KeyError
           | Some (child, manifest) =>
               match manifest with
               | [ref] =>
                   _ ← digested (check (bool_decide (s_state child = StepState.SUCCEEDED)) incompatible);
                   cp ← read_model (A := Checkpoint) sc ref limit;
                   _ ← digested (check (bool_decide (plan_hash cp = h)
                                        && bool_decide (sr_stage_id (cp_result cp) = key)) incompatible);
                   let k := sr_stage_id (cp_result cp) in
                   read_checkpoints sc limit h first_ ss (dict_set k cp cps) (dict_set k ref refs) wanted'
               | _ => digested (Err incompatible)
               end
           end
  end.

(** The set [wanted] of a step. *)
Definition wanted_units (pl : Plan) (sp : StepSpec) : list string :=
  iterate (remove_dups (if bool_decide (unit_id sp = "digest")
                        then (chunk_id <$> chunks pl) ++ (rn_stage_id <$> reducers pl) else depends_on sp)).

(** The step belongs to a job admitted for this plan. *)
Definition step_expected (pl : Plan) (a : ExtractionArtifact) (rq : Admission) (sp : StepSpec) : bool :=
  bool_decide (steps rq = specs pl plan_ref) && bool_decide (sp ∈ specs pl plan_ref)
  && bool_decide (a_source rq = doc_source (document a))
  && bool_decide (a_document_version_id rq = sm_version_id (structure pl)).

Definition digest_step (sc : Scope) (limit : Z) (pl : Plan) (a : ExtractionArtifact)
    (cps : list (uuid * Checkpoint)) (refs : list (uuid * ObjectRef)) : handling (list ObjectRef) :=
  _ ← inspect_object sc (sm_extraction (structure pl)) limit;
  _ ← inspect_object sc plan_ref limit;
  d ← digested (finalize pl plan_ref (build_index a) cps refs);
  digest_ref ← put_model sc d limit;
  coverage_ref ← put_model sc (da_coverage d) limit;
  mret [digest_ref; coverage_ref].

Definition stage_step (sc : Scope) (limit : Z) (pl : Plan) (a : ExtractionArtifact) (k : uuid)
    (cps : list (uuid * Checkpoint)) (refs : list (uuid * ObjectRef)) : handling (list ObjectRef) :=
  r ← digested (stage_request pl k cps refs);
  raw ← from_result (analyze r);
  cp ← digested (stage_checkpoint pl plan_ref (plan_fingerprint pl) (build_index a) refs cps k limit raw);
  ref ← put_model sc cp limit;
  mret [ref].

Definition digestion_handler (loaded : option (Plan * ExtractionArtifact)) (job : job_row)
    (step : step_row * list ObjectRef) : handling (list ObjectRef) :=
  let sc := a_scope (request job) in
  let limit := p_max_artifact_bytes (profile (request job)) in
  let sp := spec step.1 in
  '(pl, a) ← _load loaded sc limit;
  _ ← digested (check (step_expected pl a (request job) sp) incompatible);
  if bool_decide (unit_id sp = anchor plan_ref) then
    r1 ← put_model sc pl limit;
    r2 ← put_model sc (structure pl) limit;
    mret [r1; r2]
  else
    ss ← steps_in sc (job_id job);
    '(cps, refs) ← read_checkpoints sc limit (plan_fingerprint pl) (anchor plan_ref) ss [] [] (wanted_units pl sp);
    if bool_decide (unit_id sp = "digest") then digest_step sc limit pl a cps refs
    else stage_step sc limit pl a (unit_id sp) cps refs.

(** ** [load_digest] *)

Definition load_digest (sc : Scope) (id : uuid) : handling DigestArtifact :=
  job ← job_of sc id;
  ss ← steps_in sc id;
  match find_row (λ s, bool_decide (unit_id (spec s.1) = "digest")) ss with
  | Some (step, [ref; _]) =>
      _ ← digested (check (bool_decide (s_state step = StepState.SUCCEEDED)) (plain_error "coverage_failed"));
      d ← read_model sc ref (p_max_artifact_bytes (profile (request job)));
      _ ← digested (check (negb (bool_decide (da_status d = FAILED))
                           && bool_decide (da_version_id d = a_document_version_id (request job))) incompatible);
      mret d
  | _ => digested (Err (plain_error "coverage_failed"))
  end.

End Steps.
