(* ===== verification/DigestStepsTheorems.v ===== *)
(** * A plan is admissible as a job

    The steps of a digestion form a plan the ledger accepts: distinct units, dependencies
    before their dependents and without repetition, within the ledger's limits. *)

From stdpp Require Import base tactics list strings option sets.
From Stdlib Require Import ZArith NArith QArith Lia.
From S2P Require Import Prelude Json Contracts ContractFacts JobModels JobLedger Sample ContractTheorems Storage Extraction ExtractionTheorems.
From S2P Require Import DigestModels DigestPlanning DigestPlanFacts DigestPlanTree DigestPlanReduce DigestPlanForest DigestPlanTheorems.
From S2P Require Import DigestValidation DigestArtifacts DigestFlow DigestCoverage DigestWorkflow DigestSteps.

Local Open Scope Z_scope.

(** The text of a UUID: hexadecimal digits and hyphens. *)
Definition uuid_text (k : uuid) : bool :=
  (1 <=? len (cps k)) && (len (cps k) <=? 36) && forallb (λ c, is_hex c || (c =? 45)%N) (cps k).

Lemma uuid_token k : uuid_text k = true → is_token k = true.
Proof.
  unfold uuid_text, is_token. rewrite !andb_true_iff, !Z.leb_le. intros [[? ?] Hc]. split_and!; [lia|lia|].
  rewrite forallb_forall in *. intros c Hin. specialize (Hc c Hin). unfold is_hex in Hc. unfold token_char.
  rewrite !orb_true_iff, !andb_true_iff, !N.leb_le, !N.eqb_eq in *. lia.
Qed.

Lemma uuid_not k (c : N) : uuid_text k = true → c ∈ cps k → is_hex c || (c =? 45)%N = true.
Proof.
  unfold uuid_text. rewrite !andb_true_iff. intros [_ Hc] Hin. rewrite forallb_forall in Hc.
  apply Hc. by apply list_elem_of_In.
Qed.

(** Plan lists in pieces. *)
Lemma valid_plan_app seen l l' :
  valid_plan seen (l ++ l') = valid_plan seen l && valid_plan (rev (unit_id <$> l) ++ seen) l'.
Proof.
  revert seen. induction l as [|s l IH]; intros seen; [done|]. simpl. rewrite IH, !andb_assoc. do 2 f_equal.
  by rewrite <-app_assoc.
Qed.

Lemma valid_plan_stages {A} (f : A → StepSpec) seen l :
  (∀ x, x ∈ l → unit_id (f x) ∉ seen ∧ NoDup (depends_on (f x)) ∧ ∀ d, d ∈ depends_on (f x) → d ∈ seen) →
  NoDup (unit_id ∘ f <$> l) → valid_plan seen (f <$> l) = true.
Proof.
  revert seen. induction l as [|x l IH]; intros seen Hl Hnd; [done|]. csimpl in *.
  apply NoDup_cons in Hnd as [Hx Hnd]. destruct (Hl x ltac:(by left)) as (H1 & H2 & H3).
  rewrite bool_decide_eq_false_2 by done. rewrite (bool_decide_eq_true_2 (NoDup _)) by done.
  rewrite !andb_true_iff. split_and!; [done| |done|].
  - apply forallb_forall. intros d Hd%list_elem_of_In. by apply bool_decide_eq_true_2, H3.
  - apply IH; [|done]. intros y Hy. destruct (Hl y ltac:(by right)) as (G1 & G2 & G3). split_and!; [|done|].
    + rewrite not_elem_of_cons. split; [|done]. intros E. apply Hx. rewrite <-E. by apply (list_elem_of_fmap_2 (unit_id ∘ f)).
    + intros d Hd. right. by apply G3.
Qed.

Lemma NoDup_bind_elem {A B} (f : A → list B) l x : NoDup (l ≫= f) → x ∈ l → NoDup (f x).
Proof.
  intros Hnd [l1 [l2 ->]]%list_elem_of_split. rewrite bind_app in Hnd. csimpl in Hnd.
  apply NoDup_app in Hnd as (_ & _ & Hnd). by apply NoDup_app in Hnd as (? & _).
Qed.

Section Admissible.
Context `{Runtime}.
Variable datetime_json : Z → text.

Definition reducer_spec (h : digest) (n : ReductionNode) : StepSpec :=
  {| unit_id := rn_stage_id n; stage := Stage.NORMALIZING; schema_version := "stage-result/1";
     config_fingerprint := h; depends_on := rn_children n |}.

Lemma reducers_plan h known seen rs :
  (∀ k, k ∈ known → k ∈ seen) → (∀ k, k ∈ rn_stage_id <$> rs → k ∉ seen) → after_children known rs →
  NoDup (rn_stage_id <$> rs) → NoDup (rs ≫= rn_children) →
  valid_plan seen (reducer_spec h <$> rs) = true.
Proof.
  revert known seen. induction rs as [|n rs IH]; intros known seen Hseen Hnew Hafter Hr Hnc; [done|].
  csimpl in *. destruct Hafter as [Hn Hafter]. apply NoDup_cons in Hr as [Hnr Hr]. apply NoDup_app in Hnc as (Hn1 & _ & Hn2).
  rewrite bool_decide_eq_false_2 by (apply Hnew; by left).
  rewrite (bool_decide_eq_true_2 (NoDup _)) by done. rewrite !andb_true_iff. split_and!; [done| |done|].
  - apply forallb_forall. intros d Hd%list_elem_of_In. by apply bool_decide_eq_true_2, Hseen, Hn.
  - apply (IH (known ++ [rn_stage_id n])); [| |done..].
    + intros k [Hk|Hk%list_elem_of_singleton]%elem_of_app; [right; by apply Hseen|subst; by left].
    + intros k Hk. rewrite not_elem_of_cons. split; [by intros ->|]. apply Hnew. by right.
Qed.

Lemma specs_plan pl plan_ref :
  NoDup (anchor plan_ref :: "digest" :: expected_stages pl) → root_id pl ∈ rn_stage_id <$> reducers pl →
  after_children (chunk_id <$> chunks pl) (reducers pl) → NoDup (reducers pl ≫= rn_children) →
  valid_plan [] (specs pl plan_ref) = true.
Proof.
  intros Hnd Hroot Hafter Hch. apply NoDup_cons in Hnd as [Ha Hnd]. apply NoDup_cons in Hnd as [Hd Hnd].
  unfold expected_stages in *. apply NoDup_app in Hnd as (Hc & Hcr & Hr).
  apply not_elem_of_cons in Ha as [Had Ha]. rewrite not_elem_of_app in Ha, Hd. destruct Ha as [Ha1 Ha2], Hd as [Hd1 Hd2].
  unfold specs. cbn [app valid_plan unit_id depends_on forallb]. rewrite bool_decide_eq_false_2 by set_solver.
  rewrite (bool_decide_eq_true_2 (NoDup [])) by constructor. cbn [negb andb].
  rewrite valid_plan_app. apply andb_true_iff. split.
  { apply valid_plan_stages; simpl; [|done]. intros c Hin. split_and!.
    - intros E%list_elem_of_singleton. apply Ha1. rewrite <-E. by apply list_elem_of_fmap_2.
    - apply NoDup_singleton.
    - intros d ->%list_elem_of_singleton. by left. }
  rewrite <-list_fmap_compose. change (unit_id ∘ _) with chunk_id. rewrite valid_plan_app. apply andb_true_iff. split.
  { apply (reducers_plan _ (chunk_id <$> chunks pl)); [| |done..].
    - intros k Hk. apply elem_of_app. left. by apply elem_of_reverse_list.
    - intros k Hk [Hin|Hin%list_elem_of_singleton]%elem_of_app; [|by subst].
      rewrite elem_of_reverse_list in Hin. by apply (Hcr k). }
  rewrite <-list_fmap_compose. change (unit_id ∘ _) with rn_stage_id. cbn [valid_plan unit_id depends_on].
  rewrite bool_decide_eq_false_2.
  2: { rewrite !elem_of_app, !elem_of_reverse_list, list_elem_of_singleton. naive_solver. }
  cbn [forallb negb andb]. rewrite (bool_decide_eq_true_2 (root_id pl ∈ _)).
  2: { apply elem_of_app. left. by apply elem_of_reverse_list. }
  by rewrite bool_decide_eq_true_2 by apply NoDup_singleton.
Qed.

Lemma build_plan_build a data ref p pl : build_plan a data ref p = Ok pl → build a ref p = Ok pl.
Proof.
  unfold build_plan. cbv zeta. intros E.
  match type of E with (match ?r with Ok _ => _ | Err _ => _ end) = _ => destruct r as [pl'|[]] eqn:Er; try done end.
  injection E as <-. by planned Er.
Qed.

Lemma specs_valid pl plan_ref :
  (∀ t, is_digest (sha256_hex t) = true) → root_id pl ∈ expected_stages pl →
  after_children (chunk_id <$> chunks pl) (reducers pl) →
  Forall (λ k, uuid_text k = true) (ref_object_id plan_ref :: expected_stages pl) →
  forallb valid_step_spec (specs pl plan_ref) = true.
Proof.
  intros Hsha Hroot Hafter [Hu Hst]%Forall_cons. rewrite Forall_forall in Hst.
  assert (is_token (anchor plan_ref) = true) as Ha.
  { apply uuid_token in Hu as Hu'. unfold is_token, anchor in *. rewrite cps_app, forallb_app.
    unfold uuid_text in Hu. rewrite !andb_true_iff, !Z.leb_le in *. unfold len in *. rewrite length_app.
    change (length (cps "plan/")) with 5%nat. destruct_and!. split_and!; [lia|lia|done|done]. }
  assert (is_digest (plan_fingerprint pl) = true) as Hd by apply Hsha.
  assert (∀ k, k ∈ expected_stages pl → is_token k = true) as Ht by (intros k Hk; apply uuid_token, Hst, Hk).
  assert (∀ n, n ∈ reducers pl → ∀ k, k ∈ rn_children n → k ∈ expected_stages pl) as Hc.
  { unfold expected_stages. clear -Hafter. revert Hafter. generalize (chunk_id <$> chunks pl) as known.
    induction (reducers pl) as [|m rs IH]; intros known; [set_solver|]. csimpl. intros [Hm Hr] n [->|Hn]%elem_of_cons k Hk.
    - apply elem_of_app. left. by apply Hm.
    - specialize (IH _ Hr n Hn k Hk). set_solver. }
  unfold specs. rewrite !forallb_app. rewrite !andb_true_iff. split_and!.
  - simpl. unfold valid_step_spec. simpl. by rewrite Ha, Hd.
  - apply forallb_forall. intros x (c & -> & Hin)%list_elem_of_In%list_elem_of_fmap. unfold valid_step_spec. simpl.
    rewrite Ht, Hd, Ha; [done|]. apply elem_of_app. left. by apply list_elem_of_fmap_2.
  - apply forallb_forall. intros x (n & -> & Hin)%list_elem_of_In%list_elem_of_fmap. unfold valid_step_spec. simpl.
    rewrite Ht, Hd by (apply elem_of_app; right; by apply list_elem_of_fmap_2). simpl.
    apply forallb_forall. intros k Hk%list_elem_of_In. by eapply Ht, Hc.
  - simpl. unfold valid_step_spec. simpl. by rewrite Hd, Ht.
Qed.

Lemma model_document a :
  model_valid a = true →
  let d := document a in
  valid_object_ref (doc_source d) = true ∧ len (display_filename d) ≤ 512 ∧
  ref_scope (doc_source d) = doc_scope d ∧ ref_kind (doc_source d) = source_kind ∧
  document_version_id d = version_identity (doc_scope d) (document_id d) (ref_sha256 (doc_source d)) ∧
  ref_object_id (doc_source d) = document_version_id d ∧ ref_byte_size (doc_source d) ≤ max_source_bytes a ∧
  0 < max_source_bytes a ∧ 0 < max_pages a ∧ 0 < max_characters a ∧ 0 < max_blocks a.
Proof.
  unfold model_valid, valid_fields, valid_document, lineage, validate_graph. cbv zeta.
  rewrite !andb_true_iff, !Z.ltb_lt, !Z.leb_le, !bool_decide_eq_true. intros (((_ & Hf) & Hl) & Hg).
  apply result_bind_Ok in Hl as ([] & Hl%ensure_Ok & _). rewrite !andb_true_iff, !bool_decide_eq_true in Hl.
  apply result_bind_Ok in Hg as ([] & _ & Hg). apply result_bind_Ok in Hg as ([] & Hg%ensure_Ok & _).
  rewrite andb_true_iff, Z.leb_le in Hg. destruct_and!. split_and!; try done. congruence.
Qed.

(** C12: Every plan is admissible: the request that [admit] builds from an artifact, a plan of it and
    the reference of the stored plan passes the validation of the job ledger: at most 1000 steps
    with distinct units, each dependency an earlier step, none listed twice, from the anchor over
    the chunks and the reductions to the digest. *)
Theorem plan_admissible a ref p pl plan_ref pv key resume rt :
  (∀ t, is_digest (sha256_hex t) = true) → plan_of datetime_json a ref p = Ok pl →
  Forall (λ k, uuid_text k = true) (ref_object_id plan_ref :: expected_stages pl) → NoDup (expected_stages pl) →
  is_token pv = true → is_token key = true → match rt with Some r => valid_retry r = true | None => True end →
  valid_admission (digest_admission a pl plan_ref pv key resume rt) = true.
Proof.
  intros Hsha E Hu Hnd Hpv Hkey Hrt. unfold plan_of in E. destruct (serialize _ a) as [data|]; [|done].
  pose proof (build_plan_build _ _ _ _ _ E) as Eb. apply build_plan_Ok in E as (Hv & Hp & _ & _ & _ & Hpl).
  pose proof (build_consumes_once _ _ _ _ Eb Hnd) as Hch. destruct Hpl as [Hprof _ [_ (_ & Hl & _)] _ (t & Et & [_ _ Ha _ Hst]) Hroot _ _].
  rewrite Et in Ha, Hst. pose proof (model_document a Hv) as (D1 & D2 & D3 & D4 & D5 & D6 & D7 & D8 & D9 & D10 & D11).
  assert (root_id pl ∈ expected_stages pl) as Hr by (apply elem_of_app; by right).
  assert (NoDup (anchor plan_ref :: "digest" :: expected_stages pl)) as Hall.
  { apply Forall_cons in Hu as [Hu Hs]. rewrite Forall_forall in Hs. constructor; [|constructor; [|done]].
    - intros [Hx|Hx]%elem_of_cons; [discriminate|]. specialize (Hs _ Hx). unfold uuid_text, anchor in Hs.
      rewrite !andb_true_iff in Hs. by destruct Hs as [_ Hs].
    - intros Hx. specialize (Hs _ Hx). done. }
  assert (len (specs pl plan_ref) ≤ max_steps p ∧ 1 ≤ len (specs pl plan_ref)) as [Hn1 Hn2].
  { assert (reducers pl ≠ []) as Hne by (intros Hne; rewrite Hne in Hroot; set_solver). specialize (Hst Hne).
    unfold specs, len in *. rewrite !length_app, !length_fmap in *. simpl. lia. }
  pose proof Hp as Hp0. unfold valid_digestion_profile, between in Hp. rewrite !andb_true_iff, !Z.leb_le, !Z.ltb_lt in Hp.
  destruct_and! Hp. unfold valid_admission, digest_admission.
  cbn [a_scope a_document_id a_document_version_id a_source request_idempotency_key a_display_filename profile steps].
  rewrite (specs_plan pl plan_ref Hall Hroot Ha Hch), (specs_valid pl plan_ref Hsha Hr Ha Hu), Hkey, D1, D3, D4, D6, <-D5.
  rewrite (proj2 (Z.leb_le _ _) D2), (proj2 (Z.leb_le _ _) Hn2), (proj2 (Z.leb_le (len (specs pl plan_ref)) 1000)) by lia.
  rewrite !bool_decide_eq_true_2 by done. cbn [p_max_source_bytes]. rewrite (proj2 (Z.leb_le _ _) D7).
  assert (valid_profile (profile (digest_admission a pl plan_ref pv key resume rt)) = true) as Hprofile.
  { unfold valid_profile. simpl. rewrite Hprof. match goal with H : forallb is_token _ = true |- _ => simpl in H; rewrite !andb_true_iff in H; destruct H as [-> _] end.
    rewrite Hpv, !(proj2 (Z.ltb_lt _ _)) by done. destruct rt as [r|]; simpl; [by rewrite Hrt|reflexivity]. }
  simpl in Hprofile |- *. by rewrite Hprofile.
Qed.

End Admissible.
