(* ===== verification/ManagedTheorems.v ===== *)
(** * Managed requests fit, and managed calls are accounted for

    The sizes that planning reserves for a managed request are upper bounds of what the renderer sends;
    a rendered request passes the checks of governed execution with the same estimate; and a call
    of the provider happens under a live ticket that is finished afterwards. *)

From stdpp Require Import base tactics list strings option sets.
From Stdlib Require Import ZArith NArith QArith Lia.
From S2P Require Import Prelude Json Contracts JobModels JobLedger Sample Utf8 ProviderAdmission Governance Inference Execution ExecutionLedgers.
From S2P Require Import DigestModels DigestPlanning DigestValidation DigestFlow DigestPlanTheorems DigestSteps Managed.

Local Open Scope Z_scope.

(** ** The weight of printed JSON *)

Section Weight.
Context `{Runtime}.
(** What a character costs; the punctuation of JSON costs one. *)
Variable cost : N → Z.
Hypothesis cost_nonneg : ∀ c, 0 ≤ cost c.
Hypothesis cost_punctuation : ∀ c, c ∈ [123; 125; 91; 93; 44; 58]%N → cost c = 1.

Definition weight (t : text) : Z := sum_by cost t.
#[local] Arguments weight : simpl never.

Lemma weight_app t u : weight (t ++ u) = weight t + weight u.
Proof. apply sum_by_app. Qed.
Lemma weight_nonneg t : 0 ≤ weight t.
Proof. apply sum_by_nonneg. auto. Qed.
Lemma weight_cons c t : weight (c :: t) = cost c + weight t.
Proof. done. Qed.

(** The separators of [n] elements. *)
Definition commas {B} (l : list B) : Z := Z.max 0 (len l - 1).

Lemma weight_join {B} (f : B → text) l : weight (join 44 (f <$> l)) = sum_by (λ x, weight (f x)) l + commas l.
Proof.
  unfold commas. destruct l as [|x l]; [done|]. cbn [fmap list_fmap join]. rewrite weight_app.
  assert (weight ((f <$> l) ≫= λ y, 44%N :: y) = sum_by (λ x, weight (f x)) l + len l) as E.
  { induction l as [|y l IH]; [done|]. csimpl. rewrite weight_cons, weight_app, IH, cost_punctuation by set_solver.
    unfold len. simpl length. lia. }
  rewrite E. simpl. unfold len. simpl length. lia.
Qed.

Definition key_weight (k : string) : Z := weight (dumps_str (cps k)) + 1.

(** The weight of a canonical value: the order of keys does not matter. *)
Definition cw (v : json) : Z := weight (canonical v).

Lemma cw_arr l : cw (JArr l) = 2 + sum_by cw l + commas l.
Proof.
  unfold cw, canonical. cbn [sort_keys dumps]. rewrite weight_cons, weight_app, weight_join.
  rewrite sum_by_fmap. unfold commas, len. rewrite length_fmap. cbn [weight sum_by foldr].
  rewrite !cost_punctuation by set_solver. unfold weight at 2. simpl. rewrite cost_punctuation by set_solver. lia.
Qed.

Lemma sum_by_Permutation {B} (f : B → Z) l k : l ≡ₚ k → sum_by f l = sum_by f k.
Proof. induction 1; simpl; lia. Qed.

Lemma cw_obj l : cw (JObj l) = 2 + sum_by (λ kv, key_weight kv.1 + cw kv.2) l + commas l.
Proof.
  unfold cw, canonical. cbn [sort_keys dumps]. rewrite weight_cons, weight_app, weight_join, cost_punctuation by set_solver.
  rewrite (sum_by_Permutation _ _ _ (order_by_Permutation key_le _)), sum_by_fmap.
  unfold commas, len. rewrite (Permutation_length (order_by_Permutation key_le _)), length_fmap.
  rewrite (weight_cons 125), cost_punctuation by set_solver. change (weight []) with 0.
  rewrite (sum_by_ext _ (λ kv, key_weight kv.1 + weight (dumps (sort_keys kv.2)))); [lia|].
  intros kv _. cbn [fst snd]. rewrite weight_app, weight_cons, cost_punctuation by set_solver. unfold key_weight. lia.
Qed.

(** Lists that are concatenated weigh at most what they weigh apart. *)
Lemma cw_arr_app l k : cw (JArr (l ++ k)) ≤ cw (JArr l) + cw (JArr k).
Proof. rewrite !cw_arr, sum_by_app. unfold commas, len. rewrite length_app. lia. Qed.

Lemma cw_arr_bind {B} (f : B → list json) l : cw (JArr (l ≫= f)) - 2 ≤ sum_by (λ x, cw (JArr (f x))) l.
Proof.
  induction l as [|x l IH]; [rewrite cw_arr; unfold commas, len; simpl; lia|].
  csimpl. pose proof (cw_arr_app (f x) (l ≫= f)) as Ha. revert Ha IH. rewrite !cw_arr.
  unfold commas, len. rewrite length_app, sum_by_app. intros. unfold sum_by in *. lia.
Qed.
End Weight.

(** The length, and the length inside a JSON string. *)
Definition escaped_cost (c : N) : Z := len (escape c).
Definition plain_cost (c : N) : Z := 1.

Lemma weight_plain t : weight plain_cost t = len t.
Proof. unfold weight, len. induction t as [|c t IH]; [done|]. cbn [sum_by foldr length]. unfold sum_by in IH. unfold plain_cost in *. lia. Qed.

Lemma weight_escaped t : weight escaped_cost t = len (t ≫= escape).
Proof. unfold weight. induction t as [|c t IH]; [done|]. csimpl. unfold len in *. rewrite length_app, IH. unfold escaped_cost, len. lia. Qed.

Lemma escaped_cost_nonneg c : 0 ≤ escaped_cost c.
Proof. unfold escaped_cost, len. lia. Qed.
Lemma escaped_punctuation c : c ∈ [123; 125; 91; 93; 44; 58]%N → escaped_cost c = 1.
Proof. rewrite !elem_of_cons, elem_of_nil. intros Hc. destruct_or?; subst; done. Qed.

Section Sizes.
Context `{Runtime}.

(** The bytes of a value printed inside a string: [escaped_size]. *)
Definition es (v : json) : Z := weight escaped_cost (canonical v).

Lemma canonical_str t : len (canonical (JStr t)) = weight escaped_cost t + 2.
Proof.
  unfold canonical. cbn [sort_keys dumps dumps_str]. unfold dumps_str. rewrite weight_escaped. unfold len. cbn [length].
  rewrite length_app. simpl. lia.
Qed.

Lemma escaped_size_es v : escaped_size v = es v.
Proof. unfold escaped_size. rewrite canonical_str. unfold es. lia. Qed.

Lemma es_arr l : es (JArr l) = 2 + sum_by es l + commas l.
Proof. apply cw_arr; auto using escaped_cost_nonneg, escaped_punctuation. Qed.

Lemma es_obj l : es (JObj l) = 2 + sum_by (λ kv, key_weight escaped_cost kv.1 + es kv.2) l + commas l.
Proof. apply cw_obj; auto using escaped_cost_nonneg, escaped_punctuation. Qed.

Lemma es_arr_bind {B} (f : B → list json) l : es (JArr (l ≫= f)) - 2 ≤ sum_by (λ x, es (JArr (f x))) l.
Proof. apply cw_arr_bind; auto using escaped_cost_nonneg, escaped_punctuation. Qed.

Lemma es_nonneg v : 0 ≤ es v.
Proof. apply sum_by_nonneg. intros c _. apply escaped_cost_nonneg. Qed.

(** The envelope of a generation: its fixed part, and the escaped parts. *)
Lemma rendered_size_eq g :
  rendered_size g = len (canonical (gr_schema g)) + weight escaped_cost (gr_system g) + weight escaped_cost (gr_data g) + 33.
Proof.
  unfold rendered_size. rewrite <-weight_plain. change (weight plain_cost (canonical ?v)) with (cw plain_cost v).
  rewrite cw_obj by done. cbn [sum_by foldr fst snd]. unfold cw. rewrite !weight_plain, !canonical_str. unfold key_weight.
  change (weight plain_cost (dumps_str (cps "system"))) with 8. change (weight plain_cost (dumps_str (cps "data"))) with 6.
  change (weight plain_cost (dumps_str (cps "schema"))) with 8. unfold commas, len. simpl length. lia.
Qed.
End Sizes.

Section Fits.
Context `{Runtime}.

(** A UUID in its canonical form: 36 hexadecimal digits and hyphens. *)
Definition is_uuid (k : uuid) : Prop :=
  length (cps k) = 36%nat ∧ Forall (λ c, c = 45%N ∨ (48 ≤ c ≤ 57)%N ∨ (97 ≤ c ≤ 102)%N) (cps k).

Lemma uuid_char_escape c : c = 45%N ∨ (48 ≤ c ≤ 57)%N ∨ (97 ≤ c ≤ 102)%N → escape c = [c].
Proof.
  intros Hc. assert (c ∈ (45 :: (N.of_nat <$> seq 48 10) ++ (N.of_nat <$> seq 97 6))%N) as Hin.
  { rewrite elem_of_cons, elem_of_app. destruct Hc as [->|[Hc|Hc]]; [by left|right; left|right; right];
      apply list_elem_of_fmap; exists (N.to_nat c); rewrite N2Nat.id, elem_of_seq; split; [done|lia|done|lia]. }
  revert Hin. simpl. rewrite !elem_of_cons, elem_of_nil. intros. destruct_or?; subst; done.
Qed.

Lemma uuid_escape k : is_uuid k → cps k ≫= escape = cps k.
Proof.
  intros [_ Hc]. induction Hc as [|c t Hc _ IH]; [done|]. csimpl. by rewrite (uuid_char_escape c Hc), IH.
Qed.

Lemma es_uuid k : is_uuid k → es (jstr k) = 40.
Proof.
  intros Hk. unfold es, canonical, jstr. cbn [sort_keys dumps]. unfold dumps_str.
  rewrite weight_cons, weight_app, (uuid_escape k Hk), (weight_escaped (cps k)), (uuid_escape k Hk).
  destruct Hk as [Hl _]. unfold len. rewrite Hl. done.
Qed.

Lemma es_uuids l : (∀ k, k ∈ l → is_uuid k) → es (ids_json l) = 2 + 40 * len l + commas l.
Proof.
  intros Hl. unfold ids_json. rewrite es_arr, sum_by_fmap. unfold commas, len. rewrite length_fmap.
  assert (sum_by (λ x, es (jstr x)) l = 40 * Z.of_nat (length l)) as ->; [|done].
  induction l as [|k l IH]; [done|]. cbn [sum_by foldr length]. unfold sum_by in IH. rewrite IH, es_uuid by set_solver. lia.
Qed.

(** The identifiers in a request. *)
Record wide (r : StageRequest) : Prop := {
  wide_stage : is_uuid (rq_stage_id r);
  wide_claims : ∀ c cl k, c ∈ children r → cl ∈ claims (ci_result c) → k ∈ claim_evidence cl → is_uuid k }.

Hypothesis Huuid : ∀ name, is_uuid (uuid5_url name).

Lemma sorted_set_elem l k : k ∈ sorted_set l ↔ k ∈ l.
Proof. unfold sorted_set. rewrite (elem_of_Permutation_proper _ _ _ (order_by_Permutation _ _)). apply elem_of_remove_dups. Qed.

Lemma sorted_set_app l k : len (sorted_set (l ++ k)) ≤ len (sorted_set l) + len (sorted_set k).
Proof.
  unfold sorted_set, len. rewrite !(Permutation_length (order_by_Permutation _ _)).
  assert (length (remove_dups (l ++ k)) ≤ length (remove_dups l ++ remove_dups k))%nat as Hle.
  { apply submseteq_length, NoDup_submseteq; [apply NoDup_remove_dups|].
    intros x. rewrite elem_of_app, !elem_of_remove_dups, elem_of_app. done. }
  rewrite length_app in Hle. lia.
Qed.

Definition child_evidence (c : ChildInput) : list uuid := claims (ci_result c) ≫= claim_evidence.

Lemma child_contribution_eq c : child_contribution c =
  es (JArr (child_links c)) + es (ids_json (sorted_set (child_evidence c))) + es (child_json c) + 8.
Proof. unfold child_contribution, result_contribution. rewrite !escaped_size_es. unfold child_links, ids_json, child_evidence, claim_evidence. lia. Qed.

Lemma evidence_fits (cs : list ChildInput) :
  (∀ c k, c ∈ cs → k ∈ child_evidence c → is_uuid k) →
  es (ids_json (sorted_set (cs ≫= child_evidence))) - 2 ≤ sum_by (λ c, es (ids_json (sorted_set (child_evidence c)))) cs.
Proof.
  intros Hu. rewrite es_uuids.
  2: { intros k. rewrite sorted_set_elem, list_elem_of_bind. intros (c & Hk & Hc). by eapply Hu. }
  induction cs as [|c cs IH]; [done|]. csimpl. pose proof (sorted_set_app (child_evidence c) (cs ≫= child_evidence)) as Ha.
  assert (∀ c' k, c' ∈ cs → k ∈ child_evidence c' → is_uuid k) as Hcs by (intros; eapply Hu; [by right|done]).
  specialize (IH Hcs). rewrite es_uuids by (intros k; rewrite sorted_set_elem; intros; eapply Hu; [by left|done]).
  revert Ha IH. unfold commas, len, sum_by, uuid. lia.
Qed.

Lemma children_fit (cs : list ChildInput) :
  (∀ c k, c ∈ cs → k ∈ child_evidence c → is_uuid k) →
  (es (ids_json (sorted_set (cs ≫= child_evidence))) - 2) + (es (JArr (cs ≫= child_links)) - 2)
    + (es (JArr (child_json <$> cs)) - 2) ≤ sum_by child_contribution cs.
Proof.
  intros Hu. pose proof (evidence_fits cs Hu) as He. pose proof (es_arr_bind child_links cs) as Hl.
  rewrite (es_arr (child_json <$> cs)), sum_by_fmap. unfold commas, len. rewrite length_fmap.
  assert (sum_by child_contribution cs =
    sum_by (λ c, es (JArr (child_links c))) cs + sum_by (λ c, es (ids_json (sorted_set (child_evidence c)))) cs
    + sum_by (λ c, es (child_json c)) cs + 8 * Z.of_nat (length cs)) as ->; [|unfold uuid, child_evidence, claim_evidence in *; lia].
  clear. induction cs as [|c cs IH]; [done|]. cbn [sum_by foldr length]. unfold sum_by in IH. rewrite IH, child_contribution_eq. lia.
Qed.

(** ** The envelope of a request against the empty one of its stage *)

Definition material (r : StageRequest) : Z :=
  (es (ids_json (allowed_evidence r)) - 2) + (es (JArr (children r ≫= child_links)) - 2)
  + (es (JArr (source_json <$> source_data r)) - 2) + (es (JArr (child_json <$> children r)) - 2)
  + (es (JArr (JStr <$> rq_path r)) - 2).

Lemma es_claim_ids r : es (ids_json (claim_ids r)) =
  2 + 40 * Z.of_nat (Z.to_nat (max_claims (rq_profile r))) + Z.max 0 (Z.of_nat (Z.to_nat (max_claims (rq_profile r))) - 1).
Proof.
  rewrite es_uuids.
  - unfold commas, len, claim_ids. by rewrite !length_fmap, length_seq.
  - intros k. unfold claim_ids. rewrite list_elem_of_fmap. intros (i & -> & _). apply Huuid.
Qed.

Lemma zero_is_uuid : is_uuid zero_uuid.
Proof. split; [done|]. apply (bool_decide_unpack _). vm_compute. exact I. Qed.

Lemma es_nil : es (JArr []) = 2.
Proof. done. Qed.

Lemma es_data r : es (data_json r) =
  es (data_json (empty_request (rq_profile r) (rq_stage r)))
  + (es (JArr (source_json <$> source_data r)) - 2) + (es (JArr (child_json <$> children r)) - 2)
  + (es (JArr (JStr <$> rq_path r)) - 2).
Proof.
  unfold data_json. rewrite !es_obj. cbn [sum_by foldr fst snd empty_request source_data children rq_path fmap list_fmap].
  rewrite !es_nil. unfold commas, len. simpl length. lia.
Qed.

Lemma allowed_empty dp k : allowed_evidence (empty_request dp k) = [].
Proof. done. Qed.

Lemma es_control s p schema dp r :
  is_uuid (rq_stage_id r) → dp = bound_planning s (rq_profile r) →
  es (control_json (mi_settings s) p schema r) =
  es (control_json (mi_settings s) p schema (empty_request dp (rq_stage r)))
  + (es (ids_json (allowed_evidence r)) - 2) + (es (JArr (children r ≫= child_links)) - 2).
Proof.
  intros Hk ->. unfold control_json. rewrite !es_obj, !sum_by_app, allowed_empty.
  cbn [sum_by foldr fst snd]. rewrite !es_claim_ids. cbn [empty_request rq_stage_id rq_stage rq_profile children].
  rewrite (es_uuid _ Hk), (es_uuid _ zero_is_uuid). change (ids_json []) with (JArr []).
  change ([] ≫= child_links) with (@nil json). rewrite !es_nil.
  change (max_claims (bound_planning s (rq_profile r))) with (max_claims (rq_profile r)).
  change (max_claim_characters (bound_planning s (rq_profile r))) with (max_claim_characters (rq_profile r)).
  change (max_annotations (bound_planning s (rq_profile r))) with (max_annotations (rq_profile r)).
  change (max_result_characters (bound_planning s (rq_profile r))) with (max_result_characters (rq_profile r)).
  change (response_byte_limit (bound_planning s (rq_profile r))) with (response_byte_limit (rq_profile r)).
  unfold commas, len. rewrite !length_app. simpl length. lia.
Qed.

Lemma size_eq self p schema r :
  is_uuid (rq_stage_id r) →
  rendered_size (generation_of self p schema r) =
  rendered_size (generation_of self p schema (empty_request (bound_planning self (rq_profile r)) (rq_stage r))) + material r.
Proof.
  intros Hk. rewrite !rendered_size_eq. cbn [generation_of gr_system gr_data gr_schema]. unfold system_text.
  rewrite !weight_app. change (weight escaped_cost (canonical ?v)) with (es v).
  rewrite (es_control self p schema _ r Hk eq_refl), (es_data r). unfold material.
  change (data_json (empty_request (bound_planning self (rq_profile r)) (rq_stage r)))
    with (data_json (empty_request (rq_profile r) (rq_stage r))). lia.
Qed.

Variable result_schema : json.
Variable limit : nat.

Lemma rendered_Ok self p r g size : rendered result_schema self p r = Ok (g, size) →
  ∃ schema, generation_schema result_schema = Ok schema ∧ g = generation_of self p schema r ∧ size = rendered_size g ∧
    len (allowed_evidence r) ≤ max_evidence (mi_settings self).
Proof.
  unfold rendered. intros ([] & Hm & E)%result_bind_Ok. apply result_bind_Ok in E as (schema & Es & [= <- <-]).
  exists schema. split_and!; try done. unfold require in Hm. by destruct (Z.leb_spec (len (allowed_evidence r)) (max_evidence (mi_settings self))).
Qed.

Lemma mapR_Ok {E A B} (f : A → result E B) l ys x : mapR f l = Ok ys → x ∈ l → ∃ y, f x = Ok y ∧ y ∈ ys.
Proof.
  revert ys. induction l as [|x' l IH]; intros ys; [by intros _ ?%elem_of_nil|]. cbn [mapR].
  intros (y & Hy & E')%result_bind_Ok. apply result_bind_Ok in E' as (ys' & Hys & [= <-]).
  intros [->|Hx]%elem_of_cons; [exists y; split; [done|by left]|].
  destruct (IH _ Hys Hx) as (z & ? & ?). exists z. split; [done|by right].
Qed.

Lemma foldr_max_elem n l x : x = n ∨ x ∈ l → x ≤ foldr Z.max n l.
Proof.
  induction l as [|y l IH]; simpl; [intros [->|?%elem_of_nil]; [lia|done]|].
  intros [->|[->|Hx]%elem_of_cons]; [specialize (IH (or_introl eq_refl))| |specialize (IH (or_intror Hx))]; lia.
Qed.

Lemma require_Ok {E} b (e : E) u : require b e = Ok u ↔ b = true.
Proof. unfold require. destruct b, u; split; congruence. Qed.

Lemma managed_inference_Ok p s stage inf : managed_inference result_schema limit p s stage = Ok inf →
  mi_provider inf = p ∧ mi_settings inf = s ∧ mi_stage inf = stage.
Proof.
  unfold managed_inference. intros (u & _ & E)%result_bind_Ok. apply result_bind_Ok in E as (u1 & _ & E).
  apply result_bind_Ok in E as (m & _ & E). apply result_bind_Ok in E as (u2 & _ & E).
  by apply result_bind_Ok in E as (c & _ & [= <-]).
Qed.

Lemma bind_stage_Ok self stage inf : bind_stage result_schema limit self stage = Ok inf →
  mi_provider inf = mi_provider self ∧ mi_settings inf = mi_settings self ∧ mi_stage inf = stage ∧
  mi_config inf = mi_config self.
Proof.
  unfold bind_stage. intros (b & (? & ? & ?)%managed_inference_Ok & E)%result_bind_Ok.
  apply result_bind_Ok in E as (u & Hc%require_Ok%bool_decide_eq_true_1 & [= <-]). done.
Qed.

Lemma bound_profile_Ok self r p : bound_profile self r = Ok p →
  profile_of (mi_settings self) (mi_stage self) = Some p ∧
  Bool.eqb (bool_decide (rq_stage r = analysis)) (bool_decide (mi_stage self = st_chunk)) = true ∧
  sp_output_tokens p ≤ reserved_output_tokens (rq_profile r) ∧ model_id_of (mi_provider self) = Ok (mi_model self).
Proof.
  unfold bound_profile. destruct (profile_of _ _) as [q|]; [|done].
  intros (u & _ & E)%result_bind_Ok. apply result_bind_Ok in E as (u1 & Hs%require_Ok & E).
  apply result_bind_Ok in E as (u2 & Ho%require_Ok%Z.leb_le & E). apply result_bind_Ok in E as (m & Hm & E).
  apply result_bind_Ok in E as (u3 & Hc%require_Ok%bool_decide_eq_true_1 & [= <-]). subst m. done.
Qed.

Lemma profile_of_stage s stage p : profile_of s stage = Some p → stage ∈ stages_of s.
Proof.
  unfold profile_of, stages_of. intros [Hp Hs%bool_decide_eq_true_1]%find_row_Some.
  apply elem_of_remove_dups, list_elem_of_fmap. exists p. split; [done|].
  apply list_elem_of_In. apply in_rev. by apply list_elem_of_In.
Qed.

(** The kind of request a stage is measured with. *)
Definition empty_kind (stage : ManagedStage) : StageKind := if bool_decide (stage = st_chunk) then analysis else reduction.

Lemma stage_kind self r p : bound_profile self r = Ok p → rq_stage r = empty_kind (mi_stage self).
Proof. intros (_ & Hs & _)%bound_profile_Ok. unfold empty_kind. destruct (rq_stage r), (mi_stage self); done. Qed.

Lemma base_covers self bound n p schema :
  base_size result_schema limit self bound = Ok n → profile_of (mi_settings self) (mi_stage self) = Some p →
  generation_schema result_schema = Ok schema →
  rendered_size (generation_of self p schema (empty_request bound (empty_kind (mi_stage self)))) ≤ n.
Proof.
  unfold base_size. intros (sizes & Hm & E)%result_bind_Ok Hp Hs.
  destruct (mapR_Ok _ _ _ (mi_stage self) Hm (profile_of_stage _ _ _ Hp)) as (size & Hsize & Hin).
  assert (size ≤ n) as Hle.
  { destruct sizes as [|z zs]; [done|]. injection E as <-. apply foldr_max_elem. set_solver. }
  apply result_bind_Ok in Hsize as (inf & (Hpr & Hse & Hst & _)%bind_stage_Ok & Hme).
  unfold measured in Hme. apply result_bind_Ok in Hme as (q & (Hq & _)%bound_profile_Ok & Hr).
  apply result_bind_Ok in Hr as ([g z] & (schema' & Hs' & -> & -> & _)%rendered_Ok & [= <-]).
  rewrite Hse, Hst in Hq. assert (q = p) as -> by congruence. assert (schema' = schema) as -> by congruence.
  revert Hle. unfold generation_of, system_text, system_head, rendered_size. cbn [gr_system gr_data gr_schema].
  by rewrite Hse, Hst.
Qed.

Lemma input_limit_le s stage p : profile_of s stage = Some p →
  input_limit s ≤ max_request_bytes s ∧ input_limit s ≤ sp_input_tokens p ∧
  input_limit s + sp_output_tokens p + reserve_tokens (ms_capability s) ≤ context_tokens (ms_capability s).
Proof.
  intros Hp. unfold input_limit.
  assert (p ∈ omap (profile_of s) (stages_of s)) as Hin
    by (apply list_elem_of_omap; exists stage; split; [by eapply profile_of_stage|done]).
  revert Hin. induction (omap (profile_of s) (stages_of s)) as [|q l IH]; [by intros ?%elem_of_nil|].
  cbn [foldr]. assert (∀ l', foldr (λ q acc, Z.min (Z.min (sp_input_tokens q)
     (context_tokens (ms_capability s) - sp_output_tokens q - reserve_tokens (ms_capability s))) acc)
     (max_request_bytes s) l' ≤ max_request_bytes s) as Hmax by (clear; induction l'; simpl; lia).
  specialize (Hmax l). intros [->|Hin]%elem_of_cons; [lia|]. specialize (IH Hin). lia.
Qed.

(** ** What planning accepted fits *)

Lemma digest_check_Ok b (e : digest_exn) u : DigestModels.check b e = Ok u ↔ b = true.
Proof. unfold DigestModels.check. destruct b, u; split; congruence. Qed.

Lemma length_zero {B} (l : list B) : bool_decide (length l = 0%nat) = true → l = [].
Proof. by intros ?%bool_decide_eq_true_1%length_zero_iff_nil. Qed.

Lemma request_shape r n : check_request r = Ok n →
  match rq_stage r with analysis => children r = [] | reduction => source_data r = [] end.
Proof.
  unfold check_request, request_size, encode_request, material_boundary.
  intros (size & (t & E & _)%result_bind_Ok & _)%result_bind_Ok.
  destruct (rq_stage r); destruct (DigestModels.check (_ && _) OtherError) as [[]|] eqn:Ec; try done;
    apply digest_check_Ok, andb_true_iff in Ec as [E1 E2]; by apply length_zero.
Qed.

Definition planned_size (b : ManagedInputBudget) (r : StageRequest) : Z :=
  match rq_stage r with
  | analysis => analysis_size b r
  | reduction => reduction_size b (rq_path r) (len (children r))
  end.

Lemma request_planned r n b : check_request r = Ok n → managed_input_budget (rq_profile r) = Some b →
  (∀ c, c ∈ children r → child_contribution c ≤ child_bytes b) ∧ planned_size b r ≤ input_bytes b.
Proof.
  unfold check_request. intros (size & _ & E)%result_bind_Ok Hb. rewrite Hb in E.
  apply result_bind_Ok in E as (size' & E & _). apply result_bind_Ok in E as (u & Hc%digest_check_Ok%negb_true_iff & _).
  apply orb_false_iff in Hc as [Hc Hi%Z.ltb_ge]. split; [|done]. intros c Hin.
  destruct (Z.ltb_spec (child_bytes b) (child_contribution c)) as [Hlt|]; [|done]. exfalso.
  assert (existsb (λ c, child_bytes b <? child_contribution c) (children r) = true) as F; [|congruence].
  apply existsb_exists. exists c. split; [by apply list_elem_of_In|by apply Z.ltb_lt].
Qed.

(** The planned size is an upper bound of the envelope. *)
Lemma material_planned r n b : wide r → check_request r = Ok n → managed_input_budget (rq_profile r) = Some b →
  base_bytes b + material r ≤ planned_size b r.
Proof.
  intros Hw Hc Hb. pose proof (request_shape r n Hc) as Hs. destruct (request_planned r n b Hc Hb) as [Hch _].
  unfold planned_size, material, allowed_evidence. destruct (rq_stage r).
  - rewrite Hs. unfold analysis_size, reduction_size. rewrite !escaped_size_es.
    change ([] ≫= (λ c : ChildInput, claims (ci_result c) ≫= claim_evidence)) with (@nil uuid).
    rewrite app_nil_r. change ([] ≫= child_links) with (@nil json).
    change (child_json <$> []) with (@nil json). rewrite !es_nil. unfold source_json, ids_json. lia.
  - rewrite Hs. unfold reduction_size. rewrite !escaped_size_es.
    change (evidence_id <$> []) with (@nil uuid). change (source_json <$> []) with (@nil json). rewrite app_nil_l, es_nil.
    pose proof (children_fit (children r)) as Hf. unfold child_evidence in Hf.
    assert (sum_by child_contribution (children r) ≤ len (children r) * child_bytes b) as Hsum.
    { clear -Hch. unfold len. induction (children r) as [|c l IH]; [done|]. cbn [sum_by foldr length].
      pose proof (Hch c ltac:(by left)). specialize (IH ltac:(intros c' Hc'; apply Hch; by right)).
      unfold sum_by in IH. lia. }
    ospecialize (Hf _).
    { intros c k Hin Hk. apply list_elem_of_bind in Hk as (cl & Hk & Hcl). by eapply wide_claims. }
    unfold uuid in *. lia.
Qed.

Lemma managed_profile_budget self dp0 dp n : child_input_bytes (mi_settings self) = Some n →
  managed_profile result_schema limit self dp0 = Ok dp →
  ∃ base, base_size result_schema limit self (bound_planning self dp0) = Ok base ∧
    managed_input_budget dp =
      Some {| input_bytes := input_limit (mi_settings self); base_bytes := base; child_bytes := n |}.
Proof.
  intros Hn. unfold managed_profile. rewrite Hn. intros (u & _ & E)%result_bind_Ok.
  apply result_bind_Ok in E as (base & Hb & E). apply result_bind_Ok in E as (u1 & _ & [= <-]). by exists base.
Qed.

(** C35: a request that planning accepted is never too large to be sent.  With bounded child material
    ([child_input_bytes]), the size that planning computes for a request - the measured envelope of an
    empty request plus the contribution of its material - is an upper bound of what [render] sends,
    escaping and shared evidence included; so once the plan's checks, the binding and the evidence bound
    hold, [render] returns the generation within the request limit, the stage's input tokens and
    the context of the deployment. *)
Theorem managed_requests_fit self r n child p dp g size :
  wide r → child_input_bytes (mi_settings self) = Some child →
  check_request r = Ok n → bound_profile self r = Ok p →
  managed_profile result_schema limit self (rq_profile r) = Ok dp →
  managed_input_budget (rq_profile r) = managed_input_budget dp →
  rendered result_schema self p r = Ok (g, size) →
  render result_schema limit self r = Ok (g, size + reserve_tokens (ms_capability (mi_settings self))) ∧
  size ≤ max_request_bytes (mi_settings self) ∧ size ≤ sp_input_tokens p ∧
  size + reserve_tokens (ms_capability (mi_settings self)) + sp_output_tokens p
    ≤ context_tokens (ms_capability (mi_settings self)).
Proof.
  intros Hw Hchild Hc Hp Hdp Hb Hr.
  destruct (managed_profile_budget _ _ _ _ Hchild Hdp) as (base & Hbase & Hbudget). rewrite Hbudget in Hb.
  pose proof (material_planned r n _ Hw Hc Hb) as Hm. destruct (request_planned r n _ Hc Hb) as [_ Hi].
  cbn [base_bytes input_bytes] in Hm, Hi.
  destruct (rendered_Ok _ _ _ _ _ Hr) as (schema & Hs & -> & -> & _).
  destruct (bound_profile_Ok self r p Hp) as (Hprofile & _).
  pose proof (base_covers self _ _ p schema Hbase Hprofile Hs) as Hcover. rewrite <-(stage_kind self r p Hp) in Hcover.
  pose proof (size_eq self p schema r (wide_stage r Hw)) as Hsize.
  destruct (input_limit_le _ _ _ Hprofile) as (H1 & H2 & H3).
  set (size := rendered_size (generation_of self p schema r)) in *.
  assert (size ≤ input_limit (mi_settings self)) as Hfit by lia.
  split; [|unfold reserve_tokens in *; lia].
  unfold render. rewrite Hc. cbn [mbind result_bind]. rewrite Hp. cbn [mbind result_bind]. rewrite Hchild, Hdp.
  cbn [mbind result_bind]. rewrite Hb, Hbudget, bool_decide_eq_true_2 by done. cbn [require mbind result_bind]. rewrite Hr.
  cbn [mbind result_bind]. fold size.
  rewrite (proj2 (require_Ok _ context_exceeded tt)); [done|].
  rewrite !andb_true_iff, !Z.leb_le. unfold reserve_tokens in *. lia.
Qed.
End Fits.

(** ** Governed calls *)

Section Governed.
Context `{Runtime}.
Variable result_schema : json.
Variable limit : nat.

Lemma render_Ok self r g estimate : render result_schema limit self r = Ok (g, estimate) →
  ∃ p n schema, check_request r = Ok n ∧ bound_profile self r = Ok p ∧ generation_schema result_schema = Ok schema ∧
    g = generation_of self p schema r ∧
    estimate = rendered_size g + reserve_tokens (ms_capability (mi_settings self)) ∧
    rendered_size g ≤ max_request_bytes (mi_settings self) ∧ rendered_size g ≤ sp_input_tokens p ∧
    estimate + sp_output_tokens p ≤ context_tokens (ms_capability (mi_settings self)) ∧
    len (allowed_evidence r) ≤ max_evidence (mi_settings self).
Proof.
  unfold render. intros (n & Hc & E)%result_bind_Ok. apply result_bind_Ok in E as (p & Hp & E).
  apply result_bind_Ok in E as (u & _ & E).
  apply result_bind_Ok in E as ([g' size] & (schema & Hs & -> & -> & Hev)%rendered_Ok & E).
  apply result_bind_Ok in E as (u1 & Hl%require_Ok & [= <- <-]).
  rewrite !andb_true_iff, !Z.leb_le in Hl. destruct Hl as [[H1 H2] H3].
  exists p, n, schema. split_and!; try done. by destruct (check_request r); simplify_eq/=.
Qed.

Lemma valid_profile s stage p : valid_settings result_schema limit s = true → profile_of s stage = Some p →
  valid_stage_profile p = true ∧ sp_output_tokens p ≤ max_output_tokens (ms_capability s).
Proof.
  unfold valid_settings. rewrite !andb_true_iff. intros [Hv Hfit] Hp.
  destruct Hv as [[[[[[[[[[_ Hps] _] _] _] _] _] _] _] _] _].
  assert (p ∈ ms_profiles s) as Hin.
  { unfold profile_of in Hp. apply find_row_Some in Hp as [Hin _]. apply list_elem_of_In, in_rev. by apply list_elem_of_In. }
  rewrite forallb_elem in Hps, Hfit. split; [by apply Hps|].
  specialize (Hfit p Hin). apply andb_true_iff in Hfit as [Ho%Z.leb_le _]. done.
Qed.

(** The identity a stage's call is made under. *)
Definition identifies (self : ManagedSynthesisInference) (i : CallIdentity) : Prop :=
  ci_provider i = mp_name (mi_provider self) ∧ ci_model i = mi_model self ∧ ci_role i = ROLE ∧
  ci_capability i = cap_version (ms_capability (mi_settings self)).

Lemma managed_inference_same p s st st' a b : managed_inference result_schema limit p s st = Ok a →
  managed_inference result_schema limit p s st' = Ok b →
  mi_model a = mi_model b ∧ mi_config a = mi_config b.
Proof.
  unfold managed_inference. intros (u & -> & E)%result_bind_Ok. cbn [mbind result_bind].
  apply result_bind_Ok in E as (u1 & -> & E). cbn [mbind result_bind].
  apply result_bind_Ok in E as (m & -> & E). cbn [mbind result_bind].
  apply result_bind_Ok in E as (u2 & -> & E). cbn [mbind result_bind].
  apply result_bind_Ok in E as (c & -> & [= <-]). cbn [mbind result_bind]. by intros [= <-].
Qed.

Lemma stage_call_Ok p s st self pl job step fenced r inf i :
  managed_inference result_schema limit p s st = Ok self →
  stage_call result_schema limit self pl job step fenced r = Ok (inf, i) →
  identifies inf i ∧ stage_of pl r = Some (mi_stage inf) ∧ mi_settings inf = s ∧ mi_provider inf = p ∧ fenced = true.
Proof.
  intros Hself. unfold stage_call. intros (u & Hf%require_Ok & E)%result_bind_Ok.
  destruct (stage_of pl r) as [stage|]; [|done]. destruct (profile_of _ stage) as [q|]; [|done].
  apply result_bind_Ok in E as (inf' & Hb & [= <- <-]).
  pose proof (managed_inference_Ok _ _ _ _ _ _ Hself) as (Hp & Hs & _).
  unfold bind_stage in Hb. rewrite Hp, Hs in Hb. apply result_bind_Ok in Hb as (b & Hb & E).
  apply result_bind_Ok in E as (u1 & _ & [= <-]).
  pose proof (managed_inference_Ok _ _ _ _ _ _ Hb) as (Hp' & Hs' & Hst').
  destruct (managed_inference_same _ _ _ _ _ _ Hself Hb) as [Hm _].
  split_and!; try done; [|by rewrite Hst'].
  unfold identifies, call_identity. cbn [ci_provider ci_model ci_role ci_capability]. rewrite Hp, Hs, Hp', Hs', Hm. done.
Qed.

(** C37: what the handler asks governed execution to run is always admissible to it: under the identity of
    the stage's call, the rendered generation passes the checks of [GovernedExecution.execute] -
    provider, model, role and capability agree, the output fits, the context is not exceeded -
    and both ledgers are asked for exactly the tokens [render] estimated. *)
Theorem governed_calls_admissible p s st self pl job step fenced r inf i g estimate :
  valid_settings result_schema limit s = true →
  managed_inference result_schema limit p s st = Ok self →
  stage_call result_schema limit self pl job step fenced r = Ok (inf, i) →
  render result_schema limit inf r = Ok (g, estimate) →
  execute_checks g i (mp_name p) (mi_model inf) = Ok estimate ∧ estimate_tokens g = estimate.
Proof.
  intros Hv Hself Hcall Hr.
  destruct (stage_call_Ok _ _ _ _ _ _ _ _ _ _ _ Hself Hcall) as ((Hpr & Hmo & Hro & Hca) & Hst & Hs & Hp & _).
  destruct (render_Ok _ _ _ _ Hr) as (q & n & schema & _ & Hq & _ & -> & -> & _ & _ & Hctx & _).
  apply bound_profile_Ok in Hq as (Hq & _). rewrite Hs in *.
  destruct (valid_profile _ _ _ Hv Hq) as [Hvq Hout]. unfold valid_stage_profile in Hvq.
  rewrite !andb_true_iff, !Z.ltb_lt in Hvq. destruct Hvq as [[_ _] Hpos].
  assert (estimate_tokens (generation_of inf q schema r)
          = rendered_size (generation_of inf q schema r) + reserve_tokens (ms_capability s)) as He.
  { unfold estimate_tokens, rendered_size, reserve_tokens. cbn [generation_of gr_capability]. rewrite Hs. lia. }
  split; [|done]. unfold execute_checks.
  cbn [generation_of gr_role gr_capability gr_output_tokens]. rewrite Hs, Hpr, Hmo, Hro, Hca, Hp, !bool_decide_eq_true_2 by done.
  cbn [andb]. fold (generation_of inf q schema r). rewrite He.
  rewrite (proj2 (Z.leb_gt _ _)) by lia. rewrite (proj2 (Z.ltb_ge _ _)) by lia. rewrite (proj2 (Z.ltb_ge _ _)) by lia. done.
Qed.

End Governed.

(** ** Direct calls *)

Section DirectCalls.
Context `{Runtime} {A : Type} `{InferenceAdmissionPort A}.
Variable result_schema : json.
Variable limit : nat.
Variable env : nat → A → A.

(** The ticket [t] was granted for the rendered generation's own tokens, under the identity of the
    call, after the lease was checked. *)
Definition ticketed (self : ManagedSynthesisInference) (r : StageRequest) (context : option CallIdentity)
    (check : nat → option managed_exn) (d : draw) (a : A) (t : uuid) (g : GenerationRequest) (a1 : A) : Prop :=
  ∃ i estimate, context = Some i ∧ render result_schema limit self r = Ok (g, estimate) ∧ check 0%nat = None ∧
    ap_acquire i estimate (gr_output_tokens g) DOCUMENT_BACKGROUND d (env 0 a) = (Ok t, a1).

(** The ways a call can go, by its ghost events: refused before a ticket, a ticket but a lost lease, and
    the provider called with the lease checked before and after the ticket was granted. *)
Inductive direct_conduct (self : ManagedSynthesisInference) (r : StageRequest) (context : option CallIdentity)
    (check : nat → option managed_exn) (run : result managed_exn GenerationResult) (d : draw) (a : A)
    (o : managed_outcome) (a' : A) : list (managed_event A) → Prop :=
| dc_refused e : o = Refused e → direct_conduct self r context check run d a o a' []
| dc_fenced t g a1 :
    ticketed self r context check d a t g a1 → check 1%nat ≠ None →
    (∀ raw, o ≠ Analyzed raw) → ((∀ e, o ≠ Unfinished_ticket e) → ap_live a' t = false) →
    direct_conduct self r context check run d a o a' [Granted t]
| dc_called t g a1 :
    ticketed self r context check d a t g a1 → check 1%nat = None → ap_live a1 t = true →
    (∀ raw, o = Analyzed raw → ∃ x, run = Ok x ∧ utf8_encode (gr_text x) = Some raw ∧
                                    len raw ≤ response_byte_limit (rq_profile r)) →
    ((∀ e, o ≠ Unfinished_ticket e) → ap_live a' t = false) →
    direct_conduct self r context check run d a o a' [Granted t; Called g a1].

Hypothesis Henv : ∀ i a, ap_inv a → ap_inv (env i a).

Lemma bounded_text_Ok r t raw : bounded_text r t = Ok raw →
  utf8_encode t = Some raw ∧ len raw ≤ response_byte_limit (rq_profile r).
Proof.
  unfold bounded_text. destruct (utf8_encode t) as [bs|]; [|done].
  destruct (Z.ltb_spec (response_byte_limit (rq_profile r)) (len bs)); [done|]. by intros [= <-].
Qed.

Lemma call_provider_spec r g check run x u oc called :
  call_provider r g check run = (x, u, oc, called) →
  if called then check = None ∧ ∀ raw, x = Ok raw → ∃ y, run = Ok y ∧ utf8_encode (gr_text y) = Some raw ∧
                                                        len raw ≤ response_byte_limit (rq_profile r)
  else check ≠ None ∧ ∀ raw, x ≠ Ok raw.
Proof.
  unfold call_provider. destruct check as [[]|]; try by intros [= <- <- <- <-].
  destruct run as [y|[]]; try by intros [= <- <- <- <-].
  destruct (bounded_text r (gr_text y)) as [raw|[]] eqn:E; intros [= <- <- <- <-]; try done.
  split; [done|]. intros raw' [= <-]. apply bounded_text_Ok in E. eauto.
Qed.

(** C36: without governance the provider is called at most once, only for a request that was rendered within
    all limits, after the lease was checked, a ticket for exactly the rendered estimate and
    output tokens was granted, and the lease was checked again, and while the ledger still holds that
    ticket; the bytes that are returned are the provider's text within the response bound; and
    the ticket is finished in every case, or the failure to finish it is what is raised -
    whatever the provider, the fence and the other users of the ledger do. *)
Theorem managed_call_accounted self r context governed check run d a :
  ap_inv a →
  let '(o, a', log) := analyze_direct result_schema limit env self r context governed check run d a in
  direct_conduct self r context check run d a o a' log.
Proof.
  intros Ha. unfold analyze_direct. destruct (render _ _ self r) as [[g estimate]|e] eqn:Er; [|by econstructor].
  destruct context as [i|]; [|by econstructor]. destruct (check 0%nat) as [e|] eqn:E0; [by econstructor|].
  destruct governed; [by econstructor|].
  pose proof (ap_acquire_spec i estimate (gr_output_tokens g) DOCUMENT_BACKGROUND d (env 0 a) (Henv 0 a Ha)) as Hs.
  pose proof (ap_acquire_inv i estimate (gr_output_tokens g) DOCUMENT_BACKGROUND d (env 0 a) (Henv 0 a Ha)) as Hi.
  destruct (ap_acquire _ _ _ _ _ _) as [[t|e] a1] eqn:Eacq; [|by econstructor]. cbn [snd] in Hi.
  assert (ticketed self r (Some i) check d a t g a1) as Ht by (by exists i, estimate).
  destruct (call_provider r g (check 1%nat) run) as [[[x u] oc] called] eqn:Ec. apply call_provider_spec in Ec.
  pose proof (ap_finish_spec t u oc (env 1 a1) (Henv 1 a1 Hi)) as Hf.
  destruct (ap_finish _ _ _ _) as [[[]|e] a2]; destruct called; destruct Ec as [E1 Ec].
  - eapply dc_called; [done|done|apply Hs| |intros _; apply Hf]. destruct x as [raw|e]; [|done]. intros raw' [= <-]. eauto.
  - eapply dc_fenced; [done|done| |intros _; apply Hf]. destruct x as [raw|e]; [by destruct (Ec raw)|done].
  - eapply dc_called; [done|done|apply Hs|done|]. intros F. by destruct (F e).
  - eapply dc_fenced; [done|done|done|]. intros F. by destruct (F e).
Qed.

End DirectCalls.

(** ** Concrete calls *)

(** A runtime whose UUIDs have the canonical form. *)
Definition uuid_digits (t : text) : text :=
  let h := foldl (λ acc c, N.land (acc * 33 + c) 0xffffffffffff)%N 5381%N t in
  (λ i, if bool_decide (i ∈ [8; 13; 18; 23]%nat) then 45%N
        else hex_digit (N.land (N.shiftr h (4 * N.of_nat (i mod 12))) 15)) <$> seq 0 36.

Definition uuid_runtime : Runtime := {|
  sha256_hex := sample_sha; uuid5_url t := of_cps (uuid_digits t);
  float_repr q := dumps_int (Qnum q) ++ [46%N] ++ dumps_int (Zpos (Qden q));
  isoformat_utc := dumps_int; isprintable c := (32 <=? c)%N |}.

Lemma hex_digit_range n : (n < 16)%N → (48 ≤ hex_digit n ≤ 57 ∨ 97 ≤ hex_digit n ≤ 102)%N.
Proof. unfold hex_digit. intros. destruct (N.ltb_spec n 10); lia. Qed.

Lemma uuid_runtime_uuid name : is_uuid (@uuid5_url uuid_runtime name).
Proof.
  assert (∀ c, c ∈ uuid_digits name → c = 45%N ∨ (48 ≤ c ≤ 57)%N ∨ (97 ≤ c ≤ 102)%N) as Hc.
  { intros c (i & -> & _)%list_elem_of_fmap. case_bool_decide; [by left|]. right. apply hex_digit_range, land_15. }
  unfold is_uuid. change (@uuid5_url uuid_runtime name) with (of_cps (uuid_digits name)). rewrite cps_of_cps by (intros c Hin; destruct (Hc c Hin) as [->|]; lia). split.
  - unfold uuid_digits. by rewrite length_fmap, length_seq.
  - by apply Forall_forall.
Qed.

Definition the_capability : CapabilityProfile := {|
  cap_version := "c/1"; context_tokens := 100000; max_output_tokens := 1000; overhead_tokens := 10; safety_tokens := 10;
  structured_output := so_json_schema; output_parameter := op_max_completion_tokens; streaming := false;
  usage_reporting := true; temperature := Some 0%Q; response_models := []; reasoning_effort := None;
  schema_profile := Some "azure-strict/1" |}.

Definition the_settings : ManagedSettings := {|
  generation_profile := managed_generation_2; ms_capability := the_capability;
  ms_profiles := (λ st, {| sp_stage := st; sp_version := "v/1"; sp_input_tokens := 60000; sp_output_tokens := 1000 |})
                   <$> [st_chunk; st_intermediate; st_structural; st_root];
  max_request_bytes := 50000; max_response_envelope_bytes := None; max_evidence := 10;
  child_input_bytes := Some 9000; total_seconds := inject_Z 60 |}.

Definition the_provider : ManagedProvider := {|
  mp_name := "openai_compatible"; mp_executable := true; mp_model_id r := Ok "model-1" |}.

Definition no_inference : ManagedSynthesisInference := {|
  mi_provider := the_provider; mi_settings := the_settings; mi_stage := st_chunk; mi_model := EmptyString;
  mi_config := EmptyString |}.

Definition get {E B} (d : B) (r : result E B) : B := match r with Ok b => b | Err _ => d end.

Definition the_inference : ManagedSynthesisInference :=
  Eval vm_compute in get no_inference (@managed_inference uuid_runtime Schema.sample_schema 20 the_provider the_settings st_root).

Definition the_planning : DigestionProfile :=
  Eval vm_compute in get sample_digestion (@managed_profile uuid_runtime Schema.sample_schema 20 the_inference sample_digestion).

Definition sid (n : string) : uuid := @uuid5_url uuid_runtime (cps n).

Definition the_claim (n : string) (es : list uuid) : Claim := {|
  claim_id := sid ("claim-" +:+ n); originating_stage := sid n; c_text := cps "A finding."; c_kind := commentary;
  evidence_ids := es; contradicting := []; qualifications := []; c_lineage := []; c_subject := None;
  stance := stance_unknown; c_status := supported |}.

(** Two chunks that share a piece of evidence. *)
Definition the_child (n : string) (es : list uuid) : ChildInput := {|
  ci_artifact := sample_artifact (sid n);
  ci_result := {| sr_stage_id := sid n; sr_kind := analysis; sr_outcome := analyzed_outcome;
                  claims := [the_claim n es]; open_questions := []; limitations := [] |};
  ci_inherited := {| analyzed_pieces := 1; failed_pieces := 0; n_qualifications := 0; n_contradictions := 0;
                     n_open_questions := 0 |} |}.

Definition the_reduction : StageRequest := {|
  rq_stage_id := sid "root"; rq_stage := reduction; rq_profile := the_planning; rq_path := [cps "Chapter 1"];
  source_data := [];
  children := [the_child "first" [sid "e-1"; sid "e-2"]; the_child "second" [sid "e-2"; sid "e-3"]] |}.

Lemma the_reduction_wide : wide the_reduction.
Proof.
  split; [apply uuid_runtime_uuid|]. intros c cl k Hc Hcl Hk. cbn [the_reduction children] in Hc.
  rewrite !elem_of_cons, elem_of_nil in Hc.
  destruct Hc as [->|[->|[]]]; cbn [the_child ci_result claims] in Hcl; apply list_elem_of_singleton in Hcl as ->;
    unfold claim_evidence in Hk; cbn [the_claim evidence_ids contradicting] in Hk;
    rewrite app_nil_r, !elem_of_cons, elem_of_nil in Hk; destruct_or?; subst; try done; apply uuid_runtime_uuid.
Qed.

Definition is_Ok {E B} (r : result E B) : bool := match r with Ok _ => true | Err _ => false end.

Lemma get_Ok {E B} (d : B) (r : result E B) : is_Ok r = true → r = Ok (get d r).
Proof. by destruct r. Qed.

Definition the_stage_profile : StageProfile :=
  {| sp_stage := st_root; sp_version := "v/1"; sp_input_tokens := 60000; sp_output_tokens := 1000 |}.

Abbreviation the_rendering := (@rendered uuid_runtime Schema.sample_schema the_inference the_stage_profile the_reduction).
Abbreviation the_render := (@render uuid_runtime Schema.sample_schema 20 the_inference the_reduction).
Definition no_generation : GenerationRequest := @generation_of uuid_runtime the_inference the_stage_profile JNull the_reduction.

(** What planning reserves, the limit, and what is sent. *)
Example planned_and_sent :
  (match managed_input_budget the_planning with Some b => (@planned_size uuid_runtime b the_reduction, input_bytes b) | None => (0, 0) end,
   (get (no_generation, 0) the_rendering).2) = (22676, 50000, 7260).
Proof. vm_compute. reflexivity. Qed.

Lemma managed_requests_fit_witness :
  the_render = Ok ((get (no_generation, 0) the_rendering).1, (get (no_generation, 0) the_rendering).2 + 20) ∧
  (get (no_generation, 0) the_rendering).2 ≤ 50000.
Proof.
  assert (the_rendering = Ok ((get (no_generation, 0) the_rendering).1, (get (no_generation, 0) the_rendering).2)) as Hr.
  { rewrite <-surjective_pairing. apply get_Ok. vm_compute. reflexivity. }
  destruct (@managed_requests_fit uuid_runtime uuid_runtime_uuid Schema.sample_schema 20 the_inference the_reduction
    (get 0 (@check_request uuid_runtime the_reduction)) 9000 the_stage_profile the_planning
    (get (no_generation, 0) the_rendering).1 (get (no_generation, 0) the_rendering).2 the_reduction_wide eq_refl) as (H1 & H2 & _).
  - apply get_Ok. vm_compute. reflexivity.
  - vm_compute. reflexivity.
  - vm_compute. reflexivity.
  - reflexivity.
  - exact Hr.
  - split; [exact H1|exact H2].
Defined.

Definition the_plan : Plan := {|
  pl_profile := the_planning;
  structure := {| sm_extraction := sample_artifact (sid "extraction"); sm_version_id := sid "version";
                  sm_profile := sample_sha []; sm_units := [] |};
  chunks := []; reducers := []; root_id := sid "root"; eligible := []; skipped := []; unsupported_ids := [] |}.

Definition the_job : job_row := {|
  job_id := "job-1"; run_id := "run-1"; j_scope := "t-1:o-1"; request_key := "k"; j_fingerprint := sample_sha [];
  version_id := sample_version; source_key := "s"; generation := 1; request := sample_request; j_created_at := 0;
  updated_at := 0; document_created_at := 0; j_state := JobState.NORMALIZING; cancel_requested := false;
  progress := empty_progress; terminal_category := None |}.

Definition the_step : step_row := {|
  step_id := "step-1"; s_job_id := "job-1"; s_unit_id := sid "root"; spec := sample_spec (sid "root") Stage.NORMALIZING [];
  step_key := sample_sha []; input_fingerprint := sample_sha []; execution_at := 0; s_state := StepState.RUNNING;
  attempt_count := 1; fence := 1; lease_owner := Some "w"; lease_expires_at := Some 1000; not_before := 0;
  started_at := Some 0; finished_at := None; failure_category := None; reused_from := None |}.

Abbreviation the_call := (@stage_call uuid_runtime Schema.sample_schema 20 the_inference the_plan the_job the_step true the_reduction).
Definition the_identity : CallIdentity := call_identity the_inference the_job the_step st_root the_stage_profile.

Lemma governed_calls_admissible_witness :
  @execute_checks uuid_runtime (get (no_generation, 0) the_render).1 the_identity "openai_compatible" "model-1"
  = Ok (get (no_generation, 0) the_render).2.
Proof.
  assert (the_render = Ok ((get (no_generation, 0) the_render).1, (get (no_generation, 0) the_render).2)) as Hr.
  { rewrite <-surjective_pairing. apply get_Ok. vm_compute. reflexivity. }
  apply (@governed_calls_admissible uuid_runtime Schema.sample_schema 20 the_provider the_settings st_root the_inference
    the_plan the_job the_step true the_reduction the_inference the_identity
    (get (no_generation, 0) the_render).1 (get (no_generation, 0) the_render).2); [| | |exact Hr].
  - vm_compute. reflexivity.
  - vm_compute. reflexivity.
  - vm_compute. reflexivity.
Defined.

(** A direct call on the actual admission ledger, while another job's call is admitted before each of the
    two ledger calls. *)
Definition wide_policy : AdmissionPolicy := {|
  rpm := 10; tpm := 100000; concurrent := 4; interactive_rpm := 2; interactive_tpm := 400; interactive_slots := 1;
  per_job_concurrent := 2; per_job_rpm := 2 |}.

Definition the_ledger : InferenceAdmissionPort (list call_row) := sqlite_admission "q" wide_policy.

Definition other_job_call : CallIdentity := {|
  ci_scope := "t-1:o-2"; ci_job := "job-2"; ci_step := "s"; ci_attempt := 1; ci_profile := "p/1"; ci_provider := "openai";
  ci_role := "general"; ci_model := "m"; ci_capability := "c/1" |}.

Definition busy (i : nat) (rows : list call_row) : list call_row :=
  (@ap_acquire _ the_ledger other_job_call 100 50 DOCUMENT_BACKGROUND
     (sample_draw (nth i ["b0"; "b1"] "b2") "e") rows).2.

Definition the_answer : GenerationResult := {|
  gr_text := cps "{}"; gr_usage := None; gr_served_model := None; gr_finish := None; gr_metadata := None |}.

Abbreviation the_direct_call :=
  (@analyze_direct uuid_runtime Schema.sample_schema 20 (list call_row) the_ledger busy the_inference the_reduction
     (Some the_identity) false (λ _, None) (Ok the_answer) (sample_draw "k" "e") []).

Example direct_call : the_direct_call.1.1 = Analyzed (cps "{}") ∧ length the_direct_call.2 = 2%nat ∧
  ticket_live the_direct_call.1.2 "k" = false ∧ ticket_live the_direct_call.1.2 "b0" = true.
Proof. vm_compute. done. Qed.

Lemma managed_call_accounted_witness :
  let '(o, a', log) := the_direct_call in
  @direct_conduct uuid_runtime (list call_row) the_ledger Schema.sample_schema 20 busy the_inference the_reduction
    (Some the_identity) (λ _, None) (Ok the_answer) (sample_draw "k" "e") [] o a' log.
Proof.
  apply (@managed_call_accounted uuid_runtime (list call_row) the_ledger Schema.sample_schema 20 busy).
  - intros i rows Hrows. by apply (@ap_acquire_inv _ the_ledger).
  - constructor.
Defined.
