(* ===== verification/Publication.v ===== *)
(** * Publications: contracts and the activation authority

    [documents/publication/models.py] and [documents/publication/authority.py]: content-addressed
    manifests of retrieval records, and the small database that fences which generation serves. *)

From Stdlib Require Import ZArith NArith QArith Lia Sorted.
From stdpp Require Import base tactics list strings option sets.
From S2P Require Import Prelude Json Contracts JobModels DigestModels Extraction.

Local Open Scope Z_scope.

(** ** Errors *)

Definition publication_categories : list string :=
  ["publication_invalid_input"; "publication_validation_failed"; "publication_write_failure";
   "publication_stale_candidate"; "publication_generation_mismatch"; "publication_unavailable";
   "publication_incompatible"; "provenance_invalid"; "citation_invalid"; "retrieval_scope_invalid";
   "embedding_limit"; "analysis_limit"].

(** [SecurityDenied] is [SecurityError()] of the caller's authorization; [OtherFailure] any other
    exception. *)
Inductive pub_exn := PubErr (category : string) | SecurityDenied | OtherFailure.
#[export] Instance pub_exn_eq_dec : EqDecision pub_exn.
Proof. solve_decision. Defined.

Definition PublicationError (c : string) : pub_exn :=
  PubErr (if bool_decide (c ∈ publication_categories) then c else "publication_validation_failed").

(** ** Contracts *)

Record RetrievalProfile := {
  rp_version : string; embedding_model : string; embedding_revision : string; dimension : Z;
  rp_max_tokens : Z; rp_max_characters : Z }.
#[export] Instance RetrievalProfile_eq_dec : EqDecision RetrievalProfile.
Proof. solve_decision. Defined.

Definition valid_retrieval_profile (p : RetrievalProfile) : bool :=
  is_token (rp_version p) && is_token (embedding_model p) && is_token (embedding_revision p)
  && (0 <? dimension p) && (8 <=? rp_max_tokens p) && (rp_max_tokens p <=? 240)
  && (8 <=? rp_max_characters p) && (rp_max_characters p <=? 4096).

Definition retrieval_profile_json (p : RetrievalProfile) : json :=
  JObj [("version", jstr (rp_version p)); ("embedding_model", jstr (embedding_model p));
        ("embedding_revision", jstr (embedding_revision p)); ("dimension", JInt (dimension p));
        ("normalized", JBool true); ("max_tokens", JInt (rp_max_tokens p));
        ("max_characters", JInt (rp_max_characters p)); ("provenance_schema", jstr "evidence/1");
        ("publication_schema", jstr "publication/1")].

Record ActivePublication := { generation_of : option uuid; epoch : Z }.
#[export] Instance ActivePublication_eq_dec : EqDecision ActivePublication.
Proof. solve_decision. Defined.

Definition active_json (a : ActivePublication) : json :=
  JObj [("generation", jopt juuid (generation_of a)); ("epoch", JInt (epoch a))].

Record AcceptedDocument := {
  ad_scope : Scope; ad_job_id : uuid; ad_document_id : uuid; ad_version_id : uuid;
  ad_extraction_id : uuid; ad_extraction : ObjectRef; ad_digest : ObjectRef }.
#[export] Instance AcceptedDocument_eq_dec : EqDecision AcceptedDocument.
Proof. solve_decision. Defined.

(** [model_dump(mode='json')] without the job identifier. *)
Definition accepted_json (d : AcceptedDocument) : json :=
  JObj [("scope", scope_json (ad_scope d)); ("document_id", juuid (ad_document_id d));
        ("document_version_id", juuid (ad_version_id d)); ("extraction_id", juuid (ad_extraction_id d));
        ("extraction", ref_json (ad_extraction d)); ("digest", ref_json (ad_digest d));
        ("status", jstr "COMPLETE")].

Inductive RecordLimitation := lim_none | uninterpreted_visual.
#[export] Instance RecordLimitation_eq_dec : EqDecision RecordLimitation.
Proof. solve_decision. Defined.

Record RetrievalRecord := {
  record_id : uuid; rr_document_id : uuid; rr_version_id : uuid; rr_extraction_id : uuid;
  rr_text : text; rr_evidence : EvidenceRef; structural_path : list text; source_kind_ : string;
  rr_limitation : RecordLimitation; rr_profile : digest }.
#[export] Instance RetrievalRecord_eq_dec : EqDecision RetrievalRecord.
Proof. solve_decision. Defined.

Record PublicationManifest := {
  generation : uuid; pm_scope : Scope; pm_base : ActivePublication; pm_profile : RetrievalProfile;
  pm_documents : list AcceptedDocument; pm_records : list RetrievalRecord; removed_versions : list uuid }.

Section Models.
Context `{Runtime}.

Definition retrieval_digest (p : RetrievalProfile) : digest := fingerprint (retrieval_profile_json p).

(** The fields of a record but its identifier. *)
Definition record_fields (r : RetrievalRecord) : list (string * json) :=
  [("document_id", juuid (rr_document_id r)); ("document_version_id", juuid (rr_version_id r));
   ("extraction_id", juuid (rr_extraction_id r)); ("material", jstr "SOURCE_TEXT");
   ("classification", jstr "ORIGINAL"); ("text", JStr (rr_text r)); ("evidence", evidence_json (rr_evidence r));
   ("structural_path", JArr (JStr <$> structural_path r)); ("source_kind", jstr (source_kind_ r));
   ("limitation", jstr match rr_limitation r with lim_none => "none" | uninterpreted_visual => "uninterpreted_visual" end);
   ("profile", jstr (rr_profile r))].

(** [RetrievalRecord.identity] *)
Definition record_identity (r : RetrievalRecord) : uuid :=
  stable_id [cps "retrieval-record/1"; cps (fingerprint (JObj (record_fields r)))].

Definition valid_record (r : RetrievalRecord) : bool :=
  (1 <=? len (rr_text r)) && (len (rr_text r) <=? 4096) && (len (structural_path r) <=? 32)
  && (len (cps (source_kind_ r)) <=? 32) && is_digest (rr_profile r) && valid_span (ev_span (rr_evidence r))
  && bool_decide (record_id r = record_identity r)
  && bool_decide (rr_version_id r = ev_version_id (rr_evidence r))
  && bool_decide (rr_extraction_id r = ev_extraction_id (rr_evidence r)).

Definition record_json (r : RetrievalRecord) : json := JObj (("record_id", juuid (record_id r)) :: record_fields r).

(** [PublicationManifest.identity] *)
Definition manifest_identity (m : PublicationManifest) : uuid :=
  stable_id [cps "publication/1"; cps (fingerprint (JObj
    [("schema_version", jstr "publication/1"); ("scope", scope_json (pm_scope m));
     ("base", active_json (pm_base m)); ("profile", retrieval_profile_json (pm_profile m));
     ("documents", JArr (accepted_json <$> pm_documents m)); ("records", JArr (record_json <$> pm_records m));
     ("removed_versions", JArr (juuid <$> removed_versions m)); ("policy", jstr "COMPLETE_ONLY")]))].

Definition document_of (m : PublicationManifest) (id : uuid) : option AcceptedDocument :=
  find_row (λ d, bool_decide (ad_document_id d = id)) (pm_documents m).

Definition record_belongs (m : PublicationManifest) (r : RetrievalRecord) : bool :=
  match document_of m (rr_document_id r) with
  | None => false
  | Some d =>
      bool_decide (ev_scope (rr_evidence r) = pm_scope m)
      && bool_decide (rr_profile r = retrieval_digest (pm_profile m))
      && bool_decide (rr_version_id r = ad_version_id d)
      && bool_decide (rr_extraction_id r = ad_extraction_id d)
  end.

(** A constructed [PublicationManifest]: its parts and [valid]. *)
Definition valid_manifest_model (m : PublicationManifest) : bool :=
  valid_retrieval_profile (pm_profile m) && (0 <=? epoch (pm_base m)) && forallb valid_record (pm_records m)
  && forallb (λ d, valid_object_ref (ad_extraction d) && valid_object_ref (ad_digest d)) (pm_documents m)
  && bool_decide (NoDup (ad_document_id <$> pm_documents m))
  && bool_decide (generation m = manifest_identity m)
  && bool_decide (NoDup (record_id <$> pm_records m))
  && forallb (λ d, bool_decide (ad_scope d = pm_scope m)
                   && bool_decide (ref_scope (ad_extraction d) = pm_scope m)
                   && bool_decide (ref_scope (ad_digest d) = pm_scope m)) (pm_documents m)
  && forallb (record_belongs m) (pm_records m)
  && forallb (λ d, existsb (λ r, bool_decide (rr_document_id r = ad_document_id d)) (pm_records m)) (pm_documents m).

(** [record_values] and [manifest_values]: the identity of the draft, then validation. *)
Definition record_values (draft : RetrievalRecord) : option RetrievalRecord :=
  let r := {| record_id := record_identity draft; rr_document_id := rr_document_id draft;
              rr_version_id := rr_version_id draft; rr_extraction_id := rr_extraction_id draft;
              rr_text := rr_text draft; rr_evidence := rr_evidence draft;
              structural_path := structural_path draft; source_kind_ := source_kind_ draft;
              rr_limitation := rr_limitation draft; rr_profile := rr_profile draft |} in
  if valid_record r then Some r else None.

Definition manifest_values (draft : PublicationManifest) : option PublicationManifest :=
  let m := {| generation := manifest_identity draft; pm_scope := pm_scope draft; pm_base := pm_base draft;
              pm_profile := pm_profile draft; pm_documents := pm_documents draft;
              pm_records := pm_records draft; removed_versions := removed_versions draft |} in
  if valid_manifest_model m then Some m else None.

(** A vector's metadata is a dict of strings. *)
Definition vector_metadata (m : PublicationManifest) (r : RetrievalRecord) : list (string * string) :=
  [("generation", generation m); ("record_id", record_id r); ("document_id", rr_document_id r);
   ("version", rr_version_id r); ("material", "SOURCE_TEXT"); ("classification", "ORIGINAL");
   ("profile", rr_profile r); ("source", rr_document_id r); ("chunk_id", record_id r)].

Definition physical_id (g r : uuid) : uuid := stable_id [cps "publication-vector/1"; cps g; cps r].

End Models.

(** ** The authority database *)

Module CandidateState.
Inductive t := PREPARING | READY | ACCEPTED | FAILED | STALE.
End CandidateState.
#[export] Instance CandidateState_eq_dec : EqDecision CandidateState.t.
Proof. solve_decision. Defined.

Record candidate_row := {
  c_generation : uuid; c_manifest : ObjectRef; c_base : ActivePublication; c_state : CandidateState.t;
  c_error : option string }.

(** [operation] is ['rollback'] or ['forward']. *)
Record activation_row := {
  act_epoch : Z; act_generation : uuid; act_expected : ActivePublication; act_rollback : bool }.

Record pdb := { active_row : ActivePublication; candidates : list candidate_row; activations : list activation_row }.

Definition empty_pdb : pdb := {|
  active_row := {| generation_of := None; epoch := 0 |}; candidates := []; activations := [] |}.

Notation ptx := (tx pdb pub_exn).

Definition of_generation (g : uuid) (r : candidate_row) : bool := bool_decide (c_generation r = g).

Definition on_candidates (f : list candidate_row → list candidate_row) (d : pdb) : pdb := {|
  active_row := active_row d; candidates := f (candidates d); activations := activations d |}.

Definition _active : ptx ActivePublication := gets active_row.

Definition active : ptx ActivePublication := _active.

Definition register_candidate (m : PublicationManifest) (ref : ObjectRef) : ptx unit :=
  cs ← gets candidates;
  match find_row (of_generation (generation m)) cs with
  | Some row => guard (bool_decide (c_manifest row = ref)) (PublicationError "publication_invalid_input")
  | None =>
      a ← _active;
      _ ← guard (bool_decide (a = pm_base m)) (PublicationError "publication_stale_candidate");
      modify (on_candidates (λ l, l ++ [{|
        c_generation := generation m; c_manifest := ref; c_base := pm_base m;
        c_state := CandidateState.PREPARING; c_error := None |}]))
  end.

Definition candidate (g : uuid) : ptx (ObjectRef * CandidateState.t * ActivePublication) :=
  cs ← gets candidates;
  row ← expect (find_row (of_generation g) cs) (PublicationError "publication_unavailable");
  mret (c_manifest row, c_state row, c_base row).

Definition set_candidate (st : CandidateState.t) (error : option string) (r : candidate_row) : candidate_row := {|
  c_generation := c_generation r; c_manifest := c_manifest r; c_base := c_base r; c_state := st; c_error := error |}.

Definition markable (g : uuid) (r : candidate_row) : bool :=
  of_generation g r
  && bool_decide (c_state r ∈ [CandidateState.PREPARING; CandidateState.READY; CandidateState.FAILED]).

Definition mark (g : uuid) (st : CandidateState.t) (error : option string) : ptx unit :=
  _ ← guard (bool_decide (st ∈ [CandidateState.READY; CandidateState.FAILED; CandidateState.STALE]))
        (PublicationError "publication_invalid_input");
  modify (on_candidates (update_where (markable g) (set_candidate st error))).

Definition activate (g : uuid) (expected : ActivePublication) (rollback : bool) : ptx ActivePublication :=
  current ← _active;
  cs ← gets candidates;
  acts ← gets activations;
  let row := find_row (of_generation g) cs in
  let result := {| generation_of := Some g; epoch := epoch expected + 1 |} in
  let event := find_row (λ e, act_epoch e =? epoch expected + 1) acts in
  if bool_decide (current = result)
     && match event with
        | Some e => bool_decide (act_generation e = g) && bool_decide (act_expected e = expected)
                    && Bool.eqb (act_rollback e) rollback
        | None => false
        end
  then mret current
  else
    _ ← guard (bool_decide (current = expected)) (PublicationError "publication_stale_candidate");
    _ ← guard (match row with
               | None => false
               | Some r =>
                   if rollback then bool_decide (c_state r = CandidateState.ACCEPTED)
                   else bool_decide (c_state r = CandidateState.READY) && bool_decide (c_base r = expected)
               end) (PublicationError "publication_stale_candidate");
    let result := {| generation_of := Some g; epoch := epoch current + 1 |} in
    _ ← guard (forallb (λ e, negb (act_epoch e =? epoch result)) acts) (PublicationError "publication_unavailable");
    _ ← modify (λ d, {|
          active_row := result;
          candidates := update_where (of_generation g) (set_candidate CandidateState.ACCEPTED None) (candidates d);
          activations := activations d ++ [{| act_epoch := epoch result; act_generation := g;
                                              act_expected := expected; act_rollback := rollback |}] |});
    mret result.

Definition inventory_states : ptx (list (uuid * CandidateState.t)) :=
  gets (λ d, (λ r, (c_generation r, c_state r)) <$> candidates d).
