(* ===== verification/PublicationAuthority.v ===== *)
(** * The activation authority is a compare-and-swap register

    What holds after any history of the calls of [documents/publication/authority.py]. *)

From Stdlib Require Import ZArith NArith QArith Lia Sorted.
From stdpp Require Import base tactics list strings option sets.
From S2P Require Import Prelude Json Contracts JobModels JobLedger Sample DigestModels Extraction ExtractionTheorems Publication.

Local Open Scope Z_scope.

Section Authority.
Context `{Runtime}.

Inductive pub_call :=
| Register (m : PublicationManifest) (ref : ObjectRef)
| Mark (g : uuid) (st : CandidateState.t) (error : option string)
| Activate (g : uuid) (expected : ActivePublication) (rollback : bool).

Definition pub_exec (d : pdb) (c : pub_call) : pdb :=
  match c with
  | Register m ref => (transaction (register_candidate m ref) d).2
  | Mark g st error => (transaction (mark g st error) d).2
  | Activate g expected rb => (transaction (activate g expected rb) d).2
  end.

Definition pub_run (cs : list pub_call) (d : pdb) : pdb := foldl pub_exec d cs.

(** ** The invariant *)

(** What serves after these activations. *)
Definition head_of (acts : list activation_row) : ActivePublication :=
  match last acts with
  | None => {| generation_of := None; epoch := 0 |}
  | Some e => {| generation_of := Some (act_generation e); epoch := act_epoch e |}
  end.

(** Each activation replaces exactly what served before it; a generation is first activated
    forward, and only generations that served before are rolled back to. *)
Inductive chain : list activation_row → Prop :=
| chain_nil : chain []
| chain_snoc acts e :
    chain acts → act_expected e = head_of acts → act_epoch e = epoch (head_of acts) + 1 →
    (act_generation e ∈ act_generation <$> acts ↔ act_rollback e = true) → chain (acts ++ [e]).

Definition accepted_row (g : uuid) (d : pdb) : Prop :=
  ∃ r, r ∈ candidates d ∧ c_generation r = g ∧ c_state r = CandidateState.ACCEPTED.

Record pub_ok (d : pdb) : Prop := {
  ok_keys : NoDup (c_generation <$> candidates d);
  ok_chain : chain (activations d);
  ok_head : active_row d = head_of (activations d);
  ok_accepted : ∀ g, accepted_row g d ↔ g ∈ act_generation <$> activations d;
  ok_bases : ∀ e r, e ∈ activations d → act_rollback e = false → r ∈ candidates d →
    c_generation r = act_generation e → c_base r = act_expected e }.

Lemma head_snoc acts e :
  head_of (acts ++ [e]) = {| generation_of := Some (act_generation e); epoch := act_epoch e |}.
Proof. unfold head_of. by rewrite last_snoc. Qed.

Lemma chain_epochs acts : chain acts → epoch (head_of acts) = len acts ∧ ∀ e, e ∈ acts → 1 ≤ act_epoch e ≤ len acts.
Proof.
  induction 1 as [|acts e Hc [IH1 IH2] Hx He Hr]; [split; [done|]; by intros ? ?%not_elem_of_nil|].
  rewrite head_snoc. simpl. rewrite len_app. change (len [e]) with 1. split; [lia|].
  intros e' [Hin|Hin%list_elem_of_singleton]%elem_of_app; [specialize (IH2 e' Hin); lia|].
  subst. pose proof (len_nonneg acts). lia.
Qed.

Lemma chain_unique acts e e' : chain acts → e ∈ acts → e' ∈ acts → act_epoch e = act_epoch e' → e = e'.
Proof.
  intros Hc. revert e e'. induction Hc as [|acts e0 Hc IH Hx He Hr]; intros e e'; [by intros ?%not_elem_of_nil|].
  pose proof (chain_epochs _ Hc) as [Hl Hb].
  intros [Hin|Hin%list_elem_of_singleton]%elem_of_app [Hin'|Hin'%list_elem_of_singleton]%elem_of_app Hee.
  - by apply IH.
  - subst. specialize (Hb e Hin). lia.
  - subst. specialize (Hb e' Hin'). lia.
  - by subst.
Qed.

Lemma pub_ok_empty : pub_ok empty_pdb.
Proof.
  split; simpl; try done.
  - constructor.
  - constructor.
  - intros g. split; [intros (r & Hr & _); by apply not_elem_of_nil in Hr|by intros ?%not_elem_of_nil].
  - by intros e r ?%not_elem_of_nil.
Qed.

(** A change of states alone. *)
Lemma update_keys p (st : CandidateState.t) error l :
  c_generation <$> update_where p (set_candidate st error) l = c_generation <$> l.
Proof. by apply update_where_fmap. Qed.

Lemma update_accepted p st error d g :
  (∀ r, p r = true → c_state r ≠ CandidateState.ACCEPTED) → st ≠ CandidateState.ACCEPTED →
  accepted_row g (on_candidates (update_where p (set_candidate st error)) d) ↔ accepted_row g d.
Proof.
  intros Hp Hst. unfold accepted_row. simpl. split.
  - intros (r & (r0 & Hr0 & ->)%elem_of_update_where & Hg & Hs). destruct (p r0); [done|]. by exists r0.
  - intros (r & Hr & Hg & Hs). exists r. split; [|done]. apply elem_of_update_where. exists r. split; [done|].
    destruct (p r) eqn:Ep; [|done]. by destruct (Hp r Ep).
Qed.

Lemma register_ok m ref : triple pub_ok (register_candidate m ref) (λ _, pub_ok).
Proof.
  intros d [K1 K2 K3 K4 K5] x d' Hr. unfold register_candidate in Hr.
  apply tx_bind_Ok in Hr as (cs & d1 & H1 & Hr). tx_inv H1.
  destruct (find_row _ (candidates d)) as [row|] eqn:Ef; [by tx_inv Hr|].
  unfold _active in Hr. tx_inv Hr. destruct x. subst. split; simpl; try done.
  - apply NoDup_snoc_key; [done|]. intros y Hy Eg. pose proof (find_row_None _ _ y Ef Hy) as Hf.
    unfold of_generation in Hf. by apply bool_decide_eq_false in Hf.
  - intros g. rewrite <-K4. split.
    + intros (r & [Hin| ->%list_elem_of_singleton]%elem_of_app & ? & ?); [by exists r|done].
    + intros (r & Hin & ?). exists r. split; [set_solver|done].
  - intros e r He Hf [Hin| ->%list_elem_of_singleton]%elem_of_app Hg; [by eapply K5|]. simpl in *.
    assert (accepted_row (act_generation e) d) as (r & Hin & Eg & _).
    { apply K4. by apply list_elem_of_fmap_2. }
    pose proof (find_row_None _ _ r Ef Hin) as Hx. unfold of_generation in Hx.
    apply bool_decide_eq_false in Hx. congruence.
Qed.

Lemma mark_ok g st error : triple pub_ok (mark g st error) (λ _, pub_ok).
Proof.
  intros d [K1 K2 K3 K4 K5] x d' Hr. unfold mark in Hr. tx_inv Hr. destruct x. subst.
  apply bool_decide_eq_true in Htx. split; simpl; try done.
  - by rewrite update_keys.
  - intros g'. rewrite update_accepted; [apply K4| |set_solver].
    intros r Hp. unfold markable in Hp. apply andb_true_iff in Hp as [_ Hp].
    apply bool_decide_eq_true in Hp. intros E. rewrite E in Hp. set_solver.
  - intros e r He Hf (r0 & Hr0 & ->)%elem_of_update_where Hg. destruct (markable g r0); simpl in *; by eapply K5.
Qed.

(** What an activation that returns did. *)
Lemma activate_Ok g expected rb d a d' :
  activate g expected rb d = Ok (a, d') →
  a = {| generation_of := Some g; epoch := epoch expected + 1 |} ∧
  ((d' = d ∧ active_row d = a ∧ ∃ e, e ∈ activations d ∧ act_epoch e = epoch expected + 1 ∧
      act_generation e = g ∧ act_expected e = expected ∧ act_rollback e = rb) ∨
   (active_row d = expected ∧
    (∃ r, r ∈ candidates d ∧ c_generation r = g ∧
       if rb then c_state r = CandidateState.ACCEPTED else c_state r = CandidateState.READY ∧ c_base r = expected) ∧
    d' = {| active_row := a;
            candidates := update_where (of_generation g) (set_candidate CandidateState.ACCEPTED None) (candidates d);
            activations := activations d ++ [{| act_epoch := epoch expected + 1; act_generation := g;
                                                act_expected := expected; act_rollback := rb |}] |})).
Proof.
  intros Hr. unfold activate, _active in Hr.
  apply tx_bind_Ok in Hr as (current & d1 & H1 & Hr). tx_inv H1.
  apply tx_bind_Ok in Hr as (cs & d1 & H1 & Hr). tx_inv H1.
  apply tx_bind_Ok in Hr as (acts & d1 & H1 & Hr). tx_inv H1. cbv zeta in Hr.
  destruct (_ && _) eqn:Ec in Hr.
  - tx_inv Hr. apply andb_true_iff in Ec as [Ec Ee]. apply bool_decide_eq_true in Ec.
    destruct (find_row _ (activations d)) as [e|] eqn:Ef; [|done]. apply find_row_Some in Ef as [Hin Hk].
    rewrite !andb_true_iff, !bool_decide_eq_true in Ee. destruct Ee as [[E1 E2] E3%eqb_prop].
    apply Z.eqb_eq in Hk. subst. split; [done|]. left. split_and!; [done|done|]. by exists e.
  - clear Ec. tx_inv Hr. apply bool_decide_eq_true in Htx. subst. split; [done|]. right. split; [done|].
    split; [|done]. destruct (find_row _ (candidates d)) as [r|] eqn:Ef; [|done].
    apply find_row_Some in Ef as [Hin Hg]. apply bool_decide_eq_true in Hg. exists r. split_and!; [done|done|].
    destruct rb; [by apply bool_decide_eq_true in Htx0|].
    apply andb_true_iff in Htx0 as [E1 E2]. by apply bool_decide_eq_true in E1, E2.
Qed.

Lemma activate_ok g expected rb : triple pub_ok (activate g expected rb) (λ _, pub_ok).
Proof.
  intros d Hd a d' Hr. destruct (activate_Ok _ _ _ _ _ _ Hr) as (-> & [(-> & _)|(Hx & (r & Hin & Hg & Hst) & ->)]); [done|].
  destruct Hd as [K1 K2 K3 K4 K5].
  assert (g ∈ act_generation <$> activations d ↔ rb = true) as Hrb.
  { rewrite <-K4. split.
    - intros (r' & Hin' & Hg' & Hs'). assert (r' = r) as -> by (eapply (elem_of_unique c_generation); eauto; congruence).
      destruct rb; [done|]. destruct Hst as [Hst _]. congruence.
    - intros ->. by exists r. }
  split; simpl.
  - by rewrite update_keys.
  - constructor; simpl; [done|by rewrite <-K3|by rewrite <-K3, Hx|done].
  - by rewrite head_snoc.
  - intros g'. rewrite fmap_app, elem_of_app. csimpl. rewrite list_elem_of_singleton, <-K4. split.
    + intros (r' & (r0 & Hr0 & ->)%elem_of_update_where & Hg' & Hs').
      destruct (of_generation g r0) eqn:Eo.
      * apply bool_decide_eq_true in Eo. right. by subst.
      * left. by exists r0.
    + intros [(r' & Hin' & Hg' & Hs')| ->].
      * exists (if of_generation g r' then set_candidate CandidateState.ACCEPTED None r' else r').
        split; [apply elem_of_update_where; eauto|]. by destruct (of_generation g r').
      * exists (set_candidate CandidateState.ACCEPTED None r). split; [|done].
        apply elem_of_update_where. exists r. split; [done|]. unfold of_generation.
        by rewrite bool_decide_eq_true_2.
  - intros e r' [He|He%list_elem_of_singleton]%elem_of_app Hf (r0 & Hr0 & ->)%elem_of_update_where Hg'.
    + destruct (of_generation g r0); simpl in *; by eapply K5.
    + subst e. simpl in *. subst rb.
      assert (c_generation r0 = g) as Hg0 by (by destruct (of_generation g r0)).
      assert (r0 = r) as -> by (eapply (elem_of_unique c_generation); eauto; congruence).
      destruct Hst as [_ Hb]. by destruct (of_generation g r).
Qed.

Lemma pub_exec_ok d c : pub_ok d → pub_ok (pub_exec d c).
Proof.
  intros Hd. destruct c; simpl; (apply (transaction_preserves pub_ok); [|exact Hd]);
    auto using register_ok, mark_ok, activate_ok.
Qed.

Lemma pub_run_ok cs d : pub_ok d → pub_ok (pub_run cs d).
Proof. revert d. induction cs as [|c cs IH]; intros d Hd; [done|]. by apply IH, pub_exec_ok. Qed.

(** ** Where activations come from *)

(** The call that inserted this activation found its base serving and its candidate in the
    required state: READY and registered against that base, or accepted before. *)
Definition activated_in (cs : list pub_call) (e : activation_row) : Prop :=
  ∃ cs1 cs2 r,
    cs = cs1 ++ Activate (act_generation e) (act_expected e) (act_rollback e) :: cs2 ∧
    let d := pub_run cs1 empty_pdb in
    e ∉ activations d ∧ active_row d = act_expected e ∧ r ∈ candidates d ∧ c_generation r = act_generation e ∧
    if act_rollback e then c_state r = CandidateState.ACCEPTED
    else c_state r = CandidateState.READY ∧ c_base r = act_expected e.

(** A call inserts at most one activation, and only an activation call does. *)
Lemma exec_activations d c :
  activations (pub_exec d c) = activations d ∨
  ∃ e r, c = Activate (act_generation e) (act_expected e) (act_rollback e) ∧
    activations (pub_exec d c) = activations d ++ [e] ∧ act_epoch e = epoch (act_expected e) + 1 ∧
    active_row d = act_expected e ∧ r ∈ candidates d ∧ c_generation r = act_generation e ∧
    if act_rollback e then c_state r = CandidateState.ACCEPTED
    else c_state r = CandidateState.READY ∧ c_base r = act_expected e.
Proof.
  destruct c as [m ref|g st error|g expected rb]; simpl; unfold transaction.
  - destruct (register_candidate m ref d) as [[x d']|e] eqn:E; [|by left]. left.
    unfold register_candidate, _active in E. apply tx_bind_Ok in E as (cs & d1 & H1 & E). tx_inv H1.
    destruct (find_row _ _); tx_inv E; by subst.
  - destruct (mark g st error d) as [[x d']|e] eqn:E; [|by left]. left. unfold mark in E. tx_inv E. by subst.
  - destruct (activate g expected rb d) as [[x d']|e] eqn:E; [|by left].
    apply activate_Ok in E as (_ & [(-> & _)|(Hx & (r & Hin & Hg & Hst) & ->)]); [by left|right].
    eexists _, r. split_and!; [|reflexivity|..]; done.
Qed.

Lemma activations_grow c d : ∃ l, activations (pub_exec d c) = activations d ++ l.
Proof.
  destruct (exec_activations d c) as [->|(e & r & _ & -> & _)]; [exists []; by rewrite app_nil_r|by eexists].
Qed.

Lemma activations_run cs d : ∃ l, activations (pub_run cs d) = activations d ++ l.
Proof.
  revert d. induction cs as [|c cs IH]; intros d; [exists []; by rewrite app_nil_r|]. simpl.
  destruct (IH (pub_exec d c)) as [l ->]. destruct (activations_grow c d) as [l' ->].
  exists (l' ++ l). by rewrite app_assoc.
Qed.

Lemma pub_run_snoc cs c d : pub_run (cs ++ [c]) d = pub_exec (pub_run cs d) c.
Proof. unfold pub_run. by rewrite foldl_app. Qed.

Lemma run_activated cs e : e ∈ activations (pub_run cs empty_pdb) → activated_in cs e.
Proof.
  induction cs as [|c cs IH] using rev_ind; [by intros ?%not_elem_of_nil|]. rewrite pub_run_snoc.
  assert (e ∈ activations (pub_run cs empty_pdb) → activated_in (cs ++ [c]) e) as Hold.
  { intros (cs1 & cs2 & r & -> & Hr)%IH. exists cs1, (cs2 ++ [c]), r. by rewrite <-app_assoc. }
  destruct (exec_activations (pub_run cs empty_pdb) c) as [->|(e' & r & -> & -> & Ee & Ha & Hr & Hg & Hst)]; [done|].
  intros [Hin|Hin%list_elem_of_singleton]%elem_of_app; [by apply Hold|subst e'].
  exists cs, [], r. cbv zeta. split_and!; [done| |done..].
  pose proof (pub_run_ok cs _ pub_ok_empty) as [_ K2 K3 _ _]. intros Hin.
  destruct (chain_epochs _ K2) as [Hh Hb]. specialize (Hb e Hin). rewrite <-Ha, K3, Hh in Ee. lia.
Qed.

(** C19: After any history of registrations, markings, activations and rollbacks, what serves is the
    last activation; the activations form a chain in which each one replaced exactly the
    generation and epoch that served before it (epochs are 1, 2, 3, ... with no gap and no
    repetition, so G1 -> G2 -> G1 is not mistaken for G1); and each activation was made by a call
    of the history that found its base serving and its candidate registered, READY and prepared on
    that very base, or, for a rollback, accepted before; so a generation is activated forward at
    most once and only generations that served before are rolled back to. *)
Theorem activation_chain cs :
  pub_ok (pub_run cs empty_pdb) ∧
  ∀ e, e ∈ activations (pub_run cs empty_pdb) → activated_in cs e.
Proof. split; [apply pub_run_ok, pub_ok_empty|apply run_activated]. Qed.

(** ** Every base is consumed once *)

(** Activation is a compare-and-swap on the serving generation and epoch: once an activation
    with an expected base has returned, then whatever happens afterwards, an activation with the
    same expected base succeeds only if it is the very same activation, still serving; it then
    returns the same answer and changes nothing.  Two competing publications prepared on the same
    base can never both be activated. *)
Theorem base_consumed_once cs0 cs g rb g' rb' expected a d1 a' d3 :
  let d := pub_run cs0 empty_pdb in
  activate g expected rb d = Ok (a, d1) →
  activate g' expected rb' (pub_run cs d1) = Ok (a', d3) →
  g' = g ∧ rb' = rb ∧ a' = a ∧ d3 = pub_run cs d1.
Proof.
  intros d H1 H2. assert (pub_ok d) as Hd by apply pub_run_ok, pub_ok_empty.
  assert (pub_ok d1) as Hd1 by (by apply (activate_ok g expected rb d Hd a)).
  assert (pub_ok (pub_run cs d1)) as [_ K2 K3 _ _] by (by apply pub_run_ok).
  assert (∃ e, e ∈ activations d1 ∧ act_epoch e = epoch expected + 1 ∧ act_generation e = g ∧ act_rollback e = rb)
    as (e & He & Ee & Eg & Er).
  { apply activate_Ok in H1 as (_ & [(-> & _ & e & ? & ? & ? & _ & ?)|(_ & _ & ->)]); [by exists e|].
    eexists. split; [simpl; apply elem_of_app; right; by apply list_elem_of_singleton|done]. }
  destruct (activations_run cs d1) as [l Hl].
  assert (e ∈ activations (pub_run cs d1)) as He' by (rewrite Hl; set_solver).
  apply activate_Ok in H1 as [-> _]. destruct (activate_Ok _ _ _ _ _ _ H2) as (-> & [(-> & _ & e' & Hin & Ee' & Eg' & _ & Er')|(Hx & _)]).
  - assert (e' = e) as -> by (eapply chain_unique; eauto; congruence). by subst.
  - exfalso. pose proof (chain_epochs _ K2) as [Hh Hb]. specialize (Hb e He').
    rewrite K3 in Hx. rewrite <-Hx, Hh in Ee. lia.
Qed.

End Authority.

(** ** Two candidates on one base *)

#[local] Existing Instance sample_runtime.

Definition sample_retrieval_profile : RetrievalProfile := {|
  rp_version := "source-retrieval/1"; embedding_model := "sentence-transformers/all-MiniLM-L6-v2";
  embedding_revision := "1110a243fdf4706b3f48f1d95db1a4f5529b4d41"; dimension := 384; rp_max_tokens := 240;
  rp_max_characters := 4096 |}.

Definition first_base : ActivePublication := {| generation_of := None; epoch := 0 |}.

Definition sample_manifest (removed : list uuid) : PublicationManifest := {|
  generation := EmptyString; pm_scope := sample_scope; pm_base := first_base;
  pm_profile := sample_retrieval_profile; pm_documents := []; pm_records := []; removed_versions := removed |}.

Definition manifest_a : PublicationManifest := default (sample_manifest []) (manifest_values (sample_manifest [])).
Definition manifest_b : PublicationManifest := default (sample_manifest []) (manifest_values (sample_manifest ["v"])).

Definition prepared_calls : list pub_call :=
  [Register manifest_a sample_source; Register manifest_b sample_source;
   Mark (generation manifest_a) CandidateState.READY None; Mark (generation manifest_b) CandidateState.READY None].

Definition activated_pdb : pdb :=
  (transaction (activate (generation manifest_a) first_base false) (pub_run prepared_calls empty_pdb)).2.

Lemma base_consumed_once_witness :
  let a := {| generation_of := Some (generation manifest_a); epoch := 1 |} in
  (activate (generation manifest_b) first_base false activated_pdb = Err (PubErr "publication_stale_candidate")) ∧
  (generation manifest_a = generation manifest_a ∧ false = false ∧ a = a ∧ activated_pdb = pub_run [] activated_pdb).
Proof.
  intros a. split; [vm_compute; reflexivity|].
  apply (base_consumed_once prepared_calls [] (generation manifest_a) false (generation manifest_a) false first_base
           a activated_pdb a activated_pdb); vm_compute; reflexivity.
Defined.
