(* ===== verification/PublicationPlan.v ===== *)
(** * Retrieval records: bounded exact slices of accepted sources

    [documents/publication/encoding.py] and [records] of [documents/publication/planning.py].
    The tokenizer and the embedding model are third-party and parameters here. *)

From Stdlib Require Import ZArith NArith QArith Lia.
From stdpp Require Import base tactics list strings option.
From S2P Require Import Prelude Json Contracts JobModels DigestModels DigestPlanning DigestArtifacts Extraction Publication.

Local Open Scope Z_scope.

(** [model.tokenizer] and [model.encode]. *)
Class EmbeddingModel := {
  (** [len(tokenizer(text, add_special_tokens=True, truncation=False)['input_ids'])] *)
  token_count : text → Z;
  (** [model.encode(text, normalize_embeddings=True).tolist()]; [None] for a component that is
      not finite *)
  encode_vector : text → list (option Q);
  max_seq_length : Z; sentence_dimension : Z; tokenizer_max_length : Z }.

Definition embedding_limit : pub_exn := PublicationError "embedding_limit".

Section Encoder.
Context `{EmbeddingModel}.

(** [RetrievalEncoder.__init__] with a given model. *)
Definition encoder_compatible (p : RetrievalProfile) : bool :=
  bool_decide (embedding_model p = "sentence-transformers/all-MiniLM-L6-v2")
  && bool_decide (embedding_revision p = "1110a243fdf4706b3f48f1d95db1a4f5529b4d41") && (dimension p =? 384)
  && (rp_max_tokens p <=? max_seq_length) && (sentence_dimension =? dimension p)
  && (rp_max_tokens p <=? tokenizer_max_length).

Definition validate_text (p : RetrievalProfile) (t : text) : result pub_exn unit :=
  if bool_decide (t = []) || (rp_max_characters p <? len t) || (rp_max_tokens p <? token_count t)
  then Err embedding_limit else Ok tt.

(** [while self.count(text[start:end]) > max_tokens: ...]; the window at least halves. *)
Fixpoint halve (fuel : nat) (p : RetrievalProfile) (t : text) (start stop : Z) : result pub_exn Z :=
  match fuel with
  | O => Err OtherFailure
  | S fuel' =>
      if rp_max_tokens p <? token_count (slice t start stop) then
        let stop' := start + (stop - start) / 2 in
        if stop' <=? start then Err embedding_limit else halve fuel' p t start stop'
      else Ok stop
  end.

(** A loop over the generator [split]: [body] runs on a piece before the next one is computed.
    Every iteration of [while start < len(text)] yields at least one character. *)
Fixpoint for_splits {B} (body : Z * Z * text → result pub_exn B) (fuel : nat) (p : RetrievalProfile) (t : text)
    (start : Z) : result pub_exn (list B) :=
  if start <? len t then
    match fuel with
    | O => Err OtherFailure
    | S fuel' =>
        let stop0 := Z.min (len t) (start + rp_max_characters p) in
        stop ← halve (S (length t)) p t start stop0;
        y ← body (start, stop, slice t start stop);
        cons y <$> for_splits body fuel' p t stop
    end
  else Ok [].

Definition split (p : RetrievalProfile) (t : text) : result pub_exn (list (Z * Z * text)) :=
  for_splits Ok (length t) p t 0.

Definition embed (p : RetrievalProfile) (t : text) : result pub_exn (list Q) :=
  _ ← validate_text p t;
  let v := encode_vector t in
  if negb (len v =? dimension p) then Err (PublicationError "publication_write_failure")
  else match mapM id v with
       | Some qs => Ok qs
       | None => Err (PublicationError "publication_write_failure")
       end.

(** ** [records] *)

Section Records.
Context `{Runtime}.
Variables (p : RetrievalProfile) (d : AcceptedDocument) (a : ExtractionArtifact) (pl : Plan) (inc : list uuid).

Let index : EvidenceIndex := build_index a.

(** [{bid: u.path for u in plan.structure.units for bid in u.block_ids}.get(block_id, ())] *)
Definition owner_path (id : uuid) : list text :=
  default [] (dict_get id (sm_units (structure pl) ≫= λ u, (λ k, (k, su_path u)) <$> su_block_ids u)).

Definition piece_evidence (u : TextUnit) (b : Block) (start stop : Z) (t : text) : EvidenceRef :=
  let line := (λ lines, 1 + bisect_left lines start) <$> dict_get (unit_source_id u) (idx_lines index) in
  {| ev_scope := ad_scope d; ev_version_id := ad_version_id d; ev_extraction_id := ad_extraction_id d;
     ev_source_id := unit_source_id u; ev_block_id := block_id b;
     ev_span := {| sp_start := start; sp_end := stop; line_start := line;
                   line_end := (λ l, l + count_char newline (rstrip_newlines t)) <$> line |} |}.

Definition make_record (u : TextUnit) (b : Block) (piece : Z * Z * text) : result pub_exn RetrievalRecord :=
  let '(s, e, t) := piece in
  let start := s + sp_start (blk_span b) in
  let stop := e + sp_start (blk_span b) in
  let ev := piece_evidence u b start stop t in
  _ ← match index_resolve index ev with
      | Ok t' => if text_eqb t' t then Ok tt else Err (PublicationError "provenance_invalid")
      | Err _ => Err OtherFailure
      end;
  match record_values {|
    record_id := EmptyString; rr_document_id := ad_document_id d; rr_version_id := ad_version_id d;
    rr_extraction_id := ad_extraction_id d; rr_text := t; rr_evidence := ev;
    structural_path := owner_path (block_id b); source_kind_ := block_kind_str (blk_kind b);
    rr_limitation := if bool_decide (blk_kind b = b_table) || bool_decide (blk_kind b = b_figure)
                     then uninterpreted_visual else lim_none;
    rr_profile := retrieval_digest p |} with
  | Some r => Ok r
  | None => Err OtherFailure
  end.

Fixpoint map_result {A B} (f : A → result pub_exn B) (l : list A) : result pub_exn (list B) :=
  match l with
  | [] => Ok []
  | x :: l' => y ← f x; cons y <$> map_result f l'
  end.

Definition block_records (u : TextUnit) (b : Block) : result pub_exn (list RetrievalRecord) :=
  if bool_decide (block_id b ∈ inc) then
    for_splits (make_record u b) (length (source_text b)) p (source_text b) 0
  else Ok [].

Definition records : result pub_exn (list RetrievalRecord) :=
  (λ l, concat l) <$> map_result (λ ub, block_records ub.1 ub.2) (inventory a).

End Records.
End Encoder.
