(* ===== verification/PublicationPlanTheorems.v ===== *)
(** * Records reproduce the accepted source

    Splitting terminates, respects the embedding limits and loses nothing; the records of a
    document are the included source text, in order, with evidence that resolves to it. *)

From Stdlib Require Import ZArith NArith QArith Lia.
From stdpp Require Import base tactics list strings option sets.
From S2P Require Import Prelude Json Contracts ContractFacts JobModels JobLedger Sample ContractTheorems DigestModels DigestPlanning DigestPlanTheorems.
From S2P Require Import DigestPlanSource DigestArtifacts Extraction ExtractionTheorems Publication PublicationAuthority PublicationPlan.

Local Open Scope Z_scope.

Section Split.
Context `{EmbeddingModel}.

Lemma halve_spec fuel p t start stop :
  0 ≤ start < stop → stop ≤ len t → stop - start < Z.of_nat fuel →
  match halve fuel p t start stop with
  | Ok e => start < e ≤ stop ∧ token_count (slice t start e) ≤ rp_max_tokens p
  | Err x => x = embedding_limit
  end.
Proof.
  revert stop. induction fuel as [|fuel IH]; intros stop Hs He Hf; [lia|]. cbn [halve].
  destruct (Z.ltb_spec (rp_max_tokens p) (token_count (slice t start stop))); [|lia]. cbv zeta.
  assert ((stop - start) / 2 < stop - start) by (apply Z.div_lt; lia).
  destruct (Z.leb_spec (start + (stop - start) / 2) start); [done|].
  specialize (IH (start + (stop - start) / 2) ltac:(lia) ltac:(lia) ltac:(lia)).
  destruct (halve fuel p t start _); [|done]. lia.
Qed.

(** The pieces from [start] on. *)
Inductive pieces_of_text (p : RetrievalProfile) (t : text) : Z → list (Z * Z * text) → Prop :=
| pieces_end : pieces_of_text p t (len t) []
| pieces_next s e ps :
    0 ≤ s → s < e → e ≤ len t → e - s ≤ rp_max_characters p →
    token_count (slice t s e) ≤ rp_max_tokens p →
    pieces_of_text p t e ps → pieces_of_text p t s ((s, e, slice t s e) :: ps).

Lemma for_splits_spec {B} (body : Z * Z * text → result pub_exn B) (Q : Z * Z * text → B → Prop) fuel p t start :
  0 < rp_max_characters p → 0 ≤ start ≤ len t → len t - start ≤ Z.of_nat fuel →
  (∀ s e, 0 ≤ s < e → e ≤ len t → e - s ≤ rp_max_characters p → token_count (slice t s e) ≤ rp_max_tokens p →
     ∃ y, body (s, e, slice t s e) = Ok y ∧ Q (s, e, slice t s e) y) →
  match for_splits body fuel p t start with
  | Ok ys => ∃ ps, pieces_of_text p t start ps ∧ Forall2 Q ps ys
  | Err x => x = embedding_limit
  end.
Proof.
  intros Hp Hst Hf Hbody. revert start Hst Hf. induction fuel as [|fuel IH]; intros start Hs Hf; cbn [for_splits].
  { rewrite (proj2 (Z.ltb_ge start (len t))) by lia. replace start with (len t) by lia.
    exists []. split; constructor. }
  destruct (Z.ltb_spec start (len t)); [|replace start with (len t) by lia; exists []; split; constructor]. cbv zeta.
  pose proof (halve_spec (S (length t)) p t start (Z.min (len t) (start + rp_max_characters p))
                ltac:(lia) ltac:(lia) ltac:(unfold len; lia)) as Hh.
  unfold mbind, result_bind. destruct (halve _ _ _ _ _) as [stop|x]; [|done].
  destruct (Hbody start stop) as (y & -> & HQ); [lia..|].
  specialize (IH stop ltac:(lia) ltac:(lia)). simpl.
  destruct (for_splits body fuel p t stop) as [ys|x]; simpl; [|done]. destruct IH as (ps & Hps & HF).
  eexists. split; [constructor; try exact Hps; try done; lia|]. by constructor.
Qed.

Lemma split_spec p t :
  0 < rp_max_characters p →
  match split p t with Ok ps => pieces_of_text p t 0 ps | Err x => x = embedding_limit end.
Proof.
  intros Hp. pose proof (for_splits_spec Ok eq (length t) p t 0 Hp) as H1. unfold split.
  destruct (for_splits _ _ _ _ _) as [ys|x].
  - destruct H1 as (ps & Hps & Heq); [pose proof (len_nonneg t); lia|unfold len; lia|eauto|].
    by apply list_eq_Forall2 in Heq as ->.
  - apply H1; [pose proof (len_nonneg t); lia|unfold len; lia|eauto].
Qed.

Lemma pieces_concat_text p t s ps :
  pieces_of_text p t s ps → 0 ≤ s → concat ((λ x, x.2) <$> ps) = slice t s (len t).
Proof.
  induction 1 as [|s e ps Hs Hlt He Hc Ht Hps IH]; intros _; [by rewrite slice_nil|].
  rewrite fmap_cons. cbn [concat snd]. rewrite IH by lia. apply slice_app; lia.
Qed.

Lemma pieces_within p t s ps :
  pieces_of_text p t s ps → Forall (λ x : Z * Z * text, x.2 = slice t x.1.1 x.1.2 ∧
    0 ≤ x.1.1 < x.1.2 ∧ x.1.2 ≤ len t ∧ len x.2 ≤ rp_max_characters p ∧ token_count x.2 ≤ rp_max_tokens p) ps.
Proof.
  induction 1 as [|s e ps Hs Hlt He Hc Ht Hps IH]; constructor; [|done]. simpl.
  rewrite slice_length by lia. split_and!; try done; lia.
Qed.

(** Splitting a text for the encoder always ends, whatever the tokenizer counts: it either
    refuses the text because a single character exceeds the token limit, or returns pieces that
    are not empty, are exact slices of the text, follow each other without gap or overlap and
    concatenate to the whole text, and all pass the encoder's validation. *)
Theorem split_exact p t :
  valid_retrieval_profile p = true →
  match split p t with
  | Ok ps => concat ((λ x, x.2) <$> ps) = t ∧
             Forall (λ x : Z * Z * text, x.2 = slice t x.1.1 x.1.2 ∧ validate_text p x.2 = Ok tt) ps
  | Err x => x = embedding_limit
  end.
Proof.
  intros Hp. unfold valid_retrieval_profile in Hp. rewrite !andb_true_iff, !Z.leb_le in Hp. destruct_and?.
  pose proof (split_spec p t ltac:(lia)) as Hs. destruct (split p t) as [ps|x]; [|done].
  split; [rewrite (pieces_concat_text _ _ _ _ Hs) by lia; apply slice_all|].
  eapply Forall_impl; [exact (pieces_within _ _ _ _ Hs)|]. intros [[s e] x] (-> & Hse & He & Hl & Hc). simpl in *.
  split; [done|]. unfold validate_text. rewrite (proj2 (Z.ltb_ge _ _) Hl), (proj2 (Z.ltb_ge _ _) Hc).
  rewrite bool_decide_eq_false_2; [done|]. intros E. apply (f_equal len) in E.
  rewrite slice_length in E by lia. change (len (A:=N) []) with 0 in E. lia.
Qed.

End Split.

Section Records.
Context `{EmbeddingModel} `{Runtime}.
Variables (p : RetrievalProfile) (d : AcceptedDocument) (a : ExtractionArtifact) (pl : Plan) (inc : list uuid).

(** The document describes the artifact, and the model's own limits hold. *)
Record describes : Prop := {
  ds_valid : model_valid a = true;
  ds_ids : NoDup (all_block_ids a);
  ds_scope : ad_scope d = doc_scope (document a);
  ds_version : ad_version_id d = document_version_id (document a);
  ds_extraction : ad_extraction_id d = extraction_id a;
  ds_profile : valid_retrieval_profile p = true;
  ds_digest : is_digest (retrieval_digest p) = true;
  ds_paths : ∀ k, len (owner_path pl k) ≤ 32 }.

Hypothesis Hd : describes.

Lemma block_slice u b : (u, b) ∈ inventory a →
  source_text b = slice (unit_text u) (sp_start (blk_span b)) (sp_end (blk_span b)) ∧
  0 ≤ sp_start (blk_span b) ≤ sp_end (blk_span b) ∧ sp_end (blk_span b) ≤ len (unit_text u).
Proof.
  intros Hin. pose proof (ds_valid Hd) as Hv. pose proof (model_spans_ordered a Hv u b Hin) as Hs.
  apply inventory_elem in Hin as [Hu Hb]. destruct (model_valid_unit a u Hv Hu) as (_ & _ & Hall).
  rewrite Forall_forall in Hall. destruct (Hall b Hb) as (? & ? & ?). split_and!; try done; lia.
Qed.

Lemma make_evidence_spec u b start stop t :
  (u, b) ∈ inventory a → sp_start (blk_span b) ≤ start → start ≤ stop → stop ≤ sp_end (blk_span b) →
  t = slice (unit_text u) start stop →
  valid_span (ev_span (piece_evidence d a u b start stop t)) = true ∧
  index_resolve (build_index a) (piece_evidence d a u b start stop t) = Ok t.
Proof.
  intros Hin Hs Hss He ->. destruct (block_slice u b Hin) as (_ & [Hb0 _] & _).
  apply inventory_elem in Hin as [Hu Hb]. pose proof (ds_valid Hd) as Hv.
  assert (valid_span (ev_span (piece_evidence d a u b start stop (slice (unit_text u) start stop))) = true) as Hsp.
  { unfold valid_span, piece_evidence. cbn [ev_span sp_start sp_end line_start line_end].
    rewrite (idx_lines_unit a Hv u Hu). destruct (physical_page u); simpl; rewrite !(proj2 (Z.leb_le _ _)) by lia; [done|].
    rewrite bisect_left_newlines by lia.
    assert (0 ≤ count_char newline (slice (unit_text u) 0 start)) by (unfold count_char; lia).
    assert (0 ≤ count_char newline (rstrip_newlines (slice (unit_text u) start stop))) by (unfold count_char; lia).
    rewrite !(proj2 (Z.leb_le _ _)) by lia. done. }
  split; [done|]. apply (index_resolve_Ok_iff a Hv _ _ (ds_ids Hd) Hsp).
  unfold piece_evidence. cbn [ev_scope ev_version_id ev_extraction_id].
  split_and!; [apply Hd..|]. exists u, b. split_and!; [done|done|].
  unfold cites. cbn [ev_span sp_start sp_end line_start line_end ev_block_id ev_source_id].
  split_and!; [done|done|lia|lia|lia| |done].
  rewrite (idx_lines_unit a Hv u Hu). destruct (physical_page u); [done|]. simpl.
  by rewrite bisect_left_newlines by lia.
Qed.

Definition good_record (r : RetrievalRecord) : Prop :=
  valid_record r = true ∧ index_resolve (build_index a) (rr_evidence r) = Ok (rr_text r) ∧
  validate_text p (rr_text r) = Ok tt ∧ ev_block_id (rr_evidence r) ∈ inc.

Lemma make_record_spec u b s e :
  (u, b) ∈ inventory a → block_id b ∈ inc → 0 ≤ s < e → e ≤ len (source_text b) →
  validate_text p (slice (source_text b) s e) = Ok tt →
  ∃ r, make_record p d a pl u b (s, e, slice (source_text b) s e) = Ok r ∧
       rr_text r = slice (source_text b) s e ∧ good_record r.
Proof.
  intros Hin Hinc Hse He Hv. destruct (block_slice u b Hin) as (Ht & Hb & Hbt).
  assert (len (source_text b) = sp_end (blk_span b) - sp_start (blk_span b)) as Hl.
  { rewrite Ht. apply slice_length; lia. }
  set (t := slice (source_text b) s e) in *.
  assert (t = slice (unit_text u) (s + sp_start (blk_span b)) (e + sp_start (blk_span b))) as Et.
  { unfold t. rewrite Ht.
    rewrite <-(slice_slice (unit_text u) (sp_start (blk_span b)) (sp_end (blk_span b))
                 (s + sp_start (blk_span b)) (e + sp_start (blk_span b))) by lia.
    by rewrite !Z.add_simpl_r. }
  assert (len t = e - s) as Hlt by (unfold t; apply slice_length; lia).
  pose proof (ds_profile Hd) as Hp. unfold valid_retrieval_profile in Hp.
  rewrite !andb_true_iff, !Z.leb_le in Hp. destruct_and?.
  assert (len t ≤ rp_max_characters p) as Hmax.
  { unfold validate_text in Hv. destruct (Z.ltb_spec (rp_max_characters p) (len t)); [|done].
    by rewrite orb_true_r in Hv. }
  destruct (make_evidence_spec u b (s + sp_start (blk_span b)) (e + sp_start (blk_span b)) t Hin)
    as [Hsp Hres]; [lia|lia|lia|exact Et|].
  unfold make_record. cbv zeta. rewrite Hres. unfold text_eqb. rewrite (bool_decide_eq_true_2 (t = t)) by done.
  unfold mbind, result_bind. unfold record_values. cbv zeta. set (r := Build_RetrievalRecord _ _ _ _ _ _ _ _ _ _).
  assert (valid_record r = true) as Hvr.
  { unfold valid_record, r. cbn [rr_text structural_path source_kind_ rr_profile rr_evidence record_id rr_version_id
      rr_extraction_id]. rewrite Hsp, (ds_digest Hd). rewrite !(proj2 (Z.leb_le _ _)).
    - by rewrite !bool_decide_eq_true_2.
    - by destruct (blk_kind b).
    - apply (ds_paths Hd).
    - lia.
    - lia. }
  rewrite Hvr. exists r. split_and!; [done|done|]. unfold good_record, r. simpl. done.
Qed.

Lemma block_records_spec u b :
  (u, b) ∈ inventory a →
  match block_records p d a pl inc u b with
  | Ok rs => concat (rr_text <$> rs) = (if bool_decide (block_id b ∈ inc) then source_text b else []) ∧
             Forall good_record rs
  | Err x => x = embedding_limit
  end.
Proof.
  intros Hin. unfold block_records. case_bool_decide as Hinc; [|done].
  pose proof (ds_profile Hd) as Hp. unfold valid_retrieval_profile in Hp.
  rewrite !andb_true_iff, !Z.leb_le in Hp. destruct_and?.
  pose proof (for_splits_spec (make_record p d a pl u b) (λ x r, rr_text r = x.2 ∧ good_record r)
                (length (source_text b)) p (source_text b) 0 ltac:(lia)) as Hs.
  pose proof (len_nonneg (source_text b)).
  assert (∀ s e, 0 ≤ s < e → e ≤ len (source_text b) → e - s ≤ rp_max_characters p →
    token_count (slice (source_text b) s e) ≤ rp_max_tokens p →
    ∃ y, make_record p d a pl u b (s, e, slice (source_text b) s e) = Ok y ∧
         rr_text y = (s, e, slice (source_text b) s e).2 ∧ good_record y) as Hbody.
  { intros s e Hse He Hc Ht. apply make_record_spec; try done.
    unfold validate_text. rewrite (proj2 (Z.ltb_ge _ _) Ht). rewrite slice_length by lia.
    rewrite (proj2 (Z.ltb_ge _ _) Hc). rewrite bool_decide_eq_false_2; [done|].
    intros E. apply (f_equal len) in E. rewrite slice_length in E by lia. change (len (A:=N) []) with 0 in E. lia. }
  destruct (for_splits _ _ _ _ _) as [rs|x]; [|apply Hs; [lia|unfold len; lia|exact Hbody]].
  destruct Hs as (ps & Hps & HF); [lia|unfold len; lia|exact Hbody|].
  assert (rr_text <$> rs = (λ x, x.2) <$> ps) as ->.
  { clear -HF. induction HF as [|x r ps rs [E _] HF IH]; [done|]. by rewrite !fmap_cons, IH, E. }
  split; [rewrite (pieces_concat_text _ _ _ _ Hps) by lia; apply slice_all|].
  clear -HF. induction HF as [|x r ps rs [_ G] HF IH]; by constructor.
Qed.

Lemma records_spec :
  match records p d a pl inc with
  | Ok rs =>
      concat (rr_text <$> rs) =
        concat ((λ ub : TextUnit * Block, source_text ub.2)
                  <$> List.filter (λ ub, bool_decide (block_id ub.2 ∈ inc)) (inventory a)) ∧
      Forall good_record rs
  | Err x => x = embedding_limit
  end.
Proof.
  unfold records. assert (∀ ub, ub ∈ inventory a → ub ∈ inventory a) as Hsub by done. revert Hsub.
  generalize (inventory a) at 1 3 4 as l. induction l as [|[u b] l IH]; intros Hsub; [done|].
  cbn [map_result]. pose proof (block_records_spec u b (Hsub (u, b) ltac:(by left))) as Hb.
  simpl. destruct (block_records p d a pl inc u b) as [rs|x]; [|done]. destruct Hb as [Hb1 Hb2].
  unfold mbind, result_bind. specialize (IH ltac:(intros; apply Hsub; by right)).
  destruct (map_result _ l) as [rss|x]; simpl in *; [|done]. destruct IH as [IH1 IH2].
  rewrite fmap_app, List.concat_app, Hb1, IH1. split; [|by apply Forall_app].
  case_bool_decide; done.
Qed.

(** The retrieval records of an accepted document are its included source text, exactly and in
    document order: concatenated, their texts are the texts of the included blocks; each record is
    valid, within the limits of the embedding model, cites an included block, and its evidence
    resolves in the artifact to precisely its text.  Building them fails only when a character
    alone exceeds the token limit of the encoder. *)
Theorem records_exact :
  match records p d a pl inc with
  | Ok rs =>
      concat (rr_text <$> rs) =
        concat ((λ ub : TextUnit * Block, source_text ub.2)
                  <$> List.filter (λ ub, bool_decide (block_id ub.2 ∈ inc)) (inventory a)) ∧
      Forall good_record rs
  | Err x => x = embedding_limit
  end.
Proof. exact records_spec. Qed.

End Records.

(** ** The records of a two-line text *)

#[local] Existing Instance sample_runtime.

(** One token per character. *)
#[local] Instance sample_model : EmbeddingModel := {|
  token_count := len; encode_vector := λ _, replicate 384 (Some 0%Q); max_seq_length := 256;
  sentence_dimension := 384; tokenizer_max_length := 256 |}.

Definition small_profile : RetrievalProfile := {|
  rp_version := "source-retrieval/1"; embedding_model := "sentence-transformers/all-MiniLM-L6-v2";
  embedding_revision := "1110a243fdf4706b3f48f1d95db1a4f5529b4d41"; dimension := 384; rp_max_tokens := 8;
  rp_max_characters := 8 |}.

Definition sample_accepted : AcceptedDocument := {|
  ad_scope := sample_scope; ad_job_id := "job-1"; ad_document_id := "doc-1"; ad_version_id := sample_version;
  ad_extraction_id := sample_extraction; ad_extraction := sample_artifact "e"; ad_digest := sample_artifact "d" |}.

Definition flat_plan : Plan := {|
  pl_profile := sample_digestion;
  structure := {| sm_extraction := sample_artifact "e"; sm_version_id := sample_version; sm_profile := EmptyString; sm_units := [] |};
  chunks := []; reducers := []; root_id := EmptyString; eligible := []; skipped := []; unsupported_ids := [] |}.

Notation included_ids := [block_id (sample_block 1 3 5 2)].

Lemma records_exact_witness :
  describes small_profile sample_accepted sample_extracted flat_plan ∧
  match records small_profile sample_accepted sample_extracted flat_plan included_ids with
  | Ok rs =>
      concat (rr_text <$> rs) =
        concat ((λ ub : TextUnit * Block, source_text ub.2)
                  <$> List.filter (λ ub, bool_decide (block_id ub.2 ∈ included_ids)) (inventory sample_extracted)) ∧
      Forall (good_record small_profile sample_extracted included_ids) rs
  | Err x => x = embedding_limit
  end.
Proof.
  assert (describes small_profile sample_accepted sample_extracted flat_plan) as Hd.
  { split; try (vm_compute; reflexivity).
    - apply (bool_decide_unpack _). vm_compute. exact I.
    - intros k. apply Z.leb_le. reflexivity. }
  split; [exact Hd|]. generalize (records_exact small_profile sample_accepted sample_extracted flat_plan included_ids Hd).
  generalize (records small_profile sample_accepted sample_extracted flat_plan included_ids) as rs. trivial.
Defined.

Lemma split_exact_witness :
  valid_retrieval_profile small_profile = true ∧
  match split small_profile (cps "one line and another") with
  | Ok ps => concat ((λ x, x.2) <$> ps) = cps "one line and another" ∧
             Forall (λ x : Z * Z * text, x.2 = slice (cps "one line and another") x.1.1 x.1.2 ∧
                       validate_text small_profile x.2 = Ok tt) ps
  | Err x => x = embedding_limit
  end.
Proof.
  split; [vm_compute; reflexivity|].
  assert (valid_retrieval_profile small_profile = true) as Hp by (vm_compute; reflexivity).
  generalize (split_exact small_profile (cps "one line and another") Hp).
  generalize (split small_profile (cps "one line and another")) as ps. trivial.
Defined.
