(* ===== verification/PublicationAccepted.v ===== *)
(** * Accepted documents and publication planning

    [VerifyOnlyStore], [accepted] and [plan_publication] of [documents/publication/planning.py]:
    the committed digest of a completed job is recomputed without writing, and the records of the
    accepted documents become a candidate manifest. *)

From Stdlib Require Import ZArith NArith QArith Lia.
From stdpp Require Import base tactics list strings option.
From S2P Require Import Prelude Json Contracts JobModels JobLedger Storage Extraction DigestModels DigestPlanning DigestValidation DigestArtifacts DigestFlow.
From S2P Require Import DigestWorkflow DigestSteps Publication PublicationPlan.

Local Open Scope Z_scope.

Definition LIMIT : Z := 32000000.

#[export] Instance Coverage_eq_dec : EqDecision Coverage.
Proof. solve_decision. Defined.

Section Accepted.
Context `{Runtime} `{Decoder} `{Parses Plan} `{Parses ExtractionArtifact} `{Parses Checkpoint}.
Context `{Parses DigestArtifact} `{Parses Coverage}.
Variable datetime_json : Z → text.
Variable iterate : list string → list string.

(** ** [VerifyOnlyStore] *)

(** A program run with puts that only compute the reference; [produced] collects their bytes. *)
Fixpoint verify_only {A} (h : handling A) (produced : list text) : handling (A * list text) :=
  match h with
  | Return a => Return (a, produced)
  | Raise e => Raise e
  | Put sc k id data m _ next =>
      if m <? len data then verify_only (next (Err OtherExn)) produced
      else verify_only (next (Ok (make_ref sc k id data))) (produced ++ [data])
  | Read sc r m next => Read sc r m (λ x, verify_only (next x) produced)
  | Inspect sc r m next => Inspect sc r m (λ x, verify_only (next x) produced)
  | GetJob sc job next => GetJob sc job (λ x, verify_only (next x) produced)
  | Steps sc job next => Steps sc job (λ x, verify_only (next x) produced)
  end.

(** ** [accepted] *)

Definition invalid_input : pub_exn := PublicationError "publication_invalid_input".

(** Inside [accepted] every failure ends as [publication_invalid_input]. *)
Definition require (b : bool) : handling unit := if b then mret tt else Raise OtherExn.

Definition sorted_json (l : list json) : list json := order_by (λ x y, text_le (canonical x) (canonical y)) l.

(** [normalized]: checkpoints and qualifications in canonical order. *)
Definition normalized (d : DigestArtifact) : json :=
  JObj (digest_fields d (sorted_json (qualification_json <$> da_qualifications d))
                        (sorted_json (ref_json <$> da_checkpoints d))).

Definition accepted (sc : Scope) (id : uuid)
    : handling (AcceptedDocument * ExtractionArtifact * DigestArtifact * Plan) :=
  job ← job_of sc id;
  _ ← require (bool_decide (j_state job = JobState.COMPLETED) && negb (cancel_requested job));
  d ← load_digest sc id;
  _ ← require (bool_decide (da_status d = COMPLETE));
  let limit := p_max_artifact_bytes (profile (request job)) in
  _ ← require (limit <=? LIMIT);
  pl ← read_model sc (da_plan d) limit;
  ss ← steps_in sc id;
  match find_row (λ s, bool_decide (unit_id (spec s.1) = "digest")) ss with
  | None => Raise OtherExn
  | Some final =>
      '(_, produced) ← verify_only (digestion_handler datetime_json (da_plan d) (λ _, Err OtherExn) iterate None
                                      job final) [];
      rebuilt ← match produced with
                | data :: _ => digested (decode_model (A := DigestArtifact) data limit)
                | [] => Raise OtherExn
                end;
      _ ← require (bool_decide (normalized rebuilt = normalized d));
      match final.2 with
      | digest_ref :: coverage_ref :: _ =>
          cov ← read_model (A := Coverage) sc coverage_ref limit;
          _ ← require (bool_decide (cov = da_coverage d));
          a ← read_artifact sc (da_extraction d) limit;
          _ ← inspect_object sc (doc_source (document a)) (max_source_bytes a);
          mret ({| ad_scope := sc; ad_job_id := id; ad_document_id := document_id (document a);
                   ad_version_id := document_version_id (document a); ad_extraction_id := extraction_id a;
                   ad_extraction := da_extraction d; ad_digest := digest_ref |}, a, d, pl)
      | _ => Raise OtherExn
      end
  end.

(** ** [plan_publication] *)

Context `{EmbeddingModel}.

Definition id_le (x y : string) : bool := String.leb x y.

Definition documents_of (l : list (AcceptedDocument * list RetrievalRecord)) : list AcceptedDocument :=
  order_by (λ x y, id_le (ad_document_id x) (ad_document_id y)) l.*1.

(** The records of all documents, in a stable order of their documents. *)
Definition rows_of (l : list (AcceptedDocument * list RetrievalRecord)) : list RetrievalRecord :=
  order_by (λ x y, id_le (rr_document_id x) (rr_document_id y)) (concat l.*2).

(** The versions served before and no longer. *)
Definition removed_from (previous : option PublicationManifest) (docs : list AcceptedDocument) : list uuid :=
  match previous with
  | None => []
  | Some m =>
      order_by id_le (List.filter (λ v, negb (bool_decide (v ∈ ad_version_id <$> docs)))
                        (remove_dups (ad_version_id <$> pm_documents m)))
  end.

(** [for key in sorted(set(job_ids), key=str)] with each document's outcome. *)
Definition job_order (ids : list uuid) : list uuid := order_by id_le (remove_dups ids).

Definition plan_manifest (sc : Scope) (base : ActivePublication) (p : RetrievalProfile)
    (previous : option PublicationManifest) (l : list (AcceptedDocument * list RetrievalRecord))
    : option PublicationManifest :=
  manifest_values {|
    Publication.generation := EmptyString; pm_scope := sc; pm_base := base; pm_profile := p;
    pm_documents := documents_of l; pm_records := rows_of l;
    removed_versions := removed_from previous (documents_of l) |}.

End Accepted.
