(* ===== verification/PublicationSource.v ===== *)
(** * Published records are the whole source of an accepted digest

    What [accepted] establishes when it returns: nothing was written, the committed digest was
    recomputed from the stored plan, artifact and checkpoints; with a COMPLETE digest the
    retrieval records are the text of every eligible block. *)

From Stdlib Require Import ZArith NArith QArith Lia.
From stdpp Require Import base tactics list strings option sets.
From S2P Require Import Prelude Json Contracts ContractFacts JobModels JobLedger Sample ContractTheorems Storage Extraction ExtractionTheorems.
From S2P Require Import DigestModels DigestPlanning DigestPlanFacts DigestPlanSource DigestPlanTheorems DigestValidation DigestArtifacts DigestFlow.
From S2P Require Import DigestCoverage DigestTheorems DigestWorkflow DigestSteps DigestStepsTheorems Publication PublicationPlan PublicationPlanTheorems PublicationAccepted.

Local Open Scope Z_scope.

(** ** Programs that do not write *)

Section Runs.
Context `{Runtime} {T : Type} `{OS : !ObjectStore T}.
Variable ask : ledger_view.

Definition same_objects (s s' : T) : Prop := ∀ key, published s' key = published s key.

#[export] Instance same_objects_preorder : PreOrder same_objects.
Proof. split; [by intros s key|]. intros s1 s2 s3 H1 H2 key. by rewrite H2, H1. Qed.

(** [h] under [VerifyOnlyStore]. *)
Definition vrun {A} (h : handling A) (p : list text) (s : T) : result exn (A * list text) * T :=
  run_on ask (verify_only h p) s.

Lemma vrun_bind {A B} (h : handling A) (f : A → handling B) p s :
  vrun (h ≫= f) p s = match vrun h p s with (Ok (a, p'), s') => vrun (f a) p' s' | (Err e, s') => (Err e, s') end.
Proof.
  unfold vrun. revert p s. induction h as [a|e|sc k id d m e next IH|sc r m next IH|sc r m next IH|sc j next IH|sc j next IH];
    intros p s; [done|done|..].
  - change (Put sc k id d m e next ≫= f) with (Put sc k id d m e (λ r, next r ≫= f)). cbn [verify_only].
    destruct (m <? len d); apply IH.
  - change (Read sc r m next ≫= f) with (Read sc r m (λ x, next x ≫= f)). cbn [verify_only run_on].
    destruct (read sc r m s). apply IH.
  - change (Inspect sc r m next ≫= f) with (Inspect sc r m (λ x, next x ≫= f)). cbn [verify_only run_on].
    destruct (inspect sc r m s). apply IH.
  - change (GetJob sc j next ≫= f) with (GetJob sc j (λ x, next x ≫= f)). cbn [verify_only run_on]. apply IH.
  - change (Steps sc j next ≫= f) with (Steps sc j (λ x, next x ≫= f)). cbn [verify_only run_on]. apply IH.
Qed.

Lemma vrun_bind_Ok {A B} (h : handling A) (f : A → handling B) p s b p' s' :
  vrun (h ≫= f) p s = (Ok (b, p'), s') →
  ∃ a p1 s1, vrun h p s = (Ok (a, p1), s1) ∧ vrun (f a) p1 s1 = (Ok (b, p'), s').
Proof. rewrite vrun_bind. destruct (vrun h p s) as [[[a p1]|e] s1]; [|done]. intros E. by exists a, p1, s1. Qed.

(** Verification never writes. *)
Lemma vrun_same {A} (h : handling A) p s : same_objects s (vrun h p s).2.
Proof.
  unfold vrun. revert p s. induction h as [a|e|sc k id d m e next IH|sc r m next IH|sc r m next IH|sc j next IH|sc j next IH];
    intros p s; cbn [verify_only run_on]; try done.
  - destruct (m <? len d); apply IH.
  - pose proof (read_same s sc r m) as Hs. destruct (read sc r m s) as [x s1]. etrans; [exact Hs|apply IH].
  - pose proof (inspect_same s sc r m) as Hs. destruct (inspect sc r m s) as [x s1]. etrans; [exact Hs|apply IH].
Qed.

Lemma vrun_same' {A} (h : handling A) p s r s' : vrun h p s = (r, s') → same_objects s s'.
Proof. intros E. pose proof (vrun_same h p s) as Hs. by rewrite E in Hs. Qed.

Lemma vrun_from_result {A} (r : result exn A) p s a p' s' :
  vrun (from_result r) p s = (Ok (a, p'), s') → r = Ok a ∧ p' = p ∧ s' = s.
Proof. destruct r; [|done]. by intros [= <- <- <-]. Qed.

Lemma vrun_digested {A} (r : result digest_exn A) p s a p' s' :
  vrun (digested r) p s = (Ok (a, p'), s') → r = Ok a ∧ p' = p ∧ s' = s.
Proof. intros E. apply vrun_from_result in E as (E & -> & ->). destruct r; [|done]. by injection E as ->. Qed.

Lemma vrun_read_object sc r m p s b p' s' :
  vrun (read_object sc r m) p s = (Ok (b, p'), s') →
  published s (ref_key r) = Some b ∧ ref_scope r = sc ∧ p' = p ∧ same_objects s s'.
Proof.
  intros E. pose proof (vrun_same' _ _ _ _ _ E) as Hs. unfold vrun, read_object in E. cbn [verify_only run_on] in E.
  destruct (read sc r m s) as [[x|x] s1] eqn:Er; [|done]. injection E as -> <- _.
  by apply read_Ok in Er as (? & _ & _ & ? & _).
Qed.

Lemma vrun_inspect_object sc r m p s b p' s' :
  vrun (inspect_object sc r m) p s = (Ok (b, p'), s') → p' = p ∧ same_objects s s'.
Proof.
  intros E. pose proof (vrun_same' _ _ _ _ _ E) as Hs. unfold vrun, inspect_object in E. cbn [verify_only run_on] in E.
  destruct (inspect sc r m s) as [[x|x] s1] eqn:Er; [|done]. by injection E as _ <- _.
Qed.

Lemma vrun_steps sc j p s x p' s' :
  vrun (steps_in sc j) p s = (Ok (x, p'), s') → view_steps ask sc j = Ok x ∧ p' = p ∧ s' = s.
Proof.
  unfold vrun, steps_in. cbn [verify_only run_on]. destruct (view_steps ask sc j); [|done]. by intros [= <- <- <-].
Qed.

(** A program that puts nothing runs alike with both stores; this is how it is read off. *)
Lemma run_bind_Ok {A B} (h : handling A) (f : A → handling B) s b s' :
  run_on ask (h ≫= f) s = (Ok b, s') → ∃ a s1, run_on ask h s = (Ok a, s1) ∧ run_on ask (f a) s1 = (Ok b, s').
Proof. rewrite run_on_bind. destruct (run_on ask h s) as [[a|e] s1]; [|done]. intros E. by exists a, s1. Qed.

Lemma run_lifted {A} (r : result exn A) s a s' :
  run_on ask (from_result r) s = (Ok a, s') → r = Ok a ∧ s' = s.
Proof. destruct r; [|done]. by intros [= <- <-]. Qed.

Lemma run_digested {A} (r : result digest_exn A) s a s' :
  run_on ask (digested r) s = (Ok a, s') → r = Ok a ∧ s' = s.
Proof. intros E. apply run_lifted in E as [E ->]. destruct r; [|done]. by injection E as ->. Qed.

Lemma run_require b s s' : run_on ask (require b) s = (Ok tt, s') → b = true ∧ s' = s.
Proof. unfold require. destruct b; [|done]. by intros [= <-]. Qed.

Lemma run_read_object sc r m s b s' :
  run_on ask (read_object sc r m) s = (Ok b, s') →
  published s (ref_key r) = Some b ∧ ref_scope r = sc ∧ same_objects s s'.
Proof.
  intros E. assert (same_objects s s') as Hs.
  { pose proof (read_same s sc r m) as Hs. unfold read_object in E. cbn [run_on] in E.
    destruct (read sc r m s) as [[x|x] s1]; [|done]. by injection E as -> <-. }
  unfold read_object in E. cbn [run_on] in E. destruct (read sc r m s) as [[x|x] s1] eqn:Er; [|done].
  injection E as -> _. by apply read_Ok in Er as (? & _ & _ & ? & _).
Qed.

Lemma run_inspect_object sc r m s b s' : run_on ask (inspect_object sc r m) s = (Ok b, s') → same_objects s s'.
Proof.
  pose proof (inspect_same s sc r m) as Hs. unfold inspect_object. cbn [run_on].
  destruct (inspect sc r m s) as [[x|x] s1]; [|done]. by intros [= _ <-].
Qed.

End Runs.

(** ** The recomputation *)

Section Accepted.
Context `{Runtime} {T : Type} `{OS : !ObjectStore T} `{Decoder} `{Parses Plan} `{Parses ExtractionArtifact}.
Context `{Parses Checkpoint} `{Parses DigestArtifact} `{Parses Coverage}.
Variables (datetime_json : Z → text) (iterate : list string → list string) (ask : ledger_view).
Implicit Types s : T.

Notation vrun := (vrun ask).

(** A reference resolves to bytes that decode to the model. *)
Definition decodes_to {A} `{Parses A} (s : T) (ref : ObjectRef) (limit : Z) (x : A) : Prop :=
  ∃ b, published s (ref_key ref) = Some b ∧ decode_model b limit = Ok x.

Definition artifact_at (s : T) (ref : ObjectRef) (limit : Z) (a : ExtractionArtifact) : Prop :=
  ∃ b, published s (ref_key ref) = Some b ∧ deserialize b limit = Ok a.

Lemma decodes_same {A} `{Parses A} s s' ref limit (x : A) :
  same_objects s s' → decodes_to s' ref limit x → decodes_to s ref limit x.
Proof. intros Hs (b & Hb & Hd). exists b. by rewrite <-Hs. Qed.

Lemma artifact_same s s' ref limit a : same_objects s s' → artifact_at s' ref limit a → artifact_at s ref limit a.
Proof. intros Hs (b & Hb & Hd). exists b. by rewrite <-Hs. Qed.

Lemma decodes_unique {A} `{Parses A} s ref limit (x y : A) :
  decodes_to s ref limit x → decodes_to s ref limit y → x = y.
Proof. intros (b & Hb & Hx) (b' & Hb' & Hy). congruence. Qed.

Lemma artifact_unique s ref limit a a' : artifact_at s ref limit a → artifact_at s ref limit a' → a = a'.
Proof. intros (b & Hb & Hx) (b' & Hb' & Hy). congruence. Qed.

Lemma vrun_read_model {A} `{Parses A} sc ref limit p s (x : A) p' s' :
  vrun (read_model sc ref limit) p s = (Ok (x, p'), s') →
  decodes_to s ref limit x ∧ ref_scope ref = sc ∧ p' = p ∧ same_objects s s'.
Proof.
  intros E. pose proof (vrun_same' _ _ _ _ _ _ E) as Hs. apply vrun_bind_Ok in E as (b & p1 & s1 & E1 & E).
  apply vrun_read_object in E1 as (Hb & Hsc & -> & _). apply vrun_digested in E as (Hd & -> & _).
  split_and!; try done. by exists b.
Qed.

Lemma vrun_read_artifact sc ref limit p s a p' s' :
  vrun (read_artifact sc ref limit) p s = (Ok (a, p'), s') →
  artifact_at s ref limit a ∧ ref_scope ref = sc ∧ p' = p ∧ same_objects s s'.
Proof.
  intros E. pose proof (vrun_same' _ _ _ _ _ _ E) as Hs. apply vrun_bind_Ok in E as (b & p1 & s1 & E1 & E).
  apply vrun_read_object in E1 as (Hb & Hsc & -> & _). apply vrun_from_result in E as (Hd & -> & _).
  split_and!; try done. by exists b.
Qed.

Lemma vrun_put_model {A} `{Model A} sc (x : A) limit p s ref p' s' :
  vrun (put_model sc x limit) p s = (Ok (ref, p'), s') →
  ∃ data, encode_model x = Ok data ∧ p' = p ++ [data].
Proof.
  intros E. apply vrun_bind_Ok in E as (data & p1 & s1 & E1 & E). apply vrun_digested in E1 as (Ed & -> & ->).
  apply vrun_bind_Ok in E as ([] & p1 & s1 & E1 & E). apply vrun_digested in E1 as (El & -> & ->).
  apply check_Ok, Z.leb_le in El. unfold PublicationSource.vrun, put_object in E. cbn [verify_only] in E.
  rewrite (proj2 (Z.ltb_ge _ _) El) in E. cbn in E. injection E as _ <- _. by exists data.
Qed.

(** ** The digest step as a function of the stored bytes *)

Definition model_at {A} `{Parses A} (objs : uuid → option text) (ref : ObjectRef) (limit : Z) : option A :=
  b ← objs (ref_key ref);
  match decode_model b limit with Ok x => Some x | Err _ => None end.

Fixpoint checkpoints_at (objs : uuid → option text) (limit : Z) (first_ : string)
    (ss : list (step_row * list ObjectRef)) (cps : list (uuid * Checkpoint)) (refs : list (uuid * ObjectRef))
    (wanted : list string) : option (list (uuid * Checkpoint) * list (uuid * ObjectRef)) :=
  match wanted with
  | [] => Some (cps, refs)
  | key :: wanted' =>
      if bool_decide (key = first_) then checkpoints_at objs limit first_ ss cps refs wanted'
      else match step_of key ss with
           | Some (_, [ref]) =>
               cp ← model_at (A := Checkpoint) objs ref limit;
               let k := sr_stage_id (cp_result cp) in
               checkpoints_at objs limit first_ ss (dict_set k cp cps) (dict_set k ref refs) wanted'
           | _ => None
           end
  end.

(** The digest recomputed for the step [final] of a job from the objects. *)
Definition recomputed (objs : uuid → option text) (plan_ref : ObjectRef) (job : job_row)
    (ss : list (step_row * list ObjectRef)) (final : step_row * list ObjectRef) : option DigestArtifact :=
  let limit := p_max_artifact_bytes (profile (request job)) in
  pl ← model_at (A := Plan) objs plan_ref limit;
  b ← objs (ref_key (sm_extraction (structure pl)));
  a ← match deserialize b limit with Ok a => Some a | Err _ => None end;
  '(cps, refs) ← checkpoints_at objs limit (anchor plan_ref) ss [] [] (wanted_units iterate pl (spec final.1));
  match finalize pl plan_ref (build_index a) cps refs with Ok d => Some d | Err _ => None end.

Lemma decodes_to_at {A} `{Parses A} s ref limit (x : A) :
  decodes_to s ref limit x → model_at (published s) ref limit = Some x.
Proof. intros (b & Hb & Hd). unfold model_at. by rewrite Hb; simpl; rewrite Hd. Qed.

Lemma vrun_read_checkpoints sc limit h f ss cps refs wanted p s0 s r p' s' :
  vrun (read_checkpoints sc limit h f ss cps refs wanted) p s = (Ok (r, p'), s') → same_objects s0 s →
  p' = p ∧ checkpoints_at (published s0) limit f ss cps refs wanted = Some r.
Proof.
  revert cps refs p s. induction wanted as [|key wanted IH]; intros cps refs p s E Hs.
  { by injection E as <- <- _. }
  cbn [read_checkpoints checkpoints_at] in *. case_bool_decide; [by eapply IH|].
  destruct (step_of key ss) as [[child manifest]|]; [|done]. destruct manifest as [|ref [|]]; try done.
  apply vrun_bind_Ok in E as ([] & p1 & s1 & E1 & E). apply vrun_digested in E1 as (_ & -> & ->).
  apply vrun_bind_Ok in E as (cp & p1 & s1 & E1 & E). apply vrun_read_model in E1 as (Hcp & _ & -> & Hs1).
  apply vrun_bind_Ok in E as ([] & p1 & s2 & E1 & E). apply vrun_digested in E1 as (_ & -> & ->).
  rewrite (decodes_to_at s0 ref limit cp); [|by eapply decodes_same]. eapply IH; [exact E|by etrans].
Qed.

Lemma vrun_load plan_ref sc limit p s pl a p' s' :
  vrun (_load datetime_json plan_ref None sc limit) p s = (Ok ((pl, a), p'), s') →
  decodes_to s plan_ref limit pl ∧ artifact_at s (sm_extraction (structure pl)) limit a ∧
  plan_of datetime_json a (sm_extraction (structure pl)) (pl_profile pl) = Ok pl ∧
  sc = ref_scope plan_ref ∧ ref_scope (sm_extraction (structure pl)) = sc ∧ p' = p ∧ same_objects s s'.
Proof.
  intros E. pose proof (vrun_same' _ _ _ _ _ _ E) as Hs. unfold _load, load_plan in E.
  apply vrun_bind_Ok in E as ([pl1 a1] & p1 & s1 & E1 & E).
  apply vrun_bind_Ok in E1 as (pl2 & p2 & s2 & E2 & E1). apply vrun_read_model in E2 as (Hpl & Hsc & -> & Hs2).
  apply vrun_bind_Ok in E1 as (a2 & p2 & s3 & E2 & E1). apply vrun_read_artifact in E2 as (Ha & Hsc' & -> & Hs3).
  apply vrun_bind_Ok in E1 as (pl3 & p2 & s4 & E2 & E1). apply vrun_digested in E2 as (Hp & -> & ->).
  apply vrun_bind_Ok in E1 as ([] & p2 & s4 & E2 & E1). apply vrun_digested in E2 as (Hc & -> & ->).
  apply check_Ok, bool_decide_eq_true in Hc. subst pl3. injection E1 as <- <- <- <-.
  apply vrun_bind_Ok in E as ([] & p2 & s4 & E2 & E). apply vrun_digested in E2 as (Hl & -> & ->).
  injection E as <- <- <- <-. apply check_Ok, andb_true_iff in Hl as [Hl _]. apply bool_decide_eq_true in Hl.
  split_and!; try done. by apply (artifact_same _ s2).
Qed.

(** What the handler of the digest step recomputes from the store. *)
Lemma vrun_digest_step plan_ref analyze job final s0 s refs produced s' :
  unit_id (spec final.1) = "digest" → same_objects s0 s →
  vrun (digestion_handler datetime_json plan_ref analyze iterate None job final) [] s = (Ok (refs, produced), s') →
  let limit := p_max_artifact_bytes (profile (request job)) in
  let sc := a_scope (request job) in
  ∃ pl a ss cps crefs d data rest, decodes_to s plan_ref limit pl ∧
    artifact_at s (sm_extraction (structure pl)) limit a ∧
    plan_of datetime_json a (sm_extraction (structure pl)) (pl_profile pl) = Ok pl ∧
    ref_scope plan_ref = sc ∧ ref_scope (sm_extraction (structure pl)) = sc ∧
    view_steps ask sc (job_id job) = Ok ss ∧ recomputed (published s0) plan_ref job ss final = Some d ∧
    finalize pl plan_ref (build_index a) cps crefs = Ok d ∧ encode_model d = Ok data ∧ produced = data :: rest.
Proof.
  intros Hu Hs0 E. cbv zeta. unfold digestion_handler in E.
  apply vrun_bind_Ok in E as ([pl a] & p1 & s1 & E1 & E).
  apply vrun_load in E1 as (Hpl & Ha & Hp & Hsc0 & Hsc & -> & Hs1).
  apply vrun_bind_Ok in E as ([] & p1 & s2 & E1 & E). apply vrun_digested in E1 as (_ & -> & ->).
  rewrite (bool_decide_eq_false_2 (unit_id _ = anchor plan_ref)) in E by (by rewrite Hu).
  apply vrun_bind_Ok in E as (ss & p1 & s2 & E1 & E). apply vrun_steps in E1 as (Hss & -> & ->).
  apply vrun_bind_Ok in E as ([cps crefs] & p1 & s2 & E1 & E).
  apply (vrun_read_checkpoints _ _ _ _ _ _ _ _ _ s0) in E1 as [-> Hcps]; [|by etrans].
  rewrite bool_decide_eq_true_2 in E by done. unfold digest_step in E.
  apply vrun_bind_Ok in E as (r1 & p1 & s3 & E1 & E). apply vrun_inspect_object in E1 as (-> & _).
  apply vrun_bind_Ok in E as (r2 & p1 & s4 & E1 & E). apply vrun_inspect_object in E1 as (-> & _).
  apply vrun_bind_Ok in E as (d & p1 & s5 & E1 & E). apply vrun_digested in E1 as (Hd & -> & ->).
  apply vrun_bind_Ok in E as (r3 & p1 & s6 & E1 & E). apply vrun_put_model in E1 as (data & Hdata & ->).
  apply vrun_bind_Ok in E as (r4 & p1 & s7 & E1 & E). apply vrun_put_model in E1 as (data' & _ & ->).
  injection E as _ <- _. exists pl, a, ss, cps, crefs, d, data, [data']. split_and!; try done.
  unfold recomputed. rewrite (decodes_to_at s0 _ _ _ (decodes_same _ _ _ _ _ Hs0 Hpl)). destruct Ha as (b & Hb & Hda).
  simpl. rewrite <-Hs0, Hb. simpl. rewrite Hda. simpl. rewrite Hcps. simpl. by rewrite Hd.
Qed.

(** ** [accepted] *)

Lemma run_read_model {A} `{Parses A} sc ref limit s (x : A) s' :
  run_on ask (read_model sc ref limit) s = (Ok x, s') →
  decodes_to s ref limit x ∧ ref_scope ref = sc ∧ same_objects s s'.
Proof.
  intros E. apply run_bind_Ok in E as (b & s1 & E1 & E).
  apply run_read_object in E1 as (Hb & Hsc & Hs). apply run_digested in E as (Hd & ->).
  split_and!; try done. by exists b.
Qed.

Lemma run_read_artifact sc ref limit s a s' :
  run_on ask (read_artifact sc ref limit) s = (Ok a, s') →
  artifact_at s ref limit a ∧ ref_scope ref = sc ∧ same_objects s s'.
Proof.
  intros E. apply run_bind_Ok in E as (b & s1 & E1 & E).
  apply run_read_object in E1 as (Hb & Hsc & Hs). apply run_lifted in E as (Hd & ->).
  split_and!; try done. by exists b.
Qed.

Lemma run_job_of sc id s job s' : run_on ask (job_of sc id) s = (Ok job, s') → view_job ask sc id = Ok job ∧ s' = s.
Proof. unfold job_of. cbn [run_on]. intros E%run_lifted. exact E. Qed.

Lemma run_steps_in sc id s ss s' :
  run_on ask (steps_in sc id) s = (Ok ss, s') → view_steps ask sc id = Ok ss ∧ s' = s.
Proof. unfold steps_in. cbn [run_on]. intros E%run_lifted. exact E. Qed.

Lemma run_load_digest sc id s d s' : run_on ask (load_digest sc id) s = (Ok d, s') → same_objects s s'.
Proof.
  intros E. unfold load_digest in E. apply run_bind_Ok in E as (job & s1 & [_ ->]%run_job_of & E).
  apply run_bind_Ok in E as (ss & s1 & [_ ->]%run_steps_in & E).
  destruct (find_row _ ss) as [[step [|ref [|cov [|]]]]|]; try done.
  apply run_bind_Ok in E as ([] & s1 & [_ ->]%run_digested & E).
  apply run_bind_Ok in E as (d' & s1 & (_ & _ & Hs)%run_read_model & E).
  apply run_bind_Ok in E as ([] & s2 & [_ ->]%run_digested & E). by injection E as _ <-.
Qed.

(** What the normal form of a digest determines. *)
Lemma jstr_inj x y : jstr x = jstr y → x = y.
Proof. unfold jstr. intros [= E]. by apply cps_inj. Qed.

Lemma ids_json_inj l k : ids_json l = ids_json k → l = k.
Proof.
  unfold ids_json. intros [= E]. revert k E. induction l as [|x l IH]; intros [|y k] E; try done.
  csimpl in E. injection E as E1 E2. f_equal; [by apply cps_inj|by apply IH].
Qed.

Lemma ref_json_inj r r' : ref_json r = ref_json r' → r = r'.
Proof.
  unfold ref_json, scope_json. intros [= E1 E2 E3 E4 E5 E6 E7]. destruct r as [[] k], r' as [[] k']; simpl in *.
  apply cps_inj in E1, E2, E3, E4, E5, E6. subst. by destruct k, k'.
Qed.

Definition field_at (n : nat) (j : json) : json :=
  match j with JObj l => default JNull (snd <$> l !! n) | _ => JNull end.

Lemma normalized_inj d d' :
  normalized d = normalized d' →
  da_extraction d = da_extraction d' ∧ da_status d = da_status d' ∧
  included (da_coverage d) = included (da_coverage d').
Proof.
  intros E. split_and!.
  - apply ref_json_inj. exact (f_equal (field_at 2) E).
  - assert (jstr (status_text (da_status d)) = jstr (status_text (da_status d'))) as E1%jstr_inj by exact (f_equal (field_at 5) E).
    by destruct (da_status d), (da_status d').
  - apply ids_json_inj. exact (f_equal (λ j, field_at 6 (field_at 14 j)) E).
Qed.

Lemma finalize_fields pl plan_ref i cps crefs d :
  finalize pl plan_ref i cps crefs = Ok d → da_extraction d = sm_extraction (structure pl).
Proof.
  unfold finalize, make_digest. intros E. apply result_bind_Ok in E as (ordered & _ & E).
  apply result_bind_Ok in E as (d' & Ed & E). planned E. injection E as <-. planned Ed.
  destruct (result_of ordered (root_id pl)); [|done]. cbv zeta in Ed.
  apply result_bind_Ok in Ed as (seen & _ & Ed). apply result_bind_Ok in Ed as (l & _ & Ed).
  apply result_bind_Ok in Ed as (an & _ & Ed). apply result_bind_Ok in Ed as (inc & _ & Ed). by injection Ed as <-.
Qed.

(** Decoding the canonical bytes of the recomputed digest gives the digest. *)
Definition digest_round_trips (s : T) (sc : Scope) (id : uuid) (plan_ref : ObjectRef) : Prop :=
  ∀ job ss final d d' data limit, view_job ask sc id = Ok job →
    view_steps ask (a_scope (request job)) (job_id job) = Ok ss →
    unit_id (spec final.1) = "digest" → recomputed (published s) plan_ref job ss final = Some d →
    encode_model d = Ok data → decode_model (A := DigestArtifact) data limit = Ok d' → d' = d.

Lemma accepted_inv sc id s doc a dg pl s' :
  digest_round_trips s sc id (da_plan dg) →
  run_on ask (accepted datetime_json iterate sc id) s = (Ok (doc, a, dg, pl), s') →
  same_objects s s' ∧
  (∃ job, view_job ask sc id = Ok job ∧ j_state job = JobState.COMPLETED ∧ cancel_requested job = false) ∧
  plan_of datetime_json a (sm_extraction (structure pl)) (pl_profile pl) = Ok pl ∧
  ref_scope (sm_extraction (structure pl)) = sc ∧ ad_scope doc = sc ∧
  ad_version_id doc = document_version_id (document a) ∧ ad_extraction_id doc = extraction_id a ∧
  da_status dg = COMPLETE ∧
  ∃ cps crefs d, finalize pl (da_plan dg) (build_index a) cps crefs = Ok d ∧ normalized d = normalized dg.
Proof.
  intros Hround E. unfold accepted in E. apply run_bind_Ok in E as (job & s1 & [Hjob ->]%run_job_of & E).
  apply run_bind_Ok in E as ([] & s1 & [Hst ->]%run_require & E).
  apply andb_true_iff in Hst as [Hst%bool_decide_eq_true Hc%negb_true_iff].
  apply run_bind_Ok in E as (dg' & s1 & Hs1%run_load_digest & E).
  apply run_bind_Ok in E as ([] & s2 & [Hcomp%bool_decide_eq_true ->]%run_require & E).
  apply run_bind_Ok in E as ([] & s2 & [_ ->]%run_require & E).
  set (limit := p_max_artifact_bytes (profile (request job))) in *.
  apply run_bind_Ok in E as (pl' & s2 & (Hpl & Hsc & Hs2)%run_read_model & E).
  apply run_bind_Ok in E as (ss & s3 & [_ ->]%run_steps_in & E).
  destruct (find_row _ ss) as [final|] eqn:Ef; [|done].
  apply find_row_Some in Ef as [_ Hu%bool_decide_eq_true].
  apply run_bind_Ok in E as ([refs produced] & s3 & E1 & E).
  pose proof (vrun_same' _ _ _ _ _ _ E1) as Hs3.
  assert (same_objects s s2) as Hs02 by (by etrans).
  apply (vrun_digest_step _ _ _ _ _ _ _ _ _ Hu Hs02) in E1
    as (pl1 & a1 & ss1 & cps & crefs & d & data & rest & Hpl1 & Ha1 & Hplan & Hsc0 & Hsc1 & Hss1 & Hrec & Hfin & Henc & ->).
  apply run_bind_Ok in E as (rebuilt & s4 & [Hdec ->]%run_digested & E).
  apply run_bind_Ok in E as ([] & s4 & [Hnorm%bool_decide_eq_true ->]%run_require & E).
  destruct final.2 as [|digest_ref [|coverage_ref l]]; try done.
  apply run_bind_Ok in E as (cov & s4 & (_ & _ & Hs4)%run_read_model & E).
  apply run_bind_Ok in E as ([] & s5 & [_ ->]%run_require & E).
  apply run_bind_Ok in E as (a' & s5 & (Ha & Hsc2 & Hs5)%run_read_artifact & E).
  apply run_bind_Ok in E as (r & s6 & Hs6%run_inspect_object & E). injection E as <- <- <- <- <-.
  fold limit in Hpl1, Ha1.
  assert (pl1 = pl') as -> by (eapply decodes_unique; [by apply (decodes_same _ _ _ _ _ Hs2)|exact Hpl]).
  rewrite (Hround _ _ _ _ _ _ _ Hjob Hss1 Hu Hrec Henc Hdec) in Hnorm.
  destruct (normalized_inj _ _ Hnorm) as (Eref & _ & _). rewrite (finalize_fields _ _ _ _ _ _ Hfin) in Eref.
  rewrite <-Eref in *. assert (same_objects s2 s4) as Hs24 by (by etrans).
  assert (a1 = a') as ->.
  { eapply artifact_unique; [exact Ha1|]. eapply artifact_same; [|exact Ha]. by etrans. }
  split_and!; try done.
  - repeat (etrans; [eassumption|]). reflexivity.
  - by exists job.
  - by exists cps, crefs, d.
Qed.

(** ** COMPLETE: everything eligible is included, everything with text is eligible *)

Lemma select_full_sublist i parts ks l : select_full i parts ks = Ok l → l `sublist_of` ks.
Proof.
  revert l. induction ks as [|k ks IH]; intros l E; [by injection E as <-|].
  cbn [select_full] in E. apply result_bind_Ok in E as (f & _ & E). apply result_bind_Ok in E as (l' & El & E).
  injection E as <-. destruct f; constructor; by apply IH.
Qed.

Lemma sublist_same_length {A} (l k : list A) : l `sublist_of` k → (length k ≤ length l)%nat → l = k.
Proof.
  induction 1 as [|x l k Hs IH|x l k Hs IH]; simpl; intros Hl; [done|f_equal; apply IH; lia|].
  apply sublist_length in Hs. lia.
Qed.

Lemma complete_includes pl plan_ref i cps crefs d :
  finalize pl plan_ref i cps crefs = Ok d → da_status d = COMPLETE →
  included (da_coverage d) = eligible pl ∧ unsupported_ids pl = [].
Proof.
  unfold finalize. intros E Hst. apply result_bind_Ok in E as (ordered & _ & E).
  apply result_bind_Ok in E as (d' & Ed & E). planned E. injection E as <-.
  apply make_digest_inv in Ed as (root & seen & l & an & inc & _ & _ & _ & _ & _ & Einc & Ecov & Est).
  rewrite Hst in Est. unfold status_of in Est. destruct (negb (Qle_bool _ _)); [done|].
  destruct (is_complete pl (da_coverage d')) eqn:Ec; [|by destruct (_ && _)].
  rewrite Ecov in *. unfold is_complete in Ec. rewrite !andb_true_iff, !bool_decide_eq_true, Z.eqb_eq in Ec.
  destruct Ec as [[_ Hu] Hl]. split; [|done]. simpl in *. apply select_full_sublist in Einc.
  apply sublist_same_length; [done|]. unfold len in Hl. lia.
Qed.

(** C20: What is published is the whole source.  When [accepted] returns, for whatever the stored
    objects and the ledger answer, it has written nothing and the job is COMPLETED; then the
    retrieval records of the document, concatenated, are exactly the text of every block of every
    unit that has text, in document order, no unit was unsupported, and each record's evidence
    resolves in the accepted artifact to precisely its text. *)
Theorem published_source_complete `{EmbeddingModel} sc id s doc a dg pl s' p rs :
  digest_round_trips s sc id (da_plan dg) → (∀ t, is_digest (sha256_hex t) = true) → valid_retrieval_profile p = true →
  run_on ask (accepted datetime_json iterate sc id) s = (Ok (doc, a, dg, pl), s') →
  NoDup (all_block_ids a) → (∀ k, len (owner_path pl k) ≤ 32) →
  records p doc a pl (included (da_coverage dg)) = Ok rs →
  same_objects s s' ∧
  (∃ job, view_job ask sc id = Ok job ∧ j_state job = JobState.COMPLETED ∧ cancel_requested job = false) ∧
  Forall (λ u, is_unsupported u = false) (units a) ∧
  concat (rr_text <$> rs) =
    concat ((λ ub : TextUnit * Block, source_text ub.2)
              <$> List.filter (λ ub, has_text (unit_text ub.1)) (inventory a)) ∧
  Forall (good_record p a (included (da_coverage dg))) rs.
Proof.
  intros Hround Hsha Hp E Hnd Hpath Hrs.
  apply accepted_inv in E as (Hsame & Hjob & Hplan & Hsc & Hds & Hdv & Hde & Hst & cps & crefs & d & Hfin & Hnorm); [|done].
  destruct (normalized_inj _ _ Hnorm) as (_ & Hst' & Hinc). rewrite Hst in Hst'.
  destruct (complete_includes _ _ _ _ _ _ Hfin Hst') as [Hel Hun].
  unfold plan_of in Hplan. destruct (serialize datetime_json a) as [data|]; [|done].
  pose proof Hplan as (Hscope & _)%build_plan_scope.
  apply build_plan_Ok in Hplan as (Hv & _ & _ & _ & _ & [_ _ _ _ _ _ _ (Hpe & _ & Hpu)]).
  assert (Forall (λ u, is_unsupported u = false) (units a)) as Hno.
  { rewrite Hun in Hpu. apply Forall_forall. intros u Hu. destruct (is_unsupported u) eqn:Eu; [|done].
    assert (∀ k, k ∉ unit_ids u) as Hk.
    { intros k Hk. apply (not_elem_of_nil (A := uuid) k). rewrite Hpu. apply list_elem_of_bind.
      exists u. split; [done|]. by apply elem_of_select. }
    unfold unit_ids in Hk. destruct (blocks u) as [|b bs].
    - exfalso. apply (Hk (unit_source_id u)). by left.
    - exfalso. apply (Hk (block_id b)). by left. }
  assert (describes p doc a pl) as Hdesc.
  { split; try done. - by rewrite Hds, <-Hsc. - apply Hsha. }
  pose proof (records_spec p doc a pl (included (da_coverage dg)) Hdesc) as Hr. rewrite Hrs in Hr.
  destruct Hr as [Ht Hg]. split_and!; try done. rewrite Ht. do 2 f_equal.
  rewrite <-Hinc, Hel, Hpe. assert (∀ ub, ub ∈ inventory a → ub ∈ inventory a) as Hsub by done. revert Hsub.
  generalize (inventory a) at 1 3 4 as l. induction l as [|[u b] l IH]; intros Hsub; [done|].
  pose proof (Hsub (u, b) ltac:(by left)) as Hub. cbn [List.filter fst snd].
  assert (bool_decide (block_id b ∈ List.filter is_eligible (units a) ≫= unit_ids) = has_text (unit_text u)) as ->.
  { change (List.filter is_eligible (units a) ≫= unit_ids) with (eligible_ids a).
    rewrite (eligible_ids_iff a Hv u b Hnd Hub). unfold is_eligible.
    apply inventory_elem in Hub as [Hu _]. rewrite Forall_forall in Hno. by rewrite (Hno u Hu). }
  rewrite IH; [done|]. intros ub Hin. apply Hsub. by right.
Qed.

End Accepted.
