(* ===== verification/PublicationSourceWitness.v ===== *)
(** * A digested document, accepted and published

    The sample artifact with its plan, checkpoints, digest and source in a local store, and the
    ledger of its completed job: what [published_source_complete] needs holds there. *)

From Stdlib Require Import ZArith NArith QArith Lia.
From stdpp Require Import base tactics list strings option sets gmap.
From S2P Require Import Prelude Json Contracts ContractFacts JobModels JobLedger Sample ContractTheorems Storage Extraction.
From S2P Require Import DigestModels DigestPlanning DigestPlanTheorems DigestValidation DigestArtifacts DigestFlow DigestInference DigestWitnesses.
From S2P Require Import DigestWorkflow DigestSteps DigestStepsTheorems Publication PublicationPlan PublicationPlanTheorems PublicationAccepted PublicationSource.

Local Open Scope Z_scope.

#[local] Existing Instance sample_runtime.
#[local] Existing Instance PublicationPlanTheorems.sample_model.

(** One chunk for the whole document. *)
Definition whole_digestion : DigestionProfile := {|
  dp_version := "digestion/1"; structure_profile := "source-structure/1";
  chunking_profile := "analysis-chunks/1"; inference_profile := "deterministic/1";
  inference_config := sample_sha256; reducer_profile := "lineage-reduction/1";
  prompt_profile := "structured-data/1"; dp_context_tokens := 100000; reserved_output_tokens := 1000;
  template_tokens := 10; chunk_characters := 100; max_fan_in := 2; max_result_characters := 4000;
  max_response_bytes := None; managed_input_budget := None; max_claims := 8;
  max_claim_characters := 1024; max_annotations := 8; max_source_units := 100; max_chunks := 10;
  max_steps := 20; dp_max_artifact_bytes := 1000000; max_depth := 4; allow_partial := false;
  minimum_coverage := 1; max_failed_units := 0 |}.

(** ** The objects *)

Definition artifact_bytes : text :=
  Eval vm_compute in match serialize dumps_int sample_extracted with Ok b => b | Err _ => [] end.
Definition published_ref (id : uuid) (data : text) : ObjectRef := make_ref sample_scope artifact_kind id data.
Definition extraction_object : ObjectRef := Eval vm_compute in published_ref sample_extraction artifact_bytes.

Definition accepted_plan : Plan :=
  Eval vm_compute in match plan_of dumps_int sample_extracted extraction_object whole_digestion with
                     | Ok pl => pl
                     | Err _ => flat_plan
                     end.

Definition model_ref (v : json) (data : text) : ObjectRef := published_ref (object_identity v) data.

Definition plan_bytes : text := Eval vm_compute in canonical (plan_json accepted_plan).
Definition plan_object : ObjectRef := Eval vm_compute in model_ref (plan_json accepted_plan) plan_bytes.

(** A stage that was run: its checkpoint, the reference and the bytes. *)
Record stage_run := { ran : uuid; ran_checkpoint : Checkpoint; ran_ref : ObjectRef; ran_bytes : text }.

Definition run_checkpoints (l : list stage_run) : list (uuid * Checkpoint) := (λ x, (ran x, ran_checkpoint x)) <$> l.
Definition run_refs (l : list stage_run) : list (uuid * ObjectRef) := (λ x, (ran x, ran_ref x)) <$> l.

(** The stages in topological order, each checkpoint stored as it is made. *)
Fixpoint grow_stages (h : digest) (done_ : list stage_run) (ks : list uuid) : list stage_run :=
  match ks with
  | [] => done_
  | k :: ks' =>
      match stage_request accepted_plan k (run_checkpoints done_) (run_refs done_) with
      | Ok r =>
          let res := fake_result sample_inference r in
          match checkpoints_of (run_checkpoints done_) (children r) with
          | Ok cs =>
              let '(inh, props) := inherited_summary res r cs in
              let cp := {| plan_hash := h; cp_parents := stage_parents accepted_plan plan_object r;
                           cp_result := res; cp_inherited := inh; propositions := props |} in
              let data := canonical (checkpoint_json cp) in
              grow_stages h (done_ ++ [{| ran := k; ran_checkpoint := cp;
                                          ran_ref := model_ref (checkpoint_json cp) data; ran_bytes := data |}]) ks'
          | Err _ => done_
          end
      | Err _ => done_
      end
  end.

Definition stages : list stage_run :=
  Eval vm_compute in grow_stages (plan_fingerprint accepted_plan) [] (expected_stages accepted_plan).

Definition stage_results : list StageResult := (λ x, cp_result (ran_checkpoint x)) <$> stages.

(** The digest, decoded with the stage results alone. *)
Definition computed_digest : result digest_exn DigestArtifact :=
  @finalize _ (table_decoder stage_results) accepted_plan plan_object (build_index sample_extracted)
    (run_checkpoints stages) (run_refs stages).

Definition no_digest : DigestArtifact := {|
  da_version_id := EmptyString; da_extraction := extraction_object; da_plan := plan_object; da_profile := EmptyString;
  da_status := FAILED; executive_summary := []; da_root := EmptyString; sections := []; findings := [];
  synthesis_claims := []; da_qualifications := []; contradictions := []; da_open_questions := [];
  da_coverage := make_coverage accepted_plan [] []; da_limitations := []; da_evidence := []; da_checkpoints := [] |}.

Definition accepted_digest : DigestArtifact :=
  Eval vm_compute in match computed_digest with Ok d => d | Err _ => no_digest end.

Definition digest_bytes : text := Eval vm_compute in canonical (digest_json accepted_digest).
Definition digest_object : ObjectRef := Eval vm_compute in model_ref (digest_json accepted_digest) digest_bytes.
Definition coverage_bytes : text := Eval vm_compute in canonical (coverage_json (da_coverage accepted_digest)).
Definition coverage_object : ObjectRef :=
  Eval vm_compute in model_ref (coverage_json (da_coverage accepted_digest)) coverage_bytes.

(** ** Decoding by table *)

Definition known_texts : list (text * json) :=
  [(artifact_bytes, artifact_json dumps_int sample_extracted); (plan_bytes, plan_json accepted_plan);
   (digest_bytes, digest_json accepted_digest); (coverage_bytes, coverage_json (da_coverage accepted_digest))]
  ++ ((λ x, (ran_bytes x, checkpoint_json (ran_checkpoint x))) <$> stages)
  ++ ((λ r, (canonical (result_json r), result_json r)) <$> stage_results).

#[local] Instance known_decoder : Decoder := {|
  json_loads := λ _ t,
    match find_row (λ tv : text * json, text_eqb tv.1 t) known_texts with
    | Some tv => Ok tv.2
    | None => Err malformed
    end;
  stage_result_validate := λ v,
    match find_row (λ r, json_eqb (result_json r) v) stage_results with
    | Some r => Ok r
    | None => Err "other_pydantic_validation"
    end |}.

Definition parse_table {A} (dump_ : A → json) (l : list A) : Parses A := λ v,
  match find_row (λ x, json_eqb (dump_ x) v) l with Some x => Ok x | None => Err "other_pydantic_validation" end.

Lemma parse_single {A} (dump_ : A → json) x v y : parse_table dump_ [x] v = Ok y → y = x.
Proof. unfold parse_table. simpl. destruct (json_eqb (dump_ x) v); [|done]. by intros [= ->]. Qed.

#[local] Instance known_plan : Parses Plan := parse_table plan_json [accepted_plan].
#[local] Instance known_artifact : Parses ExtractionArtifact := parse_table (artifact_json dumps_int) [sample_extracted].
#[local] Instance known_checkpoint : Parses Checkpoint := parse_table checkpoint_json (ran_checkpoint <$> stages).
#[local] Instance known_digest : Parses DigestArtifact := parse_table digest_json [accepted_digest].
#[local] Instance known_coverage : Parses Coverage := parse_table coverage_json [da_coverage accepted_digest].

(** ** The ledger and the store *)

Definition done_step (sp : StepSpec) (manifest : list ObjectRef) : step_row * list ObjectRef :=
  ({| step_id := unit_id sp; s_job_id := "job-1"; s_unit_id := unit_id sp; spec := sp; step_key := EmptyString;
      input_fingerprint := EmptyString; execution_at := 0; s_state := StepState.SUCCEEDED; attempt_count := 1;
      fence := 1; lease_owner := None; lease_expires_at := None; not_before := 0; started_at := None;
      finished_at := None; failure_category := None; reused_from := None |}, manifest).

Definition done_steps : list (step_row * list ObjectRef) :=
  Eval vm_compute in
  (λ sp, done_step sp
     (if bool_decide (unit_id sp = "digest") then [digest_object; coverage_object]
      else option_list (dict_get (unit_id sp) (run_refs stages)))) <$> specs accepted_plan plan_object.

Definition done_job : job_row := {|
  job_id := "job-1"; run_id := "run-1"; j_scope := EmptyString; request_key := "key-1"; j_fingerprint := EmptyString;
  version_id := sample_version; source_key := EmptyString; JobLedger.generation := 0;
  request := digest_admission sample_extracted accepted_plan plan_object "utf8-strict/1" "key-1" None None;
  j_created_at := 0; updated_at := 0; document_created_at := 0; j_state := JobState.COMPLETED;
  cancel_requested := false; progress := empty_progress; terminal_category := None |}.

Definition done_view : ledger_view := {| view_job := λ _ _, Ok done_job; view_steps := λ _ _, Ok done_steps |}.

Definition done_store : local_store := {|
  entries := list_to_map ((λ rb : ObjectRef * text, (ref_key rb.1, {| plain := true; content := rb.2 |})) <$>
    [(extraction_object, artifact_bytes); (plan_object, plan_bytes); (digest_object, digest_bytes);
     (coverage_object, coverage_bytes); (doc_source (document sample_extracted), cps "source bytes")]
    ++ ((λ x, (ran_ref x, ran_bytes x)) <$> stages));
  leftover := 0; schedule := [] |}.

Definition accepted_run : result exn (AcceptedDocument * ExtractionArtifact * DigestArtifact * Plan) * local_store :=
  run_on done_view (accepted dumps_int (λ l, l) sample_scope "job-1") done_store.

#[local] Instance Contradiction_eq_dec : EqDecision Contradiction.
Proof. solve_decision. Defined.
#[local] Instance SectionSummary_eq_dec : EqDecision SectionSummary.
Proof. solve_decision. Defined.
#[local] Instance DigestArtifact_eq_dec : EqDecision DigestArtifact.
Proof. solve_decision. Defined.

(** The run succeeds, and its outcome has what the theorem asks for. *)
Lemma accepted_run_computed :
  match accepted_run with
  | (Ok (doc, a, dg, pl), _) =>
      bool_decide (NoDup (all_block_ids a)) && forallb (λ u, len (su_path u) <=? 32) (sm_units (structure pl))
      && bool_decide (da_plan dg = plan_object)
      && match records small_profile doc a pl (included (da_coverage dg)) with Ok _ => true | Err _ => false end
  | _ => false
  end = true.
Proof. vm_compute. reflexivity. Qed.

Definition final_step : step_row * list ObjectRef :=
  Eval vm_compute in default (done_step (sample_spec "digest" Stage.VALIDATING []) [])
                       (find_row (λ s, bool_decide (unit_id (spec s.1) = "digest")) done_steps).

Lemma recomputed_computed :
  match recomputed (λ l, l) (published done_store) plan_object done_job done_steps final_step with
  | Some d => bool_decide (d = accepted_digest)
  | None => true
  end = true.
Proof. vm_compute. reflexivity. Qed.

Lemma world_round_trips : digest_round_trips (λ l, l) done_view done_store sample_scope "job-1" plan_object.
Proof.
  intros job ss final d d' data limit Hj Hss Hu Hrec _ Hdec. injection Hj as <-. injection Hss as <-.
  assert (recomputed (λ l, l) (published done_store) plan_object done_job done_steps final =
          recomputed (λ l, l) (published done_store) plan_object done_job done_steps final_step) as E.
  { unfold recomputed, wanted_units. rewrite Hu. reflexivity. }
  rewrite E in Hrec. pose proof recomputed_computed as Hc. rewrite Hrec in Hc. apply bool_decide_eq_true in Hc.
  subst d. unfold decode_model in Hdec. destruct (limit <? len data); [discriminate Hdec|].
  destruct (json_loads unique data) as [v|[]]; [|discriminate Hdec|discriminate Hdec].
  pose proof (parse_single digest_json accepted_digest v) as Hp. unfold model_validate, known_digest in Hdec.
  destruct (parse_table digest_json [accepted_digest] v) as [y|e]; [|discriminate Hdec].
  injection Hdec as <-. by apply Hp.
Qed.

Lemma short_paths pl : forallb (λ u, len (su_path u) <=? 32) (sm_units (structure pl)) = true → ∀ k, len (owner_path pl k) ≤ 32.
Proof.
  intros Hall k. unfold owner_path. destruct (dict_get k _) as [path|] eqn:E; [|unfold len; simpl; lia].
  apply dict_get_elem, list_elem_of_bind in E as (u & Hin & Hu). apply list_elem_of_fmap in Hin as (k' & [= -> ->] & _).
  rewrite forallb_forall in Hall. apply list_elem_of_In, Hall, Z.leb_le in Hu. exact Hu.
Qed.

Lemma published_source_complete_witness :
  ∃ doc a dg pl s' rs,
    accepted_run = (Ok (doc, a, dg, pl), s') ∧
    records small_profile doc a pl (included (da_coverage dg)) = Ok rs ∧
    same_objects done_store s' ∧
    (∃ job, view_job done_view sample_scope "job-1" = Ok job ∧ j_state job = JobState.COMPLETED ∧ cancel_requested job = false) ∧
    Forall (λ u, is_unsupported u = false) (units a) ∧
    concat (rr_text <$> rs) =
      concat ((λ ub : TextUnit * Block, source_text ub.2)
                <$> List.filter (λ ub, has_text (unit_text ub.1)) (inventory a)) ∧
    Forall (good_record small_profile a (included (da_coverage dg))) rs.
Proof.
  pose proof accepted_run_computed as Hc. destruct accepted_run as [[[[[doc a] dg] pl]|e] s'] eqn:E; [|discriminate Hc].
  rewrite !andb_true_iff in Hc. destruct Hc as [[[Hnd Hpath] Hplan] Hrs].
  apply bool_decide_eq_true in Hnd, Hplan.
  destruct (records small_profile doc a pl (included (da_coverage dg))) as [rs|] eqn:Er; [|discriminate Hrs].
  exists doc, a, dg, pl, s', rs. split; [reflexivity|]. split; [exact Er|].
  refine (published_source_complete dumps_int (λ l, l) done_view sample_scope "job-1" done_store doc a dg pl s'
            small_profile rs _ sample_sha_digest _ E Hnd (short_paths pl Hpath) Er).
  - rewrite Hplan. exact world_round_trips.
  - vm_compute. reflexivity.
Defined.

(** ** The plan above is admissible *)

Lemma accepted_plan_built : plan_of dumps_int sample_extracted extraction_object whole_digestion = Ok accepted_plan.
Proof. vm_compute. reflexivity. Qed.

Lemma plan_admissible_witness :
  length (specs accepted_plan plan_object) = 5%nat ∧
  valid_admission (digest_admission sample_extracted accepted_plan plan_object "utf8-strict/1" "key-1" None None) = true.
Proof.
  split; [vm_compute; reflexivity|].
  apply (@plan_admissible sample_runtime dumps_int sample_extracted extraction_object whole_digestion accepted_plan plan_object
           "utf8-strict/1" "key-1" None None sample_sha_digest accepted_plan_built).
  - apply Forall_forall. intros k Hk. revert k Hk. apply Forall_forall.
    refine (bool_decide_unpack _ _). vm_compute. exact I.
  - refine (bool_decide_unpack _ _). vm_compute. exact I.
  - reflexivity.
  - reflexivity.
  - exact I.
Defined.
