(* ===== verification/Rag.v ===== *)
(** * Ranking, fusion and the vector store boundary

    [rag/vector_store.py], [tokenize] of [rag/bm25.py], [fuse_rankings] of
    [rag/hybrid_retriever.py] and [rerank] of [rag/reranker.py].  The vector database, [rank_bm25]
    and the cross encoder are third-party: interfaces whose answers are not trusted. *)

From Stdlib Require Import ZArith NArith QArith Lia.
From stdpp Require Import base tactics list strings option gmap.
From S2P Require Import Prelude Json Contracts JobModels ProviderAdmission Governance Extraction.

Local Open Scope Z_scope.

(** ** Floats

    Scores are finite binary64 numbers: rationals, rounded after every operation. *)

(** The nearest binary64, ties to even; the values here are far below the largest one. *)
Definition binary64 (q : Q) : Q :=
  if Qnum q =? 0 then 0%Q else
  let a := Z.abs (Qnum q) in
  let b := Zpos (Qden q) in
  let e0 := Z.log2 a - Z.log2 b in
  let smaller := if 0 <=? e0 then a <? b * 2 ^ e0 else a * 2 ^ (- e0) <? b in
  let s := 52 - Z.max (if smaller then e0 - 1 else e0) (-1022) in
  let m := if 0 <=? s then round_half_even (inject_Z (a * 2 ^ s) / inject_Z b)
           else round_half_even (inject_Z a / inject_Z (b * 2 ^ (- s))) in
  let m := if Qnum q <? 0 then - m else m in
  Qred (if 0 <=? s then inject_Z m / inject_Z (2 ^ s) else inject_Z (m * 2 ^ (- s))).

(** [round(x, n)] *)
Definition round_digits (n : Z) (q : Q) : Q :=
  binary64 (inject_Z (round_half_even (q * inject_Z (10 ^ n))) / inject_Z (10 ^ n)).

(** [max(0.0, x)] *)
Definition max0 (q : Q) : Q := if qlt 0 q then q else 0%Q.

(** ** Dictionaries of scalars *)

Inductive value := VStr (t : text) | VInt (z : Z) | VFloat (q : Q) | VBool (b : bool) | VNone.

#[export] Instance Q_number_eq_dec : EqDecision Q.
Proof. solve_decision. Defined.
#[export] Instance value_eq_dec : EqDecision value.
Proof. solve_decision. Defined.

(** A vector's metadata, a search result. *)
Abbreviation hit := (gmap string value).

(** [d.get(k)] *)
Definition get (k : string) (d : hit) : value := default VNone (d !! k).

Definition truthy (v : value) : bool :=
  match v with
  | VStr t => negb (bool_decide (t = []))
  | VInt z => negb (z =? 0)
  | VFloat q => negb (Qeq_bool q 0)
  | VBool b => b
  | VNone => false
  end.

(** [{k: v for k, v in l}]: the last entry of a key wins. *)
Definition dict_of {K A} `{Countable K} (l : list (K * A)) : gmap K A := list_to_map (reverse l).

(** ** [rag/vector_store.py] *)

Record VectorFilter := { vf_generation : string; vf_document_ids : list string }.
Record VectorMatch := { vm_document : text; vm_metadata : hit; distance : Q }.
Record VectorDocument := { vd_document : text; vd_metadata : hit }.

(** A collection of vectors; every operation may fail, and nothing is promised of its answers. *)
Class VectorStore (V : Type) := {
  similarity_search : list Q → Z → option VectorFilter → V → result unit (list VectorMatch) * V;
  list_documents : option VectorFilter → V → result unit (list VectorDocument) * V;
  upsert : string → text → list Q → hit → V → result unit unit * V }.

(** [BM25Okapi(corpus)], which may raise, and [get_scores]. *)
Class Bm25 (I : Type) := {
  bm25_build : list (list text) → option I;
  get_scores : I → list text → list Q }.

(** ** [tokenize] *)

(** [str.lower] and the word characters of [re]: Unicode data. *)
Class UnicodeData := { str_lower : text → text; is_word : N → bool }.

Definition STOPWORDS : list string :=
  ["a"; "an"; "the"; "is"; "are"; "was"; "were"; "what"; "who"; "when"; "where"; "why"; "how"; "of"; "to";
   "for"; "in"; "on"; "at"; "and"; "or"; "with"; "about"].

Definition ascii_alnum (c : N) : bool :=
  ((48 <=? c) && (c <=? 57) || (65 <=? c) && (c <=? 90) || (97 <=? c) && (c <=? 122))%N.

Section Tokenize.
Context `{UnicodeData}.

(** Maximal runs of word characters. *)
Fixpoint words (t word : text) : list text :=
  match t with
  | [] => if bool_decide (word = []) then [] else [word]
  | c :: t' =>
      if is_word c then words t' (word ++ [c])
      else if bool_decide (word = []) then words t' [] else word :: words t' []
  end.

(** [\b[a-zA-Z0-9]+\b]: a match begins and ends at word boundaries, so it is a whole run. *)
Definition tokenize (t : text) : list text :=
  List.filter (λ w, forallb ascii_alnum w && negb (bool_decide (w ∈ cps <$> STOPWORDS))) (words (str_lower t) []).

End Tokenize.

(** ** [fuse_rankings] *)

(** [str.__repr__] *)
Fixpoint hex_digits (n : nat) (c : N) : text :=
  match n with
  | O => []
  | S n' =>
      let d := (c `mod` 16)%N in
      hex_digits n' (c / 16)%N ++ [if (d <? 10)%N then (48 + d)%N else (87 + d)%N]
  end.

Section Fusion.
Context `{Runtime}.

Definition repr_char (quote c : N) : text :=
  if (c =? 92)%N || (c =? quote)%N then [92%N; c]
  else if (c =? 10)%N then cps "\n" else if (c =? 13)%N then cps "\r" else if (c =? 9)%N then cps "\t"
  else if isprintable c then [c]
  else if (c <? 256)%N then cps "\x" ++ hex_digits 2 c
  else if (c <? 65536)%N then cps "\u" ++ hex_digits 4 c
  else cps "\U" ++ hex_digits 8 c.

Definition repr_text (t : text) : text :=
  let quote := if bool_decide (39%N ∈ t) && negb (bool_decide (34%N ∈ t)) then 34%N else 39%N in
  [quote] ++ (t ≫= repr_char quote) ++ [quote].

Definition repr_value (v : value) : text :=
  match v with
  | VStr t => repr_text t
  | VInt z => dumps_int z
  | VFloat q => float_repr q
  | VBool b => cps (if b then "True" else "False")
  | VNone => cps "None"
  end.

(** [str(tuple)] *)
Definition repr_tuple (l : list value) : text :=
  cps "(" ++ match repr_value <$> l with
             | [] => []
             | x :: xs => x ++ (xs ≫= λ y, cps ", " ++ y)
             end ++ cps ")".

Definition record_identity_of (item : hit) : list value :=
  if truthy (get "record_id" item) then [VStr (cps "publication"); get "record_id" item]
  else [VStr (cps "legacy"); get "source" item; get "chunk_id" item].

(** The dict [fused] in insertion order: identity, item, [rrf_score]. *)
Abbreviation fused := (list (list value * hit * Q)).

Definition add_rank (key : list value) (item : hit) (gain : Q) (f : fused) : fused :=
  if bool_decide (key ∈ (λ x, x.1.1) <$> f)
  then (λ x, if bool_decide (x.1.1 = key) then (x.1, binary64 (x.2 + gain)) else x) <$> f
  else f ++ [(key, item, binary64 (0 + gain))].

Fixpoint fuse_ranking (rrf_k rank : Z) (items : list hit) (seen : list (list value)) (f : fused) : fused :=
  match items with
  | [] => f
  | item :: items' =>
      let key := record_identity_of item in
      if bool_decide (key ∈ seen) then fuse_ranking rrf_k (rank + 1) items' seen f
      else fuse_ranking rrf_k (rank + 1) items' (key :: seen)
             (add_rank key item (binary64 (1 / inject_Z (rrf_k + rank))) f)
  end.

Definition fused_le (x y : list value * hit * Q) : bool :=
  qlt y.2 x.2 || Qeq_bool x.2 y.2 && negb (text_ltb (repr_tuple y.1.1) (repr_tuple x.1.1)).

Definition fuse_rankings (rrf_k : Z) (dense sparse : list hit) : list hit :=
  (λ x, <["rrf_score" := VFloat x.2]> x.1.2)
    <$> order_by fused_le (fuse_ranking rrf_k 1 sparse [] (fuse_ranking rrf_k 1 dense [] [])).

(** ** [rerank] *)

(** [CrossEncoder.predict] on the pairs of the query and each text. *)
Class Reranker := { predict : text → list value → list Q }.
Context `{Reranker}.

Fixpoint set_scores (docs : list hit) (scores : list Q) : list hit :=
  match docs, scores with
  | d :: docs', s :: scores' => <["rerank_score" := VFloat s]> d :: set_scores docs' scores'
  | docs, _ => docs
  end.

Definition score_of (d : hit) : Q := match get "rerank_score" d with VFloat q => q | _ => 0 end.

Definition rerank (query : text) (docs : list hit) (top_k : Z) : list hit :=
  take (Z.to_nat top_k)
    (order_by (λ x y, Qle_bool (score_of y) (score_of x)) (set_scores docs (predict query (get "text" <$> docs)))).

End Fusion.
