(* ===== verification/PublicationWorld.v ===== *)
(** * What the publication service shares with the rest of the system

    The state of the four stores a publication reader holds ([PublicationReader.__init__] of
    [documents/publication/service.py] and the caller's authorization), programs over it, and the
    calls of other processes that run between any two of its own. *)

From Stdlib Require Import ZArith NArith QArith Lia.
From stdpp Require Import base tactics list strings option gmap.
From S2P Require Import Prelude Json Contracts JobModels JobLedger ProviderAdmission Authority AuthorityTheorems Storage.
From S2P Require Import Publication PublicationAuthority Rag.

Local Open Scope Z_scope.

(** Settings of the process, and what its platform fixes. *)
Class Deployment := {
  (** [settings.authentication_mode == 'oidc_jwt'] *)
  oidc_jwt : bool;
  (** the capacity of the audit log *)
  audit_capacity : Z;
  (** a [datetime] in JSON mode, and the iteration order of a set *)
  datetime_text : Z → text;
  set_order : list string → list string }.

(** What happens elsewhere between two operations, and what the next one observes. *)
Record moment (V : Type) := {
  m_calls : list pub_call; m_security : list scall; m_objects : list store_call; m_vectors : V → V;
  m_view : ledger_view; m_clock : nat → Q; m_event : uuid }.
Arguments m_calls {V}.
Arguments m_security {V}.
Arguments m_objects {V}.
Arguments m_vectors {V}.
Arguments m_view {V}.
Arguments m_clock {V}.
Arguments m_event {V}.

Record world (T V : Type) := {
  w_authority : pdb; w_objects : T; w_vectors : V; w_security : sdb;
  w_outside : nat → moment V; w_time : nat }.
Arguments w_authority {T V}.
Arguments w_objects {T V}.
Arguments w_vectors {T V}.
Arguments w_security {T V}.
Arguments w_outside {T V}.
Arguments w_time {T V}.

(** A method that may raise; what it did before stays. *)
Definition prog (W A : Type) : Type := W → result pub_exn A * W.

#[export] Instance prog_ret W : MRet (prog W) := λ A a w, (Ok a, w).
#[export] Instance prog_bind W : MBind (prog W) :=
  λ A B f m w, match m w with (Ok a, w') => f a w' | (Err e, w') => (Err e, w') end.

Section Programs.
Context {W : Type}.

Definition throws {A} (e : pub_exn) : prog W A := λ w, (Err e, w).

Definition demand (b : bool) (e : pub_exn) : prog W unit := if b then mret tt else throws e.

Definition pure {A} (r : result pub_exn A) : prog W A := λ w, (r, w).

(** [except PublicationError: raise] / [except Exception: raise e]. *)
Definition sanitized {A} (e : pub_exn) (m : prog W A) : prog W A := λ w,
  match m w with
  | (Err (PubErr c), w') => (Err (PubErr c), w')
  | (Err _, w') => (Err e, w')
  | (Ok a, w') => (Ok a, w')
  end.

(** [try: m] / [except Exception: handler]. *)
Definition or_else {A} (m : prog W A) (handler : prog W A) : prog W A := λ w,
  match m w with (Ok a, w') => (Ok a, w') | (Err _, w') => handler w' end.

Fixpoint each {A} (f : A → prog W unit) (l : list A) : prog W unit :=
  match l with
  | [] => mret tt
  | x :: l' => f x ≫= λ _, each f l'
  end.

Fixpoint collect {A B} (f : A → prog W B) (l : list A) : prog W (list B) :=
  match l with
  | [] => mret []
  | x :: l' => f x ≫= λ y, collect f l' ≫= λ ys, mret (y :: ys)
  end.

Lemma prog_bind_Ok {A B} (m : prog W A) (f : A → prog W B) w b w' :
  (m ≫= f) w = (Ok b, w') ↔ ∃ a w1, m w = (Ok a, w1) ∧ f a w1 = (Ok b, w').
Proof.
  unfold mbind, prog_bind. destruct (m w) as [[a|e] w1]; split.
  - eauto.
  - by intros (? & ? & [= -> ->] & ?).
  - done.
  - by intros (? & ? & [=] & ?).
Qed.

Lemma demand_Ok b e w x w' : demand b e w = (Ok x, w') ↔ b = true ∧ w' = w.
Proof. unfold demand. destruct x, b; split; [by intros [= <-]|by intros [_ ->]|done|by intros [[=] _]]. Qed.

Lemma pure_Ok {A} (r : result pub_exn A) w a w' : pure r w = (Ok a, w') ↔ r = Ok a ∧ w' = w.
Proof. unfold pure. split; [by intros [= -> ->]|by intros [-> ->]]. Qed.

Lemma prog_ret_Ok {A} (a b : A) w w' : (mret a : prog W A) w = (Ok b, w') ↔ b = a ∧ w' = w.
Proof. split; [by intros [= -> ->]|by intros [-> ->]]. Qed.

Lemma sanitized_Ok {A} e (m : prog W A) w a w' : sanitized e m w = (Ok a, w') ↔ m w = (Ok a, w').
Proof. unfold sanitized. destruct (m w) as [[x|[]] w1]; naive_solver. Qed.

End Programs.

(** [prog_inv H] takes a successful run apart into its steps. *)
Ltac prog_inv H :=
  lazymatch type of H with
  | (_ ≫= _) _ = (Ok _, _) =>
      let a := fresh "a" in let w1 := fresh "w" in
      let H1 := fresh "Hp" in
      apply prog_bind_Ok in H as (a & w1 & H1 & H); prog_inv H1; prog_inv H
  | demand _ _ _ = (Ok _, _) => apply demand_Ok in H as [H ->]
  | pure _ _ = (Ok _, _) => apply pure_Ok in H as [H ->]
  | throws _ _ = (Ok _, _) => discriminate H
  | sanitized _ _ _ = (Ok _, _) => apply sanitized_Ok in H; prog_inv H
  | mret _ _ = (Ok _, _) => first [apply prog_ret_Ok in H as [-> ->] | apply prog_ret_Ok in H as [H ->]]
  | _ => idtac
  end.

(** ** Operations on the stores *)

Section Operations.
Context `{Runtime} `{Deployment} {T V : Type} `{OS : !ObjectStore T} `{VS : !VectorStore V}.

Abbreviation pworld := (world T V).

Definition advance (d : pdb) (s : T) (v : V) (sec : sdb) (w : pworld) : pworld := {|
  w_authority := d; w_objects := s; w_vectors := v; w_security := sec;
  w_outside := w_outside w; w_time := w_time w |}.

(** The other processes run before every operation. *)
Definition interfered (w : pworld) : pworld :=
  let m := w_outside w (w_time w) in {|
  w_authority := pub_run (m_calls m) (w_authority w); w_objects := store_run (m_objects m) (w_objects w);
  w_vectors := m_vectors m (w_vectors w);
  w_security := foldl (sexec audit_capacity) (w_security w) (m_security m);
  w_outside := w_outside w; w_time := S (w_time w) |}.

(** The moment of the next operation. *)
Definition now (w : pworld) : moment V := w_outside w (w_time w).

(** A call of the publication authority. *)
Definition on_authority {A} (x : ptx A) : prog pworld A := λ w,
  let w1 := interfered w in
  let '(r, d) := transaction x (w_authority w1) in
  (r, advance d (w_objects w1) (w_vectors w1) (w_security w1) w1).

(** A program over objects and jobs; [e] is what its failures become. *)
Definition on_objects {A} (e : pub_exn) (h : handling A) : prog pworld A := λ w,
  let w1 := interfered w in
  let '(r, s) := run_on (m_view (now w)) h (w_objects w1) in
  (match r with Ok a => Ok a | Err _ => Err e end,
   advance (w_authority w1) s (w_vectors w1) (w_security w1) w1).

(** A call of the vector store. *)
Definition on_vectors {A} (f : V → result unit A * V) : prog pworld A := λ w,
  let w1 := interfered w in
  let '(r, v) := f (w_vectors w1) in
  (match r with Ok a => Ok a | Err _ => Err OtherFailure end,
   advance (w_authority w1) (w_objects w1) v (w_security w1) w1).

(** [authority.authorize(principal, action)] *)
Definition on_authorize (p : Principal) (a : Action) : prog pworld unit := λ w,
  let w1 := interfered w in
  let '(r, d) := authorize audit_capacity p a RNone (m_event (now w)) (m_clock (now w)) (w_security w1) in
  (match r with Ok _ => Ok tt | Err _ => Err SecurityDenied end,
   advance (w_authority w1) (w_objects w1) (w_vectors w1) d w1).

(** [authority.revalidate(auth)] *)
Definition on_revalidate (s : AuthorizationSnapshot) : prog pworld unit := λ w,
  let w1 := interfered w in
  (match revalidate s (m_clock (now w)) (w_security w1) with Ok _ => Ok tt | Err _ => Err SecurityDenied end, w1).

End Operations.
