(* ===== verification/PublicationService.v ===== *)
(** * The publication service

    [documents/publication/service.py]: reading and validating a generation, planning, preparing
    and activating one, and [publication_step] of [documents/publication/workflow.py]. *)

From Stdlib Require Import ZArith NArith QArith Lia.
From stdpp Require Import base tactics list strings option gmap.
From S2P Require Import Prelude Json Contracts JobModels JobLedger ProviderAdmission Governance Authority AuthorityTheorems Storage Extraction.
From S2P Require Import DigestModels DigestPlanning DigestValidation DigestArtifacts DigestWorkflow DigestSteps.
From S2P Require Import Publication PublicationAuthority PublicationPlan PublicationAccepted Rag PublicationWorld.

Local Open Scope Z_scope.

#[export] Instance RetrievalProfile_json_eq_dec : EqDecision PublicationManifest.
Proof. solve_decision. Defined.

(** [self.scope] and [self.encoder.profile] of a [PublicationReader]. *)
Record reader := { rd_scope : Scope; rd_profile : RetrievalProfile }.

Definition validation_failed : pub_exn := PublicationError "publication_validation_failed".
Definition provenance_invalid : pub_exn := PublicationError "provenance_invalid".
Definition scope_invalid : pub_exn := PublicationError "retrieval_scope_invalid".

(** [manifest.model_dump(mode='json')] *)
Definition document_json_of (d : AcceptedDocument) : json :=
  match accepted_json d with JObj l => JObj (("job_id", juuid (ad_job_id d)) :: l) | j => j end.

Section Service.
Context `{Runtime} `{Deployment} `{Decoder} `{Parses Plan} `{Parses ExtractionArtifact} `{Parses Checkpoint}.
Context `{Parses DigestArtifact} `{Parses Coverage} `{Parses PublicationManifest} `{EmbeddingModel}.
Context `{UnicodeData} {T V I : Type} `{OS : !ObjectStore T} `{VS : !VectorStore V} `{BM : !Bm25 I}.
Variable self : reader.

Abbreviation prog := (prog (world T V)).

Definition manifest_json (m : PublicationManifest) : json :=
  JObj [("schema_version", jstr "publication/1"); ("generation", juuid (Publication.generation m));
        ("scope", scope_json (pm_scope m)); ("base", active_json (pm_base m));
        ("profile", retrieval_profile_json (pm_profile m));
        ("documents", JArr (document_json_of <$> pm_documents m)); ("records", JArr (record_json <$> pm_records m));
        ("removed_versions", JArr (juuid <$> removed_versions m)); ("policy", jstr "COMPLETE_ONLY")].

#[export] Instance manifest_model : Model PublicationManifest :=
  {| dump := manifest_json; revalidates := valid_manifest_model |}.

(** [publication_step] *)
Definition publication_step (m : PublicationManifest) : StepSpec := {|
  unit_id := "publication/" +:+ Publication.generation m; stage := Stage.NORMALIZING; schema_version := "publication/1";
  config_fingerprint := fingerprint (manifest_json m); depends_on := [] |}.

(** [decode] and [encode], whose errors are not publication errors. *)
Definition coded {A} (r : result digest_exn A) : prog A :=
  pure (match r with Ok a => Ok a | Err _ => Err OtherFailure end).

(** ** [PublicationReader] *)

(** [PublicationReader.manifest] *)
Definition reader_manifest (g : uuid) (compatible : bool) : prog PublicationManifest :=
  sanitized validation_failed (
    '(ref, _, base) ← on_authority (candidate g);
    data ← on_objects OtherFailure (read_object (rd_scope self) ref LIMIT);
    m ← coded (decode_model data LIMIT);
    _ ← demand (bool_decide (pm_base m = base) && bool_decide (Publication.generation m = g)
                && bool_decide (pm_scope m = rd_scope self)
                && (negb compatible || bool_decide (pm_profile m = rd_profile self)))
          (PublicationError "publication_incompatible");
    mret m).

Definition document_ids_of (m : PublicationManifest) : list uuid := ad_document_id <$> pm_documents m.

Definition subset_of (l k : list uuid) : bool := forallb (λ x, bool_decide (x ∈ k)) l.

(** [accepted], from the reader's ledger and store. *)
Definition accepted_job (id : uuid) : prog (AcceptedDocument * ExtractionArtifact * DigestArtifact * Plan) :=
  on_objects invalid_input (accepted datetime_text set_order (rd_scope self) id).

Definition job_records (x : AcceptedDocument * ExtractionArtifact * DigestArtifact * Plan)
    : result pub_exn (list RetrievalRecord) :=
  let '(d, a, dg, pl) := x in records (rd_profile self) d a pl (included (da_coverage dg)).

(** The records of one selected document, derived again from its job. *)
Definition rederived (d : AcceptedDocument) : prog (list RetrievalRecord) :=
  x ← accepted_job (ad_job_id d);
  _ ← demand (bool_decide (x.1.1.1 = d)) provenance_invalid;
  pure (job_records (d, x.1.1.2, x.1.2, x.2)).

Definition in_documents (selected : list uuid) (k : uuid) : bool := bool_decide (k ∈ selected).

Definition metadata_of (m : PublicationManifest) (r : RetrievalRecord) : hit :=
  dict_of ((λ kv, (kv.1, VStr (cps kv.2))) <$> vector_metadata m r).

Definition by_record (rs : list RetrievalRecord) : gmap uuid RetrievalRecord :=
  dict_of ((λ r, (record_id r, r)) <$> rs).

Definition wanted_rows (m : PublicationManifest) (rs : list RetrievalRecord) : gmap text (text * hit) :=
  dict_of ((λ r, (cps (record_id r), (rr_text r, metadata_of m r))) <$> rs).

Definition row_key (md : hit) : option text := match get "record_id" md with VStr t => Some t | _ => None end.

(** [len(inventory) == len(wanted) and actual == wanted]; no key of [wanted] is [None]. *)
Definition inventory_matches (m : PublicationManifest) (rs : list RetrievalRecord) (inv : list VectorDocument) : bool :=
  (length inv =? size (wanted_rows m rs))%nat
  && match mapM (λ r, (λ k, (k, (vd_document r, vd_metadata r))) <$> row_key (vd_metadata r)) inv with
     | Some rows => bool_decide (dict_of rows = wanted_rows m rs)
     | None => false
     end.

Definition corpus_of (m : PublicationManifest) : list (list text) := (λ r, tokenize (rr_text r)) <$> pm_records m.

(** [corpus and any(corpus)] *)
Definition has_tokens (corpus : list (list text)) : bool := existsb (λ ts, negb (bool_decide (ts = []))) corpus.

Definition filter_for (g : uuid) (ids : option (list uuid)) : VectorFilter :=
  {| vf_generation := g; vf_document_ids := default [] ids |}.

(** [PublicationReader.validate] *)
Definition reader_validate (g : uuid) (sparse : bool) (ids : option (list uuid)) (pinned : option PublicationManifest)
    : prog PublicationManifest :=
  sanitized validation_failed (
    m ← match pinned with Some m => mret m | None => reader_manifest g true end;
    _ ← demand (bool_decide (Publication.generation m = g) && bool_decide (pm_scope m = rd_scope self))
          provenance_invalid;
    let selected := default (document_ids_of m) ids in
    _ ← demand (subset_of selected (document_ids_of m)) scope_invalid;
    let chosen := List.filter (λ r, in_documents selected (rr_document_id r)) (pm_records m) in
    expected ← collect rederived (List.filter (λ d, in_documents selected (ad_document_id d)) (pm_documents m));
    _ ← demand (bool_decide (by_record (concat expected) = by_record chosen)) provenance_invalid;
    inv ← on_vectors (list_documents (Some (filter_for g ids)));
    _ ← demand (inventory_matches m chosen inv) validation_failed;
    _ ← (if sparse && has_tokens (corpus_of m)
         then demand (match bm25_build (corpus_of m) with Some _ => true | None => false end) OtherFailure
         else mret tt);
    mret m).

(** ** [PublicationService] *)

(** The [authorization] argument: the caller's principal, if any. *)
Definition _manage (auth : option Principal) : prog unit :=
  match auth with
  | None => if oidc_jwt then throws SecurityDenied else mret tt
  | Some p =>
      _ ← on_authorize p PUBLICATION_MANAGE;
      demand (bool_decide (tenant (p_scope p) = tenant (rd_scope self))) SecurityDenied
  end.

(** [plan_publication] *)
Definition plan_publication (ids : list uuid) (base : ActivePublication) (previous : option PublicationManifest)
    : prog PublicationManifest :=
  rows ← collect (λ id, x ← accepted_job id; rs ← pure (job_records x); mret (x.1.1.1, rs)) (job_order ids);
  pure (match plan_manifest (rd_scope self) base (rd_profile self) previous rows with
        | Some m => Ok m
        | None => Err OtherFailure
        end).

(** The same records, profile and digests as what serves. *)
Definition unchanged (candidate : PublicationManifest) (previous : PublicationManifest) : bool :=
  bool_decide (pm_records candidate = pm_records previous) && bool_decide (pm_profile candidate = pm_profile previous)
  && bool_decide (ad_digest <$> pm_documents candidate = ad_digest <$> pm_documents previous).

Definition manifest_object (m : PublicationManifest) : uuid :=
  stable_id [cps "publication-manifest/1"; cps (Publication.generation m)].

(** [PublicationService.plan] *)
Definition service_plan (ids : list uuid) (auth : option Principal) : prog PublicationManifest :=
  _ ← _manage auth;
  base ← on_authority active;
  previous ← match generation_of base with
             | Some g => m ← reader_manifest g false; mret (Some m)
             | None => mret None
             end;
  candidate ← plan_publication ids base previous;
  match (match previous with Some m => if unchanged candidate m then Some m else None | None => None end) with
  | Some m => _ ← reader_validate (Publication.generation m) false None None; mret m
  | None =>
      known ← on_authority inventory_states;
      if bool_decide (Publication.generation candidate ∈ known.*1)
      then reader_manifest (Publication.generation candidate) true
      else
        data ← coded (encode_model candidate);
        ref ← on_objects OtherFailure
                (put_object (rd_scope self) artifact_kind (manifest_object candidate) data LIMIT None);
        _ ← on_authority (register_candidate candidate ref);
        mret candidate
  end.

(** A [checkpoint] argument: the default does nothing; a caller's may raise. *)
Definition checkpoints := string → result pub_exn unit.
Definition no_checkpoint : checkpoints := λ _, Ok tt.

(** The upsert of one record. *)
Definition write_record (m : PublicationManifest) (cp : checkpoints) (auth : option Principal) (r : RetrievalRecord)
    : prog unit :=
  _ ← _manage auth;
  vec ← pure (embed (rd_profile self) (rr_text r));
  _ ← on_vectors (upsert (physical_id (Publication.generation m) (record_id r)) (rr_text r) vec (metadata_of m r));
  pure (cp "after_write").

(** [PublicationService.prepare] *)
Definition service_prepare (g : uuid) (cp : checkpoints) (auth : option Principal) : prog PublicationManifest :=
  _ ← _manage auth;
  m ← reader_manifest g true;
  '(_, state, base) ← on_authority (candidate g);
  if bool_decide (state = CandidateState.ACCEPTED) then reader_validate g false None None
  else
    serving ← on_authority active;
    if negb (bool_decide (serving = base)) then
      _ ← on_authority (mark g CandidateState.STALE None);
      throws (PublicationError "publication_stale_candidate")
    else
      or_else (
        _ ← pure (cp "before_writes");
        _ ← each (write_record m cp auth) (pm_records m);
        _ ← pure (cp "after_writes");
        _ ← reader_validate g true None None;
        _ ← pure (cp "after_validation");
        _ ← on_authority (mark g CandidateState.READY None);
        mret m)
      (_ ← on_authority (mark g CandidateState.FAILED (Some "publication_write_failure"));
       throws (PublicationError "publication_write_failure")).

(** The end of [activate] and of [rollback]. *)
Definition switch_to (g : uuid) (expected : ActivePublication) (rollback : bool) (cp : checkpoints)
    (auth : option Principal) : prog ActivePublication :=
  _ ← pure (cp "before_activation");
  _ ← _manage auth;
  result ← on_authority (activate g expected rollback);
  _ ← pure (cp "after_activation");
  mret result.

(** [PublicationService.activate] *)
Definition service_activate (g : uuid) (cp : checkpoints) (auth : option Principal) : prog ActivePublication :=
  _ ← _manage auth;
  _ ← reader_validate g true None None;
  '(_, _, base) ← on_authority (candidate g);
  switch_to g base false cp auth.

(** [PublicationService.rollback] *)
Definition service_rollback (g : uuid) (expected : ActivePublication) (cp : checkpoints) (auth : option Principal)
    : prog ActivePublication :=
  _ ← _manage auth;
  _ ← reader_validate g true None None;
  switch_to g expected true cp auth.

(** [PublicationService.revoke] *)
Definition service_revoke (ids : list uuid) (cp : checkpoints) (auth : option Principal) : prog ActivePublication :=
  _ ← _manage auth;
  serving ← on_authority active;
  match generation_of serving with
  | None => throws scope_invalid
  | Some g =>
      current ← reader_manifest g true;
      _ ← demand (negb (bool_decide (ids = [])) && subset_of ids (document_ids_of current)) scope_invalid;
      candidate ← service_plan
        (ad_job_id <$> List.filter (λ d, negb (in_documents ids (ad_document_id d))) (pm_documents current)) auth;
      _ ← service_prepare (Publication.generation candidate) cp auth;
      service_activate (Publication.generation candidate) cp auth
  end.

Definition is_string (v : value) : bool := match v with VStr _ => true | _ => false end.

Definition value_le (x y : value) : bool :=
  match x, y with VStr a, VStr b => negb (text_ltb b a) | _, _ => true end.

(** [sorted] of a set of metadata values: strings, or one absent value. *)
Definition sorted_values (l : list value) : result pub_exn (list value) :=
  if forallb is_string l || (length l <=? 1)%nat then Ok (order_by value_le l) else Err OtherFailure.

(** [PublicationService.reconcile]: orphan and inactive generations. *)
Definition service_reconcile (auth : option Principal) : prog (list value * list uuid) :=
  _ ← _manage auth;
  known ← on_authority inventory_states;
  inv ← on_vectors (list_documents None);
  serving ← on_authority active;
  _ ← match generation_of serving with
      | Some g => m ← reader_validate g false None None; mret tt
      | None => mret tt
      end;
  let physical := remove_dups ((λ r, get "generation" (vd_metadata r)) <$> inv) in
  orphans ← pure (sorted_values (List.filter (λ v, negb (bool_decide (v ∈ (λ k, VStr (cps k)) <$> known.*1))) physical));
  mret (orphans, List.filter (λ k, negb (bool_decide (Some k = generation_of serving))) known.*1).

End Service.
