(* ===== verification/Retrieval.v ===== *)
(** * Pinned retrieval and citations

    [documents/publication/retrieval.py]: a replica serves one generation from memory; requests
    pin it, search it and cite it. *)

From Stdlib Require Import ZArith NArith QArith Lia.
From stdpp Require Import base tactics list strings option gmap.
From S2P Require Import Prelude Json Contracts JobModels JobLedger ProviderAdmission Governance Authority AuthorityTheorems Storage Extraction.
From S2P Require Import DigestModels DigestPlanning DigestValidation DigestArtifacts DigestWorkflow DigestSteps.
From S2P Require Import Publication PublicationAuthority PublicationPlan PublicationAccepted Rag PublicationWorld PublicationService.

Local Open Scope Z_scope.

Record Citation := {
  citation_id : text; ci_generation : uuid; ci_record_id : uuid; ci_document_id : uuid; ci_version_id : uuid;
  ci_extraction_id : uuid; display_source : text; ci_physical_page : option Z; ci_span : Span;
  ci_path : list text; excerpt : text }.

Definition valid_citation (c : Citation) : bool :=
  (len (display_source c) <=? 512) && (len (excerpt c) <=? 4096) && valid_span (ci_span c).

Definition citation_json (c : Citation) : json :=
  JObj [("citation_id", JStr (citation_id c)); ("generation", juuid (ci_generation c));
        ("record_id", juuid (ci_record_id c)); ("document_id", juuid (ci_document_id c));
        ("document_version_id", juuid (ci_version_id c)); ("extraction_id", juuid (ci_extraction_id c));
        ("display_source", JStr (display_source c)); ("physical_page", jopt JInt (ci_physical_page c));
        ("span", span_json (ci_span c)); ("structural_path", JArr (JStr <$> ci_path c));
        ("excerpt", JStr (excerpt c)); ("provenance", jstr "validated");
        ("semantic_support", jstr "not_evaluated")].

(** An index per document: the positions of its records, and their BM25 index if any. *)
Abbreviation sparse_indexes I := (list (uuid * (list nat * option I))).

(** [PublicationReplica]: what [load] left. *)
Record replica (I : Type) := {
  expected_version : string; rp_snapshot : option (PublicationManifest * option I); rp_sparse : sparse_indexes I }.
Arguments expected_version {I}.
Arguments rp_snapshot {I}.
Arguments rp_sparse {I}.

Record PinnedRequest (I : Type) := {
  pin_manifest : PublicationManifest; pin_index : option I; pin_documents : list uuid;
  pin_authorization : option AuthorizationSnapshot; pin_sparse : sparse_indexes I }.
Arguments pin_manifest {I}.
Arguments pin_index {I}.
Arguments pin_documents {I}.
Arguments pin_authorization {I}.
Arguments pin_sparse {I}.

Definition same_set (l k : list uuid) : bool := subset_of l k && subset_of k l.

(** [str(generation)] of an optional generation. *)
Definition generation_text (g : option uuid) : string := default "None" g.

Definition generation_mismatch : pub_exn := PublicationError "publication_generation_mismatch".

Section Retrieval.
Context `{Runtime} `{Deployment} `{Decoder} `{Parses Plan} `{Parses ExtractionArtifact} `{Parses Checkpoint}.
Context `{Parses DigestArtifact} `{Parses Coverage} `{Parses PublicationManifest} `{EmbeddingModel}.
Context `{UnicodeData} `{Reranker} {T V I : Type} `{OS : !ObjectStore T} `{VS : !VectorStore V} `{BM : !Bm25 I}.
Variable self : reader.

Abbreviation prog := (prog (world T V)).

(** ** [load] *)

(** [BM25Okapi(tokens) if any(tokens) else None] *)
Definition bm25_of (corpus : list (list text)) : result pub_exn (option I) :=
  if has_tokens corpus then match bm25_build corpus with Some i => Ok (Some i) | None => Err OtherFailure end
  else Ok None.

Definition positions_of (m : PublicationManifest) (doc : uuid) : list nat :=
  List.filter (λ i, match pm_records m !! i with Some r => bool_decide (rr_document_id r = doc) | None => false end)
    (seq 0 (length (pm_records m))).

Definition isolated_index (m : PublicationManifest) (d : AcceptedDocument)
    : result pub_exn (uuid * (list nat * option I)) :=
  let positions := positions_of m (ad_document_id d) in
  index ← bm25_of (omap (λ i, corpus_of m !! i) positions);
  mret (ad_document_id d, (positions, index)).

(** [PublicationReplica.load]: the loaded replica. *)
Definition replica_load (r : replica I) : prog (replica I) :=
  serving ← on_authority active;
  _ ← demand (bool_decide (generation_text (generation_of serving) = expected_version r)) generation_mismatch;
  m ← match generation_of serving with
      | Some g => reader_validate self g false None None
      | None => throws (PublicationError "publication_unavailable")  (* no candidate has the generation [None] *)
      end;
  index ← pure (bm25_of (corpus_of m));
  isolated ← pure (map_result (isolated_index m) (pm_documents m));
  again ← on_authority active;
  _ ← demand (bool_decide (again = serving)) generation_mismatch;
  mret {| expected_version := expected_version r; rp_snapshot := Some (m, index); rp_sparse := isolated |}.

(** ** [pin] and [validate_pin] *)

Definition snapshot_ids (s : AuthorizationSnapshot) : list uuid := (λ x, x.1.1) <$> sn_documents s.

(** Every document of the snapshot is in the scope of the manifest. *)
Definition snapshot_scoped (s : AuthorizationSnapshot) (m : PublicationManifest) : bool :=
  forallb (λ x : uuid * Scope * Z, bool_decide (x.1.2 = pm_scope m)) (sn_documents s).

(** [PublicationReplica.pin] *)
Definition replica_pin (r : replica I) (ids : option (list uuid)) (auth : option AuthorizationSnapshot)
    : prog (PinnedRequest I) :=
  serving ← on_authority active;
  match rp_snapshot r with
  | None => throws generation_mismatch
  | Some (m, index) =>
      _ ← demand (bool_decide (generation_text (generation_of serving) = expected_version r)
                  && bool_decide (Some (Publication.generation m) = generation_of serving)) generation_mismatch;
      _ ← match auth with
          | None => _ ← reader_validate self (Publication.generation m) false None None; mret tt
          | Some s =>
              _ ← on_revalidate s;
              demand (match ids with Some ((_ :: _) as l) => same_set l (snapshot_ids s) | _ => false end
                      && snapshot_scoped s m) SecurityDenied
          end;
      let available := document_ids_of m in
      let selected := default available ids in
      _ ← demand (match ids with
                  | None => true
                  | Some l => negb (bool_decide (l = [])) && subset_of l available
                  end) scope_invalid;
      mret {| pin_manifest := m; pin_index := index; pin_documents := order_by id_le (remove_dups selected);
              pin_authorization := auth; pin_sparse := rp_sparse r |}
  end.

(** [PublicationReplica.ready] *)
Definition replica_ready (r : replica I) : prog bool := or_else (_ ← replica_pin r None None; mret true) (mret false).

(** [PublicationReplica.validate_pin] *)
Definition validate_pin (pin : PinnedRequest I) : prog PublicationManifest :=
  let m := pin_manifest pin in
  match pin_authorization pin with
  | None =>
      if oidc_jwt then throws SecurityDenied else reader_validate self (Publication.generation m) false None None
  | Some s =>
      _ ← on_revalidate s;
      _ ← demand (same_set (pin_documents pin) (snapshot_ids s) && snapshot_scoped s m) SecurityDenied;
      reader_validate self (Publication.generation m) false (Some (pin_documents pin)) (Some m)
  end.

(** ** [retrieve] *)

(** [{str(r.record_id): r for r in manifest.records}] *)
Definition by_id (m : PublicationManifest) : gmap text RetrievalRecord :=
  dict_of ((λ r, (cps (record_id r), r)) <$> pm_records m).

(** [by_id.get(metadata.get('record_id'))] *)
Definition record_of (m : PublicationManifest) (d : hit) : option RetrievalRecord :=
  match get "record_id" d with VStr t => by_id m !! t | _ => None end.

Definition as_hit (md : hit) (t : text) (score : Q) : hit :=
  <["score" := VFloat score]> (<["text" := VStr t]> md).

(** One match of the vector store. *)
Definition dense_hit (m : PublicationManifest) (selected : list uuid) (x : VectorMatch)
    : result pub_exn (option hit) :=
  match record_of m (vm_metadata x) with
  | None => Err provenance_invalid
  | Some r =>
      if in_documents selected (rr_document_id r) && bool_decide (vm_document x = rr_text r)
         && bool_decide (vm_metadata x = metadata_of m r)
      then Ok (if qlt (distance x) 1
               then Some (as_hit (vm_metadata x) (vm_document x) (max0 (binary64 (1 - distance x)))) else None)
      else Err provenance_invalid
  end.

Definition dense_hits (m : PublicationManifest) (selected : list uuid) (l : list VectorMatch)
    : result pub_exn (list hit) := (λ hs : list (option hit), omap (λ o, o) hs) <$> map_result (dense_hit m selected) l.

Definition sparse_hit (m : PublicationManifest) (x : nat * Q) : result pub_exn hit :=
  match pm_records m !! x.1 with
  | Some r => Ok (as_hit (metadata_of m r) (rr_text r) x.2)
  | None => Err OtherFailure
  end.

(** [(-score, str(record_id))] of ranked positions. *)
Definition ranked_le (m : PublicationManifest) (x y : nat * Q) : bool :=
  qlt y.2 x.2
  || Qeq_bool x.2 y.2
     && match pm_records m !! x.1, pm_records m !! y.1 with
        | Some a, Some b => id_le (record_id a) (record_id b)
        | _, _ => true
        end.

Fixpoint enumerate_scores (i : nat) (l : list Q) : list (nat * Q) :=
  match l with [] => [] | s :: l' => (i, s) :: enumerate_scores (S i) l' end.

(** [ranked.extend((positions[i], score) for i, score in enumerate(scores) if score > 0)] *)
Definition isolated_ranking (query : list text) (sparse : sparse_indexes I) (doc : uuid)
    : result pub_exn (list (nat * Q)) :=
  match dict_get doc sparse with
  | None => Err OtherFailure
  | Some (_, None) => Ok []
  | Some (positions, Some index) =>
      map_result (λ x : nat * Q, match positions !! x.1 with Some i => Ok (i, x.2) | None => Err OtherFailure end)
        (List.filter (λ x, qlt 0 x.2) (enumerate_scores 0 (get_scores index query)))
  end.

(** Without authorization: the positions of selected records with their scores. *)
Definition shared_ranking (m : PublicationManifest) (selected : list uuid) (scores : list Q)
    : result pub_exn (list (nat * Q)) :=
  map_result (λ i, match scores !! i with Some s => Ok (i, s) | None => Err OtherFailure end)
    (List.filter (λ i, match pm_records m !! i with Some r => in_documents selected (rr_document_id r) | None => false end)
       (seq 0 (length (pm_records m)))).

Definition sparse_hits (query : text) (pin : PinnedRequest I) (top_k : Z) : result pub_exn (list hit) :=
  let m := pin_manifest pin in
  let best l := take (Z.to_nat top_k) (order_by (ranked_le m) l) in
  match pin_authorization pin, pin_index pin with
  | Some _, _ =>
      rankings ← map_result (isolated_ranking (tokenize query) (pin_sparse pin)) (pin_documents pin);
      map_result (sparse_hit m) (best (concat rankings))
  | None, Some index =>
      ranking ← shared_ranking m (pin_documents pin) (get_scores index (tokenize query));
      map_result (sparse_hit m) (List.filter (λ x, qlt 0 x.2) (best ranking))
  | None, None => Ok []
  end.

(** An item keeps the text and all the metadata of its record. *)
Definition item_intact (m : PublicationManifest) (selected : list uuid) (item : hit) : bool :=
  match record_of m item with
  | None => false
  | Some r =>
      in_documents selected (rr_document_id r) && bool_decide (get "text" item = VStr (rr_text r))
      && forallb (λ kv, bool_decide (get kv.1 item = VStr (cps kv.2))) (vector_metadata m r)
  end.

Definition permitted (fused result_ : list hit) (top_k : Z) : bool :=
  (len result_ <=? top_k) && bool_decide (NoDup (get "record_id" <$> result_))
  && forallb (λ h, bool_decide (get "record_id" h ∈ get "record_id" <$> fused)) result_.

(** A [reranker] argument; by default [rerank]. *)
Definition reranking := text → list hit → Z → result pub_exn (list hit).
Definition default_reranker : reranking := λ query docs top_k, Ok (rerank query docs top_k).

(** [PublicationReplica.retrieve] *)
Definition replica_retrieve (query : text) (pin : PinnedRequest I) (top_k : Z) (reranker : option reranking)
    : prog (list hit) :=
  let m := pin_manifest pin in
  let selected := pin_documents pin in
  if bool_decide (selected = []) then mret []
  else
    _ ← demand ((1 <=? top_k) && (top_k <=? 32)) scope_invalid;
    _ ← validate_pin pin;
    vec ← pure (embed (rd_profile self) query);
    matches ← on_vectors (similarity_search vec top_k (Some (filter_for (Publication.generation m) (Some selected))));
    dense ← pure (dense_hits m selected matches);
    sparse ← pure (sparse_hits query pin top_k);
    let fused := fuse_rankings 60 dense sparse in
    if bool_decide (fused = []) then mret []
    else
      items ← pure (default default_reranker reranker query fused top_k);
      _ ← demand (permitted fused items top_k) provenance_invalid;
      _ ← demand (forallb (item_intact m selected) items) provenance_invalid;
      mret items.

(** ** [citations] *)

(** The evidence index of a document, built on its first citation. *)
Definition index_for (indexes : list (uuid * EvidenceIndex)) (d : AcceptedDocument) : prog EvidenceIndex :=
  match dict_get (ad_document_id d) indexes with
  | Some i => mret i
  | None =>
      a ← on_objects OtherFailure (read_artifact (ad_scope d) (ad_extraction d) LIMIT);
      _ ← demand (bool_decide (extraction_id a = ad_extraction_id d)
                  && bool_decide (document_id (document a) = ad_document_id d)) provenance_invalid;
      _ ← on_objects OtherFailure (inspect_object (ad_scope d) (doc_source (document a)) (max_source_bytes a));
      mret (build_index a)
  end.

Definition citation_number (n : nat) : text := cps "C" ++ dumps_int (Z.of_nat n).

(** The citation of one item, the [n]-th. *)
Definition cite (pin : PinnedRequest I) (n : nat) (indexes : list (uuid * EvidenceIndex)) (item : hit)
    : prog (Citation * list (uuid * EvidenceIndex)) :=
  let m := pin_manifest pin in
  match record_of m item with
  | None => throws provenance_invalid
  | Some r =>
      _ ← demand (in_documents (pin_documents pin) (rr_document_id r)
                  && bool_decide (get "generation" item = VStr (cps (Publication.generation m)))
                  && bool_decide (get "text" item = VStr (rr_text r))) provenance_invalid;
      d ← pure (match document_of m (rr_document_id r) with Some d => Ok d | None => Err OtherFailure end);
      index ← index_for indexes d;
      t ← pure (match index_resolve index (rr_evidence r) with Ok t => Ok t | Err _ => Err OtherFailure end);
      _ ← demand (bool_decide (t = rr_text r)) provenance_invalid;
      u ← pure (match dict_get (ev_block_id (rr_evidence r)) (idx_blocks index) with
                | Some (u, _) => Ok u
                | None => Err OtherFailure
                end);
      let c := {| citation_id := citation_number n; ci_generation := Publication.generation m;
                  ci_record_id := record_id r; ci_document_id := ad_document_id d; ci_version_id := ad_version_id d;
                  ci_extraction_id := ad_extraction_id d;
                  display_source := display_filename (document (idx_artifact index));
                  ci_physical_page := physical_page u; ci_span := ev_span (rr_evidence r);
                  ci_path := structural_path r; excerpt := t |} in
      _ ← demand (valid_citation c) OtherFailure;
      mret (c, (ad_document_id d, index) :: indexes)
  end.

Fixpoint cite_all (pin : PinnedRequest I) (n : nat) (indexes : list (uuid * EvidenceIndex)) (items : list hit)
    : prog (list Citation) :=
  match items with
  | [] => mret []
  | item :: items' =>
      '(c, indexes) ← cite pin n indexes item;
      cs ← cite_all pin (S n) indexes items';
      mret (c :: cs)
  end.

(** [PublicationReplica.citations] *)
Definition replica_citations (pin : PinnedRequest I) (items : list hit) : prog (list Citation) :=
  _ ← validate_pin pin;
  sanitized provenance_invalid (cite_all pin 1 [] items).

(** ** [annotations] *)

Definition annotation_json (d : AcceptedDocument) (dg : DigestArtifact) : json :=
  let conflicting := contradictions dg ≫= λ c, ct_affirmed c ++ ct_denied c in
  JObj [("document_id", juuid (ad_document_id d)); ("status", jstr (status_text (da_status dg)));
        ("qualifications", JArr (qualification_json <$> da_qualifications dg));
        ("contradictions", JArr (contradiction_json <$> contradictions dg));
        ("conflicting_findings",
          JArr (claim_json <$> List.filter (λ f, bool_decide (claim_id f ∈ conflicting)) (findings dg)));
        ("limitations", JArr (JStr <$> da_limitations dg)); ("open_questions", JArr (JStr <$> da_open_questions dg))].

(** [PublicationReplica.annotations] *)
Definition replica_annotations (pin : PinnedRequest I) : prog (list json) :=
  _ ← validate_pin pin;
  collect (λ d,
      dg ← on_objects OtherFailure (read_model (A := DigestArtifact) (ad_scope d) (ad_digest d) LIMIT);
      mret (annotation_json d dg))
    (List.filter (λ d, in_documents (pin_documents pin) (ad_document_id d)) (pm_documents (pin_manifest pin))).

End Retrieval.
