(* ===== verification/Analysis.v ===== *)
(** * Interactive analysis over cited sources

    [documents/publication/analysis.py]: retrieval, citations and annotations become one bounded
    request to a language model; the answer may only refer to the citations it was given. *)

From Stdlib Require Import ZArith NArith QArith Lia.
From stdpp Require Import base tactics list strings option gmap.
From S2P Require Import Prelude Json Contracts JobModels JobLedger ProviderAdmission Governance Authority AuthorityTheorems Storage Extraction.
From S2P Require Import DigestModels DigestPlanning DigestValidation DigestArtifacts DigestWorkflow DigestSteps.
From S2P Require Import Publication PublicationAuthority PublicationPlan PublicationAccepted Rag PublicationWorld PublicationService Retrieval.
From S2P Require Inference.

Local Open Scope Z_scope.

Record AnalysisRequest := { query : text; document_ids : list uuid }.

Definition valid_analysis_request (r : AnalysisRequest) : bool :=
  (1 <=? len (query r)) && (len (query r) <=? 4096)
  && (1 <=? len (document_ids r)) && (len (document_ids r) <=? 32).

Inductive EvidenceStatus := ev_available | ev_insufficient | ev_conflicting | ev_incomplete.
#[export] Instance EvidenceStatus_eq_dec : EqDecision EvidenceStatus.
Proof. solve_decision. Defined.

Record AnalysisOutput := { answer : text; evidence_status : EvidenceStatus; citation_ids : list text }.

(** What [analyze] returns. *)
Record Analysis := {
  an_generation : uuid; an_answer : text; an_status : EvidenceStatus; an_citations : list Citation }.

Definition no_evidence : text := cps "No relevant source evidence was retrieved.".

Definition citation_invalid : pub_exn := PublicationError "citation_invalid".

Section Analysis.
Context `{Runtime} `{Deployment} `{Decoder} `{Parses Plan} `{Parses ExtractionArtifact} `{Parses Checkpoint}.
Context `{Parses DigestArtifact} `{Parses Coverage} `{Parses PublicationManifest} `{Parses AnalysisOutput}.
Context `{EmbeddingModel} `{UnicodeData} `{Reranker}.
Context {T V I : Type} `{OS : !ObjectStore T} `{VS : !VectorStore V} `{BM : !Bm25 I}.
Variable self : reader.

Abbreviation prog := (prog (world T V)).

(** The instructions, and pydantic's schema of [AnalysisOutput]. *)
Variable SYSTEM : text.
Variable output_schema : json.

(** [provider.execute] or a governed executor: the text of the result. *)
Definition executor := Inference.GenerationRequest → prog text.

(** [DocumentAnalysis.__init__] *)
Record analyzer := {
  an_replica : replica I; an_provider : executor; an_capability : Inference.CapabilityProfile;
  an_input_bytes : Z; an_output_tokens : Z; an_reranker : option reranking }.

Definition make_analyzer (r : replica I) (provider : option executor) (cap : Inference.CapabilityProfile)
    (input_bytes output_tokens : Z) (rr : option reranking) : result pub_exn analyzer :=
  match provider with
  | Some e =>
      if Inference.max_output_tokens cap <? output_tokens then Err (PublicationError "publication_incompatible")
      else Ok {| an_replica := r; an_provider := e; an_capability := cap; an_input_bytes := input_bytes;
                 an_output_tokens := output_tokens; an_reranker := rr |}
  | None => Err (PublicationError "publication_incompatible")
  end.

(** The data of the request: the question, the citations and the derived annotations. *)
Definition analysis_data (q : text) (cs : list Citation) (derived : list json) : text :=
  canonical (JObj [("question", JStr q); ("ORIGINAL_SOURCE_EVIDENCE", JArr (citation_json <$> cs));
                   ("DERIVED_RETRIEVAL_MATERIAL", JArr derived)]).

Definition analysis_system : text := SYSTEM ++ [newline] ++ cps "OUTPUT_SCHEMA" ++ [newline] ++ canonical output_schema.

(** [len(canonical({...}).encode())] *)
Definition analysis_estimate (data : text) : Z :=
  len (canonical (JObj [("system", JStr analysis_system); ("data", JStr data); ("schema", output_schema)])).

Definition within_context (a : analyzer) (estimate : Z) : bool :=
  (estimate <=? an_input_bytes a)
  && (estimate + an_output_tokens a + Inference.overhead_tokens (an_capability a)
      + Inference.safety_tokens (an_capability a) <=? Inference.context_tokens (an_capability a)).

(** The citations the answer refers to, when it only refers to given ones. *)
Definition cited (cs : list Citation) (out : AnalysisOutput) : result pub_exn (list Citation) :=
  if bool_decide (NoDup (citation_ids out))
     && forallb (λ k, bool_decide (k ∈ citation_id <$> cs)) (citation_ids out)
     && negb (bool_decide (evidence_status out = ev_available) && bool_decide (citation_ids out = []))
  then match mapM (λ k, (dict_of ((λ c, (citation_id c, c)) <$> cs) : gmap text Citation) !! k) (citation_ids out) with
       | Some l => Ok l
       | None => Err OtherFailure
       end
  else Err citation_invalid.

(** [DocumentAnalysis.analyze] *)
Definition analyze (a : analyzer) (rq : AnalysisRequest) (auth : option AuthorizationSnapshot)
    (given : option executor) : prog Analysis :=
  _ ← demand (negb (oidc_jwt && (match auth, given with Some _, Some _ => false | _, _ => true end)))
        SecurityDenied;
  _ ← demand (valid_analysis_request rq) OtherFailure;
  pin ← replica_pin self (an_replica a) (Some (document_ids rq)) auth;
  hits ← replica_retrieve self (query rq) pin 8 (an_reranker a);
  cs ← replica_citations self pin hits;
  let g := Publication.generation (pin_manifest pin) in
  if (length cs =? 0)%nat then
    _ ← validate_pin self pin;
    mret {| an_generation := g; an_answer := no_evidence; an_status := ev_insufficient; an_citations := [] |}
  else
    derived ← replica_annotations self pin;
    let data := analysis_data (query rq) cs derived in
    _ ← demand (within_context a (analysis_estimate data)) (PublicationError "analysis_limit");
    reply ← default (an_provider a) given {|
      Inference.gr_system := analysis_system; Inference.gr_data := data; Inference.gr_role := "general";
      Inference.gr_capability := an_capability a; Inference.gr_output_tokens := an_output_tokens a;
      Inference.gr_schema := output_schema; Inference.gr_response_bytes := 12000; Inference.gr_total_seconds := inject_Z 60;
      Inference.gr_max_envelope := None |};
    out ← pure (match decode_model (A := AnalysisOutput) reply 12000 with
                | Ok o => Ok o
                | Err _ => Err citation_invalid
                end);
    chosen ← pure (cited cs out);
    _ ← validate_pin self pin;
    mret {| an_generation := g; an_answer := answer out; an_status := evidence_status out; an_citations := chosen |}.

End Analysis.
