(* ===== verification/PublicationRefinement.v ===== *)
(** * Publication methods are histories of the stores' own calls

    Whatever fails or interleaves, a method of the service, of a replica or of an analysis changes
    the activation authority, the object store and the security authority only by calls of them. *)

From Stdlib Require Import ZArith NArith QArith Lia.
From stdpp Require Import base tactics list strings option gmap.
From S2P Require Import Prelude Json Contracts JobModels JobLedger ProviderAdmission Governance Authority AuthorityTheorems Storage Extraction.
From S2P Require Import DigestModels DigestPlanning DigestValidation DigestArtifacts DigestWorkflow DigestSteps.
From S2P Require Import Publication PublicationAuthority PublicationPlan PublicationAccepted Rag PublicationWorld PublicationService Retrieval.

Local Open Scope Z_scope.

Create HintDb steady.

Section Follows.
Context `{Runtime} `{Deployment} {T V : Type} `{OS : !ObjectStore T} `{VS : !VectorStore V}.

(** [w'] is reached from [w] by calls of the stores. *)
Record follows (w w' : world T V) : Prop := {
  fl_authority : ∃ cs, w_authority w' = pub_run cs (w_authority w);
  fl_objects : ∃ cs, w_objects w' = store_run cs (w_objects w);
  fl_security : ∃ cs, w_security w' = foldl (sexec audit_capacity) (w_security w) cs;
  fl_outside : w_outside w' = w_outside w }.

#[export] Instance follows_preorder : PreOrder follows.
Proof.
  split.
  - intros w. split; [by exists []|by exists []|by exists []|done].
  - intros w1 w2 w3 [(a & Ea) (b & Eb) (c & Ec) Ed] [(a' & Ea') (b' & Eb') (c' & Ec') Ed'].
    split; [exists (a ++ a')|exists (b ++ b')|exists (c ++ c')|congruence].
    + rewrite Ea', Ea. unfold pub_run. by rewrite foldl_app.
    + rewrite Eb', Eb. unfold store_run. by rewrite foldl_app.
    + rewrite Ec', Ec. by rewrite foldl_app.
Qed.

Lemma follows_interfered w : follows w (interfered w).
Proof. split; simpl; eauto. Qed.

Lemma follows_published w w' key b :
  follows w w' → published (w_objects w) key = Some b → published (w_objects w') key = Some b.
Proof. intros [_ (cs & ->) _ _]. apply store_run_keeps. Qed.

Definition steady {A} (m : prog (world T V) A) : Prop := ∀ w, follows w (m w).2.

Lemma steady_run {A} (m : prog (world T V) A) w r w' : steady m → m w = (r, w') → follows w w'.
Proof. intros Hm E. pose proof (Hm w) as Hf. by rewrite E in Hf. Qed.

Lemma steady_ret {A} (a : A) : steady (mret a).
Proof. by intros w. Qed.

Lemma steady_throws {A} e : steady (throws (A := A) e).
Proof. by intros w. Qed.

Lemma steady_demand b e : steady (demand b e).
Proof. intros w. unfold demand. by destruct b. Qed.

Lemma steady_pure {A} (r : result pub_exn A) : steady (pure r).
Proof. by intros w. Qed.

Lemma steady_bind {A B} (m : prog (world T V) A) (f : A → prog (world T V) B) :
  steady m → (∀ a, steady (f a)) → steady (m ≫= f).
Proof.
  intros Hm Hf w. pose proof (Hm w) as H1. unfold mbind, prog_bind. destruct (m w) as [[a|e] w1]; [|done].
  simpl in H1. etrans; [exact H1|apply Hf].
Qed.

Lemma steady_sanitized {A} e (m : prog (world T V) A) : steady m → steady (sanitized e m).
Proof. intros Hm w. pose proof (Hm w) as H1. unfold sanitized. by destruct (m w) as [[a|[]] w1]. Qed.

Lemma steady_or_else {A} (m h : prog (world T V) A) : steady m → steady h → steady (or_else m h).
Proof.
  intros Hm Hh w. pose proof (Hm w) as H1. unfold or_else. destruct (m w) as [[a|e] w1]; [done|].
  simpl in H1. etrans; [exact H1|apply Hh].
Qed.

Lemma steady_each {A} (f : A → prog (world T V) unit) l : (∀ x, steady (f x)) → steady (each f l).
Proof.
  intros Hf. induction l as [|x l IH]; simpl; [apply steady_ret|]. apply steady_bind; [apply Hf|done].
Qed.

Lemma steady_collect {A B} (f : A → prog (world T V) B) l : (∀ x, steady (f x)) → steady (collect f l).
Proof.
  intros Hf. induction l as [|x l IH]; simpl; [apply steady_ret|].
  apply steady_bind; [apply Hf|]. intros y. apply steady_bind; [done|]. intros ys. apply steady_ret.
Qed.

(** A transaction that is a history of authority calls. *)
Definition is_history {A} (x : ptx A) : Prop := ∀ d, ∃ cs, (transaction x d).2 = pub_run cs d.

Lemma steady_authority {A} (x : ptx A) : is_history x → steady (on_authority x).
Proof.
  intros Hx w. unfold on_authority. destruct (Hx (w_authority (interfered w))) as (cs & E).
  destruct (transaction x _) as [r d]. simpl in *. subst.
  etrans; [apply follows_interfered|]. split; simpl; [by exists cs|by exists []|by exists []|done].
Qed.

Lemma steady_objects {A} e (h : handling A) : steady (on_objects e h).
Proof.
  intros w. unfold on_objects. destruct (run_on_history (m_view (now w)) h (w_objects (interfered w))) as (cs & E).
  destruct (run_on _ h _) as [r s]. simpl in E. subst.
  etrans; [apply follows_interfered|]. split; simpl; [by exists []|by exists cs|by exists []|done].
Qed.

Lemma steady_vectors {A} (f : V → result unit A * V) : steady (on_vectors f).
Proof.
  intros w. unfold on_vectors. destruct (f _) as [r v].
  etrans; [apply follows_interfered|]. split; simpl; [by exists []|by exists []|by exists []|done].
Qed.

Lemma steady_authorize p a : steady (on_authorize p a).
Proof.
  intros w. unfold on_authorize.
  destruct (authorize audit_capacity p a RNone (m_event (now w)) (m_clock (now w)) (w_security (interfered w)))
    as [r d] eqn:E.
  etrans; [apply follows_interfered|]. split; simpl; [by exists []|by exists []| |done].
  exists [CAuthorize p a RNone (m_event (now w)) (m_clock (now w))].
  simpl in E |- *. by rewrite E.
Qed.

Lemma steady_revalidate s : steady (on_revalidate s).
Proof. intros w. apply follows_interfered. Qed.

(** The calls of the authority. *)
Lemma history_gets {A} (f : pdb → A) : is_history (gets f).
Proof. intros d. by exists []. Qed.

Lemma history_candidate g : is_history (candidate g).
Proof.
  intros d. exists []. unfold candidate, transaction, mbind, tx_bind, gets, expect.
  by destruct (find_row _ _).
Qed.

Lemma history_register m ref : is_history (register_candidate m ref).
Proof. intros d. by exists [Register m ref]. Qed.

Lemma history_mark g st e : is_history (mark g st e).
Proof. intros d. by exists [Mark g st e]. Qed.

Lemma history_activate g e rb : is_history (activate g e rb).
Proof. intros d. by exists [Activate g e rb]. Qed.

End Follows.

#[export] Hint Resolve steady_ret steady_throws steady_demand steady_pure steady_objects steady_vectors
  steady_authorize steady_revalidate history_gets history_candidate history_register history_mark
  history_activate : steady.

(** Takes a method apart into its operations. *)
Ltac steady_step :=
  lazymatch goal with
  | |- steady (match ?x with _ => _ end) => destruct x
  | |- steady (_ ≫= _) => apply steady_bind; [|intros ?]
  | |- steady (sanitized _ _) => apply steady_sanitized
  | |- steady (or_else _ _) => apply steady_or_else
  | |- steady (each _ _) => apply steady_each; intros ?
  | |- steady (collect _ _) => apply steady_collect; intros ?
  | |- steady (on_authority _) => apply steady_authority; first [apply history_gets | solve [eauto with steady]]
  | |- steady _ => solve [eauto with steady]
  end.
Ltac solve_steady := cbv zeta; repeat (steady_step; cbv beta zeta).

Section Methods.
Context `{Runtime} `{Deployment} `{Decoder} `{Parses Plan} `{Parses ExtractionArtifact} `{Parses Checkpoint}.
Context `{Parses DigestArtifact} `{Parses Coverage} `{Parses PublicationManifest} `{EmbeddingModel}.
Context `{UnicodeData} `{Reranker} {T V I : Type} `{OS : !ObjectStore T} `{VS : !VectorStore V} `{BM : !Bm25 I}.
Variable self : reader.

Lemma steady_coded {A} (r : result digest_exn A) : steady (T := T) (V := V) (coded r).
Proof. apply steady_pure. Qed.
Hint Resolve steady_coded : steady.

Lemma steady_manifest g c : steady (T := T) (V := V) (reader_manifest self g c).
Proof. unfold reader_manifest. solve_steady. Qed.
Hint Resolve steady_manifest : steady.

Lemma steady_accepted_job id : steady (T := T) (V := V) (accepted_job self id).
Proof. apply steady_objects. Qed.
Hint Resolve steady_accepted_job : steady.

Lemma steady_rederived d : steady (T := T) (V := V) (rederived self d).
Proof. unfold rederived. solve_steady. Qed.
Hint Resolve steady_rederived : steady.

Lemma steady_validate g sparse ids pinned : steady (T := T) (V := V) (reader_validate (I := I) self g sparse ids pinned).
Proof. unfold reader_validate. solve_steady. Qed.
Hint Resolve steady_validate : steady.

Lemma steady_manage auth : steady (T := T) (V := V) (_manage self auth).
Proof. unfold _manage. solve_steady. Qed.
Hint Resolve steady_manage : steady.

Lemma steady_plan_publication ids base previous :
  steady (T := T) (V := V) (plan_publication self ids base previous).
Proof. unfold plan_publication. solve_steady. Qed.
Hint Resolve steady_plan_publication : steady.

Lemma steady_plan ids auth : steady (T := T) (V := V) (service_plan (I := I) self ids auth).
Proof. unfold service_plan. solve_steady. Qed.
Hint Resolve steady_plan : steady.

Lemma steady_write m cp auth r : steady (T := T) (V := V) (write_record self m cp auth r).
Proof. unfold write_record. solve_steady. Qed.
Hint Resolve steady_write : steady.

Lemma steady_prepare g cp auth : steady (T := T) (V := V) (service_prepare (I := I) self g cp auth).
Proof. unfold service_prepare. solve_steady. Qed.
Hint Resolve steady_prepare : steady.

Lemma steady_switch g e rb cp auth : steady (T := T) (V := V) (switch_to self g e rb cp auth).
Proof. unfold switch_to. solve_steady. Qed.
Hint Resolve steady_switch : steady.

Lemma steady_activate g cp auth : steady (T := T) (V := V) (service_activate (I := I) self g cp auth).
Proof. unfold service_activate. solve_steady. Qed.
Hint Resolve steady_activate : steady.

Lemma steady_rollback g e cp auth : steady (T := T) (V := V) (service_rollback (I := I) self g e cp auth).
Proof. unfold service_rollback. solve_steady. Qed.

Lemma steady_revoke ids cp auth : steady (T := T) (V := V) (service_revoke (I := I) self ids cp auth).
Proof. unfold service_revoke. solve_steady. Qed.

Lemma steady_reconcile auth : steady (T := T) (V := V) (service_reconcile (I := I) self auth).
Proof. unfold service_reconcile. solve_steady. Qed.

Lemma steady_load r : steady (T := T) (V := V) (replica_load (I := I) self r).
Proof. unfold replica_load. solve_steady. Qed.

Lemma steady_pin r ids auth : steady (T := T) (V := V) (replica_pin (I := I) self r ids auth).
Proof. unfold replica_pin. solve_steady. Qed.

Lemma steady_validate_pin pin : steady (T := T) (V := V) (validate_pin (I := I) self pin).
Proof. unfold validate_pin. solve_steady. Qed.
Hint Resolve steady_validate_pin : steady.

Lemma steady_retrieve q pin k rr : steady (T := T) (V := V) (replica_retrieve (I := I) self q pin k rr).
Proof. unfold replica_retrieve. solve_steady. Qed.

Lemma steady_index_for indexes d : steady (T := T) (V := V) (index_for indexes d).
Proof. unfold index_for. solve_steady. Qed.
Hint Resolve steady_index_for : steady.

Lemma steady_cite pin n indexes item : steady (T := T) (V := V) (cite (I := I) pin n indexes item).
Proof. unfold cite. solve_steady. Qed.
Hint Resolve steady_cite : steady.

Lemma steady_cite_all pin n indexes items : steady (T := T) (V := V) (cite_all (I := I) pin n indexes items).
Proof. revert n indexes. induction items as [|x l IH]; intros n indexes; simpl; solve_steady. Qed.
Hint Resolve steady_cite_all : steady.

Lemma steady_citations pin items : steady (T := T) (V := V) (replica_citations (I := I) self pin items).
Proof. unfold replica_citations. solve_steady. Qed.

Lemma steady_annotations pin : steady (T := T) (V := V) (replica_annotations (I := I) self pin).
Proof. unfold replica_annotations. solve_steady. Qed.

(** ** Histories of methods *)

Inductive method :=
| MPlan (ids : list uuid) (auth : option Principal)
| MPrepare (g : uuid) (cp : checkpoints) (auth : option Principal)
| MActivate (g : uuid) (cp : checkpoints) (auth : option Principal)
| MRollback (g : uuid) (expected : ActivePublication) (cp : checkpoints) (auth : option Principal)
| MRevoke (ids : list uuid) (cp : checkpoints) (auth : option Principal)
| MReconcile (auth : option Principal)
| MLoad (r : replica I)
| MPin (r : replica I) (ids : option (list uuid)) (auth : option AuthorizationSnapshot)
| MRetrieve (q : text) (pin : PinnedRequest I) (top_k : Z) (rr : option reranking)
| MCitations (pin : PinnedRequest I) (items : list hit)
| MAnnotations (pin : PinnedRequest I).

Definition perform (w : world T V) (c : method) : world T V :=
  match c with
  | MPlan ids auth => (service_plan (I := I) self ids auth w).2
  | MPrepare g cp auth => (service_prepare (I := I) self g cp auth w).2
  | MActivate g cp auth => (service_activate (I := I) self g cp auth w).2
  | MRollback g e cp auth => (service_rollback (I := I) self g e cp auth w).2
  | MRevoke ids cp auth => (service_revoke (I := I) self ids cp auth w).2
  | MReconcile auth => (service_reconcile (I := I) self auth w).2
  | MLoad r => (replica_load self r w).2
  | MPin r ids auth => (replica_pin self r ids auth w).2
  | MRetrieve q pin k rr => (replica_retrieve self q pin k rr w).2
  | MCitations pin items => (replica_citations self pin items w).2
  | MAnnotations pin => (replica_annotations self pin w).2
  end.

Lemma perform_follows w c : follows w (perform w c).
Proof.
  destruct c; cbn [perform].
  - apply steady_plan. - apply steady_prepare. - apply steady_activate. - apply steady_rollback.
  - apply steady_revoke. - apply steady_reconcile. - apply steady_load. - apply steady_pin.
  - apply steady_retrieve. - apply steady_citations. - apply steady_annotations.
Qed.

Lemma performs_follow cs w : follows w (foldl perform w cs).
Proof. revert w. induction cs as [|c cs IH]; intros w; [done|]. simpl. etrans; [apply perform_follows|apply IH]. Qed.

End Methods.
