(* ===== verification/RetrievalTheorems.v ===== *)
(** * Retrieval is confined to the pinned, authorized sources

    What [retrieve] and [citations] return, whatever the vector store, the rankings, the reranker
    and the other processes do. *)

From Stdlib Require Import ZArith NArith QArith Lia.
From stdpp Require Import base tactics list strings option gmap.
From S2P Require Import Prelude Json Contracts ContractFacts JobModels JobLedger ProviderAdmission Governance Authority AuthorityTheorems Storage Extraction.
From S2P Require Import DigestModels DigestPlanning DigestValidation DigestArtifacts DigestWorkflow DigestSteps.
From S2P Require Import Publication PublicationAuthority PublicationPlan PublicationAccepted PublicationSource Rag PublicationWorld PublicationService Retrieval PublicationRefinement.

Local Open Scope Z_scope.

(** ** Dictionaries *)

Lemma dict_of_inv {K A} `{Countable K} (l : list (K * A)) k x : dict_of l !! k = Some x → (k, x) ∈ l.
Proof. unfold dict_of. intros E%elem_of_list_to_map_2. by apply elem_of_reverse. Qed.

Lemma record_of_elem m d r :
  record_of m d = Some r → r ∈ pm_records m ∧ get "record_id" d = VStr (cps (record_id r)).
Proof.
  unfold record_of, by_id. destruct (get "record_id" d) as [t| | | |]; [|done..].
  intros (r0 & Er & Hr)%dict_of_inv%list_elem_of_fmap. injection Er as -> ->. done.
Qed.

Lemma document_of_elem m k d : document_of m k = Some d → d ∈ pm_documents m ∧ ad_document_id d = k.
Proof. unfold document_of. intros [Hd E%bool_decide_eq_true]%find_row_Some. done. Qed.

Lemma same_set_elem l k x : same_set l k = true → x ∈ l ↔ x ∈ k.
Proof.
  unfold same_set, subset_of. intros [H1 H2]%andb_true_iff. rewrite forallb_elem in H1, H2.
  split; intros Hx; [specialize (H1 x Hx)|specialize (H2 x Hx)]; by apply bool_decide_eq_true in H1 || apply bool_decide_eq_true in H2.
Qed.

Section Served.
Context `{Runtime} `{Deployment} `{Decoder} `{Parses Plan} `{Parses ExtractionArtifact} `{Parses Checkpoint}.
Context `{Parses DigestArtifact} `{Parses Coverage} `{Parses PublicationManifest} `{EmbeddingModel}.
Context `{UnicodeData} `{Reranker} {T V I : Type} `{OS : !ObjectStore T} `{VS : !VectorStore V} `{BM : !Bm25 I}.
Variable self : reader.

(** An item is a record of the manifest, in the selected documents, with its exact text and all
    its metadata. *)
Definition served (m : PublicationManifest) (selected : list uuid) (item : hit) : Prop :=
  ∃ r, r ∈ pm_records m ∧ rr_document_id r ∈ selected ∧ get "text" item = VStr (rr_text r) ∧
       Forall (λ kv : string * string, get kv.1 item = VStr (cps kv.2)) (vector_metadata m r).

Lemma item_intact_served m selected item : item_intact m selected item = true → served m selected item.
Proof.
  unfold item_intact. destruct (record_of m item) as [r|] eqn:Er; [|done].
  apply record_of_elem in Er as [Hr _]. rewrite !andb_true_iff. unfold in_documents.
  intros [[F1%bool_decide_eq_true F2%bool_decide_eq_true] F3]. exists r. split_and!; try done.
  apply Forall_forall. intros kv Hkv. rewrite forallb_elem in F3. exact (bool_decide_eq_true_1 _ (F3 kv Hkv)).
Qed.

(** The snapshot of a pin is valid when [validate_pin] starts, for exactly its documents. *)
Definition authorized (pin : PinnedRequest I) (w : world T V) : Prop :=
  ∀ s, pin_authorization pin = Some s →
  revalidate s (m_clock (now w)) (w_security (interfered w)) = Ok tt ∧
  same_set (pin_documents pin) (snapshot_ids s) = true ∧ snapshot_scoped s (pin_manifest pin) = true.

Lemma on_revalidate_Ok s w x w' :
  on_revalidate (T := T) (V := V) s w = (Ok x, w') →
  revalidate s (m_clock (now w)) (w_security (interfered w)) = Ok tt ∧ w' = interfered w.
Proof. unfold on_revalidate. destruct (revalidate _ _ _) as [[]|]; [|done]. by intros [= _ <-]. Qed.

Lemma validate_pin_Ok pin w m w' :
  validate_pin (T := T) (V := V) self pin w = (Ok m, w') →
  authorized pin w ∧ (pin_authorization pin = None → oidc_jwt = false).
Proof.
  unfold validate_pin, authorized. destruct (pin_authorization pin) as [s|].
  - intros E. apply prog_bind_Ok in E as ([] & w1 & E1 & E). apply on_revalidate_Ok in E1 as [E1 ->].
    apply prog_bind_Ok in E as ([] & w2 & E2 & _). apply demand_Ok in E2 as [[]%andb_true_iff _].
    split; [|done]. by intros ? [= <-].
  - destruct oidc_jwt; [done|]. split; [done|done].
Qed.

Lemma retrieve_Ok q pin k rr w items w' :
  replica_retrieve (T := T) (V := V) self q pin k rr w = (Ok items, w') → pin_documents pin ≠ [] →
  authorized pin w ∧ 1 ≤ k ≤ 32 ∧ len items ≤ k ∧ NoDup (get "record_id" <$> items) ∧
  Forall (served (pin_manifest pin) (pin_documents pin)) items ∧ (pin_authorization pin = None → oidc_jwt = false).
Proof.
  intros E Hne. unfold replica_retrieve in E. cbv zeta in E. rewrite bool_decide_eq_false_2 in E by done.
  apply prog_bind_Ok in E as (? & ? & E1 & E). apply demand_Ok in E1 as [[K1%Z.leb_le K2%Z.leb_le]%andb_true_iff ->].
  apply prog_bind_Ok in E as (m & w1 & E1 & E). apply validate_pin_Ok in E1 as [Ha Ho].
  do 4 (apply prog_bind_Ok in E as (? & ? & _ & E)).
  destruct (bool_decide _).
  - apply prog_ret_Ok in E as [-> _]. split_and!; try done; [unfold len; simpl; lia|apply NoDup_nil_2].
  - apply prog_bind_Ok in E as (its & ? & _ & E).
    apply prog_bind_Ok in E as ([] & ? & E1 & E). apply demand_Ok in E1 as [E1 ->].
    apply prog_bind_Ok in E as ([] & ? & E2 & E). apply demand_Ok in E2 as [E2 ->].
    apply prog_ret_Ok in E as [-> _]. unfold permitted in E1. rewrite !andb_true_iff in E1.
    destruct E1 as [[L1%Z.leb_le L2%bool_decide_eq_true] _]. split_and!; try done.
    apply Forall_forall. intros item Hi. rewrite forallb_elem in E2. by apply item_intact_served, E2.
Qed.

(** C21: Retrieval is confined.  Whatever the vector store and the sparse indexes answer, whatever
    the reranker does to the fused items, and whatever other processes do meanwhile: a retrieval
    that returns items returns at most [top_k] of them, no record twice, each with the exact text
    and the metadata of a record of the pinned manifest in the selected documents; with an
    authorization, its snapshot was valid in this call, for exactly the selected documents and
    the scope of the manifest; without one, the deployment does not authenticate. *)
Theorem retrieval_confined q pin k rr w items w' :
  replica_retrieve (T := T) (V := V) self q pin k rr w = (Ok items, w') → items ≠ [] →
  len items ≤ k ∧ NoDup (get "record_id" <$> items) ∧
  Forall (served (pin_manifest pin) (pin_documents pin)) items ∧
  match pin_authorization pin with
  | None => oidc_jwt = false
  | Some s => revalidate s (m_clock (now w)) (w_security (interfered w)) = Ok tt ∧
              same_set (pin_documents pin) (snapshot_ids s) = true ∧ snapshot_scoped s (pin_manifest pin) = true
  end.
Proof.
  intros E Hne. assert (pin_documents pin ≠ []) as Hd.
  { intros Hd. unfold replica_retrieve in E. cbv zeta in E. rewrite bool_decide_eq_true_2 in E by done.
    apply prog_ret_Ok in E as [-> _]. done. }
  destruct (retrieve_Ok _ _ _ _ _ _ _ E Hd) as (Ha & _ & ? & ? & ? & Ho). split_and!; try done.
  destruct (pin_authorization pin) as [s|] eqn:Es; [by apply Ha|by apply Ho].
Qed.

(** ** Revocation *)

(** The state of the security authority when a method validates a pin. *)
Lemma revoked_pin p docs a eid clk cs cs1 c cs2 s d doc pin (w : world T V) :
  snapshot audit_capacity p docs a eid clk (srun audit_capacity cs) = (Ok s, d) → doc ∈ docs →
  revokes audit_capacity p doc (foldl (sexec audit_capacity) d cs1) c →
  w_security w = foldl (sexec audit_capacity) d (cs1 ++ c :: cs2) →
  pin_authorization pin = Some s → ¬ authorized pin w.
Proof.
  intros Es Hdoc Hrv Ew Hp Ha. destruct (Ha s Hp) as (Hr & _).
  simpl in Hr. rewrite Ew, <-foldl_app, <-app_assoc in Hr. simpl in Hr.
  destruct (revocation_final audit_capacity p docs a eid clk (m_clock (now w)) cs cs1 c
              (cs2 ++ m_security (w_outside w (w_time w))) s d doc Es Hdoc Hrv) as [e He].
  by rewrite He in Hr.
Qed.

(** C22: Revocation reaches pinned requests.  After a tombstone of one of its documents, the
    disabling of its principal, or the revocation of the grant it depended on, a request pinned
    with an earlier authorization snapshot gets no items, no citations and no annotations any
    more: each method raises, whatever happens in between - including a new grant. *)
Theorem revoked_never_served p docs a eid clk cs cs1 c cs2 s d doc pin w :
  snapshot audit_capacity p docs a eid clk (srun audit_capacity cs) = (Ok s, d) → doc ∈ docs →
  revokes audit_capacity p doc (foldl (sexec audit_capacity) d cs1) c →
  w_security w = foldl (sexec audit_capacity) d (cs1 ++ c :: cs2) →
  pin_authorization pin = Some s → pin_documents pin ≠ [] →
  (∀ q k rr, ∃ e w', replica_retrieve (T := T) (V := V) self q pin k rr w = (Err e, w')) ∧
  (∀ items, ∃ e w', replica_citations (T := T) (V := V) self pin items w = (Err e, w')) ∧
  ∃ e w', replica_annotations (T := T) (V := V) self pin w = (Err e, w').
Proof.
  intros Es Hdoc Hrv Ew Hp Hne.
  pose proof (revoked_pin p docs a eid clk cs cs1 c cs2 s d doc pin w Es Hdoc Hrv Ew Hp) as Hno.
  split_and!.
  - intros q k rr. destruct (replica_retrieve self q pin k rr w) as [[items|e] w'] eqn:E; [|by exists e, w'].
    apply retrieve_Ok in E as (Ha & _); done.
  - intros items. destruct (replica_citations self pin items w) as [[l|e] w'] eqn:E; [|by exists e, w'].
    unfold replica_citations in E. apply prog_bind_Ok in E as (m & w1 & E & _). by apply validate_pin_Ok in E as [].
  - destruct (replica_annotations self pin w) as [[l|e] w'] eqn:E; [|by exists e, w'].
    unfold replica_annotations in E. apply prog_bind_Ok in E as (m & w1 & E & _). by apply validate_pin_Ok in E as [].
Qed.

End Served.
