(* ===== verification/PublicationTheorems.v ===== *)
(** * A generation is activated only when it was validated

    What [PublicationReader.validate] establishes, and that [activate] and [rollback] return only
    after it, for a caller with the right to manage publications. *)

From Stdlib Require Import ZArith NArith QArith Lia.
From stdpp Require Import base tactics list strings option gmap.
From S2P Require Import Prelude Json Contracts ContractFacts JobModels JobLedger ProviderAdmission Governance Authority AuthorityTheorems Storage Extraction.
From S2P Require Import DigestModels DigestPlanning DigestValidation DigestArtifacts DigestWorkflow DigestSteps.
From S2P Require Import Publication PublicationAuthority PublicationPlan PublicationAccepted Rag PublicationWorld PublicationService Retrieval.
From S2P Require Import PublicationRefinement RetrievalTheorems.

Local Open Scope Z_scope.

(** ** Dictionaries of as many entries as the list *)

Lemma list_to_map_size {K A} `{Countable K} (l : list (K * A)) :
  (size (list_to_map l : gmap K A) ≤ length l)%nat.
Proof.
  induction l as [|[k x] l IH]; [done|]. simpl.
  destruct ((list_to_map l : gmap K A) !! k) as [y|] eqn:E.
  - rewrite map_size_insert_Some by done. lia.
  - rewrite map_size_insert_None by done. lia.
Qed.

Lemma dict_of_full {K A} `{Countable K} (l : list (K * A)) :
  size (dict_of l) = length l → NoDup l.*1.
Proof.
  intros Hs. unfold dict_of in Hs. rewrite <-length_reverse in Hs.
  assert (NoDup (reverse l).*1) as Hnd; [|by rewrite fmap_reverse, reverse_Permutation in Hnd]. revert Hs.
  induction (reverse l) as [|[k x] l' IH]; intros Hs; [apply NoDup_nil_2|]. simpl in *.
  pose proof (list_to_map_size l') as Hle.
  destruct ((list_to_map l' : gmap K A) !! k) as [y|] eqn:E.
  - rewrite map_size_insert_Some in Hs by done. lia.
  - rewrite map_size_insert_None in Hs by done. apply NoDup_cons. split; [|apply IH; lia].
    by apply not_elem_of_list_to_map.
Qed.

Lemma dict_of_lookup {K A} `{Countable K} (l : list (K * A)) k x :
  NoDup l.*1 → (k, x) ∈ l → dict_of l !! k = Some x.
Proof.
  intros Hnd Hin. unfold dict_of. apply elem_of_list_to_map_1; [|by apply elem_of_reverse].
  by rewrite fmap_reverse, reverse_Permutation.
Qed.

Section Validated.
Context `{Runtime} `{Deployment} `{Decoder} `{Parses Plan} `{Parses ExtractionArtifact} `{Parses Checkpoint}.
Context `{Parses DigestArtifact} `{Parses Coverage} `{Parses PublicationManifest} `{EmbeddingModel}.
Context `{UnicodeData} {T V I : Type} `{OS : !ObjectStore T} `{VS : !VectorStore V} `{BM : !Bm25 I}.
Variable self : reader.
Implicit Types w : world T V.

(** ** The vector inventory *)

(** The rows are exactly those of the records. *)
Definition exact_rows (m : PublicationManifest) (rs : list RetrievalRecord) (inv : list VectorDocument) : Prop :=
  (∀ x, x ∈ inv → ∃ r, r ∈ rs ∧ vd_document x = rr_text r ∧ vd_metadata x = metadata_of m r) ∧
  (NoDup (record_id <$> rs) →
   length inv = length rs ∧ ∀ r, r ∈ rs → ∃ x, x ∈ inv ∧ vd_document x = rr_text r ∧ vd_metadata x = metadata_of m r).

Lemma wanted_rows_keys rs :
  NoDup (record_id <$> rs) → NoDup (((λ r, cps (record_id r)) : RetrievalRecord → text) <$> rs).
Proof.
  intros Hnd. rewrite (list_fmap_compose record_id cps). apply NoDup_fmap_2; [|done].
  intros x y. apply cps_inj.
Qed.

Lemma inventory_matches_exact m rs inv : inventory_matches m rs inv = true → exact_rows m rs inv.
Proof.
  unfold inventory_matches. rewrite andb_true_iff. intros [Hlen%Nat.eqb_eq Hrows].
  destruct (mapM _ inv) as [rows|] eqn:Em; [|done]. apply bool_decide_eq_true in Hrows.
  apply mapM_Some_1 in Em.
  assert (∀ k row, (k, row) ∈ rows ↔ ∃ x, x ∈ inv ∧ row_key (vd_metadata x) = Some k ∧ row = (vd_document x, vd_metadata x)) as Hin.
  { clear -Em. intros k row. induction Em as [|x [k' row'] inv rows Hx _ IH].
    - split; [by intros ?%not_elem_of_nil|by intros (x & Hx & _); apply not_elem_of_nil in Hx].
    - destruct (row_key (vd_metadata x)) as [kx|] eqn:Ek; [|done]. injection Hx as <- <-.
      rewrite elem_of_cons, IH. split.
      + intros [[= -> ->]|(y & Hy & Hk)]; [exists x; split_and!; [by left|done|done]|exists y; split; [by right|done]].
      + intros (y & [->|Hy]%elem_of_cons & Hk & ->); [left; congruence|right; by exists y]. }
  assert (length rows = length inv) as Hl by (symmetry; by eapply Forall2_length).
  assert (NoDup rows.*1) as Hnd by (apply dict_of_full; rewrite Hrows; lia).
  split.
  - intros x Hx. assert (∃ k, row_key (vd_metadata x) = Some k) as [k Hk].
    { clear -Em Hx. induction Em as [|y row inv rows Hy _ IH]; [by apply not_elem_of_nil in Hx|].
      apply elem_of_cons in Hx as [->|Hx]; [|by apply IH]. destruct (row_key (vd_metadata y)) as [k|]; [by exists k|done]. }
    assert (wanted_rows m rs !! k = Some (vd_document x, vd_metadata x)) as Hw.
    { rewrite <-Hrows. apply dict_of_lookup; [done|]. apply Hin. by exists x. }
    apply dict_of_inv, list_elem_of_fmap in Hw as (r & Er & Hr). injection Er as -> -> ->. by exists r.
  - intros Hids. assert (size (wanted_rows m rs) = length rs) as Hsz.
    { unfold wanted_rows, dict_of. rewrite map_size_list_to_map, length_reverse, length_fmap; [done|].
      rewrite fmap_reverse, reverse_Permutation, <-list_fmap_compose. by apply wanted_rows_keys. }
    split; [lia|]. intros r Hr.
    assert (wanted_rows m rs !! cps (record_id r) = Some (rr_text r, metadata_of m r)) as Hw.
    { apply dict_of_lookup; [rewrite <-list_fmap_compose; by apply wanted_rows_keys|].
      apply list_elem_of_fmap. by exists r. }
    rewrite <-Hrows in Hw. apply dict_of_inv, Hin in Hw as (x & Hx & _ & [= E1 E2]). by exists x.
Qed.

(** ** [validate] *)

(** [d] was accepted again between [w] and [w'], with these records. *)
Definition rederives (w w' : world T V) (d : AcceptedDocument) (rs : list RetrievalRecord) : Prop :=
  ∃ wa wb a dg pl, follows w wa ∧ follows wb w' ∧ accepted_job self (ad_job_id d) wa = (Ok (d, a, dg, pl), wb) ∧
    records (rd_profile self) d a pl (included (da_coverage dg)) = Ok rs.

(** The records of the manifest's documents: all of them, when the manifest is valid. *)
Definition listed_records (m : PublicationManifest) : list RetrievalRecord :=
  List.filter (λ r, in_documents (document_ids_of m) (rr_document_id r)) (pm_records m).

Lemma filter_all {A} (f : A → bool) l : (∀ x, x ∈ l → f x = true) → List.filter f l = l.
Proof.
  induction l as [|x l IH]; intros Hl; [done|]. simpl. rewrite (Hl x) by (by left). f_equal. apply IH.
  intros y Hy. apply Hl. by right.
Qed.

Lemma listed_all m : valid_manifest_model m = true → listed_records m = pm_records m.
Proof.
  unfold valid_manifest_model. rewrite !andb_true_iff. intros [[_ Hb] _]. apply filter_all. intros r Hr.
  rewrite forallb_elem in Hb. specialize (Hb r Hr). unfold record_belongs in Hb.
  destruct (document_of m (rr_document_id r)) as [d|] eqn:Ed; [|done]. apply document_of_elem in Ed as [Hd <-].
  apply bool_decide_eq_true_2. unfold document_ids_of. by apply list_elem_of_fmap_2.
Qed.

(** Between [w] and [w'] the generation [g] was complete: its stored manifest [m] has the
    reader's scope and profile, its records are those derived again from the accepted jobs of its
    documents, and the vector store holds exactly their rows. *)
Record generation_valid (g : uuid) (m : PublicationManifest) (w w' : world T V) : Prop := {
  gv_generation : Publication.generation m = g;
  gv_scope : pm_scope m = rd_scope self;
  gv_profile : pm_profile m = rd_profile self;
  gv_stored : ∃ wr ref data, follows w wr ∧ follows wr w' ∧ published (w_objects wr) (ref_key ref) = Some data ∧
                sha256_hex data = ref_sha256 ref ∧ decode_model data LIMIT = Ok m ∧
                ∃ r, r ∈ candidates (w_authority wr) ∧ c_generation r = g ∧ c_manifest r = ref ∧ c_base r = pm_base m;
  gv_records : ∃ rss, Forall2 (rederives w w') (pm_documents m) rss ∧ by_record (concat rss) = by_record (listed_records m);
  gv_rows : ∃ wv inv v, follows w wv ∧ follows wv w' ∧
              list_documents (Some (filter_for g None)) (w_vectors wv) = (Ok inv, v) ∧ exact_rows m (listed_records m) inv }.

Lemma on_authority_Ok {A} (x : ptx A) w a w' :
  on_authority (T := T) (V := V) x w = (Ok a, w') →
  x (w_authority (interfered w)) = Ok (a, w_authority w') ∧ w_objects w' = w_objects (interfered w).
Proof.
  unfold on_authority, transaction. destruct (x _) as [[b d]|e]; [|done]. by intros [= -> <-].
Qed.

Lemma read_object_Ok e sc ref limit w data w' :
  on_objects (T := T) (V := V) e (read_object sc ref limit) w = (Ok data, w') →
  published (w_objects w') (ref_key ref) = Some data ∧ sha256_hex data = ref_sha256 ref ∧
  w_authority w' = w_authority (interfered w).
Proof.
  unfold on_objects, read_object. cbn [run_on]. destruct (read sc ref limit _) as [x s1] eqn:Er.
  destruct x as [b|e']; [|done]. intros [= -> <-]. simpl.
  pose proof (read_same (w_objects (interfered w)) sc ref limit (ref_key ref)) as Hs. rewrite Er in Hs. simpl in Hs.
  apply read_Ok in Er as (Hp & Hsha & _). by rewrite Hs.
Qed.

Lemma candidate_Ok g d x d' :
  candidate g d = Ok (x, d') →
  d' = d ∧ ∃ r, r ∈ candidates d ∧ c_generation r = g ∧ x = (c_manifest r, c_state r, c_base r).
Proof.
  unfold candidate. intros E. apply tx_bind_Ok in E as (cs & d1 & E1 & E). apply gets_Ok in E1 as [-> ->].
  apply tx_bind_Ok in E as (row & d1 & E1 & E). apply expect_Ok in E1 as [E1 ->]. apply mret_Ok in E as [-> ->].
  split; [done|]. apply find_row_Some in E1 as [Hr Hg]. exists row.
  split_and!; [done|by apply bool_decide_eq_true in Hg|done].
Qed.

Lemma follows_candidate w w' (r : candidate_row) :
  follows w w' → r ∈ candidates (w_authority w) →
  ∃ r', r' ∈ candidates (w_authority w') ∧ c_generation r' = c_generation r ∧ c_manifest r' = c_manifest r ∧ c_base r' = c_base r.
Proof.
  intros [(cs & ->) _ _ _]. generalize (w_authority w) as d. revert r.
  induction cs as [|c cs IH]; intros r d Hr; [by exists r|]. simpl.
  assert (∃ r1, r1 ∈ candidates (pub_exec d c) ∧ c_generation r1 = c_generation r ∧ c_manifest r1 = c_manifest r ∧
            c_base r1 = c_base r) as (r1 & Hr1 & E1 & E2 & E3).
  { destruct c as [m ref|g st e|g ex rb]; cbn [pub_exec].
    - destruct (transaction (register_candidate m ref) d) as [[x|e] d'] eqn:E; simpl.
      + apply transaction_Ok in E. unfold register_candidate in E.
        apply tx_bind_Ok in E as (cs' & d1 & E1 & E). tx_inv E1.
        destruct (find_row _ _) as [row|]; unfold _active in E; tx_inv E; simpl; [by exists r|].
        exists r. split; [by apply elem_of_app; left|done].
      + apply transaction_Err in E as [_ ->]. by exists r.
    - destruct (transaction (mark g st e) d) as [[x|e'] d'] eqn:E; simpl.
      + apply transaction_Ok in E. unfold mark in E. tx_inv E. simpl.
        exists (if markable g r then set_candidate st e r else r). split; [|by destruct (markable g r)].
        apply elem_of_update_where. by exists r.
      + apply transaction_Err in E as [_ ->]. by exists r.
    - destruct (transaction (activate g ex rb) d) as [[x|e'] d'] eqn:E; simpl.
      + apply transaction_Ok, activate_Ok in E as (_ & [(-> & _)|(_ & _ & ->)]); [by exists r|]. simpl.
        exists (if of_generation g r then set_candidate CandidateState.ACCEPTED None r else r).
        split; [|by destruct (of_generation g r)]. apply elem_of_update_where. by exists r.
      + apply transaction_Err in E as [_ ->]. by exists r. }
  destruct (IH r1 (pub_exec d c) Hr1) as (r2 & Hr2 & F1 & F2 & F3). exists r2. split_and!; [done|congruence..].
Qed.

(** ** [manifest] *)

Lemma manifest_Ok g c w m w' :
  reader_manifest (T := T) (V := V) self g c w = (Ok m, w') →
  Publication.generation m = g ∧ pm_scope m = rd_scope self ∧ (c = true → pm_profile m = rd_profile self) ∧
  ∃ wr ref data, follows w wr ∧ follows wr w' ∧ published (w_objects wr) (ref_key ref) = Some data ∧
    sha256_hex data = ref_sha256 ref ∧ decode_model data LIMIT = Ok m ∧
    ∃ r, r ∈ candidates (w_authority wr) ∧ c_generation r = g ∧ c_manifest r = ref ∧ c_base r = pm_base m.
Proof.
  intros E. unfold reader_manifest in E. apply sanitized_Ok in E.
  apply prog_bind_Ok in E as ([[ref st] base] & w1 & E1 & E).
  pose proof (steady_run _ _ _ _ (steady_authority _ (history_candidate g)) E1) as Hf1.
  apply on_authority_Ok in E1 as [E1 _]. apply candidate_Ok in E1 as (Ea & r & Hr & Hg & [= -> -> ->]).
  apply prog_bind_Ok in E as (data & w2 & E2 & E).
  pose proof (steady_run _ _ _ _ (steady_objects _ _) E2) as Hf2. apply read_object_Ok in E2 as (Hp & Hsha & _).
  apply prog_bind_Ok in E as (m' & w3 & E3 & E). apply pure_Ok in E3 as [E3 ->].
  destruct (decode_model data LIMIT) as [x|] eqn:Ed; [|done]. injection E3 as ->.
  apply prog_bind_Ok in E as ([] & w4 & E4 & E). apply demand_Ok in E4 as [E4 ->].
  apply prog_ret_Ok in E as [-> ->]. rewrite !andb_true_iff, !bool_decide_eq_true in E4.
  destruct E4 as [[[Hb Hgen] Hsc] Hprof]. split_and!; [done|done| |].
  - intros ->. simpl in Hprof. by apply bool_decide_eq_true in Hprof.
  - rewrite <-Ea in Hr. destruct (follows_candidate _ _ _ Hf2 Hr) as (r' & Hr' & F1 & F2 & F3).
    exists w2, (c_manifest r), data. split_and!; [by etrans|done|done|done|done|].
    exists r'. split_and!; [done|congruence|done|congruence].
Qed.

(** ** [validate] of a whole generation *)

Lemma accepted_records_Ok d w rs w' :
  rederived (T := T) (V := V) self d w = (Ok rs, w') → rederives w w' d rs.
Proof.
  unfold rederived. intros E. apply prog_bind_Ok in E as ([[[d' a] dg] pl] & w1 & E1 & E). simpl in E.
  apply prog_bind_Ok in E as ([] & w2 & E2 & E). apply demand_Ok in E2 as [E2%bool_decide_eq_true ->].
  apply pure_Ok in E as [E ->]. subst. by exists w, w1, a, dg, pl.
Qed.

Lemma rederives_widen w0 w1 w2 w3 d rs :
  follows w0 w1 → follows w2 w3 → rederives w1 w2 d rs → rederives w0 w3 d rs.
Proof.
  intros F1 F2 (wa & wb & a & dg & pl & G1 & G2 & Hrest). exists wa, wb, a, dg, pl. split_and!; [by etrans|by etrans|apply Hrest..].
Qed.

Lemma collect_rederived ds w rss w' :
  collect (rederived self) ds w = (Ok rss, w') → Forall2 (rederives w w') ds rss ∧ follows w w'.
Proof.
  revert w rss. induction ds as [|d ds IH]; intros w rss E.
  - apply prog_ret_Ok in E as [-> ->]. by split; [constructor|].
  - cbn [collect] in E. apply prog_bind_Ok in E as (rs & w1 & E1 & E).
    pose proof (steady_run _ _ _ _ (steady_rederived self d) E1) as Hf. apply accepted_records_Ok in E1.
    apply prog_bind_Ok in E as (rss' & w2 & E2 & E). apply prog_ret_Ok in E as [-> ->].
    apply IH in E2 as [Hall Hf2]. split; [|by etrans]. constructor.
    + by eapply rederives_widen; [| |exact E1].
    + eapply Forall2_impl; [exact Hall|]. intros d' rs'. by apply rederives_widen.
Qed.

Lemma validate_Ok g sparse w m w' :
  reader_validate (T := T) (V := V) (I := I) self g sparse None None w = (Ok m, w') → generation_valid g m w w'.
Proof.
  intros E. unfold reader_validate in E. apply sanitized_Ok in E. cbv zeta in E. cbn [default] in E.
  apply prog_bind_Ok in E as (m' & w1 & E1 & E).
  pose proof (steady_run _ _ _ _ (steady_manifest self g true) E1) as Hf1.
  apply manifest_Ok in E1 as (Hg & Hsc & Hprof & wr & ref & data & Hwr & Hwr1 & Hst).
  apply prog_bind_Ok in E as ([] & w2 & E2 & E). apply demand_Ok in E2 as [_ ->].
  apply prog_bind_Ok in E as ([] & w2 & E2 & E). apply demand_Ok in E2 as [_ ->].
  apply prog_bind_Ok in E as (rss & w2 & E2 & E). apply collect_rederived in E2 as [Hrss Hf2].
  apply prog_bind_Ok in E as ([] & w3 & E3 & E). apply demand_Ok in E3 as [Hrec ->].
  apply prog_bind_Ok in E as (inv & w4 & E4 & E).
  pose proof (steady_run _ _ _ _ (steady_vectors _) E4) as Hf4.
  apply prog_bind_Ok in E as ([] & w5 & E5 & E). apply demand_Ok in E5 as [Hinv ->].
  apply prog_bind_Ok in E as ([] & w6 & E6 & E). apply prog_ret_Ok in E as [-> ->].
  assert (w6 = w4) as ->.
  { destruct (sparse && has_tokens (corpus_of m')); [by apply demand_Ok in E6 as [_ ->]|by apply prog_ret_Ok in E6 as [_ ->]]. }
  rewrite filter_all in Hrss by (intros d Hd; apply bool_decide_eq_true_2, list_elem_of_fmap_2, Hd).
  split; try done.
  - by apply Hprof.
  - exists wr, ref, data. split_and!; [done| |apply Hst..].
    etrans; [exact Hwr1|]. etrans; [exact Hf2|exact Hf4].
  - exists rss. split; [|by apply bool_decide_eq_true in Hrec].
    eapply Forall2_impl; [exact Hrss|]. intros d rs. by apply rederives_widen.
  - apply inventory_matches_exact in Hinv. unfold on_vectors in E4.
    destruct (list_documents _ (w_vectors (interfered w2))) as [x v] eqn:El. destruct x as [inv'|]; [|done].
    injection E4 as -> E4. exists (interfered w2), inv, v. split_and!; [|rewrite <-E4|done|done].
    + etrans; [exact Hf1|]. etrans; [exact Hf2|]. apply follows_interfered.
    + split; simpl; [by exists []|by exists []|by exists []|done].
Qed.

(** ** Who may activate *)

(** The caller was allowed to manage publications at some point between [w] and [w']. *)
Definition managed (auth : option Principal) (w w' : world T V) : Prop :=
  match auth with
  | None => oidc_jwt = false
  | Some p => tenant (p_scope p) = tenant (rd_scope self) ∧
      ∃ wm clk eid d, follows w wm ∧ follows wm w' ∧
        authorize audit_capacity p PUBLICATION_MANAGE RNone eid clk (w_security wm) = (Ok tt, d)
  end.

Lemma manage_Ok auth w x w' : _manage (T := T) (V := V) self auth w = (Ok x, w') → managed auth w w'.
Proof.
  unfold _manage, managed. destruct auth as [p|].
  - intros E. apply prog_bind_Ok in E as ([] & w1 & E1 & E).
    apply demand_Ok in E as [E ->]. apply bool_decide_eq_true in E. split; [done|]. unfold on_authorize in E1.
    destruct (authorize _ _ _ _ _ _ (w_security (interfered w))) as [r d] eqn:Ea. destruct r as [[]|]; [|done].
    injection E1 as <-. exists (interfered w), (m_clock (now w)), (m_event (now w)), d.
    split_and!; [apply follows_interfered| |done].
    split; simpl; [by exists []|by exists []| |done].
    exists [CAuthorize p PUBLICATION_MANAGE RNone (m_event (now w)) (m_clock (now w))].
    simpl in Ea |- *. by rewrite Ea.
  - by destruct oidc_jwt.
Qed.

Lemma managed_widen auth w0 w1 w2 w3 : follows w0 w1 → follows w2 w3 → managed auth w1 w2 → managed auth w0 w3.
Proof.
  intros F1 F2. destruct auth as [p|]; [|done]. intros (Ht & wm & clk & eid & d & G1 & G2 & Ha).
  split; [done|]. exists wm, clk, eid, d. split_and!; [by etrans|by etrans|done].
Qed.

Lemma switch_Ok g expected rb cp auth w r w' :
  switch_to (T := T) (V := V) self g expected rb cp auth w = (Ok r, w') →
  follows w w' ∧ managed auth w w' ∧ r = {| generation_of := Some g; epoch := epoch expected + 1 |} ∧
  active_row (w_authority w') = r.
Proof.
  intros E. pose proof (steady_run _ _ _ _ (steady_switch self g expected rb cp auth) E) as Hf.
  unfold switch_to in E. apply prog_bind_Ok in E as ([] & w1 & E1 & E). apply pure_Ok in E1 as [_ ->].
  apply prog_bind_Ok in E as ([] & w1 & E1 & E). apply manage_Ok in E1.
  apply prog_bind_Ok in E as (a & w2 & E2 & E).
  pose proof (steady_run _ _ _ _ (steady_authority _ (history_activate g expected rb)) E2) as Hf2.
  apply on_authority_Ok in E2 as [E2 _].
  apply prog_bind_Ok in E as ([] & w3 & E3 & E). apply pure_Ok in E3 as [_ ->]. apply prog_ret_Ok in E as [-> ->].
  apply activate_Ok in E2 as [-> Hd]. split_and!; [done| |done|].
  - by eapply managed_widen; [| |exact E1].
  - destruct Hd as [(-> & Ha & _)|(_ & _ & ->)]; done.
Qed.

(** C23: Only validated generations are activated.  When [activate] or [rollback] returns, whatever
    other processes did meanwhile: the caller was allowed to manage the publications of the
    reader's tenant (or the deployment does not authenticate); before the switch the generation
    was complete - its stored, digest-checked manifest is the registered one, its records are
    exactly those derived again from the accepted jobs of its documents, and the vector store held
    exactly their texts and metadata; and then it is what serves, under the next epoch. *)
Theorem activation_validated g expected cp auth w r w' :
  service_activate (T := T) (V := V) (I := I) self g cp auth w = (Ok r, w') ∨
  service_rollback (T := T) (V := V) (I := I) self g expected cp auth w = (Ok r, w') →
  managed auth w w' ∧ generation_of r = Some g ∧ active_row (w_authority w') = r ∧
  ∃ m wa wb, follows w wa ∧ generation_valid g m wa wb ∧ follows wb w'.
Proof.
  intros [E|E].
  - unfold service_activate in E. apply prog_bind_Ok in E as ([] & w1 & E1 & E).
    pose proof (steady_run _ _ _ _ (steady_manage self auth) E1) as Hf1.
    apply prog_bind_Ok in E as (m & w2 & E2 & E).
    pose proof (steady_run _ _ _ _ (steady_validate self g true None None) E2) as Hf2. apply validate_Ok in E2.
    apply prog_bind_Ok in E as ([[ref st] base] & w3 & E3 & E).
    pose proof (steady_run _ _ _ _ (steady_authority _ (history_candidate g)) E3) as Hf3.
    apply switch_Ok in E as (Hf & Hm & -> & Hact). split_and!; [|done|done|].
    + eapply managed_widen; [| |exact Hm]; [|done]. etrans; [exact Hf1|]. etrans; [exact Hf2|exact Hf3].
    + exists m, w1, w2. split_and!; [done|done|by etrans].
  - unfold service_rollback in E. apply prog_bind_Ok in E as ([] & w1 & E1 & E).
    pose proof (steady_run _ _ _ _ (steady_manage self auth) E1) as Hf1.
    apply prog_bind_Ok in E as (m & w2 & E2 & E).
    pose proof (steady_run _ _ _ _ (steady_validate self g true None None) E2) as Hf2. apply validate_Ok in E2.
    apply switch_Ok in E as (Hf & Hm & -> & Hact). split_and!; [|done|done|].
    + eapply managed_widen; [| |exact Hm]; [|done]. etrans; [exact Hf1|exact Hf2].
    + by exists m, w1, w2.
Qed.

End Validated.
