(* ===== verification/Citations.v ===== *)
(** * Citations quote the stored sources

    What a citation that [PublicationReplica.citations] returns refers to, and that an analysis
    only cites such. *)

From Stdlib Require Import ZArith NArith QArith Lia.
From stdpp Require Import base tactics list strings option gmap.
From S2P Require Import Prelude Json Contracts ContractFacts JobModels JobLedger ProviderAdmission Governance Authority AuthorityTheorems Storage Extraction.
From S2P Require Import DigestModels DigestPlanning DigestValidation DigestArtifacts DigestWorkflow DigestSteps.
From S2P Require Import Publication PublicationAuthority PublicationPlan PublicationAccepted PublicationSource Rag PublicationWorld PublicationService Retrieval Analysis.
From S2P Require Import PublicationRefinement RetrievalTheorems.

Local Open Scope Z_scope.

Section Citations.
Context `{Runtime} `{Deployment} `{Decoder} `{Parses Plan} `{Parses ExtractionArtifact} `{Parses Checkpoint}.
Context `{Parses DigestArtifact} `{Parses Coverage} `{Parses PublicationManifest} `{Parses AnalysisOutput}.
Context `{EmbeddingModel} `{UnicodeData} `{Reranker}.
Context {T V I : Type} `{OS : !ObjectStore T} `{VS : !VectorStore V} `{BM : !Bm25 I}.
Variable self : reader.
Implicit Types w : world T V.

(** The stored bytes of the document's extraction, verified by their digest, are the artifact. *)
Definition artifact_stored (w : world T V) (d : AcceptedDocument) (a : ExtractionArtifact) : Prop :=
  ∃ data, published (w_objects w) (ref_key (ad_extraction d)) = Some data ∧
          sha256_hex data = ref_sha256 (ad_extraction d) ∧ deserialize data LIMIT = Ok a ∧
          extraction_id a = ad_extraction_id d ∧ document_id (document a) = ad_document_id d.

Lemma artifact_stored_follows w w' d a : follows w w' → artifact_stored w d a → artifact_stored w' d a.
Proof.
  intros Hf (data & Hp & Hrest). exists data. split; [|done]. by eapply follows_published.
Qed.

(** The citation of an item: its record, quoted from the stored artifact of its document. *)
Definition quotes (m : PublicationManifest) (selected : list uuid) (w : world T V) (item : hit) (c : Citation) : Prop :=
  ∃ r d a, r ∈ pm_records m ∧ get "record_id" item = VStr (cps (record_id r)) ∧
    get "text" item = VStr (rr_text r) ∧ rr_document_id r ∈ selected ∧
    d ∈ pm_documents m ∧ ad_document_id d = rr_document_id r ∧ artifact_stored w d a ∧
    index_resolve (build_index a) (rr_evidence r) = Ok (excerpt c) ∧ excerpt c = rr_text r ∧
    ci_generation c = Publication.generation m ∧ ci_record_id c = record_id r ∧ ci_document_id c = ad_document_id d ∧
    ci_version_id c = ad_version_id d ∧ ci_extraction_id c = ad_extraction_id d ∧
    ci_span c = ev_span (rr_evidence r) ∧ display_source c = display_filename (document a).

Lemma quotes_follows m selected w w' item c : follows w w' → quotes m selected w item c → quotes m selected w' item c.
Proof.
  intros Hf (r & d & a & E1 & E2 & E3 & E4 & E5 & E6 & E7 & E8). exists r, d, a.
  split_and!; try done; try apply E8. by eapply artifact_stored_follows.
Qed.

(** The indexes built so far are those of stored artifacts of the manifest's documents. *)
Definition indexes_ok (m : PublicationManifest) (w : world T V) (ix : list (uuid * EvidenceIndex)) : Prop :=
  ∀ k i, dict_get k ix = Some i →
  ∃ d a, document_of m k = Some d ∧ i = build_index a ∧ artifact_stored w d a.

Lemma indexes_ok_follows m w w' ix : follows w w' → indexes_ok m w ix → indexes_ok m w' ix.
Proof.
  intros Hf Hix k i Hk. destruct (Hix k i Hk) as (d & a & Ed & Ei & Ha). exists d, a.
  split_and!; [done..|]. by eapply artifact_stored_follows.
Qed.

(** A read that returns. *)
Lemma read_artifact_Ok e sc ref limit w a w' :
  on_objects (T := T) (V := V) e (read_artifact sc ref limit) w = (Ok a, w') →
  ∃ data, published (w_objects w') (ref_key ref) = Some data ∧ sha256_hex data = ref_sha256 ref ∧
          deserialize data limit = Ok a.
Proof.
  unfold on_objects. destruct (run_on _ _ _) as [[x|x] s1] eqn:Er; [|done]. intros [= -> <-]. simpl.
  unfold read_artifact in Er. apply run_bind_Ok in Er as (data & s2 & E1 & E2).
  apply run_lifted in E2 as [Ed ->]. unfold read_object in E1. cbn [run_on] in E1.
  destruct (read sc ref limit _) as [[x|x] s3] eqn:E3; [|done]. apply run_lifted in E1 as [E1 <-]. injection E1 as ->.
  pose proof (read_same (w_objects (interfered w)) sc ref limit (ref_key ref)) as Hs. rewrite E3 in Hs. simpl in Hs.
  apply read_Ok in E3 as (Hp & Hsha & _). exists data. split_and!; [by rewrite Hs|done|done].
Qed.

Lemma index_for_Ok m ix d w i w' :
  index_for (T := T) (V := V) ix d w = (Ok i, w') → document_of m (ad_document_id d) = Some d →
  indexes_ok m w ix → ∃ a, i = build_index a ∧ artifact_stored w' d a.
Proof.
  unfold index_for. intros E Hd Hix. destruct (dict_get (ad_document_id d) ix) as [j|] eqn:Ej.
  - apply prog_ret_Ok in E as [-> ->]. destruct (Hix _ _ Ej) as (d' & a & Ed & -> & Ha). exists a.
    rewrite Hd in Ed. by injection Ed as <-.
  - apply prog_bind_Ok in E as (a & w1 & E1 & E). apply read_artifact_Ok in E1 as (data & Hp & Hsha & Hde).
    apply prog_bind_Ok in E as ([] & w2 & E2 & E). apply demand_Ok in E2 as [E2 ->].
    rewrite andb_true_iff, !bool_decide_eq_true in E2. destruct E2 as [Ex Edoc].
    apply prog_bind_Ok in E as (x & w3 & E3 & E). apply prog_ret_Ok in E as [-> ->].
    exists a. split; [done|]. exists data. split_and!; try done.
    eapply follows_published; [|exact Hp]. eapply steady_run; [|exact E3]. apply steady_objects.
Qed.

Lemma cite_Ok pin n ix item w c ix' w' :
  cite (T := T) (V := V) (I := I) pin n ix item w = (Ok (c, ix'), w') → indexes_ok (pin_manifest pin) w ix →
  quotes (pin_manifest pin) (pin_documents pin) w' item c ∧ indexes_ok (pin_manifest pin) w' ix' ∧
  citation_id c = citation_number n.
Proof.
  intros E Hix. unfold cite in E. cbv zeta in E. set (m := pin_manifest pin) in *.
  destruct (record_of m item) as [r|] eqn:Er; [|done]. apply record_of_elem in Er as [Hr Hid].
  apply prog_bind_Ok in E as ([] & w1 & E1 & E). apply demand_Ok in E1 as [E1 ->].
  rewrite !andb_true_iff in E1. unfold in_documents in E1. destruct E1 as [[Hsel _] Htext].
  apply bool_decide_eq_true in Hsel, Htext.
  apply prog_bind_Ok in E as (d & w1 & E1 & E). apply pure_Ok in E1 as [E1 ->].
  destruct (document_of m (rr_document_id r)) as [d'|] eqn:Ed; [|done]. injection E1 as ->.
  pose proof (document_of_elem _ _ _ Ed) as [Hd Hdid].
  apply prog_bind_Ok in E as (i & w1 & E1 & E). pose proof (steady_run _ _ _ _ (steady_index_for ix d) E1) as Hf.
  apply (index_for_Ok m) in E1 as (a & -> & Ha); [|by rewrite Hdid|done].
  apply prog_bind_Ok in E as (t & w2 & E1 & E). apply pure_Ok in E1 as [E1 ->].
  destruct (index_resolve (build_index a) (rr_evidence r)) as [t'|] eqn:Et; [|done]. injection E1 as ->.
  apply prog_bind_Ok in E as ([] & w2 & E1 & E). apply demand_Ok in E1 as [E1%bool_decide_eq_true ->].
  apply prog_bind_Ok in E as (u & w2 & E2 & E). apply pure_Ok in E2 as [_ ->].
  apply prog_bind_Ok in E as ([] & w2 & E2 & E). apply demand_Ok in E2 as [_ ->].
  apply prog_ret_Ok in E as [[= -> ->] ->]. simpl. split_and!; [|intros k i Hk|done].
  - exists r, d, a. split_and!; done.
  - cbn [dict_get] in Hk. destruct (dict_get k ix) as [j|] eqn:Ej.
    + injection Hk as <-. exact (indexes_ok_follows _ _ _ _ Hf Hix k j Ej).
    + case_bool_decide as Ek; [|done]. injection Hk as <-. exists d, a. split_and!; [|done|done].
      by rewrite <-Ek, Hdid.
Qed.

Lemma cite_all_Ok pin n ix items w cs w' :
  cite_all (T := T) (V := V) (I := I) pin n ix items w = (Ok cs, w') → indexes_ok (pin_manifest pin) w ix →
  Forall2 (quotes (pin_manifest pin) (pin_documents pin) w') items cs ∧
  citation_id <$> cs = citation_number <$> seq n (length items).
Proof.
  revert n ix w cs. induction items as [|item items IH]; intros n ix w cs E Hix.
  - apply prog_ret_Ok in E as [-> ->]. by split; [constructor|].
  - cbn [cite_all] in E. apply prog_bind_Ok in E as ([c ix1] & w1 & E1 & E).
    apply cite_Ok in E1 as (Hq & Hix1 & Hn); [|done].
    apply prog_bind_Ok in E as (cs1 & w2 & E2 & E). apply prog_ret_Ok in E as [-> ->].
    pose proof (steady_run _ _ _ _ (steady_cite_all pin (S n) ix1 items) E2) as Hf.
    apply IH in E2 as [Hall Hids]; [|done]. split.
    + constructor; [|done]. by eapply quotes_follows.
    + cbn [length seq]. by rewrite !fmap_cons, Hn, Hids.
Qed.

Lemma citations_Ok pin items w cs w' :
  replica_citations (T := T) (V := V) self pin items w = (Ok cs, w') →
  Forall2 (quotes (pin_manifest pin) (pin_documents pin) w') items cs ∧
  citation_id <$> cs = citation_number <$> seq 1 (length items) ∧ authorized pin w.
Proof.
  unfold replica_citations. intros E. apply prog_bind_Ok in E as (m & w1 & E1 & E).
  apply validate_pin_Ok in E1 as [Ha _]. apply sanitized_Ok in E. apply cite_all_Ok in E as [? ?]; done.
Qed.

(** Citations quote the sources.  When [citations] returns for the items of a pinned request,
    there is one citation per item, numbered C1, C2, ... in order; each refers to a record of the
    pinned manifest in the selected documents; its excerpt is the record's text, which is exactly
    what the record's evidence resolves to in the extraction artifact that the object store holds
    under the document's reference, with that reference's digest. *)
Theorem citations_quote_sources pin items w cs w' :
  replica_citations (T := T) (V := V) self pin items w = (Ok cs, w') →
  Forall2 (quotes (pin_manifest pin) (pin_documents pin) w') items cs ∧
  citation_id <$> cs = citation_number <$> seq 1 (length items) ∧ authorized pin w.
Proof. apply citations_Ok. Qed.

(** ** Analyses *)

Variables (SYSTEM : text) (output_schema : json).

Lemma dict_of_fmap_elem (cs : list Citation) k c :
  (dict_of ((λ c, (citation_id c, c)) <$> cs) : gmap text Citation) !! k = Some c → c ∈ cs ∧ citation_id c = k.
Proof. intros (c' & Ec & Hc)%dict_of_inv%list_elem_of_fmap. by injection Ec as -> ->. Qed.

Lemma cited_Ok cs out l :
  cited cs out = Ok l →
  citation_id <$> l = citation_ids out ∧ NoDup (citation_ids out) ∧ Forall (λ c, c ∈ cs) l ∧
  (evidence_status out = ev_available → l ≠ []).
Proof.
  unfold cited. destruct (_ && _) eqn:Ec; [|done]. rewrite !andb_true_iff, negb_true_iff in Ec.
  destruct Ec as [[Hnd%bool_decide_eq_true _] Hav].
  destruct (mapM _ (citation_ids out)) as [l'|] eqn:Em; [|done]. intros [= ->].
  apply mapM_Some_1 in Em. assert (citation_id <$> l = citation_ids out) as Hids.
  { clear -Em. induction Em as [|k c ks l Hk _ IH]; [done|]. apply dict_of_fmap_elem in Hk as [_ <-]. by csimpl; rewrite IH. }
  split_and!; try done.
  - clear -Em. induction Em as [|k c ks l Hk _ IH]; constructor; [|done]. by apply dict_of_fmap_elem in Hk as [].
  - intros Hs ->. apply andb_false_iff in Hav as [Hav|Hav]; apply bool_decide_eq_false in Hav; [done|].
    by rewrite <-Hids in Hav.
Qed.

(** What [pin] hands out. *)
Lemma pin_Ok (r : replica I) ids auth w pin w' :
  replica_pin (T := T) (V := V) self r ids auth w = (Ok pin, w') →
  pin_authorization pin = auth ∧ (∃ index, rp_snapshot r = Some (pin_manifest pin, index)) ∧
  (∀ l k, ids = Some l → k ∈ pin_documents pin ↔ k ∈ l) ∧
  Forall (λ k, k ∈ document_ids_of (pin_manifest pin)) (pin_documents pin) ∧
  (∀ s x, auth = Some s → x ∈ sn_documents s → x.1.2 = pm_scope (pin_manifest pin)).
Proof.
  unfold replica_pin. intros E. apply prog_bind_Ok in E as (serving & w1 & _ & E).
  destruct (rp_snapshot r) as [[m index]|] eqn:Es; [|done].
  apply prog_bind_Ok in E as ([] & w2 & _ & E). apply prog_bind_Ok in E as ([] & w3 & E3 & E). cbv zeta in E.
  apply prog_bind_Ok in E as ([] & w4 & E4 & E). apply demand_Ok in E4 as [E4 ->].
  apply prog_ret_Ok in E as [-> ->]. simpl.
  assert (∀ k l, k ∈ order_by id_le (remove_dups l) ↔ k ∈ l) as Hin.
  { intros k l. rewrite (elem_of_Permutation_proper k _ _ (order_by_Permutation id_le (remove_dups l))).
    apply elem_of_remove_dups. }
  split_and!; [done|by exists index| | |].
  - intros l k ->. apply Hin.
  - apply Forall_forall. intros k Hk. apply (proj1 (Hin _ _)) in Hk. destruct ids as [l|]; [|exact Hk]. simpl in Hk.
    apply andb_true_iff in E4 as [_ E4]. unfold subset_of in E4. rewrite forallb_elem in E4.
    exact (bool_decide_eq_true_1 _ (E4 k Hk)).
  - intros s x -> Hx. apply prog_bind_Ok in E3 as ([] & w5 & _ & E3).
    apply demand_Ok in E3 as [[_ E3]%andb_true_iff _]. unfold snapshot_scoped in E3.
    rewrite forallb_elem in E3. exact (bool_decide_eq_true_1 _ (E3 x Hx)).
Qed.

(** What an analysis that returns establishes: its request was pinned to the snapshot of the
    replica, and its citations quote what was stored when they were made, after the call began
    and (unless the language model's executor rewinds the stores) before it returned. *)
Record analysis_made (a : analyzer (T := T) (V := V) (I := I)) (rq : AnalysisRequest) (auth : option AuthorizationSnapshot)
    (w : world T V) (x : Analysis) (w' : world T V) (pin : PinnedRequest I) (wc : world T V) : Prop := {
  am_authorization : pin_authorization pin = auth;
  am_snapshot : ∃ index, rp_snapshot (an_replica a) = Some (pin_manifest pin, index);
  am_selected : ∀ k, k ∈ pin_documents pin ↔ k ∈ document_ids rq;
  am_scoped : ∀ s d, auth = Some s → d ∈ sn_documents s → d.1.2 = pm_scope (pin_manifest pin);
  am_generation : an_generation x = Publication.generation (pin_manifest pin);
  am_distinct : NoDup (citation_id <$> an_citations x);
  am_began : follows w wc;
  am_quotes : Forall (λ c, ∃ item, quotes (pin_manifest pin) (pin_documents pin) wc item c) (an_citations x);
  am_available : an_status x = ev_available → an_citations x ≠ [];
  am_authorized : ∃ wr we, follows w wr ∧ authorized pin wr ∧ authorized pin we ∧ follows we w' }.

(** Answers only cite sources.  Whatever the language model replies and the vector store
    returns: when an analysis returns, its generation is the one the replica pinned, and its
    citations have distinct identifiers and each is the quotation, from a stored artifact, of a
    record of the pinned manifest in a requested document; an answer of status "available" has
    citations; a given authorization was valid when the request was pinned and again after the
    model had replied. *)
Lemma answers_cite_sources (a : analyzer (T := T) (V := V) (I := I)) rq auth given w x w' :
  analyze self SYSTEM output_schema a rq auth given w = (Ok x, w') →
  ∃ pin wc, analysis_made a rq auth w x w' pin wc ∧
    ((∀ g, steady (default (an_provider a) given g)) → follows wc w').
Proof.
  intros E. unfold analyze in E. apply prog_bind_Ok in E as ([] & w1 & E1 & E). apply demand_Ok in E1 as [_ ->].
  apply prog_bind_Ok in E as ([] & w2 & E1 & E). apply demand_Ok in E1 as [_ ->].
  apply prog_bind_Ok in E as (pin & w3 & Ep & E). pose proof (steady_run _ _ _ _ (steady_pin self _ _ _) Ep) as F1.
  apply pin_Ok in Ep as (Hauth & Hsnap & Hids & _ & Hsc). exists pin. cbv zeta in E.
  apply prog_bind_Ok in E as (items & w4 & Er & E). pose proof (steady_run _ _ _ _ (steady_retrieve self _ _ _ _) Er) as F2.
  apply prog_bind_Ok in E as (cs & w5 & Ec & E). pose proof (steady_run _ _ _ _ (steady_citations self _ _) Ec) as F3.
  apply citations_Ok in Ec as (Hq & Hnum & Hwr). exists w5.
  assert (follows w w4) as F4 by (by etrans). assert (follows w w5) as F5 by (by etrans).
  destruct (length cs =? 0)%nat.
  - apply prog_bind_Ok in E as (m & w6 & E6 & E). pose proof (validate_pin_Ok _ _ _ _ _ E6) as [Hwe _].
    pose proof (steady_run _ _ _ _ (steady_validate_pin self pin) E6) as Hf.
    apply prog_ret_Ok in E as [-> ->]. split; [split|done]; cbn [an_generation an_citations an_status]; try done.
    + intros k. by apply Hids.
    + apply NoDup_nil_2.
    + by exists w4, w5.
  - apply prog_bind_Ok in E as (derived & w6 & E6 & E). pose proof (steady_run _ _ _ _ (steady_annotations self _) E6) as F6.
    apply prog_bind_Ok in E as ([] & w7 & E7 & E). apply demand_Ok in E7 as [_ ->].
    apply prog_bind_Ok in E as (reply & w8 & E8 & E). apply prog_bind_Ok in E as (out & w9 & E9 & E).
    apply pure_Ok in E9 as [_ ->].
    apply prog_bind_Ok in E as (chosen & w10 & E10 & E). apply pure_Ok in E10 as [E10 ->].
    apply cited_Ok in E10 as (Hcid & Hnd & Hin & Hav).
    apply prog_bind_Ok in E as (m & w11 & E11 & E). pose proof (validate_pin_Ok _ _ _ _ _ E11) as [Hwe _].
    pose proof (steady_run _ _ _ _ (steady_validate_pin self pin) E11) as Hf.
    apply prog_ret_Ok in E as [-> ->]. split; [split|]; cbn [an_generation an_citations an_status]; try done.
    + intros k. by apply Hids.
    + by rewrite Hcid.
    + apply Forall_forall. intros c Hc. rewrite Forall_forall in Hin. specialize (Hin c Hc).
      apply list_elem_of_lookup in Hin as [i Hi].
      destruct (Forall2_lookup_r _ _ _ _ _ Hq Hi) as (item & _ & Hquote). by exists item.
    + by exists w4, w8.
    + intros Hg. etrans; [exact F6|]. etrans; [|exact Hf]. by eapply steady_run, E8.
Qed.

End Citations.
