(* ===== verification/JobFacts.v ===== *)
(** * Closed forms of the ledger's building blocks

    What each helper of [JobLedger] does to the tables, as an explicit function
    of the database, and the schema invariant all operations preserve. *)

From stdpp Require Import base tactics list strings option sets.
From Stdlib Require Import ZArith NArith QArith Qminmax Lia.
From S2P Require Import Prelude Json Contracts JobModels JobLedger.

Local Open Scope Z_scope.

(** ** Composition of row updates *)

Lemma update_where_compose {A} (p q : A → bool) (f g : A → A) l :
  update_where q g (update_where p f l) =
  (λ r, let r' := if p r then f r else r in if q r' then g r' else r') <$> l.
Proof. unfold update_where. rewrite <-list_fmap_compose. done. Qed.

Lemma select_update {A} (p q : A → bool) (f : A → A) l :
  (∀ x, x ∈ l → p x = true → q (f x) = q x) →
  select q (update_where p f l) = update_where p f (select q l).
Proof.
  intros Hq. unfold select, update_where. induction l as [|x l IH]; [done|]. csimpl.
  assert (q (if p x then f x else x) = q x) as E.
  { destruct (p x) eqn:Ep; [|done]. apply Hq; set_solver. }
  rewrite E. destruct (q x); csimpl; rewrite IH by set_solver; done.
Qed.

Lemma update_where_ext {A} (p q : A → bool) (f g : A → A) l :
  (∀ x, x ∈ l → p x = q x ∧ (p x = true → f x = g x)) →
  update_where p f l = update_where q g l.
Proof.
  intros Hpq. apply fmap_ext_elem. intros x Hx. destruct (Hpq x Hx) as [<- Hf].
  destruct (p x); auto.
Qed.

(** ** Cancellation loops *)

Definition cancelled_attempt (now : Z) (a : attempt_row) : attempt_row :=
  set_attempt StepState.CANCELLED (Some now) (Some "cancelled") (Some CANCELLED_CLASS)
    (at_not_before a) a.

(** All steps with an id in [ids] are cancelled, with their running attempts. *)
Definition cancel_ids (ids : list uuid) (now : Z) (d : db) : db :=
  on_attempts (update_where
    (λ a, bool_decide (at_step_id a ∈ ids) && bool_decide (at_outcome a = StepState.RUNNING))
    (cancelled_attempt now))
  (on_steps (update_where (λ r, bool_decide (step_id r ∈ ids)) (set_cancelled now)) d).

Lemma cancel_step_run id now d : _cancel_step id now d = Ok (tt, cancel_ids [id] now d).
Proof.
  unfold _cancel_step, update_step, modify, mbind, tx_bind, cancel_ids. do 2 f_equal.
  unfold on_attempts, on_steps. simpl. f_equal; apply update_where_ext; intros x _.
  - unfold is_step. split; [|done]. apply bool_decide_ext. by rewrite list_elem_of_singleton.
  - split; [|done]. f_equal. apply bool_decide_ext. by rewrite list_elem_of_singleton.
Qed.

Lemma cancel_ids_cons id ids now d :
  cancel_ids ids now (cancel_ids [id] now d) = cancel_ids (id :: ids) now d.
Proof.
  unfold cancel_ids, on_attempts, on_steps. simpl. f_equal;
    rewrite update_where_compose; apply fmap_ext_elem; intros x _; simpl.
  - destruct (decide (step_id x = id)) as [->|Hne].
    + rewrite (bool_decide_eq_true_2 (id ∈ [id])) by set_solver.
      rewrite (bool_decide_eq_true_2 (id ∈ id :: ids)) by set_solver.
      by destruct (bool_decide _).
    + rewrite (bool_decide_eq_false_2 (step_id x ∈ [id])) by set_solver.
      rewrite (bool_decide_ext (step_id x ∈ id :: ids) (step_id x ∈ ids)) by set_solver. done.
  - destruct (decide (at_outcome x = StepState.RUNNING)) as [Ho|Ho].
    2:{ rewrite !(bool_decide_eq_false_2 (at_outcome x = _)) by done.
        rewrite !andb_false_r. rewrite !(bool_decide_eq_false_2 (at_outcome x = _)) by done.
        by rewrite !andb_false_r. }
    rewrite !(bool_decide_eq_true_2 (at_outcome x = _)) by done. rewrite !andb_true_r.
    destruct (decide (at_step_id x = id)) as [->|Hne].
    + rewrite (bool_decide_eq_true_2 (id ∈ [id])) by set_solver.
      rewrite (bool_decide_eq_true_2 (id ∈ id :: ids)) by set_solver.
      simpl. by rewrite andb_false_r.
    + rewrite (bool_decide_eq_false_2 (at_step_id x ∈ [id])) by set_solver.
      rewrite !(bool_decide_eq_true_2 (at_outcome x = _)) by done. rewrite !andb_true_r.
      rewrite (bool_decide_ext (at_step_id x ∈ id :: ids) (at_step_id x ∈ ids)) by set_solver.
      done.
Qed.

Lemma cancel_ids_nil now d : cancel_ids [] now d = d.
Proof.
  destruct d. unfold cancel_ids, on_attempts, on_steps. simpl. f_equal;
    by apply update_where_none.
Qed.

Lemma cancel_loop_run rows now d :
  for_each (λ r, _cancel_step (step_id r) now) rows d = Ok (tt, cancel_ids (step_id <$> rows) now d).
Proof.
  revert d. induction rows as [|r rows IH]; intros d; csimpl.
  - by rewrite cancel_ids_nil.
  - rewrite (tx_bind_run _ _ _ _ _ (cancel_step_run (step_id r) now d)).
    by rewrite IH, cancel_ids_cons.
Qed.

(** With unique ids, cancelling the selected rows is an update by condition. *)
Lemma cancel_select_steps (p : step_row → bool) now l :
  NoDup (step_id <$> l) →
  update_where (λ r, bool_decide (step_id r ∈ step_id <$> select p l)) (set_cancelled now) l
  = update_where p (set_cancelled now) l.
Proof.
  intros Hnd. apply update_where_ext. intros x Hx. split; [|done].
  destruct (p x) eqn:Ep.
  - apply bool_decide_eq_true_2. apply list_elem_of_fmap_2. by apply elem_of_select.
  - apply bool_decide_eq_false_2. intros (y & E & [Hp Hy]%elem_of_select)%list_elem_of_fmap.
    rewrite (elem_of_unique step_id l x y Hnd Hx Hy E) in Ep. congruence.
Qed.

(** ** Refresh *)

Definition rows_of (d : db) (id : uuid) : list step_row := select (of_job id) (job_steps d).

Definition refresh_db (id : uuid) (now : Z) (job : job_row) (d : db) : db :=
  on_jobs (update_where (is_job id) (λ r,
    set_job (refreshed_state job (rows_of d id)) (cancel_requested r)
      (refreshed_progress (rows_of d id)) now (terminal_category r) r)) d.

Lemma refresh_run id now d job :
  job_by_id d id = Some job → _refresh id now d = Ok (tt, refresh_db id now job d).
Proof.
  intros Hj. unfold _refresh, gets, mbind, tx_bind. unfold job_by_id in Hj. rewrite Hj. done.
Qed.

Lemma refresh_Ok id now d x d' :
  _refresh id now d = Ok (x, d') → ∃ job, job_by_id d id = Some job ∧ d' = refresh_db id now job d.
Proof.
  unfold _refresh. intros Hr. tx_inv Hr. unfold update_job in Hr. tx_inv Hr. eauto.
Qed.
