(* ===== verification/JobInvariant.v ===== *)
(** * The ledger's table invariant and its preservation by each table update *)

From stdpp Require Import base tactics list strings option sets.
From Stdlib Require Import ZArith NArith QArith Qminmax Lia.
From S2P Require Import Prelude Json Contracts JobModels JobLedger JobFacts.

Local Open Scope Z_scope.

Definition policy_of (j : job_row) : RetryPolicy := retry (profile (request j)).

(** One step row: the lease CHECK constraint, the fence counts the attempts, the
    attempts stay within the policy, and a retried step knows when it started. *)
Record row_ok (p : RetryPolicy) (r : step_row) : Prop := {
  ro_owner : s_state r = StepState.RUNNING ↔ is_Some (lease_owner r);
  ro_expires : s_state r = StepState.RUNNING ↔ is_Some (lease_expires_at r);
  ro_count : attempt_count r = fence r;
  ro_bound : 0 ≤ fence r ≤ max_attempts p;
  ro_retry : s_state r = StepState.RETRY_WAIT → fence r < max_attempts p;
  ro_fresh : s_state r = StepState.PENDING ∨ s_state r = StepState.READY → fence r = 0;
  ro_started : s_state r = StepState.RUNNING ∨ s_state r = StepState.RETRY_WAIT →
               is_Some (started_at r) }.

Section Invariant.
Context `{Runtime}.

(** Keys, references and validated requests. *)
Record keys_ok (d : db) : Prop := {
  k_jobs : NoDup (job_id <$> jobs d);
  k_steps : NoDup (step_id <$> job_steps d);
  k_fk : ∀ s, s ∈ job_steps d → ∃ j, j ∈ jobs d ∧ job_id j = s_job_id s;
  k_unit : ∀ s, s ∈ job_steps d → s_unit_id s = unit_id (spec s);
  k_units : NoDup ((λ s, (s_job_id s, s_unit_id s)) <$> job_steps d);
  k_valid : ∀ j, j ∈ jobs d → valid_admission (request j) = true;
  k_request : NoDup ((λ j, (j_scope j, request_key j)) <$> jobs d);
  k_names : ∀ j, j ∈ jobs d → j_scope j = identity (a_scope (request j)) ∧
    request_key j = request_idempotency_key (request j) ∧
    j_fingerprint j = request_digest (request j) }.

Definition rows_ok (d : db) : Prop :=
  ∀ s j, s ∈ job_steps d → j ∈ jobs d → job_id j = s_job_id s → row_ok (policy_of j) s.

(** Attempts belong to a step, are numbered by its fence, and the only running
    attempt is the one of the current lease holder. *)
Record attempts_ok (d : db) : Prop := {
  at_unique : NoDup ((λ a, (at_step_id a, at_fence a)) <$> step_attempts d);
  at_step : ∀ a, a ∈ step_attempts d → ∃ s, s ∈ job_steps d ∧ step_id s = at_step_id a ∧
    number a = at_fence a ∧ 1 ≤ at_fence a ≤ fence s ∧
    (at_outcome a = StepState.RUNNING → s_state s = StepState.RUNNING ∧ fence s = at_fence a);
  at_running : ∀ s, s ∈ job_steps d → s_state s = StepState.RUNNING →
    ∃ a, a ∈ step_attempts d ∧ at_step_id a = step_id s ∧ at_fence a = fence s ∧
         at_outcome a = StepState.RUNNING ∧ lease_owner s = Some (worker a) }.

(** A step has a manifest exactly when it succeeded, under its last fence. *)
Record manifests_ok (d : db) : Prop := {
  mf_unique : NoDup (m_step_id <$> artifact_manifests d);
  mf_step : ∀ m, m ∈ artifact_manifests d →
    ∃ s, s ∈ job_steps d ∧ step_id s = m_step_id m ∧ s_state s = StepState.SUCCEEDED ∧
         fence s = m_fence m;
  mf_succeeded : ∀ s, s ∈ job_steps d → s_state s = StepState.SUCCEEDED →
    ∃ m, m ∈ artifact_manifests d ∧ m_step_id m = step_id s }.

Record tables_ok (d : db) : Prop := {
  t_keys : keys_ok d;
  t_rows : rows_ok d;
  t_attempts : attempts_ok d;
  t_manifests : manifests_ok d }.

Lemma tables_ok_empty : tables_ok empty_db.
Proof.
  split; [split|intros ??|split|split]; simpl; try constructor; set_solver.
Qed.

(** The invariant looks at these tables only. *)
Lemma tables_ok_ext d d' :
  tables_ok d → jobs d' = jobs d → job_steps d' = job_steps d →
  step_attempts d' = step_attempts d → artifact_manifests d' = artifact_manifests d →
  tables_ok d'.
Proof.
  intros [[] Hr [] []] Ej Es Ea Em.
  split; [split|unfold rows_ok in *|split|split]; rewrite ?Ej, ?Es, ?Ea, ?Em; auto.
Qed.

(** ** Row-wise updates *)

(** [g] keeps a step's identity, [h] a job's identity and request. *)
Definition keeps (g : step_row → step_row) : Prop := ∀ r,
  step_id (g r) = step_id r ∧ s_job_id (g r) = s_job_id r ∧ s_unit_id (g r) = s_unit_id r
  ∧ spec (g r) = spec r.
Definition keeps_job (h : job_row → job_row) : Prop := ∀ r,
  job_id (h r) = job_id r ∧ request (h r) = request r ∧ j_scope (h r) = j_scope r ∧
  request_key (h r) = request_key r ∧ j_fingerprint (h r) = j_fingerprint r.

Lemma keys_ok_fmap d d' g h :
  keeps g → keeps_job h → jobs d' = h <$> jobs d → job_steps d' = g <$> job_steps d →
  keys_ok d → keys_ok d'.
Proof.
  intros Hg Hh Ej Es []. split; rewrite ?Ej, ?Es.
  - rewrite <-list_fmap_compose. erewrite list_fmap_ext; [done|]. intros ???. apply Hh.
  - rewrite <-list_fmap_compose. erewrite list_fmap_ext; [done|]. intros ???. apply Hg.
  - intros s (s0 & -> & Hs)%list_elem_of_fmap. destruct (k_fk0 s0 Hs) as (j & Hj & E).
    exists (h j). split; [by apply list_elem_of_fmap_2|].
    destruct (Hg s0) as (_ & -> & _), (Hh j) as [-> _]. done.
  - intros s (s0 & -> & Hs)%list_elem_of_fmap. destruct (Hg s0) as (_ & _ & -> & ->). auto.
  - rewrite <-list_fmap_compose. erewrite list_fmap_ext; [done|]. intros ???. simpl.
    destruct (Hg x) as (_ & -> & -> & _). done.
  - intros j (j0 & -> & Hj)%list_elem_of_fmap. destruct (Hh j0) as (_ & -> & _). auto.
  - rewrite <-list_fmap_compose. erewrite list_fmap_ext; [done|]. intros ???. simpl.
    destruct (Hh x) as (_ & _ & -> & -> & _). done.
  - intros j (j0 & -> & Hj)%list_elem_of_fmap. destruct (Hh j0) as (_ & -> & -> & -> & ->). auto.
Qed.

Lemma rows_ok_fmap d d' g h :
  keeps g → keeps_job h → jobs d' = h <$> jobs d → job_steps d' = g <$> job_steps d →
  (∀ s j, s ∈ job_steps d → j ∈ jobs d → job_id j = s_job_id s →
          row_ok (policy_of j) s → row_ok (policy_of j) (g s)) →
  rows_ok d → rows_ok d'.
Proof.
  intros Hg Hh Ej Es Hrow Hr s j. rewrite Ej, Es.
  intros (s0 & -> & Hs)%list_elem_of_fmap (j0 & -> & Hj)%list_elem_of_fmap E.
  destruct (Hg s0) as (_ & Ejob & _), (Hh j0) as (Eid & Erq & _). rewrite Ejob, Eid in E.
  unfold policy_of. rewrite Erq. by apply Hrow, Hr.
Qed.

Lemma update_as_fmap {A} (p : A → bool) f l :
  update_where p f l = (λ r, if p r then f r else r) <$> l.
Proof. done. Qed.

Lemma keeps_if (p : step_row → bool) g : keeps g → keeps (λ r, if p r then g r else r).
Proof. intros Hg r. destruct (p r); [apply Hg|done]. Qed.

Lemma keeps_job_if (p : job_row → bool) h : keeps_job h → keeps_job (λ r, if p r then h r else r).
Proof. intros Hh r. destruct (p r); [apply Hh|done]. Qed.

Lemma keeps_settle st nb fin cat :
  keeps (λ r, settle_row st (nb r) (fin r) (cat r) r).
Proof. done. Qed.

(** Updating jobs without touching identity or request. *)
Lemma tables_ok_jobs d p h :
  keeps_job h → tables_ok d → tables_ok (on_jobs (update_where p h) d).
Proof.
  intros Hh [Hk Hr [] []].
  pose proof (keeps_job_if p h Hh) as Hh'.
  split; [| |split; auto|split; auto].
  - apply (keys_ok_fmap d _ id _ ltac:(done) Hh'); [done| |done]. simpl. by rewrite list_fmap_id.
  - apply (rows_ok_fmap d _ id _ ltac:(done) Hh'); [done| |done|done]. simpl. by rewrite list_fmap_id.
Qed.

Lemma refresh_tables_ok id now job d : tables_ok d → tables_ok (refresh_db id now job d).
Proof. by apply tables_ok_jobs. Qed.

(** ** Cancelling *)

Lemma row_ok_settled p r st nb fin cat :
  row_ok p r → st = StepState.SUCCEEDED ∨ st = StepState.FAILED ∨ st = StepState.CANCELLED →
  row_ok p (settle_row st nb fin cat r).
Proof.
  intros [] Hst. destruct Hst as [->|[->| ->]]; split; simpl; try done; try lia;
    try (split; [done|by intros []]); naive_solver.
Qed.

Lemma cancel_ids_ok ids now d :
  tables_ok d →
  (∀ s, s ∈ job_steps d → step_id s ∈ ids → s_state s ≠ StepState.SUCCEEDED) →
  tables_ok (cancel_ids ids now d).
Proof.
  intros [Hk Hr [] []] Hns.
  set (p := λ r, bool_decide (step_id r ∈ ids)).
  assert (keeps (λ r, if p r then set_cancelled now r else r)) as Hg by (by apply keeps_if).
  split.
  - apply (keys_ok_fmap d _ _ id Hg ltac:(done)); [|done..]. simpl. by rewrite list_fmap_id.
  - apply (rows_ok_fmap d _ _ id Hg ltac:(done)); [simpl; by rewrite list_fmap_id|done| |done].
    intros s j Hs Hj E Hok. destruct (p s); [|done]. apply row_ok_settled; auto.
  - split; simpl.
    + rewrite update_where_fmap; [done|]. done.
    + intros a (a0 & Ha0 & ->)%elem_of_update_where.
      destruct (at_step0 a0 Ha0) as (s & Hs & Es & En & Hf & Hrun).
      exists (if p s then set_cancelled now s else s).
      split; [apply elem_of_update_where; eauto|].
      destruct (p s) eqn:Ep; case_match eqn:Eq; simpl; split_and!; try done; try lia.
      * intros Ho. exfalso. unfold p in Ep. apply bool_decide_eq_true in Ep.
        rewrite bool_decide_eq_true_2 in Eq by (by rewrite <-Es).
        by rewrite bool_decide_eq_true_2 in Eq.
    + intros s (s0 & Hs0 & ->)%elem_of_update_where Hst. fold (p s0) in *.
      destruct (p s0) eqn:Ep; [done|].
      destruct (at_running0 s0 Hs0 Hst) as (a & Ha & E1 & E2 & E3 & E4).
      exists a. split_and!; try done. apply elem_of_update_where. exists a. split; [done|].
      unfold p in Ep. apply bool_decide_eq_false in Ep.
      by rewrite bool_decide_eq_false_2 by (by rewrite E1).
  - split; simpl.
    + done.
    + intros m Hm. destruct (mf_step0 m Hm) as (s & Hs & Es & Est & Ef). exists s.
      split_and!; try done. apply elem_of_update_where. exists s. split; [done|].
      rewrite bool_decide_eq_false_2; [done|]. intros Hin. by apply (Hns s Hs Hin).
    + intros s (s0 & Hs0 & ->)%elem_of_update_where Hst. case_bool_decide; [done|]. auto.
Qed.

(** ** One step leaves its state *)

(** [ga] closes an attempt. *)
Definition closes (ga : attempt_row → attempt_row) : Prop := ∀ a,
  at_step_id (ga a) = at_step_id a ∧ number (ga a) = number a ∧ at_fence (ga a) = at_fence a
  ∧ worker (ga a) = worker a ∧ at_outcome (ga a) ≠ StepState.RUNNING.

Lemma is_step_unique d s row :
  keys_ok d → s ∈ job_steps d → row ∈ job_steps d → is_step (step_id row) s = true → s = row.
Proof.
  intros Hk Hs Hrow E%bool_decide_eq_true. by eapply (elem_of_unique step_id); [apply Hk|..].
Qed.

Lemma leave_ok d row g pa ga :
  tables_ok d → row ∈ job_steps d → s_state row ≠ StepState.SUCCEEDED →
  keeps g → closes ga →
  s_state (g row) ≠ StepState.RUNNING → s_state (g row) ≠ StepState.SUCCEEDED →
  fence (g row) = fence row →
  (∀ j, j ∈ jobs d → job_id j = s_job_id row → row_ok (policy_of j) row →
        row_ok (policy_of j) (g row)) →
  (∀ a, pa a = true → at_step_id a = step_id row) →
  (∀ a, a ∈ step_attempts d → at_step_id a = step_id row → pa a = false →
        at_outcome a ≠ StepState.RUNNING) →
  tables_ok (on_steps (update_where (is_step (step_id row)) g)
               (on_attempts (update_where pa ga) d)).
Proof.
  intros [Hk Hr [] []] Hrow Hns Hg Hga Hst1 Hst2 Hf Hok Hpa Hno.
  assert (∀ s, s ∈ job_steps d → is_step (step_id row) s = true → s = row) as Hu.
  { intros s Hs. by apply (is_step_unique d). }
  pose proof (keeps_if (is_step (step_id row)) g Hg) as Hg'.
  split.
  - apply (keys_ok_fmap d _ _ id Hg' ltac:(done)); [|done..]. simpl. by rewrite list_fmap_id.
  - apply (rows_ok_fmap d _ _ id Hg' ltac:(done)); [simpl; by rewrite list_fmap_id|done| |done].
    intros s j Hs Hj E Hsok. destruct (is_step (step_id row) s) eqn:Es; [|done].
    apply Hu in Es as ->; [|done]. auto.
  - split; simpl.
    + rewrite update_where_fmap; [done|]. intros a _ _. destruct (Hga a) as (-> & _ & -> & _). done.
    + intros a (a0 & Ha0 & ->)%elem_of_update_where.
      destruct (at_step0 a0 Ha0) as (s & Hs & Es & En & Hb & Hrun).
      exists (if is_step (step_id row) s then g s else s).
      split; [apply elem_of_update_where; eauto|].
      destruct (Hga a0) as (E1 & E2 & E3 & _ & E5).
      destruct (is_step (step_id row) s) eqn:Eis.
      * apply Hu in Eis as ->; [|done]. destruct (Hg row) as (-> & _).
        destruct (pa a0) eqn:Epa; rewrite ?E1, ?E2, ?E3, ?Hf; split_and!; try done; try lia.
        intros Ho. by destruct (Hno a0 Ha0 (eq_sym Es) Epa).
      * destruct (pa a0) eqn:Epa; rewrite ?E1, ?E2, ?E3; split_and!; try done; lia.
    + intros s (s0 & Hs0 & ->)%elem_of_update_where Hst.
      destruct (is_step (step_id row) s0) eqn:Eis.
      * apply Hu in Eis as ->; done.
      * destruct (at_running0 s0 Hs0 Hst) as (a & Ha & A1 & A2 & A3 & A4).
        exists a. split_and!; try done. apply elem_of_update_where. exists a. split; [done|].
        destruct (pa a) eqn:Epa; [|done]. apply Hpa in Epa.
        unfold is_step in Eis. apply bool_decide_eq_false in Eis. congruence.
  - split; simpl; [done| |].
    + intros m Hm. destruct (mf_step0 m Hm) as (s & Hs & Es & Est & Ef). exists s.
      split_and!; try done. apply elem_of_update_where. exists s. split; [done|].
      destruct (is_step (step_id row) s) eqn:Eis; [|done]. apply Hu in Eis as ->; done.
    + intros s (s0 & Hs0 & ->)%elem_of_update_where Hst.
      destruct (is_step (step_id row) s0) eqn:Eis; [|by auto].
      apply Hu in Eis as ->; done.
Qed.

Lemma row_ok_of d row j :
  tables_ok d → row ∈ job_steps d → j ∈ jobs d → job_id j = s_job_id row → row_ok (policy_of j) row.
Proof. intros [] ???. auto. Qed.

(** A running step whose current attempt is closed. *)
Lemma settle_ok d row st nb fin cat ga :
  tables_ok d → row ∈ job_steps d → s_state row = StepState.RUNNING → closes ga →
  st = StepState.FAILED ∨ (st = StepState.RETRY_WAIT ∧
    ∀ j, j ∈ jobs d → job_id j = s_job_id row → fence row < max_attempts (policy_of j)) →
  tables_ok (on_steps (update_where (is_step (step_id row))
                         (λ r, settle_row st (nb r) (fin r) (cat r) r))
    (on_attempts (update_where
       (λ a, bool_decide (at_step_id a = step_id row) && (at_fence a =? fence row)) ga) d)).
Proof.
  intros Hok Hrow Hrun Hga Hst.
  apply leave_ok; try done.
  - by rewrite Hrun.
  - simpl. naive_solver.
  - simpl. naive_solver.
  - intros j Hj E Hro. destruct Hst as [->|[-> Hlt]]; [apply row_ok_settled; auto|].
    specialize (Hlt j Hj E). destruct Hro. split; simpl; try done; try lia.
    + by intros [|].
    + auto.
  - intros a [Ha%bool_decide_eq_true _]%andb_true_iff. done.
  - intros a Ha Es Epa Ho. destruct Hok as [Hk _ [] _].
    destruct (at_step0 a Ha) as (s & Hs & E1 & _ & _ & Hr). destruct (Hr Ho) as [_ Ef].
    assert (s = row) as ->.
    { eapply (elem_of_unique step_id); [apply Hk|done|done|congruence]. }
    rewrite bool_decide_eq_true_2 in Epa by done.
    rewrite (proj2 (Z.eqb_eq _ _) (eq_sym Ef)) in Epa. done.
Qed.

(** A waiting step that fails without an open attempt. *)
Lemma fail_waiting_ok d row now cat :
  tables_ok d → row ∈ job_steps d → step_waiting (s_state row) = true →
  tables_ok (on_steps (update_where (is_step (step_id row)) (set_failed now cat)) d).
Proof.
  intros Hok Hrow Hw.
  assert (on_attempts (update_where (λ _, false) (cancelled_attempt now)) d = d) as Ed.
  { destruct d. unfold on_attempts. simpl. by rewrite update_where_none. }
  rewrite <-Ed. apply leave_ok; try done.
  - intros E. by rewrite E in Hw.
  - intros j Hj E Hro. apply row_ok_settled; auto.
  - intros a Ha Es _ Ho. destruct Hok as [Hk _ [] _].
    destruct (at_step0 a Ha) as (s & Hs & E1 & _ & _ & Hr). destruct (Hr Ho) as [Er _].
    assert (s = row) as ->.
    { eapply (elem_of_unique step_id); [apply Hk|done|done|congruence]. }
    by rewrite Er in Hw.
Qed.

(** ** A waiting step starts *)

Lemma valid_admission_attempts rq :
  valid_admission rq = true → 1 ≤ max_attempts (retry (profile rq)) ≤ 100.
Proof.
  unfold valid_admission, valid_profile, valid_retry. rewrite !andb_true_iff, !Z.leb_le. tauto.
Qed.

Definition start_row (owner : string) (expires now : Z) (r : step_row) : step_row :=
  set_running (attempt_count r + 1) (fence r + 1) owner expires now r.

Definition new_attempt (row : step_row) (owner : string) (now : Z) : attempt_row := {|
  at_step_id := step_id row; number := attempt_count row + 1; worker := owner;
  at_fence := fence row + 1; at_started_at := now; at_finished_at := None;
  at_outcome := StepState.RUNNING; at_category := None; at_classification := None;
  at_not_before := None |}.

Lemma row_ok_start p r owner expires now :
  row_ok p r → step_waiting (s_state r) = true → 1 ≤ max_attempts p →
  row_ok p (start_row owner expires now r).
Proof.
  intros [] Hw Hp. assert (fence r + 1 ≤ max_attempts p).
  { destruct (s_state r); try done; [rewrite ro_fresh0 by auto; lia|].
    specialize (ro_retry0 eq_refl). lia. }
  split; simpl; try done; try lia; try (split; intros; by eauto).
  by intros [|].
Qed.

Lemma start_ok d row owner expires now :
  tables_ok d → row ∈ job_steps d → step_waiting (s_state row) = true →
  tables_ok (on_attempts (λ l, l ++ [new_attempt row owner now])
    (on_steps (update_where (is_step (step_id row)) (start_row owner expires now)) d)).
Proof.
  intros [Hk Hr [] []] Hrow Hw.
  assert (∀ s, s ∈ job_steps d → is_step (step_id row) s = true → s = row) as Hu.
  { intros s Hs. by apply (is_step_unique d). }
  assert (is_step (step_id row) row = true) as Hself by (by apply bool_decide_eq_true_2).
  assert (keeps (start_row owner expires now)) as Hg by done.
  pose proof (keeps_if (is_step (step_id row)) _ Hg) as Hg'.
  destruct (k_fk _ Hk row Hrow) as (j0 & Hj0 & Ej0).
  pose proof (ro_count _ _ (Hr row j0 Hrow Hj0 Ej0)) as Hcount.
  assert (start_row owner expires now row ∈
    update_where (is_step (step_id row)) (start_row owner expires now) (job_steps d)) as Hnew.
  { apply elem_of_update_where. exists row. by rewrite Hself. }
  split.
  - apply (keys_ok_fmap d _ _ id Hg' ltac:(done)); [|done..]. simpl. by rewrite list_fmap_id.
  - apply (rows_ok_fmap d _ _ id Hg' ltac:(done)); [simpl; by rewrite list_fmap_id|done| |done].
    intros s j Hs Hj E Hsok. destruct (is_step (step_id row) s) eqn:Es; [|done].
    apply Hu in Es as ->; [|done]. apply row_ok_start; try done.
    apply valid_admission_attempts. by apply (k_valid _ Hk).
  - split; simpl.
    + rewrite fmap_app. apply NoDup_app. split_and!; [done| |apply NoDup_singleton].
      intros x (a & -> & Ha)%list_elem_of_fmap Hx. simpl in Hx.
      apply list_elem_of_singleton in Hx. simplify_eq.
      destruct (at_step0 a Ha) as (s & Hs & E1 & _ & Hb & _).
      assert (s = row) as -> by (eapply (elem_of_unique step_id); [apply Hk|done|done|congruence]).
      lia.
    + intros a [Ha|Ha]%elem_of_app.
      * destruct (at_step0 a Ha) as (s & Hs & E1 & E2 & Hb & Hrun).
        exists (if is_step (step_id row) s then start_row owner expires now s else s).
        split; [apply elem_of_update_where; eauto|].
        destruct (is_step (step_id row) s) eqn:Es; [|done].
        apply Hu in Es as ->; [|done]. simpl. split_and!; try done; [lia|lia|].
        intros Ho. destruct (Hrun Ho) as [Est _]. by rewrite Est in Hw.
      * apply list_elem_of_singleton in Ha as ->. eexists. split; [exact Hnew|]. simpl.
        pose proof (ro_bound _ _ (Hr row j0 Hrow Hj0 Ej0)). split_and!; try done; lia.
    + intros s (s0 & Hs0 & ->)%elem_of_update_where Hst.
      destruct (is_step (step_id row) s0) eqn:Es.
      * apply Hu in Es as ->; [|done]. exists (new_attempt row owner now). simpl.
        split_and!; try done. set_solver.
      * destruct (at_running0 s0 Hs0 Hst) as (a & Ha & ?). exists a. split; [set_solver|done].
  - split; simpl; [done| |].
    + intros m Hm. destruct (mf_step0 m Hm) as (s & Hs & Es & Est & Ef). exists s.
      split_and!; try done. apply elem_of_update_where. exists s. split; [done|].
      destruct (is_step (step_id row) s) eqn:Eis; [|done]. apply Hu in Eis as ->; [|done].
      by rewrite Est in Hw.
    + intros s (s0 & Hs0 & ->)%elem_of_update_where Hst.
      destruct (is_step (step_id row) s0) eqn:Eis; [|by auto]. done.
Qed.

(** ** A row keeps its state, or becomes READY *)

(** [g] changes neither the lease, nor the state except from PENDING to READY. *)
Definition mild (r r' : step_row) : Prop :=
  fence r' = fence r ∧ lease_owner r' = lease_owner r ∧
  (s_state r' = s_state r ∨ s_state r = StepState.PENDING ∧ s_state r' = StepState.READY) ∧
  ∀ p, row_ok p r → row_ok p r'.

Lemma mild_fmap_ok d d' g :
  tables_ok d → keeps g → jobs d' = jobs d → job_steps d' = g <$> job_steps d →
  step_attempts d' = step_attempts d → artifact_manifests d' = artifact_manifests d →
  (∀ r, r ∈ job_steps d → mild r (g r)) → tables_ok d'.
Proof.
  intros [Hk Hr [] []] Hg Ej Es Ea Em Hmild.
  assert (jobs d' = id <$> jobs d) as Ej' by (by rewrite list_fmap_id).
  split.
  - by apply (keys_ok_fmap d _ g id).
  - apply (rows_ok_fmap d _ g id); try done. intros s j Hs _ _. by apply Hmild.
  - split; rewrite ?Ea, ?Es; [done| |].
    + intros a Ha. destruct (at_step0 a Ha) as (s & Hs & E1 & E2 & Hb & Hrun).
      exists (g s). split; [by apply list_elem_of_fmap_2|].
      destruct (Hg s) as (-> & _), (Hmild s Hs) as (-> & _ & Hst & _).
      split_and!; try done; try lia. intros Ho. destruct (Hrun Ho) as [Est ?].
      split; [|done]. destruct Hst as [->|[E _]]; [done|congruence].
    + intros s (s0 & -> & Hs0)%list_elem_of_fmap Est.
      destruct (Hg s0) as (-> & _), (Hmild s0 Hs0) as (-> & -> & Hst & _).
      apply at_running0; [done|]. destruct Hst as [<-|[_ E]]; [done|congruence].
  - split; rewrite ?Em, ?Es; [done| |].
    + intros m Hm. destruct (mf_step0 m Hm) as (s & Hs & E1 & Est & Ef).
      exists (g s). split; [by apply list_elem_of_fmap_2|].
      destruct (Hg s) as (-> & _), (Hmild s Hs) as (-> & _ & Hst & _).
      split_and!; try done. destruct Hst as [->|[E _]]; [done|congruence].
    + intros s (s0 & -> & Hs0)%list_elem_of_fmap Est.
      destruct (Hg s0) as (-> & _), (Hmild s0 Hs0) as (_ & _ & Hst & _).
      apply mf_succeeded0; [done|]. destruct Hst as [<-|[_ E]]; [done|congruence].
Qed.

Lemma mild_refl r : mild r r.
Proof. unfold mild. auto. Qed.

Lemma mild_ready r key inputs : s_state r = StepState.PENDING → mild r (set_ready key inputs r).
Proof.
  intros Hst. unfold mild. split_and!; try done; [by right|].
  intros p []. rewrite Hst in *. split; simpl; try done.
  - split; [done|]. by intros ?%ro_owner0.
  - split; [done|]. by intros ?%ro_expires0.
  - intros _. by apply ro_fresh0; left.
  - by intros [|].
Qed.

Lemma extend_ok d row expires :
  tables_ok d → row ∈ job_steps d → s_state row = StepState.RUNNING →
  tables_ok (on_steps (update_where (is_step (step_id row)) (set_expires expires)) d).
Proof.
  intros Hok Hrow Hst. pose proof (is_step_unique d) as Hu.
  eapply (mild_fmap_ok d _ (λ r, if is_step (step_id row) r then set_expires expires r else r));
    try done; [by apply keeps_if|].
  intros r Hr. destruct (is_step (step_id row) r) eqn:E; [|apply mild_refl].
  apply Hu in E as ->; [|apply Hok|done|done]. unfold mild. split_and!; try done; [by left|].
  intros p []. split; simpl; try done; split; done.
Qed.

(** ** A running step succeeds *)

Definition succeed_db (row : step_row) (refs : list ObjectRef) (now : Z)
    (ga : attempt_row → attempt_row) (d : db) : db :=
  on_attempts (update_where
    (λ a, bool_decide (at_step_id a = step_id row) && (at_fence a =? fence row)) ga)
  (on_steps (update_where (is_step (step_id row)) (set_succeeded now))
  (on_manifests (λ l, l ++ [{| m_step_id := step_id row; manifest := refs;
                               committed_at := now; m_fence := fence row |}]) d)).

Lemma succeed_ok d row refs now ga :
  tables_ok d → row ∈ job_steps d → s_state row = StepState.RUNNING → closes ga →
  tables_ok (succeed_db row refs now ga d).
Proof.
  intros [Hk Hr [] []] Hrow Hst Hga. unfold succeed_db.
  assert (∀ s, s ∈ job_steps d → is_step (step_id row) s = true → s = row) as Hu.
  { intros s Hs. by apply (is_step_unique d). }
  assert (is_step (step_id row) row = true) as Hself by (by apply bool_decide_eq_true_2).
  assert (keeps (set_succeeded now)) as Hg by done.
  pose proof (keeps_if (is_step (step_id row)) _ Hg) as Hg'.
  split.
  - apply (keys_ok_fmap d _ _ id Hg' ltac:(done)); [|done..]. simpl. by rewrite list_fmap_id.
  - apply (rows_ok_fmap d _ _ id Hg' ltac:(done)); [simpl; by rewrite list_fmap_id|done| |done].
    intros s j Hs Hj E Hsok. destruct (is_step (step_id row) s); [|done].
    apply row_ok_settled; auto.
  - split; simpl.
    + rewrite update_where_fmap; [done|]. intros a _ _. destruct (Hga a) as (-> & _ & -> & _). done.
    + intros a (a0 & Ha0 & ->)%elem_of_update_where.
      destruct (at_step0 a0 Ha0) as (s & Hs & Es & En & Hb & Hrun).
      exists (if is_step (step_id row) s then set_succeeded now s else s).
      split; [apply elem_of_update_where; eauto|].
      destruct (Hga a0) as (E1 & E2 & E3 & _ & E5).
      destruct (bool_decide (at_step_id a0 = step_id row) && (at_fence a0 =? fence row)) eqn:Epa;
        rewrite ?E1, ?E2, ?E3.
      * destruct (is_step (step_id row) s); simpl; split_and!;
          first [done | lia | by intros ?%E5].
      * destruct (is_step (step_id row) s) eqn:Eis; simpl; split_and!; try done; try lia.
        intros Ho. apply Hu in Eis as ->; [|done]. destruct (Hrun Ho) as [_ Ef].
        rewrite bool_decide_eq_true_2, (proj2 (Z.eqb_eq _ _) (eq_sym Ef)) in Epa by done. done.
    + intros s (s0 & Hs0 & ->)%elem_of_update_where Hs1.
      destruct (is_step (step_id row) s0) eqn:Eis; [done|].
      destruct (at_running0 s0 Hs0 Hs1) as (a & Ha & A1 & A2 & A3 & A4).
      exists a. split_and!; try done. apply elem_of_update_where. exists a. split; [done|].
      unfold is_step in Eis. apply bool_decide_eq_false in Eis.
      by rewrite bool_decide_eq_false_2 by congruence.
  - split; simpl.
    + rewrite fmap_app. apply NoDup_app. split_and!; [done| |apply NoDup_singleton].
      intros x (m & -> & Hm)%list_elem_of_fmap Hx. simpl in Hx.
      apply list_elem_of_singleton in Hx. destruct (mf_step0 m Hm) as (s & Hs & Es & Est & _).
      assert (s = row) as -> by (eapply (elem_of_unique step_id); [apply Hk|done|done|congruence]).
      congruence.
    + intros m [Hm|Hm]%elem_of_app.
      * destruct (mf_step0 m Hm) as (s & Hs & Es & Est & Ef). exists s.
        split_and!; try done. apply elem_of_update_where. exists s. split; [done|].
        destruct (is_step (step_id row) s) eqn:Eis; [|done]. apply Hu in Eis as ->; [|done].
        congruence.
      * apply list_elem_of_singleton in Hm as ->. exists (set_succeeded now row).
        split_and!; try done. apply elem_of_update_where. exists row. by rewrite Hself.
    + intros s (s0 & Hs0 & ->)%elem_of_update_where Hs1.
      destruct (is_step (step_id row) s0) eqn:Eis.
      * apply Hu in Eis as ->; [|done].
        exists {| m_step_id := step_id row; manifest := refs; committed_at := now;
                  m_fence := fence row |}. split; [|done].
        apply elem_of_app. right. by apply list_elem_of_singleton.
      * destruct (mf_succeeded0 s0 Hs0 Hs1) as (m & Hm & ?). exists m. set_solver.
Qed.

End Invariant.
