(* ===== verification/JobCoherence.v ===== *)
(** * Job states are the states of their steps

    What must hold of a job and its step rows before [_refresh], what holds
    after it, and that changes to one job leave the others alone. *)

From stdpp Require Import base tactics list strings option sets.
From Stdlib Require Import ZArith NArith QArith Qminmax Lia.
From S2P Require Import Prelude Json Contracts JobModels JobLedger JobFacts JobInvariant.

Local Open Scope Z_scope.

Definition cleared (rows : list step_row) (r : step_row) : Prop :=
  deps_succeeded rows (depends_on (spec r)) = Ok true.
Definition blocked (rows : list step_row) (r : step_row) : Prop :=
  deps_succeeded rows (depends_on (spec r)) = Ok false.

(** The rows are the request's plan in order, and only steps whose dependencies
    succeeded have left PENDING (other than by cancellation). *)
Record plan_ok (j : job_row) (rows : list step_row) : Prop := {
  pl_plan : spec <$> rows = steps (request j);
  pl_cleared : ∀ r, r ∈ rows → s_state r ≠ StepState.PENDING →
    s_state r ≠ StepState.CANCELLED → cleared rows r }.

Record settled (j : job_row) (rows : list step_row) : Prop := {
  se_plan : plan_ok j rows;
  se_completed : j_state j = JobState.COMPLETED → ∀ r, r ∈ rows → s_state r = StepState.SUCCEEDED;
  se_terminal : job_terminal (j_state j) = true → ∀ r, r ∈ rows → step_active (s_state r) = false;
  se_cancel : job_terminal (j_state j) = false → cancel_requested j = true →
    ∀ r, r ∈ rows → step_unstarted (s_state r) = false;
  se_live : job_terminal (j_state j) = false → cancel_requested j = false →
    ∀ r, r ∈ rows → s_state r ≠ StepState.FAILED ∧ s_state r ≠ StepState.CANCELLED ∧
                    (s_state r = StepState.PENDING → blocked rows r);
  se_flag : job_terminal (j_state j) = false →
    (cancel_requested j = true ↔ j_state j = JobState.CANCEL_REQUESTED) }.

Record coherent (j : job_row) (rows : list step_row) : Prop := {
  co_settled : settled j rows;
  co_progress : progress j = refreshed_progress rows;
  co_state : refreshed_state j rows = j_state j }.

Lemma count_state_zero st rows :
  count_state st rows = 0 ↔ ∀ r, r ∈ rows → s_state r ≠ st.
Proof.
  unfold count_state. rewrite count_zero. unfold in_state.
  setoid_rewrite bool_decide_eq_false. done.
Qed.

Lemma count_state_all st rows :
  count_state st rows = len rows ↔ ∀ r, r ∈ rows → s_state r = st.
Proof.
  unfold count_state, len. rewrite count_all. unfold in_state.
  setoid_rewrite bool_decide_eq_true. done.
Qed.

Lemma stage_job_state_live s : job_terminal (Stage.job_state s) = false.
Proof. by destruct s. Qed.

(** The four outcomes of [refreshed_state] on a non-terminal job. *)
Lemma refreshed_state_cases j rows :
  job_terminal (j_state j) = false →
  (cancel_requested j = true ∧
     ((∀ r, r ∈ rows → s_state r ≠ StepState.RUNNING) ∧ refreshed_state j rows = JobState.CANCELLED
      ∨ (∃ r, r ∈ rows ∧ s_state r = StepState.RUNNING)
        ∧ refreshed_state j rows = JobState.CANCEL_REQUESTED))
  ∨ (cancel_requested j = false ∧
     ((∃ r, r ∈ rows ∧ s_state r = StepState.FAILED) ∧ refreshed_state j rows = JobState.FAILED
      ∨ (∀ r, r ∈ rows → s_state r ≠ StepState.FAILED) ∧
        ((∀ r, r ∈ rows → s_state r = StepState.SUCCEEDED) ∧
           refreshed_state j rows = JobState.COMPLETED
         ∨ ¬ (∀ r, r ∈ rows → s_state r = StepState.SUCCEEDED) ∧
           job_terminal (refreshed_state j rows) = false ∧
           refreshed_state j rows ≠ JobState.CANCEL_REQUESTED))).
Proof.
  intros Ht. unfold refreshed_state. rewrite Ht.
  assert (∀ st, {count_state st rows = 0} + {∃ r, r ∈ rows ∧ s_state r = st}) as Hex.
  { intros st. destruct (decide (count_state st rows = 0)); [by left|right].
    unfold count_state, count in n. destruct (select (in_state st) rows) as [|r l] eqn:E.
    - simpl in n. lia.
    - exists r. assert (r ∈ select (in_state st) rows) as Hin by (rewrite E; set_solver).
      apply elem_of_select in Hin as [Hs%bool_decide_eq_true ?]. done. }
  destruct (cancel_requested j).
  - left. split; [done|]. destruct (Hex StepState.RUNNING) as [E|(r & Hr & E)].
    + left. rewrite E. split; [by apply count_state_zero|done].
    + right. split; [eauto|]. destruct (Z.eqb_spec (count_state StepState.RUNNING rows) 0) as [E0|];
        [|done]. rewrite count_state_zero in E0. by destruct (E0 r).
  - right. split; [done|]. destruct (Hex StepState.FAILED) as [E|(r & Hr & E)].
    + right. rewrite E. split; [by apply count_state_zero|]. simpl.
      destruct (Z.eqb_spec (count_state StepState.SUCCEEDED rows) (len rows)) as [E1|E1];
        rewrite count_state_all in E1; [by left|right]. split; [done|].
      simpl. destruct (find_row _ rows) as [r|]; simpl; [|done].
      by destruct (stage (spec r)).
    + left. split; [eauto|]. destruct (Z.eqb_spec (count_state StepState.FAILED rows) 0) as [E0|];
        [|done]. rewrite count_state_zero in E0. by destruct (E0 r).
Qed.

Lemma refreshed_terminal j rows :
  job_terminal (j_state j) = true → refreshed_state j rows = j_state j.
Proof. unfold refreshed_state. by intros ->. Qed.

(** [_refresh] turns settled rows into a coherent job. *)
Lemma settled_refresh j rows now :
  settled j rows →
  coherent (set_job (refreshed_state j rows) (cancel_requested j) (refreshed_progress rows) now
              (terminal_category j) j) rows.
Proof.
  intros [Hp Hc Ht Hca Hl Hfl]. set (j' := set_job _ _ _ _ _ j).
  assert (plan_ok j' rows) as Hp' by (destruct Hp; by split).
  destruct (job_terminal (j_state j)) eqn:Et.
  - assert (refreshed_state j rows = j_state j) as E by (by apply refreshed_terminal).
    assert (j_state j' = j_state j) as E' by done.
    split; [split; rewrite ?E', ?Et; try done; auto|done|].
    apply refreshed_terminal. by rewrite E', Et.
  - assert (cancel_requested j' = cancel_requested j) as Ec by done.
    assert (j_state j' = refreshed_state j rows) as Es by done.
    assert (refreshed_state j' rows = j_state j') as Eidem.
    { destruct (job_terminal (j_state j')) eqn:Et'; [by apply refreshed_terminal|].
      unfold refreshed_state at 1. rewrite Et', Ec, Es. unfold refreshed_state. by rewrite Et. }
    destruct (refreshed_state_cases j rows Et)
      as [[Hcr [[Hno E]|[(r & Hr & Hrun) E]]]|[Hcr [[(r & Hr & Hf) E]|[Hnf [[Hall E]|[Hns [Hnt Hncr]]]]]]].
    + specialize (Hca eq_refl Hcr). split; [split; try done; rewrite ?Es, ?E; try done|done|done].
      intros _ r Hr. specialize (Hca r Hr). specialize (Hno r Hr). by destruct (s_state r).
    + specialize (Hca eq_refl Hcr).
      split; [split; try done; rewrite ?Es, ?E, ?Ec; try done|done|done].
    + by destruct (Hl eq_refl Hcr r Hr) as [? _].
    + split; [split; try done; rewrite ?Es, ?E; try done|done|done].
      intros _ r Hr. by rewrite (Hall r Hr).
    + specialize (Hl eq_refl Hcr).
      split; [split; try done; rewrite ?Es, ?Ec|done|done].
      * intros E. by rewrite E in Hnt.
      * by rewrite Hnt.
      * by rewrite Hcr.
      * by rewrite Hcr.
Qed.

(** ** Dependencies only look at which units succeeded *)

Lemma deps_succeeded_ext g rows deps :
  keeps g → (∀ r, r ∈ rows → in_state StepState.SUCCEEDED (g r) = in_state StepState.SUCCEEDED r) →
  deps_succeeded (g <$> rows) deps = deps_succeeded rows deps.
Proof.
  intros Hg Hs. induction deps as [|p deps IH]; [done|]. simpl.
  set (q := λ r, bool_decide (s_unit_id r = p)).
  assert (find_row q (g <$> rows) = g <$> find_row q rows) as ->.
  { clear IH. induction rows as [|r rows IHr]; [done|]. unfold find_row in *. csimpl.
    assert (q (g r) = q r) as ->. { unfold q. by destruct (Hg r) as (_ & _ & -> & _). }
    destruct (q r); [done|]. apply IHr. set_solver. }
  destruct (find_row q rows) as [r|] eqn:E; [|done]. simpl.
  apply find_row_Some in E as [Hr _]. rewrite Hs by done. by rewrite IH.
Qed.

Lemma cleared_mono g rows deps :
  keeps g → (∀ r, r ∈ rows → s_state r = StepState.SUCCEEDED → s_state (g r) = StepState.SUCCEEDED) →
  deps_succeeded rows deps = Ok true → deps_succeeded (g <$> rows) deps = Ok true.
Proof.
  intros Hg Hs. induction deps as [|p deps IH]; [done|]. simpl.
  set (q := λ r, bool_decide (s_unit_id r = p)).
  assert (find_row q (g <$> rows) = g <$> find_row q rows) as ->.
  { clear IH. induction rows as [|r rows IHr]; [done|]. unfold find_row in *. csimpl.
    assert (q (g r) = q r) as ->. { unfold q. by destruct (Hg r) as (_ & _ & -> & _). }
    destruct (q r); [done|]. apply IHr. set_solver. }
  destruct (find_row q rows) as [r|] eqn:E; [|done]. simpl.
  apply find_row_Some in E as [Hr _]. unfold in_state.
  case_bool_decide as Hst; [|done]. rewrite bool_decide_eq_true_2 by auto. done.
Qed.

Lemma plan_ok_fmap j j' g rows :
  plan_ok j rows → request j' = request j → keeps g →
  (∀ r, r ∈ rows → s_state r = StepState.SUCCEEDED → s_state (g r) = StepState.SUCCEEDED) →
  (∀ r, r ∈ rows → s_state (g r) ≠ StepState.PENDING → s_state (g r) ≠ StepState.CANCELLED →
        (s_state r ≠ StepState.PENDING ∧ s_state r ≠ StepState.CANCELLED) ∨
        deps_succeeded rows (depends_on (spec r)) = Ok true) →
  plan_ok j' (g <$> rows).
Proof.
  intros [Hp Hc] Hrq Hg Hs Hn. split.
  - rewrite <-list_fmap_compose, Hrq, <-Hp. apply fmap_ext_elem. intros r _. apply Hg.
  - intros r (r0 & -> & Hr0)%list_elem_of_fmap H1 H2. unfold cleared.
    destruct (Hg r0) as (_ & _ & _ & ->). apply cleared_mono; try done.
    destruct (Hn r0 Hr0 H1 H2) as [[??]|?]; [by apply Hc|done].
Qed.

(** ** Frames: everything but one job *)

Section Frames.
Context `{Runtime}.

Definition coherent_all (d : db) : Prop :=
  ∀ j, j ∈ jobs d → coherent j (rows_of d (job_id j)).
Definition coherent_but (id : uuid) (d : db) : Prop :=
  ∀ j, j ∈ jobs d → job_id j ≠ id → coherent j (rows_of d (job_id j)).

(** The full ledger invariant. *)
Definition ledger_ok (d : db) : Prop := tables_ok d ∧ coherent_all d.

(** The state in which an operation calls [_refresh(job_id)]. *)
Definition ready_to_refresh (id : uuid) (d : db) : Prop :=
  tables_ok d ∧ coherent_but id d ∧
  ∃ j, job_by_id d id = Some j ∧ settled j (rows_of d id).

Lemma job_by_id_Some d id j : job_by_id d id = Some j → j ∈ jobs d ∧ job_id j = id.
Proof.
  intros Hj. apply find_row_Some in Hj as [? E]. by apply bool_decide_eq_true in E.
Qed.

Lemma job_by_id_elem d j : keys_ok d → j ∈ jobs d → job_by_id d (job_id j) = Some j.
Proof. intros [] Hj. by apply (find_row_unique job_id). Qed.

Lemma ledger_ok_ready d j :
  ledger_ok d → j ∈ jobs d → ready_to_refresh (job_id j) d.
Proof.
  intros [Ht Hc] Hj. split_and!; [done| |].
  - intros j' ??. by apply Hc.
  - exists j. split; [apply job_by_id_elem; [apply Ht|done]|]. apply Hc. done.
Qed.

(** Rows of the other jobs under an update of one job's steps and row. *)
Lemma rows_of_fmap d d' g x :
  keeps g → job_steps d' = g <$> job_steps d → rows_of d' x = g <$> rows_of d x.
Proof.
  intros Hg E. unfold rows_of. rewrite E. clear E. unfold select.
  induction (job_steps d) as [|r l IH]; [done|]. csimpl.
  assert (of_job x (g r) = of_job x r) as ->.
  { unfold of_job. by destruct (Hg r) as (_ & -> & _). }
  destruct (of_job x r); csimpl; by rewrite IH.
Qed.

Lemma rows_of_elem d x r : r ∈ rows_of d x ↔ r ∈ job_steps d ∧ s_job_id r = x.
Proof.
  unfold rows_of. rewrite elem_of_select. unfold of_job. rewrite bool_decide_eq_true. tauto.
Qed.

Lemma coherent_but_fmap id d d' g h :
  keeps g → keeps_job h → job_steps d' = g <$> job_steps d → jobs d' = h <$> jobs d →
  (∀ r, r ∈ job_steps d → s_job_id r ≠ id → g r = r) →
  (∀ j, j ∈ jobs d → job_id j ≠ id → h j = j) →
  coherent_but id d → coherent_but id d'.
Proof.
  intros Hg Hh Es Ej Hgid Hhid Hc j. rewrite Ej.
  intros (j0 & -> & Hj0)%list_elem_of_fmap Hne. destruct (Hh j0) as [E _].
  rewrite E in Hne. rewrite (Hhid j0 Hj0 Hne).
  rewrite (rows_of_fmap d d' g (job_id j0) Hg Es).
  rewrite (fmap_ext_elem g Datatypes.id); [rewrite list_fmap_id; by apply Hc|].
  intros r [Hr Ejob]%rows_of_elem. apply Hgid; [done|]. simpl. by rewrite Ejob.
Qed.

Lemma job_by_id_fmap d d' h id :
  keeps_job h → jobs d' = h <$> jobs d → job_by_id d' id = h <$> job_by_id d id.
Proof.
  intros Hh E. unfold job_by_id. rewrite E. clear E. unfold find_row.
  induction (jobs d) as [|j l IH]; [done|]. csimpl.
  assert (is_job id (h j) = is_job id j) as ->. { unfold is_job. by destruct (Hh j) as [-> _]. }
  destruct (is_job id j); [done|]. apply IH.
Qed.

Lemma refresh_ledger_ok id now d j :
  ready_to_refresh id d → job_by_id d id = Some j → ledger_ok (refresh_db id now j d).
Proof.
  intros (Ht & Hb & j' & Ej & Hs) Ej'. rewrite Ej in Ej'. injection Ej' as <-.
  split; [by apply refresh_tables_ok|].
  apply job_by_id_Some in Ej as [Hj Hid].
  intros r Hr. unfold refresh_db in Hr. simpl in Hr.
  apply elem_of_update_where in Hr as (r0 & Hr0 & ->).
  assert (∀ x, rows_of (refresh_db id now j' d) x = rows_of d x) as Erows by done.
  destruct (is_job id r0) eqn:E; rewrite Erows; simpl.
  - apply bool_decide_eq_true in E.
    assert (r0 = j') as -> by (eapply (elem_of_unique job_id); [apply Ht|..]; congruence).
    rewrite Hid. by apply settled_refresh.
  - apply bool_decide_eq_false in E. by apply Hb.
Qed.

(** [_refresh] as an operation. *)
Lemma refresh_triple id now :
  triple (ready_to_refresh id) (_refresh id now) (λ _, ledger_ok).
Proof.
  intros d Hd x d' Hr. apply refresh_Ok in Hr as (j & Ej & ->). by apply refresh_ledger_ok.
Qed.

(** Settledness under a row-wise change of one job. *)
Lemma ready_fmap id d d' g h j :
  keeps g → keeps_job h → job_steps d' = g <$> job_steps d → jobs d' = h <$> jobs d →
  (∀ r, r ∈ job_steps d → s_job_id r ≠ id → g r = r) →
  (∀ j, j ∈ jobs d → job_id j ≠ id → h j = j) →
  tables_ok d' → coherent_but id d → job_by_id d id = Some j →
  settled (h j) (g <$> rows_of d id) → ready_to_refresh id d'.
Proof.
  intros Hg Hh Es Ej Hgid Hhid Ht Hc Hjob Hs. split_and!; [done| |].
  - by apply (coherent_but_fmap id d d' g h).
  - exists (h j). split.
    + rewrite (job_by_id_fmap d d' h id Hh Ej), Hjob. done.
    + by rewrite (rows_of_fmap d d' g id Hg Es).
Qed.

End Frames.
