(* ===== verification/JobEvolution.v ===== *)
(** * How the ledger may change: the transition diagrams of jobs and steps

    The states of a step and of a job move along the edges below, identities and
    requests never change, fencing tokens only grow, a new lease always comes
    with a larger token, and manifests are only added. *)

From stdpp Require Import base tactics list strings option sets relations.
From Stdlib Require Import ZArith NArith QArith Qminmax Lia.
From S2P Require Import Prelude Json Contracts JobModels JobLedger JobFacts JobInvariant.
From S2P Require Import JobCoherence.

Local Open Scope Z_scope.

Inductive step_edge : StepState.t → StepState.t → Prop :=
| edge_activate : step_edge StepState.PENDING StepState.READY
| edge_claim s : step_waiting s = true → step_edge s StepState.RUNNING
| edge_succeed : step_edge StepState.RUNNING StepState.SUCCEEDED
| edge_retry : step_edge StepState.RUNNING StepState.RETRY_WAIT
| edge_fail : step_edge StepState.RUNNING StepState.FAILED
| edge_exhaust s : step_waiting s = true → step_edge s StepState.FAILED
| edge_cancel s : step_active s = true → step_edge s StepState.CANCELLED.

(** Every edge but the one that hands out a lease. *)
Definition quiet_edge (s s' : StepState.t) : Prop := step_edge s s' ∧ s' ≠ StepState.RUNNING.

Inductive job_edge : JobState.t → JobState.t → Prop :=
| job_progress s s' : job_terminal s = false → s ≠ JobState.CANCEL_REQUESTED →
    job_terminal s' = false → job_edge s s'
| job_complete s : job_terminal s = false → s ≠ JobState.CANCEL_REQUESTED →
    job_edge s JobState.COMPLETED
| job_fail s : job_terminal s = false → s ≠ JobState.CANCEL_REQUESTED →
    job_edge s JobState.FAILED
| job_cancel : job_edge JobState.CANCEL_REQUESTED JobState.CANCELLED.

Record step_evolves (r r' : step_row) : Prop := {
  sv_id : step_id r' = step_id r;
  sv_job : s_job_id r' = s_job_id r;
  sv_spec : spec r' = spec r;
  sv_state : (fence r' = fence r ∧ rtc quiet_edge (s_state r) (s_state r') ∧
              (s_state r' = StepState.RUNNING → lease_owner r' = lease_owner r))
             ∨ (fence r < fence r' ∧ tc step_edge (s_state r) (s_state r')) }.

Record job_evolves (j j' : job_row) : Prop := {
  jv_id : job_id j' = job_id j;
  jv_run : run_id j' = run_id j;
  jv_scope : j_scope j' = j_scope j;
  jv_key : request_key j' = request_key j;
  jv_fingerprint : j_fingerprint j' = j_fingerprint j;
  jv_generation : generation j' = generation j;
  jv_request : request j' = request j;
  jv_cancel : cancel_requested j = true → cancel_requested j' = true;
  jv_state : rtc job_edge (j_state j) (j_state j') }.

(** Attempts are kept; once closed they are not rewritten. *)
Definition attempt_evolves (a a' : attempt_row) : Prop :=
  at_step_id a' = at_step_id a ∧ at_fence a' = at_fence a ∧ number a' = number a ∧
  worker a' = worker a ∧ (at_outcome a ≠ StepState.RUNNING → a' = a).

Definition attempts_evolve (l l' : list attempt_row) : Prop :=
  ∀ a, a ∈ l → ∃ a', a' ∈ l' ∧ attempt_evolves a a'.

Record evolves (d d' : db) : Prop := {
  ev_jobs : ∀ j, j ∈ jobs d → ∃ j', j' ∈ jobs d' ∧ job_evolves j j';
  ev_steps : ∀ r, r ∈ job_steps d → ∃ r', r' ∈ job_steps d' ∧ step_evolves r r';
  ev_attempts : attempts_evolve (step_attempts d) (step_attempts d');
  ev_manifests : artifact_manifests d `prefix_of` artifact_manifests d' }.

Lemma quiet_steps s s' : rtc quiet_edge s s' → rtc step_edge s s'.
Proof. intros H. induction H as [|x y z [H _] _ IH]; [done|]. by eapply rtc_l. Qed.

Lemma quiet_running s s' : rtc quiet_edge s s' → s' = StepState.RUNNING → s = StepState.RUNNING.
Proof. intros H. induction H as [|x y z [_ H] _ IH]; [done|]. intros E. by destruct H, IH. Qed.

(** No edge leaves a terminal state. *)
Lemma step_edge_active s s' : step_edge s s' → step_active s = true.
Proof. by destruct 1 as [|[]| | | |[]|]. Qed.

Lemma step_settled_stays s s' : rtc step_edge s s' → step_active s = false → s' = s.
Proof. intros H Hs. destruct H as [|x y z H _]; [done|]. by rewrite (step_edge_active _ _ H) in Hs. Qed.

Lemma job_edge_live s s' : job_edge s s' → job_terminal s = false.
Proof. by destruct 1. Qed.

Lemma job_terminal_stays s s' : rtc job_edge s s' → job_terminal s = true → s' = s.
Proof. intros H Hs. destruct H as [|x y z H _]; [done|]. by rewrite (job_edge_live _ _ H) in Hs. Qed.

#[export] Instance step_evolves_refl : Reflexive step_evolves.
Proof. intros r. split; try done. left. split_and!; [done|apply rtc_refl|done]. Qed.

#[export] Instance step_evolves_trans : Transitive step_evolves.
Proof.
  intros r1 r2 r3 [A1 A2 A3 A4] [B1 B2 B3 B4]. split; try congruence.
  destruct A4 as [(Fa & Qa & Oa)|[Fa Qa]], B4 as [(Fb & Qb & Ob)|[Fb Qb]].
  - left. split_and!; [congruence|by etrans|].
    intros E. rewrite Ob by done. apply Oa. by eapply quiet_running.
  - right. split; [lia|]. eapply tc_rtc_l; [by apply quiet_steps|done].
  - right. split; [lia|]. eapply tc_rtc_r; [done|by apply quiet_steps].
  - right. split; [lia|by etrans].
Qed.

#[export] Instance job_evolves_refl : Reflexive job_evolves.
Proof. intros j. split; try done. Qed.

#[export] Instance job_evolves_trans : Transitive job_evolves.
Proof. intros j1 j2 j3 [] []. split; try congruence; [auto|by etrans]. Qed.

Lemma attempts_evolve_incl l l' : l ⊆ l' → attempts_evolve l l'.
Proof. intros Hl a Ha. exists a. split; [by apply Hl|]. by split_and!. Qed.

#[export] Instance attempts_evolve_trans : Transitive attempts_evolve.
Proof.
  intros l1 l2 l3 H12 H23 a Ha. destruct (H12 a Ha) as (a2 & H2 & E1 & E2 & E3 & E4 & E5).
  destruct (H23 a2 H2) as (a3 & H3 & F1 & F2 & F3 & F4 & F5). exists a3. split; [done|].
  split_and!; try congruence. intros Ho. rewrite F5, E5; [done..|]. by rewrite E5.
Qed.

(** Closing open attempts. *)
Lemma attempts_evolve_close pa ga l :
  closes ga → (∀ a, a ∈ l → pa a = true → at_outcome a = StepState.RUNNING) →
  attempts_evolve l (update_where pa ga l).
Proof.
  intros Hga Hpa a Ha. exists (if pa a then ga a else a). split; [apply elem_of_update_where; eauto|].
  destruct (pa a) eqn:E; [|by split_and!]. destruct (Hga a) as (E1 & E2 & E3 & E4 & _).
  split_and!; try done. intros Ho. exfalso. by apply Ho, Hpa.
Qed.

#[export] Instance evolves_refl : Reflexive evolves.
Proof.
  intros d. split; [eauto using job_evolves_refl|eauto using step_evolves_refl| |done].
  by apply attempts_evolve_incl.
Qed.

#[export] Instance evolves_trans : Transitive evolves.
Proof.
  intros d1 d2 d3 [A1 A2 A3 A4] [B1 B2 B3 B4]. split.
  - intros j Hj. destruct (A1 j Hj) as (j2 & H2 & E2), (B1 j2 H2) as (j3 & H3 & E3).
    exists j3. split; [done|by etrans].
  - intros r Hr. destruct (A2 r Hr) as (r2 & H2 & E2), (B2 r2 H2) as (r3 & H3 & E3).
    exists r3. split; [done|by etrans].
  - by etrans.
  - by etrans.
Qed.

Lemma evolves_fmap d d' g h :
  job_steps d' = g <$> job_steps d → jobs d' = h <$> jobs d →
  artifact_manifests d `prefix_of` artifact_manifests d' →
  attempts_evolve (step_attempts d) (step_attempts d') →
  (∀ r, r ∈ job_steps d → step_evolves r (g r)) →
  (∀ j, j ∈ jobs d → job_evolves j (h j)) → evolves d d'.
Proof.
  intros Es Ej Hm Ha Hg Hh. split; [| |done|done]; rewrite ?Es, ?Ej.
  - intros j Hj. exists (h j). eauto using list_elem_of_fmap_2.
  - intros r Hr. exists (g r). eauto using list_elem_of_fmap_2.
Qed.

Lemma evolves_ext d d' :
  jobs d' = jobs d → job_steps d' = job_steps d → step_attempts d' = step_attempts d →
  artifact_manifests d' = artifact_manifests d → evolves d d'.
Proof.
  intros Ej Es Ea Em. apply (evolves_fmap d d' id id); rewrite ?list_fmap_id; try done.
  - by rewrite Em.
  - rewrite Ea. by apply attempts_evolve_incl.
Qed.

(** Rows with new state, same identity and token, along one quiet edge. *)
Lemma settle_evolves r st nb fin cat :
  quiet_edge (s_state r) st → step_evolves r (settle_row st nb fin cat r).
Proof.
  intros Hq. split; try done. left. split_and!; [done|by apply rtc_once|].
  simpl. intros ->. by destruct Hq.
Qed.

Lemma cancel_evolves r now : step_active (s_state r) = true → step_evolves r (set_cancelled now r).
Proof. intros Ha. apply settle_evolves. by split; [constructor|]. Qed.

Lemma ready_evolves r key inputs :
  s_state r = StepState.PENDING → step_evolves r (set_ready key inputs r).
Proof.
  intros Hst. split; try done. left. split_and!; [done| |done].
  rewrite Hst. apply rtc_once. split; [constructor|done].
Qed.

Lemma start_evolves r owner expires now :
  step_waiting (s_state r) = true → step_evolves r (start_row owner expires now r).
Proof.
  intros Hw. split; try done. right. split; [simpl; lia|]. apply tc_once. by constructor.
Qed.

(** Job rows rewritten by [set_job]. *)
Lemma set_job_evolves j st cr pr upd cat :
  (cancel_requested j = true → cr = true) → rtc job_edge (j_state j) st →
  job_evolves j (set_job st cr pr upd cat j).
Proof. by split. Qed.

(** [_refresh] moves a settled job along the diagram. *)
Lemma refreshed_edge j rows :
  settled j rows → rtc job_edge (j_state j) (refreshed_state j rows).
Proof.
  intros [_ _ _ _ Hl Hfl]. destruct (job_terminal (j_state j)) eqn:Et.
  { by rewrite refreshed_terminal. }
  specialize (Hfl eq_refl).
  destruct (refreshed_state_cases j rows Et)
    as [[Hcr [[Hno E]|[_ E]]]|[Hcr [[(r & Hr & Hf) E]|[_ [[_ E]|[_ [Hnt Hncr]]]]]]].
  - rewrite E. rewrite (proj1 Hfl Hcr). apply rtc_once, job_cancel.
  - rewrite E. by rewrite (proj1 Hfl Hcr).
  - by destruct (Hl eq_refl Hcr r Hr).
  - rewrite E. apply rtc_once, job_complete; [done|]. intros E'. apply Hfl in E'. congruence.
  - apply rtc_once, job_progress; try done. intros E'. apply Hfl in E'. congruence.
Qed.

Section Refresh.
Context `{Runtime}.

Lemma cancel_ids_attempts ids now d :
  attempts_evolve (step_attempts d) (step_attempts (cancel_ids ids now d)).
Proof.
  apply attempts_evolve_close; [done|]. intros a _ [_ E]%andb_true_iff.
  by apply bool_decide_eq_true in E.
Qed.

(** The attempt at the fence of a running step is open. *)
Lemma current_attempt_open d row a :
  tables_ok d → row ∈ job_steps d → s_state row = StepState.RUNNING → a ∈ step_attempts d →
  bool_decide (at_step_id a = step_id row) && (at_fence a =? fence row) = true →
  at_outcome a = StepState.RUNNING.
Proof.
  intros Ht Hrow Hst Ha [E1%bool_decide_eq_true E2%Z.eqb_eq]%andb_true_iff.
  destruct (at_running _ (t_attempts _ Ht) row Hrow Hst) as (a' & Ha' & F1 & F2 & F3 & _).
  assert (a = a') as ->; [|done].
  eapply (elem_of_unique (λ a, (at_step_id a, at_fence a))); [apply Ht|done|done|].
  simpl. congruence.
Qed.

Lemma refresh_evolves id now d j :
  ready_to_refresh id d → job_by_id d id = Some j → evolves d (refresh_db id now j d).
Proof.
  intros (Ht & _ & j' & Ej & Hs) Ej'. rewrite Ej in Ej'. injection Ej' as <-.
  apply job_by_id_Some in Ej as [Hj Hid].
  eapply (evolves_fmap d _ Datatypes.id); [by rewrite list_fmap_id|done|done|by apply attempts_evolve_incl|done|].
  intros r Hr. simpl. destruct (is_job id r) eqn:E; [|done].
  apply bool_decide_eq_true in E.
  assert (r = j') as -> by (eapply (elem_of_unique job_id); [apply Ht|..]; congruence).
  apply set_job_evolves; [done|]. by apply refreshed_edge.
Qed.

(** The state of an operation on the database [d0] before and after [_refresh]. *)
Definition good (d0 d : db) : Prop := ledger_ok d ∧ evolves d0 d.
Definition pre_refresh (d0 : db) (id : uuid) (d : db) : Prop := ready_to_refresh id d ∧ evolves d0 d.

Lemma refresh_good d0 id now : triple (pre_refresh d0 id) (_refresh id now) (λ _, good d0).
Proof.
  intros d [Hr Hev] x d' Hrun. apply refresh_Ok in Hrun as (j & Ej & ->). split.
  - by apply refresh_ledger_ok.
  - etrans; [done|]. by apply refresh_evolves.
Qed.

(** Only the tables of the invariant matter. *)
Lemma ready_ext id d d' :
  ready_to_refresh id d → jobs d' = jobs d → job_steps d' = job_steps d →
  step_attempts d' = step_attempts d → artifact_manifests d' = artifact_manifests d →
  ready_to_refresh id d'.
Proof.
  intros (Ht & Hb & j & Ej & Hs) E1 E2 E3 E4. split_and!.
  - by apply (tables_ok_ext d).
  - intros j'. unfold rows_of. rewrite E1, E2. apply Hb.
  - exists j. unfold job_by_id, rows_of in *. by rewrite E1, E2.
Qed.

Lemma ledger_ok_ext d d' :
  ledger_ok d → jobs d' = jobs d → job_steps d' = job_steps d →
  step_attempts d' = step_attempts d → artifact_manifests d' = artifact_manifests d →
  ledger_ok d'.
Proof.
  intros [Ht Hc] E1 E2 E3 E4. split; [by apply (tables_ok_ext d)|].
  intros j. unfold rows_of. rewrite E1, E2. apply Hc.
Qed.

End Refresh.
