(* ===== verification/JobOps.v ===== *)
(** * Every ledger operation preserves the invariant and follows the diagrams

    Cancellation, failure, lease and commit paths of [documents/jobs/sqlite.py],
    each as a triple from [ledger_ok] to [good]. *)

From stdpp Require Import base tactics list strings option sets relations.
From Stdlib Require Import ZArith NArith QArith Qminmax Lia.
From S2P Require Import Prelude Json Contracts JobModels JobLedger JobFacts JobInvariant.
From S2P Require Import JobCoherence JobEvolution.

Local Open Scope Z_scope.

Section Ops.
Context `{Runtime} (cfg : JobSettings).

(** A change confined to one job. *)
Lemma change_ready d0 id d d' g h j :
  evolves d0 d → coherent_but id d → job_by_id d id = Some j → tables_ok d' →
  keeps g → keeps_job h → job_steps d' = g <$> job_steps d → jobs d' = h <$> jobs d →
  artifact_manifests d `prefix_of` artifact_manifests d' →
  attempts_evolve (step_attempts d) (step_attempts d') →
  (∀ r, r ∈ job_steps d → s_job_id r ≠ id → g r = r) →
  (∀ j, j ∈ jobs d → job_id j ≠ id → h j = j) →
  (∀ r, r ∈ rows_of d id → step_evolves r (g r)) →
  (∀ j', j' ∈ jobs d → job_id j' = id → job_evolves j' (h j')) →
  settled (h j) (g <$> rows_of d id) → pre_refresh d0 id d'.
Proof.
  intros Hev Hc Hj Ht Hg Hh Es Ej Hm Ha Hgo Hho Hge Hhe Hs. split.
  - by apply (ready_fmap id d d' g h j).
  - etrans; [done|]. apply (evolves_fmap d d' g h); try done.
    + intros r Hr. destruct (decide (s_job_id r = id)) as [E|E].
      * apply Hge. by apply rows_of_elem.
      * by rewrite Hgo.
    + intros j' Hj'. destruct (decide (job_id j' = id)) as [E|E]; [auto|]. by rewrite Hho.
Qed.

Lemma good_job d0 d j : good d0 d → j ∈ jobs d → settled j (rows_of d (job_id j)).
Proof. intros [[_ Hc] _] Hj. by apply Hc. Qed.

Lemma good_but d0 id d : good d0 d → coherent_but id d.
Proof. intros [[_ Hc] _] j Hj _. by apply Hc. Qed.

Lemma job_unique d id j j' :
  tables_ok d → job_by_id d id = Some j → j' ∈ jobs d → job_id j' = id → j' = j.
Proof.
  intros Ht [Hj E]%job_by_id_Some Hj' E'.
  eapply (elem_of_unique job_id); [apply Ht|..]; congruence.
Qed.

Lemma step_in_rows d row : row ∈ job_steps d → row ∈ rows_of d (s_job_id row).
Proof. intros. by apply rows_of_elem. Qed.

(** A waiting step belongs to a live job. *)
Lemma waiting_live d r j :
  ledger_ok d → r ∈ job_steps d → j ∈ jobs d → job_id j = s_job_id r →
  step_waiting (s_state r) = true → job_terminal (j_state j) = false ∧ cancel_requested j = false.
Proof.
  intros [_ Hc] Hr Hj E Hw. destruct (Hc j Hj) as [[_ _ Ht Hca _ _] _ _].
  rewrite E in *. apply step_in_rows in Hr. destruct (job_terminal (j_state j)) eqn:Et.
  - specialize (Ht eq_refl r Hr). by destruct (s_state r).
  - split; [done|]. destruct (cancel_requested j); [|done].
    specialize (Hca eq_refl eq_refl r Hr). by destruct (s_state r).
Qed.

(** ** Cancellation *)

Definition request_cancel (r : job_row) : job_row :=
  set_job JobState.CANCEL_REQUESTED true (progress r) (updated_at r) (terminal_category r) r.

Definition cancel_job_db (id : uuid) (now : Z) (d : db) : db :=
  cancel_ids (step_id <$> select (λ r, of_job id r && step_unstarted (s_state r)) (job_steps d)) now
    (on_jobs (update_where (is_job id) request_cancel) d).

Lemma cancel_job_run id now d : _cancel_job id now d = Ok (tt, cancel_job_db id now d).
Proof.
  unfold _cancel_job. erewrite tx_bind_run; [|done]. erewrite tx_bind_run; [|done].
  by rewrite cancel_loop_run.
Qed.

Lemma keeps_cancel (p : step_row → bool) now : keeps (λ r, if p r then set_cancelled now r else r).
Proof. by apply keeps_if. Qed.

Lemma cancel_job_ready d0 id now d j :
  good d0 d → job_by_id d id = Some j → job_terminal (j_state j) = false →
  pre_refresh d0 id (cancel_job_db id now d).
Proof.
  intros Hgd Hj Hnt. pose proof Hgd as [[Ht Hc] Hev].
  pose proof (job_by_id_Some _ _ _ Hj) as [Hjin Hid].
  pose proof (good_job _ _ _ Hgd Hjin) as Hs. rewrite Hid in Hs.
  set (p := λ r, of_job id r && step_unstarted (s_state r)).
  eapply (change_ready d0 id d _ (λ r, if p r then set_cancelled now r else r)
            (λ r, if is_job id r then request_cancel r else r)); try done.
  - by apply (good_but d0).
  - apply cancel_ids_ok; [by apply tables_ok_jobs|]. simpl.
    intros s Hsin (s' & E & [Hp Hs']%elem_of_select)%list_elem_of_fmap Hst.
    assert (s = s') as -> by (eapply (elem_of_unique step_id); [apply Ht|..]; done).
    unfold p in Hp. rewrite Hst in Hp. by rewrite andb_false_r in Hp.
  - apply keeps_cancel.
  - apply (keeps_job_if (is_job id)). by intros r.
  - unfold cancel_job_db, cancel_ids. simpl. apply cancel_select_steps, Ht.
  - apply (cancel_ids_attempts _ now (on_jobs (update_where (is_job id) request_cancel) d)).
  - intros r Hr Hne. unfold p, of_job. by rewrite bool_decide_eq_false_2.
  - intros j' Hj' Hne. simpl. unfold is_job. by rewrite bool_decide_eq_false_2.
  - intros r Hr. destruct (p r) eqn:E; [|done]. apply cancel_evolves.
    apply andb_true_iff in E as [_ E]. by destruct (s_state r).
  - intros j' Hj' E. simpl. unfold is_job. rewrite bool_decide_eq_true_2 by done.
    rewrite (job_unique d id j j') by done. apply set_job_evolves; [done|].
    destruct (decide (j_state j = JobState.CANCEL_REQUESTED)) as [->|]; [done|].
    by apply rtc_once, job_progress.
  - simpl. unfold is_job. rewrite bool_decide_eq_true_2 by done.
    split; simpl; try done.
    + eapply (plan_ok_fmap j); [apply Hs|done|apply keeps_cancel| |]; intros r Hr.
      * destruct (p r) eqn:E; [|done]. unfold p in E. intros E'. rewrite E' in E.
        by rewrite andb_false_r in E.
      * destruct (p r); [done|]. auto.
    + intros _ _ r (r0 & -> & [Hr0 Ej]%rows_of_elem)%list_elem_of_fmap.
      destruct (p r0) eqn:E; [done|]. unfold p, of_job in E.
      by rewrite bool_decide_eq_true_2 in E.
Qed.

(** Cancelling one running step of a cancelled job. *)
Lemma cancel_step_ready d0 id now d j row :
  pre_refresh d0 id d → job_by_id d id = Some j → cancel_requested j = true →
  row ∈ job_steps d → s_job_id row = id → s_state row = StepState.RUNNING →
  pre_refresh d0 id (cancel_ids [step_id row] now d).
Proof.
  intros [(Ht & Hb & j' & Ej & Hs) Hev] Hj Hcr Hrow Hid Hst.
  rewrite Hj in Ej. injection Ej as <-.
  set (p := λ r, bool_decide (step_id r ∈ [step_id row])).
  assert (∀ r, r ∈ job_steps d → p r = true → r = row) as Hp.
  { intros r Hr E%bool_decide_eq_true. apply list_elem_of_singleton in E.
    eapply (elem_of_unique step_id); [apply Ht|..]; done. }
  eapply (change_ready d0 id d _ (λ r, if p r then set_cancelled now r else r) Datatypes.id); try done.
  - apply cancel_ids_ok; [done|]. intros s Hsin E%list_elem_of_singleton Hst'.
    assert (s = row) as -> by (eapply (elem_of_unique step_id); [apply Ht|..]; done). congruence.
  - apply keeps_cancel.
  - by rewrite list_fmap_id.
  - apply cancel_ids_attempts.
  - intros r Hr Hne. destruct (p r) eqn:E; [|done]. by apply Hp in E as ->.
  - intros r [Hr _]%rows_of_elem. destruct (p r) eqn:E; [|done]. apply Hp in E as ->; [|done].
    apply cancel_evolves. by rewrite Hst.
  - assert (∀ r, r ∈ rows_of d id → p r = true → s_state r = StepState.RUNNING) as Hrun.
    { intros r [Hr _]%rows_of_elem E. by apply Hp in E as ->. }
    destruct Hs as [Hpl Hco Hte Hca Hli Hfl]. split; simpl; try done.
    + eapply (plan_ok_fmap j); [done|done|apply keeps_cancel| |]; intros r Hr.
      * destruct (p r) eqn:E; [|done]. rewrite (Hrun r) by done. done.
      * destruct (p r); [done|]. auto.
    + intros E. exfalso. assert (row ∈ rows_of d id) as Hin by (by apply rows_of_elem).
      specialize (Hco E row Hin). congruence.
    + intros E r (r0 & -> & Hr0)%list_elem_of_fmap. destruct (p r0); [done|]. by apply Hte.
    + intros E _ r (r0 & -> & Hr0)%list_elem_of_fmap. destruct (p r0); [done|]. by apply Hca.
    + intros _. congruence.
Qed.


(** ** Terminal failure *)

Definition fail_job (cat : string) (r : job_row) : job_row :=
  set_job JobState.FAILED (cancel_requested r) (progress r) (updated_at r) (Some cat) r.

Definition failed_step_db (row : step_row) (now : Z) (cat : string) (d : db) : db :=
  on_steps (update_where (is_step (step_id row)) (set_failed now cat)) d.

Definition bury (row : step_row) (f : Failure) (now : Z) (l : list dead_letter) : list dead_letter :=
  if existsb (λ x, bool_decide (dl_step_id x = step_id row)) l then l
  else l ++ [{| dl_step_id := step_id row; dl_category := category f;
                dl_classification := classification f; dl_created_at := now |}].

Definition terminal_db (row : step_row) (f : Failure) (now : Z) (d : db) : db :=
  let d2 := on_jobs (update_where (is_job (s_job_id row)) (fail_job (category f)))
              (on_dead (bury row f now) (failed_step_db row now (category f) d)) in
  cancel_ids (step_id <$> select (λ r, of_job (s_job_id row) r && step_active (s_state r))
                            (job_steps d2)) now d2.

Lemma terminal_failure_run row f now d :
  _terminal_failure row f now d = Ok (tt, terminal_db row f now d).
Proof.
  unfold _terminal_failure. do 4 (erewrite tx_bind_run; [|done]). by rewrite cancel_loop_run.
Qed.

(** The rows of a job one of whose steps fails for good. *)
Definition fail_all (row : step_row) (now : Z) (cat : string) (r : step_row) : step_row :=
  if is_step (step_id row) r then set_failed now cat r
  else if of_job (s_job_id row) r && step_active (s_state r) then set_cancelled now r else r.

Lemma terminal_db_steps row f now d :
  NoDup (step_id <$> job_steps d) →
  job_steps (terminal_db row f now d) = fail_all row now (category f) <$> job_steps d.
Proof.
  intros Hnd. unfold terminal_db, cancel_ids. simpl.
  rewrite cancel_select_steps.
  - rewrite update_where_compose. apply fmap_ext_elem. intros r _. unfold fail_all. simpl.
    destruct (is_step (step_id row) r); simpl; [by rewrite andb_false_r|done].
  - rewrite update_where_fmap; done.
Qed.

Lemma fail_all_keeps row now cat : keeps (fail_all row now cat).
Proof. intros r. unfold fail_all. by repeat case_match. Qed.

Lemma terminal_ready d0 d j row f now :
  evolves d0 d → coherent_but (s_job_id row) d → job_by_id d (s_job_id row) = Some j →
  plan_ok j (rows_of d (s_job_id row)) →
  job_terminal (j_state j) = false → j_state j ≠ JobState.CANCEL_REQUESTED →
  row ∈ job_steps d → s_state row = StepState.RUNNING ∨ step_waiting (s_state row) = true →
  keys_ok d → tables_ok (failed_step_db row now (category f) d) →
  pre_refresh d0 (s_job_id row) (terminal_db row f now d).
Proof.
  intros Hev Hb Hj Hpl Hnt Hncr Hrow Hst Hk Ht.
  assert (∀ r, r ∈ job_steps d → is_step (step_id row) r = true → r = row) as Hu.
  { intros r Hr. by apply (is_step_unique d). }
  pose proof (job_by_id_Some _ _ _ Hj) as [Hjin Hid].
  assert (step_active (s_state row) = true ∧ s_state row ≠ StepState.PENDING) as [Hact Hnp].
  { destruct Hst as [->|Hw]; [done|]. by destruct (s_state row). }
  eapply (change_ready d0 (s_job_id row) d _ (fail_all row now (category f))
            (λ r, if is_job (s_job_id row) r then fail_job (category f) r else r)); try done.
  - unfold terminal_db. apply cancel_ids_ok.
    + apply tables_ok_jobs; [done|]. by apply (tables_ok_ext (failed_step_db row now (category f) d)).
    + simpl. intros s Hsin (s' & E & [Hp Hs']%elem_of_select)%list_elem_of_fmap Hst'.
      assert (s = s') as -> by (eapply (elem_of_unique step_id); [apply Ht|..]; done).
      rewrite Hst' in Hp. by rewrite andb_false_r in Hp.
  - apply fail_all_keeps.
  - by apply (keeps_job_if (is_job (s_job_id row))).
  - apply terminal_db_steps, Hk.
  - unfold terminal_db. etrans; [|apply cancel_ids_attempts]. by apply attempts_evolve_incl.
  - intros r Hr Hne. unfold fail_all, of_job. rewrite (bool_decide_eq_false_2 (s_job_id r = _)) by done.
    destruct (is_step (step_id row) r) eqn:E; [|done]. by apply Hu in E as ->.
  - intros j' Hj' Hne. unfold is_job. by rewrite bool_decide_eq_false_2.
  - intros r [Hr _]%rows_of_elem. unfold fail_all. destruct (is_step (step_id row) r) eqn:E.
    + apply Hu in E as ->; [|done]. apply settle_evolves. split; [|done].
      destruct Hst as [->|Hw]; by constructor.
    + destruct (of_job _ r && _) eqn:E'; [|done]. apply cancel_evolves.
      by apply andb_true_iff in E' as [_ ?].
  - intros j' Hj' E. unfold is_job. rewrite bool_decide_eq_true_2 by done.
    assert (j' = j) as -> by (eapply (elem_of_unique job_id); [apply Hk|..]; congruence).
    apply set_job_evolves; [done|]. by apply rtc_once, job_fail.
  - unfold is_job. rewrite bool_decide_eq_true_2 by done. split; simpl; try done.
    + eapply (plan_ok_fmap j); [done|done|apply fail_all_keeps| |]; intros r [Hr Ejob]%rows_of_elem;
        unfold fail_all.
      * intros E. destruct (is_step (step_id row) r) eqn:E'; [|by rewrite E, andb_false_r].
        apply Hu in E' as ->; [|done]. by rewrite E in Hact.
      * destruct (is_step (step_id row) r) eqn:E'.
        -- apply Hu in E' as ->; [|done]. intros _ _. left. split; [done|].
           intros E. by rewrite E in Hact.
        -- destruct (of_job _ r && _); [done|]. auto.
    + intros _ r (r0 & -> & [Hr0 Ej]%rows_of_elem)%list_elem_of_fmap. unfold fail_all.
      destruct (is_step (step_id row) r0); [done|]. unfold of_job.
      rewrite bool_decide_eq_true_2 by done. simpl. by destruct (step_active (s_state r0)) eqn:E.
Qed.

(** ** One started step of a live job changes *)

Definition one_row (row : step_row) (g : step_row → step_row) (r : step_row) : step_row :=
  if is_step (step_id row) r then g r else r.

(** Neither state counts as succeeded, failed, cancelled or pending. *)
Definition in_flight (s : StepState.t) : bool :=
  match s with StepState.READY | StepState.RETRY_WAIT | StepState.RUNNING => true | _ => false end.

Lemma one_row_ready d0 d d' j row g :
  good d0 d → job_by_id d (s_job_id row) = Some j →
  job_terminal (j_state j) = false → cancel_requested j = false →
  row ∈ job_steps d → in_flight (s_state row) = true → in_flight (s_state (g row)) = true →
  keeps g → step_evolves row (g row) → tables_ok d' →
  job_steps d' = one_row row g <$> job_steps d → jobs d' = jobs d →
  artifact_manifests d' = artifact_manifests d →
  attempts_evolve (step_attempts d) (step_attempts d') →
  pre_refresh d0 (s_job_id row) d'.
Proof.
  intros Hgd Hj Hnt Hncr Hrow Hst Hst' Hg Hse Ht Es Ej Em Ha.
  pose proof Hgd as [[Ht0 Hc] Hev].
  assert (∀ r, r ∈ job_steps d → is_step (step_id row) r = true → r = row) as Hu.
  { intros r Hr. apply (is_step_unique d); [apply Ht0|done|done]. }
  pose proof (job_by_id_Some _ _ _ Hj) as [Hjin Hid].
  pose proof (good_job _ _ _ Hgd Hjin) as Hs. rewrite Hid in Hs.
  assert (keeps (one_row row g)) as Hk by (by apply (keeps_if (is_step (step_id row)))).
  assert (∀ r, r ∈ rows_of d (s_job_id row) → in_state StepState.SUCCEEDED (one_row row g r)
                                              = in_state StepState.SUCCEEDED r) as Hsucc.
  { intros r [Hr _]%rows_of_elem. unfold one_row. destruct (is_step _ r) eqn:E; [|done].
    apply Hu in E as ->; [|done]. unfold in_state.
    by destruct (s_state row), (s_state (g row)). }
  eapply (change_ready d0 (s_job_id row) d d' (one_row row g) Datatypes.id); try done.
  - by apply (good_but d0).
  - by rewrite list_fmap_id.
  - by rewrite Em.
  - intros r Hr Hne. unfold one_row. destruct (is_step _ r) eqn:E; [|done]. by apply Hu in E as ->.
  - intros r [Hr _]%rows_of_elem. unfold one_row. destruct (is_step _ r) eqn:E; [|done].
    by apply Hu in E as ->.
  - simpl. destruct Hs as [Hpl Hco Hte Hca Hli Hfl].
    split; simpl; try done; rewrite ?Hnt, ?Hncr; try done.
    + eapply (plan_ok_fmap j); [done|done|done| |]; intros r Hr.
      * intros E. specialize (Hsucc r Hr). unfold in_state in Hsucc.
        rewrite (bool_decide_eq_true_2 (s_state r = _)) in Hsucc by done.
        by apply bool_decide_eq_true in Hsucc.
      * apply rows_of_elem in Hr as [Hr _]. unfold one_row. destruct (is_step _ r) eqn:E; [|auto].
        apply Hu in E as ->; [|done]. intros _ _. left. by destruct (s_state row).
    + intros E. by rewrite E in Hnt.
    + intros _ _ r (r0 & -> & Hr0)%list_elem_of_fmap.
      destruct (Hli Hnt Hncr r0 Hr0) as (H1 & H2 & H3). unfold blocked.
      rewrite deps_succeeded_ext by done. destruct (Hk r0) as (_ & _ & _ & ->).
      unfold one_row. destruct (is_step _ r0) eqn:E; [|done].
      apply rows_of_elem in Hr0 as [Hr0 _]. apply Hu in E as ->; [|done].
      by destruct (s_state (g row)).
Qed.

Lemma live_not_requested d0 d j :
  good d0 d → j ∈ jobs d → job_terminal (j_state j) = false → cancel_requested j = false →
  j_state j ≠ JobState.CANCEL_REQUESTED.
Proof.
  intros Hgd Hj Hnt Hncr E. apply (good_job _ _ _ Hgd) in Hj as [_ _ _ _ _ Hfl].
  apply Hfl in E; congruence.
Qed.

(** A lease holder's row, and its job. *)
Definition held (d : db) (job : job_row) (row : step_row) : Prop :=
  job_by_id d (s_job_id row) = Some job ∧ row ∈ job_steps d ∧ s_state row = StepState.RUNNING ∧
  job_terminal (j_state job) = false ∧ cancel_requested job = false.

Lemma closes_set_attempt st fin cat cls nb :
  st ≠ StepState.RUNNING → closes (set_attempt st fin cat cls nb).
Proof. by intros ? a. Qed.

Lemma failure_good d0 job row f now :
  triple (λ d, good d0 d ∧ held d job row) (_failure job row f now) (λ _, good d0).
Proof.
  intros d [Hgd (Hj & Hrow & Hst & Hnt & Hncr)] x d' Hrun.
  pose proof Hgd as [[Ht Hc] Hev].
  unfold _failure in Hrun. apply tx_bind_Ok in Hrun as (started & s & Hs & Hrun). tx_inv Hs.
  apply tx_bind_Ok in Hrun as ([] & d1 & H1 & Hrun). unfold update_attempt in H1. tx_inv H1.
  apply tx_bind_Ok in Hrun as ([] & d2 & H2 & Hrun).
  eapply (refresh_good d0 (s_job_id row) now d2); [|exact Hrun]. clear Hrun x d'.
  match type of H2 with (if ?b then _ else _) _ = _ => destruct b eqn:Eagain end.
  - unfold update_step, _enqueue in H2. tx_inv H2. subst.
    eapply (one_row_ready d0 d _ job row (set_retry _ _)); try done; [by rewrite Hst| | |].
    + apply settle_evolves. rewrite Hst. split; [constructor|done].
    + eapply tables_ok_ext; [apply (settle_ok d row StepState.RETRY_WAIT); try done|done..].
      { by apply closes_set_attempt. }
      right. split; [done|]. intros j Hjin Ejob.
      rewrite !andb_true_iff in Eagain. destruct Eagain as [[_ Elt%Z.ltb_lt] _].
      rewrite (job_unique d (s_job_id row) job j) by done.
      rewrite <-(ro_count (policy_of job)); [done|].
      apply job_by_id_Some in Hj as [? ?]. by apply Ht.
    + apply attempts_evolve_close; [by apply closes_set_attempt|].
      intros a' Ha'. by apply (current_attempt_open d).
  - rewrite terminal_failure_run in H2. injection H2 as <-.
    pose proof (job_by_id_Some _ _ _ Hj) as [Hjin Hid].
    apply (terminal_ready d0 _ job); try done.
    + etrans; [done|]. eapply (evolves_fmap d _ Datatypes.id Datatypes.id);
        try done; try by rewrite list_fmap_id.
      apply attempts_evolve_close; [by apply closes_set_attempt|].
      intros a' Ha'. by apply (current_attempt_open d).
    + exact (good_but d0 _ d Hgd).
    + pose proof (good_job _ _ _ Hgd Hjin) as [Hpl _]. by rewrite Hid in Hpl.
    + by apply (live_not_requested d0 d).
    + by left.
    + eapply keys_ok_fmap with (g := Datatypes.id) (h := Datatypes.id);
        [done|done| | |apply Ht]; simpl; by rewrite list_fmap_id.
    + apply (settle_ok d row StepState.FAILED); try done; first [by apply closes_set_attempt|by left].
Qed.
End Ops.
