(* ===== verification/JobCommit.v ===== *)
(** * Leases and commits

    Claim, renewal, failure, cancellation, settlement and registration; then the activation of
    dependent steps and the commit of a step's manifest. *)

From stdpp Require Import base tactics list strings option sets relations.
From Stdlib Require Import ZArith NArith QArith Qminmax Lia.
From S2P Require Import Prelude Json Contracts JobModels JobLedger JobFacts JobInvariant.
From S2P Require Import JobCoherence JobEvolution JobOps.

Local Open Scope Z_scope.

(** ** What the guarded reads return *)

Lemma job_Ok scope id d j d' :
  _job scope id d = Ok (j, d') →
  d' = d ∧ j ∈ jobs d ∧ job_id j = id ∧ j_scope j = identity scope.
Proof.
  unfold _job. intros Hr. tx_inv Hr. apply find_row_Some in Hr as [Hj E].
  apply andb_true_iff in E as [E1%bool_decide_eq_true E2%bool_decide_eq_true]. done.
Qed.

Lemma step_Ok job id d r d' :
  _step job id d = Ok (r, d') →
  d' = d ∧ r ∈ job_steps d ∧ step_id r = id ∧ s_job_id r = job.
Proof.
  unfold _step. intros Hr. tx_inv Hr. apply find_row_Some in Hr as [Hj E].
  apply andb_true_iff in E as [E1%bool_decide_eq_true E2%bool_decide_eq_true]. done.
Qed.

Section Leases.
Context `{Runtime} (cfg : JobSettings).

Lemma job_Ok_by_id scope id d j d' :
  tables_ok d → _job scope id d = Ok (j, d') → job_by_id d id = Some j.
Proof. intros Ht (-> & Hj & <- & _)%job_Ok. apply job_by_id_elem; [apply Ht|done]. Qed.

(** What an accepted lease says about the ledger. *)
Lemma check_lease_Ok l now settling d job row d' :
  _check_lease l now settling d = Ok ((job, row), d') →
  d' = d ∧ job ∈ jobs d ∧ job_id job = l_job_id l ∧ j_scope job = identity (l_scope l) ∧
  row ∈ job_steps d ∧ step_id row = l_step_id l ∧ s_job_id row = l_job_id l ∧
  fence row = l_fence l ∧ lease_owner row = Some (l_owner l) ∧ s_state row = StepState.RUNNING ∧
  (settling = false → cancel_requested job = false ∧ job_terminal (j_state job) = false ∧
                      ∃ e, lease_expires_at row = Some e ∧ now < e).
Proof.
  unfold _check_lease. intros Hr.
  apply tx_bind_Ok in Hr as (job' & d1 & H1 & Hr). apply job_Ok in H1 as (-> & Hj & Hid & Hsc).
  apply tx_bind_Ok in Hr as (row' & d2 & H2 & Hr).
  apply step_Ok in H2 as (-> & Hrow & Hsid & Hjid).
  apply tx_bind_Ok in Hr as ([] & d3 & H3 & Hr). tx_inv H3.
  apply tx_bind_Ok in Hr as ([] & d4 & H4 & Hr). tx_inv H4.
  apply tx_bind_Ok in Hr as ([] & d5 & H5 & Hr).
  apply mret_Ok in Hr as [Er ->]. simplify_eq.
  apply andb_true_iff in H3 as [F%Z.eqb_eq O%bool_decide_eq_true].
  apply bool_decide_eq_true in H4.
  destruct settling; tx_inv H5; [by split_and!|]. split_and!; try done. intros _.
  match goal with
  | H1 : negb (cancel_requested _) = true, H2 : negb (job_terminal _) = true |- _ =>
      apply negb_true_iff in H1, H2; split_and!; try done
  end.
  apply Z.ltb_lt in H5. eauto.
Qed.

Lemma check_lease_held l now d job row d' :
  tables_ok d → _check_lease l now false d = Ok ((job, row), d') →
  d' = d ∧ held d job row ∧ step_id row = l_step_id l ∧ s_job_id row = l_job_id l.
Proof.
  intros Ht Hr. apply check_lease_Ok in Hr
    as (-> & Hj & Hid & _ & Hrow & Hsid & Hjid & _ & _ & Hst & Hlive).
  destruct (Hlive eq_refl) as (Hc & Hnt & _). split_and!; try done.
  split_and!; try done. rewrite Hjid, <-Hid. apply job_by_id_elem; [apply Ht|done].
Qed.

(** ** Starting an attempt *)

Lemma start_attempt_good d0 scope jid sid owner job row now :
  triple (λ d, good d0 d ∧ row ∈ job_steps d ∧ step_id row = sid ∧ s_job_id row = jid ∧
               step_waiting (s_state row) = true)
    (start_attempt cfg scope jid sid owner job row now) (λ _, good d0).
Proof.
  intros d (Hgd & Hrow & <- & <- & Hw) x d' Hrun. pose proof Hgd as [[Ht Hc] Hev].
  destruct (k_fk _ (t_keys _ Ht) row Hrow) as (j & Hjin & Hid).
  destruct (waiting_live d row j) as [Hnt Hncr]; try done.
  assert (job_by_id d (s_job_id row) = Some j) as Hj.
  { rewrite <-Hid. apply job_by_id_elem; [apply Ht|done]. }
  unfold start_attempt in Hrun.
  match type of Hrun with (if ?b then _ else _) _ = _ => destruct b end.
  - apply tx_bind_Ok in Hrun as ([] & d1 & H1 & Hrun).
    apply tx_bind_Ok in Hrun as ([] & d2 & H2 & Hrun). tx_inv Hrun.
    rewrite terminal_failure_run in H1. injection H1 as <-.
    eapply refresh_good; [|exact H2]. apply (terminal_ready d0 d j); try done.
    + by apply (good_but d0).
    + pose proof (good_job _ _ _ Hgd Hjin) as [Hpl _]. by rewrite Hid in Hpl.
    + by apply (live_not_requested d0 d).
    + by right.
    + apply Ht.
    + by apply fail_waiting_ok.
  - apply tx_bind_Ok in Hrun as ([] & d1 & H1 & Hrun). unfold update_step in H1. tx_inv H1.
    apply tx_bind_Ok in Hrun as ([] & d2 & H2 & Hrun). unfold insert_attempt in H2. tx_inv H2.
    apply tx_bind_Ok in Hrun as ([] & d3 & H3 & Hrun). tx_inv Hrun. subst.
    eapply refresh_good; [|exact H3].
    set (expires := now + timedelta_us (lease_seconds cfg)).
    assert (update_where (is_step (step_id row))
              (set_running (attempt_count row + 1) (fence row + 1) owner expires now) (job_steps d)
            = update_where (is_step (step_id row)) (start_row owner expires now) (job_steps d)) as Eu.
    { apply update_where_ext. intros r Hr. split; [done|]. intros E.
      apply (is_step_unique d) in E as ->; [done|apply Ht|done|done]. }
    eapply (one_row_ready d0 d _ j row (start_row owner expires now)); try done.
    + by destruct (s_state row).
    + by apply start_evolves.
    + eapply tables_ok_ext; [apply (start_ok d row owner expires now); done|..]; try done.
    + apply attempts_evolve_incl. simpl. set_solver.
Qed.

(** ** The public operations *)

Lemma claim_good d0 scope jid sid owner now :
  triple (good d0) (claim cfg scope jid sid owner now) (λ _, good d0).
Proof.
  intros d Hgd x d' Hrun. pose proof Hgd as [[Ht Hc] Hev]. unfold claim in Hrun.
  apply tx_bind_Ok in Hrun as ([] & d1 & H1 & Hrun). tx_inv H1.
  apply tx_bind_Ok in Hrun as (job & d2 & H2 & Hrun).
  pose proof (job_Ok_by_id _ _ _ _ _ Ht H2) as Hj. apply job_Ok in H2 as (-> & Hjin & Hid & _).
  apply tx_bind_Ok in Hrun as (row0 & d3 & H3 & Hrun).
  apply step_Ok in H3 as (-> & Hrow & Hsid & Hjid).
  destruct (cancel_requested job || job_terminal (j_state job)) eqn:Elive; [by tx_inv Hrun|].
  apply orb_false_iff in Elive as [Hncr Hnt].
  apply tx_bind_Ok in Hrun as (row & d4 & H4 & Hrun).
  assert (good d0 d4 ∧ row ∈ job_steps d4 ∧ step_id row = sid ∧ s_job_id row = jid)
    as (Hgd4 & Hrow4 & Hsid4 & Hjid4).
  { destruct (expired_lease now row0) eqn:Eexp; [|by tx_inv H4].
    apply tx_bind_Ok in H4 as ([] & d5 & H5 & H4). apply step_Ok in H4 as (-> & ? & ? & ?).
    split_and!; try done. eapply failure_good; [|exact H5]. split; [done|].
    apply andb_true_iff in Eexp as [Est%bool_decide_eq_true _].
    split_and!; try done. by rewrite Hjid. }
  destruct (negb (step_waiting (s_state row)) || (now <? not_before row)) eqn:Ew; [by tx_inv Hrun|].
  apply orb_false_iff in Ew as [Ew%negb_false_iff _].
  eapply start_attempt_good; [|exact Hrun]. by split_and!.
Qed.

(** Row changes that keep every state keep the jobs coherent. *)
Lemma coherent_same_state j g rows :
  keeps g → (∀ r, r ∈ rows → s_state (g r) = s_state r) → coherent j rows → coherent j (g <$> rows).
Proof.
  intros Hg Hs [[Hpl Hco Hte Hca Hli Hfl] Hpr Hst].
  assert (∀ st, count_state st (g <$> rows) = count_state st rows) as Ecount.
  { intros st. unfold count_state. clear -Hs. induction rows as [|r rows IH]; [done|].
    csimpl. rewrite !count_cons, IH by set_solver. unfold in_state.
    by rewrite (Hs r) by set_solver. }
  assert (refreshed_progress (g <$> rows) = refreshed_progress rows) as Epr.
  { unfold refreshed_progress, len. rewrite !Ecount, length_fmap. f_equal.
    clear -Hs Hg. unfold find_row. induction rows as [|r rows IH]; [done|]. csimpl. unfold in_state.
    rewrite (Hs r) by set_solver. destruct (bool_decide _); [|apply IH; set_solver].
    simpl. by destruct (Hg r) as (_ & _ & _ & ->). }
  assert (∀ r, r ∈ g <$> rows → ∃ r0, r0 ∈ rows ∧ r = g r0 ∧ s_state r = s_state r0) as Hel.
  { intros r (r0 & -> & Hr0)%list_elem_of_fmap. eauto. }
  split.
  - split; try done.
    + eapply (plan_ok_fmap j); [done|done|done| |]; intros r Hr; rewrite Hs by done; auto.
    + intros E r (r0 & Hr0 & -> & ->)%Hel. auto.
    + intros E r (r0 & Hr0 & -> & ->)%Hel. auto.
    + intros E E' r (r0 & Hr0 & -> & ->)%Hel. auto.
    + intros E E' r (r0 & Hr0 & -> & ->)%Hel. unfold blocked. destruct (Hg r0) as (_ & _ & _ & ->).
      rewrite deps_succeeded_ext; [by apply Hli|done|].
      intros r Hr. unfold in_state. by rewrite Hs.
  - by rewrite Epr.
  - etrans; [|exact Hst]. unfold refreshed_state. rewrite Epr, !Ecount. unfold len.
    by rewrite length_fmap.
Qed.

Lemma renew_good d0 l now : triple (good d0) (renew cfg l now) (λ _, good d0).
Proof.
  intros d Hgd x d' Hrun. pose proof Hgd as [[Ht Hc] Hev]. unfold renew in Hrun.
  apply tx_bind_Ok in Hrun as ([job row] & d1 & H1 & Hrun).
  apply check_lease_held in H1 as (-> & (Hj & Hrow & Hst & Hnt & Hncr) & Hsid & Hjid); [|done].
  unfold update_step in Hrun. tx_inv Hrun. rewrite <-Hsid.
  set (g := one_row row (set_expires (now + timedelta_us (lease_seconds cfg)))).
  assert (keeps g) as Hg by (by apply (keeps_if (is_step (step_id row)))).
  assert (∀ r, s_state (g r) = s_state r) as Hs.
  { intros r. unfold g, one_row. by destruct (is_step (step_id row) r). }
  split; [split; [by apply extend_ok|]|].
  - intros j Hjin. erewrite (rows_of_fmap d _ g); [|done|done].
    apply coherent_same_state; auto.
  - etrans; [done|]. eapply (evolves_fmap d _ g Datatypes.id); try done;
      [by rewrite list_fmap_id|by apply attempts_evolve_incl|].
    intros r _. unfold g, one_row. destruct (is_step _ r); [|done]. split; try done.
    left. by split_and!.
Qed.

Lemma fail_good d0 l f now : triple (good d0) (fail l f now) (λ _, good d0).
Proof.
  intros d Hgd x d' Hrun. pose proof Hgd as [[Ht Hc] Hev]. unfold fail in Hrun.
  apply tx_bind_Ok in Hrun as ([job row] & d1 & H1 & Hrun).
  apply check_lease_held in H1 as (-> & Hheld & Hsid & Hjid); [|done].
  destruct (bool_decide _); [|by eapply failure_good].
  destruct Hheld as (Hj & Hrow & Hst & Hnt & Hncr).
  pose proof (job_by_id_Some _ _ _ Hj) as [Hjin Hid].
  apply tx_bind_Ok in Hrun as ([] & d2 & H2 & Hrun). rewrite cancel_job_run in H2. injection H2 as <-.
  apply tx_bind_Ok in Hrun as ([] & d3 & H3 & Hrun). rewrite cancel_step_run in H3. injection H3 as <-.
  eapply refresh_good; [|exact Hrun]. rewrite Hid.
  apply (cancel_step_ready d0 _ now _ (request_cancel job)); try done.
  - by apply (cancel_job_ready d0 _ now d job).
  - unfold cancel_job_db, cancel_ids, job_by_id. simpl.
    rewrite find_row_update by done. unfold job_by_id in Hj. rewrite Hj. simpl.
    unfold is_job. by rewrite bool_decide_eq_true_2.
  - unfold cancel_job_db, cancel_ids. simpl. apply elem_of_update_where. exists row. split; [done|].
    rewrite bool_decide_eq_false_2; [done|].
    intros (r & E & [Hp Hr]%elem_of_select)%list_elem_of_fmap.
    assert (r = row) as -> by (eapply (elem_of_unique step_id); [apply Ht|..]; done).
    by rewrite Hst, andb_false_r in Hp.
Qed.

Lemma cancel_good d0 scope id now : triple (good d0) (cancel scope id now) (λ _, good d0).
Proof.
  intros d Hgd x d' Hrun. pose proof Hgd as [[Ht Hc] Hev]. unfold cancel in Hrun.
  apply tx_bind_Ok in Hrun as (job & d1 & H1 & Hrun).
  pose proof (job_Ok_by_id _ _ _ _ _ Ht H1) as Hj. apply job_Ok in H1 as (-> & Hjin & Hid & _).
  destruct (job_terminal (j_state job)) eqn:Et; [by tx_inv Hrun|].
  apply tx_bind_Ok in Hrun as ([] & d2 & H2 & Hrun). rewrite cancel_job_run in H2. injection H2 as <-.
  apply tx_bind_Ok in Hrun as ([] & d3 & H3 & Hrun). apply job_Ok in Hrun as (-> & _).
  eapply refresh_good; [|exact H3]. rewrite Hid. by apply (cancel_job_ready d0 id now d job).
Qed.

(** A running step of a job whose cancellation was requested. *)
Lemma cancel_running_good d0 d d' job row now x :
  good d0 d → job_by_id d (s_job_id row) = Some job → row ∈ job_steps d →
  s_state row = StepState.RUNNING → cancel_requested job = true →
  (_ ← _cancel_step (step_id row) now; _refresh (s_job_id row) now) d = Ok (x, d') → good d0 d'.
Proof.
  intros Hgd Hj Hrow Hst Hcr Hrun. pose proof Hgd as [Hok Hev].
  apply tx_bind_Ok in Hrun as ([] & d2 & H2 & Hrun). rewrite cancel_step_run in H2. injection H2 as <-.
  eapply refresh_good; [|exact Hrun]. apply (cancel_step_ready d0 _ now d job); try done.
  split; [|done]. pose proof (job_by_id_Some _ _ _ Hj) as [Hjin Hid]. rewrite <-Hid.
  by apply ledger_ok_ready.
Qed.

Lemma settle_cancel_good d0 l now : triple (good d0) (settle_cancel l now) (λ _, good d0).
Proof.
  intros d Hgd x d' Hrun. pose proof Hgd as [[Ht Hc] Hev]. unfold settle_cancel in Hrun.
  apply tx_bind_Ok in Hrun as ([job row] & d1 & H1 & Hrun).
  apply check_lease_Ok in H1 as (-> & Hj & Hid & _ & Hrow & Hsid & Hjid & _ & _ & Hst & _).
  apply tx_bind_Ok in Hrun as ([] & d2 & H2 & Hrun). tx_inv H2. rewrite <-Hjid in Hrun.
  eapply (cancel_running_good d0 d); [done| |done..|exact Hrun].
  rewrite Hjid, <-Hid. apply job_by_id_elem; [apply Ht|done].
Qed.

(** Operations that leave the tables of the invariant alone. *)
Lemma good_ext d0 d d' :
  good d0 d → jobs d' = jobs d → job_steps d' = job_steps d →
  step_attempts d' = step_attempts d → artifact_manifests d' = artifact_manifests d → good d0 d'.
Proof.
  intros [Hok Hev] E1 E2 E3 E4. split; [by apply (ledger_ok_ext d)|].
  etrans; [done|]. by apply evolves_ext.
Qed.

Lemma register_object_good d0 l ref now : triple (good d0) (register_object l ref now) (λ _, good d0).
Proof.
  intros d Hgd x d' Hrun. pose proof Hgd as [[Ht Hc] Hev]. unfold register_object in Hrun.
  apply tx_bind_Ok in Hrun as ([] & d1 & H1 & Hrun). tx_inv H1.
  apply tx_bind_Ok in Hrun as ([] & d2 & H2 & Hrun). tx_inv H2.
  apply tx_bind_Ok in Hrun as ([job row] & d3 & H3 & Hrun).
  apply check_lease_Ok in H3 as (-> & _).
  apply tx_bind_Ok in Hrun as (il & d4 & H4 & Hrun). tx_inv H4.
  destruct (find_row _ _); tx_inv Hrun; [done|]. by apply (good_ext d0 d).
Qed.

Lemma mark_delivered_good d0 m now : triple (good d0) (mark_delivered m now) (λ _, good d0).
Proof.
  intros d Hgd x d' Hrun. unfold mark_delivered in Hrun.
  apply tx_bind_Ok in Hrun as (? & d1 & H1 & Hrun). apply job_Ok in H1 as (-> & _).
  apply tx_bind_Ok in Hrun as (? & d2 & H2 & Hrun). apply step_Ok in H2 as (-> & _).
  tx_inv Hrun. subst. by apply (good_ext d0 d).
Qed.

End Leases.

(** A pending row all of whose dependencies have succeeded. *)
Definition fires (rows : list step_row) (r : step_row) : bool :=
  in_state StepState.PENDING r
  && match deps_succeeded rows (depends_on (spec r)) with Ok b => b | Err _ => false end.

Definition ready_row (ids : list uuid) (key inp : uuid → digest) (r : step_row) : step_row :=
  if bool_decide (step_id r ∈ ids) then set_ready (key (step_id r)) (inp (step_id r)) r else r.

Section Activation.
Context `{Runtime}.

Lemma activate_row_Ok job rows now row d x d' :
  activate_row job rows now row d = Ok (x, d') →
  (s_state row = StepState.PENDING →
     ∃ b, deps_succeeded rows (depends_on (spec row)) = Ok b) ∧
  ∃ k i, job_steps d' = ready_row (if fires rows row then [step_id row] else []) (λ _, k) (λ _, i)
                          <$> job_steps d ∧
    jobs d' = jobs d ∧ step_attempts d' = step_attempts d ∧
    artifact_manifests d' = artifact_manifests d.
Proof.
  unfold activate_row, fires. unfold in_state at 1 2.
  assert (∀ k i, ready_row [] k i <$> job_steps d = job_steps d) as Hnil.
  { intros k i. rewrite <-(list_fmap_id (job_steps d)) at 2. apply fmap_ext_elem. intros r _.
    unfold ready_row. by rewrite bool_decide_eq_false_2 by set_solver. }
  case_bool_decide as Hst; simpl; intros Hr.
  2:{ tx_inv Hr. split; [done|]. exists EmptyString, EmptyString. by rewrite Hnil. }
  apply tx_bind_Ok in Hr as (b & d1 & H1 & Hr). tx_inv H1. rewrite H1.
  split; [eauto|]. destruct b; simpl in Hr.
  - apply tx_bind_Ok in Hr as (ps & d1 & H2 & Hr). tx_inv H2.
    apply tx_bind_Ok in Hr as ([] & d2 & H2 & Hr). unfold make_ready, update_step in H2. tx_inv H2.
    unfold _enqueue in Hr. tx_inv Hr. subst. eexists _, _. split; [|done]. simpl.
    apply fmap_ext_elem. intros r _. unfold ready_row, is_step.
    by rewrite (bool_decide_ext (step_id r ∈ [step_id row]) (step_id r = step_id row))
      by apply list_elem_of_singleton.
  - tx_inv Hr. exists EmptyString, EmptyString. by rewrite Hnil.
Qed.

Lemma activate_loop_Ok job rows now l d x d' :
  for_each (activate_row job rows now) l d = Ok (x, d') →
  (∀ row, row ∈ l → s_state row = StepState.PENDING →
     ∃ b, deps_succeeded rows (depends_on (spec row)) = Ok b) ∧
  ∃ k i, job_steps d' = ready_row (step_id <$> select (fires rows) l) k i <$> job_steps d ∧
    jobs d' = jobs d ∧ step_attempts d' = step_attempts d ∧
    artifact_manifests d' = artifact_manifests d.
Proof.
  revert d. induction l as [|row l IH]; intros d Hr; simpl in Hr.
  - tx_inv Hr. split; [set_solver|]. exists (λ _, EmptyString), (λ _, EmptyString).
    split; [|done]. simpl. rewrite <-(list_fmap_id (job_steps d)) at 1. apply fmap_ext_elem.
    intros r _. unfold ready_row. by rewrite bool_decide_eq_false_2 by set_solver.
  - apply tx_bind_Ok in Hr as ([] & d1 & H1 & Hr).
    apply activate_row_Ok in H1 as (Hd1 & k1 & i1 & E1 & J1 & A1 & M1).
    apply IH in Hr as (Hd2 & k2 & i2 & E2 & J2 & A2 & M2). split.
    { intros row' [->|Hin]%elem_of_cons; auto. }
    set (ids := step_id <$> select (fires rows) l) in *.
    exists (λ u, if bool_decide (u ∈ ids) then k2 u else k1),
           (λ u, if bool_decide (u ∈ ids) then i2 u else i1).
    split; [|split_and!; congruence].
    assert (step_id <$> select (fires rows) (row :: l)
            = (if fires rows row then [step_id row] else []) ++ ids) as ->.
    { unfold select. simpl. by destruct (fires rows row). }
    rewrite E2, E1, <-list_fmap_compose. apply fmap_ext_elem. intros r _. simpl.
    unfold ready_row. set (hd := if fires rows row then _ else _).
    destruct (decide (step_id r ∈ ids)) as [Hin|Hin].
    + rewrite (bool_decide_eq_true_2 (step_id r ∈ hd ++ ids)) by set_solver.
      rewrite !(bool_decide_eq_true_2 (step_id r ∈ ids)) by done.
      destruct (bool_decide (step_id r ∈ hd)); simpl; by rewrite bool_decide_eq_true_2.
    + rewrite (bool_decide_ext (step_id r ∈ hd ++ ids) (step_id r ∈ hd)) by set_solver.
      rewrite !(bool_decide_eq_false_2 (step_id r ∈ ids)) by done.
      destruct (bool_decide (step_id r ∈ hd)); simpl; by rewrite bool_decide_eq_false_2.
Qed.

Lemma ready_row_keeps ids k i : keeps (ready_row ids k i).
Proof. intros r. unfold ready_row. by case_match. Qed.

Lemma activate_ready d0 d job j now x d' :
  evolves d0 d → tables_ok d → coherent_but (job_id job) d →
  job_by_id d (job_id job) = Some j → plan_ok j (rows_of d (job_id job)) →
  job_terminal (j_state j) = false → cancel_requested j = false →
  j_state j ≠ JobState.CANCEL_REQUESTED →
  (∀ r, r ∈ rows_of d (job_id job) → s_state r ≠ StepState.FAILED ∧ s_state r ≠ StepState.CANCELLED) →
  _activate job now d = Ok (x, d') → pre_refresh d0 (job_id job) d'.
Proof.
  intros Hev Ht Hb Hj Hpl Hnt Hncr Hns Hst Hrun. unfold _activate in Hrun.
  apply tx_bind_Ok in Hrun as (rows & d1 & H1 & Hrun). tx_inv H1. fold (rows_of d (job_id job)) in Hrun.
  set (id := job_id job) in *. set (rows := rows_of d id) in *.
  apply activate_loop_Ok in Hrun as (Hdeps & k & i & Es & Ej & Ea & Em).
  set (g := ready_row _ k i) in Es. assert (keeps g) as Hg by apply ready_row_keeps.
  assert (∀ r, r ∈ job_steps d →
    g r = if of_job id r && fires rows r then set_ready (k (step_id r)) (i (step_id r)) r else r) as Hgr.
  { intros r Hr. unfold g, ready_row.
    assert (bool_decide (step_id r ∈ step_id <$> select (fires rows) rows)
            = of_job id r && fires rows r) as ->; [|done].
    destruct (of_job id r && fires rows r) eqn:E.
    - apply bool_decide_eq_true_2, list_elem_of_fmap_2, elem_of_select.
      apply andb_true_iff in E as [E1 E2]. split; [done|]. apply rows_of_elem.
      by apply bool_decide_eq_true in E1.
    - apply bool_decide_eq_false_2. intros (r' & E1 & [Hf Hr']%elem_of_select)%list_elem_of_fmap.
      apply rows_of_elem in Hr' as [Hr' Ejob].
      assert (r = r') as -> by (eapply (elem_of_unique step_id); [apply Ht|..]; done).
      rewrite Hf, andb_true_r in E. unfold of_job in E. by rewrite bool_decide_eq_true_2 in E. }
  assert (∀ r, fires rows r = true → s_state r = StepState.PENDING) as Hfp.
  { intros r [E%bool_decide_eq_true _]%andb_true_iff. done. }
  assert (∀ r, r ∈ rows → in_state StepState.SUCCEEDED (g r) = in_state StepState.SUCCEEDED r) as Hsucc.
  { intros r [Hr _]%rows_of_elem. rewrite Hgr by done.
    destruct (of_job id r && fires rows r) eqn:E; [|done]. apply andb_true_iff in E as [_ E].
    unfold in_state. by rewrite (Hfp r E). }
  eapply (change_ready d0 id d d' g Datatypes.id); try done.
  - eapply (mild_fmap_ok d d' g); try done. intros r Hr. rewrite Hgr by done.
    destruct (of_job id r && fires rows r) eqn:E; [|apply mild_refl].
    apply andb_true_iff in E as [_ E]. by apply mild_ready, Hfp.
  - by rewrite list_fmap_id.
  - by rewrite Em.
  - rewrite Ea. by apply attempts_evolve_incl.
  - intros r Hr Hne. rewrite Hgr by done. unfold of_job. by rewrite bool_decide_eq_false_2.
  - intros r [Hr _]%rows_of_elem. rewrite Hgr by done.
    destruct (of_job id r && fires rows r) eqn:E; [|done]. apply andb_true_iff in E as [_ E].
    by apply ready_evolves, Hfp.
  - simpl. fold rows. split; simpl; try done; rewrite ?Hnt, ?Hncr; try done.
    + eapply (plan_ok_fmap j); [done|done|done| |]; intros r Hr.
      * intros E. specialize (Hsucc r Hr). unfold in_state in Hsucc.
        rewrite (bool_decide_eq_true_2 (s_state r = _)) in Hsucc by done.
        by apply bool_decide_eq_true in Hsucc.
      * apply rows_of_elem in Hr as [Hr _]. rewrite Hgr by done.
        destruct (of_job id r && fires rows r) eqn:E; [|auto]. right.
        apply andb_true_iff in E as [_ [_ E]%andb_true_iff].
        by destruct (deps_succeeded rows (depends_on (spec r))) as [[]|].
    + intros E. by rewrite E in Hnt.
    + intros _ _ r (r0 & -> & Hr0)%list_elem_of_fmap. destruct (Hst r0 Hr0) as [H1 H2].
      unfold blocked. rewrite deps_succeeded_ext by done. destruct (Hg r0) as (_ & _ & _ & ->).
      pose proof Hr0 as [Hr0' Ejob]%rows_of_elem. rewrite Hgr by done. unfold of_job.
      rewrite bool_decide_eq_true_2 by done. simpl.
      destruct (fires rows r0) eqn:E; [done|]. split_and!; try done. intros Hp.
      destruct (Hdeps r0 Hr0 Hp) as [b Eb]. rewrite Eb. unfold fires, in_state in E.
      rewrite bool_decide_eq_true_2, Eb in E by done. simpl in E. by rewrite E.
Qed.

End Activation.

(** ** Commit *)

Section Commit.
Context `{Runtime}.

(** The four tables of the invariant are the same. *)
Definition same_core (d d' : db) : Prop :=
  jobs d' = jobs d ∧ job_steps d' = job_steps d ∧ step_attempts d' = step_attempts d ∧
  artifact_manifests d' = artifact_manifests d.

Lemma insert_objects_core sid refs d x d' :
  for_each (λ ref : ObjectRef, insert_object sid (ref_key ref)) refs d = Ok (x, d') →
  same_core d d'.
Proof.
  revert d. induction refs as [|ref refs IH]; intros d Hr; simpl in Hr.
  - by tx_inv Hr.
  - apply tx_bind_Ok in Hr as ([] & d1 & H1 & Hr). unfold insert_object in H1. tx_inv H1. subst.
    by apply IH in Hr.
Qed.

Lemma check_intents_same l refs d x d' :
  for_each (check_intent l) refs d = Ok (x, d') → d' = d.
Proof.
  revert d. induction refs as [|ref refs IH]; intros d Hr; simpl in Hr.
  - by tx_inv Hr.
  - apply tx_bind_Ok in Hr as ([] & d1 & H1 & Hr). unfold check_intent in H1. tx_inv H1. by apply IH.
Qed.

Definition close_attempt (now : Z) (a : attempt_row) : attempt_row :=
  set_attempt StepState.SUCCEEDED (Some now) (at_category a) (at_classification a)
    (at_not_before a) a.

(** The tables after the step's row, attempt and manifest were written. *)
Lemma commit_rows_Ok l refs now d x d' row :
  step_id row = l_step_id l → fence row = l_fence l →
  (_ ← insert_manifest {| m_step_id := l_step_id l; manifest := refs; committed_at := now;
                          m_fence := l_fence l |};
   _ ← for_each (λ ref, insert_object (l_step_id l) (ref_key ref)) refs;
   _ ← update_step (l_step_id l) (set_succeeded now);
   update_attempt (l_step_id l) (l_fence l) (close_attempt now)) d = Ok (x, d') →
  same_core (succeed_db row refs now (close_attempt now) d) d'.
Proof.
  intros <- <- Hr.
  apply tx_bind_Ok in Hr as ([] & d1 & H1 & Hr). unfold insert_manifest in H1. tx_inv H1. subst.
  apply tx_bind_Ok in Hr as ([] & d2 & H2 & Hr). apply insert_objects_core in H2 as (J & S & A & M).
  apply tx_bind_Ok in Hr as ([] & d3 & H3 & Hr). unfold update_step in H3. tx_inv H3.
  unfold update_attempt in Hr. tx_inv Hr. unfold same_core, succeed_db. simpl.
  rewrite J, S, A, M. done.
Qed.

Lemma commit_good d0 l refs now : triple (good d0) (commit l refs now) (λ _, good d0).
Proof.
  intros d Hgd x d' Hrun. pose proof Hgd as [[Ht Hc] Hev]. unfold commit in Hrun.
  apply tx_bind_Ok in Hrun as ([] & d1 & H1 & Hrun). tx_inv H1.
  apply tx_bind_Ok in Hrun as (job & d2 & H2 & Hrun). pose proof H2 as Hjob.
  apply job_Ok in H2 as (-> & Hjin & Hid & _).
  apply tx_bind_Ok in Hrun as (row & d3 & H3 & Hrun). pose proof H3 as Hstep.
  apply step_Ok in H3 as (-> & Hrow & Hsid & Hjid).
  destruct (in_state StepState.SUCCEEDED row).
  { unfold replay_commit, _step_model in Hrun. by tx_inv Hrun. }
  apply tx_bind_Ok in Hrun as ([job' row'] & d4 & H4 & Hrun).
  pose proof (check_lease_Ok _ _ _ _ _ _ _ H4) as (_ & _ & _ & _ & _ & _ & _ & Hf & _).
  apply check_lease_held in H4 as (-> & (Hj & Hrow' & Hst & Hnt & Hncr) & Hsid' & Hjid'); [|done].
  assert (row' = row) as -> by (eapply (elem_of_unique step_id); [apply Ht|..]; congruence).
  assert (job' = job) as ->.
  { apply job_by_id_Some in Hj as [??]. eapply (elem_of_unique job_id); [apply Ht|..]; congruence. }
  apply tx_bind_Ok in Hrun as ([] & d5 & H5 & Hrun). apply check_intents_same in H5 as ->.
  (* group the writes *)
  apply tx_bind_Ok in Hrun as ([] & e1 & W1 & Hrun).
  apply tx_bind_Ok in Hrun as ([] & e2 & W2 & Hrun).
  apply tx_bind_Ok in Hrun as ([] & e3 & W3 & Hrun).
  apply tx_bind_Ok in Hrun as ([] & e4 & W4 & Hrun).
  assert (same_core (succeed_db row refs now (close_attempt now) d) e4) as (J & S & A & M).
  { apply (commit_rows_Ok l refs now d tt e4 row); try done.
    rewrite (tx_bind_run _ _ _ _ _ W1), (tx_bind_run _ _ _ _ _ W2), (tx_bind_run _ _ _ _ _ W3).
    exact W4. }
  apply tx_bind_Ok in Hrun as ([] & e5 & W5 & Hrun).
  apply tx_bind_Ok in Hrun as ([] & e6 & W6 & Hrun).
  apply tx_bind_Ok in Hrun as (r & e7 & W7 & Hrun). apply step_Ok in W7 as (-> & _).
  unfold _step_model in Hrun. tx_inv Hrun.
  eapply refresh_good; [|exact W6].
  set (g := one_row row (set_succeeded now)).
  assert (keeps g) as Hg by (by apply (keeps_if (is_step (step_id row)))).
  assert (∀ r, r ∈ job_steps d → is_step (step_id row) r = true → r = row) as Hu.
  { intros r0 Hr0. apply (is_step_unique d); [apply Ht|done|done]. }
  pose proof (good_job _ _ _ Hgd Hjin) as Hs. rewrite Hid, <-Hjid in Hs.
  assert (jobs e4 = Datatypes.id <$> jobs d) as Ej by (by rewrite J, list_fmap_id).
  assert (job_steps e4 = g <$> job_steps d) as Es by (by rewrite S).
  assert (rows_of e4 (s_job_id row) = g <$> rows_of d (s_job_id row)) as Erows.
  { by apply rows_of_fmap. }
  rewrite <-Hid. eapply (activate_ready d0 e4 job job); [..|exact W5].
  - etrans; [done|]. apply (evolves_fmap d e4 g Datatypes.id); try done.
    + rewrite M. unfold succeed_db. simpl. by apply prefix_app_r.
    + rewrite A. unfold succeed_db. simpl. apply attempts_evolve_close; [done|].
      intros a Ha. by apply (current_attempt_open d).
    + intros r0 Hr0. unfold g, one_row. destruct (is_step _ r0) eqn:E; [|done].
      apply Hu in E as ->; [|done]. apply settle_evolves. rewrite Hst. split; [constructor|done].
  - eapply tables_ok_ext; [apply (succeed_ok d row refs now (close_attempt now)); done|done..].
  - apply (coherent_but_fmap _ d e4 g Datatypes.id); try done; [|by apply (good_but d0)].
    intros r0 Hr0 Hne. unfold g, one_row. destruct (is_step _ r0) eqn:E; [|done].
    apply Hu in E as ->; [|done]. congruence.
  - rewrite (job_by_id_fmap d e4 Datatypes.id _ ltac:(done) Ej), Hid, <-Hjid, Hj. done.
  - rewrite Hid, <-Hjid, Erows. eapply (plan_ok_fmap job); [apply Hs|done|done| |];
      intros r0 [Hr0 _]%rows_of_elem; unfold g, one_row; destruct (is_step _ r0) eqn:E; auto.
    apply Hu in E as ->; [|done]. intros _ _. left. by rewrite Hst.
  - done.
  - done.
  - by apply (live_not_requested d0 d).
  - rewrite Hid, <-Hjid, Erows. intros r0 (r1 & -> & Hr1)%list_elem_of_fmap.
    destruct (se_live _ _ Hs Hnt Hncr r1 Hr1) as (H6 & H7 & _).
    unfold g, one_row. by destruct (is_step _ r1).
Qed.

End Commit.
