(* ===== verification/JobAdmit.v ===== *)
(** * Admission builds a job whose steps are the request's plan *)

From stdpp Require Import base tactics list strings option sets relations.
From Stdlib Require Import ZArith NArith QArith Qminmax Lia.
From S2P Require Import Prelude Json Contracts JobModels JobLedger JobFacts JobInvariant.
From S2P Require Import JobCoherence JobEvolution JobOps JobCommit.

Local Open Scope Z_scope.

Section Admit.
Context `{Runtime}.

(** ** Inserting rows *)

(** The row differs from every other in its keys. *)
Definition fresh_job (d : db) (r : job_row) : Prop :=
  ∀ j, j ∈ jobs d → job_id j ≠ job_id r ∧ (j_scope j = j_scope r → request_key j ≠ request_key r).

Lemma insert_job_Ok r d x d' :
  insert_job r d = Ok (x, d') → d' = on_jobs (λ l, l ++ [r]) d ∧ fresh_job d r.
Proof.
  unfold insert_job. intros Hr. apply tx_bind_Ok in Hr as (l & d1 & H1 & Hr). tx_inv H1.
  apply tx_bind_Ok in Hr as ([] & d2 & Htx & Hr). tx_inv Htx. tx_inv Hr. split; [done|]. intros j Hj.
  rewrite forallb_forall in Htx. specialize (Htx j). rewrite <-list_elem_of_In in Htx.
  specialize (Htx Hj). rewrite !andb_true_iff in Htx. destruct Htx as [[[Hne _] Hk] _].
  apply negb_true_iff, bool_decide_eq_false in Hne. split; [done|]. intros E1 E2.
  by rewrite !bool_decide_eq_true_2 in Hk.
Qed.

Lemma insert_step_Ok r d x d' :
  insert_step r d = Ok (x, d') →
  d' = on_steps (λ l, l ++ [r]) d ∧
  ∀ s, s ∈ job_steps d → step_id s ≠ step_id r ∧
       (s_job_id s = s_job_id r → s_unit_id s ≠ s_unit_id r).
Proof.
  unfold insert_step. intros Hr. apply tx_bind_Ok in Hr as (l & d1 & H1 & Hr). tx_inv H1.
  apply tx_bind_Ok in Hr as ([] & d2 & Htx & Hr). tx_inv Htx. tx_inv Hr. split; [done|]. intros s Hs.
  rewrite forallb_forall in Htx. specialize (Htx s). rewrite <-list_elem_of_In in Htx.
  specialize (Htx Hs). rewrite !andb_true_iff in Htx. destruct Htx as [[Hne _] Hu].
  apply negb_true_iff, bool_decide_eq_false in Hne. split; [done|]. intros E1 E2.
  by rewrite !bool_decide_eq_true_2 in Hu.
Qed.

(** What [admit] copies from the request into the row's own columns. *)
Definition named (r : job_row) : Prop :=
  valid_admission (request r) = true ∧ j_scope r = identity (a_scope (request r)) ∧
  request_key r = request_idempotency_key (request r) ∧ j_fingerprint r = request_digest (request r).

Lemma insert_job_tables r d :
  tables_ok d → fresh_job d r → named r → tables_ok (on_jobs (λ l, l ++ [r]) d).
Proof.
  intros [[] Hr [] []] Hfresh (Hv & Hn).
  split; [split|intros s j|split|split]; simpl; try done.
  - rewrite fmap_app. apply NoDup_app. split_and!; [done| |apply NoDup_singleton].
    intros x (j & -> & Hj)%list_elem_of_fmap Hx. simpl in Hx.
    apply list_elem_of_singleton in Hx. by destruct (Hfresh j Hj).
  - intros s Hs. destruct (k_fk s Hs) as (j & Hj & E). exists j. set_solver.
  - intros j [Hj| ->%list_elem_of_singleton]%elem_of_app; auto.
  - rewrite fmap_app. apply NoDup_app. split_and!; [done| |apply NoDup_singleton].
    intros x (j & -> & Hj)%list_elem_of_fmap Hx. simpl in Hx.
    apply list_elem_of_singleton in Hx. injection Hx as E1 E2.
    destruct (Hfresh j Hj) as [_ Hne]. by apply Hne.
  - intros j [Hj| ->%list_elem_of_singleton]%elem_of_app; auto.
  - intros Hs [Hj| ->%list_elem_of_singleton]%elem_of_app E; [by apply Hr|].
    destruct (k_fk s Hs) as (j & Hj & E'). destruct (Hfresh j Hj). congruence.
Qed.

(** A fresh row, PENDING or copied with its manifest. *)
Definition fresh_row (d : db) (r : step_row) : Prop :=
  (∃ j, j ∈ jobs d ∧ job_id j = s_job_id r) ∧ s_unit_id r = unit_id (spec r) ∧ fence r = 0 ∧
  attempt_count r = 0 ∧ lease_owner r = None ∧ lease_expires_at r = None ∧
  (s_state r = StepState.PENDING ∨ s_state r = StepState.SUCCEEDED) ∧
  ∀ s, s ∈ job_steps d → step_id s ≠ step_id r ∧
       (s_job_id s = s_job_id r → s_unit_id s ≠ s_unit_id r).

Lemma fresh_row_ok p r d :
  fresh_row d r → 1 ≤ max_attempts p → row_ok p r.
Proof.
  intros (_ & _ & F & A & O & X & St & _) Hp.
  split; rewrite ?F, ?A, ?O, ?X; try done; try lia; destruct St as [-> | ->]; try done;
    try (split; [done|by intros []]); by intros [|].
Qed.

Lemma insert_step_tables r ms d :
  tables_ok d → fresh_row d r →
  ms = [] ∧ s_state r = StepState.PENDING ∨
  (∃ m, ms = [m] ∧ m_step_id m = step_id r ∧ m_fence m = 0 ∧ s_state r = StepState.SUCCEEDED) →
  tables_ok (on_manifests (λ l, l ++ ms) (on_steps (λ l, l ++ [r]) d)).
Proof.
  intros [[] Hr [] []] Hfr Hms. pose proof Hfr as (Hfk & Hu & F & _ & _ & _ & St & Hnew).
  assert (s_state r ≠ StepState.RUNNING) as Hnr by (destruct St as [-> | ->]; done).
  split; [split|intros s j|split|split]; simpl; try done.
  - rewrite fmap_app. apply NoDup_app. split_and!; [done| |apply NoDup_singleton].
    intros x (s & -> & Hs)%list_elem_of_fmap Hx. simpl in Hx.
    apply list_elem_of_singleton in Hx. by destruct (Hnew s Hs).
  - intros s [Hs| ->%list_elem_of_singleton]%elem_of_app; auto.
  - intros s [Hs| ->%list_elem_of_singleton]%elem_of_app; auto.
  - rewrite fmap_app. apply NoDup_app. split_and!; [done| |apply NoDup_singleton].
    intros x (s & -> & Hs)%list_elem_of_fmap Hx. simpl in Hx.
    apply list_elem_of_singleton in Hx. injection Hx as E1 E2.
    destruct (Hnew s Hs) as [_ Hne]. by apply Hne.
  - intros [Hs| ->%list_elem_of_singleton]%elem_of_app Hj E; [by apply Hr|].
    eapply fresh_row_ok; [done|]. apply valid_admission_attempts; auto.
  - intros a Ha. destruct (at_step a Ha) as (s & Hs & ?). exists s. set_solver.
  - intros s [Hs| ->%list_elem_of_singleton]%elem_of_app Est; [|done].
    destruct (at_running s Hs Est) as (a & Ha & ?). by exists a.
  - rewrite fmap_app. apply NoDup_app. split_and!; [done| |].
    + intros x (m & -> & Hm)%list_elem_of_fmap Hx.
      destruct Hms as [[-> _]|(m' & -> & E & _)]; [by apply not_elem_of_nil in Hx|].
      simpl in Hx. apply list_elem_of_singleton in Hx.
      destruct (mf_step m Hm) as (s & Hs & E1 & _). destruct (Hnew s Hs) as [Hne _]. congruence.
    + destruct Hms as [[-> _]|(m' & -> & _)]; [constructor|apply NoDup_singleton].
  - intros m [Hm|Hm]%elem_of_app.
    + destruct (mf_step m Hm) as (s & Hs & ?). exists s. set_solver.
    + destruct Hms as [[-> _]|(m' & -> & E & E' & Es)]; [by apply not_elem_of_nil in Hm|].
      apply list_elem_of_singleton in Hm as ->. exists r. split_and!; try done; [set_solver|congruence].
  - intros s [Hs| ->%list_elem_of_singleton]%elem_of_app Est.
    + destruct (mf_succeeded s Hs Est) as (m & Hm & ?). exists m. set_solver.
    + destruct Hms as [[_ E]|(m' & -> & E & _)]; [congruence|]. exists m'. set_solver.
Qed.

(** ** The loop over the plan *)

(** [pre] has been inserted into [b], [copied] are the units reused so far. *)
Record building (b : db) (jid : uuid) (pre : list StepSpec) (copied : list string) (d : db) : Prop := {
  bu_tables : tables_ok d;
  bu_jobs : jobs d = jobs b;
  bu_job : ∃ j, j ∈ jobs d ∧ job_id j = jid;
  bu_specs : spec <$> rows_of d jid = pre;
  bu_states : ∀ r, r ∈ rows_of d jid →
    s_state r = StepState.PENDING ∨
    s_state r = StepState.SUCCEEDED ∧ ∀ p, p ∈ depends_on (spec r) → p ∈ copied;
  bu_copied : ∀ u, u ∈ copied →
    ∃ r, r ∈ rows_of d jid ∧ s_unit_id r = u ∧ s_state r = StepState.SUCCEEDED;
  bu_others : ∀ x, x ≠ jid → rows_of d x = rows_of b x;
  bu_steps : job_steps b `prefix_of` job_steps d;
  bu_attempts : step_attempts d = step_attempts b;
  bu_manifests : artifact_manifests b `prefix_of` artifact_manifests d }.

Lemma rows_of_snoc d d' r x :
  job_steps d' = job_steps d ++ [r] →
  rows_of d' x = rows_of d x ++ (if of_job x r then [r] else []).
Proof. intros E. unfold rows_of, select. by rewrite E, List.filter_app. Qed.

Lemma building_snoc b jid pre copied d d' r ms new :
  building b jid pre copied d → fresh_row d r → s_job_id r = jid →
  same_core (on_manifests (λ l, l ++ ms) (on_steps (λ l, l ++ [r]) d)) d' →
  (ms = [] ∧ new = copied ∧ s_state r = StepState.PENDING ∨
   (∃ m, ms = [m] ∧ m_step_id m = step_id r ∧ m_fence m = 0) ∧ new = s_unit_id r :: copied ∧
   s_state r = StepState.SUCCEEDED ∧ ∀ p, p ∈ depends_on (spec r) → p ∈ copied) →
  building b jid (pre ++ [spec r]) new d'.
Proof.
  intros [Ht Hjs Hj Hsp Hst Hco Hot Hps Hpa Hpm] Hfr Hjid (J & S & A & M) Hcase. simpl in *.
  assert (∀ x, rows_of d' x = rows_of d x ++ (if of_job x r then [r] else [])) as Erows.
  { intros x. by apply rows_of_snoc. }
  assert (of_job jid r = true) as Eof by (by apply bool_decide_eq_true_2).
  assert (copied ⊆ new) as Hsub.
  { destruct Hcase as [(_ & -> & _)|(_ & -> & _)]; set_solver. }
  split.
  - eapply tables_ok_ext; [apply (insert_step_tables r ms d); try done|done..].
    destruct Hcase as [(-> & _ & ?)|((m & -> & ? & ?) & _ & ? & _)]; [by left|right]. eauto.
  - congruence.
  - by rewrite J.
  - by rewrite Erows, Eof, fmap_app, Hsp.
  - intros r0. rewrite Erows, Eof. intros [Hr0| ->%list_elem_of_singleton]%elem_of_app.
    + destruct (Hst r0 Hr0) as [?|[? Hd]]; [by left|right]. split; [done|]. intros p Hp.
      by apply Hsub, Hd.
    + destruct Hcase as [(_ & _ & ?)|(_ & -> & ? & Hd)]; [by left|right].
      split; [done|]. intros p Hp. apply elem_of_cons. right. by apply Hd.
  - intros u Hu. rewrite Erows, Eof. destruct Hcase as [(_ & -> & _)|(_ & -> & Er & _)].
    + destruct (Hco u Hu) as (r0 & Hr0 & ?). exists r0. set_solver.
    + apply elem_of_cons in Hu as [->|Hu]; [exists r; set_solver|].
      destruct (Hco u Hu) as (r0 & Hr0 & ?). exists r0. set_solver.
  - intros x Hx. rewrite Erows. unfold of_job. rewrite bool_decide_eq_false_2 by congruence.
    rewrite app_nil_r. by apply Hot.
  - rewrite S. by apply prefix_app_r.
  - congruence.
  - rewrite M. by apply prefix_app_r.
Qed.

Lemma admit_step_building b jid pre copied d rq now ex run gen reusable sp sid new d' :
  building b jid pre copied d →
  admit_step rq now ex jid run gen reusable copied (sp, sid) d = Ok (new, d') →
  building b jid (pre ++ [sp]) new d'.
Proof.
  intros Hb Hr. unfold admit_step in Hr.
  destruct (find_row _ reusable ≫= _) as [o|] eqn:Ereuse.
  - apply bind_Some in Ereuse as (o' & _ & Ho).
    destruct (bool_decide (spec o' = sp) && _) eqn:Eo; [|done]. injection Ho as ->.
    apply andb_true_iff in Eo as [_ Edeps].
    apply tx_bind_Ok in Hr as ([] & d1 & H1 & Hr). apply insert_step_Ok in H1 as [-> Hnew].
    apply tx_bind_Ok in Hr as (ml & d2 & H2 & Hr). tx_inv H2.
    apply tx_bind_Ok in Hr as (m & d3 & H3 & Hr). tx_inv H3.
    apply tx_bind_Ok in Hr as ([] & d4 & H4 & Hr). unfold insert_manifest in H4. tx_inv H4. subst.
    apply tx_bind_Ok in Hr as ([] & d5 & H5 & Hr). apply insert_objects_core in H5. tx_inv Hr.
    eapply (building_snoc b jid pre copied d _ (Build_step_row _ _ _ sp _ _ _ _ _ _ _ _ _ _ _ _ _));
      [done| |done|exact H5|].
    + split; [exact (bu_job _ _ _ _ _ Hb)|]. split_and!; try done. by right.
    + right. split_and!; try done; [by eexists|]. intros p Hp.
      rewrite forallb_forall in Edeps. specialize (Edeps p).
      rewrite <-list_elem_of_In in Edeps. by apply Edeps, bool_decide_eq_true in Hp.
  - apply tx_bind_Ok in Hr as ([] & d1 & H1 & Hr).
    match type of H1 with insert_step ?x _ = _ => set (r := x) in * end.
    apply insert_step_Ok in H1 as [-> Hnew]. tx_inv Hr.
    eapply (building_snoc b jid pre copied d _ r []); [done| |done| |].
    + split; [exact (bu_job _ _ _ _ _ Hb)|]. split_and!; try done. by left.
    + unfold same_core. simpl. by rewrite app_nil_r.
    + by left.
Qed.

Lemma admit_loop_building b jid rq now ex run gen reusable l pre copied d new d' :
  building b jid pre copied d →
  fold_tx (admit_step rq now ex jid run gen reusable) copied l d = Ok (new, d') →
  building b jid (pre ++ l.*1) new d'.
Proof.
  revert pre copied d. induction l as [|[sp sid] l IH]; intros pre copied d Hb Hr; simpl in Hr.
  - tx_inv Hr. by rewrite app_nil_r.
  - apply tx_bind_Ok in Hr as (c & d1 & H1 & Hr). eapply admit_step_building in H1; [|done].
    eapply IH in Hr; [|done]. csimpl. by rewrite <-app_assoc in Hr.
Qed.

(** Dependencies that are units of succeeded rows are met. *)
Lemma deps_succeeded_intro rows deps :
  NoDup (s_unit_id <$> rows) →
  (∀ p, p ∈ deps → ∃ r, r ∈ rows ∧ s_unit_id r = p ∧ s_state r = StepState.SUCCEEDED) →
  deps_succeeded rows deps = Ok true.
Proof.
  intros Hnd. induction deps as [|p deps IH]; intros Hd; [done|]. simpl.
  destruct (Hd p ltac:(set_solver)) as (r & Hr & <- & Est).
  rewrite (find_row_unique s_unit_id rows r Hnd Hr). unfold in_state.
  rewrite bool_decide_eq_true_2 by done. apply IH. set_solver.
Qed.

Lemma rows_units_NoDup d id : keys_ok d → NoDup (s_unit_id <$> rows_of d id).
Proof.
  intros [_ _ _ _ Hu _]. unfold rows_of, select.
  induction (job_steps d) as [|r l IH]; [constructor|]. csimpl in *.
  apply NoDup_cons in Hu as [Hr Hu]. destruct (of_job id r) eqn:E; [|by apply IH].
  csimpl. apply NoDup_cons. split; [|by apply IH].
  intros (r' & Eu & Hr')%list_elem_of_fmap. apply elem_of_select in Hr' as [E' Hr'].
  apply Hr. apply list_elem_of_fmap. exists r'. split; [|done].
  apply bool_decide_eq_true in E, E'. congruence.
Qed.

Lemma building_plan b jid copied d j :
  building b jid (steps (request j)) copied d → plan_ok j (rows_of d jid).
Proof.
  intros [Ht _ _ Hsp Hst Hco _ _ _ _]. split; [done|]. intros r Hr Hnp _.
  destruct (Hst r Hr) as [?|[_ Hd]]; [done|]. apply deps_succeeded_intro.
  - apply rows_units_NoDup, Ht.
  - intros p Hp. by apply Hco, Hd.
Qed.

Lemma resumable_same rq d x d' : resumable rq d = Ok (x, d') → d' = d.
Proof.
  unfold resumable. intros Hr. destruct (resume_from rq); [|by tx_inv Hr].
  apply tx_bind_Ok in Hr as (prior & d1 & H1 & Hr). apply job_Ok in H1 as (-> & _).
  apply tx_bind_Ok in Hr as ([] & d2 & H2 & Hr). tx_inv H2.
  apply tx_bind_Ok in Hr as ([] & d3 & H3 & Hr). tx_inv H3.
  destruct (bool_decide (compatibility _ = _)); by tx_inv Hr.
Qed.

(** The database right after the new job row was inserted. *)
Lemma building_start d r :
  tables_ok d → fresh_job d r → named r →
  building (on_jobs (λ l, l ++ [r]) d) (job_id r) [] [] (on_jobs (λ l, l ++ [r]) d).
Proof.
  intros Ht Hfresh Hn.
  assert (rows_of (on_jobs (λ l, l ++ [r]) d) (job_id r) = []) as Enil.
  { apply elem_of_nil_inv. intros s [Hs E]%rows_of_elem. simpl in Hs.
    destruct (k_fk _ (t_keys _ Ht) s Hs) as (j & Hj & E'). destruct (Hfresh j Hj) as [Hne _]. congruence. }
  split; try done; rewrite ?Enil; try set_solver.
  by apply insert_job_tables.
Qed.

Lemma building_evolves b d jid pre copied r :
  building (on_jobs (λ l, l ++ [r]) b) jid pre copied d → evolves b d.
Proof.
  intros [_ Hjs _ _ _ _ _ [k Hs] Ha Hm]. simpl in *. split; [| | |done].
  - intros j Hj. exists j. split; [rewrite Hjs; set_solver|done].
  - intros s Hs'. exists s. split; [rewrite Hs; set_solver|done].
  - rewrite Ha. by apply attempts_evolve_incl.
Qed.

Lemma admit_new_result d0 now ids rq :
  valid_admission rq = true →
  triple (good d0) (admit_new now ids rq) (λ j d', good d0 d' ∧ j ∈ jobs d' ∧ request j = rq).
Proof.
  intros Hv d Hgd x d' Hrun. pose proof Hgd as [[Ht Hc] Hev]. unfold admit_new in Hrun.
  apply tx_bind_Ok in Hrun as ([prior reusable] & d1 & H1 & Hrun). apply resumable_same in H1 as ->.
  apply tx_bind_Ok in Hrun as (js & d1 & H1 & Hrun). tx_inv H1.
  apply tx_bind_Ok in Hrun as ([] & d2 & H2 & Hrun).
  match type of H2 with insert_job ?r _ = _ => set (j := r) in * end.
  apply insert_job_Ok in H2 as [-> Hfresh].
  apply tx_bind_Ok in Hrun as (last & d3 & H3 & Hrun). tx_inv H3.
  apply tx_bind_Ok in Hrun as (copied & d4 & H4 & Hrun).
  apply (admit_loop_building (on_jobs (λ l, l ++ [j]) d) (job_id j) _ _ _ _ _ _ _ []) in H4;
    [|by apply building_start].
  simpl app in H4. rewrite fst_zip in H4 by (rewrite length_fmap, length_seq; done).
  apply tx_bind_Ok in Hrun as (job & d5 & H5 & Hrun).
  apply job_Ok in H5 as (-> & Hjin & Hid & _).
  assert (job = j) as ->.
  { eapply (elem_of_unique job_id); [apply H4|done| |done].
    rewrite (bu_jobs _ _ _ _ _ H4). simpl. set_solver. }
  apply tx_bind_Ok in Hrun as ([] & d6 & H6 & Hrun).
  apply tx_bind_Ok in Hrun as ([] & d7 & H7 & Hrun). apply job_Ok in Hrun as (-> & Hx & Hxid & _).
  assert (good d4 d7) as [Hok7 Hev7].
  2:{ assert (evolves d d4) as Hev4 by (by eapply building_evolves).
      split_and!; [split; [done|]|done|].
      - etrans; [done|]. by etrans.
      - destruct (ev_jobs _ _ Hev7 j Hjin) as (j' & Hj' & []).
        assert (x = j') as -> by (eapply (elem_of_unique job_id); [apply Hok7|..]; congruence).
        done. }
  eapply refresh_good; [|exact H7]. eapply (activate_ready d4 d4 j j); [..|exact H6]; try done.
  - apply H4.
  - intros j' Hj' Hne. rewrite (bu_others _ _ _ _ _ H4) by done.
    rewrite (bu_jobs _ _ _ _ _ H4) in Hj'. simpl in Hj'.
    apply elem_of_app in Hj' as [Hj'| ->%list_elem_of_singleton]; [|done]. by apply Hc.
  - apply job_by_id_elem; [apply H4|done].
  - by eapply building_plan.
  - intros r Hr. destruct (bu_states _ _ _ _ _ H4 r Hr) as [->|[-> _]]; done.
Qed.

Lemma admit_job_good d0 now ids rq : triple (good d0) (admit_job now ids rq) (λ _, good d0).
Proof.
  intros d Hgd x d' Hrun. unfold admit_job in Hrun.
  apply tx_bind_Ok in Hrun as ([] & d1 & H1 & Hrun). tx_inv H1.
  apply tx_bind_Ok in Hrun as (js & d2 & H2 & Hrun). tx_inv H2.
  destruct (find_row _ _); [by tx_inv Hrun|].
  eapply admit_new_result; [|exact Hgd|exact Hrun]. done.
Qed.

End Admit.
