(* ===== verification/JobHistory.v ===== *)
(** * Histories of ledger calls

    The calls of the [JobLedger] interface ([documents/jobs/ledger.py]) that write,
    their execution as transactions, and what holds after any sequence of them. *)

From stdpp Require Import base tactics list strings option sets relations.
From Stdlib Require Import ZArith NArith QArith Qminmax Lia.
From S2P Require Import Prelude Json Contracts JobModels JobLedger JobFacts JobInvariant.
From S2P Require Import JobCoherence JobEvolution JobOps JobCommit JobAdmit.

Local Open Scope Z_scope.

Section Reconcile.
Context `{Runtime} (cfg : JobSettings).

Lemma reconcile_expired_good d0 now n row0 :
  triple (good d0) (reconcile_expired now n row0) (λ _, good d0).
Proof.
  intros d Hgd x d' Hrun. pose proof Hgd as [[Ht Hc] Hev]. unfold reconcile_expired in Hrun.
  apply tx_bind_Ok in Hrun as (row & d1 & H1 & Hrun). apply step_Ok in H1 as (-> & Hrow & Hsid & Hjid).
  destruct (in_state StepState.RUNNING row) eqn:Est; simpl in Hrun; [|by tx_inv Hrun].
  apply bool_decide_eq_true in Est.
  apply tx_bind_Ok in Hrun as (js & d2 & H2 & Hrun). tx_inv H2.
  apply tx_bind_Ok in Hrun as (job & d3 & H3 & Hrun). tx_inv H3.
  apply tx_bind_Ok in Hrun as ([] & d4 & H4 & Hrun). tx_inv Hrun.
  change (job_by_id d (s_job_id row) = Some job) in H3.
  pose proof (job_by_id_Some _ _ _ H3) as [Hjin Hid].
  assert (job_terminal (j_state job) = false) as Hnt.
  { destruct (job_terminal (j_state job)) eqn:E; [|done].
    pose proof (good_job _ _ _ Hgd Hjin) as Hs. rewrite Hid in Hs.
    pose proof (se_terminal _ _ Hs E row (step_in_rows _ _ Hrow)) as Hact. by rewrite Est in Hact. }
  rewrite Hnt, orb_false_r in H4. destruct (cancel_requested job) eqn:Hcr.
  - by eapply (cancel_running_good d0 d).
  - eapply failure_good; [|exact H4]. by split_and!.
Qed.

Lemma no_terminal_leftover d s : ledger_ok d → s ∈ job_steps d → terminal_leftover d s = false.
Proof.
  intros [Ht Hc] Hs. unfold terminal_leftover.
  destruct (job_by_id d (s_job_id s)) as [j|] eqn:Ej; [|by rewrite andb_false_r].
  destruct (job_terminal (j_state j)) eqn:E; [|by rewrite andb_false_r].
  apply job_by_id_Some in Ej as [Hj Hid]. pose proof (Hc j Hj) as [Hse _ _]. rewrite Hid in Hse.
  by rewrite (se_terminal _ _ Hse E s (step_in_rows _ _ Hs)).
Qed.

Lemma reconcile_good d0 limit now : triple (good d0) (reconcile cfg limit now) (λ _, good d0).
Proof.
  intros d Hgd x d' Hrun. unfold reconcile in Hrun.
  apply tx_bind_Ok in Hrun as ([] & d1 & H1 & Hrun). tx_inv H1.
  apply tx_bind_Ok in Hrun as (rows & d2 & H2 & Hrun). tx_inv H2.
  apply tx_bind_Ok in Hrun as (n1 & d3 & H3 & Hrun).
  assert (good d0 d3) as Hgd3.
  { eapply (triple_fold (λ _ : Z, good d0)); [|exact Hgd|exact H3].
    intros n row _. apply reconcile_expired_good. }
  apply tx_bind_Ok in Hrun as (rows2 & d4 & H4 & Hrun). tx_inv H4.
  assert (select (terminal_leftover d3) (job_steps d3) = []) as Enil.
  { apply elem_of_nil_inv. intros s [E Hs]%elem_of_select.
    rewrite no_terminal_leftover in E; [done|apply Hgd3|done]. }
  rewrite Enil, firstn_nil in Hrun.
  apply tx_bind_Ok in Hrun as (n2 & d5 & H5 & Hrun). simpl in H5. tx_inv H5.
  apply tx_bind_Ok in Hrun as (rows3 & d6 & H6 & Hrun). tx_inv H6.
  apply tx_bind_Ok in Hrun as (n3 & d7 & H7 & Hrun).
  assert (good d0 d7) as Hgd7.
  { eapply (triple_fold (λ _ : Z, good d0)); [|exact Hgd3|exact H7].
    intros n row _ e He y e' Hr. unfold reconcile_dispatch, _enqueue in Hr. tx_inv Hr. subst.
    by apply (good_ext d0 e). }
  by tx_inv Hrun.
Qed.

End Reconcile.

Inductive call :=
| Admit (now : Z) (ids : nat → uuid) (rq : Admission)
| Claim (scope : Scope) (jid sid : uuid) (owner : string) (now : Z)
| Renew (l : Lease) (now : Z)
| Register (l : Lease) (ref : ObjectRef) (now : Z)
| Commit (l : Lease) (refs : list ObjectRef) (now : Z)
| FailStep (l : Lease) (f : Failure) (now : Z)
| CancelJob (scope : Scope) (id : uuid) (now : Z)
| SettleCancel (l : Lease) (now : Z)
| MarkDelivered (m : Dispatch) (now : Z)
| Reconcile (limit now : Z).

Section History.
Context `{Runtime} (cfg : JobSettings).

(** One call, committed or rolled back. *)
Definition exec (d : db) (c : call) : db :=
  match c with
  | Admit now ids rq => (transaction (admit_job now ids rq) d).2
  | Claim scope jid sid owner now => (transaction (claim cfg scope jid sid owner now) d).2
  | Renew l now => (transaction (renew cfg l now) d).2
  | Register l ref now => (transaction (register_object l ref now) d).2
  | Commit l refs now => (transaction (commit l refs now) d).2
  | FailStep l f now => (transaction (fail l f now) d).2
  | CancelJob scope id now => (transaction (cancel scope id now) d).2
  | SettleCancel l now => (transaction (settle_cancel l now) d).2
  | MarkDelivered m now => (transaction (mark_delivered m now) d).2
  | Reconcile limit now => (transaction (reconcile cfg limit now) d).2
  end.

Definition run (cs : list call) (d : db) : db := foldl exec d cs.

(** A property every operation's triple preserves holds after every call. *)
Lemma exec_good d0 d c : good d0 d → good d0 (exec d c).
Proof.
  intros Hgd. destruct c; simpl;
    (apply (transaction_preserves (good d0)); [|exact Hgd]);
    eauto using admit_job_good, claim_good, renew_good, register_object_good, commit_good,
      fail_good, cancel_good, settle_cancel_good, mark_delivered_good, reconcile_good.
Qed.

Lemma run_good d0 d cs : good d0 d → good d0 (run cs d).
Proof. revert d. induction cs as [|c cs IH]; intros d Hd; [done|]. by apply IH, exec_good. Qed.

Lemma ledger_ok_empty : ledger_ok empty_db.
Proof. split; [apply tables_ok_empty|]. intros j Hj. by apply not_elem_of_nil in Hj. Qed.

Lemma run_app cs cs' d : run (cs ++ cs') d = run cs' (run cs d).
Proof. apply foldl_app. Qed.

Lemma run_ok d cs : ledger_ok d → ledger_ok (run cs d) ∧ evolves d (run cs d).
Proof. intros Hok. by apply (run_good d d cs). Qed.

Lemma exec_ok d c : ledger_ok d → ledger_ok (exec d c) ∧ evolves d (exec d c).
Proof. intros Hok. by apply (exec_good d d c). Qed.

(** States the service can reach. *)
Definition reachable (d : db) : Prop := ∃ cs, d = run cs empty_db.

Lemma reachable_ok d : reachable d → ledger_ok d.
Proof. intros [cs ->]. apply run_ok, ledger_ok_empty. Qed.

Lemma reachable_run d cs : reachable d → reachable (run cs d).
Proof. intros [cs0 ->]. exists (cs0 ++ cs). by rewrite run_app. Qed.

End History.

(** ** Frame conditions by structure

    [tx_frame] proves [triple I m (λ _, I)] when [I] only reads tables that [m]
    does not write. *)
Ltac tx_frame :=
  repeat (cbv zeta; lazymatch goal with
  | |- triple _ (insert_manifest _ ≫= _) _ => fail
  | |- triple ?I (?m ≫= ?f) _ => eapply (triple_bind I m f (λ _, I)); [|intros ?]
  | |- triple _ (if ?b then _ else _) _ => destruct b
  | |- triple _ (match ?x with _ => _ end) _ => destruct x
  | |- triple _ (guard _ _) _ => apply triple_guard; intros; done
  | |- triple _ (gets _) _ => apply triple_gets; intros; done
  | |- triple _ (expect _ _) _ => apply triple_expect; intros; done
  | |- triple _ (lift _) _ => apply triple_lift; intros; done
  | |- triple _ (mret _) _ => apply triple_ret; intros; done
  | |- triple _ (raise _) _ => apply triple_raise
  | |- triple _ (modify _) _ => apply triple_modify; intros ? Hframe; exact Hframe
  | |- triple _ (for_each _ _) _ => apply triple_for_each; intros ? _
  | |- triple ?I (fold_tx _ _ _) _ => apply (triple_fold (λ _, I)); intros ? ? _
  | |- triple _ (update_step _ _) _ => unfold update_step
  | |- triple _ (update_job _ _) _ => unfold update_job
  | |- triple _ (update_attempt _ _ _) _ => unfold update_attempt
  | |- triple _ (_enqueue _ _ _) _ => unfold _enqueue
  | |- triple _ (_job _ _) _ => unfold _job
  | |- triple _ (_step _ _) _ => unfold _step
  | |- triple _ (_step_model _) _ => unfold _step_model
  | |- triple _ (_refresh _ _) _ => unfold _refresh
  | |- triple _ (_activate _ _) _ => unfold _activate
  | |- triple _ (activate_row _ _ _ _) _ => unfold activate_row
  | |- triple _ (make_ready _ _ _) _ => unfold make_ready
  | |- triple _ (_cancel_step _ _) _ => unfold _cancel_step
  | |- triple _ (_cancel_job _ _) _ => unfold _cancel_job
  | |- triple _ (_terminal_failure _ _ _) _ => unfold _terminal_failure
  | |- triple _ (_failure _ _ _ _) _ => unfold _failure
  | |- triple _ (_check_lease _ _ _) _ => unfold _check_lease
  | |- triple _ (start_attempt _ _ _ _ _ _ _ _) _ => unfold start_attempt
  | |- triple _ (insert_attempt _) _ => unfold insert_attempt
  | |- triple _ (insert_step _) _ => unfold insert_step
  | |- triple _ (insert_job _) _ => unfold insert_job
  | |- triple _ (check_intent _ _) _ => unfold check_intent
  | |- triple _ (resumable _) _ => unfold resumable
  | |- triple _ (replay_commit _ _ _) _ => unfold replay_commit
  end).

(** ** Committed objects are registered *)

Section Objects.
Context `{Runtime} (cfg : JobSettings).

Definition objects_ok (d : db) : Prop := ∀ m ref,
  m ∈ artifact_manifests d → ref ∈ manifest m →
  ∃ o, o ∈ manifest_objects d ∧ mo_step_id o = m_step_id m ∧ mo_object_key o = ref_key ref.

(** All of [refs] but a prefix are still to be registered for [sid]. *)
Lemma insert_objects_ok sid refs d x d' :
  for_each (λ ref : ObjectRef, insert_object sid (ref_key ref)) refs d = Ok (x, d') →
  artifact_manifests d' = artifact_manifests d ∧
  (∀ o, o ∈ manifest_objects d → o ∈ manifest_objects d') ∧
  ∀ ref, ref ∈ refs →
    ∃ o, o ∈ manifest_objects d' ∧ mo_step_id o = sid ∧ mo_object_key o = ref_key ref.
Proof.
  revert d. induction refs as [|r refs IH]; intros d Hr; simpl in Hr.
  - tx_inv Hr. split_and!; try done. intros ? []%not_elem_of_nil.
  - apply tx_bind_Ok in Hr as ([] & d1 & H1 & Hr). unfold insert_object in H1. tx_inv H1. subst.
    apply IH in Hr as (Em & Hmono & Hall). split_and!; [done| |].
    + intros o Ho. apply Hmono. simpl. set_solver.
    + intros ref [->|Hin]%elem_of_cons; [|auto].
      exists {| mo_step_id := sid; mo_object_key := ref_key r |}. split; [|done].
      apply Hmono. simpl. set_solver.
Qed.

(** A new manifest together with its objects. *)
Lemma new_manifest_objects m :
  triple objects_ok
    (_ ← insert_manifest m; for_each (λ ref, insert_object (m_step_id m) (ref_key ref)) (manifest m))
    (λ _, objects_ok).
Proof.
  intros d Hd x d' Hr. apply tx_bind_Ok in Hr as ([] & d1 & H1 & Hr).
  unfold insert_manifest in H1. tx_inv H1. subst. apply insert_objects_ok in Hr as (Em & Hmono & Hall).
  intros m' ref. rewrite Em. simpl. intros [Hm| ->%list_elem_of_singleton]%elem_of_app Href; [|auto].
  destruct (Hd m' ref Hm Href) as (o & Ho & ?). eauto.
Qed.

Lemma new_manifest_then {A} m (k : unit → ltx A) :
  (∀ u, triple objects_ok (k u) (λ _, objects_ok)) →
  triple objects_ok
    (_ ← insert_manifest m;
     u ← for_each (λ ref, insert_object (m_step_id m) (ref_key ref)) (manifest m); k u)
    (λ _, objects_ok).
Proof.
  intros Hk d Hd x d' Hr. apply tx_bind_Ok in Hr as ([] & d1 & H1 & Hr).
  apply tx_bind_Ok in Hr as (u & d2 & H2 & Hr).
  eapply (Hk u); [|exact Hr]. eapply (new_manifest_objects m); [exact Hd|].
  by rewrite (tx_bind_run _ _ _ _ _ H1).
Qed.

Lemma admit_step_objects rq now ex jid run gen reusable copied ids :
  triple objects_ok (admit_step rq now ex jid run gen reusable copied ids) (λ _, objects_ok).
Proof.
  unfold admit_step. destruct ids as [sp sid]. cbv zeta.
  destruct (find_row _ reusable ≫= _) as [o|]; [|tx_frame].
  eapply (triple_bind objects_ok _ _ (λ _, objects_ok)); [tx_frame|intros ?].
  eapply (triple_bind objects_ok _ _ (λ _, objects_ok)); [tx_frame|intros ml].
  eapply (triple_bind objects_ok _ _ (λ _, objects_ok)); [tx_frame|intros m].
  eapply (new_manifest_then {| m_step_id := sid; manifest := manifest m; committed_at := now;
                               m_fence := 0 |}). intros u. tx_frame.
Qed.

Lemma exec_objects d c : objects_ok d → objects_ok (exec cfg d c).
Proof.
  intros Hd. destruct c; simpl; (apply (transaction_preserves objects_ok); [|exact Hd]).
  - unfold admit_job, admit_new. tx_frame. apply admit_step_objects.
  - unfold claim. tx_frame.
  - unfold renew. tx_frame.
  - unfold register_object. tx_frame.
  - unfold commit. tx_frame.
    eapply (new_manifest_then {| m_step_id := l_step_id l; manifest := refs; committed_at := now;
                                 m_fence := l_fence l |}). intros u. tx_frame.
  - unfold fail. tx_frame.
  - unfold cancel. tx_frame.
  - unfold settle_cancel. tx_frame.
  - unfold mark_delivered. tx_frame.
  - unfold reconcile, reconcile_expired, reconcile_terminal, reconcile_dispatch. tx_frame.
Qed.

Lemma run_objects cs d : objects_ok d → objects_ok (run cfg cs d).
Proof. revert d. induction cs as [|c cs IH]; intros d Hd; [done|]. by apply IH, exec_objects. Qed.

End Objects.
