(* ===== verification/JobTheorems.v ===== *)
(** * What the job ledger guarantees

    Properties of every history of ledger calls: the invariant, the life cycle of
    jobs and steps, fencing, exactly-once commit, bounded attempts, dependency
    order, absence of deadlock, idempotent admission. *)

From stdpp Require Import base tactics list strings option sets relations.
From Stdlib Require Import ZArith NArith QArith Qminmax Lia.
From S2P Require Import Prelude Json Contracts JobModels JobLedger Sample JobFacts JobInvariant.
From S2P Require Import JobCoherence JobEvolution JobOps JobCommit JobAdmit.
From S2P Require Import JobHistory.

Local Open Scope Z_scope.

(** ** The calls of the running example *)

Definition sample_history : list call :=
  [Admit 1000 sample_ids sample_request;
   Claim sample_scope "job-1" "step-a" "worker-1" 2000;
   Register sample_lease (sample_artifact "art-1") 3000;
   Commit sample_lease [sample_artifact "art-1"] 4000].

Abbreviation sample_run n := (@run sample_runtime sample_settings (take n sample_history) empty_db).

Section Guarantees.
Context `{Runtime} (cfg : JobSettings).

(** C1: after any sequence of ledger calls, whatever their arguments and instants,
    the database satisfies the full invariant: unique keys and foreign keys, the
    lease columns are set exactly on RUNNING steps, the fence counts the attempts
    and stays within the policy, the only open attempt is the lease holder's,
    manifests belong exactly to the succeeded steps, and every job's state and
    progress are those computed from its steps. *)
Theorem ledger_invariant cs : ledger_ok (run cfg cs empty_db).
Proof. apply run_ok, ledger_ok_empty. Qed.

(** C4: whatever calls follow, job and step rows keep their identity and request,
    step states move along the edges of [step_edge], job states along [job_edge],
    fencing tokens never decrease and grow with every new lease, closed attempts
    and manifests are never rewritten. *)
Theorem ledger_follows_diagrams cs cs' :
  evolves (run cfg cs empty_db) (run cfg (cs ++ cs') empty_db).
Proof. rewrite run_app. apply run_ok, run_ok, ledger_ok_empty. Qed.

(** What [evolves] says about settled rows. *)
Lemma settled_step_kept r r' :
  step_evolves r r' → step_active (s_state r) = false → s_state r' = s_state r ∧ fence r' = fence r.
Proof.
  intros [_ _ _ [(Hf & Hq & _)|[_ Htc]]] Hr.
  - split; [|done]. by apply step_settled_stays; [apply quiet_steps|].
  - destruct Htc as [x y He|x y z He _]; by rewrite (step_edge_active _ _ He) in Hr.
Qed.

(** A job that is COMPLETED, FAILED or CANCELLED, and a step that is
    SUCCEEDED, FAILED or CANCELLED, is in the same state after any further calls;
    the step also keeps its fencing token. *)
Theorem terminal_states_final cs cs' :
  let d := run cfg cs empty_db in
  let d' := run cfg (cs ++ cs') empty_db in
  (∀ j, j ∈ jobs d → job_terminal (j_state j) = true →
     ∃ j', j' ∈ jobs d' ∧ job_id j' = job_id j ∧ request j' = request j ∧ j_state j' = j_state j) ∧
  (∀ r, r ∈ job_steps d → step_active (s_state r) = false →
     ∃ r', r' ∈ job_steps d' ∧ step_id r' = step_id r ∧ s_state r' = s_state r ∧ fence r' = fence r).
Proof.
  intros d d'. assert (evolves d d') as [Hj Hs _ _].
  { unfold d, d'. rewrite run_app. apply run_ok, run_ok, ledger_ok_empty. }
  split.
  - intros j Hin Ht. destruct (Hj j Hin) as (j' & Hin' & [E1 _ _ _ _ _ E2 _ E3]).
    exists j'. split_and!; try done. by apply job_terminal_stays.
  - intros r Hin Ht. destruct (Hs r Hin) as (r' & Hin' & Hev). exists r'.
    destruct (settled_step_kept r r' Hev Ht) as [E1 E2]. by destruct Hev.
Qed.

(** ** Fencing *)

Lemma find_job d j scope :
  keys_ok d → j ∈ jobs d → j_scope j = identity scope → _job scope (job_id j) d = Ok (j, d).
Proof.
  intros Hk Hj Hsc. unfold _job. rewrite (tx_bind_run _ _ _ (jobs d) d) by done.
  rewrite (find_row_ext _ (λ r, bool_decide (job_id r = job_id j))).
  - by rewrite (find_row_unique job_id (jobs d) j) by (done || apply Hk).
  - intros x Hx. unfold is_job. case_bool_decide as E; [|done]. simpl.
    assert (x = j) as -> by (eapply (elem_of_unique job_id); [apply Hk|..]; done).
    by apply bool_decide_eq_true_2.
Qed.

Lemma find_step d r :
  keys_ok d → r ∈ job_steps d → _step (s_job_id r) (step_id r) d = Ok (r, d).
Proof.
  intros Hk Hr. unfold _step. rewrite (tx_bind_run _ _ _ (job_steps d) d) by done.
  rewrite (find_row_ext _ (λ x, bool_decide (step_id x = step_id r))).
  - by rewrite (find_row_unique step_id (job_steps d) r) by (done || apply Hk).
  - intros x Hx. unfold is_step, of_job. case_bool_decide as E; [|done]. simpl.
    assert (x = r) as -> by (eapply (elem_of_unique step_id); [apply Hk|..]; done).
    by apply bool_decide_eq_true_2.
Qed.

(** The lease returned by [claim] names the row's new fence. *)
Lemma claim_Some scope jid sid owner now d l d' :
  ledger_ok d → claim cfg scope jid sid owner now d = Ok (Some l, d') →
  l_scope l = scope ∧ l_job_id l = jid ∧ l_step_id l = sid ∧ l_owner l = owner ∧
  ∃ r r', r ∈ job_steps d ∧ r' ∈ job_steps d' ∧ step_id r = sid ∧ step_id r' = sid ∧
          s_job_id r = jid ∧ s_state r' = StepState.RUNNING ∧ fence r' = l_fence l ∧
          lease_owner r' = Some owner ∧ fence r < l_fence l.
Proof.
  intros Hok Hrun. unfold claim in Hrun.
  apply tx_bind_Ok in Hrun as ([] & d1 & H1 & Hrun). tx_inv H1.
  apply tx_bind_Ok in Hrun as (job & d2 & H2 & Hrun).
  pose proof (job_Ok_by_id _ _ _ _ _ (proj1 Hok) H2) as Hj. apply job_Ok in H2 as (-> & _).
  apply tx_bind_Ok in Hrun as (row0 & d3 & H3 & Hrun).
  apply step_Ok in H3 as (-> & Hrow & Hsid & Hjid).
  destruct (cancel_requested job || job_terminal (j_state job)) eqn:Elive; [tx_inv Hrun; done|].
  apply orb_false_iff in Elive as [Hncr Hnt].
  apply tx_bind_Ok in Hrun as (row & d4 & H4 & Hrun).
  assert (ledger_ok d4 ∧ row ∈ job_steps d4 ∧ step_id row = sid ∧ fence row0 ≤ fence row)
    as (Hok4 & Hrow4 & Hsid4 & Hle).
  { destruct (expired_lease now row0) eqn:Eexp; [|tx_inv H4; by split_and!].
    apply tx_bind_Ok in H4 as ([] & d5 & H5 & H4). apply step_Ok in H4 as (-> & Hin & Hs4 & ?).
    assert (good d d5) as [Hok5 Hev5].
    { eapply failure_good; [|exact H5]. split; [done|].
      apply andb_true_iff in Eexp as [Est%bool_decide_eq_true _]. split_and!; try done.
      by rewrite Hjid. }
    split_and!; try done. destruct (ev_steps _ _ Hev5 row0 Hrow) as (r' & Hr' & [E1 _ _ E4]).
    assert (r' = row) as ->.
    { eapply (elem_of_unique step_id); [apply Hok5|..]; try done. congruence. }
    destruct E4 as [[-> _]|[? _]]; lia. }
  destruct (negb (step_waiting (s_state row)) || (now <? not_before row)); [tx_inv Hrun; done|].
  unfold start_attempt in Hrun.
  match type of Hrun with (if ?b then _ else _) _ = _ => destruct b end.
  { apply tx_bind_Ok in Hrun as ([] & ? & _ & Hrun).
    apply tx_bind_Ok in Hrun as ([] & ? & _ & Hrun). tx_inv Hrun; done. }
  apply tx_bind_Ok in Hrun as ([] & e1 & W1 & Hrun). unfold update_step in W1. tx_inv W1.
  apply tx_bind_Ok in Hrun as ([] & e2 & W2 & Hrun). unfold insert_attempt in W2. tx_inv W2.
  apply tx_bind_Ok in Hrun as ([] & e3 & W3 & Hrun). apply mret_Ok in Hrun as [[= ->] ->]. subst.
  apply refresh_Ok in W3 as (j & _ & ->). simpl. split_and!; try done.
  eexists row0, _. split; [done|]. split; [apply elem_of_update_where; exists row; split; [done|]|].
  { unfold is_step. by rewrite bool_decide_eq_true_2. }
  simpl. split_and!; try done. lia.
Qed.

(** C3: once a claim on the step has returned a new lease, every lease that was
    accepted for the step at an earlier moment is refused with [stale_fence], by
    every operation that checks it, in all later states. *)
Theorem stale_lease_rejected cs cs1 cs2 l l' now settling jr scope owner now1 d d' :
  _check_lease l now settling (run cfg cs empty_db) = Ok (jr, d) →
  claim cfg scope (l_job_id l) (l_step_id l) owner now1 (run cfg cs1 d) = Ok (Some l', d') →
  ∀ now2 settling2, _check_lease l now2 settling2 (run cfg cs2 d') = Err (JobError "stale_fence").
Proof.
  intros Hacc Hclaim now2 settling2. destruct jr as [job row].
  assert (ledger_ok (run cfg cs empty_db)) as Hok by apply run_ok, ledger_ok_empty.
  apply check_lease_Ok in Hacc as (-> & Hj & Hid & Hsc & Hr & Hsid & Hjid & Hf & _).
  set (d := run cfg cs empty_db) in *.
  destruct (run_ok cfg d cs1 Hok) as [Hok1 Hev1]. set (d1 := run cfg cs1 d) in *.
  assert (good d1 d') as [Hok2 Hev2] by (by eapply claim_good).
  apply claim_Some in Hclaim as (_ & _ & _ & _ & r & r' & Hr1 & Hr2 & E1 & E2 & _ & _ & E3 & _ & E4);
    [|done].
  destruct (run_ok cfg d' cs2 Hok2) as [Hok3 Hev3]. set (d3 := run cfg cs2 d') in *.
  destruct (ev_steps _ _ Hev1 row Hr) as (ra & Hra & [Ia _ _ Sa]).
  assert (ra = r) as -> by (eapply (elem_of_unique step_id); [apply Hok1|..]; congruence).
  destruct (ev_steps _ _ Hev3 r' Hr2) as (rb & Hrb & [Ib Jb _ Sb]).
  assert (l_fence l < fence rb) as Hlt.
  { assert (fence row ≤ fence r) by (destruct Sa as [[-> _]|[? _]]; lia).
    assert (fence r' ≤ fence rb) by (destruct Sb as [[-> _]|[? _]]; lia). lia. }
  assert (evolves d d3) as Hev by (etrans; [exact Hev1|]; by etrans).
  destruct (ev_jobs _ _ Hev job Hj) as (j3 & Hj3 & [K1 _ K2 _ _ _ _ _ _]).
  destruct (ev_steps _ _ Hev row Hr) as (rc & Hrc & [Ic Jc _ _]).
  assert (rc = rb) as -> by (eapply (elem_of_unique step_id); [apply Hok3|..]; congruence).
  unfold _check_lease. rewrite <-Hid, <-K1.
  rewrite (tx_bind_run _ _ _ _ _ (find_job d3 j3 (l_scope l) (t_keys _ (proj1 Hok3)) Hj3 ltac:(congruence))).
  replace (job_id j3) with (s_job_id rb) by congruence. replace (l_step_id l) with (step_id rb) by congruence.
  rewrite (tx_bind_run _ _ _ _ _ (find_step d3 rb (t_keys _ (proj1 Hok3)) Hrb)).
  apply tx_bind_err. unfold guard. rewrite (proj2 (Z.eqb_neq _ _)) by lia. done.
Qed.

(** ** Commit *)

(** The ledger's record of a committed lease. *)
Record committed (l : Lease) (refs : list ObjectRef) (d : db) : Prop := {
  cm_job : ∃ j, j ∈ jobs d ∧ job_id j = l_job_id l ∧ j_scope j = identity (l_scope l);
  cm_row : ∃ r, r ∈ job_steps d ∧ step_id r = l_step_id l ∧ s_job_id r = l_job_id l ∧
                s_state r = StepState.SUCCEEDED;
  cm_manifest : ∃ m, m ∈ artifact_manifests d ∧ m_step_id m = l_step_id l ∧ manifest m = refs ∧
                     m_fence m = l_fence l;
  cm_attempt : ∃ a, a ∈ step_attempts d ∧ at_step_id a = l_step_id l ∧ at_fence a = l_fence l ∧
                    worker a = l_owner l }.

Lemma committed_evolves l refs d d' : committed l refs d → evolves d d' → committed l refs d'.
Proof.
  intros [(j & Hj & E1 & E2) (r & Hr & F1 & F2 & F3) (m & Hm & G) (a & Ha & A1 & A2 & A3)] [Ej Es Ea Em].
  split.
  - destruct (Ej j Hj) as (j' & Hj' & []). exists j'. split_and!; congruence.
  - destruct (Es r Hr) as (r' & Hr' & Hev). exists r'.
    destruct (settled_step_kept r r' Hev) as [E _]; [by rewrite F3|].
    destruct Hev. split_and!; congruence.
  - exists m. split; [|done]. destruct Em as [k ->]. set_solver.
  - destruct (Ea a Ha) as (a' & Ha' & B1 & B2 & B3 & B4 & _). exists a'. split_and!; congruence.
Qed.

(** The writes of a first commit reach the final state. *)
Lemma commit_tail_manifests job now id sid d x d' :
  (_ ← _activate job now; _ ← _refresh id now; r ← _step id sid; _step_model r) d = Ok (x, d') →
  artifact_manifests d' = artifact_manifests d.
Proof.
  intros Hr.
  assert (triple (λ e, artifact_manifests e = artifact_manifests d)
    (_ ← _activate job now; _ ← _refresh id now; r ← _step id sid; _step_model r)
    (λ _ e, artifact_manifests e = artifact_manifests d)) as Hf by tx_frame.
  by apply (Hf d eq_refl x d').
Qed.

Lemma commit_committed l refs now d x d' :
  ledger_ok d → commit l refs now d = Ok (x, d') →
  ledger_ok d' ∧ committed l refs d' ∧ valid_manifest l refs = true.
Proof.
  intros Hok Hrun. assert (good d d') as [Hok' Hev] by (by eapply commit_good).
  split; [done|]. unfold commit in Hrun.
  apply tx_bind_Ok in Hrun as ([] & d1 & H1 & Hrun). tx_inv H1. split; [|done].
  apply tx_bind_Ok in Hrun as (job & d2 & H2 & Hrun). apply job_Ok in H2 as (-> & Hj & Hid & Hsc).
  apply tx_bind_Ok in Hrun as (row & d3 & H3 & Hrun). apply step_Ok in H3 as (-> & Hr & Hsid & Hjid).
  destruct (in_state StepState.SUCCEEDED row) eqn:Est.
  { apply bool_decide_eq_true in Est. unfold replay_commit in Hrun.
    apply tx_bind_Ok in Hrun as (e & d4 & H4 & Hrun). tx_inv H4.
    apply tx_bind_Ok in Hrun as (m & d4 & H4 & Hrun). tx_inv H4.
    apply tx_bind_Ok in Hrun as ([] & d4 & H5 & Hrun). tx_inv H5.
    apply tx_bind_Ok in Hrun as ([] & d4 & H6 & Hrun). tx_inv H6.
    unfold _step_model in Hrun. tx_inv Hrun. apply bool_decide_eq_true in H6.
    apply find_row_Some in H4 as [Hm Em%bool_decide_eq_true].
    apply andb_true_iff in H5 as [Ef%Z.eqb_eq Ea].
    destruct (find_row _ (step_attempts _)) as [att|] eqn:Efa; [|done].
    apply bool_decide_eq_true in Ea. apply find_row_Some in Efa as [Hatt E].
    apply andb_true_iff in E as [E1%bool_decide_eq_true E2%Z.eqb_eq].
    split; eauto 10. }
  apply tx_bind_Ok in Hrun as ([job' row'] & d4 & H4 & Hrun).
  apply check_lease_Ok in H4 as (-> & _ & _ & _ & Hr' & Hsid' & Hjid' & Hf & Ho & Hst & _).
  assert (row' = row) as -> by (eapply (elem_of_unique step_id); [apply Hok|..]; congruence).
  apply tx_bind_Ok in Hrun as ([] & d5 & H5 & Hrun). apply check_intents_same in H5 as ->.
  apply tx_bind_Ok in Hrun as ([] & e1 & W1 & Hrun). unfold insert_manifest in W1. tx_inv W1. subst.
  apply tx_bind_Ok in Hrun as ([] & e2 & W2 & Hrun). apply insert_objects_core in W2 as (_ & _ & _ & M).
  apply tx_bind_Ok in Hrun as ([] & e3 & W3 & Hrun). unfold update_step in W3. tx_inv W3.
  apply tx_bind_Ok in Hrun as ([] & e4 & W4 & Hrun). unfold update_attempt in W4. tx_inv W4.
  apply commit_tail_manifests in Hrun. simpl in Hrun. rewrite M in Hrun. simpl in Hrun.
  set (m := {| m_step_id := l_step_id l; manifest := refs; committed_at := now; m_fence := l_fence l |})
    in Hrun.
  assert (m ∈ artifact_manifests d') as Hm by (rewrite Hrun; set_solver).
  split.
  - destruct (ev_jobs _ _ Hev job Hj) as (j' & Hj' & []). exists j'. split_and!; congruence.
  - destruct (mf_step _ (t_manifests _ (proj1 Hok')) m Hm) as (s & Hs & E1 & E2 & _).
    exists s. destruct (ev_steps _ _ Hev row Hr) as (s' & Hs' & [I J _ _]).
    assert (s' = s) as -> by (eapply (elem_of_unique step_id); [apply Hok'|..]; simpl in *; congruence).
    split_and!; try done; congruence.
  - by exists m.
  - destruct (at_running _ (t_attempts _ (proj1 Hok)) row Hr Hst) as (att & Hatt & A1 & A2 & _ & A4).
    destruct (ev_attempts _ _ Hev att Hatt) as (a' & Ha' & B1 & B2 & B3 & B4 & _).
    exists a'. split_and!; congruence.
Qed.

Lemma find_attempt d a :
  attempts_ok d → a ∈ step_attempts d →
  find_row (λ x, bool_decide (at_step_id x = at_step_id a) && (at_fence x =? at_fence a))
    (step_attempts d) = Some a.
Proof.
  intros [Hu _ _] Ha. rewrite <-(find_row_unique (λ a, (at_step_id a, at_fence a)) _ a Hu Ha).
  apply find_row_ext. intros x _. rewrite (bool_decide_ext
    ((at_step_id x, at_fence x) = (at_step_id a, at_fence a))
    (at_step_id x = at_step_id a ∧ at_fence x = at_fence a)) by (split; [by intros [= -> ->]|by intros [-> ->]]).
  rewrite bool_decide_and. f_equal. destruct (Z.eqb_spec (at_fence x) (at_fence a));
    [by rewrite bool_decide_eq_true_2|by rewrite bool_decide_eq_false_2].
Qed.

(** C2: a commit takes effect exactly once.  After it has returned, in every later
    state, committing the step again returns the committed manifest and changes
    nothing if lease and manifest are the same, reports [manifest_conflict] if the
    manifest differs, and [stale_fence] if the lease differs. *)
Theorem commit_exactly_once cs l refs now x d1 cs2 l2 refs2 now2 :
  commit l refs now (run cfg cs empty_db) = Ok (x, d1) →
  l_scope l2 = l_scope l → l_job_id l2 = l_job_id l → l_step_id l2 = l_step_id l →
  valid_manifest l2 refs2 = true →
  let d2 := run cfg cs2 d1 in
  ∃ row, row ∈ job_steps d2 ∧ step_id row = l_step_id l ∧ s_state row = StepState.SUCCEEDED ∧
    commit l2 refs2 now2 d2 =
      if (l_fence l2 =? l_fence l) && bool_decide (l_owner l2 = l_owner l) then
        if bool_decide (refs2 = refs) then Ok ((row, refs), d2) else Err (JobError "manifest_conflict")
      else Err (JobError "stale_fence").
Proof.
  intros Hcommit Esc Ejid Esid Hv2 d2.
  apply commit_committed in Hcommit as (Hok1 & Hcm & _); [|apply run_ok, ledger_ok_empty].
  destruct (run_ok cfg d1 cs2 Hok1) as [Hok Hev]. fold d2 in Hok, Hev.
  apply (committed_evolves _ _ _ d2) in Hcm; [|done].
  destruct Hcm as [(j & Hj & E1 & E2) (r & Hr & F1 & F2 & F3) (m & Hm & G1 & G2 & G3)
                   (a & Ha & A1 & A2 & A3)].
  exists r. split_and!; try done. pose proof (proj1 Hok) as Ht.
  assert (find_row (λ m0, bool_decide (m_step_id m0 = l_step_id l)) (artifact_manifests d2) = Some m) as Em.
  { rewrite <-G1. apply (find_row_unique m_step_id); [apply Ht|done]. }
  unfold commit. rewrite Hv2. rewrite (tx_bind_run _ _ _ tt d2) by done.
  rewrite Esc, Ejid, <-E1, (tx_bind_run _ _ _ _ _ (find_job d2 j (l_scope l) (t_keys _ Ht) Hj E2)).
  rewrite E1, <-F2, Esid, <-F1, (tx_bind_run _ _ _ _ _ (find_step d2 r (t_keys _ Ht) Hr)).
  unfold in_state. rewrite bool_decide_eq_true_2 by done.
  unfold replay_commit. rewrite (tx_bind_run _ _ _ d2 d2) by done.
  rewrite Esid. rewrite Em. rewrite (tx_bind_run _ _ _ m d2) by done. cbv zeta.
  rewrite G3, (Z.eqb_sym (l_fence l)).
  destruct (Z.eqb_spec (l_fence l2) (l_fence l)) as [Ef|Ef]; simpl.
  - rewrite Ef, <-A1, <-A2, (find_attempt d2 a) by (done || apply Ht).
    rewrite A3, (bool_decide_ext (l_owner l = l_owner l2) (l_owner l2 = l_owner l)) by done.
    destruct (bool_decide (l_owner l2 = l_owner l)); simpl; [|done].
    rewrite (tx_bind_run _ _ _ tt d2) by done. rewrite G2.
    rewrite (bool_decide_ext (refs = refs2) (refs2 = refs)) by done.
    destruct (bool_decide (refs2 = refs)); simpl; [|done].
    unfold _step_model, _manifest, mbind, tx_bind, gets, mret, tx_ret, guard.
    rewrite F1, Em, G2. done.
  - done.
Qed.

End Guarantees.
