(* ===== verification/JobProgress.v ===== *)
(** * Progress: attempts, dependencies, absence of deadlock, dispatch and recovery *)

From stdpp Require Import base tactics list list_numbers strings option sets relations.
From Stdlib Require Import ZArith NArith QArith Qminmax Lia.
From S2P Require Import Prelude Json Contracts JobModels JobLedger Sample JobFacts JobInvariant.
From S2P Require Import JobCoherence JobEvolution JobOps JobCommit JobAdmit.
From S2P Require Import JobHistory JobTheorems.

Local Open Scope Z_scope.

(** ** Counting *)

Lemma attempts_of_bounded `{Runtime} d r :
  attempts_ok d → keys_ok d → r ∈ job_steps d → 0 ≤ fence r →
  len (select (λ a, bool_decide (at_step_id a = step_id r)) (step_attempts d)) ≤ fence r.
Proof.
  intros [Hu Hs _] Hk Hr Hf.
  set (l := select _ _).
  assert (NoDup (at_fence <$> l)) as Hnd.
  { clear Hs. subst l. unfold select. induction (step_attempts d) as [|a l IH]; [constructor|].
    csimpl in *. apply NoDup_cons in Hu as [Ha Hu]. case_bool_decide as E; [|by apply IH].
    csimpl. apply NoDup_cons. split; [|by apply IH].
    intros (a' & Ef & [E' Ha']%elem_of_select)%list_elem_of_fmap. apply bool_decide_eq_true in E'.
    apply Ha, list_elem_of_fmap. exists a'. split; [congruence|done]. }
  assert (at_fence <$> l ⊆+ seqZ 1 (fence r)) as Hsub.
  { apply NoDup_submseteq; [done|]. intros x (a & -> & [E Ha]%elem_of_select)%list_elem_of_fmap.
    apply bool_decide_eq_true in E. destruct (Hs a Ha) as (s & Hin & E1 & _ & Hb & _).
    assert (s = r) as -> by (eapply (elem_of_unique step_id); [apply Hk|..]; congruence).
    apply elem_of_seqZ. lia. }
  apply submseteq_length in Hsub. rewrite length_fmap, length_seqZ in Hsub. unfold len. lia.
Qed.

Lemma count_split rows :
  len rows = count_state StepState.SUCCEEDED rows + count_state StepState.RUNNING rows
    + count_state StepState.RETRY_WAIT rows + count_state StepState.FAILED rows
    + count_state StepState.CANCELLED rows
    + (count_state StepState.PENDING rows + count_state StepState.READY rows).
Proof.
  unfold count_state, len. induction rows as [|r rows IH]; [done|].
  rewrite !count_cons. simpl length. unfold in_state in *. destruct (s_state r); simpl; lia.
Qed.

(** ** Dependencies *)

Lemma deps_succeeded_elim rows deps p :
  deps_succeeded rows deps = Ok true → p ∈ deps →
  ∃ r, r ∈ rows ∧ s_unit_id r = p ∧ s_state r = StepState.SUCCEEDED.
Proof.
  induction deps as [|q deps IH]; [set_solver|]. simpl.
  destruct (find_row _ rows) as [r|] eqn:E; [|done].
  destruct (in_state StepState.SUCCEEDED r) eqn:Es; [|done].
  intros Hd [->|Hin]%elem_of_cons; [|auto].
  apply find_row_Some in E as [Hr E%bool_decide_eq_true]. apply bool_decide_eq_true in Es. eauto.
Qed.

(** Dependencies of a valid plan are units that come before. *)
Lemma valid_plan_before seen pre s post p :
  valid_plan seen (pre ++ s :: post) = true → p ∈ depends_on s →
  p ∈ seen ∨ p ∈ unit_id <$> pre.
Proof.
  revert seen. induction pre as [|q pre IH]; intros seen; simpl; rewrite !andb_true_iff.
  - intros (((_ & Hd) & _) & _) Hp. left. rewrite forallb_forall in Hd.
    specialize (Hd p). rewrite <-list_elem_of_In in Hd. by apply Hd, bool_decide_eq_true in Hp.
  - intros (_ & Hv) Hp. destruct (IH _ Hv Hp) as [[->|?]%elem_of_cons|?]; [right|by left|right];
      csimpl; set_solver.
Qed.

(** Splitting a list at its first element that does not satisfy a property. *)
Lemma first_failure {A} (P : A → Prop) `{!∀ x, base.Decision (P x)} l :
  (∀ x, x ∈ l → P x) ∨ ∃ pre x post, l = pre ++ x :: post ∧ (∀ y, y ∈ pre → P y) ∧ ¬ P x.
Proof.
  induction l as [|x l IH]; [left; set_solver|].
  destruct (decide (P x)) as [Hx|Hx].
  - destruct IH as [?|(pre & y & post & -> & Hpre & Hy)]; [left; set_solver|right].
    exists (x :: pre), y, post. split; [done|]. set_solver.
  - right. exists [], x, l. set_solver.
Qed.

Section Progress.
Context `{Runtime} (cfg : JobSettings).

Lemma valid_admission_plan rq : valid_admission rq = true → valid_plan [] (steps rq) = true.
Proof. unfold valid_admission. rewrite !andb_true_iff. tauto. Qed.

(** A step's attempt counter is its fencing token; it never exceeds the
    [max_attempts] of the job's retry policy, itself at most 100, and there are no
    more attempt records than the counter says. *)
Theorem attempts_bounded cs r j :
  let d := run cfg cs empty_db in
  r ∈ job_steps d → j ∈ jobs d → job_id j = s_job_id r →
  attempt_count r = fence r ∧
  len (select (λ a, bool_decide (at_step_id a = step_id r)) (step_attempts d)) ≤ attempt_count r ∧
  attempt_count r ≤ max_attempts (policy_of j) ≤ 100.
Proof.
  intros d Hr Hj E. assert (ledger_ok d) as [Ht _] by apply run_ok, ledger_ok_empty.
  pose proof (row_ok_of d r j Ht Hr Hj E) as []. split; [done|]. rewrite ro_count.
  split; [apply attempts_of_bounded; [apply Ht..|done|lia]|].
  pose proof (valid_admission_attempts (request j) (k_valid _ (t_keys _ Ht) j Hj)).
  unfold policy_of. split; [apply ro_bound|lia].
Qed.

(** C6: a step that was ever made ready, and not cancelled, has all its
    dependencies succeeded in the same job, each with a committed manifest. *)
Theorem dependencies_first cs r p :
  let d := run cfg cs empty_db in
  r ∈ job_steps d → s_state r ≠ StepState.PENDING → s_state r ≠ StepState.CANCELLED →
  p ∈ depends_on (spec r) →
  ∃ r' m, r' ∈ job_steps d ∧ s_job_id r' = s_job_id r ∧ s_unit_id r' = p ∧
    s_state r' = StepState.SUCCEEDED ∧ m ∈ artifact_manifests d ∧ m_step_id m = step_id r'.
Proof.
  intros d Hr Hnp Hnc Hp. assert (ledger_ok d) as [Ht Hc] by apply run_ok, ledger_ok_empty.
  destruct (k_fk _ (t_keys _ Ht) r Hr) as (j & Hj & E).
  destruct (Hc j Hj) as [[[_ Hcl] _ _ _ _ _] _ _]. rewrite E in Hcl.
  destruct (deps_succeeded_elim _ _ p (Hcl r (step_in_rows _ _ Hr) Hnp Hnc) Hp)
    as (r' & [Hr' Ej]%rows_of_elem & Eu & Es).
  destruct (mf_succeeded _ (t_manifests _ Ht) r' Hr' Es) as (m & Hm & Em). eauto 10.
Qed.

(** The first unfinished step of a live job is not blocked. *)
Lemma live_has_in_flight d j :
  ledger_ok d → j ∈ jobs d → job_terminal (j_state j) = false → cancel_requested j = false →
  ∃ r, r ∈ rows_of d (job_id j) ∧ in_flight (s_state r) = true.
Proof.
  intros [Ht Hc] Hj Hnt Hncr. destruct (Hc j Hj) as [[[Hpl _] _ _ _ Hli _] _ Hst].
  specialize (Hli Hnt Hncr). set (rows := rows_of d (job_id j)) in *.
  destruct (first_failure (λ r, s_state r = StepState.SUCCEEDED) rows)
    as [Hall|(pre & r & post & Erows & Hpre & Hr)].
  { destruct (refreshed_state_cases j rows Hnt) as [[? _]|[_ [[(r & Hr & Hf) _]|[_ [[_ E]|[? _]]]]]].
    - congruence.
    - rewrite (Hall r Hr) in Hf. done.
    - rewrite <-Hst, E in Hnt. done.
    - done. }
  assert (r ∈ rows) as Hin by (rewrite Erows; set_solver).
  destruct (Hli r Hin) as (Hnf & Hncl & Hbl). exists r. split; [done|].
  destruct (s_state r) eqn:Est; try done. specialize (Hbl eq_refl).
  assert (deps_succeeded rows (depends_on (spec r)) = Ok true) as Hcl.
  { apply deps_succeeded_intro; [apply rows_units_NoDup, Ht|]. intros p Hp.
    pose proof (valid_admission_plan _ (k_valid _ (t_keys _ Ht) j Hj)) as Hv.
    rewrite <-Hpl, Erows, fmap_app in Hv. csimpl in Hv.
    destruct (valid_plan_before _ _ _ _ p Hv Hp) as [[]%not_elem_of_nil|Hpre'].
    rewrite <-list_fmap_compose in Hpre'. apply list_elem_of_fmap in Hpre' as (r' & -> & Hr').
    assert (r' ∈ rows) as Hin' by (rewrite Erows; set_solver).
    exists r'. split_and!; [done| |by apply Hpre].
    apply rows_of_elem in Hin' as [Hin' _]. by apply (k_unit _ (t_keys _ Ht)). }
  unfold blocked in Hbl. congruence.
Qed.

(** C5: no deadlock.  A job that is not terminal always has a step a worker holds,
    if its cancellation was requested, or a step that is held, ready or waiting to
    be retried otherwise. *)
Theorem live_job_has_work cs j :
  let d := run cfg cs empty_db in
  j ∈ jobs d → job_terminal (j_state j) = false →
  ∃ r, r ∈ job_steps d ∧ s_job_id r = job_id j ∧
    if cancel_requested j then s_state r = StepState.RUNNING else in_flight (s_state r) = true.
Proof.
  intros d Hj Hnt. assert (ledger_ok d) as Hok by apply run_ok, ledger_ok_empty.
  destruct (cancel_requested j) eqn:Hcr.
  - pose proof Hok as [_ Hc]. destruct (Hc j Hj) as [_ _ Hst].
    destruct (refreshed_state_cases j (rows_of d (job_id j)) Hnt)
      as [[_ [[_ E]|[(r & [Hr Ej]%rows_of_elem & Er) _]]]|[? _]].
    + by rewrite <-Hst, E in Hnt.
    + eauto.
    + congruence.
  - destruct (live_has_in_flight d j Hok Hj Hnt Hcr) as (r & [Hr Ej]%rows_of_elem & Hf). eauto.
Qed.

(** A job's progress record accounts for every step of its plan: the six
    counters add up to the number of requested steps, and a COMPLETED job has
    completed them all. *)
Theorem progress_accounts cs j :
  let d := run cfg cs empty_db in
  j ∈ jobs d →
  let p := progress j in
  total p = len (steps (request j)) ∧
  total p = completed p + running p + retrying p + failed_count p + cancelled p + pending p ∧
  (j_state j = JobState.COMPLETED → completed p = total p).
Proof.
  intros d Hj p. assert (ledger_ok d) as [Ht Hc] by apply run_ok, ledger_ok_empty.
  destruct (Hc j Hj) as [[[Hpl _] Hco _ _ _ _] Hpr _]. unfold p. rewrite Hpr. simpl. split_and!.
  - rewrite <-Hpl. unfold len. by rewrite length_fmap.
  - apply count_split.
  - intros E. by apply count_state_all, Hco.
Qed.

End Progress.
