(* ===== verification/JobPolicies.v ===== *)
(** * Admission, cancellation, retry delays and garbage collection *)

From stdpp Require Import base tactics list strings option sets relations.
From Stdlib Require Import ZArith NArith QArith Qminmax Lia.
From S2P Require Import Prelude Json Contracts JobModels JobLedger Sample JobFacts JobInvariant.
From S2P Require Import JobCoherence JobEvolution JobOps JobCommit JobAdmit.
From S2P Require Import JobHistory JobTheorems.
From Stdlib Require Import ZArith NArith QArith Qminmax Lqa Lia.

Local Open Scope Z_scope.

Section Recovery.
Context `{Runtime} (cfg : JobSettings).

(** ** Claims of dispatched steps *)

(** The retry budget of a step ran out before [now]. *)
Definition budget_spent (job : job_row) (row : step_row) (now : Z) : bool :=
  match started_at row with
  | Some s => s + timedelta_us (budget_seconds (retry (profile (request job)))) <=? now
  | None => false
  end.

Lemma refresh_total d id now j :
  job_by_id d id = Some j → _refresh id now d = Ok (tt, refresh_db id now j d).
Proof. apply refresh_run. Qed.

(** The new attempt number is unused. *)
Lemma new_attempt_fresh d row owner now :
  tables_ok d → row ∈ job_steps d →
  forallb (λ x, negb (bool_decide (at_step_id x = at_step_id (new_attempt row owner now))
                      && (number x =? number (new_attempt row owner now)))
                && negb (bool_decide (at_step_id x = at_step_id (new_attempt row owner now))
                         && (at_fence x =? at_fence (new_attempt row owner now))))
    (step_attempts d) = true.
Proof.
  intros Ht Hr. apply forallb_forall. intros a Ha%list_elem_of_In. simpl.
  case_bool_decide as E; [|done]. simpl.
  destruct (at_step _ (t_attempts _ Ht) a Ha) as (s & Hs & E1 & E2 & Hb & _).
  assert (s = row) as -> by (eapply (elem_of_unique step_id); [apply Ht|..]; congruence).
  destruct (k_fk _ (t_keys _ Ht) row Hr) as (j & Hj & Ej).
  pose proof (ro_count _ _ (row_ok_of d row j Ht Hr Hj Ej)).
  rewrite !(proj2 (Z.eqb_neq _ _)) by lia. done.
Qed.

Lemma start_attempt_total d scope owner job j row now :
  ledger_ok d → row ∈ job_steps d → job_by_id d (s_job_id row) = Some j →
  budget_spent job row now = false →
  ∃ d', start_attempt cfg scope (s_job_id row) (step_id row) owner job row now d
        = Ok (Some {| l_scope := scope; l_job_id := s_job_id row; l_step_id := step_id row;
                      l_owner := owner; l_fence := fence row + 1 |}, d').
Proof.
  intros [Ht _] Hr Hj Hb. unfold start_attempt. cbv zeta. unfold budget_spent in Hb. rewrite Hb.
  eexists. erewrite tx_bind_run; [|done]. erewrite tx_bind_run.
  2:{ unfold insert_attempt. erewrite tx_bind_run; [|done].
      erewrite tx_bind_run; [done|]. simpl.
      pose proof (new_attempt_fresh d row owner now Ht Hr) as Hf. simpl in Hf. by rewrite Hf. }
  erewrite tx_bind_run; [done|]. by apply refresh_run.
Qed.

Lemma start_attempt_spent d scope owner job j row now :
  ledger_ok d → row ∈ job_steps d → job_by_id d (s_job_id row) = Some j →
  budget_spent job row now = true →
  ∃ d' j', start_attempt cfg scope (s_job_id row) (step_id row) owner job row now d = Ok (None, d') ∧
    j' ∈ jobs d' ∧ job_id j' = s_job_id row ∧ j_state j' = JobState.FAILED ∧
    terminal_category j' = Some "retry_exhausted".
Proof.
  intros [Ht _] Hr Hj Hb. unfold start_attempt. cbv zeta. unfold budget_spent in Hb. rewrite Hb.
  set (f := failure "retry_exhausted" NON_RETRYABLE).
  set (d1 := terminal_db row f now d).
  assert (job_by_id d1 (s_job_id row) = Some (fail_job "retry_exhausted" j)) as Hj1.
  { unfold d1, terminal_db, cancel_ids, job_by_id. simpl. rewrite find_row_update by done.
    unfold job_by_id in Hj. rewrite Hj. simpl. apply find_row_Some in Hj as [_ ->]. done. }
  pose proof (job_by_id_Some _ _ _ Hj1) as [Hin1 Hid1].
  eexists _, _. split.
  - erewrite tx_bind_run; [|apply terminal_failure_run]. erewrite tx_bind_run; [done|].
    by apply refresh_run.
  - simpl. split; [apply elem_of_update_where; eexists; split; [exact Hin1|done]|].
    unfold is_job. rewrite (bool_decide_eq_true_2 _ Hid1). simpl. split_and!; try done.
Qed.

(** The rows behind a dispatched message. *)
Lemma pending_dispatch_elem limit now d ms d' m :
  keys_ok d → pending_dispatch limit now d = Ok (ms, d') → m ∈ ms →
  ∃ s j, s ∈ job_steps d ∧ j ∈ jobs d ∧ job_id j = s_job_id s ∧ d_scope m = a_scope (request j) ∧
    d_job_id m = job_id j ∧ d_step_id m = step_id s ∧ job_live j = true ∧
    step_waiting (s_state s) = true ∧ not_before s ≤ now.
Proof.
  intros Hk Hr Hm. unfold pending_dispatch in Hr.
  apply tx_bind_Ok in Hr as ([] & d1 & H1 & Hr). tx_inv H1. tx_inv Hr.
  apply elem_of_take in Hm as (i & Hi & _). apply list_elem_of_lookup_2 in Hi.
  apply list_elem_of_omap in Hi as (o & _ & Ho). unfold dispatchable, outbox_join in Ho.
  destruct (step_by_id d (o_step_id o)) as [s|] eqn:Es; [|done]. simpl in Ho.
  destruct (job_by_id d (s_job_id s)) as [j|] eqn:Ej; [|done]. simpl in Ho.
  destruct (bool_decide _ && _ && _ && _ && _) eqn:E; [|done]. injection Ho as <-.
  rewrite !andb_true_iff in E. destruct E as [[[_ E1] E2] E3%Z.leb_le].
  apply find_row_Some in Es as [Hs _]. apply job_by_id_Some in Ej as [Hj Hid].
  exists s, j. by split_and!.
Qed.

(** Every message [pending_dispatch] returns can be acted on at once: the
    claim it asks for hands out a lease with a new fencing token or, when the
    step's retry budget is spent, fails the job with [retry_exhausted]. *)
Theorem dispatch_claimable cs limit now ms d' m owner :
  let d := run cfg cs empty_db in
  pending_dispatch limit now d = Ok (ms, d') → m ∈ ms → is_token owner = true →
  ∃ o d2, claim cfg (d_scope m) (d_job_id m) (d_step_id m) owner now d = Ok (o, d2) ∧
    match o with
    | Some l => l_step_id l = d_step_id m ∧ l_owner l = owner
    | None => ∃ j, j ∈ jobs d2 ∧ job_id j = d_job_id m ∧ j_state j = JobState.FAILED ∧
                   terminal_category j = Some "retry_exhausted"
    end.
Proof.
  intros d Hr Hm Htok. assert (ledger_ok d) as Hok by apply run_ok, ledger_ok_empty.
  pose proof (proj1 Hok) as Ht. pose proof (t_keys _ Ht) as Hk.
  destruct (pending_dispatch_elem limit now d ms d' m Hk Hr Hm)
    as (s & j & Hs & Hj & Ej & -> & -> & -> & Hlive & Hw & Hnb).
  apply andb_true_iff in Hlive as [Hncr%negb_true_iff Hnt%negb_true_iff].
  assert (claim cfg (a_scope (request j)) (job_id j) (step_id s) owner now d
          = start_attempt cfg (a_scope (request j)) (s_job_id s) (step_id s) owner j s now d) as ->.
  { unfold claim. rewrite Htok, (tx_bind_run _ _ _ tt d) by done.
    rewrite (tx_bind_run _ _ _ _ _ (find_job d j (a_scope (request j)) Hk Hj
               (proj1 (k_names _ Hk j Hj)))).
    rewrite Ej, (tx_bind_run _ _ _ _ _ (find_step d s Hk Hs)), Hncr, Hnt. simpl.
    assert (expired_lease now s = false) as ->.
    { unfold expired_lease, in_state. by destruct (s_state s). }
    rewrite (tx_bind_run _ _ _ s d) by done. rewrite Hw. simpl.
    by rewrite (proj2 (Z.ltb_ge _ _)) by lia. }
  assert (job_by_id d (s_job_id s) = Some j) as Hjd by (rewrite <-Ej; by apply job_by_id_elem).
  destruct (budget_spent j s now) eqn:Hb.
  - destruct (start_attempt_spent d (a_scope (request j)) owner j j s now) as (d2 & j' & E & ?); try done.
    exists None, d2. split; [done|]. exists j'. by rewrite Ej.
  - destruct (start_attempt_total d (a_scope (request j)) owner j j s now) as (d2 & E); try done.
    eexists _, d2. split; [exact E|]. done.
Qed.

(** ** Recovery of expired leases *)

(** No step starts running. *)
Definition fewer_running (d d' : db) : Prop :=
  ∀ r, r ∈ job_steps d' → s_state r = StepState.RUNNING → r ∈ job_steps d.

Lemma fewer_running_fmap d d' g :
  job_steps d' = g <$> job_steps d →
  (∀ r, s_state (g r) = StepState.RUNNING → g r = r) → fewer_running d d'.
Proof.
  intros E Hg r. rewrite E. intros (r0 & -> & Hr0)%list_elem_of_fmap Hst. by rewrite Hg.
Qed.

Lemma cancel_ids_fewer ids now d : fewer_running d (cancel_ids ids now d).
Proof.
  eapply fewer_running_fmap; [done|]. intros r. simpl. by destruct (bool_decide _).
Qed.

#[local] Instance fewer_running_trans : Transitive fewer_running.
Proof. intros d1 d2 d3 H12 H23 r Hr Hst. auto. Qed.

Lemma failure_fewer job row f now d x d' :
  _failure job row f now d = Ok (x, d') →
  fewer_running d d' ∧ ∀ r, r ∈ job_steps d' → step_id r = step_id row → s_state r ≠ StepState.RUNNING.
Proof.
  intros Hrun. unfold _failure in Hrun.
  apply tx_bind_Ok in Hrun as (started & s & Hs & Hrun). tx_inv Hs.
  apply tx_bind_Ok in Hrun as ([] & d1 & H1 & Hrun). unfold update_attempt in H1. tx_inv H1.
  apply tx_bind_Ok in Hrun as ([] & d2 & H2 & Hrun). apply refresh_Ok in Hrun as (j & _ & ->).
  match type of H2 with (if ?b then _ else _) _ = _ => destruct b end.
  - unfold update_step, _enqueue in H2. tx_inv H2. subst. split.
    + eapply fewer_running_fmap; [done|]. intros r. simpl. by destruct (is_step _ r).
    + intros r (r0 & Hr0 & ->)%elem_of_update_where. unfold is_step.
      case_bool_decide as E; [done|]. intros E'. done.
  - rewrite terminal_failure_run in H2. injection H2 as <-. split.
    + unfold terminal_db. etrans; [|apply cancel_ids_fewer].
      eapply (fewer_running_fmap _ _ (λ r, if is_step (step_id row) r then _ else r)); [done|].
      intros r. simpl. by destruct (is_step _ r).
    + intros r (r1 & Hr1 & ->)%elem_of_update_where.
      match goal with |- context [bool_decide (step_id r1 ∈ ?l)] =>
        destruct (bool_decide (step_id r1 ∈ l)); [done|] end.
      apply elem_of_update_where in Hr1 as (r0 & _ & ->). unfold is_step.
      case_bool_decide as E; [done|]. done.
Qed.

Lemma reconcile_expired_settles now n row0 d x d' :
  keys_ok d → reconcile_expired now n row0 d = Ok (x, d') →
  fewer_running d d' ∧
  ∀ r, r ∈ job_steps d' → step_id r = step_id row0 → s_state r ≠ StepState.RUNNING.
Proof.
  intros Hk Hrun. unfold reconcile_expired in Hrun.
  apply tx_bind_Ok in Hrun as (row & d1 & H1 & Hrun). apply step_Ok in H1 as (-> & Hrow & Hsid & _).
  destruct (in_state StepState.RUNNING row) eqn:Est; simpl in Hrun.
  2:{ tx_inv Hrun. apply bool_decide_eq_false in Est. split; [by intros ???|].
      intros r Hr E. assert (r = row) as ->; [|done].
      eapply (elem_of_unique step_id); [apply Hk|..]; congruence. }
  apply tx_bind_Ok in Hrun as (js & d2 & H2 & Hrun). tx_inv H2.
  apply tx_bind_Ok in Hrun as (job & d3 & H3 & Hrun). tx_inv H3.
  apply tx_bind_Ok in Hrun as ([] & d4 & H4 & Hrun). tx_inv Hrun. rewrite <-Hsid.
  destruct (cancel_requested job || job_terminal (j_state job)); [|by eapply failure_fewer].
  apply tx_bind_Ok in H4 as ([] & d5 & H5 & H4). rewrite cancel_step_run in H5. injection H5 as <-.
  apply refresh_Ok in H4 as (j & _ & ->). split.
  - apply (cancel_ids_fewer [step_id row] now d).
  - intros r (r0 & Hr0 & ->)%elem_of_update_where.
    case_bool_decide as E; [done|]. rewrite list_elem_of_singleton in E. done.
Qed.

Lemma reconcile_loop_settles now rows n d x d' :
  ledger_ok d → fold_tx (reconcile_expired now) n rows d = Ok (x, d') →
  fewer_running d d' ∧
  ∀ r row, row ∈ rows → r ∈ job_steps d' → step_id r = step_id row → s_state r ≠ StepState.RUNNING.
Proof.
  revert n d. induction rows as [|row rows IH]; intros n d Hok Hr; simpl in Hr.
  - tx_inv Hr. split; [by intros ???|]. intros ?? []%not_elem_of_nil.
  - apply tx_bind_Ok in Hr as (n1 & d1 & H1 & Hr).
    assert (good d d1) as [Hok1 _] by (by eapply reconcile_expired_good).
    destruct (reconcile_expired_settles _ _ _ _ _ _ (t_keys _ (proj1 Hok)) H1) as [Hf1 Hs1].
    destruct (IH n1 d1 Hok1 Hr) as [Hf2 Hs2]. split; [by etrans|].
    intros r row' [->|Hin]%elem_of_cons Hrin E; [|by eapply Hs2].
    intros Hst. by apply (Hs1 r (Hf2 r Hrin Hst)).
Qed.

(** The repair loops after the first leave the steps alone. *)
Lemma reconcile_rest_steps limit now n1 d x d' :
  ledger_ok d →
  (rows2 ← gets (λ d, take (Z.to_nat limit) (select (terminal_leftover d) (job_steps d)));
   n2 ← fold_tx (reconcile_terminal now) 0 rows2;
   rows3 ← gets (λ d, take (Z.to_nat limit)
              (select (undispatched now (now - timedelta_us (redelivery_seconds cfg)) d) (job_steps d)));
   n3 ← fold_tx (reconcile_dispatch now) 0 rows3;
   c ← gets pending_count;
   orph ← gets (_orphans cfg now limit);
   mret {| expired := n1; dispatch_repairs := n3; terminal_repairs := n2; pending_outbox := c;
           orphan_count := len orph |}) d = Ok (x, d') →
  job_steps d' = job_steps d.
Proof.
  intros Hok Hrun. apply tx_bind_Ok in Hrun as (rows2 & d4 & H4 & Hrun). tx_inv H4.
  assert (select (terminal_leftover d) (job_steps d) = []) as Enil.
  { apply elem_of_nil_inv. intros s [E Hs]%elem_of_select. by rewrite no_terminal_leftover in E. }
  rewrite Enil, firstn_nil in Hrun.
  apply tx_bind_Ok in Hrun as (n2 & d5 & H5 & Hrun). simpl in H5. tx_inv H5.
  match type of Hrun with ?m _ = _ =>
    assert (triple (λ e, job_steps e = job_steps d) m (λ _ e, job_steps e = job_steps d)) as Hf end.
  { unfold reconcile_dispatch. tx_frame. }
  by apply (Hf d eq_refl x d').
Qed.

(** Reconciliation settles every expired lease it has room for: when at most
    [limit] leases have expired at [now], none is expired afterwards. *)
Theorem reconcile_settles cs limit now res d' :
  let d := run cfg cs empty_db in
  reconcile cfg limit now d = Ok (res, d') →
  len (select (expired_lease now) (job_steps d)) ≤ limit →
  ∀ r, r ∈ job_steps d' → expired_lease now r = false.
Proof.
  intros d Hrun Hlim r Hr. assert (ledger_ok d) as Hok by apply run_ok, ledger_ok_empty.
  unfold reconcile in Hrun.
  apply tx_bind_Ok in Hrun as ([] & d1 & H1 & Hrun). tx_inv H1.
  apply tx_bind_Ok in Hrun as (rows & d2 & H2 & Hrun). tx_inv H2.
  apply tx_bind_Ok in Hrun as (n1 & d3 & H3 & Hrun).
  rewrite take_ge in H3.
  2:{ rewrite order_by_Permutation. unfold len in Hlim. lia. }
  assert (good d d3) as Hgd3.
  { eapply (triple_fold (λ _ : Z, good d)); [|by split|exact H3].
    intros n row _. apply reconcile_expired_good. }
  destruct (reconcile_loop_settles _ _ _ _ _ _ Hok H3) as [Hfew Hset].
  assert (r ∈ job_steps d3) as Hr3.
  { apply reconcile_rest_steps in Hrun; [|apply Hgd3]. by rewrite <-Hrun. }
  destruct (expired_lease now r) eqn:E; [|done]. exfalso.
  pose proof E as [Est%bool_decide_eq_true _]%andb_true_iff.
  apply (Hset r r); try done. rewrite order_by_Permutation. apply elem_of_select. auto.
Qed.

End Recovery.

Section Policies.
Context `{Runtime} (cfg : JobSettings).

(** ** Admission *)

Lemma admit_job_result now ids rq d j d' :
  ledger_ok d → admit_job now ids rq d = Ok (j, d') →
  good d d' ∧ j ∈ jobs d' ∧ j_scope j = identity (a_scope rq) ∧
  request_key j = request_idempotency_key rq ∧ j_fingerprint j = request_digest rq.
Proof.
  intros Hok Hrun. unfold admit_job in Hrun.
  apply tx_bind_Ok in Hrun as ([] & d1 & H1 & Hrun). tx_inv H1.
  apply tx_bind_Ok in Hrun as (js & d2 & H2 & Hrun). tx_inv H2.
  destruct (find_row _ _) as [j0|] eqn:E.
  - apply tx_bind_Ok in Hrun as ([] & d3 & H3 & Hrun). tx_inv H3. apply mret_Ok in Hrun as [-> ->].
    apply find_row_Some in E as [Hj E]. apply andb_true_iff in E as [E1 E2].
    apply bool_decide_eq_true in E1, E2, H3. split_and!; try done; by split.
  - assert (good d d) as Hgd by (by split).
    destruct (admit_new_result d now ids rq H1 d Hgd j d' Hrun) as (Hgd' & Hj & <-).
    split_and!; try done; by apply (k_names _ (t_keys _ (proj1 (proj1 Hgd')))).
Qed.

(** Admission is idempotent in its request key.  Once a request has been
    admitted, in every later state a request of the same scope with the same key
    returns that job unchanged if it has the same digest, and is refused with
    [idempotency_conflict] otherwise; the ledger does not change either way. *)
Theorem admission_idempotent cs cs2 now ids rq j d1 now2 ids2 rq2 :
  admit_job now ids rq (run cfg cs empty_db) = Ok (j, d1) →
  valid_admission rq2 = true → a_scope rq2 = a_scope rq →
  request_idempotency_key rq2 = request_idempotency_key rq →
  let d2 := run cfg cs2 d1 in
  ∃ j2, j2 ∈ jobs d2 ∧ job_id j2 = job_id j ∧
    admit_job now2 ids2 rq2 d2 =
      if bool_decide (request_digest rq = request_digest rq2) then Ok (j2, d2)
      else Err (JobError "idempotency_conflict").
Proof.
  intros Hadm Hv Esc Ekey d2.
  apply admit_job_result in Hadm as ([Hok1 _] & Hj & E1 & E2 & E3); [|apply run_ok, ledger_ok_empty].
  destruct (run_ok cfg d1 cs2 Hok1) as [Hok Hev]. fold d2 in Hok, Hev.
  destruct (ev_jobs _ _ Hev j Hj) as (j2 & Hj2 & [K1 _ K2 K3 K4 _ _ _ _]).
  exists j2. split_and!; try done.
  unfold admit_job. rewrite Hv, (tx_bind_run _ _ _ tt d2), (tx_bind_run _ _ _ (jobs d2) d2) by done.
  assert (find_row (λ r, bool_decide (j_scope r = identity (a_scope rq2))
            && bool_decide (request_key r = request_idempotency_key rq2)) (jobs d2) = Some j2) as ->.
  { rewrite <-(find_row_unique (λ j, (j_scope j, request_key j)) (jobs d2) j2) by (done || apply Hok).
    apply find_row_ext. intros x _. rewrite Esc, Ekey, <-E1, <-E2, <-K2, <-K3, <-bool_decide_and.
    apply bool_decide_ext. split; [by intros [-> ->]|by intros [= -> ->]]. }
  rewrite K4, E3. by destruct (bool_decide _).
Qed.

(** ** Cancellation *)

(** After [cancel] has returned, whatever calls follow, a claim of any step of
    the job returns None and changes nothing. *)
Theorem cancelled_job_never_restarts cs scope id now j d1 cs2 r owner now2 :
  cancel scope id now (run cfg cs empty_db) = Ok (j, d1) →
  let d2 := run cfg cs2 d1 in
  r ∈ job_steps d2 → s_job_id r = id → is_token owner = true →
  claim cfg scope id (step_id r) owner now2 d2 = Ok (None, d2).
Proof.
  intros Hcancel d2 Hr Hrid Htok. set (d := run cfg cs empty_db) in *.
  assert (ledger_ok d) as Hok by apply run_ok, ledger_ok_empty.
  assert (good d d1) as [Hok1 Hev1] by (by eapply cancel_good).
  assert (∃ j1, j1 ∈ jobs d1 ∧ job_id j1 = id ∧ j_scope j1 = identity scope ∧
                (cancel_requested j1 = true ∨ job_terminal (j_state j1) = true)) as (j1 & Hj1 & Hid1 & Hsc1 & Hstop).
  { unfold cancel in Hcancel. apply tx_bind_Ok in Hcancel as (job & e1 & H1 & Hcancel).
    pose proof (job_Ok_by_id _ _ _ _ _ (proj1 Hok) H1) as Hjob. apply job_Ok in H1 as (-> & Hj & Hid & Hsc).
    destruct (job_terminal (j_state job)) eqn:Et; [tx_inv Hcancel; by eauto 10|].
    apply tx_bind_Ok in Hcancel as ([] & e2 & H2 & Hcancel). rewrite cancel_job_run in H2. injection H2 as <-.
    apply tx_bind_Ok in Hcancel as ([] & e3 & H3 & Hcancel). apply job_Ok in Hcancel as (-> & _).
    rewrite Hid in H3. apply refresh_Ok in H3 as (j1 & Ej1 & ->).
    pose proof (job_by_id_Some _ _ _ Ej1) as [Hj1 Hid1].
    unfold cancel_job_db in Hj1. simpl in Hj1. apply elem_of_update_where in Hj1 as (j0 & Hj0 & ->).
    assert (is_job id j0 = true) as E.
    { unfold is_job in *. case_bool_decide; [done|]. done. }
    assert (j0 = job) as ->.
    { apply bool_decide_eq_true in E. eapply (elem_of_unique job_id); [apply Hok|..]; congruence. }
    rewrite E in *. eexists. split; [apply elem_of_update_where; exists (request_cancel job); split|].
    - unfold cancel_job_db. simpl. apply elem_of_update_where. exists job. by rewrite E.
    - done.
    - unfold is_job in *. simpl. rewrite E. simpl. split_and!; [done|done|by left]. }
  destruct (run_ok cfg d1 cs2 Hok1) as [Hok2 Hev2]. fold d2 in Hok2, Hev2.
  destruct (ev_jobs _ _ Hev2 j1 Hj1) as (j2 & Hj2 & [K1 _ Ks _ _ _ _ K2 K3]).
  assert (cancel_requested j2 || job_terminal (j_state j2) = true) as Hs.
  { apply orb_true_iff. destruct Hstop as [Hc|Ht]; [left; auto|right].
    by rewrite (job_terminal_stays _ _ K3 Ht). }
  pose proof (t_keys _ (proj1 Hok2)) as Hk. unfold claim.
  rewrite Htok, (tx_bind_run _ _ _ tt d2) by done. rewrite <-Hid1, <-K1 in *.
  rewrite (tx_bind_run _ _ _ _ _ (find_job d2 j2 scope Hk Hj2 ltac:(congruence))).
  rewrite <-Hrid, (tx_bind_run _ _ _ _ _ (find_step d2 r Hk Hr)), Hs. done.
Qed.

(** ** Garbage collection *)

Lemma distinct_refs_elem seen l i : i ∈ distinct_refs seen l → i ∈ l.
Proof.
  revert seen. induction l as [|x l IH]; intros seen; simpl; [done|].
  destruct (bool_decide _); [intros Hi; right; by eapply IH|].
  intros [->|Hi]%elem_of_cons; [left|right; by eapply IH].
Qed.

(** An object that [orphan_candidates] offers for deletion is the source of no
    job, belongs to no committed manifest, and is not being written by any active
    step. *)
Theorem orphans_unreferenced cs limit now refs d' ref :
  let d := run cfg cs empty_db in
  orphan_candidates cfg limit now d = Ok (refs, d') → ref ∈ refs →
  ∃ i, i ∈ object_intents d ∧ i_ref i = ref ∧
    (∀ j, j ∈ jobs d → source_key j ≠ i_object_key i) ∧
    (∀ m r, m ∈ artifact_manifests d → r ∈ manifest m → ref_key r ≠ i_object_key i) ∧
    (∀ i' s, i' ∈ object_intents d → i_object_key i' = i_object_key i → s ∈ job_steps d →
             step_id s = i_step_id i' → step_active (s_state s) = false).
Proof.
  intros d Hr Href. assert (ledger_ok d) as Hok by apply run_ok, ledger_ok_empty.
  assert (objects_ok d) as Hobj.
  { apply run_objects. intros m r Hm. by apply not_elem_of_nil in Hm. }
  unfold orphan_candidates in Hr. apply tx_bind_Ok in Hr as ([] & d1 & H1 & Hr). tx_inv H1. tx_inv Hr.
  unfold _orphans in Href. apply list_elem_of_fmap in Href as (i & -> & Hi).
  apply elem_of_take in Hi as (k & Hk & _). apply list_elem_of_lookup_2 in Hk.
  rewrite order_by_Permutation in Hk. apply distinct_refs_elem in Hk.
  apply elem_of_select in Hk as [Ho Hi]. exists i. split_and!; try done;
    unfold is_orphan in Ho; rewrite !andb_true_iff, !negb_true_iff in Ho;
    destruct Ho as ((((_ & _) & Hsrc) & Hman) & Hact).
  - intros j Hj E. assert (true = false) as F; [|done]. rewrite <-Hsrc. symmetry. apply existsb_exists.
    exists j. rewrite <-list_elem_of_In. split; [done|by apply bool_decide_eq_true_2].
  - intros m r Hm Hrin E. destruct (Hobj m r Hm Hrin) as (o & Hoin & _ & Eo).
    assert (true = false) as F; [|done]. rewrite <-Hman. symmetry. apply existsb_exists.
    exists o. rewrite <-list_elem_of_In. split; [done|apply bool_decide_eq_true_2; congruence].
  - intros i' s Hi' E Hs Es. destruct (step_active (s_state s)) eqn:Ea; [|done].
    assert (true = false) as F; [|done]. rewrite <-Hact. symmetry. apply existsb_exists.
    exists i'. rewrite <-list_elem_of_In. split; [done|]. rewrite bool_decide_eq_true_2 by done.
    rewrite <-Es. unfold step_by_id, is_step.
    rewrite (find_row_unique step_id) by (done || apply Hok). done.
Qed.

(** ** Retry delays *)

Lemma hex_value_bound c : is_hex c = true → (hex_value c < 16)%N.
Proof.
  unfold is_hex, hex_value. rewrite orb_true_iff, !andb_true_iff, !N.leb_le.
  destruct (N.ltb_spec c 58); lia.
Qed.

Lemma hex_int_bounds acc t k :
  forallb is_hex t = true → 0 ≤ acc < 16 ^ k → 0 ≤ k →
  0 ≤ foldl (λ acc c, acc * 16 + Z.of_N (hex_value c)) acc t < 16 ^ (k + len t).
Proof.
  revert acc k. induction t as [|c t IH]; intros acc k Ht Hacc Hk; simpl.
  - unfold len. simpl. by rewrite Z.add_0_r.
  - simpl in Ht. apply andb_true_iff in Ht as [Hc Ht]. apply hex_value_bound in Hc.
    replace (k + len (c :: t)) with ((k + 1) + len t) by (unfold len; simpl; lia).
    apply IH; [done| |lia]. rewrite Z.pow_add_r by lia. lia.
Qed.

Lemma jitter_unit key attempt :
  (∀ t, is_digest (sha256_hex t) = true) →
  let f := (inject_Z (hex_int (take 8 (cps (fingerprint (JArr [jstr key; JInt attempt])))))
            / inject_Z 4294967295)%Q in
  (0 <= f <= 1)%Q.
Proof.
  intros Hsha f. specialize (Hsha (canonical (JArr [jstr key; JInt attempt]))).
  fold (fingerprint (JArr [jstr key; JInt attempt])) in Hsha.
  set (t := cps (fingerprint _)) in *. apply andb_true_iff in Hsha as [Hlen%Nat.eqb_eq Hhex].
  fold t in Hlen, Hhex.
  assert (0 ≤ hex_int (take 8 t) < 16 ^ 8) as Hb.
  { assert (forallb is_hex (take 8 t) = true) as Htk.
    { rewrite forallb_forall in *. intros x Hx%list_elem_of_In. apply Hhex, list_elem_of_In.
      by eapply (subseteq_take 8). }
    pose proof (hex_int_bounds 0 (take 8 t) 0 Htk ltac:(lia) ltac:(lia)) as Hbb.
    unfold len in Hbb. rewrite length_take, Hlen in Hbb. done. }
  unfold f. split.
  - apply Qle_shift_div_l; [done|]. rewrite Qmult_0_l.
    change 0%Q with (inject_Z 0). rewrite <-Zle_Qle. lia.
  - apply Qle_shift_div_r; [done|]. rewrite Qmult_1_l, <-Zle_Qle. lia.
Qed.

(** The delay before a retry lies between [1 - jitter_fraction] times and once
    the capped exponential [min(max_seconds, base_seconds * 2^(attempt-1))]; in
    particular it is never negative and never exceeds [max_seconds]. *)
Theorem retry_delay_bounds p key attempt :
  (∀ t, is_digest (sha256_hex t) = true) → valid_retry p = true → 1 ≤ attempt →
  let cap := Qmin (max_seconds p) (base_seconds p * inject_Z (2 ^ (attempt - 1))) in
  ((1 - jitter_fraction p) * cap <= delay p key attempt <= cap /\
   0 <= delay p key attempt <= max_seconds p)%Q.
Proof.
  intros Hsha Hv Hatt cap. pose proof (jitter_unit key attempt Hsha) as Hf. simpl in Hf.
  unfold delay. fold cap. set (f := (inject_Z (hex_int _) / _)%Q) in *.
  unfold valid_retry, in_open_closed, in_closed in Hv.
  rewrite !andb_true_iff, !negb_true_iff, !Qle_bool_iff in Hv.
  destruct Hv as (((((_ & _) & Hb & _) & Hm & _) & _) & Hj0 & Hj1).
  assert (0 < base_seconds p)%Q as Hb' by (apply Qnot_le_lt; intros E%Qle_bool_iff; congruence).
  assert (0 < max_seconds p)%Q as Hm' by (apply Qnot_le_lt; intros E%Qle_bool_iff; congruence).
  assert (0 < inject_Z (2 ^ (attempt - 1)))%Q as Hp.
  { change 0%Q with (inject_Z 0). rewrite <-Zlt_Qlt. apply Z.pow_pos_nonneg; lia. }
  assert (0 <= cap)%Q as Hc0.
  { apply Q.min_glb; [by apply Qlt_le_weak|]. apply Qlt_le_weak. by apply Qmult_lt_0_compat. }
  assert (cap <= max_seconds p)%Q as Hcm by apply Q.le_min_l.
  set (j := jitter_fraction p) in *. clearbody f j cap. clear -Hf Hj0 Hj1 Hc0 Hcm.
  assert (0 <= j * f <= j)%Q as Hjf by (split; nra).
  set (x := (j * f)%Q) in *. clearbody x. repeat split; nra.
Qed.

End Policies.
