(* ===== verification/Worker.v ===== *)
(** * Workers, dispatch and the document job service

    [documents/jobs/worker.py] and [documents/jobs/service.py].  A step handler is a program
    over the object store it is given; a worker interprets it through [IntentStore], between
    calls to the shared ledger.  Before every call of a worker the rest of the system may act:
    other processes run ledger calls and store calls and send messages, and the ledger may be
    unavailable for the call. *)

From stdpp Require Import base tactics list strings option sets.
From Stdlib Require Import ZArith NArith QArith Lia.
From S2P Require Import Prelude Json Contracts JobModels JobLedger Storage JobHistory.

Local Open Scope Z_scope.

Section Worker.
Context `{Runtime} (cfg : JobSettings) {T : Type} `{OS : !ObjectStore T}.

(** ** The shared world *)

(** [LocalDispatcher.messages] is a queue. *)
Record world := { ledger : db; objects : T; messages : list Dispatch; ticks : nat }.

(** What happens before a call: calls of other processes, messages they send, and the
    ledger's [now()] for the call, [None] when the database cannot be used. *)
Record moment := {
  elsewhere : list call; writes : list store_call; sends : list Dispatch; instant : option Z }.

Variable environment : nat → moment.

Definition interfere (w : world) : world :=
  let e := environment (ticks w) in
  {| ledger := run cfg (elsewhere e) (ledger w); objects := store_run (writes e) (objects w);
     messages := messages w ++ sends e; ticks := S (ticks w) |}.

(** ** Effects: an exception keeps the changes made before it *)

Definition io (A : Type) : Type := world → result exn A * world.
#[local] Instance io_ret : MRet io := λ A a w, (Ok a, w).
#[local] Instance io_bind : MBind io := λ A B f m w,
  match m w with (Ok a, w') => f a w' | (Err e, w') => (Err e, w') end.

Definition throw {A} (e : exn) : io A := λ w, (Err e, w).
(** [try: m], with the exception as a value. *)
Definition attempt {A} (m : io A) : io (result exn A) := λ w, let '(r, w') := m w in (Ok r, w').
Definition check (b : bool) (e : exn) : io unit := if b then mret tt else throw e.

(** One [with self._transaction()] of the ledger. *)
Definition ledger_call {A} (m : Z → ltx A) : io A := λ w,
  let w := interfere w in
  match instant (environment (pred (ticks w))) with
  | None => (Err ledger_error, w)
  | Some now =>
      let '(r, d) := transaction (m now) (ledger w) in
      (r, {| ledger := d; objects := objects w; messages := messages w; ticks := ticks w |})
  end.

(** One call of the object store. *)
Definition store_io {A} (f : T → result exn A * T) : io A := λ w,
  let w := interfere w in
  let '(r, s) := f (objects w) in
  (r, {| ledger := ledger w; objects := s; messages := messages w; ticks := ticks w |}).

(** ** [LocalDispatcher] and [relay] *)

Definition send (m : Dispatch) : io unit := λ w,
  (Ok tt, {| ledger := ledger w; objects := objects w; messages := messages w ++ [m]; ticks := ticks w |}).

Definition receive : io (option Dispatch) := λ w, (Ok (head (messages w)), w).

#[local] Instance Dispatch_eq_dec : EqDecision Dispatch.
Proof. solve_decision. Defined.

Definition acknowledge (m : Dispatch) : io unit := λ w,
  (Ok tt, match messages w with
          | m' :: rest =>
              if bool_decide (m' = m)
              then {| ledger := ledger w; objects := objects w; messages := rest; ticks := ticks w |}
              else w
          | [] => w
          end).

Fixpoint relay_messages (ms : list Dispatch) (count : Z) : io Z :=
  match ms with
  | [] => mret count
  | m :: ms' =>
      _ ← send m;
      _ ← ledger_call (mark_delivered m);
      relay_messages ms' (count + 1)
  end.

Definition relay (limit : Z) : io Z :=
  ms ← ledger_call (pending_dispatch limit);
  relay_messages ms 0.

(** ** [IntentStore] *)

Definition intent_put (l : Lease) (sc : Scope) (k : ObjectKind) (id : uuid) (stream : text)
    (m : Z) (expected : option digest) : io ObjectRef :=
  _ ← check (bool_decide (sc = l_scope l)) (JobError "scope_mismatch");
  match bounded_read stream m with
  | None => throw (DocErr "source_too_large")
  | Some data =>
      let d := sha256_hex data in
      _ ← check (match expected with Some e => bool_decide (e = d) | None => true end)
            (DocErr "integrity_error");
      let ref := make_ref sc k id data in
      _ ← ledger_call (register_object l ref);
      written ← store_io (put sc k id data m (Some d));
      _ ← check (bool_decide (written = ref)) (DocErr "integrity_error");
      mret written
  end.

Definition intent_read (l : Lease) (sc : Scope) (r : ObjectRef) (m : Z) : io text :=
  _ ← check (bool_decide (sc = l_scope l)) (JobError "scope_mismatch");
  store_io (read sc r m).

Definition intent_inspect (l : Lease) (sc : Scope) (r : ObjectRef) (m : Z) : io ObjectRef :=
  _ ← check (bool_decide (sc = l_scope l)) (JobError "scope_mismatch");
  store_io (inspect sc r m).

(** ** [StepHandler]: a program over the store it is given *)

Fixpoint handle {A} (l : Lease) (h : handling A) : io A :=
  match h with
  | Return a => mret a
  | Raise e => throw e
  | Put sc k id stream m expected next =>
      r ← attempt (intent_put l sc k id stream m expected); handle l (next r)
  | Read sc r m next => x ← attempt (intent_read l sc r m); handle l (next x)
  | Inspect sc r m next => x ← attempt (intent_inspect l sc r m); handle l (next x)
  | GetJob sc job next => x ← attempt (ledger_call (λ _, get_job sc job)); handle l (next x)
  | Steps sc job next => x ← attempt (ledger_call (λ _, steps_of sc job)); handle l (next x)
  end.

(** ** [Worker] *)

Variable handler : job_row → step_row * list ObjectRef → handling (list ObjectRef).
Variable owner : string.
Variable classifier : exn → Failure.

(** [except JobError]; any other exception leaves [once]. *)
Definition on_job_error {A} (m : io A) (k : string → io unit) : io unit :=
  r ← attempt m;
  match r with
  | Ok _ => mret tt
  | Err (JobErr c) => k c
  | Err e => throw e
  end.

Definition _settle_or_raise (l : Lease) (c : string) : io unit :=
  if bool_decide (c = "cancelled") then
    on_job_error (ledger_call (settle_cancel l))
      (λ c', check (bool_decide (c' ∈ ["stale_fence"; "invalid_transition"])) (JobErr c'))
  else
    check (bool_decide (c ∈ ["stale_fence"; "lease_expired"; "invalid_transition"])) (JobErr c).

Fixpoint inspect_all (l : Lease) (sc : Scope) (m : Z) (refs : list ObjectRef) : io unit :=
  match refs with
  | [] => mret tt
  | r :: refs' => _ ← intent_inspect l sc r m; inspect_all l sc m refs'
  end.

Definition execute_step (msg : Dispatch) (l : Lease) : io unit :=
  job ← ledger_call (λ _, get_job (d_scope msg) (d_job_id msg));
  ss ← ledger_call (λ _, steps_of (d_scope msg) (d_job_id msg));
  match find_row (λ s, is_step (d_step_id msg) s.1) ss with
  | None => throw OtherExn
  | Some step =>
      r ← attempt (manifest ← handle l (handler job step);
                   _ ← inspect_all l (d_scope msg) (p_max_artifact_bytes (profile (request job))) manifest;
                   mret manifest);
      match r with
      | Err e => on_job_error (ledger_call (fail l (classifier e))) (_settle_or_raise l)
      | Ok manifest => on_job_error (ledger_call (commit l manifest)) (_settle_or_raise l)
      end
  end.

Definition once : io bool :=
  message ← receive;
  match message with
  | None => mret false
  | Some msg =>
      lease ← ledger_call (claim cfg (d_scope msg) (d_job_id msg) (d_step_id msg) owner);
      _ ← match lease with None => mret tt | Some l => execute_step msg l end;
      _ ← acknowledge msg;
      mret true
  end.

(** ** [DocumentJobs] *)

Definition service_get (sc : Scope) (id : uuid) : io job_row := ledger_call (λ _, get_job sc id).
Definition service_cancel (sc : Scope) (id : uuid) : io job_row := ledger_call (cancel sc id).

Fixpoint inspect_refs (sc : Scope) (m : Z) (refs : list ObjectRef) : io unit :=
  match refs with
  | [] => mret tt
  | r :: refs' =>
      r' ← store_io (inspect sc r m);
      _ ← check (bool_decide (r' = r)) (DocErr "integrity_error");
      inspect_refs sc m refs'
  end.

(** The loop over [request.steps], with the units found reusable so far.  [old_steps] is a
    dict: the last step of a unit wins. *)
Fixpoint inspect_reusable (rq : Admission) (old : list (step_row * list ObjectRef))
    (reusable : list string) (specs : list StepSpec) : io unit :=
  match specs with
  | [] => mret tt
  | sp :: specs' =>
      match find_row (λ o, bool_decide (unit_id (spec o.1) = unit_id sp)) (rev old) with
      | Some (o, refs) =>
          if bool_decide (s_state o = StepState.SUCCEEDED) && bool_decide (spec o = sp)
             && forallb (λ u, bool_decide (u ∈ reusable)) (depends_on sp)
          then
            _ ← inspect_refs (a_scope rq) (p_max_artifact_bytes (profile rq)) refs;
            inspect_reusable rq old (unit_id sp :: reusable) specs'
          else inspect_reusable rq old reusable specs'
      | None => inspect_reusable rq old reusable specs'
      end
  end.

Definition service_admit (ids : nat → uuid) (rq : Admission) : io job_row :=
  _ ← check (valid_admission rq) (JobError "invalid_configuration");
  verified ← store_io (inspect (a_scope rq) (a_source rq) (p_max_source_bytes (profile rq)));
  _ ← check (bool_decide (verified = a_source rq)) (DocErr "integrity_error");
  _ ← match resume_from rq with
      | None => mret tt
      | Some prior_id =>
          prior ← ledger_call (λ _, get_job (a_scope rq) prior_id);
          if bool_decide (compatibility (request prior) = compatibility rq) then
            old ← ledger_call (λ _, steps_of (a_scope rq) (job_id prior));
            inspect_reusable rq old [] (steps rq)
          else mret tt
      end;
  ledger_call (λ now, admit_job now ids rq).

End Worker.

(** ** Everything a process does *)

Section System.
Context `{Runtime} (cfg : JobSettings) {T : Type} `{OS : !ObjectStore T}.
Variable environment : nat → moment.

Inductive activity :=
| Work (handler : job_row → step_row * list ObjectRef → handling (list ObjectRef)) (owner : string)
    (classifier : exn → Failure)
| Relay (limit : Z)
| AdmitJob (ids : nat → uuid) (rq : Admission)
| CancelAJob (sc : Scope) (id : uuid).

(** What an activity leaves; its result or exception goes to its caller. *)
Definition perform (w : world) (a : activity) : world :=
  match a with
  | Work handler owner classifier => (once cfg environment handler owner classifier w).2
  | Relay limit => (relay cfg environment limit w).2
  | AdmitJob ids rq => (service_admit cfg environment ids rq w).2
  | CancelAJob sc id => (service_cancel cfg environment sc id w).2
  end.

Definition system (acts : list activity) (w : world (T := T)) : world := foldl perform w acts.

End System.
