(* ===== verification/WorkerTheorems.v ===== *)
(** * Correctness of workers

    A worker's run is a history of ledger and store calls; it registers every object before
    it writes it, commits only manifests of stored objects, and keeps a message it did not
    settle. *)

From Stdlib Require Import ZArith NArith QArith Lia.
From stdpp Require Import base tactics list strings option relations sets.
From S2P Require Import Prelude Json Contracts JobModels JobLedger Sample Storage JobHistory Worker.

Local Open Scope Z_scope.

(** ** Ledger invariants over rows *)

Section Ledger.
Context `{Runtime} (cfg : JobSettings).

(** A row table other than the manifests survives an admitted step. *)
Lemma admit_step_intent i rq now ex jid run gen reusable copied ids :
  triple (λ d : db, i ∈ object_intents d) (admit_step rq now ex jid run gen reusable copied ids)
    (λ _ d, i ∈ object_intents d).
Proof.
  unfold admit_step. destruct ids as [sp sid]. cbv zeta. set (I := λ d : db, i ∈ object_intents d).
  destruct (find_row _ reusable ≫= _) as [o|]; [|tx_frame].
  eapply (triple_bind I _ _ (λ _, I)); [tx_frame|intros ?].
  eapply (triple_bind I _ _ (λ _, I)); [tx_frame|intros ml].
  eapply (triple_bind I _ _ (λ _, I)); [tx_frame|intros m].
  eapply (triple_bind I _ _ (λ _, I)); [unfold insert_manifest; tx_frame|intros ?].
  unfold insert_object. tx_frame.
Qed.

Lemma exec_intent d c i : i ∈ object_intents d → i ∈ object_intents (exec cfg d c).
Proof.
  set (I := λ d : db, i ∈ object_intents d). change (I d → I (exec cfg d c)). intros Hd.
  destruct c; simpl; (apply (transaction_preserves I); [|exact Hd]).
  - unfold admit_job, admit_new. tx_frame. apply admit_step_intent.
  - unfold claim. tx_frame.
  - unfold renew. tx_frame.
  - unfold register_object. tx_frame.
    apply triple_modify. intros s Hs. unfold I in *. simpl. set_solver.
  - unfold commit. tx_frame.
    eapply (triple_bind I _ _ (λ _, I)); [unfold insert_manifest; tx_frame|intros ?].
    unfold insert_object. tx_frame.
  - unfold fail. tx_frame.
  - unfold cancel. tx_frame.
  - unfold settle_cancel. tx_frame.
  - unfold mark_delivered. tx_frame.
  - unfold reconcile, reconcile_expired, reconcile_terminal, reconcile_dispatch. tx_frame.
Qed.

(** Every committed reference satisfies [P]. *)
Definition manifests_all (P : ObjectRef → Prop) (d : db) : Prop :=
  ∀ m, m ∈ artifact_manifests d → Forall P (manifest m).

Definition commits_only (P : ObjectRef → Prop) (c : call) : Prop :=
  match c with Commit _ refs _ => Forall P refs | _ => True end.

Lemma insert_manifest_all (P : ObjectRef → Prop) m :
  Forall P (manifest m) → triple (manifests_all P) (insert_manifest m) (λ _, manifests_all P).
Proof.
  intros Hm. unfold insert_manifest.
  eapply (triple_bind _ _ _ (λ _, manifests_all P)); [tx_frame|intros ?].
  eapply (triple_bind _ _ _ (λ _, manifests_all P)); [tx_frame|intros ?].
  apply triple_modify. intros d Hd m' Hm'. simpl in Hm'.
  apply elem_of_app in Hm' as [?| ->%list_elem_of_singleton]; auto.
Qed.

Lemma admit_step_all (P : ObjectRef → Prop) rq now ex jid run gen reusable copied ids :
  triple (manifests_all P) (admit_step rq now ex jid run gen reusable copied ids)
    (λ _, manifests_all P).
Proof.
  unfold admit_step. destruct ids as [sp sid]. cbv zeta. set (I := manifests_all P).
  destruct (find_row _ reusable ≫= _) as [o|]; [|tx_frame].
  eapply (triple_bind I _ _ (λ _, I)); [tx_frame|intros ?].
  apply (triple_bind I _ _ (λ ml d, I d ∧ ∀ m, m ∈ ml → Forall P (manifest m))).
  { apply triple_gets. intros s Hs. by split. }
  intros ml. apply (triple_bind _ _ _ (λ m d, I d ∧ Forall P (manifest m))).
  { apply triple_expect. intros s m [Hs Hml] Hm%find_row_Some. split; [done|]. apply Hml. naive_solver. }
  intros m s [Hs Hm] x s'.
  assert (triple I (_ ← insert_manifest {| m_step_id := sid; manifest := manifest m; committed_at := now;
                                           m_fence := 0 |};
                    _ ← for_each (λ ref, insert_object sid (ref_key ref)) (manifest m);
                    mret (unit_id sp :: copied)) (λ _, I)) as Ht; [|by apply Ht].
  eapply triple_bind; [by apply insert_manifest_all|intros ?]. unfold insert_object. tx_frame.
Qed.

Lemma exec_manifests (P : ObjectRef → Prop) d c :
  commits_only P c → manifests_all P d → manifests_all P (exec cfg d c).
Proof.
  intros Hc Hd. destruct c; simpl in *; (apply (transaction_preserves (manifests_all P)); [|exact Hd]).
  - unfold admit_job, admit_new. tx_frame. apply admit_step_all.
  - unfold claim. tx_frame.
  - unfold renew. tx_frame.
  - unfold register_object. tx_frame.
  - unfold commit. tx_frame.
    eapply triple_bind; [by apply insert_manifest_all|intros ?]. unfold insert_object. tx_frame.
  - unfold fail. tx_frame.
  - unfold cancel. tx_frame.
  - unfold settle_cancel. tx_frame.
  - unfold mark_delivered. tx_frame.
  - unfold reconcile, reconcile_expired, reconcile_terminal, reconcile_dispatch. tx_frame.
Qed.

Lemma run_intent cs d i : i ∈ object_intents d → i ∈ object_intents (run cfg cs d).
Proof. revert d. induction cs as [|c cs IH]; intros d Hd; [done|]. by apply IH, exec_intent. Qed.

Lemma run_manifests (P : ObjectRef → Prop) cs d :
  Forall (commits_only P) cs → manifests_all P d → manifests_all P (run cfg cs d).
Proof.
  intros Hcs. revert d. induction Hcs as [|c cs Hc Hcs IH]; intros d Hd; [done|].
  by apply IH, exec_manifests.
Qed.

(** A registration that returned left its intent. *)
Lemma register_intent l ref now d d' :
  register_object l ref now d = Ok (tt, d') →
  ∃ i, i ∈ object_intents d' ∧ i_object_key i = ref_key ref ∧ i_ref i = ref.
Proof.
  intros Hr. unfold register_object in Hr. apply tx_bind_Ok in Hr as ([] & d1 & H1 & Hr). tx_inv H1.
  apply tx_bind_Ok in Hr as ([] & d1 & H2 & Hr). tx_inv H2.
  apply tx_bind_Ok in Hr as (jr & d1 & H3 & Hr). apply tx_bind_Ok in Hr as (il & d2 & H4 & Hr).
  tx_inv H4. destruct (find_row _ (object_intents d1)) as [i|] eqn:Ei.
  - tx_inv Hr. apply find_row_Some in Ei as [Hi Hk]. apply andb_true_iff in Hk as [_ Hk].
    apply bool_decide_eq_true in Hk, Hr. by exists i.
  - tx_inv Hr. eexists. split; [simpl; apply elem_of_app; right; by apply list_elem_of_singleton|done].
Qed.

End Ledger.

#[local] Existing Instances io_ret io_bind.

Section Effects.
Context `{Runtime} (cfg : JobSettings) {T : Type} `{OS : !ObjectStore T}.
Variable environment : nat → moment.
Notation world := (world (T := T)).

(** ** Effects that keep a relation *)

Section Keeps.
Variable R : world → world → Prop.
Context `{!PreOrder R}.

Definition keeps {A} (m : io A) : Prop := ∀ w, R w (m w).2.

Lemma keeps_ret {A} (a : A) : keeps (mret a).
Proof. intros w. reflexivity. Qed.

Lemma keeps_throw {A} e : keeps (throw e : io A).
Proof. intros w. reflexivity. Qed.

Lemma keeps_check b e : keeps (check b e).
Proof. unfold check. destruct b; [apply keeps_ret|apply keeps_throw]. Qed.

Lemma keeps_bind {A B} (m : io A) (f : A → io B) :
  keeps m → (∀ a, keeps (f a)) → keeps (m ≫= f).
Proof.
  intros Hm Hf w. specialize (Hm w). unfold mbind, io_bind. destruct (m w) as [[a|e] w']; simpl in *; [|done].
  etrans; [exact Hm|apply Hf].
Qed.

Lemma keeps_attempt {A} (m : io A) : keeps m → keeps (attempt m).
Proof. intros Hm w. specialize (Hm w). unfold attempt. by destruct (m w). Qed.

Lemma keeps_on_job_error {A} (m : io A) k :
  keeps m → (∀ c, keeps (k c)) → keeps (on_job_error m k).
Proof.
  intros Hm Hk. apply keeps_bind; [by apply keeps_attempt|]. intros [a|[]];
    [apply keeps_ret|apply Hk|apply keeps_throw..].
Qed.

End Keeps.

(** The code of a worker, up to its calls of the ledger and of the store. *)
Ltac keep :=
  repeat (cbv zeta; lazymatch goal with
  | |- keeps _ (mret _) => apply keeps_ret; [typeclasses eauto]
  | |- keeps _ (throw _) => apply keeps_throw; [typeclasses eauto]
  | |- keeps _ (check _ _) => apply keeps_check; [typeclasses eauto]
  | |- keeps _ (attempt _) => apply keeps_attempt
  | |- keeps _ (on_job_error _ _) => apply keeps_on_job_error; [typeclasses eauto| |intros ?]
  | |- keeps _ (_ ≫= _) => apply keeps_bind; [typeclasses eauto| |intros ?]
  | |- keeps _ (match ?x with _ => _ end) => destruct x
  | |- keeps _ (_settle_or_raise _ _ _ _) => unfold _settle_or_raise
  end).

(** ** Ledger calls *)

(** A body whose transaction is a history of ledger calls. *)
Definition ledger_op {A} (Q : call → Prop) (m : Z → ltx A) : Prop :=
  ∀ now d, ∃ cs, (transaction (m now) d).2 = run cfg cs d ∧ Forall Q cs.

Definition any_call (c : call) : Prop := True.

Lemma op_call {A} (Q : call → Prop) (m : Z → ltx A) (c : Z → call) :
  (∀ now d, (transaction (m now) d).2 = exec cfg d (c now)) → (∀ now, Q (c now)) → ledger_op Q m.
Proof. intros Hm Hq now d. exists [c now]. split; [apply Hm|]. by repeat constructor. Qed.

Lemma op_read {A} (Q : call → Prop) (m : Z → ltx A) :
  (∀ now d, (transaction (m now) d).2 = d) → ledger_op Q m.
Proof. intros Hm now d. exists []. split; [apply Hm|constructor]. Qed.

(** Reads leave the database. *)
Definition same_db {A} (m : ltx A) : Prop := ∀ d a d', m d = Ok (a, d') → d' = d.

Lemma same_db_op {A} (Q : call → Prop) (m : Z → ltx A) : (∀ now, same_db (m now)) → ledger_op Q m.
Proof.
  intros Hm. apply op_read. intros now d. unfold transaction. destruct (m now d) as [[a d']|] eqn:E; [|done].
  simpl. by eapply Hm.
Qed.

Lemma get_job_op Q sc id : ledger_op Q (λ _, get_job sc id).
Proof. apply same_db_op. intros _ d a d' Hr. unfold get_job, _job in Hr. by tx_inv Hr. Qed.

Lemma steps_of_op Q sc id : ledger_op Q (λ _, steps_of sc id).
Proof. apply same_db_op. intros _ d a d' Hr. unfold steps_of, _job in Hr. by tx_inv Hr. Qed.

Lemma pending_op Q limit : ledger_op Q (pending_dispatch limit).
Proof. apply same_db_op. intros now d a d' Hr. unfold pending_dispatch in Hr. by tx_inv Hr. Qed.

(** The operations other than the commit. *)
Definition no_commit (c : call) : Prop := match c with Commit _ _ _ => False | _ => True end.

Lemma claim_op (Q : call → Prop) sc j s o :
  (∀ c, no_commit c → Q c) → ledger_op Q (claim cfg sc j s o).
Proof. intros HQ. by apply (op_call _ _ (Claim sc j s o)); [|intros; apply HQ]. Qed.
Lemma register_op (Q : call → Prop) l r : (∀ c, no_commit c → Q c) → ledger_op Q (register_object l r).
Proof. intros HQ. by apply (op_call _ _ (Register l r)); [|intros; apply HQ]. Qed.
Lemma fail_op (Q : call → Prop) l f : (∀ c, no_commit c → Q c) → ledger_op Q (fail l f).
Proof. intros HQ. by apply (op_call _ _ (FailStep l f)); [|intros; apply HQ]. Qed.
Lemma settle_op (Q : call → Prop) l : (∀ c, no_commit c → Q c) → ledger_op Q (settle_cancel l).
Proof. intros HQ. by apply (op_call _ _ (SettleCancel l)); [|intros; apply HQ]. Qed.
Lemma cancel_op (Q : call → Prop) sc id : (∀ c, no_commit c → Q c) → ledger_op Q (cancel sc id).
Proof. intros HQ. by apply (op_call _ _ (CancelJob sc id)); [|intros; apply HQ]. Qed.
Lemma delivered_op (Q : call → Prop) m : (∀ c, no_commit c → Q c) → ledger_op Q (mark_delivered m).
Proof. intros HQ. by apply (op_call _ _ (MarkDelivered m)); [|intros; apply HQ]. Qed.
Lemma admit_op (Q : call → Prop) ids rq :
  (∀ c, no_commit c → Q c) → ledger_op Q (λ now, admit_job now ids rq).
Proof. intros HQ. by apply (op_call _ _ (λ now, Admit now ids rq)); [|intros; apply HQ]. Qed.
Lemma commit_op (Q : call → Prop) l refs : (∀ now, Q (Commit l refs now)) → ledger_op Q (commit l refs).
Proof. intros HQ. by apply (op_call _ _ (Commit l refs)). Qed.

Hint Resolve get_job_op steps_of_op pending_op claim_op register_op fail_op settle_op cancel_op
  delivered_op admit_op commit_op : polymind.

(** The world after a ledger call: interference, then calls of its own. *)
Lemma ledger_call_spec {A} Q (m : Z → ltx A) w :
  ledger_op Q m →
  let w1 := interfere cfg environment w in let w' := (ledger_call cfg environment m w).2 in
  (∃ cs, ledger w' = run cfg cs (ledger w1) ∧ Forall Q cs) ∧ objects w' = objects w1 ∧
  messages w' = messages w1.
Proof.
  intros Hm w1 w'. subst w'. unfold ledger_call. fold w1. cbv zeta.
  destruct (instant _) as [now|]; [|split; [by exists []|done]].
  destruct (Hm now (ledger w1)) as (cs & Hcs & HQ). destruct (transaction _ _) as [r d].
  simpl in *. split; [by exists cs|done].
Qed.

Lemma store_io_spec {A} (f : T → result exn A * T) w :
  let w1 := interfere cfg environment w in let w' := (store_io cfg environment f w).2 in
  ledger w' = ledger w1 ∧ objects w' = (f (objects w1)).2 ∧ messages w' = messages w1.
Proof.
  intros w1 w'. subst w'. unfold store_io. fold w1. cbv zeta. by destruct (f (objects w1)).
Qed.

(** ** The worker, for any relation its calls keep *)

Section Generic.
Variable R : world → world → Prop.
Context `{!PreOrder R}.
Hypothesis call_keeps : ∀ A (m : Z → ltx A), ledger_op no_commit m → keeps R (ledger_call cfg environment m).
Hypothesis commit_keeps : ∀ l refs w,
  Forall (stored (objects w)) refs → R w (ledger_call cfg environment (commit l refs) w).2.
Hypothesis read_keeps : ∀ sc r m, keeps R (store_io cfg environment (read sc r m)).
Hypothesis inspect_keeps : ∀ sc r m, keeps R (store_io cfg environment (inspect sc r m)).
Hypothesis put_keeps' : ∀ l sc k id stream m e, keeps R (intent_put cfg environment l sc k id stream m e).
Hypothesis grows : ∀ w w' key b, R w w' →
  published (objects w) key = Some b → published (objects w') key = Some b.

Ltac by_call := apply call_keeps; eauto with polymind.

Lemma inspect_keeps' l sc r m : keeps R (intent_inspect cfg environment l sc r m).
Proof. unfold intent_inspect. keep. apply inspect_keeps. Qed.

Lemma handle_keeps {A} l (h : handling A) : keeps R (handle cfg environment l h).
Proof.
  induction h as [a|e|sc k id stream m e next IH|sc r m next IH|sc r m next IH|sc job next IH|sc job next IH]; cbn [handle]; keep; eauto.
  - unfold intent_read. keep. apply read_keeps.
  - apply inspect_keeps'.
  - by_call.
  - by_call.
Qed.

Lemma inspect_all_keeps l sc m refs : keeps R (inspect_all cfg environment l sc m refs).
Proof. induction refs as [|r refs IH]; cbn [inspect_all]; keep; [apply inspect_keeps'|done]. Qed.

Lemma stored_grows w w' r : R w w' → stored (objects w) r → stored (objects w') r.
Proof. intros HR (b & Hb & ?). exists b. split; [by eapply grows|done]. Qed.

(** Every reference a completed inspection loop saw is stored. *)
Lemma inspect_all_stored l sc m refs w w' :
  inspect_all cfg environment l sc m refs w = (Ok tt, w') → Forall (stored (objects w')) refs.
Proof.
  revert w. induction refs as [|r refs IH]; intros w Hi; [constructor|]. cbn [inspect_all] in Hi.
  pose proof (inspect_all_keeps l sc m refs) as Hk. unfold mbind, io_bind in Hi.
  destruct (intent_inspect cfg environment l sc r m w) as [[r'|e] w1] eqn:E1; [|done].
  constructor; [|by eapply IH]. specialize (Hk w1). rewrite Hi in Hk. simpl in Hk.
  apply (stored_grows w1 w'); [exact Hk|]. unfold intent_inspect, check in E1. destruct (bool_decide _); [|done].
  unfold mbind, io_bind, mret, io_ret, store_io in E1. cbv zeta in E1.
  set (w0 := interfere cfg environment w) in *. pose proof (inspect_same (objects w0) sc r m (ref_key r)) as Hs.
  destruct (inspect sc r m (objects w0)) as [res s1] eqn:E2. injection E1 as -> <-. simpl in *.
  apply inspect_Ok in E2 as [_ (b & Hb & Hsha & Hlen & _)]. exists b. by rewrite Hs.
Qed.

Lemma execute_step_keeps handler classifier msg l :
  keeps R (execute_step cfg environment handler classifier msg l).
Proof.
  unfold execute_step. apply keeps_bind; [typeclasses eauto|by_call|intros job].
  apply keeps_bind; [typeclasses eauto|by_call|intros ss].
  destruct (find_row _ ss) as [step|]; [|keep]. intros w. set (body := (_ ← _; _) : io (list ObjectRef)).
  assert (keeps R body) as Hb.
  { unfold body. keep; [apply handle_keeps|apply inspect_all_keeps]. }
  assert (∀ refs w', body w = (Ok refs, w') → Forall (stored (objects w')) refs) as Hpost.
  { intros refs w' E. unfold body, mbind, io_bind in E.
    destruct (handle _ _ _ _ w) as [[man|] w1]; [|done].
    destruct (inspect_all _ _ _ _ _ man w1) as [[[]|] w2] eqn:E2; [|done].
    injection E as <- <-. by eapply inspect_all_stored. }
  specialize (Hb w). unfold mbind at 1, io_bind at 1, attempt at 1. destruct (body w) as [r w1]. simpl in Hb.
  etrans; [exact Hb|]. destruct r as [refs|e].
  - pose proof (commit_keeps l refs w1 (Hpost refs w1 eq_refl)) as Hc.
    unfold on_job_error, mbind, io_bind, attempt.
    destruct (ledger_call _ _ (commit l refs) w1) as [res w2]. simpl in Hc.
    destruct res as [|[]]; try exact Hc. etrans; [exact Hc|].
    assert (keeps R (_settle_or_raise cfg environment l category)) as Hk; [|apply Hk]. keep. by_call.
  - assert (keeps R (on_job_error (ledger_call cfg environment (fail l (classifier e)))
                       (_settle_or_raise cfg environment l))) as Hk; [|apply Hk]. keep; by_call.
Qed.

Lemma relay_keeps limit :
  (∀ m, keeps R (send m)) → keeps R (relay cfg environment limit).
Proof.
  intros Hs. unfold relay. keep; [by_call|]. generalize 0 as n. induction a as [|m ms IH]; intros n;
    cbn [relay_messages]; keep; [apply Hs|by_call|apply IH].
Qed.

Lemma inspect_refs_keeps sc m refs : keeps R (inspect_refs cfg environment sc m refs).
Proof. induction refs as [|r refs IH]; cbn [inspect_refs]; keep; [apply inspect_keeps|done]. Qed.

Lemma inspect_reusable_keeps rq old reusable specs :
  keeps R (inspect_reusable cfg environment rq old reusable specs).
Proof.
  revert reusable. induction specs as [|sp specs IH]; intros reusable; cbn [inspect_reusable]; keep; try done.
  apply inspect_refs_keeps.
Qed.

Lemma service_admit_keeps ids rq : keeps R (service_admit cfg environment ids rq).
Proof.
  unfold service_admit. keep; try by_call; [apply inspect_keeps|apply inspect_reusable_keeps].
Qed.

Lemma service_cancel_keeps sc id : keeps R (service_cancel cfg environment sc id).
Proof. unfold service_cancel. by_call. Qed.

(** Relations that ignore the queue are kept by everything a process does. *)
Hypothesis queue_free : ∀ w ms, R w {| ledger := ledger w; objects := objects w; messages := ms; ticks := ticks w |}.

Lemma acknowledge_keeps m : keeps R (acknowledge m).
Proof.
  intros w. unfold acknowledge. destruct (messages w) as [|m' rest]; [reflexivity|].
  case_bool_decide; simpl; [apply queue_free|reflexivity].
Qed.

Lemma once_keeps handler owner classifier : keeps R (once cfg environment handler owner classifier).
Proof.
  unfold once. apply keeps_bind; [typeclasses eauto| |intros msg]; [intros w; reflexivity|].
  keep; [by_call|apply execute_step_keeps|apply acknowledge_keeps].
Qed.

Lemma system_keeps acts w : R w (system cfg environment acts w).
Proof.
  revert w. induction acts as [|a acts IH]; intros w; [simpl; reflexivity|]. simpl. etrans; [|apply IH].
  destruct a; simpl; [apply once_keeps|apply relay_keeps|apply service_admit_keeps|apply service_cancel_keeps].
  intros m w0. apply queue_free.
Qed.

End Generic.

(** ** A process is a history of operations *)

Definition refines (w w' : world) : Prop :=
  ∃ cs scs, ledger w' = run cfg cs (ledger w) ∧ objects w' = store_run scs (objects w).

#[local] Instance refines_preorder : PreOrder refines.
Proof.
  split; [intros w; by exists [], []|].
  intros w1 w2 w3 (cs & scs & Hd & Hs) (cs' & scs' & Hd' & Hs'). exists (cs ++ cs'), (scs ++ scs').
  rewrite run_app, <-Hd, <-Hd'. split; [done|]. unfold store_run in *. by rewrite foldl_app, <-Hs, <-Hs'.
Qed.

Lemma interfere_refines w : refines w (interfere cfg environment w).
Proof. eexists _, _. split; reflexivity. Qed.

Lemma call_refines {A} Q (m : Z → ltx A) : ledger_op Q m → keeps refines (ledger_call cfg environment m).
Proof.
  intros Hm w. destruct (ledger_call_spec Q m w Hm) as ((cs & Hd & _) & Hs & _).
  etrans; [apply interfere_refines|]. exists cs, []. by split.
Qed.

Lemma store_refines {A} (f : T → result exn A * T) (c : store_call) :
  (∀ s, (f s).2 = store_exec s c) → keeps refines (store_io cfg environment f).
Proof.
  intros Hf w. destruct (store_io_spec f w) as (Hd & Hs & _).
  etrans; [apply interfere_refines|]. exists [], [c]. by rewrite Hd, Hs, Hf.
Qed.

Lemma refines_grows w w' key b :
  refines w w' → published (objects w) key = Some b → published (objects w') key = Some b.
Proof. intros (cs & scs & _ & ->). apply store_run_keeps. Qed.

Lemma refines_intents w w' i :
  refines w w' → i ∈ object_intents (ledger w) → i ∈ object_intents (ledger w').
Proof. intros (cs & scs & -> & _). apply run_intent. Qed.

Lemma intent_put_refines l sc k id stream m e :
  keeps refines (intent_put cfg environment l sc k id stream m e).
Proof.
  unfold intent_put. keep.
  - apply (call_refines no_commit). eauto with polymind.
  - by apply (store_refines _ (CallPut sc k id t m (Some (sha256_hex t)))).
Qed.

Lemma refines_queue w ms :
  refines w {| ledger := ledger w; objects := objects w; messages := ms; ticks := ticks w |}.
Proof. by exists [], []. Qed.

(** ** No object without an intent *)

(** Written by another process. *)
Definition foreign (key : uuid) (b : text) : Prop := ∃ n, Exists (wrote key b) (writes (environment n)).

(** The ledger holds an intent for these bytes under this key. *)
Definition registered (d : db) (key : uuid) (b : text) : Prop :=
  ∃ i, i ∈ object_intents d ∧ i_object_key i = key ∧
       ref_sha256 (i_ref i) = sha256_hex b ∧ ref_byte_size (i_ref i) = len b.

Definition tracked (w w' : world) : Prop :=
  refines w w' ∧ ∀ key b, published (objects w') key = Some b →
    published (objects w) key = Some b ∨ foreign key b ∨ registered (ledger w') key b.

#[local] Instance tracked_preorder : PreOrder tracked.
Proof.
  split; [intros w; split; [reflexivity|by left]|].
  intros w1 w2 w3 [H1 Ht1] [H2 Ht2]. split; [by etrans|]. intros key b Hb.
  destruct (Ht2 key b Hb) as [Hb2|[Hf|Hr]]; [|by auto..].
  destruct (Ht1 key b Hb2) as [Hb1|[Hf|(i & Hi & Hr)]]; [by auto..|].
  right; right. exists i. split; [by eapply refines_intents|done].
Qed.

Lemma interfere_tracked w : tracked w (interfere cfg environment w).
Proof.
  split; [apply interfere_refines|]. intros key b [|Hw]%store_run_only; [by left|]. right; left.
  by exists (ticks w).
Qed.

Lemma same_objects_tracked w w' : refines w w' → objects w' = objects w → tracked w w'.
Proof. intros Hr Ho. split; [done|]. intros key b. rewrite Ho. by left. Qed.

Lemma call_tracked {A} Q (m : Z → ltx A) : ledger_op Q m → keeps tracked (ledger_call cfg environment m).
Proof.
  intros Hm w. destruct (ledger_call_spec Q m w Hm) as ((cs & Hd & _) & Hs & _).
  etrans; [apply interfere_tracked|]. apply same_objects_tracked; [|done]. by exists cs, [].
Qed.

Lemma store_tracked {A} (f : T → result exn A * T) (c : store_call) :
  (∀ s, (f s).2 = store_exec s c) → (∀ key b, ¬ wrote key b c) → keeps tracked (store_io cfg environment f).
Proof.
  intros Hf Hc w. destruct (store_io_spec f w) as (Hd & Hs & _).
  etrans; [apply interfere_tracked|]. split; [exists [], [c]; by rewrite Hd, Hs, Hf|].
  intros key b. rewrite Hs, Hf. intros Hb.
  destruct (store_run_only [c] _ _ _ Hb) as [|[Hw|[]%Exists_nil]%Exists_cons]; [by left|].
  by destruct (Hc key b).
Qed.

(** The registration returned, so the intent is there when the object is written. *)
Lemma intent_put_tracked l sc k id stream m e :
  keeps tracked (intent_put cfg environment l sc k id stream m e).
Proof.
  unfold intent_put. apply keeps_bind; [typeclasses eauto|keep|intros _].
  destruct (bounded_read stream m) as [t|]; [|keep]. cbv zeta.
  apply keeps_bind; [typeclasses eauto|keep|intros _]. intros w. set (ref := make_ref sc k id t).
  assert (keeps tracked (ledger_call cfg environment (register_object l ref))) as Hreg.
  { apply (call_tracked no_commit). eauto with polymind. }
  specialize (Hreg w). unfold mbind at 1, io_bind at 1.
  destruct (ledger_call cfg environment (register_object l ref) w) as [[[]|x] w1] eqn:E1; [|done].
  simpl in Hreg.
  assert (∃ i, i ∈ object_intents (ledger w1) ∧ i_object_key i = ref_key ref ∧ i_ref i = ref) as (i & Hi & Hk & Hir).
  { unfold ledger_call in E1. cbv zeta in E1. destruct (instant _); [|done].
    destruct (transaction _ _) as [r d] eqn:Et. injection E1 as -> <-. apply transaction_Ok in Et.
    by eapply register_intent. }
  etrans; [exact Hreg|]. clear Hreg E1 w.
  assert (tracked w1 (store_io cfg environment (put sc k id t m (Some (sha256_hex t))) w1).2) as Hput.
  { destruct (store_io_spec (put sc k id t m (Some (sha256_hex t))) w1) as (Hd & Hs & _).
    set (w0 := interfere cfg environment w1) in *. pose proof (interfere_tracked w1) as Hi0. fold w0 in Hi0.
    split.
    - etrans; [apply Hi0|]. exists [], [CallPut sc k id t m (Some (sha256_hex t))]. by rewrite Hd, Hs.
    - intros key b. rewrite Hs. intros [Hb|[-> ->]]%put_only.
      + destruct Hi0 as [_ Hi0]. destruct (Hi0 key b Hb) as [|[|]]; [by left|by right; left|].
        right; right. by rewrite Hd.
      + right; right. exists i. rewrite Hd. split; [|by rewrite Hk, Hir].
        eapply refines_intents; [apply interfere_refines|done]. }
  unfold mbind, io_bind. destruct (store_io _ _ _ w1) as [[r|x] w2]; [|done]. simpl in Hput.
  unfold check. by case_bool_decide.
Qed.

(** C15: Nothing is stored without being registered first.  Over any sequence of worker runs,
    relays, admissions and cancellations, with any handlers, failures and interleavings, every
    object in the store was there at the start, was written by another process, or has a
    registered intent in the ledger that names its key, its digest and its size, so the
    conservative retention listing covers all objects the workers can leave behind. *)
Theorem no_untracked_objects acts w key b :
  published (objects (system cfg environment acts w)) key = Some b →
  published (objects w) key = Some b ∨ foreign key b ∨
  registered (ledger (system cfg environment acts w)) key b.
Proof.
  assert (tracked w (system cfg environment acts w)) as [_ Ht]; [|apply Ht].
  apply (system_keeps tracked); intros.
  - by apply (call_tracked no_commit).
  - apply (call_tracked any_call). apply commit_op. done.
  - by apply (store_tracked _ (CallRead sc r m)); [|intros ? ? []].
  - by apply (store_tracked _ (CallInspect sc r m)); [|intros ? ? []].
  - apply intent_put_tracked.
  - match goal with Ht : tracked _ _ |- _ => destruct Ht as [Hr _] end. by eapply refines_grows.
  - apply same_objects_tracked; [apply refines_queue|done].
Qed.

(** ** Committed manifests only list stored objects *)

(** The reference is in a manifest of the ledger. *)
Definition in_manifest (d : db) (r : ObjectRef) : Prop := ∃ m, m ∈ artifact_manifests d ∧ r ∈ manifest m.

Lemma in_manifest_elem d refs r : refs ∈ manifest <$> artifact_manifests d → r ∈ refs → in_manifest d r.
Proof. intros (m & -> & Hm)%list_elem_of_fmap Hr. by exists m. Qed.

(** Another process commits a manifest with this reference. *)
Definition foreign_commit (r : ObjectRef) : Prop :=
  ∃ n l refs now, Commit l refs now ∈ elsewhere (environment n) ∧ r ∈ refs.

(** What the ledger lists is stored, unless it was listed before or another process commits it. *)
Definition resolved (w w' : world) : Prop :=
  refines w w' ∧ ∀ r, in_manifest (ledger w') r → in_manifest (ledger w) r ∨ foreign_commit r ∨ stored (objects w') r.

Lemma refines_stored w w' r : refines w w' → stored (objects w) r → stored (objects w') r.
Proof. intros Hr (b & Hb & ?). exists b. split; [by eapply refines_grows|done]. Qed.

#[local] Instance resolved_preorder : PreOrder resolved.
Proof.
  split; [intros w; split; [reflexivity|by left]|]. intros w1 w2 w3 [H1 Hk1] [H2 Hk2]. split; [by etrans|].
  intros r [Hr|[?|?]]%Hk2; [|by auto..]. apply Hk1 in Hr as [?|[?|Hr]]; [by auto..|]. right; right.
  by eapply refines_stored.
Qed.

(** A history of commits of references with [P] adds only such references to what is listed. *)
Lemma run_in_manifest (P : ObjectRef → Prop) cs d r :
  Forall (commits_only P) cs → in_manifest (run cfg cs d) r → in_manifest d r ∨ P r.
Proof.
  intros Hcs (m & Hm & Hr).
  assert (manifests_all (λ r, in_manifest d r ∨ P r) (run cfg cs d)) as Hall.
  { apply run_manifests.
    - eapply Forall_impl; [exact Hcs|]. intros [] Hc; try done. simpl in *.
      eapply Forall_impl; [exact Hc|]. by right.
    - intros m' Hm'. apply Forall_forall. intros r' Hr'. left. by exists m'. }
  specialize (Hall m Hm). rewrite Forall_forall in Hall. by apply Hall.
Qed.

Lemma interfere_resolved w : resolved w (interfere cfg environment w).
Proof.
  split; [apply interfere_refines|]. intros r Hr. apply (run_in_manifest foreign_commit) in Hr as [?|?]; auto.
  apply Forall_forall. intros [] Hc; try done. simpl. apply Forall_forall. intros r' Hr'.
  by eexists _, _, _, _.
Qed.

Lemma same_ledger_resolved w w' : refines w w' → ledger w' = ledger w → resolved w w'.
Proof. intros Hr E. split; [done|]. intros r. rewrite E. by left. Qed.

Lemma call_resolved {A} (P : ObjectRef → Prop) (m : Z → ltx A) w :
  ledger_op (commits_only P) m → (∀ r, P r → stored (objects w) r) →
  resolved w (ledger_call cfg environment m w).2.
Proof.
  intros Hm HP. etrans; [apply interfere_resolved|].
  destruct (ledger_call_spec _ m w Hm) as ((cs & Hd & HQ) & Hs & _).
  split; [by exists cs, []|]. intros r. rewrite Hd, Hs. intros [?|Hr]%(run_in_manifest P); [by left| |done].
  right; right. eapply refines_stored; [apply interfere_refines|by apply HP].
Qed.

Lemma store_resolved {A} (f : T → result exn A * T) (c : store_call) :
  (∀ s, (f s).2 = store_exec s c) → keeps resolved (store_io cfg environment f).
Proof.
  intros Hf w. destruct (store_io_spec f w) as (Hd & Hs & _). etrans; [apply interfere_resolved|].
  apply same_ledger_resolved; [|done]. exists [], [c]. by rewrite Hd, Hs, Hf.
Qed.

Lemma no_commit_op {A} (m : Z → ltx A) : ledger_op no_commit m → ledger_op (commits_only (λ _, False)) m.
Proof.
  intros Hm now d. destruct (Hm now d) as (cs & Hd & HQ). exists cs. split; [done|].
  eapply Forall_impl; [exact HQ|]. by intros [].
Qed.

(** C16: Committed manifests resolve.  Over any sequence of worker runs, relays, admissions (with
    resumption) and cancellations, with any handlers, failures and calls of other processes in
    between: every reference of a manifest in the ledger was in a manifest at the start, or was
    committed by another process, or is the reference of an object in the store with its digest
    and its size.  A worker inspects all objects of a manifest before it commits it, a resumed
    step takes over a manifest that is already there, and stored objects never change. *)
Theorem manifests_resolve acts w r :
  let w' := system cfg environment acts w in
  in_manifest (ledger w') r → in_manifest (ledger w) r ∨ foreign_commit r ∨ stored (objects w') r.
Proof.
  cbv zeta. assert (resolved w (system cfg environment acts w)) as [_ Hr]; [|apply Hr].
  apply (system_keeps resolved).
  - intros A m Hm w0. apply (call_resolved (λ _, False)); [by apply no_commit_op|done].
  - intros l refs w0 Hrefs. apply (call_resolved (λ r, r ∈ refs)).
    + apply commit_op. intros now. simpl. by apply Forall_forall.
    + intros r' Hr'. rewrite Forall_forall in Hrefs. auto.
  - intros sc r' m. by apply (store_resolved _ (CallRead sc r' m)).
  - intros sc r' m. by apply (store_resolved _ (CallInspect sc r' m)).
  - intros l sc k id stream m e. unfold intent_put. keep.
    + intros w0. apply (call_resolved (λ _, False)); [|done]. apply no_commit_op. eauto with polymind.
    + by apply (store_resolved _ (CallPut sc k id t m (Some (sha256_hex t)))).
  - intros w0 w1 key b [Hr' _]. by eapply refines_grows.
  - intros w0 ms. apply same_ledger_resolved; [apply refines_queue|done].
Qed.

(** ** Messages are not lost *)

Definition kept (w w' : world) : Prop := refines w w' ∧ ∃ q, messages w' = messages w ++ q.

#[local] Instance kept_preorder : PreOrder kept.
Proof.
  split; [intros w; split; [reflexivity|by exists []; rewrite app_nil_r]|].
  intros w1 w2 w3 [H1 (q & Hq)] [H2 (q' & Hq')]. split; [by etrans|]. exists (q ++ q').
  by rewrite Hq', Hq, app_assoc.
Qed.

Lemma interfere_kept w : kept w (interfere cfg environment w).
Proof. split; [apply interfere_refines|]. by eexists. Qed.

Lemma same_kept w w' : refines w w' → messages w' = messages w → kept w w'.
Proof. intros Hr E. split; [done|]. exists []. by rewrite app_nil_r. Qed.

Lemma call_kept {A} Q (m : Z → ltx A) : ledger_op Q m → keeps kept (ledger_call cfg environment m).
Proof.
  intros Hm w. destruct (ledger_call_spec Q m w Hm) as ((cs & Hd & _) & Hs & Hmsg).
  etrans; [apply interfere_kept|]. apply same_kept; [|done]. by exists cs, [].
Qed.

Lemma store_kept {A} (f : T → result exn A * T) (c : store_call) :
  (∀ s, (f s).2 = store_exec s c) → keeps kept (store_io cfg environment f).
Proof.
  intros Hf w. destruct (store_io_spec f w) as (Hd & Hs & Hmsg). etrans; [apply interfere_kept|].
  apply same_kept; [|done]. exists [], [c]. by rewrite Hd, Hs, Hf.
Qed.

Lemma execute_step_kept handler classifier msg l :
  keeps kept (execute_step cfg environment handler classifier msg l).
Proof.
  apply execute_step_keeps; try typeclasses eauto.
  - intros A m Hm. by apply (call_kept no_commit).
  - intros l' refs w _. apply (call_kept any_call). by apply commit_op.
  - intros sc r m. by apply (store_kept _ (CallRead sc r m)).
  - intros sc r m. by apply (store_kept _ (CallInspect sc r m)).
  - intros l' sc k id stream m e. unfold intent_put. keep.
    + apply (call_kept no_commit). eauto with polymind.
    + by apply (store_kept _ (CallPut sc k id t m (Some (sha256_hex t)))).
  - intros w w' key b [Hr _]. by eapply refines_grows.
Qed.

(** ** What the ledger last answered about a lease *)

(** The database is what a transaction of [m] left, and [r] its answer. *)
Definition answered {A} (m : Z → ltx A) (r : result exn A) (d' : db) : Prop :=
  ∃ now d, transaction (m now) d = (r, d').

(** How a step ends for the worker that held its lease. *)
Inductive concluded (classifier : exn → Failure) (l : Lease) (w' : world) : Prop :=
| concluded_commit refs out :
    answered (commit l refs) (Ok out) (ledger w') → Forall (stored (objects w')) refs → concluded classifier l w'
| concluded_failure e : answered (fail l (classifier e)) (Ok tt) (ledger w') → concluded classifier l w'
| concluded_cancel : answered (settle_cancel l) (Ok tt) (ledger w') → concluded classifier l w'
| lost_commit refs c :
    answered (commit l refs) (Err (JobErr c)) (ledger w') →
    c ∈ ["stale_fence"; "lease_expired"; "invalid_transition"] → concluded classifier l w'
| lost_failure e c :
    answered (fail l (classifier e)) (Err (JobErr c)) (ledger w') →
    c ∈ ["stale_fence"; "lease_expired"; "invalid_transition"] → concluded classifier l w'
| lost_cancel c :
    answered (settle_cancel l) (Err (JobErr c)) (ledger w') →
    c ∈ ["stale_fence"; "invalid_transition"] → concluded classifier l w'.

Lemma ledger_call_answered {A} (m : Z → ltx A) w r w' :
  ledger_call cfg environment m w = (r, w') →
  objects w' = objects (interfere cfg environment w) ∧ (r = Err ledger_error ∨ answered m r (ledger w')).
Proof.
  unfold ledger_call. cbv zeta. destruct (instant _) as [now|]; [|intros [= <- <-]; by auto].
  destruct (transaction _ _) as [x d] eqn:Et. intros [= <- <-]. split; [done|]. right. by eexists _, _.
Qed.

Lemma on_job_error_Ok {A} (m : io (T := T) A) k w w' :
  on_job_error m k w = (Ok tt, w') →
  (∃ a, m w = (Ok a, w')) ∨ ∃ c w1, m w = (Err (JobErr c), w1) ∧ k c w1 = (Ok tt, w').
Proof.
  unfold on_job_error, mbind, io_bind, attempt. destruct (m w) as [[a|e] w1].
  - intros [= <-]. left. by exists a.
  - destruct e as [c| | | |]; try done. intros E. right. by exists c, w1.
Qed.

Lemma io_check_Ok b e (w w' : world) : check b e w = (Ok tt, w') → b = true ∧ w' = w.
Proof. unfold check. destruct b; [by intros [= <-]|done]. Qed.

(** A refusal that the worker accepts. *)
Lemma settle_or_raise_Ok l c w w' :
  _settle_or_raise cfg environment l c w = (Ok tt, w') →
  (c ∈ ["stale_fence"; "lease_expired"; "invalid_transition"] ∧ w' = w) ∨
  (c = "cancelled" ∧ ∀ classifier, concluded classifier l w').
Proof.
  unfold _settle_or_raise. case_bool_decide as Ec; cycle 1.
  { intros [Hc%bool_decide_eq_true ->]%io_check_Ok. by left. }
  intros [([] & E)|(c' & w1 & E & [Hc%bool_decide_eq_true ->]%io_check_Ok)]%on_job_error_Ok; (right; split; [done|]; intros cl);
    apply ledger_call_answered in E as [_ [E|E]]; try done.
  - by apply concluded_cancel.
  - exfalso. injection E as ->. set_solver.
  - by eapply lost_cancel.
Qed.

Lemma execute_step_Ok handler classifier msg l w w' :
  execute_step cfg environment handler classifier msg l w = (Ok tt, w') → concluded classifier l w'.
Proof.
  unfold execute_step, mbind at 1, io_bind at 1. destruct (ledger_call _ _ _ w) as [[job|] w1]; [|done].
  unfold mbind at 1, io_bind at 1. destruct (ledger_call _ _ _ w1) as [[ss|] w2]; [|done].
  destruct (find_row _ ss) as [step|]; [|done]. set (body := (_ ← _; _) : io (list ObjectRef)).
  assert (∀ refs w3, body w2 = (Ok refs, w3) → Forall (stored (objects w3)) refs) as Hpost.
  { intros refs w3 E. unfold body, mbind, io_bind in E.
    destruct (handle _ _ _ _ w2) as [[man|] w4]; [|done].
    destruct (inspect_all _ _ _ _ _ man w4) as [[[]|] w5] eqn:E2; [|done].
    injection E as <- <-. eapply (inspect_all_stored refines); [| |exact E2].
    - intros sc r m. by apply (store_refines _ (CallInspect sc r m)).
    - intros w6 w7 key b. apply refines_grows. }
  unfold mbind at 1, io_bind at 1, attempt at 1. destruct (body w2) as [[refs|e] w3].
  - intros [(out & E)|(c & w4 & E & Hs)]%on_job_error_Ok; pose proof E as Ha;
      apply ledger_call_answered in Ha as [Ho [Ha|Ha]]; try done.
    + eapply concluded_commit; [exact Ha|]. rewrite Ho. eapply Forall_impl; [by apply Hpost|].
      intros r (b & Hb & ?). exists b. split; [by eapply refines_grows, Hb; apply interfere_refines|done].
    + exfalso. injection Ha as ->. apply settle_or_raise_Ok in Hs as [[Hc _]|[Hc _]]; [set_solver|done].
    + apply settle_or_raise_Ok in Hs as [[Hc ->]|[_ Hs]]; [by eapply lost_commit|apply Hs].
  - intros [([] & E)|(c & w4 & E & Hs)]%on_job_error_Ok; pose proof E as Ha;
      apply ledger_call_answered in Ha as [_ [Ha|Ha]]; try done.
    + by eapply concluded_failure.
    + exfalso. injection Ha as ->. apply settle_or_raise_Ok in Hs as [[Hc _]|[Hc _]]; [set_solver|done].
    + apply settle_or_raise_Ok in Hs as [[Hc ->]|[_ Hs]]; [by eapply lost_failure|apply Hs].
Qed.

(** ** Delivery is at least once *)

(** A turn of a worker that took the message off the queue: its claim of the step was answered
    with no lease, or with a lease that the ledger then heard of for the last time. *)
Definition taken_by (handler : job_row → step_row * list ObjectRef → handling (list ObjectRef)) (owner : string)
    (classifier : exn → Failure) (msg : Dispatch) (w w' : world) : Prop :=
  ∃ rest q lease w1, messages w = msg :: rest ∧ messages w' = rest ++ q ∧
    ledger_call cfg environment (claim cfg (d_scope msg) (d_job_id msg) (d_step_id msg) owner) w = (Ok lease, w1) ∧
    match lease with
    | None => ledger w' = ledger w1 ∧ objects w' = objects w1
    | Some l => concluded classifier l w'
    end.

(** A turn that raises leaves its message at the head of the queue, so that it is received
    again; a turn on an empty queue does nothing; a turn that returns true takes its message. *)
Lemma once_delivers handler owner classifier w :
  let '(r, w') := once cfg environment handler owner classifier w in
  match r with
  | Ok true => ∃ msg, taken_by handler owner classifier msg w w'
  | Ok false => messages w = [] ∧ w' = w
  | Err _ => messages w ≠ [] ∧ ∃ q, messages w' = messages w ++ q
  end.
Proof.
  unfold once, mbind, io_bind, receive. destruct (messages w) as [|msg rest] eqn:Em; [done|]. simpl.
  pose proof (call_kept no_commit (claim cfg (d_scope msg) (d_job_id msg) (d_step_id msg) owner)
                ltac:(eauto with polymind) w) as Hc.
  destruct (ledger_call _ _ _ w) as [[lease|e] w1] eqn:E1; simpl in Hc;
    [|destruct Hc as [_ (q & Hq)]; split; [done|]; exists q; by rewrite Hq, Em].
  set (body := (match lease with None => mret tt
                | Some l => execute_step cfg environment handler classifier msg l end : io unit)).
  assert (kept w1 (body w1).2) as Hx by (destruct lease; [apply execute_step_kept|reflexivity]).
  assert (∀ w2, body w1 = (Ok tt, w2) →
    match lease with
    | None => ledger w2 = ledger w1 ∧ objects w2 = objects w1
    | Some l => concluded classifier l w2
    end) as Hend.
  { intros w2. unfold body. destruct lease; [apply execute_step_Ok|by intros [= <-]]. }
  destruct (body w1) as [[[]|e] w2]; simpl in Hx; pose proof (transitivity (R := kept) Hc Hx) as [_ (q & Hq)];
    rewrite Em in Hq.
  - specialize (Hend w2 eq_refl). unfold acknowledge. simpl. rewrite Hq. simpl. rewrite bool_decide_eq_true_2 by done.
    exists msg, rest, q, lease, w1. split_and!; [done..|]. destruct lease as [l|]; [|done].
    destruct Hend; [eapply concluded_commit|eapply concluded_failure|eapply concluded_cancel|eapply lost_commit
      |eapply lost_failure|eapply lost_cancel]; eassumption.
  - split; [done|]. by exists q.
Qed.

Lemma relay_kept limit : keeps kept (relay cfg environment limit).
Proof.
  unfold relay. apply keeps_bind; [typeclasses eauto| |intros ms].
  { apply (call_kept no_commit). eauto with polymind. }
  generalize 0 as n. induction ms as [|m ms IH]; intros n; cbn [relay_messages]; [apply keeps_ret; typeclasses eauto|].
  apply keeps_bind; [typeclasses eauto| |intros []].
  { intros w. split; [apply refines_queue|]. by eexists. }
  apply keeps_bind; [typeclasses eauto| |intros []; apply IH].
  apply (call_kept no_commit). eauto with polymind.
Qed.

Lemma service_kept ids rq : keeps kept (service_admit cfg environment ids rq).
Proof.
  apply service_admit_keeps; try typeclasses eauto.
  - intros A m Hm. by apply (call_kept no_commit).
  - intros sc r m. by apply (store_kept _ (CallInspect sc r m)).
Qed.

(** What an activity does to a message in the queue. *)
Lemma perform_message a w msg :
  msg ∈ messages w →
  msg ∈ messages (perform cfg environment w a) ∨
  ∃ handler owner classifier, a = Work handler owner classifier ∧
    taken_by handler owner classifier msg w (perform cfg environment w a).
Proof.
  intros Hm. assert (∀ w', kept w w' → msg ∈ messages w') as Hkept.
  { intros w' [_ (q & ->)]. set_solver. }
  destruct a as [handler owner classifier|limit|ids rq|sc id]; cbn [perform].
  - pose proof (once_delivers handler owner classifier w) as Ho.
    destruct (once cfg environment handler owner classifier w) as [[[]|e] w'].
    + destruct Ho as [msg' Ht]. destruct (decide (msg = msg')) as [->|Hne].
      { right. by exists handler, owner, classifier. }
      left. destruct Ht as (rest & q & lease & w1 & E & E' & _). simpl. rewrite E' . rewrite E in Hm.
      apply elem_of_cons in Hm as [?|?]; [done|set_solver].
    + left. by destruct Ho as [_ ->].
    + left. destruct Ho as [_ (q & Hq)]. simpl. rewrite Hq. set_solver.
  - left. apply Hkept, relay_kept.
  - left. apply Hkept, service_kept.
  - left. apply Hkept. unfold service_cancel. apply (call_kept no_commit). eauto with polymind.
Qed.

(** C14: Delivery is at least once.  Over any sequence of worker turns, relays, admissions and
    cancellations, with any handlers, failures and calls of other processes in between, a message
    in the queue stays in the queue until a worker's turn receives it at the head, the ledger
    answers the claim of its step, and, when the answer is a lease, the ledger then accepted a
    commit of stored references, the handler's failure or the settlement of a cancellation, or
    refused one of them because the lease was lost.  In particular a turn that raises, at whatever
    point, keeps the message, and a refused manifest or an unavailable ledger never loses it. *)
Theorem delivery_at_least_once acts w msg :
  msg ∈ messages w →
  msg ∈ messages (system cfg environment acts w) ∨
  ∃ acts1 handler owner classifier acts2,
    acts = acts1 ++ Work handler owner classifier :: acts2 ∧
    let w1 := system cfg environment acts1 w in
    taken_by handler owner classifier msg w1 (perform cfg environment w1 (Work handler owner classifier)).
Proof.
  revert w. induction acts as [|a acts IH]; intros w Hm; [by left|].
  destruct (perform_message a w msg Hm) as [Hm'|(h & o & c & -> & Ht)].
  - destruct (IH _ Hm') as [?|(acts1 & h & o & c & acts2 & -> & Ht)]; [by left|]. right.
    exists (a :: acts1), h, o, c, acts2. by split.
  - right. exists [], h, o, c, acts. by split.
Qed.

End Effects.

(** ** A worker on a concrete job *)

#[local] Existing Instance sample_runtime.

(** The ledger answers every millisecond; nobody else acts. *)
Definition quiet_environment (n : nat) : moment := {|
  elsewhere := []; writes := []; sends := []; instant := Some (2000 + Z.of_nat n) |}.

Definition sample_message : Dispatch := {|
  dispatch_id := 1; d_scope := sample_scope; d_job_id := "job-1"; d_step_id := "step-a" |}.

Definition sample_world : world (T := local_store) := {|
  ledger := admitted_db; objects := sample_store; messages := [sample_message]; ticks := 0%nat |}.

(** Writes one artifact and returns its reference. *)
Definition sample_handler (job : job_row) (step : step_row * list ObjectRef) : handling (list ObjectRef) :=
  Put sample_scope artifact_kind "art-1" (cps "abc") 10 None
    (λ r, match r with Ok ref => Return [ref] | Err e => Raise e end).

Definition sample_work : activity := Work sample_handler "worker-1" (λ e, classify e false).

Notation worked := (system sample_settings quiet_environment [sample_work] sample_world).

Example work_commits :
  (manifest <$> artifact_manifests (ledger worked), messages worked)
  = ([[make_ref sample_scope artifact_kind "art-1" (cps "abc")]], []).
Proof. vm_compute. reflexivity. Qed.

Definition worked_key : uuid := object_key sample_scope artifact_kind "art-1".

Lemma no_untracked_objects_witness :
  published (objects worked) worked_key = Some (cps "abc") ∧
  (published (objects sample_world) worked_key = Some (cps "abc") ∨
   foreign quiet_environment worked_key (cps "abc") ∨
   registered (ledger worked) worked_key (cps "abc")).
Proof.
  split; [vm_compute; reflexivity|].
  apply (no_untracked_objects sample_settings quiet_environment [sample_work] sample_world worked_key (cps "abc")).
  vm_compute. reflexivity.
Defined.

(** The message is taken by the turn that commits. *)
Lemma delivery_at_least_once_witness :
  sample_message ∈ messages sample_world ∧ sample_message ∉ messages worked ∧
  (sample_message ∈ messages worked ∨
   ∃ acts1 handler owner classifier acts2,
     [sample_work] = acts1 ++ Work handler owner classifier :: acts2 ∧
     let w1 := system sample_settings quiet_environment acts1 sample_world in
     taken_by sample_settings quiet_environment handler owner classifier sample_message w1
       (perform sample_settings quiet_environment w1 (Work handler owner classifier))).
Proof.
  split; [by left|]. split; [vm_compute; by intros ?%not_elem_of_nil|].
  apply (delivery_at_least_once sample_settings quiet_environment [sample_work] sample_world sample_message).
  by left.
Defined.

(** Another worker stores and commits the second step while the relay runs. *)
Definition peer_ref : ObjectRef := make_ref sample_scope artifact_kind "art-2" (cps "xyz").
Definition peer_lease : Lease := {|
  l_scope := sample_scope; l_job_id := "job-1"; l_step_id := "step-b"; l_owner := "worker-2"; l_fence := 1 |}.

Definition peer_environment (n : nat) : moment := {|
  elsewhere := if (n =? 8)%nat
               then [Claim sample_scope "job-1" "step-b" "worker-2" 2100; Register peer_lease peer_ref 2200;
                     Commit peer_lease [peer_ref] 2300]
               else [];
  writes := if (n =? 8)%nat then [CallPut sample_scope artifact_kind "art-2" (cps "xyz") 10 None] else [];
  sends := []; instant := Some (2000 + Z.of_nat n) |}.

Notation peered := (system sample_settings peer_environment [sample_work; Relay 10] sample_world).

Definition worked_ref : ObjectRef := make_ref sample_scope artifact_kind "art-1" (cps "abc").

Lemma peer_commits : manifest <$> artifact_manifests (ledger peered) = [[worked_ref]; [peer_ref]].
Proof. vm_compute. reflexivity. Qed.

Lemma two_in_manifest d r1 r2 :
  manifest <$> artifact_manifests d = [[r1]; [r2]] → in_manifest d r1 ∧ in_manifest d r2.
Proof.
  intros Hm. split; [apply (in_manifest_elem _ [r1])|apply (in_manifest_elem _ [r2])]; rewrite ?Hm; try by left.
  right. by left.
Qed.

(** Both manifests are in the ledger; the first is the worker's own. *)
Lemma manifests_resolve_witness :
  in_manifest (ledger peered) worked_ref ∧ in_manifest (ledger peered) peer_ref ∧
  (in_manifest (ledger sample_world) worked_ref ∨ foreign_commit peer_environment worked_ref ∨
   stored (objects peered) worked_ref).
Proof.
  destruct (two_in_manifest (ledger peered) worked_ref peer_ref peer_commits) as [Hw Hp].
  split; [exact Hw|]. split; [exact Hp|].
  exact (manifests_resolve sample_settings peer_environment [sample_work; Relay 10] sample_world worked_ref Hw).
Defined.
