(* ===== verification/JobWitnesses.v ===== *)
(** * The ledger's theorems at concrete histories

    The two-step job of [Sample]: admitted, claimed, its first artifact registered
    and committed; also a lost worker, a cancelled job and an abandoned object. *)

From stdpp Require Import base tactics list strings option sets.
From Stdlib Require Import ZArith NArith QArith Qminmax Lia.
From S2P Require Import Prelude Json Contracts JobModels JobLedger Sample JobFacts JobInvariant.
From S2P Require Import JobCoherence JobEvolution JobOps JobHistory JobTheorems JobProgress.
From S2P Require Import JobPolicies.

Local Open Scope Z_scope.

#[local] Existing Instance sample_runtime.

Definition blank_row : step_row := {|
  step_id := EmptyString; s_job_id := EmptyString; s_unit_id := EmptyString;
  spec := sample_spec "a" Stage.EXTRACTING []; step_key := EmptyString;
  input_fingerprint := EmptyString; execution_at := 0; s_state := StepState.PENDING;
  attempt_count := 0; fence := 0; lease_owner := None; lease_expires_at := None;
  not_before := 0; started_at := None; finished_at := None; failure_category := None;
  reused_from := None |}.

Definition blank_job : job_row := {|
  job_id := EmptyString; run_id := EmptyString; j_scope := EmptyString;
  request_key := EmptyString; j_fingerprint := EmptyString; version_id := EmptyString;
  source_key := EmptyString; generation := 0; request := sample_request; j_created_at := 0;
  updated_at := 0; document_created_at := 0; j_state := JobState.QUEUED;
  cancel_requested := false; progress := empty_progress; terminal_category := None |}.

Definition row_at (d : db) (i : nat) : step_row := nth i (job_steps d) blank_row.
Definition job_at (d : db) (i : nat) : job_row := nth i (jobs d) blank_job.

Ltac by_evaluation := vm_compute; reflexivity.
Ltac in_list := vm_compute; repeat first [apply list_elem_of_here | apply list_elem_of_further].

(** Worker 1 disappears; its lease expires and the step is retried by worker 2. *)
Definition lost_claims : list call :=
  [Claim sample_scope "job-1" "step-a" "worker-2" 40000000].

Definition retaken_db : db :=
  (transaction (@claim _ sample_settings sample_scope "job-1" "step-a" "worker-2" 50000000)
     (run sample_settings lost_claims (sample_run 2))).2.

Lemma stale_lease_rejected_witness :
  _check_lease sample_lease 51000000 false (run sample_settings [] retaken_db)
  = Err (JobError "stale_fence").
Proof.
  eapply (stale_lease_rejected sample_settings (take 2 sample_history) lost_claims []
            sample_lease _ 3000 false _ sample_scope "worker-2" 50000000 (sample_run 2) retaken_db).
  - by_evaluation.
  - by_evaluation.
Defined.

Lemma commit_exactly_once_witness :
  let d2 := run sample_settings [] (sample_run 4) in
  ∃ row, row ∈ job_steps d2 ∧ step_id row = l_step_id sample_lease ∧
    s_state row = StepState.SUCCEEDED ∧
    commit sample_lease [sample_artifact "art-1"] 9000 d2 =
      if (l_fence sample_lease =? l_fence sample_lease)
         && bool_decide (l_owner sample_lease = l_owner sample_lease) then
        if bool_decide ([sample_artifact "art-1"] = [sample_artifact "art-1"])
        then Ok ((row, [sample_artifact "art-1"]), d2) else Err (JobError "manifest_conflict")
      else Err (JobError "stale_fence").
Proof.
  eapply (commit_exactly_once sample_settings (take 3 sample_history) sample_lease
            [sample_artifact "art-1"] 4000 _ (sample_run 4) [] sample_lease
            [sample_artifact "art-1"] 9000); [by_evaluation|reflexivity..|by_evaluation].
Defined.

Lemma attempts_bounded_witness :
  let d := sample_run 2 in
  attempt_count (row_at d 0) = fence (row_at d 0) ∧
  len (select (λ a, bool_decide (at_step_id a = step_id (row_at d 0))) (step_attempts d))
    ≤ attempt_count (row_at d 0) ∧
  attempt_count (row_at d 0) ≤ max_attempts (policy_of (job_at d 0)) ≤ 100.
Proof.
  apply (attempts_bounded sample_settings (take 2 sample_history)
           (row_at (sample_run 2) 0) (job_at (sample_run 2) 0));
    [in_list|in_list|by_evaluation].
Defined.

Lemma dependencies_first_witness :
  let d := run sample_settings sample_history empty_db in
  ∃ r' m, r' ∈ job_steps d ∧ s_job_id r' = s_job_id (row_at (sample_run 4) 1) ∧ s_unit_id r' = "a" ∧
    s_state r' = StepState.SUCCEEDED ∧ m ∈ artifact_manifests d ∧ m_step_id m = step_id r'.
Proof.
  apply (dependencies_first sample_settings sample_history (row_at (sample_run 4) 1) "a");
    [in_list|vm_compute; discriminate|vm_compute; discriminate|in_list].
Defined.

Lemma live_job_has_work_witness :
  let d := run sample_settings sample_history empty_db in
  ∃ r, r ∈ job_steps d ∧ s_job_id r = job_id (job_at (sample_run 4) 0) ∧
    if cancel_requested (job_at (sample_run 4) 0) then s_state r = StepState.RUNNING
    else in_flight (s_state r) = true.
Proof.
  apply (live_job_has_work sample_settings sample_history (job_at (sample_run 4) 0));
    [in_list|by_evaluation].
Defined.

Lemma progress_accounts_witness :
  let p := progress (job_at (sample_run 4) 0) in
  total p = len (steps (request (job_at (sample_run 4) 0))) ∧
  total p = completed p + running p + retrying p + failed_count p + cancelled p + pending p ∧
  (j_state (job_at (sample_run 4) 0) = JobState.COMPLETED → completed p = total p).
Proof.
  apply (progress_accounts sample_settings sample_history (job_at (sample_run 4) 0)). in_list.
Defined.

Definition sample_dispatch : Dispatch := {|
  dispatch_id := 1; d_scope := sample_scope; d_job_id := "job-1"; d_step_id := "step-a" |}.

Lemma dispatch_claimable_witness :
  let m := sample_dispatch in
  ∃ o d2, claim sample_settings (d_scope m) (d_job_id m) (d_step_id m) "worker-1" 1500 (sample_run 1)
          = Ok (o, d2) ∧
    match o with
    | Some l => l_step_id l = d_step_id m ∧ l_owner l = "worker-1"
    | None => ∃ j, j ∈ jobs d2 ∧ job_id j = d_job_id m ∧ j_state j = JobState.FAILED ∧
                   terminal_category j = Some "retry_exhausted"
    end.
Proof.
  apply (dispatch_claimable sample_settings (take 1 sample_history) 10 1500 [sample_dispatch]
           (sample_run 1) sample_dispatch "worker-1"); [by_evaluation|in_list|by_evaluation].
Defined.

Definition reconciled_db : db :=
  (transaction (@reconcile _ sample_settings 10 40000000) (sample_run 2)).2.

Lemma reconcile_settles_witness : expired_lease 40000000 (row_at reconciled_db 0) = false.
Proof.
  eapply (reconcile_settles sample_settings (take 2 sample_history) 10 40000000 _ reconciled_db);
    [by_evaluation|vm_compute; discriminate|in_list].
Defined.

Lemma admission_idempotent_witness :
  let d2 := run sample_settings (drop 1 sample_history) (sample_run 1) in
  ∃ j2, j2 ∈ jobs d2 ∧ job_id j2 = job_id (job_at (sample_run 1) 0) ∧
    admit_job 9000 sample_ids sample_request d2 =
      if bool_decide (request_digest sample_request = request_digest sample_request)
      then Ok (j2, d2) else Err (JobError "idempotency_conflict").
Proof.
  eapply (admission_idempotent sample_settings [] (drop 1 sample_history) 1000 sample_ids
            sample_request (job_at (sample_run 1) 0) (sample_run 1) 9000 sample_ids sample_request);
    [by_evaluation|by_evaluation|reflexivity|reflexivity].
Defined.

Definition cancelled_db : db :=
  (transaction (@cancel sample_scope "job-1" 1500) (sample_run 1)).2.

Lemma cancelled_job_never_restarts_witness :
  let d2 := run sample_settings [] cancelled_db in
  claim sample_settings sample_scope "job-1" (step_id (row_at cancelled_db 0)) "worker-1" 2000 d2
  = Ok (None, d2).
Proof.
  eapply (cancelled_job_never_restarts sample_settings (take 1 sample_history) sample_scope "job-1" 1500
            (job_at cancelled_db 0) cancelled_db [] (row_at cancelled_db 0) "worker-1" 2000);
    [by_evaluation|in_list|by_evaluation|by_evaluation].
Defined.

(** A second object is registered and never committed. *)
Definition orphan_history : list call :=
  take 3 sample_history ++
  [Register sample_lease (sample_artifact "art-2") 3500;
   Commit sample_lease [sample_artifact "art-1"] 4000].

Lemma orphans_unreferenced_witness :
  let d := run sample_settings orphan_history empty_db in
  ∃ i, i ∈ object_intents d ∧ i_ref i = sample_artifact "art-2" ∧
    (∀ j, j ∈ jobs d → source_key j ≠ i_object_key i) ∧
    (∀ m r, m ∈ artifact_manifests d → r ∈ manifest m → ref_key r ≠ i_object_key i) ∧
    (∀ i' s, i' ∈ object_intents d → i_object_key i' = i_object_key i → s ∈ job_steps d →
             step_id s = i_step_id i' → step_active (s_state s) = false).
Proof.
  eapply (orphans_unreferenced sample_settings orphan_history 10 90000000000 [sample_artifact "art-2"] _
            (sample_artifact "art-2")); [by_evaluation|in_list].
Defined.

Lemma retry_delay_bounds_witness :
  let cap := Qmin (max_seconds sample_retry) (base_seconds sample_retry * inject_Z (2 ^ (3 - 1))) in
  ((1 - jitter_fraction sample_retry) * cap <= delay sample_retry "key" 3 <= cap /\
   0 <= delay sample_retry "key" 3 <= max_seconds sample_retry)%Q.
Proof.
  apply (retry_delay_bounds sample_retry "key" 3); [apply sample_sha_digest|reflexivity|lia].
Defined.
