(* ===== verification/Memory.v ===== *)
(** * Conversation memory

    [memory/memory_store.py] (the file store, the Redis store, their errors and readiness) and
    the facade of [security/memory.py] that binds a store to a verified principal.  A message
    is the JSON object [_message] builds.  The file is what its text denotes; the temporary
    file is renamed over it, so a failed write leaves it as it was.  The Redis client is a
    parameter: the class [RedisClient] has the four requests the store makes. *)

From stdpp Require Import base tactics list strings option sets.
From Stdlib Require Import ZArith NArith QArith Lia.
From S2P Require Import Prelude Json Contracts JobModels Utf8 Extraction Authority.

Local Open Scope Z_scope.

(** ** Errors *)

(** [MemoryRaw]: an exception that is not a [MemoryError], with its type. *)
Inductive mem_exn := MemoryErr (category : string) | MemoryRaw (type : string).
#[export] Instance mem_exn_eq_dec : EqDecision mem_exn.
Proof. solve_decision. Defined.

Definition MemoryUnavailableError : mem_exn := MemoryErr "memory_unreachable".
Definition MemoryTimeoutError : mem_exn := MemoryErr "memory_timeout".
Definition MemoryProtocolError : mem_exn := MemoryErr "memory_protocol".
Definition MemoryReadError : mem_exn := MemoryErr "memory_read_failure".
Definition MemoryWriteError : mem_exn := MemoryErr "memory_write_failure".

(** ** Python slices *)

(** [l[start:]]. *)
Definition slice_from {A} (start : Z) (l : list A) : list A :=
  drop (Z.to_nat (if start <? 0 then Z.max 0 (len l + start) else start)) l.

(** [l[:stop]]. *)
Definition slice_to {A} (stop : Z) (l : list A) : list A :=
  take (Z.to_nat (if stop <? 0 then Z.max 0 (len l + stop) else stop)) l.

(** ** Messages *)

Definition _message (role content timestamp : text) : json :=
  JObj [("role", JStr role); ("content", JStr content); ("timestamp", JStr timestamp)].

(** [{"session_id": session_id, **item}]. *)
Definition with_session (session_id : text) (item : json) : json :=
  match item with
  | JObj kvs => JObj (("session_id", JStr session_id) :: kvs)
  | _ => item
  end.

(** [effective_limit = self.history_limit if limit is None else limit], and the last messages. *)
Definition limited {A} (history_limit : Z) (limit : option Z) (history : list A) : list A :=
  let effective := default history_limit limit in
  if effective =? 0 then [] else slice_from (- effective) history.

(** ** The file store *)

Inductive memory_file := NoFile | NotUtf8 | NotJson | Holds (v : json).

(** What the operating system refuses: reading; making the temporary file; writing, syncing
    or renaming it. *)
Record file_env := { read_fails : bool; write_fails : bool; replace_fails : bool }.

Fixpoint encodable (v : json) : bool :=
  match v with
  | JStr t => forallb is_scalar t
  | JArr l => forallb encodable l
  | JObj l => forallb (λ kv, encodable kv.2) l
  | _ => true
  end.

Section FileMemoryStore.
Variable history_limit : Z.
Implicit Types e : file_env.

Abbreviation ftx := (tx memory_file mem_exn).

Definition _read_unlocked e : ftx (list json) := λ f,
  match f with
  | NoFile => Ok ([], f)
  | _ =>
      if read_fails e then Err MemoryReadError
      else match f with
           | NotUtf8 => Err (MemoryRaw "UnicodeDecodeError")
           | Holds (JArr value) => Ok (value, f)
           | _ => Err MemoryProtocolError
           end
  end.

Definition _write_unlocked e (value : list json) : ftx unit :=
  _ ← guard (negb (write_fails e)) MemoryWriteError;
  _ ← guard (forallb encodable value) (MemoryRaw "UnicodeEncodeError");
  _ ← guard (negb (replace_fails e)) MemoryWriteError;
  modify (λ _, Holds (JArr value)).

(** [item.get("session_id") == session_id]; only a dict has [get]. *)
Definition in_session (session_id : text) (item : json) : result mem_exn bool :=
  match item with
  | JObj kvs => Ok (bool_decide (field "session_id" kvs = Some (JStr session_id)))
  | _ => Err (MemoryRaw "AttributeError")
  end.

(** [[item for item in l if p item]]. *)
Fixpoint keep (p : json → result mem_exn bool) (l : list json) : result mem_exn (list json) :=
  match l with
  | [] => Ok []
  | item :: l' => b ← p item; rest ← keep p l'; Ok (if b : bool then item :: rest else rest)
  end.

(** [[index for index, item in enumerate(l) if p item]], counting from [i]. *)
Fixpoint indexes (p : json → result mem_exn bool) (i : nat) (l : list json)
    : result mem_exn (list nat) :=
  match l with
  | [] => Ok []
  | item :: l' => b ← p item; rest ← indexes p (S i) l'; Ok (if b : bool then i :: rest else rest)
  end.

(** [[item for index, item in enumerate(data) if index not in remove]]. *)
Definition without (remove : list nat) (data : list json) : list json :=
  (imap pair data) ≫= λ '(i, item), if bool_decide (i ∈ remove) then [] else [item].

Definition file_get_history e (session_id : text) (limit : option Z) : ftx (list json) :=
  value ← _read_unlocked e;
  history ← lift (keep (in_session session_id) value);
  mret (limited history_limit limit history).

(** [t1], [t2]: the two readings of [datetime.now(timezone.utc).isoformat()]. *)
Definition file_append_exchange e (session_id query answer t1 t2 : text) : ftx unit :=
  value ← _read_unlocked e;
  let data := value ++ [with_session session_id (_message (cps "user") query t1);
                        with_session session_id (_message (cps "assistant") answer t2)] in
  found ← lift (indexes (in_session session_id) 0 data);
  let remove := slice_to (- history_limit) found in
  _write_unlocked e (if remove is [] then data else without remove data).

Definition file_clear_session e (session_id : text) : ftx unit :=
  value ← _read_unlocked e;
  kept ← lift (keep (λ item, b ← in_session session_id item; Ok (negb b)) value);
  _write_unlocked e kept.

Definition file_clear_all e : ftx unit := _write_unlocked e [].

End FileMemoryStore.

Record MemoryReadiness := { mr_provider : string; mr_ready : bool; mr_status : string }.

Definition readiness (provider : string) (ready : bool) : MemoryReadiness :=
  {| mr_provider := provider; mr_ready := ready;
     mr_status := if ready then "ready" else "memory_unavailable" |}.

(** [mkdir_fails]: the [OSError] of [mkdir]; [writable], [accessible]: [os.access] of the
    directory and of the file. *)
Definition file_check_readiness (mkdir_fails writable accessible : bool) (f : memory_file)
    : MemoryReadiness :=
  readiness "file" (negb mkdir_fails && writable
                    && match f with NoFile => true | _ => accessible end).

(** ** The Redis store *)

(** A stored value: not UTF-8 or not JSON, or the JSON value it denotes. *)
Inductive redis_value := Undecodable | Encoded (v : json).

(** The commands queued on [pipeline(transaction=True)]. *)
Inductive command :=
| RPush (key : text) (values : list redis_value)
| LTrim (key : text) (start stop : Z)
| Expire (key : text) (seconds : Z).

(** The requests of the client; an error is the name of the exception's type. *)
Class RedisClient (W : Type) : Type := {
  lrange : text → Z → Z → W → result string (list redis_value) * W;
  execute : list command → W → result string unit * W;
  delete_key : text → W → result string unit * W;
  ping : W → result string bool * W }.

Fixpoint starts_with (p t : text) : bool :=
  match p, t with
  | [], _ => true
  | a :: p', b :: t' => (a =? b)%N && starts_with p' t'
  | _, _ => false
  end.

(** [p in t]. *)
Fixpoint contains (p t : text) : bool :=
  starts_with p t || match t with [] => false | _ :: t' => contains p t' end.

Definition _normalize_error (type : string) (read : bool) : mem_exn :=
  let name := lower (cps type) in
  if contains (cps "timeout") name then MemoryTimeoutError
  else if contains (cps "connection") name then MemoryUnavailableError
  else if read then MemoryReadError else MemoryWriteError.

Definition normalized_reply {A} (read : bool) (r : result string A) : result mem_exn A :=
  match r with Ok a => Ok a | Err name => Err (_normalize_error name read) end.

Definition is_string (o : option json) : bool := match o with Some (JStr _) => true | _ => false end.

Definition known_role (o : option json) : bool :=
  match o with
  | Some (JStr r) => bool_decide (r ∈ [cps "user"; cps "assistant"])
  | _ => false
  end.

Definition decode_message (value : redis_value) : result mem_exn json :=
  match value with
  | Encoded (JObj kvs) =>
      if known_role (field "role" kvs) && is_string (field "content" kvs)
         && is_string (field "timestamp" kvs)
      then Ok (JObj kvs) else Err MemoryProtocolError
  | _ => Err MemoryProtocolError
  end.

Fixpoint decode_messages (values : list redis_value) : result mem_exn (list json) :=
  match values with
  | [] => Ok []
  | v :: vs => m ← decode_message v; ms ← decode_messages vs; Ok (m :: ms)
  end.

Section RedisMemoryStore.
Context `{Runtime} `{RedisClient W}.
Variables (history_limit ttl_seconds : Z) (key_prefix : text).

(** [session_id.encode('utf-8')] may raise. *)
Definition _key (session_id : text) : result mem_exn text :=
  match utf8_encode session_id with
  | Some data => Ok (key_prefix ++ cps ":" ++ cps (sha256_hex data))
  | None => Err (MemoryRaw "UnicodeEncodeError")
  end.

Definition redis_get_history (session_id : text) (limit : option Z) (w : W)
    : result mem_exn (list json) * W :=
  let effective := default history_limit limit in
  if effective =? 0 then (Ok [], w)
  else match _key session_id with
       | Err _ => (Err (_normalize_error "UnicodeEncodeError" true), w)
       | Ok key =>
           let '(r, w') := lrange key (- effective) (-1) w in
           (normalized_reply true r ≫= decode_messages, w')
       end.

Definition redis_append_exchange (session_id query answer t1 t2 : text) (w : W)
    : result mem_exn unit * W :=
  match _key session_id with
  | Err x => (Err x, w)
  | Ok key =>
      let '(r, w') := execute
        ([RPush key [Encoded (_message (cps "user") query t1);
                     Encoded (_message (cps "assistant") answer t2)];
          LTrim key (- history_limit) (-1)]
         ++ (if ttl_seconds =? 0 then [] else [Expire key ttl_seconds])) w in
      (normalized_reply false r, w')
  end.

Definition redis_clear_session (session_id : text) (w : W) : result mem_exn unit * W :=
  match _key session_id with
  | Err _ => (Err (_normalize_error "UnicodeEncodeError" false), w)
  | Ok key => let '(r, w') := delete_key key w in (normalized_reply false r, w')
  end.

Definition redis_check_readiness (w : W) : MemoryReadiness * W :=
  let '(r, w') := ping w in
  (match r with
   | Ok ready => readiness "redis" ready
   | Err name =>
       {| mr_provider := "redis"; mr_ready := false;
          mr_status := match _normalize_error name true with MemoryErr c => c | MemoryRaw t => t end |}
   end, w').

End RedisMemoryStore.

(** ** [ConversationMemoryStore], the interface both stores implement

    [E] is what the environment chooses for one call. *)
Class ConversationMemoryStore (W E : Type) : Type := {
  get_history : E → text → option Z → W → result mem_exn (list json) * W;
  append_exchange : E → text → text → text → text → text → W → result mem_exn unit * W;
  clear_session : E → text → W → result mem_exn unit * W }.

Definition file_store (history_limit : Z) : ConversationMemoryStore memory_file file_env := {|
  get_history e s limit := transaction (file_get_history history_limit e s limit);
  append_exchange e s q a t1 t2 := transaction (file_append_exchange history_limit e s q a t1 t2);
  clear_session e s := transaction (file_clear_session e s) |}.

Definition redis_store `{Runtime} `{RedisClient W} (history_limit ttl_seconds : Z) (key_prefix : text)
    : ConversationMemoryStore W unit := {|
  get_history _ := redis_get_history history_limit key_prefix;
  append_exchange _ := redis_append_exchange history_limit ttl_seconds key_prefix;
  clear_session _ := redis_clear_session key_prefix |}.

(** ** [ScopedMemory]: one request of one principal *)

Inductive scoped_exn := SecurityFailure (e : security_exn) | MemoryFailure (e : mem_exn).

(** [{k: v for k, v in m.items() if k != 'session_id'}]. *)
Definition without_session (m : json) : json :=
  match m with
  | JObj kvs => JObj (List.filter (λ kv, negb (bool_decide (kv.1 = "session_id"))) kvs)
  | _ => m
  end.

Section ScopedMemory.
Context `{Runtime} `{ConversationMemoryStore W E}.

(** [session_key(self.snapshot.principal, session_id)], then the store, inside [release]. *)
Definition scoped {A} (s : AuthorizationSnapshot) (clk : nat → Q) (d : sdb) (session_id : text)
    (call : text → W → result mem_exn A * W) : W → result scoped_exn A * W :=
  release s clk SecurityFailure (λ w,
    match session_key (sn_principal s) session_id with
    | Err e => (Err (SecurityFailure e), w)
    | Ok key =>
        let '(r, w') := call (cps key) w in
        (match r with Ok a => Ok a | Err e => Err (MemoryFailure e) end, w')
    end) d.

Definition scoped_get_history (s : AuthorizationSnapshot) clk (d : sdb) (e : E) (session_id : text)
    (limit : option Z) : W → result scoped_exn (list json) * W :=
  scoped s clk d session_id (λ key w,
    let '(r, w') := get_history e key limit w in
    (match r with Ok ms => Ok (without_session <$> ms) | Err x => Err x end, w')).

Definition scoped_append_exchange (s : AuthorizationSnapshot) clk (d : sdb) (e : E)
    (session_id query answer t1 t2 : text) : W → result scoped_exn unit * W :=
  scoped s clk d session_id (λ key, append_exchange e key query answer t1 t2).

Definition scoped_clear_session (s : AuthorizationSnapshot) clk (d : sdb) (e : E) (session_id : text)
    : W → result scoped_exn unit * W :=
  scoped s clk d session_id (clear_session e).

End ScopedMemory.
