(* ===== verification/MemoryTheorems.v ===== *)
(** * Conversations through the facade

    Requests of any principals, each under its own authorization snapshot and against the
    authority as it is at that moment, run through [ScopedMemory] on any store that keeps
    [MemoryLaws].  Every history that is returned is the history of that principal's own
    session, and both stores return the same. *)

From stdpp Require Import base tactics list strings option sets.
From Stdlib Require Import ZArith NArith QArith Lia.
From S2P Require Import Prelude Json Contracts JobModels Utf8 Extraction Authority Memory.
From S2P Require Import Sample AuthorityTheorems.

Local Open Scope Z_scope.

(** ** Calls *)

Inductive memory_call := CRead (limit : option Z) | CAppend (query answer t1 t2 : text) | CClear.

Definition nothing {X W} (r : result X unit * W) : result X (list json) * W :=
  match r with (Ok _, w) => (Ok [], w) | (Err e, w) => (Err e, w) end.

Definition store_call `{ConversationMemoryStore W E} (e : E) (s : text) (c : memory_call) (w : W)
    : result mem_exn (list json) * W :=
  match c with
  | CRead limit =>
      let '(r, w') := get_history e s limit w in
      (match r with Ok ms => Ok (without_session <$> ms) | Err x => Err x end, w')
  | CAppend q a t1 t2 => nothing (append_exchange e s q a t1 t2 w)
  | CClear => nothing (clear_session e s w)
  end.

(** ** The abstract history *)

Definition exchange (q a t1 t2 : text) : list json :=
  [_message (cps "user") q t1; _message (cps "assistant") a t2].

Definition effect (history_limit : Z) (c : memory_call) (h : list json) : list json :=
  match c with
  | CRead _ => h
  | CAppend q a t1 t2 => slice_from (- history_limit) (h ++ exchange q a t1 t2)
  | CClear => []
  end.

Definition answer_of (history_limit : Z) (c : memory_call) (h : list json) : list json :=
  match c with CRead limit => limited history_limit limit h | _ => [] end.

(** [inv]: the states of the store; [view]: the history of a session; [named]: the session
    keys in use. *)
Class MemoryLaws (W E : Type) `{ConversationMemoryStore W E} (history_limit : Z)
    (inv : W → Prop) (view : W → text → list json) (named : text → Prop) : Prop := {
  call_law e s c w r w' : named s → inv w → store_call e s c w = (r, w') →
    inv w' ∧ ∃ applied : bool,
      (∀ ms, r = Ok ms → applied = true ∧ ms = answer_of history_limit c (view w s)) ∧
      ∀ s', named s' → view w' s' =
        if applied && bool_decide (s' = s) then effect history_limit c (view w s') else view w s' }.

(** ** Slices *)

Lemma slice_from_fmap {A B} (f : A → B) a l : f <$> slice_from a l = slice_from a (f <$> l).
Proof. unfold slice_from, len. by rewrite length_fmap, fmap_drop. Qed.

Lemma limited_fmap {A B} (f : A → B) n lim l : f <$> limited n lim l = limited n lim (f <$> l).
Proof. unfold limited. destruct (_ =? 0); [done|]. apply slice_from_fmap. Qed.


Lemma slice_from_length {A} a (l : list A) : len (slice_from a l) ≤ len l.
Proof. unfold slice_from, len. rewrite length_drop. lia. Qed.

Lemma slice_from_last {A} n (l : list A) : 0 < n → len (slice_from (- n) l) ≤ n.
Proof. intros Hn. unfold slice_from, len. rewrite length_drop. destruct (Z.ltb_spec (- n) 0); lia. Qed.

Lemma limited_length {A} n lim (l : list A) : len (limited n lim l) ≤ len l.
Proof. unfold limited. destruct (_ =? 0); [unfold len; simpl; lia|]. apply slice_from_length. Qed.

(** ** The file store *)

Definition is_dict (item : json) : Prop := ∃ kvs, item = JObj kvs.

Definition mine (s : text) (item : json) : bool :=
  match item with
  | JObj kvs => bool_decide (field "session_id" kvs = Some (JStr s))
  | _ => false
  end.

Definition file_items (f : memory_file) : list json :=
  match f with Holds (JArr l) => l | _ => [] end.

Definition file_inv (f : memory_file) : Prop :=
  f = NoFile ∨ ∃ l, f = Holds (JArr l) ∧ Forall is_dict l.

Definition file_view (f : memory_file) (s : text) : list json :=
  without_session <$> select (mine s) (file_items f).

Lemma in_session_dict s item : is_dict item → in_session s item = Ok (mine s item).
Proof. by intros [kvs ->]. Qed.

Lemma keep_select p q l :
  Forall (λ x, p x = Ok (q x)) l → keep p l = Ok (select q l).
Proof.
  induction 1 as [|x l Hx _ IH]; [done|]. simpl. rewrite Hx, IH. simpl. by destruct (q x).
Qed.

Fixpoint places (q : json → bool) (i : nat) (l : list json) : list nat :=
  match l with
  | [] => []
  | x :: l' => if q x then i :: places q (S i) l' else places q (S i) l'
  end.

Lemma indexes_places p q i l :
  Forall (λ x, p x = Ok (q x)) l → indexes p i l = Ok (places q i l).
Proof.
  intros Hl. revert i. induction Hl as [|x l Hx _ IH]; intros i; [done|].
  simpl. rewrite Hx, IH. simpl. by destruct (q x).
Qed.

Lemma places_ge q i l j : j ∈ places q i l → (i ≤ j)%nat.
Proof.
  revert i. induction l as [|x l IH]; intros i; simpl; [set_solver|].
  destruct (q x); [rewrite elem_of_cons; intros [->|H]|intros H]; [lia|apply IH in H; lia..].
Qed.

Lemma length_places q i l : length (places q i l) = length (select q l).
Proof.
  revert i. induction l as [|x l IH]; intros i; simpl; [done|].
  destruct (q x); simpl; by rewrite IH.
Qed.

(** [without] by recursion, counting from [i]. *)
Fixpoint drops (i : nat) (remove : list nat) (l : list json) : list json :=
  match l with
  | [] => []
  | x :: l' => (if bool_decide (i ∈ remove) then [] else [x]) ++ drops (S i) remove l'
  end.

Lemma without_drops remove l : without remove l = drops 0 remove l.
Proof.
  unfold without. assert (∀ i, ((imap (λ j, pair (i + j)%nat) l) ≫= λ '(i, item),
    if bool_decide (i ∈ remove) then [] else [item]) = drops i remove l) as H; [|apply (H 0%nat)].
  induction l as [|x l IH]; intros i; [done|]. rewrite imap_cons. cbn [drops].
  rewrite bind_cons, Nat.add_0_r. f_equal. rewrite <-(IH (S i)). f_equal. apply imap_ext.
  intros j y _. simpl. f_equal. lia.
Qed.

Lemma drops_below j i remove l : (j < i)%nat → drops i (j :: remove) l = drops i remove l.
Proof.
  revert i. induction l as [|x l IH]; intros i Hi; [done|]. simpl. rewrite IH by lia. f_equal.
  destruct (decide (i ∈ remove)) as [Hr|Hr].
  - by rewrite !bool_decide_eq_true_2 by set_solver.
  - rewrite !bool_decide_eq_false_2; [done|done|]. rewrite elem_of_cons. intros [->|?]; [lia|done].
Qed.

Lemma elem_of_take_l {A} n (l : list A) x : x ∈ take n l → x ∈ l.
Proof. intros Hx. rewrite <-(take_drop n l). apply elem_of_app. by left. Qed.

Lemma drops_nil i l : drops i [] l = l.
Proof. revert i. induction l as [|x l IH]; intros i; [done|]. simpl. by rewrite IH. Qed.

Lemma drops_select q i n l :
  select q (drops i (take n (places q i l)) l) = drop n (select q l).
Proof.
  revert i n. induction l as [|x l IH]; intros i n; [by destruct n|]. cbn [places].
  destruct (q x) eqn:Eq.
  - destruct n as [|n]; cbn [take drops]; [by rewrite drops_nil|].
    rewrite bool_decide_eq_true_2 by set_solver. rewrite drops_below by lia.
    simpl. unfold select in *. simpl. rewrite Eq. apply IH.
  - cbn [drops]. rewrite bool_decide_eq_false_2; cycle 1.
    { intros Hj%elem_of_take_l. apply places_ge in Hj. lia. }
    unfold select in *. simpl. rewrite Eq. apply IH.
Qed.

Lemma drops_other p q i n l :
  (∀ x, x ∈ l → q x = true → p x = false) →
  select p (drops i (take n (places q i l)) l) = select p l.
Proof.
  revert i n. induction l as [|x l IH]; intros i n Hpq; [done|]. cbn [places].
  assert (∀ y, y ∈ l → q y = true → p y = false) as Hl by set_solver.
  destruct (q x) eqn:Eq.
  - destruct n as [|n]; cbn [take drops]; [by rewrite drops_nil|].
    rewrite bool_decide_eq_true_2 by set_solver. rewrite drops_below by lia.
    unfold select in *. simpl. rewrite (Hpq x) by set_solver. by apply IH.
  - cbn [drops]. rewrite bool_decide_eq_false_2; cycle 1.
    { intros Hj%elem_of_take_l. apply places_ge in Hj. lia. }
    unfold select in *. simpl. destruct (p x); [f_equal|]; by apply IH.
Qed.

Lemma drops_elem i remove l x : x ∈ drops i remove l → x ∈ l.
Proof.
  revert i. induction l as [|y l IH]; intros i; simpl; [done|].
  rewrite elem_of_app. destruct (bool_decide _); set_solver.
Qed.

(** The two messages of an exchange, as they are stored. *)
Definition stored_exchange (s q a t1 t2 : text) : list json :=
  [with_session s (_message (cps "user") q t1); with_session s (_message (cps "assistant") a t2)].

Lemma stored_dicts s q a t1 t2 : Forall is_dict (stored_exchange s q a t1 t2).
Proof. repeat constructor; eexists; reflexivity. Qed.

Lemma mine_with s s' r q t : mine s' (with_session s (_message r q t)) = bool_decide (s' = s).
Proof.
  unfold mine, with_session, _message. cbn. apply bool_decide_ext. split; [by intros [= ->]|by intros ->].
Qed.

Lemma stored_mine s s' q a t1 t2 :
  select (mine s') (stored_exchange s q a t1 t2)
  = if bool_decide (s' = s) then stored_exchange s q a t1 t2 else [].
Proof.
  unfold stored_exchange, select. cbn [List.filter]. rewrite !mine_with. by destruct (bool_decide _).
Qed.

Lemma stored_view s q a t1 t2 :
  without_session <$> stored_exchange s q a t1 t2 = exchange q a t1 t2.
Proof. done. Qed.

Lemma file_read_inv e f l f' :
  file_inv f → _read_unlocked e f = Ok (l, f') → f' = f ∧ l = file_items f ∧ Forall is_dict l.
Proof.
  intros [->|(l' & -> & Hl)]; simpl.
  - intros [= <- <-]. done.
  - destruct (read_fails e); [done|]. by intros [= <- <-].
Qed.

Lemma file_write_Ok e l f u f' : _write_unlocked e l f = Ok (u, f') → f' = Holds (JArr l).
Proof. unfold _write_unlocked. intros H. by tx_inv H. Qed.

(** What a call of the file store does when it returns; otherwise the file is unchanged. *)
Lemma file_get_Ok n e s lim f r f' :
  file_inv f → file_get_history n e s lim f = Ok (r, f') →
  f' = f ∧ without_session <$> r = limited n lim (file_view f s).
Proof.
  intros Hf H. unfold file_get_history in H. tx_inv H.
  apply file_read_inv in Htx as (-> & -> & Hl); [|done].
  rewrite (keep_select _ (mine s)) in Htx0
    by (eapply Forall_impl; [exact Hl|intros; by apply in_session_dict]).
  injection Htx0 as <-. split; [done|]. apply limited_fmap.
Qed.

Lemma file_append_Ok n e s q a t1 t2 f u f' :
  file_inv f → file_append_exchange n e s q a t1 t2 f = Ok (u, f') →
  file_inv f' ∧ ∀ s', file_view f' s' =
    if bool_decide (s' = s) then slice_from (- n) (file_view f s' ++ exchange q a t1 t2)
    else file_view f s'.
Proof.
  intros Hf H. unfold file_append_exchange in H. tx_inv H.
  apply file_read_inv in Htx as (-> & -> & Hl); [|done].
  set (data := file_items f ++ stored_exchange s q a t1 t2) in *.
  assert (Forall is_dict data) as Hd by (apply Forall_app; split; [done|apply stored_dicts]).
  change (indexes (in_session s) 0 data = Ok a1) in Htx0.
  rewrite (indexes_places _ (mine s)) in Htx0
    by (eapply Forall_impl; [exact Hd|intros; by apply in_session_dict]).
  injection Htx0 as <-. apply file_write_Ok in H as ->.
  set (remove := slice_to (- n) (places (mine s) 0 data)).
  assert ((if remove is [] then data else without remove data) = drops 0 remove data) as Er.
  { rewrite <-without_drops. destruct remove; [|done]. by rewrite without_drops, drops_nil. }
  change (file_inv (Holds (JArr (if remove is [] then data else without remove data)))
    ∧ ∀ s', file_view (Holds (JArr (if remove is [] then data else without remove data))) s' =
      if bool_decide (s' = s) then slice_from (- n) (file_view f s' ++ exchange q a t1 t2)
      else file_view f s').
  rewrite Er. split.
  - right. eexists. split; [done|]. rewrite Forall_forall in *. intros x Hx%drops_elem. auto.
  - intros s'. unfold file_view. cbn [file_items].
    assert (∀ s0, select (mine s0) data = select (mine s0) (file_items f)
      ++ (if bool_decide (s0 = s) then stored_exchange s q a t1 t2 else [])) as Hs.
    { intros s0. unfold data. rewrite <-stored_mine. unfold select. apply List.filter_app. }
    unfold remove, slice_to. case_bool_decide as E1.
    + subst s'. rewrite drops_select, fmap_drop.
      unfold len. rewrite length_places. rewrite Hs, bool_decide_eq_true_2 by done.
      rewrite fmap_app, stored_view. unfold slice_from, len.
      by rewrite !length_app, length_fmap.
    + rewrite drops_other; [by rewrite Hs, bool_decide_eq_false_2, app_nil_r by done|].
      intros [] _; try done. unfold mine. rewrite bool_decide_eq_true, bool_decide_eq_false. congruence.
Qed.

Lemma file_clear_Ok e s f u f' :
  file_inv f → file_clear_session e s f = Ok (u, f') →
  file_inv f' ∧ ∀ s', file_view f' s' = if bool_decide (s' = s) then [] else file_view f s'.
Proof.
  intros Hf H. unfold file_clear_session in H. tx_inv H.
  apply file_read_inv in Htx as (-> & -> & Hl); [|done].
  rewrite (keep_select _ (λ item, negb (mine s item))) in Htx0
    by (eapply Forall_impl; [exact Hl|intros; by rewrite in_session_dict]).
  injection Htx0 as <-. apply file_write_Ok in H as ->. split.
  - right. eexists. split; [done|]. rewrite Forall_forall in *. intros x [_ Hx]%elem_of_select. auto.
  - intros s'. unfold file_view. cbn [file_items]. rewrite select_select. case_bool_decide as E1.
    + subst s'. unfold select. induction (file_items f) as [|x l IH]; [done|]. simpl.
      inversion Hl; subst. destruct (mine s x); simpl; auto.
    + f_equal. apply List.filter_ext_in. intros [] _; try done. unfold mine. simpl.
      do 2 case_bool_decide; naive_solver.
Qed.

#[export] Instance file_laws n :
  @MemoryLaws memory_file file_env (file_store n) n file_inv file_view (λ _, True).
Proof.
  split. intros e s c f r f' _ Hf. unfold store_call, nothing. destruct c as [lim|q a t1 t2|];
    cbn [get_history append_exchange clear_session file_store]; unfold transaction.
  - destruct (file_get_history n e s lim f) as [[ms f1]|x] eqn:E; intros [= <- <-].
    + apply file_get_Ok in E as [-> E]; [|done]. split; [done|]. exists true.
      split; [by intros ? [= <-]|]. intros s' _. cbn [effect]. by case_match.
    + split; [done|]. by exists false.
  - destruct (file_append_exchange n e s q a t1 t2 f) as [[u f1]|x] eqn:E; intros [= <- <-].
    + apply file_append_Ok in E as [Hi E]; [|done]. split; [done|]. exists true.
      split; [by intros ? [= <-]|]. intros s' _. by rewrite E.
    + split; [done|]. by exists false.
  - destruct (file_clear_session e s f) as [[u f1]|x] eqn:E; intros [= <- <-].
    + apply file_clear_Ok in E as [Hi E]; [|done]. split; [done|]. exists true.
      split; [by intros ? [= <-]|]. intros s' _. by rewrite E.
    + split; [done|]. by exists false.
Qed.

(** ** The Redis store *)









Section RedisStore.
Context `{Runtime} `{RedisClient W} {stored : W → text → list redis_value} `{!RedisLaws W stored}.
Variables (n ttl : Z) (key_prefix : text) (named : text → Prop).






End RedisStore.

Record request := {
  rq_snapshot : AuthorizationSnapshot; rq_clock : nat → Q; rq_authority : sdb;
  rq_session : text; rq_call : memory_call }.

Section Requests.
Context `{Runtime}.

Definition perform `{ConversationMemoryStore W E} (e : E) (q : request)
    : W → result scoped_exn (list json) * W :=
  match rq_call q with
  | CRead limit => scoped_get_history (rq_snapshot q) (rq_clock q) (rq_authority q) e (rq_session q) limit
  | CAppend query answer t1 t2 => λ w,
      nothing (scoped_append_exchange (rq_snapshot q) (rq_clock q) (rq_authority q) e (rq_session q)
                 query answer t1 t2 w)
  | CClear => λ w,
      nothing (scoped_clear_session (rq_snapshot q) (rq_clock q) (rq_authority q) e (rq_session q) w)
  end.

(** The requests in their order, each with the environment of its call. *)
Fixpoint run `{ConversationMemoryStore W E} (l : list (E * request)) (w : W)
    : list (result scoped_exn (list json)) * W :=
  match l with
  | [] => ([], w)
  | (e, q) :: l' =>
      let '(r, w1) := perform e q w in
      let '(rs, w2) := run l' w1 in
      (r :: rs, w2)
  end.

Definition rq_scope (q : request) : Scope := p_scope (sn_principal (rq_snapshot q)).

Definition rq_key (q : request) : result security_exn string :=
  session_key (sn_principal (rq_snapshot q)) (rq_session q).

Definition authorized (q : request) : Prop :=
  ∃ d, _revalidate (rq_snapshot q) (rq_clock q) (rq_authority q) = Ok (tt, d).

(** The conversation of one owner's session, from the calls that took effect. *)
Definition conversation (n : Z) (sc : Scope) (sid : text) (log : list (request * bool)) : list json :=
  foldl (λ h '(q, applied),
    if applied && bool_decide (rq_scope q = sc) && bool_decide (rq_session q = sid)
    then effect n (rq_call q) h else h) [] log.

Lemma conversation_snoc n sc sid log q b :
  conversation n sc sid (log ++ [(q, b)]) =
    if b && bool_decide (rq_scope q = sc) && bool_decide (rq_session q = sid)
    then effect n (rq_call q) (conversation n sc sid log) else conversation n sc sid log.
Proof. unfold conversation. by rewrite foldl_app. Qed.

Lemma effect_bounded n c h : 0 < n → len h ≤ n → len (effect n c h) ≤ n.
Proof.
  intros Hn Hh. destruct c; simpl; [done|by apply slice_from_last|unfold len; simpl; lia].
Qed.

Lemma conversation_bounded n sc sid log : 0 < n → len (conversation n sc sid log) ≤ n.
Proof.
  intros Hn. induction log as [|[q b] log IH] using rev_ind; [unfold conversation, len; simpl; lia|].
  rewrite conversation_snoc. case_match; [by apply effect_bounded|done].
Qed.

(** The session names of the requests are Unicode texts, and the digest tells them apart. *)
Definition sessions_distinct (qs : list request) : Prop :=
  (∀ q, q ∈ qs → Forall scalar (rq_session q)) ∧
  ∀ q q', q ∈ qs → q' ∈ qs →
    sha256_hex (session_payload (sn_principal (rq_snapshot q)) (rq_session q))
    = sha256_hex (session_payload (sn_principal (rq_snapshot q')) (rq_session q')) →
    session_payload (sn_principal (rq_snapshot q)) (rq_session q)
    = session_payload (sn_principal (rq_snapshot q')) (rq_session q').

Lemma session_payload_inj p p' s s' :
  Forall scalar s → Forall scalar s' → session_payload p s = session_payload p' s' →
  p_scope p = p_scope p' ∧ s = s'.
Proof.
  intros Hs Hs' E. unfold session_payload in E.
  assert (∀ q t, Forall scalar t → plain (JArr [jstr "polymind-session/1"; jstr (tenant (p_scope q));
    jstr (owner (p_scope q)); JStr t])) as Hp.
  { intros q t Ht. apply plain_arr. repeat constructor; try apply cps_scalar. done. }
  apply (f_equal (λ x, x ++ [])) in E.
  apply dumps_unique in E as [E _]; [|by apply Hp..|done|done].
  injection E as E1 E2 E3. apply cps_inj in E1, E2. split; [|done].
  destruct (p_scope p), (p_scope p'); simpl in *; congruence.
Qed.

Lemma rq_key_Ok q k : rq_key q = Ok k →
  k = "s1-" +:+ sha256_hex (session_payload (sn_principal (rq_snapshot q)) (rq_session q)).
Proof. unfold rq_key, session_key. case_match; [by intros [= <-]|done]. Qed.

Lemma app_str_inj (a b b' : string) : a +:+ b = a +:+ b' → b = b'.
Proof. induction a as [|c a IH]; simpl; [done|]. intros [= E]. auto. Qed.

(** Same key, same owner and session. *)
Lemma same_key qs q q' k :
  sessions_distinct qs → q ∈ qs → q' ∈ qs → rq_key q = Ok k → rq_key q' = Ok k →
  rq_scope q = rq_scope q' ∧ rq_session q = rq_session q'.
Proof.
  intros [Hs Hd] Hq Hq' ->%rq_key_Ok E%rq_key_Ok.
  apply session_payload_inj; [by apply Hs..|]. apply Hd; [done..|].
  symmetry. by apply app_str_inj in E.
Qed.

Lemma same_session q q' :
  rq_scope q = rq_scope q' → rq_session q = rq_session q' → rq_key q = rq_key q'.
Proof.
  unfold rq_scope, rq_key, session_key, session_payload. intros -> ->. done.
Qed.

Section Laws.
Context `{ConversationMemoryStore W E} {n : Z} {inv : W → Prop} {view : W → text → list json}
  {named : text → Prop} `{!MemoryLaws W E n inv view named}.

(** One request: refused, or one call of the store on the session's key. *)
Lemma perform_store e q w r w' : perform e q w = (r, w') →
  (w' = w ∧ ∀ ms, r ≠ Ok ms) ∨
  authorized q ∧ ∃ k r', rq_key q = Ok k ∧ store_call e (cps k) (rq_call q) w = (r', w') ∧
    ∀ ms, r = Ok ms → r' = Ok ms.
Proof.
  unfold perform, scoped_get_history, scoped_append_exchange, scoped_clear_session, scoped, release.
  unfold authorized, rq_key, store_call, nothing.
  destruct (rq_call q) as [lim|a b t1 t2|];
    (destruct (_revalidate _ _ _) as [[[] d]|x]; [|intros [= <- <-]; by left]);
    (destruct (session_key _ _) as [k|x]; [|intros [= <- <-]; by left]).
  - destruct (get_history e (cps k) lim w) as [[ms|x] w1] eqn:Eg; intros [= <- <-]; right;
      (split; [eauto|]); exists k; rewrite Eg; eexists; (split; [done|]); (split; [done|]); intros ?; congruence.
  - destruct (append_exchange e (cps k) a b t1 t2 w) as [[u|x] w1] eqn:Eg; intros [= <- <-]; right;
      (split; [eauto|]); exists k; rewrite Eg; eexists; (split; [done|]); (split; [done|]); intros ?; congruence.
  - destruct (clear_session e (cps k) w) as [[u|x] w1] eqn:Eg; intros [= <- <-]; right;
      (split; [eauto|]); exists k; rewrite Eg; eexists; (split; [done|]); (split; [done|]); intros ?; congruence.
Qed.

Variable all : list request.
Hypothesis distinct : sessions_distinct all.
Hypothesis in_use : ∀ q k, q ∈ all → rq_key q = Ok k → named (cps k).

(** The store holds the conversations of the log. *)
Definition holds_log (log : list (request * bool)) (w : W) : Prop :=
  inv w ∧ ∀ q k, q ∈ all → rq_key q = Ok k →
    view w (cps k) = conversation n (rq_scope q) (rq_session q) log.

Lemma perform_log e q w r w' log :
  q ∈ all → holds_log log w → perform e q w = (r, w') → ∃ applied : bool,
    (∀ ms, r = Ok ms → applied = true ∧ authorized q ∧
       ms = answer_of n (rq_call q) (conversation n (rq_scope q) (rq_session q) log)) ∧
    holds_log (log ++ [(q, applied)]) w'.
Proof.
  intros Hq [Hi Hv] [[-> Hr]|(Ha & k & r' & Hk & Hc & Hr)]%perform_store.
  - exists false. split; [intros ms ->; by destruct (Hr ms)|]. split; [done|].
    intros q' k' Hq' Hk'. rewrite conversation_snoc. simpl. auto.
  - apply call_law in Hc as (Hi' & applied & Ho & Hv'); [|by eapply in_use|done]. exists applied. split.
    + intros ms ->. destruct (Ho ms (Hr ms eq_refl)) as [-> ->]. by rewrite (Hv q k).
    + split; [done|]. intros q' k' Hq' Hk'.
      rewrite conversation_snoc, Hv', (Hv q' k') by eauto. destruct applied; simpl; [|done].
      case_bool_decide as E1.
      * apply cps_inj in E1 as ->. destruct (same_key all q q' k) as [-> ->]; try done.
        by rewrite !bool_decide_eq_true_2.
      * case_bool_decide as E2; [|done]. case_bool_decide as E3; [|done]. destruct E1.
        f_equal. rewrite (same_session q q') in Hk by done. congruence.
Qed.

Lemma run_log l w rs w' log :
  (∀ q, q ∈ l.*2 → q ∈ all) → holds_log log w → run l w = (rs, w') → ∃ applied : list bool,
    length applied = length l ∧
    ∀ i q ms, l.*2 !! i = Some q → rs !! i = Some (Ok ms) →
      applied !! i = Some true ∧ authorized q ∧
      ms = answer_of n (rq_call q)
             (conversation n (rq_scope q) (rq_session q) (log ++ take i (zip l.*2 applied))).
Proof.
  revert w rs w' log. induction l as [|[e q] l IH]; intros w rs w' log Hl Hw Hr.
  { exists []. split; [done|]. by intros i q ms Hi. }
  simpl in Hr. destruct (perform e q w) as [r w1] eqn:Ep.
  destruct (run l w1) as [rs' w2] eqn:Er. injection Hr as <- <-.
  apply (perform_log e q w r w1 log) in Ep as (b & Ho & Hw1); [|set_solver|done].
  apply (IH w1 rs' w2 (log ++ [(q, b)])) in Er as (bs & Hbs & Hi); [|set_solver|done].
  exists (b :: bs). split; [simpl; lia|]. intros [|i] q' ms Hq' Hms.
  - injection Hq' as <-. injection Hms as Hms. destruct (Ho ms Hms) as (-> & Ha & ->).
    by rewrite app_nil_r.
  - destruct (Hi i q' ms Hq' Hms) as (? & ? & ->). split_and!; [done..|].
    by rewrite <-(assoc_L (++)).
Qed.

End Laws.
End Requests.

(** C33: Whatever store the facade is on, and whatever fails: a request that returns was
    authorized when it ran, and what it returns is read off the conversation of its own
    owner and session alone: the exchanges of that owner in that session that took effect
    before it, cut to the history limit.  A call that raised took effect entirely or not at
    all. *)
Theorem memory_isolated `{Runtime} `{!ConversationMemoryStore W E} n inv view named
    `{!MemoryLaws W E n inv view named} (l : list (E * request)) w rs w' :
  inv w → (∀ s, named s → view w s = []) →
  sessions_distinct l.*2 →
  (∀ q k, q ∈ l.*2 → rq_key q = Ok k → named (cps k)) →
  run l w = (rs, w') →
  ∃ applied : list bool, length applied = length l ∧
    ∀ i q ms, l.*2 !! i = Some q → rs !! i = Some (Ok ms) →
      applied !! i = Some true ∧ authorized q ∧
      ms = answer_of n (rq_call q)
             (conversation n (rq_scope q) (rq_session q) (take i (zip l.*2 applied))) ∧
      (0 < n → len ms ≤ n).
Proof.
  intros Hi Hv Hd Hu Hr.
  edestruct (run_log l.*2 Hd Hu l w rs w' []) as (bs & Hbs & Hb); [done| |done|].
  { split; [done|]. intros q k Hq Hk. rewrite Hv by eauto. done. }
  exists bs. split; [done|]. intros i q ms Hq Hms.
  destruct (Hb i q ms Hq Hms) as (E1 & E2 & ->). split_and!; [done..|]. intros Hn.
  pose proof (conversation_bounded n (rq_scope q) (rq_session q) ([] ++ take i (zip l.*2 bs)) Hn).
  destruct (rq_call q); simpl; [|unfold len; simpl; lia..].
  etransitivity; [apply limited_length|done].
Qed.




(** ** Errors *)

(** What the file store itself leaves behind: no file, or objects of Unicode texts. *)
Definition safe_file (f : memory_file) : Prop :=
  f = NoFile ∨ ∃ l, f = Holds (JArr l) ∧ Forall is_dict l ∧ forallb encodable l = true.

Definition unicode (t : text) : bool := forallb is_scalar t.

Definition unicode_call (c : memory_call) : bool :=
  match c with
  | CAppend q a t1 t2 => unicode q && unicode a && unicode t1 && unicode t2
  | _ => true
  end.

Lemma safe_file_read e f l f' : safe_file f → _read_unlocked e f = Ok (l, f') →
  f' = f ∧ Forall is_dict l ∧ forallb encodable l = true.
Proof.
  intros [->|(l' & -> & Hl & He)]; simpl; [by intros [= <- <-]|].
  destruct (read_fails e); [done|]. by intros [= <- <-].
Qed.

Lemma safe_file_read_err e f x : safe_file f → _read_unlocked e f = Err x → x = MemoryReadError.
Proof.
  intros [->|(l' & -> & Hl & He)]; simpl; [done|]. destruct (read_fails e); [|done]. by intros [= <-].
Qed.

Lemma write_errors e l f : forallb encodable l = true →
  match _write_unlocked e l f with
  | Ok (_, f') => f' = Holds (JArr l)
  | Err x => x = MemoryWriteError
  end.
Proof.
  intros He. unfold _write_unlocked, guard, raise, modify, mbind, tx_bind, mret, tx_ret. rewrite He.
  by destruct (write_fails e), (replace_fails e).
Qed.

Lemma encodable_sub l l' : (∀ x, x ∈ l' → x ∈ l) → forallb encodable l = true → forallb encodable l' = true.
Proof. intros Hl. rewrite !forallb_elem. auto. Qed.

Lemma encodable_with s r c t : unicode s && unicode r && unicode c && unicode t = true →
  encodable (with_session s (_message r c t)) = true.
Proof. unfold with_session, _message, unicode. simpl. rewrite !andb_true_iff. tauto. Qed.

(** An error of the file store, and what a call may leave behind. *)
Definition file_outcome {A} (f : memory_file) (r : result mem_exn A * memory_file) : Prop :=
  match r with
  | (Ok _, f') => safe_file f'
  | (Err x, f') => f' = f ∧ (x = MemoryReadError ∨ x = MemoryWriteError)
  end.

Lemma safe_write e l f : Forall is_dict l → forallb encodable l = true →
  file_outcome f (transaction (_write_unlocked e l) f).
Proof.
  intros Hd He. unfold transaction, file_outcome. pose proof (write_errors e l f He) as Hw.
  destruct (_write_unlocked e l f) as [[u f']|y]; subst; [|auto]. right. eauto.
Qed.

(** A call that reads the file and goes on with its items. *)
Lemma safe_read {A} e f (k : list json → tx memory_file mem_exn A) :
  safe_file f →
  (∀ l, Forall is_dict l → forallb encodable l = true → file_outcome f (transaction (k l) f)) →
  file_outcome f (transaction (_read_unlocked e ≫= k) f).
Proof.
  intros Hf Hk. unfold transaction, mbind, tx_bind.
  destruct (_read_unlocked e f) as [[l f']|y] eqn:Er.
  - apply safe_file_read in Er as (-> & Hl & He); [|done]. by apply Hk.
  - split; [done|]. left. by eapply safe_file_read_err.
Qed.

Lemma file_append_safe n e s q a t1 t2 f :
  safe_file f → unicode s && unicode q && unicode a && unicode t1 && unicode t2 = true →
  file_outcome f (transaction (file_append_exchange n e s q a t1 t2) f).
Proof.
  intros Hf Hu. rewrite !andb_true_iff in Hu. destruct Hu as [[[[Hs Hq] Ha] H1] H2].
  apply safe_read; [done|]. intros l Hl He.
  set (data := l ++ stored_exchange s q a t1 t2).
  assert (Forall is_dict data) as Hd by (apply Forall_app; split; [done|apply stored_dicts]).
  assert (forallb encodable data = true) as Hde.
  { unfold data, stored_exchange. rewrite forallb_app. apply andb_true_iff. split; [done|].
    apply forallb_elem. intros x Hx.
    repeat (apply elem_of_cons in Hx as [->|Hx]; [apply encodable_with; by rewrite Hs, ?Hq, ?Ha, ?H1, ?H2|]).
    by apply not_elem_of_nil in Hx. }
  unfold transaction at 1, mbind, tx_bind, lift. fold (stored_exchange s q a t1 t2). fold data.
  rewrite (indexes_places _ (mine s)) by (eapply Forall_impl; [exact Hd|intros; by apply in_session_dict]).
  set (out := match slice_to _ _ with [] => data | _ => without _ data end).
  assert (∀ x, x ∈ out → x ∈ data) as Ho.
  { unfold out. intros x. destruct (slice_to _ _); [done|]. rewrite without_drops. apply drops_elem. }
  apply (safe_write e out f); [rewrite Forall_forall in *; auto|by eapply encodable_sub].
Qed.

Lemma file_clear_safe e s f :
  safe_file f → file_outcome f (transaction (file_clear_session e s) f).
Proof.
  intros Hf. apply safe_read; [done|]. intros l Hl He. unfold transaction at 1, mbind, tx_bind, lift.
  rewrite (keep_select _ (λ item, negb (mine s item)))
    by (eapply Forall_impl; [exact Hl|intros; by rewrite in_session_dict]).
  apply (safe_write e _ f).
  - rewrite Forall_forall in *. intros x [_ Hx]%elem_of_select. auto.
  - apply (encodable_sub l); [|done]. by intros x [_ Hx]%elem_of_select.
Qed.

Lemma file_get_safe n e s lim f :
  safe_file f → file_outcome f (transaction (file_get_history n e s lim) f).
Proof.
  intros Hf. apply safe_read; [done|]. intros l Hl He. unfold transaction, mbind, tx_bind, lift.
  by rewrite (keep_select _ (mine s)) by (eapply Forall_impl; [exact Hl|intros; by apply in_session_dict]).
Qed.

(** On what it wrote itself, and on Unicode texts, the file store raises nothing but the
    two safe errors of its medium; a call that raises leaves the file untouched, and a call
    that returns leaves a file of that form. *)
Theorem file_errors_safe n e s c f :
  safe_file f → unicode s = true → unicode_call c = true →
  file_outcome f (@store_call _ _ (file_store n) e s c f).
Proof.
  intros Hf Hs Hc. unfold store_call, nothing.
  destruct c as [lim|q a t1 t2|]; cbn [get_history append_exchange clear_session file_store].
  - pose proof (file_get_safe n e s lim f Hf) as Ho. by destruct (transaction _ f) as [[ms|x] f'].
  - pose proof (file_append_safe n e s q a t1 t2 f Hf) as Ho. unfold unicode_call in Hc.
    destruct (transaction _ f) as [[ms|x] f']; apply Ho; rewrite !andb_true_iff in *; tauto.
  - pose proof (file_clear_safe e s f Hf) as Ho. by destruct (transaction _ f) as [[ms|x] f'].
Qed.

Lemma file_errors_safe_witness :
  file_outcome NoFile (@store_call _ _ (file_store 2)
    {| read_fails := false; write_fails := false; replace_fails := true |} (cps "s")
    (CAppend (cps "q") (cps "a") (cps "t1") (cps "t2")) NoFile).
Proof. apply (file_errors_safe 2); [by left|reflexivity|reflexivity]. Defined.

(** ** Concrete runs *)



Definition session_snapshot (p : Principal) : AuthorizationSnapshot := {|
  sn_principal := p; principal_epoch := 0; sn_documents := []; sn_action := DOCUMENT_ANALYZE;
  policy_version := "authorization/1" |}.

Definition ask (p : Principal) (sid : string) (c : memory_call) : request := {|
  rq_snapshot := session_snapshot p; rq_clock := clock0; rq_authority := sample_shared;
  rq_session := cps sid; rq_call := c |}.

Definition say (q a : string) : memory_call := CAppend (cps q) (cps a) (cps "t1") (cps "t2").

(** Two principals use the same session name. *)
Definition sample_requests : list request :=
  [ask alice "s" (say "q1" "a1"); ask bob "s" (say "q2" "a2"); ask alice "s" (say "q3" "a3");
   ask alice "s" (CRead None); ask bob "s" (CRead (Some 1)); ask alice "s" CClear;
   ask alice "s" (CRead None); ask bob "s" (CRead None)].

Definition quiet : file_env := {| read_fails := false; write_fails := false; replace_fails := false |}.
Definition full_disk : file_env := {| read_fails := false; write_fails := false; replace_fails := true |}.

(** All payloads of the requests, and their digests, decided. *)
Definition distinct_payloads (qs : list request) : bool :=
  let payload q := @session_payload sample_runtime (sn_principal (rq_snapshot q)) (rq_session q) in
  forallb (λ q, forallb (λ q', bool_decide (payload q = payload q')
    || negb (bool_decide (sample_sha (payload q) = sample_sha (payload q')))) qs) qs.

Lemma sample_distinct qs :
  forallb (λ q, forallb is_scalar (rq_session q)) qs = true → distinct_payloads qs = true →
  @sessions_distinct sample_runtime qs.
Proof.
  intros Hs Hd. split.
  - intros q Hq. rewrite forallb_elem in Hs. specialize (Hs q Hq). rewrite forallb_elem in Hs.
    apply Forall_forall. intros c Hc. specialize (Hs c Hc). unfold is_scalar, scalar in *.
    rewrite orb_true_iff, andb_true_iff, !N.ltb_lt, N.leb_le in Hs. lia.
  - intros q q' Hq Hq' E. unfold distinct_payloads in Hd. rewrite forallb_elem in Hd.
    specialize (Hd q Hq). rewrite forallb_elem in Hd. specialize (Hd q' Hq').
    apply orb_true_iff in Hd as [Hd%bool_decide_eq_true|Hd]; [done|].
    apply negb_true_iff, bool_decide_eq_false in Hd. by destruct Hd.
Qed.





Definition file_run (qs : list request) (envs : list file_env) :=
  @run sample_runtime _ _ (file_store 2) (zip envs qs) NoFile.


(** The disk is full for one append; what the two principals read is their own. *)
Lemma memory_isolated_witness :
  ∃ applied : list bool, length applied = 8%nat ∧ applied !! 3%nat = Some true ∧
    answer_of 2 (CRead None)
      (conversation 2 (p_scope alice) (cps "s") (take 3 (zip sample_requests applied)))
    = exchange (cps "q1") (cps "a1") (cps "t1") (cps "t2").
Proof.
  destruct (@memory_isolated sample_runtime _ _ (file_store 2) 2 file_inv file_view (λ _, True) (file_laws 2)
    (zip [quiet; quiet; full_disk; quiet; quiet; quiet; quiet; quiet] sample_requests) NoFile
    (file_run sample_requests [quiet; quiet; full_disk; quiet; quiet; quiet; quiet; quiet]).1
    (file_run sample_requests [quiet; quiet; full_disk; quiet; quiet; quiet; quiet; quiet]).2)
    as (bs & Hb & Hr); [by left|done|by apply sample_distinct; vm_compute|done|vm_compute; reflexivity|].
  exists bs. split; [exact Hb|].
  destruct (Hr 3%nat (ask alice "s" (CRead None))
    (exchange (cps "q1") (cps "a1") (cps "t1") (cps "t2"))) as (E1 & _ & E2 & _);
    [reflexivity|vm_compute; reflexivity|]. split; [exact E1|symmetry; exact E2].
Defined.

