(* ===== verification/Conversation.v ===== *)
(** * Streamed conversations

    The plain and streaming calls of [llm/openai_compatible.py] and [llm/ollama_client.py],
    [llm/router.py], and the conversation of [graph/generation.py] and [graph/streaming.py] that is
    built on them: a question is routed, a prompt is made from the session's history and from
    retrieved documents, the answer is passed on as it arrives, and the exchange is stored.  The
    HTTP client, [json.loads] of text, the intent classifier, retrieval and the tools are
    parameters; the consumer may close the stream at any event. *)

From Stdlib Require Import ZArith NArith QArith Lia.
From stdpp Require Import base tactics list strings option sets.
From S2P Require Import Prelude Json Contracts JobModels Utf8 Extraction Authority AuthorityTheorems Sample Memory MemoryTheorems.
From S2P Require Import Inference DigestModels DigestValidation ModelClients Rag.

Local Open Scope Z_scope.

(** ** Text *)

(** [t.strip()] *)
Fixpoint lstrip (t : text) : text := match t with c :: t' => if isspace c then lstrip t' else t | [] => [] end.
Definition strip (t : text) : text := rev (lstrip (rev (lstrip t))).

(** [t.replace(word, '')] for a word that is not empty; [skip] characters are part of a match. *)
Fixpoint remove_word (word : text) (skip : nat) (t : text) : text :=
  match t with
  | [] => []
  | c :: t' =>
      match skip with
      | S n => remove_word word n t'
      | O => if bool_decide (take (length word) t = word) then remove_word word (length word - 1) t'
             else c :: remove_word word 0 t'
      end
  end.

(** ** Answers of the model server *)

(** The lines of a streamed body as far as they arrived, and how it went on: still open ([None]), ended, or an
    exception of the HTTP library. *)
Record line_stream := { ls_lines : list text; ls_end : option (option transport) }.

(** [pr_json]: what [response.json()] returns, [None] for [ValueError]. *)
Record plain_response := { pr_status : Z; pr_json : option json; pr_stream : line_stream }.

Inductive loads_exn := JSONDecodeError | LoadsOther.

Class PlainClient := {
  plain_post : text → json → result transport plain_response;
  (** [json.loads] of a string *)
  loads : text → result loads_exn json }.

(** How a generator ended; [Waiting] when the body is still open. *)
Inductive stream_end := Waiting | Complete | Failed (e : call_exn).

Section Clients.
Context `{PlainClient}.

(** [raise_for_status] *)
Definition error_status (s : Z) : bool := (400 <=? s) && (s <? 600).

(** What the handlers make of an exception of the HTTP library. *)
Definition request_failure (t : transport) : call_exn :=
  match t with
  | t_timeout => CallInference InferenceTimeoutError
  | t_read_timeout | t_request => CallInference (error_for_status None)
  | _ => CallTransport t
  end.

Definition opened (url : text) (payload : json) : result call_exn plain_response :=
  match plain_post url payload with
  | Err t => Err (request_failure t)
  | Ok r => if error_status (pr_status r) then fail_with (error_for_status (Some (pr_status r))) else Ok r
  end.

(** One line of a stream: nothing, some content, the end, or an exception. *)
Inductive line_result := Nothing | Content (t : text) | End | Broken (e : call_exn).

(** The loop of [generate_stream]; [at_end] is what follows the last line. *)
Fixpoint stream_loop (line : text → line_result) (at_end : stream_end) (ls : list text) : list text * stream_end :=
  match ls with
  | [] => ([], at_end)
  | l :: ls' =>
      match line l with
      | Nothing | Content [] => stream_loop line at_end ls'
      | Content t => let '(ts, e) := stream_loop line at_end ls' in (t :: ts, e)
      | End => ([], Complete)
      | Broken e => ([], Failed e)
      end
  end.

Definition after_lines (s : line_stream) (eof : stream_end) : stream_end :=
  match ls_end s with None => Waiting | Some None => eof | Some (Some t) => Failed (request_failure t) end.

Definition malformed_stream : line_result := Broken (CallInference InferenceResponseError).

(** ** [OpenAICompatibleProvider] *)

Record plain_openai := { po_url : text; po_models : list (string * text); po_parameters : list (string * json) }.

Definition openai_plain_payload (self : plain_openai) (model prompt : text) (stream : bool) : json :=
  JObj ([("model", JStr model); ("messages", JArr [message "user" prompt]); ("stream", JBool stream)]
        ++ po_parameters self).

(** [_stream_content] *)
Definition stream_content (payload : json) : result call_exn (option text) :=
  match payload with
  | JObj kvs =>
      match field "choices" kvs with
      | Some (JArr []) =>
          if match field "usage" kvs with Some (JObj _) => true | _ => false end
             || match field "prompt_filter_results" kvs with Some (JArr l) => forallb is_dict l | _ => false end
          then Ok None else fail_with InferenceResponseError
      | Some (JArr (JObj c :: _)) =>
          match field "delta" c with
          | Some (JObj d) =>
              match default JNull (field "content" d) with
              | JNull => Ok None
              | JStr t => Ok (Some t)
              | _ => fail_with InferenceResponseError
              end
          | _ => fail_with InferenceResponseError
          end
      | _ => fail_with InferenceResponseError
      end
  | _ => fail_with InferenceResponseError
  end.

Definition openai_line (line : text) : line_result :=
  if bool_decide (line = []) || bool_decide (take 1 line = [58%N]) then Nothing
  else if negb (bool_decide (take 5 line = cps "data:")) then malformed_stream
  else
    let data := strip (drop 5 line) in
    if bool_decide (data = cps "[DONE]") then End
    else match loads data with
         | Err JSONDecodeError => malformed_stream
         | Err LoadsOther => Broken CallValue
         | Ok payload => match stream_content payload with
                         | Err e => Broken e
                         | Ok (Some t) => Content t
                         | Ok None => Nothing
                         end
         end.

Definition openai_generate_stream (self : plain_openai) (prompt : text) (role : string) : list text * stream_end :=
  match role_model (po_models self) role with
  | Err e => ([], Failed e)
  | Ok model =>
      match opened (po_url self) (openai_plain_payload self model prompt true) with
      | Err e => ([], Failed e)
      | Ok r => stream_loop openai_line
                  (after_lines (pr_stream r) (Failed (CallInference InferenceResponseError))) (ls_lines (pr_stream r))
      end
  end.

Definition openai_generate (self : plain_openai) (prompt : text) (role : string) : result call_exn text :=
  model ← role_model (po_models self) role;
  r ← opened (po_url self) (openai_plain_payload self model prompt false);
  match pr_json r with Some payload => completion_content payload | None => fail_with InferenceResponseError end.

(** ** [OllamaClient] *)

Record plain_ollama := { pl_url : text; pl_model : option text; pl_models : list (string * text) }.

(** [self.model or self.model_map[role.value]] *)
Definition plain_ollama_model (self : plain_ollama) (role : string) : result call_exn text :=
  match pl_model self with Some (c :: t) => Ok (c :: t) | _ => role_model (pl_models self) role end.

Definition ollama_plain_payload (model prompt : text) (stream : bool) : json :=
  JObj [("model", JStr model); ("messages", JArr [message "user" prompt]); ("stream", JBool stream)].

(** [payload['message']['content']], when it is text. *)
Definition message_content (payload : json) : option text :=
  match payload with
  | JObj kvs => match field "message" kvs with
                | Some (JObj m) => match field "content" m with Some (JStr t) => Some t | _ => None end
                | _ => None
                end
  | _ => None
  end.

Definition ollama_line (line : text) : line_result :=
  if bool_decide (line = []) then Nothing
  else match utf8_decode line with
       | None => malformed_stream
       | Some t => match loads t with
                   | Err JSONDecodeError => malformed_stream
                   | Err LoadsOther => Broken CallValue
                   | Ok chunk => match message_content chunk with Some c => Content c | None => malformed_stream end
                   end
       end.

Definition ollama_generate_stream (self : plain_ollama) (prompt : text) (role : string) : list text * stream_end :=
  match plain_ollama_model self role with
  | Err e => ([], Failed e)
  | Ok model =>
      match opened (pl_url self) (ollama_plain_payload model prompt true) with
      | Err e => ([], Failed e)
      | Ok r => stream_loop ollama_line (after_lines (pr_stream r) Complete) (ls_lines (pr_stream r))
      end
  end.

Definition ollama_generate (self : plain_ollama) (prompt : text) (role : string) : result call_exn text :=
  model ← plain_ollama_model self role;
  r ← opened (pl_url self) (ollama_plain_payload model prompt false);
  match pr_json r ≫= message_content with Some t => Ok t | None => fail_with InferenceResponseError end.

End Clients.

(** ** Routing and tools *)

Section Routing.
Context `{UnicodeData}.

Definition any_word (ws : list string) (t : text) : bool := existsb (λ w, contains (cps w) t) ws.

(** [select_model_role]: the value of the role. *)
Definition select_model_role (query : text) : string :=
  let q := str_lower query in
  if any_word ["python"; "code"; "programming"; "debug"; "algorithm"] q then "coding"
  else if any_word ["summarize"; "summary"; "shorten"] q then "summarization"
  else if any_word ["quick"; "fast"] q then "fast"
  else "general".

(** [tool_answer], over the clock and [eval]. *)
Definition tool_answer (current_time : text) (calculate : text → text) (query : text) : text :=
  let normalized := str_lower query in
  if contains (cps "time") normalized then current_time
  else if any_word ["+"; "-"; "*"; "/"] normalized
  then calculate (strip (remove_word (cps "calculate") 0 normalized))
  else cps "Tool unavailable.".

End Routing.

(** ** Prompts *)

(** [`] stands for a line break. *)
Definition lines (s : string) : text := (λ c, if (c =? 96)%N then 10%N else c) <$> cps s.

Definition build_direct_prompt (conversation query : text) : text :=
  lines "`Conversation History:``" ++ conversation ++ lines "``User:``" ++ query
  ++ lines "``Answer naturally and`use the conversation`history when helpful.`".

Definition build_rag_prompt (conversation context query : text) : text :=
  lines "`Conversation History:``" ++ conversation ++ lines "``Context:``" ++ context ++ lines "``Question:``" ++ query
  ++ lines "``Answer using the`provided context.``If the answer is not`contained in the`context, say so.``Do not hallucinate.`".

(** ** [graph/streaming.py] *)

Inductive conversation_event :=
| Metadata (session_id : text) (route role : string) (model : text) (sources : list (list (string * json)))
| ChunkEvent (content : text)
| DoneEvent (response : text)
| ErrorEvent (message : string).

(** [InferenceError], [MemoryError], [VectorStoreError], any other exception; the consumer closed the generator, or the
    model's answer is still open. *)
Inductive conv_exn := CInference | CMemory | CVector | COther | Closed | Open.

(** What [create_inference_provider] gives. *)
Record conversation_provider := {
  cp_model_id : string → result call_exn text;
  cp_generate_stream : text → string → list text * stream_end }.

Section Conversation.
Context `{UnicodeData} {W E : Type} `{ConversationMemoryStore W E}.
Variable oidc : bool.
Variable memory_history : Z.
Variable str_of : json → text.
Variable provider : conversation_provider.
Variable route_query : text → result conv_exn string.
(** [rerank(query, hybrid_retrieve(query))] *)
Variable retrieve : text → result conv_exn (list (list (string * json))).
Variable current_time : text.
Variable calculate : text → text.
(** The environments of the calls of the memory, the instants of the messages, and whether the consumer
    closes the generator at the i-th event. *)
Variable read_env append_env : E.
Variable t1 t2 : text.
Variable closes : nat → bool.

Definition conv (A : Type) : Type := list conversation_event * W → result conv_exn A * (list conversation_event * W).
#[local] Instance conv_ret : MRet conv := λ A a s, (Ok a, s).
#[local] Instance conv_bind : MBind conv := λ A B f m s,
  match m s with (Ok a, s') => f a s' | (Err e, s') => (Err e, s') end.

Definition of_result {A} (r : result conv_exn A) : conv A := λ s, (r, s).
Definition of_call (e : call_exn) : conv_exn := match e with CallInference _ => CInference | _ => COther end.
Definition of_memory (e : mem_exn) : conv_exn := match e with MemoryErr _ => CMemory | MemoryRaw _ => COther end.

(** [yield event] *)
Definition yield (ev : conversation_event) : conv unit := λ s,
  ((if closes (length s.1) then Err Closed else Ok tt), (s.1 ++ [ev], s.2)).

Definition _legacy_only : conv unit := of_result (if oidc then Err COther else Ok tt).

(** One call of the memory. *)
Definition on_memory {A} (f : W → result mem_exn A * W) : conv A := λ s,
  let '(r, w) := f s.2 in
  (match r with Ok a => Ok a | Err e => Err (of_memory e) end, (s.1, w)).

(** [f'{message[role]}: {message[content]}\n'], with [str] for values that are not text. *)
Definition formatted (v : json) : text := match v with JStr t => t | _ => str_of v end.

Definition history_line (m : json) : result conv_exn text :=
  match m with
  | JObj kvs => match field "role" kvs, field "content" kvs with
                | Some r, Some c => Ok (formatted r ++ cps ": " ++ formatted c ++ [10%N])
                | _, _ => Err COther
                end
  | _ => Err COther
  end.

Fixpoint joined (l : list (result conv_exn text)) : result conv_exn text :=
  match l with [] => Ok [] | r :: l' => a ← r; b ← joined l'; Ok (a ++ b) end.

Definition conversation_history (session_id : text) : conv text :=
  _ ← _legacy_only;
  history ← on_memory (get_history read_env session_id None);
  of_result (joined (history_line <$> slice_from (- memory_history) history)).

Definition direct_prompt (query session_id : text) : conv text :=
  h ← conversation_history session_id; mret (build_direct_prompt h query).

(** The texts of the first three documents, two line breaks between. *)
Fixpoint document_texts (docs : list (list (string * json))) : result conv_exn (list text) :=
  match docs with
  | [] => Ok []
  | d :: docs' => match field "text" d with
                  | Some (JStr t) => ts ← document_texts docs'; Ok (t :: ts)
                  | _ => Err COther
                  end
  end.

Fixpoint paragraphs (ts : list text) : text :=
  match ts with [] => [] | [t] => t | t :: ts' => t ++ [10%N; 10%N] ++ paragraphs ts' end.

Definition public_source (d : list (string * json)) : list (string * json) :=
  (λ k, (k, default JNull (field k d))) <$> ["source"; "chunk_id"; "score"; "rerank_score"].

Definition rag_prompt_and_sources (query session_id : text) : conv (text * list (list (string * json))) :=
  _ ← _legacy_only;
  docs ← of_result (retrieve query);
  ts ← of_result (document_texts (take 3 docs));
  h ← conversation_history session_id;
  mret (build_rag_prompt h (paragraphs ts) query, public_source <$> docs).

Fixpoint yield_chunks (ts : list text) : conv unit :=
  match ts with [] => mret tt | t :: ts' => _ ← yield (ChunkEvent t); yield_chunks ts' end.

(** The loop over [provider.generate_stream]; its exception comes after the chunks before it. *)
Definition stream_answer (prompt : text) (role : string) : conv text :=
  let '(ts, e) := cp_generate_stream provider prompt role in
  _ ← yield_chunks ts;
  of_result (match e with Complete => Ok (concat ts) | Waiting => Err Open | Failed x => Err (of_call x) end).

Definition prompt_and_sources (route : string) (query session_id : text) : conv (text * list (list (string * json))) :=
  if bool_decide (route = "rag") then rag_prompt_and_sources query session_id
  else p ← direct_prompt query session_id; mret (p, []).

(** The answer of a route, after the metadata. *)
Definition answered_by (route : string) (query session_id : text) : conv text :=
  let role := select_model_role query in
  model ← of_result (match cp_model_id provider role with Ok m => Ok m | Err e => Err (of_call e) end);
  if bool_decide (route = "tool") then
    let answer := tool_answer current_time calculate query in
    _ ← yield (Metadata session_id route role model []);
    _ ← yield (ChunkEvent answer);
    mret answer
  else
    '(prompt, sources) ← prompt_and_sources route query session_id;
    _ ← yield (Metadata session_id route role model sources);
    stream_answer prompt role.

Definition persist_exchange (query answer session_id : text) : conv unit :=
  _ ← _legacy_only; on_memory (append_exchange append_env session_id query answer t1 t2).

Definition conversation_body (query session_id : text) : conv unit :=
  _ ← _legacy_only;
  route ← of_result (route_query query);
  answer ← answered_by route query session_id;
  _ ← persist_exchange query answer session_id;
  yield (DoneEvent answer).

(** The message of the handler, if one catches the exception. *)
Definition handler_message (e : conv_exn) : option string :=
  match e with
  | CInference => Some "Inference service is unavailable."
  | CMemory => Some "Conversation memory is unavailable."
  | CVector => Some "Knowledge retrieval is unavailable."
  | COther => Some "Request processing failed."
  | Closed | Open => None
  end.

Definition stream_rag_response (query session_id : text) : conv unit := λ s,
  match conversation_body query session_id s with
  | (Ok tt, s') => (Ok tt, s')
  | (Err e, s') => match handler_message e with
                   | Some m => yield (ErrorEvent m) s'
                   | None => (Err e, s')
                   end
  end.

(** ** What is stored *)

Lemma bind_conv {A B} (m : conv A) (f : A → conv B) s :
  (m ≫= f) s = match m s with (Ok a, s') => f a s' | (Err e, s') => (Err e, s') end.
Proof. done. Qed.

Context {history_limit : Z} {inv : W → Prop} {view : W → text → list json} {named : text → Prop}
  `{!MemoryLaws W E history_limit inv view named}.
Variables query session_id : text.
Hypothesis Hnamed : named session_id.

(** Events of an answer that is on its way. *)
Definition underway (ev : conversation_event) : Prop :=
  match ev with Metadata _ _ _ _ _ | ChunkEvent _ => True | _ => False end.

(** Nothing is stored, and only such events are passed on. *)
Definition reads {A} (m : conv A) (Q : list conversation_event → A → Prop) : Prop := ∀ s r s',
  inv s.2 → m s = (r, s') →
  inv s'.2 ∧ (∀ x, named x → view s'.2 x = view s.2 x) ∧
  ∃ evs, s'.1 = s.1 ++ evs ∧ Forall underway evs ∧ ∀ a, r = Ok a → Q evs a.

Lemma reads_bind {A B} (m : conv A) (f : A → conv B) Q R :
  reads m Q → (∀ a evs, Q evs a → reads (f a) (λ evs' b, R (evs ++ evs') b)) → reads (m ≫= f) R.
Proof.
  intros Hm Hf s r s' Hi. rewrite bind_conv. destruct (m s) as [[a|e] s1] eqn:Em.
  - destruct (Hm _ _ _ Hi Em) as (Hi1 & Hv1 & evs & He1 & Hu1 & HQ). intros Hr.
    destruct (Hf a evs (HQ a eq_refl) _ _ _ Hi1 Hr) as (Hi2 & Hv2 & evs' & He2 & Hu2 & HR).
    split; [done|]. split; [intros x Hx; by rewrite Hv2, Hv1|].
    exists (evs ++ evs'). rewrite He2, He1, app_assoc. split_and!; [done|by apply Forall_app|done].
  - intros [= <- <-]. destruct (Hm _ _ _ Hi Em) as (Hi1 & Hv1 & evs & He1 & Hu1 & _).
    split; [done|]. split; [done|]. by exists evs.
Qed.

Lemma reads_weaken {A} (m : conv A) (Q R : list conversation_event → A → Prop) :
  reads m Q → (∀ evs a, Q evs a → R evs a) → reads m R.
Proof.
  intros Hm HQ s r s' Hi Em. destruct (Hm _ _ _ Hi Em) as (Hi1 & Hv1 & evs & He1 & Hu1 & Ha).
  split; [done|]. split; [done|]. exists evs. split_and!; eauto.
Qed.

Lemma reads_result {A} (r : result conv_exn A) : reads (of_result r) (λ evs a, evs = [] ∧ r = Ok a).
Proof. intros s x s' Hi [= <- <-]. split; [done|]. split; [done|]. exists []. rewrite app_nil_r. by split_and!. Qed.

Lemma reads_ret {A} (a : A) : reads (mret a) (λ evs b, evs = [] ∧ b = a).
Proof. intros s x s' Hi [= <- <-]. split; [done|]. split; [done|]. exists []. rewrite app_nil_r. split_and!; [done..|]. by intros b [= ->]. Qed.

Lemma reads_yield ev : underway ev → reads (yield ev) (λ evs _, evs = [ev]).
Proof.
  intros Hev s x s' Hi [= <- <-]. split; [done|]. split; [done|]. exists [ev]. split_and!; [done|by constructor|done].
Qed.

Lemma reads_history : reads (on_memory (get_history read_env session_id None)) (λ evs _, evs = []).
Proof.
  intros s x s' Hi. unfold on_memory. destruct (get_history _ _ _ _) as [r w] eqn:Em. intros [= <- <-].
  destruct (call_law read_env session_id (CRead None) s.2
    (match r with Ok ms => Ok (without_session <$> ms) | Err x => Err x end) w Hnamed Hi) as (Hi' & applied & _ & Hv).
  { simpl. by rewrite Em. }
  split; [done|]. split. { intros x Hx. cbn [snd]. rewrite (Hv x Hx). by destruct (applied && _). }
  exists []. rewrite app_nil_r. by split_and!.
Qed.

Lemma reads_conversation : reads (conversation_history session_id) (λ evs _, evs = []).
Proof.
  unfold conversation_history, _legacy_only. eapply reads_bind; [apply reads_result|]. intros _ evs [-> _].
  eapply reads_bind; [apply reads_history|]. intros h evs ->. eapply reads_weaken; [apply reads_result|]. by intros evs a [-> _].
Qed.

Lemma reads_prompt route : reads (prompt_and_sources route query session_id) (λ evs _, evs = []).
Proof.
  unfold prompt_and_sources, direct_prompt, rag_prompt_and_sources, _legacy_only. case_bool_decide.
  - eapply reads_bind; [apply reads_result|]. intros _ evs [-> _].
    eapply reads_bind; [apply reads_result|]. intros docs evs [-> _].
    eapply reads_bind; [apply reads_result|]. intros ts evs [-> _].
    eapply reads_bind; [apply reads_conversation|]. intros h evs ->.
    eapply reads_weaken; [apply reads_ret|]. by intros evs a [-> _].
  - apply (reads_bind _ _ (λ evs _, evs = [])); [eapply reads_bind; [apply reads_conversation|]|].
    { intros h evs ->. eapply reads_weaken; [apply reads_ret|]. by intros evs a [-> _]. }
    intros p evs ->. eapply reads_weaken; [apply reads_ret|]. by intros evs a [-> _].
Qed.

Lemma reads_chunks ts : reads (yield_chunks ts) (λ evs _, evs = ChunkEvent <$> ts).
Proof.
  induction ts as [|t ts IH]; simpl.
  - eapply reads_weaken; [apply reads_ret|]. by intros evs a [-> _].
  - eapply reads_bind; [by apply reads_yield|]. intros _ evs ->. eapply reads_weaken; [apply IH|]. by intros evs a ->.
Qed.

(** The consumer was told the whole answer: after the metadata its chunks, of a stream that was complete. *)
Definition told (evs : list conversation_event) (answer : text) : Prop :=
  ∃ route role model sources chunks,
    evs = Metadata session_id route role model sources :: (ChunkEvent <$> chunks) ∧ answer = concat chunks ∧
    (route = "tool" ∨ ∃ prompt, cp_generate_stream provider prompt role = (chunks, Complete)).

Lemma reads_answer route : reads (answered_by route query session_id) told.
Proof.
  unfold answered_by. cbv zeta. eapply reads_bind; [apply reads_result|]. intros model evs [-> _].
  case_bool_decide as Hr.
  - eapply reads_bind; [by apply reads_yield|]. intros _ evs ->.
    eapply reads_bind; [by apply reads_yield|]. intros _ evs ->.
    eapply reads_weaken; [apply reads_ret|]. intros evs a [-> ->].
    eexists _, _, _, _, [_]. split; [reflexivity|]. split; [simpl; by rewrite app_nil_r|by left].
  - eapply reads_bind; [apply reads_prompt|]. intros [prompt sources] evs ->.
    eapply reads_bind; [by apply reads_yield|]. intros _ evs ->.
    unfold stream_answer. destruct (cp_generate_stream _ _ _) as [ts e] eqn:Es.
    eapply reads_bind; [apply reads_chunks|]. intros _ evs ->.
    eapply reads_weaken; [apply reads_result|]. intros evs a [-> Ha].
    destruct e; try done. injection Ha as <-. eexists _, _, _, _, ts. rewrite app_nil_r. split; [reflexivity|].
    split; [done|]. right. by exists prompt.
Qed.

(** [view] after the exchange was appended. *)
Definition stored (answer : text) (v : text → list json) (x : text) : list json :=
  if bool_decide (x = session_id) then effect history_limit (CAppend query answer t1 t2) (v x) else v x.

Lemma persist_law answer s r s' : inv s.2 → persist_exchange query answer session_id s = (r, s') →
  inv s'.2 ∧ s'.1 = s.1 ∧ (r = Ok tt → ∀ x, named x → view s'.2 x = stored answer (view s.2) x) ∧
  ((∀ x, named x → view s'.2 x = view s.2 x) ∨ ∀ x, named x → view s'.2 x = stored answer (view s.2) x) ∧
  r ≠ Err Closed ∧ r ≠ Err Open.
Proof.
  intros Hi. unfold persist_exchange, _legacy_only, of_result. rewrite bind_conv.
  destruct oidc; [intros [= <- <-]; split_and!; try done; by left|].
  unfold on_memory. destruct (append_exchange _ _ _ _ _ _ _) as [r' w] eqn:Em. intros [= <- <-].
  destruct (call_law append_env session_id (CAppend query answer t1 t2) s.2
    (match r' with Ok _ => Ok [] | Err x => Err x end) w Hnamed Hi) as (Hi' & applied & Ha & Hv).
  { simpl. rewrite Em. by destruct r'. }
  assert (∀ x, named x → view w x = if applied then stored answer (view s.2) x else view s.2 x) as Hx.
  { intros x Hx. rewrite (Hv x Hx). unfold stored. by destruct applied. }
  cbn [fst snd]. split_and!; try done.
  - intros Hok x Hn. rewrite (Hx x Hn). destruct r' as [u|]; [|done]. by destruct (Ha [] eq_refl) as [-> _].
  - destruct applied; [by right|by left].
  - destruct r' as [|[]]; done.
  - destruct r' as [|[]]; done.
Qed.

Definition unfinished (evs : list conversation_event) : Prop := ∀ answer, DoneEvent answer ∉ evs.

Lemma underway_unfinished evs : Forall underway evs → unfinished evs.
Proof. intros Hu answer Hin. rewrite Forall_forall in Hu. by specialize (Hu _ Hin). Qed.

(** The answer, before anything is stored. *)
Definition answer_of : conv text :=
  _ ← _legacy_only; route ← of_result (route_query query); answered_by route query session_id.

Lemma body_split s :
  conversation_body query session_id s =
  (answer ← answer_of; _ ← persist_exchange query answer session_id; yield (DoneEvent answer)) s.
Proof.
  unfold conversation_body, answer_of. rewrite !bind_conv. destruct (_legacy_only s) as [[u|e] s1]; [|done].
  rewrite !bind_conv. by destruct (of_result _ s1) as [[route|e] s2].
Qed.

Lemma reads_answer_of : reads answer_of told.
Proof.
  unfold answer_of, _legacy_only. eapply reads_bind; [apply reads_result|]. intros _ l [-> _].
  eapply reads_bind; [apply reads_result|]. intros route l [-> _]. apply reads_answer.
Qed.

Lemma unfinished_error evs m : Forall underway evs → unfinished (evs ++ [ErrorEvent m]).
Proof.
  intros Hu answer [Hin|Hin%list_elem_of_singleton]%elem_of_app; [by eapply underway_unfinished|done].
Qed.

(** A streamed conversation stores only complete answers, whatever the model, the memory, retrieval and the
    consumer do.  When the consumer was told that the answer is done, it was told all of its chunks
    before, in order, of a stream that ended completely, and exactly this exchange was appended to
    exactly this session.  Otherwise no such message was sent and, unless storing the complete answer
    itself failed, no session changed: when the model, retrieval or the memory fail the
    last event is an error, and when the consumer closed the stream nothing follows. *)
Theorem only_complete_answers_stored w r evs w' :
  inv w → stream_rag_response query session_id ([], w) = (r, (evs, w')) →
  inv w' ∧
  ((∃ before answer, evs = before ++ [DoneEvent answer] ∧ told before answer ∧ (r = Ok tt ∨ r = Err Closed) ∧
      ∀ x, named x → view w' x = stored answer (view w) x)
   ∨ (∃ before m answer, evs = before ++ [ErrorEvent m] ∧ told before answer ∧
        ((∀ x, named x → view w' x = view w x) ∨ ∀ x, named x → view w' x = stored answer (view w) x))
   ∨ (unfinished evs ∧ (∀ x, named x → view w' x = view w x) ∧
      (r = Err Closed ∨ r = Err Open ∨ ∃ before m, evs = before ++ [ErrorEvent m]))).
Proof.
  intros Hi. unfold stream_rag_response. rewrite body_split, bind_conv.
  destruct (answer_of ([], w)) as [[answer|e] [evs1 w1]] eqn:Ea;
    destruct (reads_answer_of ([], w) _ _ Hi Ea) as (Hi1 & Hv1 & evs2 & He & Hu & HQ); cbn [fst snd app] in *; subst evs2.
  - specialize (HQ answer eq_refl). rewrite bind_conv.
    destruct (persist_exchange query answer session_id (evs1, w1)) as [[[]|e] [evs2 w2]] eqn:Ep;
      destruct (persist_law answer (evs1, w1) _ _ Hi1 Ep) as (Hi2 & He2 & Hok & Heither & Hc & Ho); cbn [fst snd] in *; subst evs2.
    + assert (∀ x, named x → view w2 x = stored answer (view w) x) as Hst.
      { intros x Hx. rewrite (Hok eq_refl x Hx). unfold stored. by rewrite (Hv1 x Hx). }
      unfold yield. cbn [fst snd]. destruct (closes _); intros [= <- <- <-]; (split; [done|left]);
        exists evs1, answer; split_and!; auto.
    + assert ((∀ x, named x → view w2 x = view w x) ∨ ∀ x, named x → view w2 x = stored answer (view w) x) as Hst.
      { destruct Heither as [Hx|Hx]; [left|right]; intros x Hn; rewrite (Hx x Hn); [by apply Hv1|].
        unfold stored. by rewrite (Hv1 x Hn). }
      destruct e; cbn [handler_message]; try done; unfold yield; cbn [fst snd]; intros [= <- <- <-];
        (split; [done|right; left]); by eexists evs1, _, answer.
  - assert (unfinished evs1) as Huf by (by apply underway_unfinished).
    assert (∀ m, unfinished (evs1 ++ [ErrorEvent m])) as Hue by (intros m; by apply unfinished_error).
    destruct e; cbn [handler_message]; try unfold yield; cbn [fst snd]; intros [= <- <- <-];
      (split; [done|right; right]); (split; [done|split; [done|]]); eauto 6.
Qed.

End Conversation.

(** ** A concrete conversation *)

#[local] Instance plain_text : UnicodeData := {| str_lower := lower; is_word := ascii_alnum |}.

Definition delta (t : string) : json :=
  JObj [("choices", JArr [JObj [("delta", JObj [("content", JStr (cps t))])]])].

(** A server that streams two parts and the end; [{1}] and [{2}] stand for the JSON texts of the parts. *)
#[local] Instance streaming_server : PlainClient := {|
  plain_post _ _ := Ok {| pr_status := 200; pr_json := None; pr_stream :=
    {| ls_lines := [cps "data: {1}"; []; cps ": keep alive"; cps "data: {2}"; cps "data: [DONE]"]; ls_end := Some None |} |};
  loads t := if bool_decide (t = cps "{1}") then Ok (delta "Hel") else if bool_decide (t = cps "{2}") then Ok (delta "lo")
             else Err JSONDecodeError |}.

Definition sample_openai : plain_openai := {|
  po_url := cps "http://model/v1/chat/completions"; po_models := [("general", cps "m")]; po_parameters := [] |}.

Definition openai_conversation : conversation_provider := {|
  cp_model_id := role_model (po_models sample_openai); cp_generate_stream := openai_generate_stream sample_openai |}.

Definition converse (closes : nat → bool) : conv (W := memory_file) unit :=
  @stream_rag_response _ memory_file file_env (file_store 10) false 6 (λ _, []) openai_conversation (λ _, Ok "direct")
    (λ _, Err CVector) [] id quiet quiet (cps "t1") (cps "t2") closes (cps "hi") (cps "s").

Abbreviation conversed := (converse (λ _, false) ([], NoFile)).

Example converse_events : (conversed.1, conversed.2.1)
  = (Ok tt, [Metadata (cps "s") "direct" "general" (cps "m") []; ChunkEvent (cps "Hel"); ChunkEvent (cps "lo");
             DoneEvent (cps "Hello")]).
Proof. vm_compute. reflexivity. Qed.

(** The consumer leaves after the first part: nothing is stored. *)
Example converse_closed : converse (λ i, (i =? 1)%nat) ([], NoFile)
  = (Err Closed, ([Metadata (cps "s") "direct" "general" (cps "m") []; ChunkEvent (cps "Hel")], NoFile)).
Proof. vm_compute. reflexivity. Qed.

Lemma only_complete_answers_stored_witness : file_inv conversed.2.2 ∧ file_view conversed.2.2 (cps "s") ≠ [].
Proof.
  split; [|intros F; vm_compute in F; discriminate F].
  destruct conversed as [r [evs w']] eqn:Ec. unfold converse in Ec.
  pose proof (file_laws 10) as Hlaws.
  eapply only_complete_answers_stored in Ec as [Hi _]; [exact Hi|exact Hlaws|done|by left].
Defined.
