(* ===== verification/Identity.v ===== *)
(** * Verified identity

    [security/identity.py]: the settings of the token contract, the JWKS cache with its two
    clocks ([cache_seconds], [refresh_seconds]) and the verification of an access token.
    [jwt] is a parameter: the class [Jwt] has the three functions the code calls.  A claim set,
    a header and a key of the JWKS are the JSON objects they are. *)

From stdpp Require Import base tactics list strings option sets.
From Stdlib Require Import ZArith NArith QArith Lia.
From S2P Require Import Prelude Json Contracts JobModels ProviderAdmission Extraction Authority.

Local Open Scope Z_scope.

(** ** [OIDCSettings] *)

Inductive token_profile := oidc | entra_v2.
#[export] Instance token_profile_eq_dec : EqDecision token_profile.
Proof. solve_decision. Defined.

Record OIDCSettings := {
  o_profile : token_profile; o_tenant_id : option text; o_issuer : text; o_audience : text;
  o_jwks_url : text; o_tenant_claim : string; o_roles_claim : string; o_purpose_claim : string;
  o_purpose_value : text; o_role_mapping : list (text * list Action); o_service_roles : list text;
  o_cache_seconds : Z; o_refresh_seconds : Z; o_timeout_seconds : Q }.

(** The parts of [urllib.parse.urlsplit(url)] the validator reads. *)
Record url_parts := { u_scheme : text; u_hostname : option text; u_username : option text;
  u_password : option text; u_fragment : text }.

Definition sized (a b : Z) (t : text) : bool := (a <=? len t) && (len t <=? b).

Definition is_lower_hex (c : N) : bool :=
  ((48 <=? c) && (c <=? 57))%N || ((97 <=? c) && (c <=? 102))%N.

(** [str(UUID(t)) == t]: the canonical form of a UUID. *)
Definition canonical_uuid (t : text) : bool :=
  bool_decide (length t = 36%nat)
  && forallb (λ '(i, c), if bool_decide (i ∈ [8; 13; 18; 23]%nat) then (c =? 45)%N else is_lower_hex c)
       (imap pair t).

Definition falsy (o : option text) : bool := match o with None | Some [] => true | _ => false end.

(** [trusted_urls], the model validator. *)
Definition trusted_urls (urlsplit : text → url_parts) (s : OIDCSettings) : bool :=
  forallb (λ url, let p := urlsplit url in
    text_eqb (u_scheme p) (cps "https") && negb (falsy (u_hostname p)) && falsy (u_username p)
    && falsy (u_password p) && falsy (Some (u_fragment p))) [o_issuer s; o_jwks_url s]
  && bool_decide (NoDup [o_tenant_claim s; o_roles_claim s; o_purpose_claim s;
                         "sub"; "iss"; "aud"; "exp"; "nbf"])
  && (len (o_role_mapping s) <=? 32) && (len (o_service_roles s) <=? 32)
  && match o_profile s, o_tenant_id s with
     | entra_v2, None => false
     | entra_v2, Some t =>
         let authority := cps "https://login.microsoftonline.com/" ++ t in
         canonical_uuid t && canonical_uuid (o_audience s)
         && text_eqb (o_issuer s) (authority ++ cps "/v2.0")
         && text_eqb (o_jwks_url s) (authority ++ cps "/discovery/v2.0/keys")
         && bool_decide (o_tenant_claim s = "tid") && bool_decide (o_roles_claim s = "roles")
         && bool_decide (o_purpose_claim s = "token_use") && text_eqb (o_purpose_value s) (cps "access")
         && bool_decide (o_service_roles s = []) && bool_decide (o_role_mapping s = [])
     | oidc, Some _ => false
     | oidc, None => true
     end.

(** The field constraints; claim names match [[A-Za-z][A-Za-z0-9_]{0,63}]. *)
Definition is_letter (c : N) : bool :=
  ((65 <=? c) && (c <=? 90))%N || ((97 <=? c) && (c <=? 122))%N.

Definition claim_name (s : string) : bool :=
  match cps s with
  | c :: t => is_letter c && (len t <=? 63)
              && forallb (λ c, is_letter c || ((48 <=? c) && (c <=? 57))%N || (c =? 95)%N) t
  | [] => false
  end.

Definition valid_oidc (urlsplit : text → url_parts) (s : OIDCSettings) : bool :=
  sized 1 2048 (o_issuer s) && sized 1 512 (o_audience s) && sized 1 2048 (o_jwks_url s)
  && claim_name (o_tenant_claim s) && claim_name (o_roles_claim s) && claim_name (o_purpose_claim s)
  && sized 1 64 (o_purpose_value s)
  && (1 <=? o_cache_seconds s) && (o_cache_seconds s <=? 3600)
  && (1 <=? o_refresh_seconds s) && (o_refresh_seconds s <=? 300)
  && qlt 0 (o_timeout_seconds s) && Qle_bool (o_timeout_seconds s) 10
  && trusted_urls urlsplit s.

(** ** [_fetch]: the bounded download

    [chunks]: what [iter_bytes] yields, each with the time since the start. *)
Fixpoint _fetch (timeout : Q) (data : text) (chunks : list (text * Q)) : result security_exn text :=
  match chunks with
  | [] => Ok data
  | (chunk, elapsed) :: chunks' =>
      let data' := data ++ chunk in
      if (65536 <? len data') || qlt timeout elapsed then Err unavailable
      else _fetch timeout data' chunks'
  end.

(** ** The JWT library *)

Record claims_request := {
  cr_issuer : text; cr_audience : text; cr_required : list string; cr_strict_aud : bool }.

Abbreviation object := (list (string * json)).

(** [jwt.get_unverified_header], [jwt.decode] with [algorithms=['RS256']], and
    [PyJWK.from_dict(item, algorithm='RS256').key] with its [key_size]; [None] when they raise. *)
Class Jwt (K : Type) : Type := {
  get_unverified_header : text → option object;
  jwt_decode : text → K → claims_request → option object;
  jwk_from_dict : object → option (K * Z) }.

(** Exceptions of [_key]: a [SecurityError], or whatever the fetch or the library raised. *)
Inductive key_exn := KeyError (e : security_exn) | KeyRaw.

Section Keys.
Context `{Jwt K}.
Variable config : OIDCSettings.

(** One key of the JWKS. *)
Definition str_field (k : string) (item : object) : option text :=
  match field k item with Some (JStr t) => Some t | _ => None end.

Definition field_or (k : string) (item : object) (default_ : string) : bool :=
  match field k item with
  | None => true
  | Some (JStr t) => text_eqb t (cps default_)
  | Some _ => false
  end.

Definition sized_text (a b : Z) (o : option text) : bool :=
  match o with Some t => sized a b t | None => false end.

Definition issuer_template : text := cps "https://login.microsoftonline.com/{tenantid}/v2.0".

(** The checks of the loop body, [seen] being the identifiers before. *)
Definition check_jwk (seen : list text) (item : json) : result key_exn (text * K) :=
  let bad : result key_exn (text * K) := Err (KeyError unavailable) in
  match item with
  | JObj o =>
      match str_field "kid" o with
      | Some key_id =>
          if negb (sized 1 128 key_id) || bool_decide (key_id ∈ seen) then bad
          else if negb (bool_decide (str_field "kty" o = Some (cps "RSA")) && field_or "alg" o "RS256"
                        && field_or "use" o "sig"
                        && match field "key_ops" o with
                           | None => true
                           | Some (JArr [JStr t]) => text_eqb t (cps "verify")
                           | Some _ => false
                           end
                        && forallb (λ k, bool_decide (field k o = None)) ["d"; "p"; "q"; "jku"; "x5u"; "k"])
          then bad
          else if negb (sized_text 256 1400 (str_field "n" o) && sized_text 1 16 (str_field "e" o)) then bad
          else if bool_decide (o_profile config = entra_v2) && negb (bool_decide (field "issuer" o = None))
                  && negb (match str_field "issuer" o with
                           | Some i => text_eqb i (o_issuer config) || text_eqb i issuer_template
                           | None => false end)
          then bad
          else match jwk_from_dict o with
               | None => Err KeyRaw
               | Some (key, size) =>
                   if (size <? 2048) || (8192 <? size) then bad else Ok (key_id, key)
               end
      | None => bad
      end
  | _ => bad
  end.

Fixpoint check_jwks (keys : list (text * K)) (items : list json) : result key_exn (list (text * K)) :=
  match items with
  | [] => Ok keys
  | item :: items' =>
      match check_jwk keys.*1 item with
      | Ok k => check_jwks (keys ++ [k]) items'
      | Err e => Err e
      end
  end.

Definition parse_jwks (raw : json) : result key_exn (list (text * K)) :=
  match raw with
  | JObj o =>
      match field "keys" o with
      | Some (JArr items) =>
          if (1 <=? len items) && (len items <=? 32) then check_jwks [] items
          else Err (KeyError unavailable)
      | _ => Err (KeyError unavailable)
      end
  | _ => Err (KeyError unavailable)
  end.

(** ** The cache *)

Record cache := { c_keys : list (text * K); c_loaded : option Q; c_attempted : option Q }.

Definition empty_cache : cache := {| c_keys := []; c_loaded := None; c_attempted := None |}.

Definition key_of_kid (kid : text) (st : cache) : option K :=
  snd <$> find_row (λ kv, text_eqb kv.1 kid) (c_keys st).

(** [x is None or now - x >= seconds]. *)
Definition elapsed (x : option Q) (now : Q) (seconds : Z) : bool :=
  match x with None => true | Some t => Qle_bool (inject_Z seconds) (now - t) end.

(** [fetched]: what [self.fetch()] returns, or [None] when it raises. *)
Definition refresh (now : Q) (fetched : option json) (st : cache) : result key_exn unit * cache :=
  let tried := {| c_keys := c_keys st; c_loaded := c_loaded st; c_attempted := Some now |} in
  match fetched with
  | None => (Err KeyRaw, tried)
  | Some raw =>
      match parse_jwks raw with
      | Err e => (Err e, tried)
      | Ok keys => (Ok tt, {| c_keys := keys; c_loaded := Some now; c_attempted := Some now |})
      end
  end.

Definition _key (kid : text) (now : Q) (fetched : option json) (st : cache) : result key_exn K * cache :=
  let expired := elapsed (c_loaded st) now (o_cache_seconds config) in
  let '(r, st') :=
    if expired || bool_decide (key_of_kid kid st = None) then
      let '(r, st1) := if elapsed (c_attempted st) now (o_refresh_seconds config)
                       then refresh now fetched st else (Ok tt, st) in
      match r with
      | Err e => (Err e, st1)
      | Ok _ => (if elapsed (c_loaded st1) now (o_cache_seconds config)
                 then Err (KeyError unavailable) else Ok tt, st1)
      end
    else (Ok tt, st) in
  match r with
  | Err e => (Err e, st')
  | Ok _ => (match key_of_kid kid st' with
             | Some k => Ok k
             | None => Err (KeyError (SecurityError "authentication_required"))
             end, st')
  end.

(** ** [verify] *)

Definition keys_within (allowed : list string) (o : object) : bool :=
  forallb (λ kv, bool_decide (kv.1 ∈ allowed)) o.

(** The unverified header names the algorithm, the type and the key, and nothing else. *)
Definition header_kid (o : object) : option text :=
  if bool_decide (str_field "alg" o = Some (cps "RS256"))
     && match str_field "typ" o with
        | Some t => text_eqb t (cps "JWT") || text_eqb t (cps "at+jwt")
        | None => false end
     && keys_within ["alg"; "kid"; "typ"] o && sized_text 1 128 (str_field "kid" o)
  then str_field "kid" o else None.

Definition int_field (k : string) (o : object) : option Z :=
  match field k o with Some (JInt z) => Some z | _ => None end.

Definition required_claims : list string :=
  ["iss"; "aud"; "sub"; "exp"; "nbf"; o_tenant_claim config]
  ++ match o_profile config with
     | entra_v2 => ["iat"; "ver"; "scp"; "roles"]
     | oidc => [o_purpose_claim config]
     end.

(** [scp.split(' ')] *)
Definition scope_granted (scp : text) : bool := bool_decide (cps "access_as_user" ∈ split_on 32 scp).

Definition entra_claims (claims : object) (exp : Z) : bool :=
  bool_decide (str_field "ver" claims = Some (cps "2.0"))
  && match str_field "tid" claims, o_tenant_id config with
     | Some t, Some t' => text_eqb t t'
     | _, _ => false end
  && match int_field "iat" claims with Some iat => iat <? exp | None => false end
  && match str_field "scp" claims with Some scp => scope_granted scp | None => false end
  && field_or "idtyp" claims "user" && field_or "token_use" claims "access".

Fixpoint role_list (l : list json) : option (list text) :=
  match l with
  | [] => Some []
  | JStr r :: l' => if len r <=? 128 then rs ← role_list l'; Some (r :: rs) else None
  | _ => None
  end.

(** [claims.get(c.roles_claim, [])], checked. *)
Definition roles_of (claims : object) : option (list text) :=
  match field (o_roles_claim config) claims with
  | None => Some []
  | Some (JArr l) => if len l <=? 32 then role_list l else None
  | Some _ => None
  end.

(** [c.role_mapping.get(r, ())] *)
Definition mapped (r : text) : list Action :=
  default [] (snd <$> find_row (λ kv, text_eqb kv.1 r) (o_role_mapping config)).

Definition operator_role : text := cps "PolyMind.L1Operator".

Context `{Runtime}.

(** The principal of a decoded claim set; [wall]: [time.time()] in [Principal]. *)
Definition principal_of (claims : object) (wall : Q) : option Principal :=
  exp ← int_field "exp" claims;
  nbf ← int_field "nbf" claims;
  if negb (nbf <? exp) then None
  else if negb (match o_profile config with
                | entra_v2 => entra_claims claims exp
                | oidc => bool_decide (str_field (o_purpose_claim config) claims = Some (o_purpose_value config))
                end) then None
  else
    roles ← roles_of claims;
    permissions ←
      match o_profile config with
      | oidc => Some (roles ≫= mapped)
      | entra_v2 =>
          if negb (bool_decide (roles = [])) && forallb (text_eqb operator_role) roles
          then Some [PUBLICATION_MANAGE] else None
      end;
    sub ← str_field "sub" claims;
    ten ← str_field (o_tenant_claim config) claims;
    match make_principal (o_issuer config) sub ten permissions
            (if existsb (λ r, bool_decide (r ∈ o_service_roles config)) roles then service else user)
            exp wall with
    | Ok p => Some p
    | Err _ => None
    end.

Definition decode_request : claims_request := {|
  cr_issuer := o_issuer config; cr_audience := o_audience config; cr_required := required_claims;
  cr_strict_aud := bool_decide (o_profile config = entra_v2) |}.

(** Every exception becomes [authentication_required]. *)
Definition verify (access_token : text) (now wall : Q) (fetched : option json) (st : cache)
    : result security_exn Principal * cache :=
  let refused : result security_exn Principal := Err (SecurityError "authentication_required") in
  if negb (sized 1 16384 access_token) then (refused, st)
  else
    match get_unverified_header access_token ≫= header_kid with
    | None => (refused, st)
    | Some kid =>
        let '(k, st') := _key kid now fetched st in
        match k with
        | Err _ => (refused, st')
        | Ok key =>
            match jwt_decode access_token key decode_request ≫= λ claims, principal_of claims wall with
            | Some p => (Ok p, st')
            | None => (refused, st')
            end
        end
    end.

(** The key of [next(iter(self._keys), '__readiness__')]; its failure is ignored; [now2] is
    the second reading of the clock. *)
Definition verifier_ready (now now2 : Q) (fetched : option json) (st : cache) : bool * cache :=
  let kid := match c_keys st with (k, _) :: _ => k | [] => cps "__readiness__" end in
  let '(_, st') := _key kid now fetched st in
  (negb (bool_decide (length (c_keys st') = 0%nat))
   && negb (elapsed (c_loaded st') now2 (o_cache_seconds config)), st').

End Keys.
