(* ===== verification/IdentityTheorems.v ===== *)
(** * What a verified identity rests on

    The log of the fetches of the JWKS is a ghost of the cache: from it follow the rate of
    the fetches and the age of every key a token is verified with. *)

From stdpp Require Import base tactics list strings option sets.
From Stdlib Require Import ZArith NArith QArith Lia.
From Stdlib Require Import Lqa.
From S2P Require Import Prelude Json Contracts JobModels ProviderAdmission Extraction Authority Identity.
From S2P Require Import Sample.

Local Open Scope Z_scope.

(** ** What [field] finds *)

Lemma find_kid {K} (kid : text) (l : list (text * K)) k :
  snd <$> find_row (λ kv, text_eqb kv.1 kid) l = Some k → (kid, k) ∈ l.
Proof.
  destruct (find_row _ l) as [[k' v]|] eqn:E; [|done]. intros [= <-].
  apply find_row_Some in E as [Hin E]. apply bool_decide_eq_true in E. simpl in *. by subst.
Qed.

Lemma not_elapsed x now s : elapsed x now s = false →
  ∃ t, x = Some t ∧ (now - t < inject_Z s)%Q.
Proof.
  unfold elapsed. destruct x as [t|]; [|done]. intros E. exists t. split; [done|].
  apply Qnot_le_lt. intros H. apply Qle_bool_iff in H. congruence.
Qed.

Lemma elapsed_Some t now s : elapsed (Some t) now s = true ↔ (inject_Z s <= now - t)%Q.
Proof. apply Qle_bool_iff. Qed.

Section Identity.
Context `{Jwt K} `{Runtime}.
Variable config : OIDCSettings.

(** ** Keys *)

(** A key of the fetched set: an RSA public key of an accepted size. *)
Definition trusted_key (raw : json) (kid : text) (key : K) : Prop :=
  ∃ r items o size, raw = JObj r ∧ field "keys" r = Some (JArr items) ∧ 1 ≤ len items ≤ 32 ∧
    JObj o ∈ items ∧ str_field "kid" o = Some kid ∧ 1 ≤ len kid ≤ 128 ∧
    str_field "kty" o = Some (cps "RSA") ∧
    (∀ k, k ∈ ["d"; "p"; "q"; "jku"; "x5u"; "k"] → field k o = None) ∧
    jwk_from_dict o = Some (key, size) ∧ 2048 ≤ size ≤ 8192.

Definition jwk_ok (item : json) (kid : text) (key : K) : Prop :=
  ∃ o size, item = JObj o ∧ str_field "kid" o = Some kid ∧ 1 ≤ len kid ≤ 128 ∧
    str_field "kty" o = Some (cps "RSA") ∧
    (∀ k, k ∈ ["d"; "p"; "q"; "jku"; "x5u"; "k"] → field k o = None) ∧
    jwk_from_dict o = Some (key, size) ∧ 2048 ≤ size ≤ 8192.

Lemma check_jwk_Ok seen item kid key :
  check_jwk config seen item = Ok (kid, key) → jwk_ok item kid key ∧ kid ∉ seen.
Proof.
  unfold check_jwk. destruct item as [| | | | | |o]; try done.
  destruct (str_field "kid" o) as [i|] eqn:Ei; [|done].
  destruct (negb (sized 1 128 i) || _) eqn:E1; [done|].
  apply orb_false_iff in E1 as [E1%negb_false_iff E1'%bool_decide_eq_false].
  destruct (negb (_ && _ && _ && _ && _)) eqn:E2; [done|].
  apply negb_false_iff in E2. rewrite !andb_true_iff in E2. destruct E2 as [[[[E2 _] _] _] E3].
  destruct (negb (_ && _)); [done|]. destruct (_ && _ && _); [done|].
  destruct (jwk_from_dict o) as [[k size]|] eqn:Ej; [|done].
  destruct (_ || _) eqn:E4; [done|]. intros [= <- <-]. split; [|done].
  exists o, size. unfold sized in E1. split_and!; try done; try lia.
  - by apply bool_decide_eq_true in E2.
  - intros k' Hk'. rewrite forallb_elem in E3. specialize (E3 k' Hk'). by apply bool_decide_eq_true in E3.
Qed.

Lemma check_jwks_Ok items keys keys' :
  check_jwks config keys items = Ok keys' → NoDup keys.*1 →
  NoDup keys'.*1 ∧ ∀ kid key, (kid, key) ∈ keys' →
    (kid, key) ∈ keys ∨ ∃ item, item ∈ items ∧ jwk_ok item kid key.
Proof.
  revert keys. induction items as [|item items IH]; intros keys; simpl.
  { intros [= <-] Hnd. auto. }
  destruct (check_jwk config keys.*1 item) as [[i k]|] eqn:E; [|done].
  intros Hc Hnd. apply check_jwk_Ok in E as [Hok Hnew].
  apply IH in Hc as [Hnd' Hin].
  - split; [done|]. intros kid key Hk. destruct (Hin kid key Hk) as [[Ho|Hn]%elem_of_app|(x & Hx & ?)].
    + by left.
    + apply list_elem_of_singleton in Hn as [= -> ->]. right. exists item. set_solver.
    + right. exists x. set_solver.
  - rewrite fmap_app. apply NoDup_app. split_and!; [done| |apply NoDup_singleton].
    intros x Hx Hx'. apply list_elem_of_singleton in Hx' as ->. done.
Qed.

Lemma parse_jwks_trusted raw keys :
  parse_jwks config raw = Ok keys →
  NoDup keys.*1 ∧ ∀ kid key, (kid, key) ∈ keys → trusted_key raw kid key.
Proof.
  unfold parse_jwks. destruct raw as [| | | | | |r]; try done.
  destruct (field "keys" r) as [[| | | | |items|]|] eqn:Er; try done.
  destruct (_ && _) eqn:El; [|done]. intros E. apply check_jwks_Ok in E as [Hnd Hk]; [|by constructor].
  split; [done|]. intros kid key Hin. destruct (Hk kid key Hin) as [Ho|(x & Hx & o & size & -> & Ho)].
  - by apply not_elem_of_nil in Ho.
  - exists r, items, o, size. split_and!; try done; try lia; apply Ho.
Qed.

(** ** The log of fetches *)

Definition log := list (Q * option json).

Definition fetches (kid : text) (now : Q) (st : @cache K) : bool :=
  (elapsed (c_loaded st) now (o_cache_seconds config) || bool_decide (key_of_kid kid st = None))
  && elapsed (c_attempted st) now (o_refresh_seconds config).

(** Consecutive fetches are at least [refresh_seconds] apart. *)
Fixpoint spaced (l : log) : Prop :=
  match l with
  | (t, _) :: (((t', _) :: _) as l') => (inject_Z (o_refresh_seconds config) <= t' - t)%Q ∧ spaced l'
  | _ => True
  end.

Record cache_ok (l : log) (st : @cache K) : Prop := {
  ca_attempted : c_attempted st = fst <$> last l;
  ca_loaded : match c_loaded st with
              | Some t => ∃ raw, (t, Some raw) ∈ l ∧ parse_jwks config raw = Ok (c_keys st)
              | None => c_keys st = [] end;
  ca_spaced : spaced l }.

Lemma spaced_snoc l t x :
  spaced l → (∀ t0 y, last l = Some (t0, y) → inject_Z (o_refresh_seconds config) <= t - t0)%Q →
  spaced (l ++ [(t, x)]).
Proof.
  induction l as [|[t0 y] l IH]; intros Hs Hl; [done|]. destruct l as [|[t1 y1] l].
  - split; [|done]. by eapply Hl.
  - destruct Hs as [Hs1 Hs2]. split; [done|]. apply IH; [done|]. intros t2 y2 E. by eapply Hl.
Qed.

(** One use of the cache. *)
Lemma key_step kid now fetched st r st' l :
  cache_ok l st → _key config kid now fetched st = (r, st') →
  let l' := l ++ (if fetches kid now st then [(now, fetched)] else []) in
  cache_ok l' st' ∧
  ∀ key, r = Ok key → ∃ t raw, (t, Some raw) ∈ l' ∧
    (now - t < inject_Z (o_cache_seconds config))%Q ∧ trusted_key raw kid key.
Proof.
  intros [H1 H2 H3] E l'.
  assert (∀ st1 key, cache_ok l' st1 → elapsed (c_loaded st1) now (o_cache_seconds config) = false →
    key_of_kid kid st1 = Some key → ∃ t raw, (t, Some raw) ∈ l' ∧
    (now - t < inject_Z (o_cache_seconds config))%Q ∧ trusted_key raw kid key) as Huse.
  { intros st1 key [G1 G2 G3] Ee Ek. apply not_elapsed in Ee as (t & Et & Hlt). rewrite Et in G2.
    destruct G2 as (raw & Hin & Hp). exists t, raw. split_and!; [done..|].
    apply parse_jwks_trusted in Hp as [_ Hp]. by apply Hp, find_kid. }
  unfold _key in E. unfold fetches in l'.
  destruct (elapsed (c_loaded st) now (o_cache_seconds config) || bool_decide (key_of_kid kid st = None))
    eqn:Eo; cycle 1.
  { simpl in l'. subst l'. rewrite app_nil_r in *. injection E as <- <-. split; [done|].
    intros key Hk. apply orb_false_iff in Eo as [Eo _]. apply (Huse st); [done|done|].
    by destruct (key_of_kid kid st); [injection Hk as ->|]. }
  destruct (elapsed (c_attempted st) now (o_refresh_seconds config)) eqn:Ea; simpl in l'; cycle 1.
  { subst l'. rewrite app_nil_r in *.
    destruct (elapsed (c_loaded st) now (o_cache_seconds config)) eqn:Ee; injection E as <- <-;
      (split; [done|]); [done|]. intros key Hk. apply (Huse st); [done|done|].
    by destruct (key_of_kid kid st); [injection Hk as ->|]. }
  assert (spaced l') as Hsp.
  { apply spaced_snoc; [done|]. intros t0 y El. rewrite H1, El in Ea. by apply elapsed_Some in Ea. }
  assert (cache_ok l' {| c_keys := c_keys st; c_loaded := c_loaded st; c_attempted := Some now |}) as Ht.
  { split; [by unfold l'; rewrite last_snoc| |done]. cbn [c_loaded c_keys]. destruct (c_loaded st); [|done].
    destruct H2 as (raw & Hin & Hp). exists raw. split; [|done]. unfold l'. set_solver. }
  unfold refresh in E. destruct fetched as [raw|]; [|by injection E as <- <-].
  destruct (parse_jwks config raw) as [keys|x] eqn:Ep; [|by injection E as <- <-].
  cbn [c_loaded] in E.
  assert (cache_ok l' {| c_keys := keys; c_loaded := Some now; c_attempted := Some now |}) as Hn.
  { split; [by unfold l'; rewrite last_snoc| |done]. exists raw. split; [|done]. unfold l'. set_solver. }
  destruct (elapsed (Some now) now (o_cache_seconds config)) eqn:Ee; injection E as <- <-;
    (split; [done|]); [done|]. intros key Hk. eapply Huse; [done|done|].
  destruct (key_of_kid kid {| c_keys := keys; c_loaded := Some now; c_attempted := Some now |});
    [by injection Hk as ->|done].
Qed.

(** ** Histories *)

Inductive token_event :=
| Verify (access_token : text) (now wall : Q) (fetched : option json)
| Ready (now now2 : Q) (fetched : option json).

Definition step (st : @cache K) (ev : token_event) : @cache K :=
  match ev with
  | Verify t now wall f => (verify config t now wall f st).2
  | Ready now now2 f => (verifier_ready config now now2 f st).2
  end.

(** The identifier [_key] is called with, if it is called. *)
Definition asked (st : @cache K) (ev : token_event) : option (text * Q * option json) :=
  match ev with
  | Verify t now _ f =>
      if negb (sized 1 16384 t) then None
      else kid ← get_unverified_header t ≫= header_kid; Some (kid, now, f)
  | Ready now _ f =>
      Some (match c_keys st with (k, _) :: _ => k | [] => cps "__readiness__" end, now, f)
  end.

Definition fetched_by (st : @cache K) (ev : token_event) : log :=
  match asked st ev with
  | Some (kid, now, f) => if fetches kid now st then [(now, f)] else []
  | None => []
  end.

Definition history (evs : list token_event) : log * @cache K :=
  foldl (λ s ev, (s.1 ++ fetched_by s.2 ev, step s.2 ev)) ([], empty_cache) evs.

Lemma step_key st ev : step st ev =
  match asked st ev with Some (kid, now, f) => (_key config kid now f st).2 | None => st end.
Proof.
  destruct ev as [t now wall f|now now2 f]; simpl.
  - unfold verify. destruct (negb _); [done|].
    destruct (get_unverified_header t ≫= header_kid) as [kid|]; [|done]. simpl.
    destruct (_key config kid now f st) as [[key|x] st']; [|done]. by destruct (_ ≫= _).
  - unfold verifier_ready. by destruct (_key config _ now f st) as [x st'].
Qed.

Lemma step_ok l st ev : cache_ok l st → cache_ok (l ++ fetched_by st ev) (step st ev).
Proof.
  intros Hok. rewrite step_key. unfold fetched_by. destruct (asked st ev) as [[[kid now] f]|].
  - destruct (_key config kid now f st) as [r st'] eqn:E. by eapply (key_step kid) in E as [? _].
  - by rewrite app_nil_r.
Qed.

Lemma history_ok evs : cache_ok (history evs).1 (history evs).2.
Proof.
  unfold history. induction evs as [|ev evs IH] using rev_ind; [done|].
  rewrite foldl_app. simpl. by apply step_ok.
Qed.

(** Whatever tokens arrive and whatever the key endpoint answers, the key endpoint is
    asked at most once in [refresh_seconds]: the j-th fetch after a fetch is at least
    [j * refresh_seconds] later. *)
Theorem fetch_rate_bounded evs i j t t' x x' :
  (history evs).1 !! i = Some (t, x) → (history evs).1 !! (i + j)%nat = Some (t', x') →
  (inject_Z (Z.of_nat j * o_refresh_seconds config) <= t' - t)%Q.
Proof.
  destruct (history_ok evs) as [_ _ Hs]. generalize dependent (history evs).1. intros l.
  revert t t' x x' j. revert i. induction l as [|[t0 x0] l IH]; intros i t t' x x' j Hs Hi Hj; [done|].
  destruct i as [|i].
  - injection Hi as -> ->. destruct j as [|j].
    { injection Hj as -> ->. rewrite Z.mul_0_l. unfold inject_Z. lra. }
    destruct l as [|[t1 x1] l]; [done|]. destruct Hs as [Hs1 Hs2].
    specialize (IH 0%nat t1 t' x1 x' j Hs2 eq_refl Hj).
    assert (Z.of_nat (S j) * o_refresh_seconds config
      = Z.of_nat j * o_refresh_seconds config + o_refresh_seconds config) as -> by lia.
    rewrite inject_Z_plus. lra.
  - apply (IH i t t' x x' j); [|done|done]. by destruct l as [|[t1 x1] l]; [|destruct Hs].
Qed.

(** ** Tokens *)

Lemma principal_of_Some claims wall p :
  principal_of config claims wall = Some p →
  issuer p = o_issuer config ∧
  str_field "sub" claims = Some (subject p) ∧
  str_field (o_tenant_claim config) claims = Some (tenant_identity p) ∧
  p_scope p = principal_scope (issuer p) (subject p) (tenant_identity p) ∧
  int_field "exp" claims = Some (expires p) ∧ (wall < inject_Z (expires p))%Q ∧
  ∃ roles, roles_of config claims = Some roles ∧
    match o_profile config with
    | oidc => str_field (o_purpose_claim config) claims = Some (o_purpose_value config) ∧
        ∀ a, a ∈ permissions p ↔ ∃ r, r ∈ roles ∧ a ∈ mapped config r
    | entra_v2 => entra_claims config claims (expires p) = true ∧
        roles ≠ [] ∧ (∀ r, r ∈ roles → r = operator_role) ∧ permissions p = [PUBLICATION_MANAGE]
    end.
Proof.
  unfold principal_of. intros E.
  apply bind_Some in E as (exp & Hexp & E). apply bind_Some in E as (nbf & Hnbf & E).
  destruct (negb (nbf <? exp)); [done|]. destruct (negb (match o_profile config with _ => _ end)) eqn:Ep; [done|].
  apply negb_false_iff in Ep. apply bind_Some in E as (roles & Hr & E).
  apply bind_Some in E as (perms & Hp & E). apply bind_Some in E as (sub & Hs & E).
  apply bind_Some in E as (ten & Ht & E).
  destruct (make_principal _ _ _ _ _ _ _) as [q|] eqn:Em; [|done]. injection E as ->.
  unfold make_principal in Em. destruct (_ && qlt _ _) eqn:Ew; [|done]. injection Em as <-. simpl.
  rewrite !andb_true_iff in Ew. destruct Ew as [_ Ew]. apply qlt_iff in Ew.
  split_and!; try done. exists roles. split; [done|]. destruct (o_profile config).
  - injection Hp as <-. split; [by apply bool_decide_eq_true in Ep|].
    intros a. rewrite list_elem_of_bind. naive_solver.
  - destruct (negb _ && _) eqn:El; [|done]. injection Hp as <-.
    apply andb_true_iff in El as [El1%negb_true_iff El2].
    apply bool_decide_eq_false in El1. split; [exact Ep|]. split; [exact El1|].
    split; [|reflexivity]. intros r Hr'. rewrite forallb_elem in El2. specialize (El2 r Hr').
    apply bool_decide_eq_true in El2. done.
Qed.

(** C32: After any history, a token gives a principal only if it decodes, for the configured
    issuer and audience, under an RSA key of a JWKS fetched less than [cache_seconds] before;
    the principal's identity, scope, expiry and permissions are those of its claims. *)
Theorem principals_verified evs tok now wall fetched p :
  (verify config tok now wall fetched (history evs).2).1 = Ok p →
  ∃ kid key t raw claims,
    (get_unverified_header tok ≫= header_kid) = Some kid ∧
    (t, Some raw) ∈ (history (evs ++ [Verify tok now wall fetched])).1 ∧
    (now - t < inject_Z (o_cache_seconds config))%Q ∧ trusted_key raw kid key ∧
    jwt_decode tok key (decode_request config) = Some claims ∧
    principal_of config claims wall = Some p ∧
    p_scope p = principal_scope (o_issuer config) (subject p) (tenant_identity p) ∧
    str_field "sub" claims = Some (subject p) ∧
    str_field (o_tenant_claim config) claims = Some (tenant_identity p) ∧
    int_field "exp" claims = Some (expires p) ∧ (wall < inject_Z (expires p))%Q ∧
    (o_profile config = entra_v2 → permissions p = [PUBLICATION_MANAGE]) ∧
    (o_profile config = oidc → ∀ a, a ∈ permissions p ↔
       ∃ roles r, roles_of config claims = Some roles ∧ r ∈ roles ∧ a ∈ mapped config r).
Proof.
  intros E. assert ((history (evs ++ [Verify tok now wall fetched])).1
    = (history evs).1 ++ fetched_by (history evs).2 (Verify tok now wall fetched)) as Hl.
  { unfold history. by rewrite foldl_app. }
  rewrite Hl. clear Hl. pose proof (history_ok evs) as Hok.
  generalize dependent (history evs). intros [l st]. cbn [fst snd]. intros E Hok.
  unfold verify in E. unfold fetched_by, asked. destruct (negb _); [done|].
  destruct (get_unverified_header tok ≫= header_kid) as [kid|]; [|done]. simpl.
  destruct (_key config kid now fetched st) as [r st'] eqn:Ek.
  apply (key_step _ _ _ _ _ _ l) in Ek as [_ Hk]; [|done].
  destruct r as [key|]; [|done]. destruct (Hk key eq_refl) as (t & raw & Hin & Hlt & Ht).
  destruct (jwt_decode tok key (decode_request config)) as [claims|] eqn:Ed; [|done].
  cbn [mbind option_bind] in E. destruct (principal_of config claims wall) as [q|] eqn:Ep; [|done].
  injection E as ->. exists kid, key, t, raw, claims.
  pose proof (principal_of_Some _ _ _ Ep) as (P1 & P2 & P3 & P4 & P5 & P6 & roles & P7 & P8).
  rewrite P1 in P4. split_and!; try done.
  - intros Ee. rewrite Ee in P8. apply P8.
  - intros Eo a. rewrite Eo in P8. destruct P8 as [_ P8]. rewrite P8. rewrite P7. naive_solver.
Qed.

End Identity.

(** ** A concrete verifier *)

Definition sample_oidc : OIDCSettings := {|
  o_profile := oidc; o_tenant_id := None; o_issuer := cps "https://issuer"; o_audience := cps "api";
  o_jwks_url := cps "https://issuer/keys"; o_tenant_claim := "tid"; o_roles_claim := "roles";
  o_purpose_claim := "token_use"; o_purpose_value := cps "access";
  o_role_mapping := [(cps "ops", [PUBLICATION_MANAGE; TENANT_ADMIN])]; o_service_roles := [];
  o_cache_seconds := 300; o_refresh_seconds := 30; o_timeout_seconds := 3 |}.

Definition sample_claims : object :=
  [("iss", JStr (cps "https://issuer")); ("aud", JStr (cps "api")); ("sub", JStr (cps "carol"));
   ("tid", JStr (cps "t")); ("exp", JInt 1000); ("nbf", JInt 10); ("token_use", JStr (cps "access"));
   ("roles", JArr [JStr (cps "ops")])].

(** A library whose only token is signed by the key with the modulus below. *)
#[export] Instance sample_jwt : Jwt text := {|
  get_unverified_header t :=
    Some [("alg", JStr (cps "RS256")); ("typ", JStr (cps "JWT")); ("kid", JStr (cps "k1"))];
  jwt_decode t key req :=
    if text_eqb t (cps "token") && text_eqb key (repeat 65%N 342)
       && text_eqb (cr_issuer req) (cps "https://issuer") && text_eqb (cr_audience req) (cps "api")
    then Some sample_claims else None;
  jwk_from_dict o := (λ n, (n, 2048)) <$> str_field "n" o |}.

Definition sample_jwks : json := JObj [("keys", JArr [JObj
  [("kid", JStr (cps "k1")); ("kty", JStr (cps "RSA")); ("n", JStr (repeat 65%N 342));
   ("e", JStr (cps "AQAB"))]])].

(** The endpoint fails, is not asked again sized 30 seconds, then answers. *)
Definition sample_events : list token_event :=
  [Ready 0%Q 0%Q None; Verify (cps "token") 10%Q 100%Q (Some sample_jwks);
   Verify (cps "token") 31%Q 100%Q (Some sample_jwks)].

Lemma fetch_rate_bounded_witness : (inject_Z (1 * 30) <= 31 - 0)%Q.
Proof.
  apply (@fetch_rate_bounded text sample_jwt sample_runtime sample_oidc sample_events 0 1 0%Q 31%Q
    None (Some sample_jwks)); vm_compute; reflexivity.
Defined.

Definition carol : Principal := {|
  issuer := cps "https://issuer"; subject := cps "carol"; tenant_identity := cps "t";
  p_scope := @principal_scope sample_runtime (cps "https://issuer") (cps "carol") (cps "t");
  permissions := [PUBLICATION_MANAGE; TENANT_ADMIN]; p_kind := user; expires := 1000 |}.

Lemma principals_verified_witness : ∃ t raw,
  (t, Some raw) ∈ (@history text sample_jwt sample_runtime sample_oidc
     (sample_events ++ [Verify (cps "token") 200%Q 900%Q None])).1
  ∧ (200 - t < 300)%Q ∧ (900 < inject_Z 1000)%Q.
Proof.
  destruct (@principals_verified text sample_jwt sample_runtime sample_oidc sample_events
    (cps "token") 200%Q 900%Q None carol)
    as (kid & key & t & raw & claims & _ & Hin & Hlt & _ & _ & _ & _ & _ & _ & _ & Hw & _);
    [vm_compute; reflexivity|].
  exists t, raw. split; [exact Hin|]. split; [exact Hlt|exact Hw].
Defined.
