(* ===== verification/Gateway.v ===== *)
(** * The application edge

    [api/security.py]: the middleware in front of every endpoint.  It authenticates a request before
    the application sees it, bounds the body that is read, and hands every part of the answer to
    the client while the authority holds the caller's snapshot.  The application behind it is any
    program that receives, sends, raises, catches and replaces the snapshot; Starlette's
    [JSONResponse] is a parameter.  Between any two steps other requests verify tokens and
    change the authority; the transport and the database may fail at every use. *)

From Stdlib Require Import ZArith NArith QArith Lia.
From stdpp Require Import base tactics list strings option sets.
From S2P Require Import Prelude Json Contracts JobModels JobLedger Sample Authority AuthorityTheorems Storage Extraction Identity IdentityTheorems.

Local Open Scope Z_scope.

(** ** Requests *)

Inductive auth_mode := disabled | static_bearer | oidc_jwt.
#[export] Instance auth_mode_eq_dec : EqDecision auth_mode.
Proof. solve_decision. Defined.

Record edge_settings := { authentication_mode : auth_mode; api_auth_token : text; max_request_bytes : Z }.

(** The ASGI scope; header names and values are bytes. *)
Record request_scope := {
  sc_http : bool; sc_headers : list (text * text); sc_path : text; sc_method : string }.

Definition PROTECTED_EXACT_PATHS : list string := ["/query"; "/query/stream"; "/documents/analyze"].

(** [str.startswith] *)
Definition prefixed (s : string) (t : text) : bool := bool_decide (take (length (cps s)) t = cps s).

Definition endpoint_class (path : text) : option string :=
  if existsb (λ p, bool_decide (path = cps p)) PROTECTED_EXACT_PATHS
  then Some (if prefixed "/documents/" path then "document" else "query")
  else if prefixed "/memory/" path then Some "memory"
  else if prefixed "/documents/" path then Some "document"
  else if prefixed "/jobs/" path then Some "job"
  else if bool_decide (path = cps "/usage") || prefixed "/usage/" path then Some "usage"
  else None.

(** [bytes.lower], and [str.lower] of text decoded as Latin-1. *)
Definition lower_byte (c : N) : N := if (65 <=? c)%N && (c <=? 90)%N then (c + 32)%N else c.
Definition lower_latin1 (c : N) : N :=
  if ((65 <=? c) && (c <=? 90) || (192 <=? c) && (c <=? 222) && negb (c =? 215))%N then (c + 32)%N else c.

(** [headers.get(name)]: of equal names the last value counts. *)
Definition header (name : string) (sc : request_scope) : option text :=
  foldl (λ acc kv, if bool_decide (lower_byte <$> kv.1 = cps name) then Some kv.2 else acc) None (sc_headers sc).

Definition header_values (name : string) (sc : request_scope) : list text :=
  snd <$> select (λ kv, bool_decide (lower_byte <$> kv.1 = cps name)) (sc_headers sc).

(** [t.partition(' ')]: before, whether there is a space, after. *)
Fixpoint partition_space (t : text) : text * bool * text :=
  match t with
  | [] => ([], false, [])
  | c :: t' => if (c =? 32)%N then ([], true, t') else let '(a, s, b) := partition_space t' in (c :: a, s, b)
  end.

Definition ascii (t : text) : bool := forallb (λ c, (c <? 128)%N) t.

(** [c.isspace()] of an ASCII character. *)
Definition ascii_space (c : N) : bool := ((9 <=? c) && (c <=? 13) || (28 <=? c) && (c <=? 32))%N.

(** ** [authenticate_bearer] *)

Record AuthenticationResult := { allowed : bool; reason : string; ar_class : string }.

(** [None] is the [TypeError] of [compare_digest] on text that is not ASCII. *)
Definition compare_digest (a b : text) : option bool :=
  if ascii a && ascii b then Some (bool_decide (a = b)) else None.

Definition authenticate_bearer (path : text) (authorization : option text) (expected : text)
    : option AuthenticationResult :=
  match endpoint_class path with
  | None => Some {| allowed := true; reason := "not_required"; ar_class := "other" |}
  | Some c =>
      match authorization with
      | None | Some [] => Some {| allowed := false; reason := "missing"; ar_class := c |}
      | Some t =>
          let '(scheme, separator, provided) := partition_space t in
          if negb separator || negb (bool_decide (lower_latin1 <$> scheme = cps "bearer"))
             || bool_decide (provided = []) || bool_decide (32%N ∈ provided)
          then Some {| allowed := false; reason := "malformed"; ar_class := c |}
          else same ← compare_digest provided expected;
               Some (if same : bool then {| allowed := true; reason := "accepted"; ar_class := c |}
                     else {| allowed := false; reason := "invalid"; ar_class := c |})
      end
  end.

(** ** The declared length *)

(** [int(declared)] of bytes: white space around, a sign, digits with single underscores between,
    at most 4300 digits.  [None] is [ValueError]. *)
Definition bytes_space (c : N) : bool := ((9 <=? c) && (c <=? 13) || (c =? 32))%N.

Fixpoint drop_while (f : N → bool) (t : text) : text :=
  match t with c :: t' => if f c then drop_while f t' else t | [] => [] end.

Definition strip_bytes (t : text) : text := rev (drop_while bytes_space (rev (drop_while bytes_space t))).

Definition is_digit (c : N) : bool := ((48 <=? c) && (c <=? 57))%N.

(** [sep]: an underscore may come next. *)
Fixpoint digits (sep : bool) (acc : Z) (t : text) : option Z :=
  match t with
  | [] => if sep then Some acc else None
  | c :: t' =>
      if is_digit c then digits true (acc * 10 + Z.of_N (c - 48)) t'
      else if (c =? 95)%N && sep then digits false acc t' else None
  end.

Definition parse_int (t : text) : option Z :=
  let body := strip_bytes t in
  let '(sign, rest) := match body with
                       | c :: t' => if (c =? 45)%N then (-1, t') else if (c =? 43)%N then (1, t') else (1, body)
                       | [] => (1, [])
                       end in
  if 4300 <? len (select is_digit rest) then None else n ← digits false 0 rest; Some (sign * n).

(** ** Correlation *)

(** [normalize_request_id]; [fresh] is [uuid4().hex]. *)
Definition id_char (c : N) : bool :=
  ((48 <=? c) && (c <=? 57) || (65 <=? c) && (c <=? 90) || (97 <=? c) && (c <=? 122))%N.
Definition safe_request_id (t : text) : bool :=
  match t with
  | c :: t' => id_char c && (len t' <=? 63)
               && forallb (λ c, id_char c || bool_decide (c ∈ cps "._:-")) t'
  | [] => false
  end.
Definition normalize_request_id (value : option text) (fresh : text) : text :=
  match value with Some v => if safe_request_id v then v else fresh | None => fresh end.

(** ** Messages, exceptions and the state of a request *)

Inductive message :=
| Start (status : Z) (headers : list (text * text))
| Body (data : text) (more : bool).

Inductive received := Chunk (data : text) | Disconnect.

(** [SecurityError], [_RequestTooLarge], [OSError], any other [Exception], and what is none
    (cancellation). *)
Inductive edge_exn := ESecurity (e : security_exn) | ETooLarge | EOS | EOther | EBase.

Definition starts (m : message) : bool := match m with Start _ _ => true | Body _ _ => false end.

(** [message.setdefault('headers', []).append(...)] *)
Definition correlated (id : text) (m : message) : message :=
  match m with Start st hs => Start st (hs ++ [(cps "x-request-id", id)]) | Body _ _ => m end.

(** The body that ends an answer that was refused halfway. *)
Definition terminator : message := Body [] false.

Section Gateway.
Context `{Runtime} {K : Type} `{Jwt K}.
Variable cfg : edge_settings.
Variable oidc_settings : OIDCSettings.
Variable audit_capacity : Z.
Variable json_response : Z → string → bool → list message.

(** The application behind the middleware. *)
Inductive program :=
| Return
| Throw (e : edge_exn)
| Receive (k : result edge_exn received → program)
| Send (m : message) (k : result edge_exn unit → program)
| SetSnapshot (s : AuthorizationSnapshot) (k : program).

Variable application : option Principal → program.

(** What happens around one step of the request: the other requests before it, and the clocks, the
    identifiers and the failures of the step itself. *)
Record moment := {
  m_security : list scall; m_tokens : list token_event; m_clock : nat → Q; m_event : uuid; m_now : Q; m_wall : Q;
  m_fetched : option json; m_database : bool; m_commit : bool; m_send : option edge_exn;
  m_receive : result edge_exn received }.

Variable environment : nat → moment.

(** What can be seen from outside: the application is entered, is given a part of the body, and messages
    are handed to the transport - under the snapshot and the locked authority of the time. *)
Inductive event :=
| Entered (who : option Principal)
| Delivered (data : text)
| Output (m : message) (guarded : option (AuthorizationSnapshot * sdb)).

Record gate := {
  authority : sdb; keys : @cache K; release_snapshot : option AuthorizationSnapshot; response_started : bool;
  consumed : Z; trace : list event; ticks : nat }.

Definition now (g : gate) : moment := environment (ticks g).

Definition io (A : Type) : Type := gate → result edge_exn A * gate.
#[local] Instance io_ret : MRet io := λ A a g, (Ok a, g).
#[local] Instance io_bind : MBind io := λ A B f m g,
  match m g with (Ok a, g') => f a g' | (Err e, g') => (Err e, g') end.

Definition throw {A} (e : edge_exn) : io A := λ g, (Err e, g).
Definition peek {A} (f : gate → A) : io A := λ g, (Ok (f g), g).
(** [try: m], whatever it raises. *)
Definition try {A} (m : io A) : io (result edge_exn A) := λ g, let '(r, g') := m g in (Ok r, g').

Definition with_snapshot (s : option AuthorizationSnapshot) (g : gate) : gate := {|
  authority := authority g; keys := keys g; release_snapshot := s; response_started := response_started g;
  consumed := consumed g; trace := trace g; ticks := ticks g |}.
Definition set_snapshot (s : option AuthorizationSnapshot) : io unit := λ g, (Ok tt, with_snapshot s g).

Definition set_started : io unit := λ g, (Ok tt, {|
  authority := authority g; keys := keys g; release_snapshot := release_snapshot g; response_started := true;
  consumed := consumed g; trace := trace g; ticks := ticks g |}).

(** [consumed += n], and its new value. *)
Definition add_consumed (n : Z) : io Z := λ g, (Ok (consumed g + n), {|
  authority := authority g; keys := keys g; release_snapshot := release_snapshot g;
  response_started := response_started g; consumed := consumed g + n; trace := trace g; ticks := ticks g |}).

Definition emit (ev : event) : io unit := λ g, (Ok tt, {|
  authority := authority g; keys := keys g; release_snapshot := release_snapshot g;
  response_started := response_started g; consumed := consumed g; trace := trace g ++ [ev]; ticks := ticks g |}).

(** The other requests before a step. *)
Definition interfered (g : gate) : gate := {|
  authority := foldl (sexec audit_capacity) (authority g) (m_security (now g));
  keys := foldl (step oidc_settings) (keys g) (m_tokens (now g)); release_snapshot := release_snapshot g;
  response_started := response_started g; consumed := consumed g; trace := trace g; ticks := S (ticks g) |}.

(** A transaction of the authority. *)
Definition on_authority {A} (f : uuid → (nat → Q) → sdb → result security_exn A * sdb) : io A := λ g,
  let g1 := interfered g in
  if m_database (now g) then
    let '(r, d) := f (m_event (now g)) (m_clock (now g)) (authority g1) in
    (match r with Ok a => Ok a | Err e => Err (ESecurity e) end,
     {| authority := d; keys := keys g1; release_snapshot := release_snapshot g1;
        response_started := response_started g1; consumed := consumed g1; trace := trace g1; ticks := ticks g1 |})
  else (Err (ESecurity unavailable), g1).

(** [runtime.verifier.verify(token)] *)
Definition verified (token : text) : io Principal := λ g,
  let g1 := interfered g in
  let '(r, ks) := verify oidc_settings token (m_now (now g)) (m_wall (now g)) (m_fetched (now g)) (keys g1) in
  (match r with Ok p => Ok p | Err e => Err (ESecurity e) end,
   {| authority := authority g1; keys := ks; release_snapshot := release_snapshot g1;
      response_started := response_started g1; consumed := consumed g1; trace := trace g1; ticks := ticks g1 |}).

(** The server's [send] and [receive]. *)
Definition written : io unit := λ g, (match m_send (now g) with Some e => Err e | None => Ok tt end, interfered g).

Definition transport (m : message) (guarded : option (AuthorizationSnapshot * sdb)) : io unit :=
  _ ← emit (Output m guarded); written.

Definition receive : io received := λ g, (m_receive (now g), interfered g).

(** ** The middleware *)

(** [with runtime.authority.release(snapshot): await send(message)]: the transaction stays open
    around the transport, so nobody else changes the authority meanwhile; it turns [OSError] into
    [SecurityError], whoever raised it. *)
Definition locked_send (s : AuthorizationSnapshot) (m : message) : io unit := λ g,
  let e := now g in
  let g1 := interfered g in
  if negb (m_database e) then (Err (ESecurity unavailable), g1)
  else match release s (m_clock e) ESecurity
               (λ g2, let '(_, g3) := emit (Output m (Some (s, authority g1))) g2 in
                      (match m_send e with Some x => Err x | None => Ok tt end, g3)) (authority g1) g1 with
       | (Ok tt, g2) => (if m_commit e then Ok tt else Err (ESecurity unavailable), g2)
       | (Err EOS, g2) => (Err (ESecurity unavailable), g2)
       | (Err x, g2) => (Err x, g2)
       end.

(** [correlated_send]; [runtime] tells whether the request has one. *)
Definition correlated_send (runtime : bool) (id : text) (m : message) : io unit :=
  s ← peek release_snapshot;
  _ ← match authentication_mode cfg, s with
      | oidc_jwt, Some s => if runtime then locked_send s (correlated id m) else throw EOther
      | _, _ => transport (correlated id m) None
      end;
  if starts m then set_started else mret tt.

Fixpoint send_all (runtime : bool) (id : text) (ms : list message) : io unit :=
  match ms with
  | [] => mret tt
  | m :: ms' => _ ← correlated_send runtime id m; send_all runtime id ms'
  end.

Definition respond (runtime : bool) (id : text) (status : Z) (detail : string) (authenticate : bool) : io unit :=
  send_all runtime id (json_response status detail authenticate).

Definition refuse (runtime : bool) (id : text) : io unit :=
  respond runtime id 401 "Authentication required." true.
Definition security_down (runtime : bool) (id : text) : io unit :=
  respond runtime id 503 "Security service is unavailable." false.

(** The token of the only [Authorization] header; [None] is [authentication_required] or
    [UnicodeError], which are handled alike. *)
Definition bearer_token (sc : request_scope) : option text :=
  match header_values "authorization" sc with
  | [v] =>
      if ascii v then
        let '(scheme, separator, token) := partition_space v in
        if negb separator || negb (bool_decide (lower_latin1 <$> scheme = cps "bearer"))
           || bool_decide (token = []) || existsb ascii_space token
        then None else Some token
      else None
  | _ => None
  end.

(** The authentication of the OIDC mode: the principal, or [None] when the request was answered. *)
Definition admit_principal (sc : request_scope) : io Principal :=
  match bearer_token sc with
  | None => throw (ESecurity (SecurityError "authentication_required"))
  | Some token =>
      p ← verified token;
      _ ← on_authority (λ e clk d, transaction (register audit_capacity p e clk) d);
      s ← on_authority (snapshot audit_capacity p [] DOCUMENT_ANALYZE);
      _ ← set_snapshot (Some s);
      mret p
  end.

Definition oidc_gate (available : bool) (sc : request_scope) (id : text) : io (option Principal) :=
  if negb available then _ ← security_down false id; mret None
  else
    r ← try (admit_principal sc);
    match r with
    | Ok p => mret (Some p)
    | Err (ESecurity _) =>
        a ← try (on_authority (λ e clk d, transaction (audit_authentication audit_capacity false e (clk 0%nat)) d));
        match a with
        | Err (ESecurity _) => _ ← security_down true id; mret None
        | Err x => throw x
        | Ok _ => _ ← refuse true id; mret None
        end
    | Err x => throw x
    end.

(** The authentication of the static mode: whether the request may go on. *)
Definition static_gate (sc : request_scope) (id : text) : io bool :=
  if (1 <? length (header_values "authorization" sc))%nat then _ ← refuse false id; mret false
  else match authenticate_bearer (sc_path sc) (header "authorization" sc) (api_auth_token cfg) with
       | None => throw EOther
       | Some a => if allowed a then mret true else _ ← refuse false id; mret false
       end.

(** [limited_receive] *)
Definition limited_receive : io received :=
  m ← receive;
  match m with
  | Disconnect => mret Disconnect
  | Chunk data =>
      total ← add_consumed (len data);
      if max_request_bytes cfg <? total then throw ETooLarge
      else _ ← emit (Delivered data); mret (Chunk data)
  end.

Definition plain_receive : io received :=
  m ← receive;
  match m with
  | Chunk data => _ ← emit (Delivered data); mret m
  | Disconnect => mret m
  end.

(** The application runs with the given [receive] and [send]. *)
Fixpoint run_app (rcv : io received) (snd : message → io unit) (p : program) : io unit :=
  match p with
  | Return => mret tt
  | Throw e => throw e
  | Receive k => r ← try rcv; run_app rcv snd (k r)
  | Send m k => r ← try (snd m); run_app rcv snd (k r)
  | SetSnapshot s k => _ ← set_snapshot (Some s); run_app rcv snd k
  end.

Definition enter (rcv : io received) (snd : message → io unit) (who : option Principal) : io unit :=
  _ ← emit (Entered who); run_app rcv snd (application who).

Definition reject (runtime : bool) (id : text) : io unit :=
  respond runtime id 413 "Request body is too large." false.

Definition mutating (method : string) : bool := bool_decide (method ∈ ["POST"; "PUT"; "PATCH"; "DELETE"]).

(** The part behind the authentication. *)
Definition bounded (sc : request_scope) (runtime : bool) (id : text) (who : option Principal) : io unit :=
  match endpoint_class (sc_path sc) with
  | None => enter plain_receive (correlated_send runtime id) who
  | Some _ =>
      if negb (mutating (sc_method sc)) then enter plain_receive (correlated_send runtime id) who
      else
        let fits := match header "content-length" sc with
                    | None => true
                    | Some d => match parse_int d with
                                | Some n => (0 <=? n) && (n <=? max_request_bytes cfg)
                                | None => false
                                end
                    end in
        if negb fits then reject runtime id
        else
          r ← try (enter limited_receive (correlated_send runtime id) who);
          match r with
          | Ok tt => mret tt
          | Err ETooLarge => reject runtime id
          | Err x => throw x
          end
  end.

(** The body of the [try]. *)
Definition guarded_request (available : bool) (sc : request_scope) (id : text) : io unit :=
  match endpoint_class (sc_path sc), authentication_mode cfg with
  | Some _, oidc_jwt =>
      p ← oidc_gate available sc id;
      match p with
      | None => mret tt
      | Some p => bounded sc true id (Some p)
      end
  | Some _, static_bearer =>
      ok ← static_gate sc id;
      if ok : bool then bounded sc false id None else mret tt
  | _, _ => bounded sc false id None
  end.

(** [__call__]; [available] tells whether [runtime_getter] has a runtime, [fresh] is a new identifier. *)
Definition call (available : bool) (fresh : text) (sc : request_scope) : io unit :=
  if negb (sc_http sc) then enter plain_receive (λ m, transport m None) None
  else
    let id := normalize_request_id ((λ v, select (λ c, (c <? 128)%N) v) <$> header "x-request-id" sc) fresh in
    let runtime := available && bool_decide (authentication_mode cfg = oidc_jwt)
                   && match endpoint_class (sc_path sc) with Some _ => true | None => false end in
    r ← try (guarded_request available sc id);
    match r with
    | Ok tt => mret tt
    | Err (ESecurity _) =>
        _ ← set_snapshot None;
        started ← peek response_started;
        if started : bool then transport terminator None
        else respond runtime id 403 "Access denied." false
    | Err x => throw x
    end.

Definition fresh_request (d : sdb) (ks : @cache K) : gate := {|
  authority := d; keys := ks; release_snapshot := None; response_started := false; consumed := 0; trace := []; ticks := 0 |}.

(** ** Computations of the middleware *)

Lemma bind_io {A B} (m : io A) (f : A → io B) g :
  (m ≫= f) g = match m g with (Ok a, g') => f a g' | (Err e, g') => (Err e, g') end.
Proof. done. Qed.

Definition keeps {A} (P : gate → Prop) (m : io A) : Prop := ∀ g, P g → P (m g).2.

Section Keeps.
Variable P : gate → Prop.

Lemma gate_bind {A B} (m : io A) (f : A → io B) : keeps P m → (∀ a, keeps P (f a)) → keeps P (m ≫= f).
Proof.
  intros Hm Hf g Hg. rewrite bind_io. specialize (Hm g Hg). destruct (m g) as [[a|e] g']; [|done]. by apply Hf.
Qed.
Lemma keeps_try {A} (m : io A) : keeps P m → keeps P (try m).
Proof. intros Hm g Hg. unfold try. specialize (Hm g Hg). by destruct (m g). Qed.
Lemma gate_ret {A} (a : A) : keeps P (mret a). Proof. by intros g. Qed.
Lemma gate_throw {A} e : keeps P (throw (A := A) e). Proof. by intros g. Qed.
Lemma keeps_peek {A} (f : gate → A) : keeps P (peek f). Proof. by intros g. Qed.

Lemma keeps_run rcv snd p : keeps P rcv → (∀ m, keeps P (snd m)) → (∀ s, keeps P (set_snapshot (Some s))) →
  keeps P (run_app rcv snd p).
Proof.
  intros Hr Hs Hn. induction p as [|e|k IH|m k IH|s k IH]; simpl.
  - apply gate_ret.
  - apply gate_throw.
  - apply gate_bind; [by apply keeps_try|done].
  - apply gate_bind; [by apply keeps_try|done].
  - by apply gate_bind.
Qed.
End Keeps.

(** ** What the application is given *)

Definition delivered (l : list event) : Z :=
  foldr (λ ev n, match ev with Delivered data => len data + n | _ => n end) 0 l.
Definition entered (l : list event) : list (option Principal) :=
  omap (λ ev, match ev with Entered who => Some who | _ => None end) l.

Definition view (g : gate) : Z * list (option Principal) * Z := (delivered (trace g), entered (trace g), consumed g).

Definition silent {A} (m : io A) : Prop := ∀ v, keeps (λ g, view g = v) m.

Lemma delivered_app l l' : delivered (l ++ l') = delivered l + delivered l'.
Proof. induction l as [|ev l IH]; simpl; [done|]. destruct ev; lia. Qed.

Lemma silent_output m o : silent (emit (Output m o)).
Proof. intros v g <-. unfold view. simpl. rewrite delivered_app. unfold entered. rewrite omap_app, app_nil_r. simpl. by rewrite Z.add_0_r. Qed.

Lemma silent_bind {A B} (m : io A) (f : A → io B) : silent m → (∀ a, silent (f a)) → silent (m ≫= f).
Proof. intros Hm Hf v. apply gate_bind; [done|]. intros a. apply Hf. Qed.
Lemma silent_try {A} (m : io A) : silent m → silent (try m).
Proof. intros Hm v. by apply keeps_try. Qed.
Lemma silent_ret {A} (a : A) : silent (mret a). Proof. by intros v g. Qed.
Lemma silent_throw {A} e : silent (throw (A := A) e). Proof. by intros v g. Qed.
Lemma silent_peek {A} (f : gate → A) : silent (peek f). Proof. by intros v g. Qed.
Lemma silent_snapshot s : silent (set_snapshot s). Proof. by intros v g. Qed.
Lemma silent_started : silent set_started. Proof. by intros v g. Qed.
Lemma silent_written : silent written. Proof. by intros v g. Qed.
Lemma silent_receive : silent receive. Proof. by intros v g. Qed.
Lemma silent_verified t : silent (verified t).
Proof. intros v g Hg. unfold verified. by destruct (verify _ _ _ _ _ _). Qed.
Lemma silent_authority {A} (f : uuid → (nat → Q) → sdb → result security_exn A * sdb) : silent (on_authority f).
Proof. intros v g Hg. unfold on_authority. destruct (m_database _); [|done]. by destruct (f _ _ _). Qed.

Lemma silent_locked s m : silent (locked_send s m).
Proof.
  intros v g Hg. unfold locked_send. cbv zeta. destruct (negb (m_database _)); [done|]. unfold release.
  destruct (_revalidate _ _ _); [|done].
  pose proof (silent_output m (Some (s, authority (interfered g))) v (interfered g) Hg) as Ho.
  destruct (emit _ (interfered g)) as [x g1]. by destruct (m_send (now g)) as [[]|].
Qed.

Create HintDb silent.
#[local] Hint Resolve silent_bind silent_try silent_ret silent_throw silent_peek silent_snapshot silent_started
  silent_written silent_receive silent_verified silent_authority silent_locked silent_output : silent.
#[local] Hint Extern 2 (silent (match ?x with _ => _ end)) => destruct x : silent.

Lemma silent_send rt id m : silent (correlated_send rt id m).
Proof. unfold correlated_send, transport. eauto 12 with silent. Qed.
#[local] Hint Resolve silent_send : silent.
Lemma silent_all rt id ms : silent (send_all rt id ms).
Proof. induction ms; simpl; eauto with silent. Qed.
#[local] Hint Resolve silent_all : silent.
Lemma silent_respond rt id st d b : silent (respond rt id st d b).
Proof. unfold respond. eauto with silent. Qed.
#[local] Hint Resolve silent_respond : silent.
Lemma silent_oidc av sc id : silent (oidc_gate av sc id).
Proof.
  unfold oidc_gate, security_down, refuse. destruct (negb av); [eauto with silent|].
  apply silent_bind; [|intros [p|[]]; eauto 8 with silent].
  apply silent_try. unfold admit_principal. destruct (bearer_token sc); eauto 10 with silent.
Qed.
Lemma silent_static sc id : silent (static_gate sc id).
Proof. unfold static_gate, refuse. destruct (_ <? _)%nat; eauto 8 with silent. Qed.

Lemma silent_keeps {A} (Q : Z * list (option Principal) * Z → Prop) (m : io A) : silent m → keeps (λ g, Q (view g)) m.
Proof. intros Hm g Hg. by rewrite (Hm (view g) g eq_refl). Qed.

(** At most [max_request_bytes] were delivered, all of them counted; [who] tells what was entered. *)
Definition within_limit (who : list (option Principal)) (v : Z * list (option Principal) * Z) : Prop :=
  v.1.1 ≤ max_request_bytes cfg ∧ v.1.1 ≤ v.2 ∧ v.1.2 = who.

Lemma limited_within who : keeps (λ g, within_limit who (view g)) limited_receive.
Proof.
  apply gate_bind; [by apply silent_keeps, silent_receive|]. intros [data|]; [|apply gate_ret].
  intros g (H1 & H2 & H3). unfold add_consumed. rewrite bind_io. assert (0 ≤ len data) by (unfold len; lia).
  destruct (Z.ltb_spec (max_request_bytes cfg) (consumed g + len data)).
  - simpl in *. unfold within_limit, view. simpl. split_and!; [done|lia|done].
  - rewrite bind_io. unfold within_limit, view in *. simpl in *. rewrite delivered_app. unfold entered in *. rewrite omap_app, app_nil_r.
    simpl. split_and!; [lia|lia|done].
Qed.

Lemma plain_entered who : keeps (λ g, entered (trace g) = who) plain_receive.
Proof.
  apply gate_bind; [apply (silent_keeps (λ v, v.1.2 = who)), silent_receive|].
  intros [data|]; [|apply gate_ret]. apply gate_bind; [|intros; apply gate_ret].
  intros g <-. simpl. unfold entered. by rewrite omap_app, app_nil_r.
Qed.

(** The declared length of a request, when it has one, is within the limit. *)
Definition declared_fits (sc : request_scope) : Prop :=
  ∀ v, header "content-length" sc = Some v → ∃ n, parse_int v = Some n ∧ 0 ≤ n ≤ max_request_bytes cfg.

Definition entered_once (sc : request_scope) (who : option Principal) (g : gate) : Prop :=
  (mutating (sc_method sc) = true → delivered (trace g) ≤ max_request_bytes cfg) ∧
  (entered (trace g) = [] ∨ entered (trace g) = [who] ∧ (mutating (sc_method sc) = true → declared_fits sc)).

Lemma silent_once {A} sc who (m : io A) : silent m → keeps (entered_once sc who) m.
Proof.
  intros Hm. apply (silent_keeps (λ v, (mutating (sc_method sc) = true → v.1.1 ≤ max_request_bytes cfg) ∧
    (v.1.2 = [] ∨ v.1.2 = [who] ∧ (mutating (sc_method sc) = true → declared_fits sc))) m Hm).
Qed.

Lemma try_state {A} (m : io A) g : (try m g).2 = (m g).2.
Proof. unfold try. by destruct (m g). Qed.

(** A step and a silent rest. *)
Lemma once_bind {A B} sc who (m : io A) (f : A → io B) g :
  entered_once sc who (m g).2 → (∀ a, silent (f a)) → entered_once sc who ((m ≫= f) g).2.
Proof.
  intros Hm Hf. rewrite bind_io. destruct (m g) as [[a|e] g']; [|done]. by apply (silent_once sc who (f a)).
Qed.

Lemma enter_keeps P rcv snd who g : keeps P rcv → (∀ m, keeps P (snd m)) → (∀ s, keeps P (set_snapshot (Some s))) →
  P (emit (Entered who) g).2 → P (enter rcv snd who g).2.
Proof. intros Hr Hs Hn Hg. unfold enter. rewrite bind_io. exact (keeps_run P rcv snd (application who) Hr Hs Hn _ Hg). Qed.

Lemma bounded_once sc rt id who g : 0 ≤ max_request_bytes cfg → endpoint_class (sc_path sc) ≠ None →
  view g = (0, [], 0) → entered_once sc who (bounded sc rt id who g).2.
Proof.
  intros Hmax Hc Hg. unfold bounded. destruct (endpoint_class _); [|done].
  assert (view (emit (Entered who) g).2 = (0, [who], 0)) as Hin.
  { unfold view in *. simpl. rewrite delivered_app. unfold entered in *. rewrite omap_app. simpl.
    injection Hg as -> -> ->. done. }
  destruct (mutating (sc_method sc)) eqn:Em; cbn [negb].
  2: { split; [by rewrite Em|]. right. rewrite Em. split; [|done].
       apply (enter_keeps (λ g, entered (trace g) = [who])); [apply plain_entered| | |by injection Hin];
         intros; apply (silent_keeps (λ v, v.1.2 = [who])); [apply silent_send|apply silent_snapshot]. }
  destruct (negb _) eqn:Ef.
  { apply (silent_once sc who (reject rt id)); [apply silent_respond|]. injection Hg as E1 E2 E3.
    split; [intros _; lia|by left]. }
  apply once_bind; [|intros [[]|[]]; eauto using silent_ret, silent_throw, silent_respond]. rewrite try_state.
  assert (within_limit [who] (view (enter limited_receive (correlated_send rt id) who g).2)) as (H1 & _ & H3).
  { apply (enter_keeps (λ g, within_limit [who] (view g))); [apply limited_within| | |by rewrite Hin];
      intros; apply silent_keeps; [apply silent_send|apply silent_snapshot]. }
  split; [done|]. right. split; [done|]. intros _ v Hv. rewrite Hv in Ef.
  destruct (parse_int v) as [n|]; [|done]. apply negb_false_iff, andb_true_iff in Ef as [F1%Z.leb_le F2%Z.leb_le].
  by exists n.
Qed.

(** ** What the static mode accepts *)

Lemma header_last name sc : header name sc = list.last (header_values name sc).
Proof.
  unfold header, header_values. set (F := λ kv : text * text, bool_decide (lower_byte <$> kv.1 = cps name)).
  assert (∀ l (acc : option text), foldl (λ acc kv, if F kv then Some kv.2 else acc) acc l
            = match list.last (snd <$> select F l) with Some v => Some v | None => acc end) as Hl.
  { induction l as [|kv l IH]; intros acc; [done|]. simpl. rewrite IH. destruct (F kv); [|done].
    rewrite fmap_cons, last_cons. by destruct (list.last _). }
  rewrite Hl. by destruct (list.last _).
Qed.

Lemma partition_space_spec t a b : partition_space t = (a, true, b) → t = a ++ 32%N :: b.
Proof.
  revert a. induction t as [|c t IH]; intros a; simpl; [done|]. destruct (N.eqb_spec c 32) as [->|].
  - by intros [= <- <-].
  - destruct (partition_space t) as [[a' s'] b']. intros [= <- -> <-]. by rewrite (IH a' eq_refl).
Qed.

(** One [Authorization] header, with the scheme [Bearer] and the configured token. *)
Definition presents_token (sc : request_scope) : Prop :=
  ∃ scheme, header_values "authorization" sc = [scheme ++ 32%N :: api_auth_token cfg]
            ∧ lower_latin1 <$> scheme = cps "bearer" ∧ api_auth_token cfg ≠ [] ∧ 32%N ∉ api_auth_token cfg.

Lemma static_gate_true sc id g g' : endpoint_class (sc_path sc) ≠ None →
  static_gate sc id g = (Ok true, g') → presents_token sc.
Proof.
  intros Hc. unfold static_gate. destruct (Nat.ltb_spec 1 (length (header_values "authorization" sc))) as [|Hl].
  { rewrite bind_io. by destruct (refuse _ _ g) as [[]]. }
  destruct (authenticate_bearer _ _ _) as [a|] eqn:Ea; [|done]. destruct (allowed a) eqn:Eal.
  2: { rewrite bind_io. by destruct (refuse _ _ g) as [[]]. }
  intros _. unfold authenticate_bearer in Ea. destruct (endpoint_class (sc_path sc)); [|done]. clear Hc.
  rewrite header_last in Ea. destruct (header_values _ _) as [|v [|]] eqn:Ev; [by injection Ea as <-| |simpl in Hl; lia].
  simpl in Ea. destruct v as [|c v]; [by injection Ea as <-|].
  destruct (partition_space (c :: v)) as [[scheme sep] provided] eqn:Ep.
  destruct (_ || _) eqn:Eb; [by injection Ea as <-|]. rewrite !orb_false_iff in Eb.
  destruct Eb as [[[E1%negb_false_iff E2%negb_false_iff] E3] E4].
  apply bool_decide_eq_true in E2. apply bool_decide_eq_false in E3, E4. subst sep. apply partition_space_spec in Ep.
  unfold compare_digest in Ea. destruct (_ && _); [|done]. simpl in Ea. case_bool_decide as Et; [|by injection Ea as <-].
  subst provided. exists scheme. by rewrite Ev, Ep.
Qed.

Lemma untouched_once sc who g : 0 ≤ max_request_bytes cfg → view g = (0, [], 0) →
  entered_once sc who g ∧ entered (trace g) = [].
Proof. intros Hmax [= E1 E2 _]. split; [|done]. split; [intros; lia|by left]. Qed.

Lemma guarded_once available sc id d ks : endpoint_class (sc_path sc) ≠ None → 0 ≤ max_request_bytes cfg →
  let g' := (guarded_request available sc id (fresh_request d ks)).2 in
  ∃ who, entered_once sc who g' ∧
    (entered (trace g') ≠ [] → (authentication_mode cfg = static_bearer → presents_token sc) ∧
                               (authentication_mode cfg = oidc_jwt → who ≠ None)).
Proof.
  intros Hc Hmax. cbv zeta. unfold guarded_request.
  pose proof (silent_oidc available sc id _ (fresh_request d ks) eq_refl) as So.
  pose proof (silent_static sc id _ (fresh_request d ks) eq_refl) as Ss.
  destruct (endpoint_class (sc_path sc)) eqn:Ec; [|done]. rewrite <-Ec in Hc.
  destruct (authentication_mode cfg) eqn:Em.
  - exists None. split; [by apply bounded_once|by split].
  - rewrite bind_io. exists None. destruct (static_gate sc id _) as [[[]|e] g'] eqn:Es; cbn [snd] in Ss.
    { split; [by apply bounded_once|]. intros _. split; [|done]. intros _. by eapply static_gate_true. }
    all: destruct (untouched_once sc None g' Hmax Ss) as [H1 H2]; by split.
  - rewrite bind_io. destruct (oidc_gate available sc id _) as [[[p|]|e] g'] eqn:Es; cbn [snd] in So.
    { exists (Some p). split; [by apply bounded_once|done]. }
    all: exists None; destruct (untouched_once sc None g' Hmax So) as [H1 H2]; by split.
Qed.

(** Whatever a request, the application, the transport and other requests do: the application is entered
    at most once; on a protected path in the static mode only with exactly one [Authorization] header
    that carries the configured token; and for the methods that have a body only with a declared length
    within the limit, if one is declared, while the parts of the body it is given are
    together within the limit, declared or not. *)
Theorem requests_admitted available fresh sc d ks :
  sc_http sc = true → endpoint_class (sc_path sc) ≠ None → 0 ≤ max_request_bytes cfg →
  let l := trace (call available fresh sc (fresh_request d ks)).2 in
  (mutating (sc_method sc) = true → delivered l ≤ max_request_bytes cfg) ∧
  (entered l = [] ∨ ∃ who, entered l = [who] ∧
     (mutating (sc_method sc) = true → declared_fits sc) ∧
     (authentication_mode cfg = static_bearer → presents_token sc) ∧
     (authentication_mode cfg = oidc_jwt → who ≠ None)).
Proof.
  intros Hh Hc Hmax. cbv zeta. unfold call. rewrite Hh. cbn [negb].
  set (id := normalize_request_id _ _). set (rt := _ && _ && _).
  pose proof (guarded_once available sc id d ks Hc Hmax) as (who & Ho & Hw).
  set (rest := λ r : result edge_exn unit, _). assert (∀ r, silent (rest r)) as Hs.
  { intros [[]|[]]; unfold rest, transport; eauto with silent. }
  assert (entered (trace ((try (guarded_request available sc id) ≫= rest) (fresh_request d ks)).2)
          = entered (trace (guarded_request available sc id (fresh_request d ks)).2)) as He.
  { rewrite bind_io, <-try_state. destruct (try _ _) as [[r|e] g']; [|done].
    apply (silent_keeps (λ v, v.1.2 = entered (trace g')) _ (Hs r) g' eq_refl). }
  assert (entered_once sc who ((try (guarded_request available sc id) ≫= rest) (fresh_request d ks)).2) as [H1 H2]
    by (apply once_bind; [by rewrite try_state|done]).
  split; [done|]. rewrite <-He in Hw. destruct H2 as [?|[E Hd]]; [by left|]. right. exists who.
  rewrite E in Hw. destruct Hw; [done|]. by split_and!.
Qed.

(** ** What leaves under the authority *)

(** The snapshots a program may put in place. *)
Inductive may_set : program → AuthorizationSnapshot → Prop :=
| ms_here s k : may_set (SetSnapshot s k) s
| ms_set s k s' : may_set k s' → may_set (SetSnapshot s k) s'
| ms_send m k r s : may_set (k r) s → may_set (Send m k) s
| ms_receive k r s : may_set (k r) s → may_set (Receive k) s.

(** The answers of the middleware itself that need no authorization. *)
Definition refusals : list (Z * string * bool) :=
  [(503, "Security service is unavailable.", false); (401, "Authentication required.", true);
   (403, "Access denied.", false)].

Definition fixed (id : text) (m : message) : Prop :=
  m = terminator ∨ ∃ st detail b m0,
    (st, detail, b) ∈ refusals ∧ m0 ∈ json_response st detail b ∧ m = correlated id m0.

Section Guarded.
Variables (sc : request_scope) (id : text) (cs : list scall) (evs : list token_event).

(** The request's only token verifies, under keys as they are then. *)
Definition verified_principal (p : Principal) : Prop :=
  ∃ token evs' now wall fetched, bearer_token sc = Some token ∧
    (verify oidc_settings token now wall fetched (history oidc_settings (evs ++ evs')).2).1 = Ok p.

(** A snapshot of the caller, or one the application took for the caller. *)
Definition snapshot_ok (s : AuthorizationSnapshot) : Prop :=
  ∃ p, verified_principal p ∧ (sn_principal s = p ∨ may_set (application (Some p)) s).

Definition ok_event (ev : event) : Prop :=
  match ev with
  | Entered who => ∃ p, who = Some p ∧ verified_principal p
  | Delivered _ => True
  | Output m None => fixed id m
  | Output m (Some (s, d)) => snapshot_ok s ∧ agrees s d ∧ ∃ cs', d = srun audit_capacity (cs ++ cs')
  end.

(** [held]: a snapshot is in place. *)
Definition inv (held : bool) (g : gate) : Prop :=
  (∃ cs', authority g = srun audit_capacity (cs ++ cs')) ∧
  (∃ evs', keys g = (history oidc_settings (evs ++ evs')).2) ∧
  Forall ok_event (trace g) ∧ (∀ s, release_snapshot g = Some s → snapshot_ok s) ∧
  (held = true → release_snapshot g ≠ None).

Lemma history_foldl l l' : (history oidc_settings (l ++ l')).2 = foldl (step oidc_settings) (history oidc_settings l).2 l'.
Proof.
  unfold history. rewrite foldl_app. generalize (foldl (λ s ev, (s.1 ++ fetched_by oidc_settings s.2 ev, step oidc_settings s.2 ev)) ([], empty_cache) l).
  induction l' as [|ev l' IH]; intros [a b]; [done|]. simpl. by rewrite IH.
Qed.

Lemma interfered_inv held g : inv held g → inv held (interfered g).
Proof.
  intros ([cs' Ha] & [evs' Hk] & Ht & Hs & Hh). split_and!; try done.
  - exists (cs' ++ m_security (now g)). simpl. by rewrite app_assoc, srun_app, Ha.
  - exists (evs' ++ m_tokens (now g)). simpl. by rewrite app_assoc, history_foldl, Hk.
Qed.

Lemma inv_emit held ev : ok_event ev → keeps (inv held) (emit ev).
Proof. intros Hev g (Ha & Hk & Ht & Hs & Hh). split_and!; try done. simpl. apply Forall_app. by split; [|constructor]. Qed.
Lemma inv_started held : keeps (inv held) set_started. Proof. by intros g. Qed.
Lemma inv_consumed held n : keeps (inv held) (add_consumed n). Proof. by intros g. Qed.
Lemma inv_written held : keeps (inv held) written. Proof. intros g. apply interfered_inv. Qed.
Lemma inv_receive held : keeps (inv held) receive. Proof. intros g. apply interfered_inv. Qed.
Lemma inv_snapshot held s : snapshot_ok s → keeps (inv held) (set_snapshot (Some s)).
Proof. intros Hs g (Ha & Hk & Ht & _ & _). split_and!; try done. intros s' [= <-]. done. Qed.
Lemma inv_cleared g held : inv held g → inv false (with_snapshot None g).
Proof. intros (Ha & Hk & Ht & _ & _). by split_and!. Qed.
Lemma inv_weaken held g : inv held g → inv false g.
Proof. intros (Ha & Hk & Ht & Hs & _). by split_and!. Qed.

Lemma inv_authority {A} held (f : uuid → (nat → Q) → sdb → result security_exn A * sdb) :
  (∀ e clk d, ∃ c, (f e clk d).2 = sexec audit_capacity d c) → keeps (inv held) (on_authority f).
Proof.
  intros Hf g Hg. apply interfered_inv in Hg. unfold on_authority. destruct (m_database (now g)); [|done].
  destruct Hg as ([cs' Ha] & Hk & Ht & Hs & Hh). destruct (Hf (m_event (now g)) (m_clock (now g)) (authority (interfered g))) as [c Hc].
  destruct (f _ _ _) as [r d] eqn:E. simpl in Hc. split_and!; try done. exists (cs' ++ [c]).
  simpl. rewrite app_assoc, srun_app, <-Ha. simpl. by rewrite Hc.
Qed.

Lemma verified_inv token held g : inv held g →
  inv held (verified token g).2 ∧ ∀ p, bearer_token sc = Some token → (verified token g).1 = Ok p → verified_principal p.
Proof.
  intros Hg. apply interfered_inv in Hg. destruct Hg as (Ha & [evs' Hk] & Ht & Hs & Hh). unfold verified.
  destruct (verify _ _ _ _ _ _) as [r ks] eqn:E. split.
  - split_and!; try done.
    exists (evs' ++ [Verify token (m_now (now g)) (m_wall (now g)) (m_fetched (now g))]).
    rewrite app_assoc, history_foldl, <-Hk. cbn [foldl]. unfold step. by rewrite E.
  - intros p Hb Hp. exists token, evs', (m_now (now g)), (m_wall (now g)), (m_fetched (now g)).
    rewrite <-Hk, E. split; [done|]. simpl in *. by destruct r; simplify_eq.
Qed.

Lemma inv_locked held s m : snapshot_ok s → keeps (inv held) (locked_send s m).
Proof.
  intros Hs g Hg. apply interfered_inv in Hg. unfold locked_send. cbv zeta. destruct (negb _); [done|]. unfold release.
  destruct (_revalidate s (m_clock (now g)) (authority (interfered g))) as [u|] eqn:Er; [|done].
  assert (ok_event (Output m (Some (s, authority (interfered g))))) as Hev.
  { split_and!; [done| |by destruct Hg]. apply (revalidate_agrees s (m_clock (now g))). unfold revalidate, release. by rewrite Er. }
  pose proof (inv_emit held _ Hev _ Hg) as Ho.
  destruct (emit _ (interfered g)) as [x g1]. by destruct (m_send (now g)) as [[]|].
Qed.

Context (oidc : authentication_mode cfg = oidc_jwt).

(** While a snapshot is in place everything may be sent; otherwise only the fixed answers. *)
Lemma inv_send held rt m : held = true ∨ fixed id (correlated id m) → keeps (inv held) (correlated_send rt id m).
Proof.
  intros Hm g Hg. unfold correlated_send. rewrite bind_io. unfold peek. rewrite oidc.
  assert (keeps (inv held) (if starts m then set_started else mret tt)) as Hst by (destruct (starts m); by intros ?).
  destruct (release_snapshot g) as [s|] eqn:Es.
  - apply gate_bind; [|done|done]. destruct rt; [|apply gate_throw]. apply inv_locked. by apply Hg.
  - apply gate_bind; [|done|done]. unfold transport. apply gate_bind; [|intros; apply inv_written].
    apply inv_emit. destruct Hm as [->|]; [|done]. destruct Hg as (_ & _ & _ & _ & Hh). by destruct Hh.
Qed.

Lemma inv_respond held rt st d b : held = true ∨ (st, d, b) ∈ refusals → keeps (inv held) (respond rt id st d b).
Proof.
  intros Hr. unfold respond. assert (∀ m, m ∈ json_response st d b → held = true ∨ fixed id (correlated id m)) as Hm.
  { intros m Hin. destruct Hr as [?|Hr]; [by left|]. right. right. by exists st, d, b, m. }
  induction (json_response st d b) as [|m ms IH]; simpl; [apply gate_ret|].
  apply gate_bind; [apply inv_send, Hm; set_solver|]. intros _. apply IH. intros m' ?. apply Hm. set_solver.
Qed.

Lemma admit_inv g : inv false g →
  match admit_principal sc g with
  | (Ok p, g') => inv true g' ∧ verified_principal p
  | (Err _, g') => inv false g'
  end.
Proof.
  intros Hg. unfold admit_principal. destruct (bearer_token sc) as [token|] eqn:Et; [|done].
  pose proof (verified_inv token false g Hg) as [Hv Hp]. rewrite bind_io. destruct (verified token g) as [[p|e] g1]; [|done].
  specialize (Hp p Et eq_refl). cbn [snd] in Hv. rewrite bind_io.
  match goal with |- context [on_authority ?f g1] =>
    pose proof (inv_authority false f (λ e clk d, ex_intro _ (CRegister p e clk) eq_refl) g1 Hv) as Hr;
    destruct (on_authority f g1) as [[u|e] g2] end; [|done].
  cbn [snd] in Hr. rewrite bind_io.
  pose proof (inv_authority false _ (λ e clk d, ex_intro _ (CSnapshot p [] DOCUMENT_ANALYZE e clk) eq_refl) g2 Hr) as Hn.
  assert (∀ s g3, on_authority (snapshot audit_capacity p [] DOCUMENT_ANALYZE) g2 = (Ok s, g3) → sn_principal s = p) as Hsn.
  { intros s g3. unfold on_authority. destruct (m_database (now g2)); [|done].
    destruct (snapshot _ _ _ _ _ _ _) as [[s'|e] d] eqn:E; [|done]. intros [= -> _]. by apply snapshot_agrees in E as (_ & _ & ? & _). }
  destruct (on_authority _ g2) as [[s|e] g3]; [|done]. specialize (Hsn s g3 eq_refl).
  split; [|done]. cbn [snd] in Hn.
  assert (snapshot_ok s) as Hs by (exists p; by auto). pose proof (inv_snapshot false s Hs g3 Hn) as (Ha & Hk & Ht & Hss & _).
  by split_and!.
Qed.

Lemma oidc_gate_inv av g : inv false g →
  match oidc_gate av sc id g with
  | (Ok (Some p), g') => inv true g' ∧ verified_principal p
  | (_, g') => inv false g'
  end.
Proof.
  intros Hg. unfold oidc_gate. destruct (negb av).
  { rewrite bind_io. pose proof (inv_respond false false _ _ _ ltac:(right; apply elem_of_cons; by left) g Hg) as Hr.
    unfold security_down. by destruct (respond _ _ _ _ _ g) as [[]]. }
  rewrite bind_io. unfold try at 1. pose proof (admit_inv g Hg) as Ha. destruct (admit_principal sc g) as [[p|e] g1]; [done|].
  destruct e; try done. rewrite bind_io. unfold try at 1.
  match goal with |- context [on_authority ?f g1] =>
    pose proof (inv_authority false f (λ e clk d, ex_intro _ (CAuthentication false e (clk 0%nat)) eq_refl) g1 Ha) as Hr;
    destruct (on_authority f g1) as [[u|[]] g2] end; try done; cbn [snd] in Hr; rewrite bind_io.
  - pose proof (inv_respond false true 401 "Authentication required." true ltac:(right; unfold refusals; set_solver) g2 Hr) as Hx.
    unfold refuse. by destruct (respond _ _ _ _ _ g2) as [[]].
  - pose proof (inv_respond false true 503 "Security service is unavailable." false ltac:(right; unfold refusals; set_solver) g2 Hr) as Hx.
    unfold security_down. by destruct (respond _ _ _ _ _ g2) as [[]].
Qed.

Lemma inv_limited : keeps (inv true) limited_receive.
Proof.
  apply gate_bind; [apply inv_receive|]. intros [data|]; [|apply gate_ret].
  apply gate_bind; [apply inv_consumed|]. intros n. destruct (_ <? n); [apply gate_throw|].
  apply gate_bind; [by apply inv_emit|intros; apply gate_ret].
Qed.

Lemma inv_plain : keeps (inv true) plain_receive.
Proof.
  apply gate_bind; [apply inv_receive|]. intros [data|]; [|apply gate_ret].
  apply gate_bind; [by apply inv_emit|intros; apply gate_ret].
Qed.

Lemma inv_run p rcv rt q : verified_principal p → keeps (inv true) rcv →
  (∀ s, may_set q s → may_set (application (Some p)) s) → keeps (inv true) (run_app rcv (correlated_send rt id) q).
Proof.
  intros Hp Hr. induction q as [|e|k IH|m k IH|s k IH]; intros Hq; simpl.
  - apply gate_ret.
  - apply gate_throw.
  - apply gate_bind; [by apply keeps_try|]. intros r. apply IH. intros s ?. by eapply Hq, ms_receive.
  - apply gate_bind; [by apply keeps_try, inv_send; left|]. intros r. apply IH. intros s ?. by eapply Hq, ms_send.
  - apply gate_bind; [|intros; apply IH; intros s' ?; by apply Hq, ms_set].
    apply inv_snapshot. exists p. split; [done|]. right. apply Hq, ms_here.
Qed.

Lemma inv_enter p rcv rt : verified_principal p → keeps (inv true) rcv →
  keeps (inv true) (enter rcv (correlated_send rt id) (Some p)).
Proof.
  intros Hp Hr. apply gate_bind; [apply inv_emit; by exists p|]. intros _. by apply (inv_run p).
Qed.

Lemma inv_bounded p rt : verified_principal p → keeps (inv true) (bounded sc rt id (Some p)).
Proof.
  intros Hp. unfold bounded. pose proof (inv_enter p plain_receive rt Hp inv_plain) as H1.
  pose proof (inv_enter p limited_receive rt Hp inv_limited) as H2.
  assert (keeps (inv true) (reject rt id)) as H3 by (apply inv_respond; by left).
  destruct (endpoint_class _); [|done]. destruct (negb (mutating _)); [done|]. destruct (negb _); [done|].
  apply gate_bind; [by apply keeps_try|]. intros [[]|[]]; first [apply gate_ret|apply gate_throw|done].
Qed.

Lemma inv_call av fresh : sc_http sc = true → endpoint_class (sc_path sc) ≠ None →
  id = normalize_request_id ((λ v, select (λ c, (c <? 128)%N) v) <$> header "x-request-id" sc) fresh →
  keeps (inv false) (call av fresh sc).
Proof.
  intros Hh Hc Hid. unfold call. rewrite Hh. cbn [negb]. rewrite <-Hid. cbv zeta. apply gate_bind.
  - apply keeps_try. intros g Hg. unfold guarded_request. destruct (endpoint_class (sc_path sc)); [|done]. rewrite oidc, bind_io.
    pose proof (oidc_gate_inv av g Hg) as Ho. destruct (oidc_gate av sc id g) as [[[p|]|e] g1]; try done.
    destruct Ho as [Ho Hp]. by eapply inv_weaken, inv_bounded.
  - intros [[]|[]]; try (apply gate_ret || apply gate_throw). apply gate_bind; [intros g; apply inv_cleared|]. intros _.
    apply gate_bind; [apply keeps_peek|]. intros [].
    + apply gate_bind; [|intros; apply inv_written]. apply inv_emit. by left.
    + apply inv_respond. right. unfold refusals. set_solver.
Qed.

End Guarded.

(** C24: On a protected path in the OIDC mode, whatever the request, the application, the transport and other
    requests do: the application is entered only for the principal of the one bearer token, verified
    under the keys of the time; and everything that leaves, other than the fixed refusals and
    the end of an answer that was cut off, is handed to the transport while the authority,
    locked against changes, agrees with a snapshot of that caller or one the application took. *)
Theorem responses_guarded available fresh sc cs evs ev :
  authentication_mode cfg = oidc_jwt → sc_http sc = true → endpoint_class (sc_path sc) ≠ None →
  ev ∈ trace (call available fresh sc
    (fresh_request (srun audit_capacity cs) (history oidc_settings evs).2)).2 →
  ok_event sc (normalize_request_id ((λ v, select (λ c, (c <? 128)%N) v) <$> header "x-request-id" sc) fresh) cs evs ev.
Proof.
  intros Hm Hh Hc Hin. set (id := normalize_request_id _ _). 
  assert (inv sc id cs evs false (fresh_request (srun audit_capacity cs) (history oidc_settings evs).2)) as Hi.
  { split_and!; try done; [exists []|exists []]; by rewrite app_nil_r. }
  destruct (inv_call sc id cs evs Hm available fresh Hh Hc eq_refl _ Hi) as (_ & _ & Ht & _).
  rewrite Forall_forall in Ht. by apply Ht.
Qed.

End Gateway.

(** ** Concrete requests *)

Definition sample_responses (status : Z) (detail : string) (authenticate : bool) : list message :=
  [Start status []; Body (cps detail) false].

Definition sample_edge (m : auth_mode) : edge_settings := {|
  authentication_mode := m; api_auth_token := cps "static"; max_request_bytes := 10 |}.

(** An endpoint that reads one part of the body and streams three messages. *)
Definition streaming_endpoint (who : option Principal) : program :=
  Receive (λ _, Send (Start 200 []) (λ _, Send (Body (cps "first") true) (λ r1,
    match r1 with
    | Ok _ => Send (Body (cps "second") true) (λ r2, match r2 with Ok _ => Return | Err e => Throw e end)
    | Err e => Throw e
    end))).

Definition carol_restricted : Principal := {|
  issuer := issuer carol; subject := subject carol; tenant_identity := tenant_identity carol; p_scope := p_scope carol;
  permissions := []; p_kind := p_kind carol; expires := expires carol |}.

(** Before the second part of the answer the caller loses her roles. *)
Definition sample_environment (i : nat) : moment := {|
  m_security := if (i =? 6)%nat then [CRegister carol_restricted "other" (λ _, 100%Q)] else [];
  m_tokens := []; m_clock := λ _, 100%Q; m_event := nth i ["e0"; "e1"; "e2"; "e3"; "e4"; "e5"; "e6"] "e7";
  m_now := 0%Q; m_wall := 100%Q; m_fetched := Some sample_jwks; m_database := true; m_commit := true; m_send := None;
  m_receive := Ok (Chunk (cps "{}")) |}.

Definition sample_scope (authorization : string) : request_scope := {|
  sc_http := true; sc_headers := [(cps "Authorization", cps authorization); (cps "content-length", cps " 2 ")];
  sc_path := cps "/documents/analyze"; sc_method := "POST" |}.

Abbreviation sample_call := (@call sample_runtime text sample_jwt (sample_edge oidc_jwt) sample_oidc 100 sample_responses
  streaming_endpoint sample_environment true (cps "id") (sample_scope "bearer token")
  (fresh_request (@srun sample_runtime 100 []) (@history text sample_jwt sample_runtime sample_oidc []).2)).

Example revoked_midway : (λ ev, match ev with Output m o => Some (m, bool_decide (o = None)) | _ => None end) <$> trace sample_call.2
  = [None; None; Some (Start 200 [(cps "x-request-id", cps "id")], false); Some (Body (cps "first") true, false);
     Some (terminator, true)].
Proof. vm_compute. reflexivity. Qed.

Lemma responses_guarded_witness :
  Forall (@ok_event sample_runtime text sample_jwt sample_oidc 100 sample_responses streaming_endpoint
    (sample_scope "bearer token") (cps "id") [] []) (trace sample_call.2).
Proof.
  apply Forall_forall. intros ev Hev.
  apply (@responses_guarded sample_runtime text sample_jwt (sample_edge oidc_jwt) sample_oidc 100
    sample_responses streaming_endpoint sample_environment true (cps "id") (sample_scope "bearer token") [] [] ev).
  - reflexivity.
  - reflexivity.
  - intros F. vm_compute in F. discriminate F.
  - exact Hev.
Defined.

Abbreviation sample_static := (@call sample_runtime text sample_jwt (sample_edge static_bearer) sample_oidc 100 sample_responses
  streaming_endpoint sample_environment true (cps "id") (sample_scope "BEARER static")
  (fresh_request empty_sdb empty_cache)).

Example static_served : delivered (trace sample_static.2) = 2 ∧ entered (trace sample_static.2) = [None].
Proof. vm_compute. done. Qed.

Lemma requests_admitted_witness : delivered (trace sample_static.2) ≤ 10.
Proof.
  destruct (@requests_admitted sample_runtime text sample_jwt (sample_edge static_bearer) sample_oidc 100
    sample_responses streaming_endpoint sample_environment true (cps "id") (sample_scope "BEARER static")
    empty_sdb empty_cache) as [Hl _].
  - reflexivity.
  - intros F. vm_compute in F. discriminate F.
  - done.
  - apply Hl. reflexivity.
Defined.
