(* ===== verification/Services.v ===== *)
(** * The authorized application services

    [security/services.py]: document jobs, interactive analysis and publication behind the
    security authority.  [AuthorizedJobs] runs over the authority and the job ledger, with
    other processes between its transactions; the other two over the stores of
    [PublicationWorld]. *)

From Stdlib Require Import ZArith NArith QArith Lia.
From stdpp Require Import base tactics list strings option gmap.
From S2P Require Import Prelude Json Contracts JobModels JobLedger ProviderAdmission Governance Authority AuthorityTheorems Storage Extraction JobHistory.
From S2P Require Import DigestModels DigestPlanning DigestValidation DigestArtifacts DigestWorkflow DigestSteps.
From S2P Require Import Publication PublicationAuthority PublicationPlan PublicationAccepted Rag PublicationWorld PublicationService Retrieval Analysis.

Local Open Scope Z_scope.

(** ** [AuthorizedJobs] *)

Module Jobs.
Section Jobs.
Context `{Runtime} (cfg : JobSettings) (audit_capacity : Z).

Record world := { security : sdb; ledger : db; ticks : nat }.

(** What happens before an operation; the clock, audit identifier and ledger time of the
    operation itself, [None] when the ledger cannot be used. *)
Record moment := {
  m_security : list scall; m_ledger : list call; m_clock : nat → Q; m_event : uuid;
  m_now : option Z }.

Variable environment : nat → moment.

Definition now (w : world) : moment := environment (ticks w).

Inductive svc_exn := Denied (e : security_exn) | JobFailed (e : exn).

Definition io (A : Type) : Type := world → result svc_exn A * world.
#[local] Instance io_ret : MRet io := λ A a w, (Ok a, w).
#[local] Instance io_bind : MBind io := λ A B f m w,
  match m w with (Ok a, w') => f a w' | (Err e, w') => (Err e, w') end.

Definition interfered (w : world) : world := {|
  security := foldl (sexec audit_capacity) (security w) (m_security (now w));
  ledger := run cfg (m_ledger (now w)) (ledger w); ticks := S (ticks w) |}.

(** A transaction of the authority. *)
Definition on_security {A} (f : uuid → (nat → Q) → sdb → result security_exn A * sdb) : io A := λ w,
  let w1 := interfered w in
  let '(r, d) := f (m_event (now w)) (m_clock (now w)) (security w1) in
  (match r with Ok a => Ok a | Err e => Err (Denied e) end,
   {| security := d; ledger := ledger w1; ticks := ticks w1 |}).

(** A transaction of the ledger on the ledger [d]. *)
Definition ledger_tx {A} (now : option Z) (x : Z → ltx A) (d : db) : result exn A * db :=
  match now with
  | None => (Err ledger_error, d)
  | Some t => transaction (x t) d
  end.

(** [except JobError: raise SecurityError() from None]. *)
Definition on_ledger_denied {A} (x : Z → ltx A) : io A := λ w,
  let w1 := interfered w in
  let '(r, d) := ledger_tx (m_now (now w)) x (ledger w1) in
  (match r with
   | Ok a => Ok a
   | Err (JobErr _) => Err (Denied access_denied)
   | Err e => Err (JobFailed e)
   end, {| security := security w1; ledger := d; ticks := ticks w1 |}).

(** The ledger inside [release]: the authority is locked, the ledger is not; [m_ledger] of
    the next moment are the calls of the others before ours. *)
Definition released {A} (s : AuthorizationSnapshot) (x : Z → ltx A) : io A := λ w,
  let w1 := interfered w in
  let m := now w1 in
  release s (m_clock (now w)) Denied (λ w2 : world,
    let '(r, d) := ledger_tx (m_now m) x (run cfg (m_ledger m) (ledger w2)) in
    (match r with Ok a => Ok a | Err e => Err (JobFailed e) end,
     {| security := security w2; ledger := d; ticks := S (ticks w2) |})) (security w1) w1.

Definition document_of_job (j : job_row) : uuid := a_document_id (request j).

(** [AuthorizedJobs.get] *)
Definition authorized_get (p : Principal) (id : uuid) : io job_row :=
  _ ← on_security (snapshot audit_capacity p [] DOCUMENT_ANALYZE);
  job ← on_ledger_denied (λ _, get_job (p_scope p) id);
  _ ← on_security (authorize audit_capacity p DOCUMENT_READ (RDocument (document_of_job job)));
  mret job.

(** [AuthorizedJobs.cancel] *)
Definition authorized_cancel (p : Principal) (id : uuid) : io job_row :=
  job ← authorized_get p id;
  s ← on_security (snapshot audit_capacity p [document_of_job job] DOCUMENT_DELETE);
  released s (cancel (p_scope p) id).

End Jobs.
End Jobs.

(** ** [AuthorizedPublication] and [AuthorizedAnalysis] *)

Section Services.
Context `{Runtime} `{Deployment} `{Decoder} `{Parses Plan} `{Parses ExtractionArtifact} `{Parses Checkpoint}.
Context `{Parses DigestArtifact} `{Parses Coverage} `{Parses PublicationManifest} `{Parses AnalysisOutput}.
Context `{EmbeddingModel} `{UnicodeData} `{Reranker}.
Context {T V I : Type} `{OS : !ObjectStore T} `{VS : !VectorStore V} `{BM : !Bm25 I}.

Abbreviation prog := (prog (world T V)).

(** The operations [run] accepts, with their arguments. *)
Inductive operation :=
| OpPlan (job_ids : list uuid)
| OpPrepare (generation : uuid) (cp : checkpoints)
| OpActivate (generation : uuid) (cp : checkpoints)
| OpRollback (generation : uuid) (expected : ActivePublication) (cp : checkpoints)
| OpRevoke (document_ids : list uuid) (cp : checkpoints)
| OpReconcile
| OpOther (name : string).

Inductive outcome :=
| Planned (m : PublicationManifest)
| Switched (a : ActivePublication)
| Reconciled (orphans : list value) (inactive : list uuid).

Definition dispatch (self : reader) (op : operation) (auth : option Principal) : prog outcome :=
  match op with
  | OpPlan ids => m ← service_plan self ids auth; mret (Planned m)
  | OpPrepare g cp => m ← service_prepare self g cp auth; mret (Planned m)
  | OpActivate g cp => a ← service_activate self g cp auth; mret (Switched a)
  | OpRollback g e cp => a ← service_rollback self g e cp auth; mret (Switched a)
  | OpRevoke ids cp => a ← service_revoke self ids cp auth; mret (Switched a)
  | OpReconcile => x ← service_reconcile self auth; mret (Reconciled x.1 x.2)
  | OpOther _ => throws SecurityDenied
  end.

(** [AuthorizedPublication.run] *)
Definition publication_run (self : reader) (p : Principal) (op : operation) : prog outcome :=
  _ ← demand (match op with OpOther _ => false | _ => true end) SecurityDenied;
  _ ← on_authorize p PUBLICATION_MANAGE;
  _ ← demand (bool_decide (tenant (p_scope p) = tenant (rd_scope self))) SecurityDenied;
  dispatch self op (Some p).

(** [authority.snapshot(principal, document_ids)] *)
Definition on_snapshot (p : Principal) (docs : list uuid) (a : Action) : prog AuthorizationSnapshot := λ w,
  let w1 := interfered w in
  let '(r, d) := snapshot audit_capacity p docs a (m_event (now w)) (m_clock (now w)) (w_security w1) in
  (match r with Ok s => Ok s | Err _ => Err SecurityDenied end,
   advance (w_authority w1) (w_objects w1) (w_vectors w1) d w1).

(** A [DocumentAnalysis] of the dictionary: the reader of its replica, and itself. *)
Record publication := { ps_reader : reader; ps_analyzer : @analyzer T V I }.

Variables (SYSTEM : text) (output_schema : json).

(** [GovernedExecution(provider, ...)] or [provider.bind(...)] for a snapshot. *)
Variable governed : publication → AuthorizationSnapshot → executor (T := T) (V := V).

Definition scopes_of (s : AuthorizationSnapshot) : list string :=
  remove_dups ((λ x, identity x.1.2) <$> sn_documents s).

(** [AuthorizedAnalysis.analyze]; [publications.get] finds the service of a scope. *)
Definition authorized_analyze (publications : string → option publication) (p : Principal)
    (rq : AnalysisRequest) : prog (Analysis * AuthorizationSnapshot) :=
  s ← on_snapshot p (Analysis.document_ids rq) DOCUMENT_ANALYZE;
  match scopes_of s with
  | [scope] =>
      match publications scope with
      | Some svc =>
          _ ← demand (bool_decide (identity (rd_scope (ps_reader svc)) = scope)) SecurityDenied;
          a ← Analysis.analyze (ps_reader svc) SYSTEM output_schema (ps_analyzer svc) rq (Some s)
                (Some (governed svc s));
          _ ← on_revalidate s;
          mret (a, s)
      | None => throws SecurityDenied
      end
  | _ => throws SecurityDenied
  end.

End Services.
