(* ===== verification/ServicesTheorems.v ===== *)
(** * What the authorized services guarantee

    Cancellation of a job happens only under an authorization that is in force while the
    ledger changes; an analysis never mixes owners and only quotes the caller's documents. *)

From Stdlib Require Import ZArith NArith QArith Lia.
From stdpp Require Import base tactics list strings option gmap.
From S2P Require Import Prelude Json Contracts JobModels JobLedger ProviderAdmission Governance Authority AuthorityTheorems Storage Extraction JobHistory.
From S2P Require Import DigestModels DigestPlanning DigestValidation DigestArtifacts DigestWorkflow DigestSteps.
From S2P Require Import Publication PublicationAuthority PublicationPlan PublicationAccepted Rag PublicationWorld PublicationService Retrieval Analysis.
From S2P Require Import PublicationRefinement RetrievalTheorems Citations Services Sample.

Local Open Scope Z_scope.

(** ** Jobs *)

Section Jobs.
Context `{Runtime} (cfg : JobSettings) (audit_capacity : Z).
Variable environment : nat → Jobs.moment.

Abbreviation jworld := Jobs.world.

(** Only calls of the other processes. *)
Definition others (cs : list call) : Prop :=
  ∀ c, c ∈ cs → ∃ i, c ∈ Jobs.m_ledger (environment i).

Lemma others_app cs cs' : others cs → others cs' → others (cs ++ cs').
Proof. intros H1 H2 c [Hc|Hc]%elem_of_app; eauto. Qed.

(** The ledger of [w'] comes from that of [w] by calls of the others. *)
Definition only_others (w w' : jworld) : Prop :=
  ∃ cs, others cs ∧ Jobs.ledger w' = run cfg cs (Jobs.ledger w).

Lemma only_others_refl w : only_others w w.
Proof. exists []. split; [|done]. by intros c Hc%not_elem_of_nil. Qed.

Lemma only_others_trans w w1 w' : only_others w w1 → only_others w1 w' → only_others w w'.
Proof.
  intros (cs & H1 & E1) (cs' & H2 & E2). exists (cs ++ cs'). split; [by apply others_app|].
  by rewrite run_app, <-E1.
Qed.

Lemma interfered_others w : only_others w (Jobs.interfered cfg audit_capacity environment w).
Proof. exists (Jobs.m_ledger (Jobs.now environment w)). split; [intros c Hc; by eexists|done]. Qed.

Lemma on_security_others {A} (f : uuid → (nat → Q) → sdb → result security_exn A * sdb) w r w' :
  Jobs.on_security cfg audit_capacity environment f w = (r, w') → only_others w w' ∧
  ∀ a, r = Ok a → ∃ e clk d, f e clk d = (Ok a, Jobs.security w').
Proof.
  unfold Jobs.on_security. set (w1 := Jobs.interfered _ _ _ w).
  destruct (f _ _ (Jobs.security w1)) as [x d] eqn:E. intros [= <- <-]. split.
  - destruct (interfered_others w) as (cs & ? & ?). by exists cs.
  - intros a Ha. destruct x as [b|]; [|done]. injection Ha as ->. eauto.
Qed.

Lemma ledger_tx_read (x : Z → ltx job_row) n d r d' :
  (∀ t, triple (λ d0, d0 = d) (x t) (λ _ d0, d0 = d)) → Jobs.ledger_tx n x d = (r, d') → d' = d.
Proof.
  intros Hx. unfold Jobs.ledger_tx. destruct n as [t|]; [|by intros [= _ <-]].
  unfold transaction. destruct (x t d) as [[a d1]|e] eqn:E; intros [= _ <-]; [|done].
  by apply (Hx t d eq_refl a d1).
Qed.

Lemma get_job_Ok sc id d j d' : get_job sc id d = Ok (j, d') →
  d' = d ∧ j ∈ jobs d ∧ job_id j = id ∧ j_scope j = identity sc.
Proof.
  unfold get_job, _job. intros E. tx_inv E. apply find_row_Some in E as [Hj Hp].
  unfold is_job in Hp. rewrite andb_true_iff, !bool_decide_eq_true in Hp. naive_solver.
Qed.

Lemma on_ledger_get p id w r w' :
  Jobs.on_ledger_denied cfg audit_capacity environment (λ _, get_job (p_scope p) id) w = (r, w') →
  only_others w w' ∧ ∀ j, r = Ok j → j ∈ jobs (Jobs.ledger w') ∧ job_id j = id ∧ j_scope j = identity (p_scope p).
Proof.
  unfold Jobs.on_ledger_denied. set (w1 := Jobs.interfered _ _ _ w).
  destruct (Jobs.ledger_tx _ _ (Jobs.ledger w1)) as [x d] eqn:E. intros [= <- <-].
  assert (d = Jobs.ledger w1) as ->.
  { eapply ledger_tx_read; [|exact E]. intros t d0 -> j d1 E1. by apply get_job_Ok in E1 as [-> _]. }
  split.
  - destruct (interfered_others w) as (cs & ? & ?). by exists cs.
  - intros j Hj. simpl. destruct x as [a|[]]; try done. injection Hj as ->.
    unfold Jobs.ledger_tx in E. destruct (Jobs.m_now _) as [t|]; [|done].
    apply transaction_Ok, get_job_Ok in E as [_ ?]. done.
Qed.

(** The authority allows the principal to delete the document, at this moment. *)
Definition may_delete (p : Principal) (doc : uuid) (d : sdb) : Prop :=
  ∃ me r, me ∈ principals d ∧ pr_owner me = owner (p_scope p) ∧ pr_disabled me = false ∧
    pr_tenant me = tenant (p_scope p) ∧ pr_identity me = _identity p ∧
    pr_permissions me = _permissions p ∧
    r ∈ documents d ∧ dr_document r = doc ∧ dr_state r = ACTIVE ∧ dr_tenant r = pr_tenant me ∧
    (dr_owner r = pr_owner me ∨ TENANT_ADMIN ∈ permissions p).

Lemma agrees_may_delete s doc d :
  agrees s d → doc ∈ (λ x, x.1.1) <$> sn_documents s → sn_action s = DOCUMENT_DELETE →
  may_delete (sn_principal s) doc d.
Proof.
  intros [_ Hd] ([[doc' sc] e] & -> & Hin)%list_elem_of_fmap Ha.
  destruct (Hd _ _ _ Hin) as (r & now & E & _). rewrite Ha in E.
  apply document_Ok in E as (_ & (me & Em) & _ & Hr & Ed & Et & Es & _ & Hacc).
  apply principal_Ok in Em as (_ & _ & _ & Hme & Eo & Edis & Eten & Eid & Eperm & _).
  exists me, r. split_and!; try done; [congruence|].
  destruct Hacc as [?|[?|[Hx _]]]; [left; congruence|by right|set_solver].
Qed.

Lemma get_others p id w r w' :
  Jobs.authorized_get cfg audit_capacity environment p id w = (r, w') → only_others w w' ∧
  ∀ j, r = Ok j → ∃ w1, only_others w w1 ∧ only_others w1 w' ∧
    j ∈ jobs (Jobs.ledger w1) ∧ job_id j = id ∧ j_scope j = identity (p_scope p).
Proof.
  unfold Jobs.authorized_get, mbind, Jobs.io_bind.
  destruct (Jobs.on_security _ _ _ _ w) as [[s|e] w1] eqn:E1; apply on_security_others in E1 as [H1 _];
    [|by intros [= <- <-]].
  destruct (Jobs.on_ledger_denied _ _ _ _ w1) as [[j|e] w2] eqn:E2; apply on_ledger_get in E2 as [H2 Hj].
  2: { intros [= <- <-]. split; [by eapply only_others_trans|done]. }
  destruct (Jobs.on_security _ _ _ _ w2) as [[u|e] w3] eqn:E3; apply on_security_others in E3 as [H3 _];
    intros [= <- <-]; (split; [by eapply only_others_trans; [eapply only_others_trans|]|]); [|done].
  intros j' [= <-]. destruct (Hj j eq_refl) as (? & ? & ?). exists w2.
  split_and!; try done. by eapply only_others_trans.
Qed.

(** C31: In all interleavings with other processes: a cancellation either leaves the ledger to
    the others, or changes it by exactly one [cancel] of a job of the caller's own scope,
    while the authority, locked against changes, allows the caller to delete the job's
    document: a registered, enabled principal of the document's tenant that owns it or
    administers the tenant. *)
Theorem cancel_authorized p id w r w' :
  Jobs.authorized_cancel cfg audit_capacity environment p id w = (r, w') →
  only_others w w' ∨
  ∃ w1 w2 j now, only_others w w1 ∧ only_others w1 w2 ∧
    j ∈ jobs (Jobs.ledger w1) ∧ job_id j = id ∧ j_scope j = identity (p_scope p) ∧
    Jobs.ledger w' = exec cfg (Jobs.ledger w2) (CancelJob (p_scope p) id now) ∧
    Jobs.security w' = Jobs.security w2 ∧
    may_delete p (Jobs.document_of_job j) (Jobs.security w').
Proof.
  unfold Jobs.authorized_cancel, mbind, Jobs.io_bind.
  destruct (Jobs.authorized_get _ _ _ p id w) as [[j|e] w1] eqn:E1; apply get_others in E1 as [H1 Hj];
    [|intros [= <- <-]; by left].
  destruct (Hj j eq_refl) as (w0 & H0 & H01 & Hin & Hid & Hsc). clear Hj.
  destruct (Jobs.on_security _ _ _ _ w1) as [[s|e] w2] eqn:E2; apply on_security_others in E2 as [H2 Hs].
  2: { intros [= <- <-]. left. eapply only_others_trans; [exact H1|exact H2]. }
  destruct (Hs s eq_refl) as (e & clk & d & Hsnap). clear Hs.
  apply snapshot_agrees in Hsnap as (_ & _ & Ep & Ea & Ed).
  unfold Jobs.released. set (w3 := Jobs.interfered _ _ _ w2). intros E.
  assert (only_others w w3) as H3.
  { eapply only_others_trans; [exact H1|]. eapply only_others_trans; [exact H2|]. apply interfered_others. }
  unfold release in E. destruct (_revalidate s _ (Jobs.security w3)) as [[u d']|x] eqn:Ev;
    [|injection E as <- <-; by left].
  set (m := Jobs.now environment w3) in *.
  assert (others (Jobs.m_ledger m)) as Hm by (intros c Hc; by eexists).
  destruct (Jobs.m_now m) as [t|]; cbn [Jobs.ledger_tx] in E; cycle 1.
  { injection E as <- <-. left. eapply only_others_trans; [exact H3|]. by exists (Jobs.m_ledger m). }
  destruct (transaction (cancel (p_scope p) id t) (run cfg (Jobs.m_ledger m) (Jobs.ledger w3)))
    as [x d1] eqn:Et. injection E as <- <-. right.
  exists w0, {| Jobs.security := Jobs.security w3;
    Jobs.ledger := run cfg (Jobs.m_ledger m) (Jobs.ledger w3); Jobs.ticks := Jobs.ticks w3 |}, j, t.
  split; [done|]. split.
  { eapply only_others_trans; [exact H01|]. eapply only_others_trans; [exact H2|].
    eapply only_others_trans; [apply interfered_others|]. by exists (Jobs.m_ledger m). }
  split_and!; try done; [cbn [Jobs.ledger exec]; by rewrite Et|]. rewrite <-Ep.
  eapply agrees_may_delete; [| |done].
  - eapply (revalidate_agrees s (Jobs.m_clock (Jobs.now environment w2))). unfold revalidate, release.
    cbn [Jobs.security]. subst w3. cbn [Jobs.security Jobs.interfered] in Ev. by rewrite Ev.
  - rewrite Ed. set_solver.
Qed.

End Jobs.

(** ** Analyses *)

Lemma revalidate_scopes `{Runtime} (s : AuthorizationSnapshot) clk d doc sc e :
  revalidate s clk d = Ok tt → (doc, sc, e) ∈ sn_documents s →
  tenant sc = tenant (p_scope (sn_principal s)).
Proof.
  unfold revalidate, release. destruct (_revalidate s clk d) as [[x d']|] eqn:E; [|done]. intros _ Hin.
  unfold _revalidate in E. apply tx_bind_Ok in E as ([] & d1 & E1 & E). tx_inv E1.
  apply tx_bind_Ok in E as (r & d2 & E2 & E). apply principal_Ok in E2 as (-> & _).
  apply tx_bind_Ok in E as ([] & d3 & E3 & E). tx_inv E3. clear E3.
  revert E Hin. generalize 1%nat. generalize (sn_documents s). intros l.
  induction l as [|[[doc' sc'] e'] l IH]; intros i E Hin; [by apply not_elem_of_nil in Hin|].
  simpl in E. apply tx_bind_Ok in E as (r' & d4 & E4 & E).
  apply document_Ok in E4 as (-> & _ & _ & _ & _ & Et & _).
  apply tx_bind_Ok in E as ([] & d5 & E5 & E). tx_inv E5.
  apply andb_true_iff in E5 as [_ E5%bool_decide_eq_true].
  apply elem_of_cons in Hin as [[= -> -> ->]|Hin]; [by subst|by eapply IH].
Qed.

Section Analyses.
Context `{Runtime} `{Deployment} `{Decoder} `{Parses Plan} `{Parses ExtractionArtifact} `{Parses Checkpoint}.
Context `{Parses DigestArtifact} `{Parses Coverage} `{Parses PublicationManifest} `{Parses AnalysisOutput}.
Context `{EmbeddingModel} `{UnicodeData} `{Reranker}.
Context {T V I : Type} `{OS : !ObjectStore T} `{VS : !VectorStore V} `{BM : !Bm25 I}.
Variables (SYSTEM : text) (output_schema : json).
Variable governed : publication (T := T) (V := V) (I := I) → AuthorizationSnapshot → executor (T := T) (V := V).

Lemma on_snapshot_Ok p docs a w s w' :
  on_snapshot (T := T) (V := V) p docs a w = (Ok s, w') →
  sn_principal s = p ∧ (λ x, x.1.1) <$> sn_documents s = docs.
Proof.
  unfold on_snapshot. destruct (snapshot _ _ _ _ _ _ _) as [[s'|] d] eqn:E; [|done].
  intros [= -> _]. apply snapshot_agrees in E as (_ & _ & ? & _ & ?). done.
Qed.

Lemma steady_snapshot p docs a : steady (on_snapshot (T := T) (V := V) p docs a).
Proof.
  intros w. unfold on_snapshot.
  destruct (snapshot audit_capacity p docs a (m_event (now w)) (m_clock (now w)) (w_security (interfered w)))
    as [r d] eqn:E.
  etrans; [apply follows_interfered|]. split; simpl; [by exists []|by exists []| |done].
  exists [CSnapshot p docs a (m_event (now w)) (m_clock (now w))]. simpl in E |- *. by rewrite E.
Qed.

(** The steps of an analysis that returns. *)
Lemma authorized_inner publications p rq w a s w' :
  authorized_analyze SYSTEM output_schema governed publications p rq w = (Ok (a, s), w') →
  ∃ svc w1 w2, follows w w1 ∧ publications (identity (rd_scope (ps_reader svc))) = Some svc ∧
    scopes_of s = [identity (rd_scope (ps_reader svc))] ∧
    sn_principal s = p ∧ (λ x, x.1.1) <$> sn_documents s = Analysis.document_ids rq ∧
    analyze (ps_reader svc) SYSTEM output_schema (ps_analyzer svc) rq (Some s) (Some (governed svc s)) w1 = (Ok a, w2) ∧
    revalidate s (m_clock (now w2)) (w_security (interfered w2)) = Ok tt ∧ w' = interfered w2.
Proof.
  unfold authorized_analyze. intros E. apply prog_bind_Ok in E as (s1 & w1 & E1 & E).
  pose proof (steady_run _ _ _ _ (steady_snapshot _ _ _) E1) as Hf. apply on_snapshot_Ok in E1 as [Ep Ed].
  destruct (scopes_of s1) as [|scope [|]] eqn:Es; [done| |done].
  destruct (publications scope) as [svc|] eqn:Ek; [|done].
  apply prog_bind_Ok in E as ([] & w2 & E2 & E). apply demand_Ok in E2 as [E2%bool_decide_eq_true ->].
  apply prog_bind_Ok in E as (x & w3 & E3 & E). apply prog_bind_Ok in E as ([] & w4 & E4 & E).
  apply prog_ret_Ok in E as [[= -> ->] ->]. apply on_revalidate_Ok in E4 as [E4 ->].
  exists svc, w1, w3. rewrite E2. done.
Qed.

(** C30: An authorized analysis that returns ran on the service found for the one owner of its
    documents: the documents are the requested ones, all in the caller's tenant and in the scope
    of that service and of the manifest its replica serves, whose generation the answer names.
    Every citation quotes, in a requested document of that manifest, an artifact that the object
    store held when the citation was made: in a world the call reached from its start and, if the
    executor of the language model only adds to the stores, from which it reached its end.  The
    authorization it returns with was in force after the answer was complete. *)
Theorem analysis_single_owner publications p rq w a s w' :
  authorized_analyze SYSTEM output_schema governed publications p rq w = (Ok (a, s), w') →
  ∃ svc (pin : PinnedRequest I) (wc : world T V),
    publications (identity (rd_scope (ps_reader svc))) = Some svc ∧
    sn_principal s = p ∧ (λ x, x.1.1) <$> sn_documents s = Analysis.document_ids rq ∧
    (∀ doc sc e, (doc, sc, e) ∈ sn_documents s →
       tenant sc = tenant (p_scope p) ∧ identity sc = identity (rd_scope (ps_reader svc)) ∧
       sc = pm_scope (pin_manifest pin)) ∧
    (∃ index, rp_snapshot (an_replica (ps_analyzer svc)) = Some (pin_manifest pin, index)) ∧
    an_generation a = Publication.generation (pin_manifest pin) ∧
    (∀ k, k ∈ pin_documents pin ↔ k ∈ Analysis.document_ids rq) ∧
    follows w wc ∧
    Forall (λ c, ∃ item, quotes (pin_manifest pin) (pin_documents pin) wc item c) (an_citations a) ∧
    ((∀ g, steady (governed svc s g)) → follows wc w') ∧
    agrees s (w_security w').
Proof.
  intros (svc & w1 & w2 & Hf & Ek & Es & Ep & Ed & E3 & E4 & ->)%authorized_inner.
  apply answers_cite_sources in E3 as (pin & wc & [_ Hsnap Hpin Hsc Hgen _ Hb Hq _ _] & Hend).
  exists svc, pin, wc. split_and!; try done.
  - intros doc sc e Hin. split_and!; [rewrite <-Ep; by eapply revalidate_scopes| |by apply (Hsc s (doc, sc, e))].
    assert (identity sc ∈ scopes_of s) as Hs.
    { unfold scopes_of. apply elem_of_remove_dups, list_elem_of_fmap. by exists (doc, sc, e). }
    rewrite Es in Hs. by apply list_elem_of_singleton in Hs.
  - by etrans.
  - intros Hg. etrans; [by apply Hend|apply follows_interfered].
  - by eapply revalidate_agrees.
Qed.

End Analyses.

(** ** A concrete cancellation *)

(** The owner of the sample job, registered with its document. *)
Definition job_owner : Principal := {|
  issuer := cps "iss"; subject := cps "owner"; tenant_identity := cps "t"; p_scope := sample_scope;
  permissions := [PUBLICATION_MANAGE]; p_kind := user; expires := 100 |}.

Definition job_world : Jobs.world := {|
  Jobs.security := @srun sample_runtime 100
    [CRegister job_owner "e1" clock0; CRegisterDocument job_owner "doc-1" sample_scope "e2" "x2" clock0];
  Jobs.ledger := admitted_db; Jobs.ticks := 0 |}.

(** Audit identifiers by tick; while the cancellation waits, a worker claims the step. *)
Definition job_moments (i : nat) : Jobs.moment := {|
  Jobs.m_security := []; Jobs.m_clock := clock0; Jobs.m_event := of_cps [N.of_nat i]; Jobs.m_now := Some 3000;
  Jobs.m_ledger := if (i =? 5)%nat
                   then [JobHistory.Claim sample_scope (sample_ids 0) (sample_ids 2) "worker" 2000] else [] |}.

Abbreviation sample_cancel :=
  (@Jobs.authorized_cancel sample_runtime sample_settings 100 job_moments job_owner (sample_ids 0) job_world).

Lemma cancel_authorized_witness :
  @only_others sample_runtime sample_settings job_moments job_world sample_cancel.2 ∨
  ∃ w1 w2 j now, @only_others sample_runtime sample_settings job_moments job_world w1 ∧
    @only_others sample_runtime sample_settings job_moments w1 w2 ∧
    j ∈ jobs (Jobs.ledger w1) ∧ job_id j = sample_ids 0 ∧
    j_scope j = identity (p_scope job_owner) ∧
    Jobs.ledger sample_cancel.2
      = @exec sample_runtime sample_settings (Jobs.ledger w2) (JobHistory.CancelJob (p_scope job_owner) (sample_ids 0) now) ∧
    Jobs.security sample_cancel.2 = Jobs.security w2 ∧
    @may_delete sample_runtime job_owner (Jobs.document_of_job j) (Jobs.security sample_cancel.2).
Proof.
  exact (@cancel_authorized sample_runtime sample_settings 100 job_moments job_owner (sample_ids 0) job_world
    _ _ (surjective_pairing sample_cancel)).
Defined.

(** The job is cancelled. *)
Example sample_cancelled : match sample_cancel.1 with Ok j => cancel_requested j | Err _ => false end = true.
Proof. vm_compute. reflexivity. Qed.
