(* ===== verification/PublicationRun.v ===== *)
(** * A document published, served, cited and analysed

    The service, a replica and an analysis run on the accepted sample document, with a vector
    store, token index and encoder written here; the theorems on publications apply to the run. *)

From Stdlib Require Import ZArith NArith QArith Lia.
From stdpp Require Import base tactics list strings option gmap.
From S2P Require Import Prelude Json Contracts JobModels JobLedger Sample ProviderAdmission Authority AuthorityTheorems Storage Extraction.
From S2P Require Import DigestModels DigestPlanning DigestPlanTheorems DigestValidation DigestArtifacts DigestWorkflow DigestSteps.
From S2P Require Import Publication PublicationAuthority PublicationPlan PublicationPlanTheorems PublicationAccepted PublicationSourceWitness.
From S2P Require Import Rag PublicationWorld PublicationService Retrieval Analysis PublicationRefinement RetrievalTheorems Citations PublicationTheorems.
From S2P Require Import Services ServicesTheorems.
From S2P Require Inference.

Local Open Scope Z_scope.

#[local] Existing Instance sample_runtime.
#[local] Existing Instance PublicationPlanTheorems.sample_model.
#[local] Existing Instance known_plan.
#[local] Existing Instance known_artifact.
#[local] Existing Instance known_checkpoint.
#[local] Existing Instance known_digest.
#[local] Existing Instance known_coverage.

(** ** The parts that are not the program's own *)

#[local] Instance local_deployment : Deployment := {|
  oidc_jwt := false; audit_capacity := 100; datetime_text := dumps_int; set_order := λ l, l |}.
#[local] Instance ascii_data : UnicodeData := {| str_lower := lower; is_word := ascii_alnum |}.
#[local] Instance flat_reranker : Reranker := {| predict := λ _ docs, (λ _, 0%Q) <$> docs |}.

(** Rows in insertion order; every search finds the first of its scope. *)
Definition row_in (scope : option VectorFilter) (r : string * VectorDocument) : bool :=
  match scope with
  | None => true
  | Some f =>
      bool_decide (get "generation" (vd_metadata r.2) = VStr (cps (vf_generation f)))
      && (bool_decide (vf_document_ids f = [])
          || existsb (λ k, bool_decide (get "document_id" (vd_metadata r.2) = VStr (cps k))) (vf_document_ids f))
  end.

#[local] Instance list_vectors : VectorStore (list (string * VectorDocument)) := {|
  similarity_search := λ _ n scope v,
    (Ok ((λ r : string * VectorDocument,
            {| vm_document := vd_document r.2; vm_metadata := vd_metadata r.2; distance := 1 # 2 |})
           <$> take (Z.to_nat n) (List.filter (row_in scope) v)), v);
  list_documents := λ scope v, (Ok (List.filter (row_in scope) v).*2, v);
  upsert := λ id t _ md v,
    (Ok tt, List.filter (λ r, negb (bool_decide (r.1 = id))) v ++ [(id, {| vd_document := t; vd_metadata := md |})]) |}.

#[local] Instance counting_bm25 : Bm25 (list (list text)) := {|
  bm25_build := Some;
  get_scores := λ corpus q,
    (λ ts, inject_Z (len (List.filter (λ t, bool_decide (t ∈ q)) ts))) <$> corpus |}.

(** ** The manifest and the answer, and how they are decoded *)

Definition the_reader : reader := {| rd_scope := sample_scope; rd_profile := small_profile |}.

Definition outcome_list {A} (x : result exn A * local_store) : list A := match x.1 with Ok a => [a] | Err _ => [] end.

Definition accepted_rows : list (AcceptedDocument * list RetrievalRecord) :=
  outcome_list accepted_run ≫= λ x,
    match job_records the_reader x with
    | Ok rs => [(x.1.1.1, rs)]
    | Err _ => []
    end.

Definition no_manifest : PublicationManifest := {|
  Publication.generation := EmptyString; pm_scope := sample_scope; pm_base := active_row empty_pdb;
  pm_profile := small_profile; pm_documents := []; pm_records := []; removed_versions := [] |}.

Definition the_manifest : PublicationManifest :=
  Eval vm_compute in default no_manifest (plan_manifest sample_scope (active_row empty_pdb) small_profile None accepted_rows).

Definition manifest_bytes : text := Eval vm_compute in canonical (manifest_json the_manifest).
Definition the_generation : uuid := Eval vm_compute in Publication.generation the_manifest.

Definition the_output : AnalysisOutput := {|
  answer := cps "As quoted."; evidence_status := ev_available; citation_ids := [cps "C1"] |}.
Definition reply_text : text := cps "{answer}".
Definition reply_json : json := JObj [("answer", JStr (answer the_output))].

#[local] Instance run_decoder : Decoder := {|
  json_loads := λ hook t,
    if text_eqb t manifest_bytes then Ok (manifest_json the_manifest)
    else if text_eqb t reply_text then Ok reply_json
    else @json_loads known_decoder hook t;
  stage_result_validate := @stage_result_validate known_decoder |}.
#[local] Instance run_manifest : Parses PublicationManifest := parse_table manifest_json [the_manifest].
#[local] Instance run_output : Parses AnalysisOutput := λ v, if json_eqb v reply_json then Ok the_output else Err "json_decode".

(** ** The run *)

Abbreviation the_world := (world local_store (list (string * VectorDocument))).
Abbreviation the_replica := (replica (list (list text))).

Definition quiet (sec : list scall) : moment (list (string * VectorDocument)) := {|
  m_calls := []; m_security := sec; m_objects := []; m_vectors := λ v, v; m_view := done_view;
  m_clock := clock0; m_event := "event" |}.

Definition outcome {A} (x : A) (r : result pub_exn A * the_world) : A := match r.1 with Ok a => a | Err _ => x end.

Definition start_world : the_world := {|
  w_authority := empty_pdb; w_objects := done_store; w_vectors := []; w_security := srun 100 [];
  w_outside := λ _, quiet []; w_time := 0 |}.

Definition prepared_world : the_world :=
  Eval vm_compute in
  foldl (perform (I := list (list text)) the_reader) start_world
    [MPlan ["job-1"] None; MPrepare the_generation no_checkpoint None].

Abbreviation activation :=
  (service_activate (I := list (list text)) the_reader the_generation no_checkpoint None prepared_world).
Definition active_world : the_world := Eval vm_compute in activation.2.

Definition unloaded : the_replica := {| expected_version := the_generation; rp_snapshot := None; rp_sparse := [] |}.
Definition serving_replica : the_replica :=
  Eval vm_compute in outcome unloaded (replica_load the_reader unloaded active_world).

Definition no_pin : PinnedRequest (list (list text)) := {|
  pin_manifest := no_manifest; pin_index := None; pin_documents := []; pin_authorization := None; pin_sparse := [] |}.
Definition the_pin : PinnedRequest (list (list text)) :=
  Eval vm_compute in outcome no_pin (replica_pin the_reader serving_replica (Some ["doc-1"]) None active_world).

Definition the_query : text := cps "alpha".
Abbreviation found := (replica_retrieve the_reader the_query the_pin 8 None active_world).

Definition the_capability : Inference.CapabilityProfile := {|
  Inference.cap_version := "cap/1"; Inference.context_tokens := 100000; Inference.max_output_tokens := 4096;
  Inference.overhead_tokens := 100; Inference.safety_tokens := 100;
  Inference.structured_output := Inference.so_prompt; Inference.output_parameter := Inference.op_max_tokens; Inference.streaming := true; Inference.usage_reporting := false; Inference.temperature := None; Inference.response_models := []; Inference.reasoning_effort := None; Inference.schema_profile := None |}.

Definition the_analyzer : analyzer (T := local_store) (V := list (string * VectorDocument)) (I := list (list text)) := {|
  an_replica := serving_replica; an_provider := λ _, mret reply_text; an_capability := the_capability;
  an_input_bytes := 48000; an_output_tokens := 2048; an_reranker := None |}.

Definition the_request : AnalysisRequest := {| query := the_query; document_ids := ["doc-1"] |}.

(** The owner of the document, registered, and the world in which it asks. *)
Definition document_owner : Principal := {|
  issuer := cps "iss"; subject := cps "owner"; tenant_identity := cps "t"; p_scope := sample_scope;
  permissions := [PUBLICATION_MANAGE]; p_kind := user; expires := 100 |}.

Definition owned_world : the_world := {|
  w_authority := w_authority active_world; w_objects := w_objects active_world;
  w_vectors := w_vectors active_world;
  w_security := srun 100 [CRegister document_owner "e1" clock0;
                          CRegisterDocument document_owner "doc-1" sample_scope "e2" "x2" clock0];
  w_outside := w_outside active_world; w_time := w_time active_world |}.

Definition the_publication : publication (T := local_store) (V := list (string * VectorDocument)) (I := list (list text)) :=
  {| ps_reader := the_reader; ps_analyzer := the_analyzer |}.

Definition the_publications (scope : string) : option publication :=
  if bool_decide (scope = identity sample_scope) then Some the_publication else None.

Abbreviation analysed :=
  (authorized_analyze [] JNull (λ svc _, an_provider (ps_analyzer svc)) the_publications document_owner
     the_request owned_world).

Definition ran_ok {A} (x : result pub_exn A * the_world) : bool := match x.1 with Ok _ => true | Err _ => false end.

Definition citations_in (r : result pub_exn (Analysis * AuthorizationSnapshot)) : list Citation :=
  match r with Ok x => an_citations x.1 | Err _ => [] end.

(** Everything returns, with items, citations and an answer. *)
Lemma activation_computed : ran_ok activation = true.
Proof. vm_compute. reflexivity. Qed.

Lemma found_computed : length (outcome [] found) = 2%nat.
Proof. vm_compute. reflexivity. Qed.

Lemma analysed_computed : length (citations_in analysed.1) = 1%nat.
Proof. vm_compute. reflexivity. Qed.

Lemma ran_ok_run {A} (r : result pub_exn A * the_world) : ran_ok r = true → ∃ a w, r = (Ok a, w).
Proof. destruct r as [[a|e] w]; [by exists a, w|intros E; discriminate E]. Qed.

Lemma outcome_run {A} (r : result pub_exn (list A) * the_world) n :
  length (outcome [] r) = S n → ∃ l w, r = (Ok l, w) ∧ l ≠ [].
Proof. destruct r as [[[|x l]|e] w]; [intros E; discriminate E| |intros E; discriminate E]. intros _. by exists (x :: l), w. Qed.

Lemma citations_run (r : result pub_exn (Analysis * AuthorizationSnapshot) * the_world) n :
  length (citations_in r.1) = S n → ∃ x s w, r = (Ok (x, s), w).
Proof. destruct r as [[[x s]|e] w]; [by exists x, s, w|intros E; discriminate E]. Qed.

(** ** The theorems at this run *)

Lemma activation_validated_witness :
  ∃ r w', activation = (Ok r, w') ∧
    managed the_reader None prepared_world w' ∧ generation_of r = Some the_generation ∧
    active_row (w_authority w') = r ∧
    ∃ m wa wb, follows prepared_world wa ∧ generation_valid the_reader the_generation m wa wb ∧ follows wb w'.
Proof.
  destruct (ran_ok_run activation activation_computed) as (r & w' & E). exists r, w'. split; [exact E|].
  exact (activation_validated (I := list (list text)) the_reader the_generation (active_row empty_pdb) no_checkpoint None
           prepared_world r w' (or_introl E)).
Defined.

Lemma retrieval_confined_witness :
  ∃ items w', found = (Ok items, w') ∧ items ≠ [] ∧
    len items ≤ 8 ∧ NoDup (get "record_id" <$> items) ∧
    Forall (served (pin_manifest the_pin) (pin_documents the_pin)) items.
Proof.
  destruct (outcome_run _ _ found_computed) as (items & w' & E & Hne). exists items, w'.
  split; [exact E|]. split; [exact Hne|].
  destruct (retrieval_confined the_reader the_query the_pin 8 None active_world items w' E Hne) as (C1 & C2 & C3 & _).
  split; [exact C1|]. split; [exact C2|exact C3].
Defined.

(** The citation quotes what the store still holds at the end. *)
Lemma analysis_single_owner_witness : ∃ x s w', analysed = (Ok (x, s), w') ∧
  length (an_citations x) = 1%nat ∧ (λ d, d.1.1) <$> sn_documents s = ["doc-1"] ∧ agrees s (w_security w') ∧
  ∃ pin : PinnedRequest (list (list text)),
    Forall (λ c, ∃ item, quotes (pin_manifest pin) (pin_documents pin) w' item c) (an_citations x).
Proof.
  pose proof analysed_computed as Hn. destruct (citations_run _ _ analysed_computed) as (x & s & w' & E).
  rewrite E in Hn. exists x, s, w'. split; [exact E|]. split; [exact Hn|].
  destruct (analysis_single_owner [] JNull (λ svc _, an_provider (ps_analyzer svc)) the_publications document_owner
              the_request owned_world x s w' E)
    as (svc & pin & wc & Hk & _ & Hd & _ & _ & _ & _ & _ & Hq & Hend & Ha).
  split; [exact Hd|]. split; [exact Ha|]. exists pin.
  assert (svc = the_publication) as -> by (unfold the_publications in Hk; case_bool_decide; congruence).
  eapply Forall_impl; [exact Hq|]. intros c [item Hc]. exists item. eapply quotes_follows; [|exact Hc].
  apply Hend. intros g w0. reflexivity.
Defined.

(** Alice revoked her grant to Bob and granted it anew; Bob's request was pinned before. *)
Definition revoking : scall := CShare alice "doc" (owner (p_scope bob)) true "g2" "e6" "x6" clock0.
Definition regranting : scall := CShare alice "doc" (owner (p_scope bob)) false "g3" "e7" "x7" clock0.

Definition revoked_world : the_world := {|
  w_authority := empty_pdb; w_objects := done_store; w_vectors := [];
  w_security := foldl (sexec 100) sample_taken.2 ([] ++ revoking :: [regranting]);
  w_outside := λ _, quiet []; w_time := 0 |}.

Definition bobs_pin : PinnedRequest (list (list text)) := {|
  pin_manifest := the_manifest; pin_index := None; pin_documents := ["doc"];
  pin_authorization := Some sample_snapshot; pin_sparse := [] |}.

Lemma revoked_never_served_witness :
  (∀ q k rr, ∃ e w', replica_retrieve the_reader q bobs_pin k rr revoked_world = (Err e, w')) ∧
  (∀ items, ∃ e w', replica_citations the_reader bobs_pin items revoked_world = (Err e, w')) ∧
  ∃ e w', replica_annotations the_reader bobs_pin revoked_world = (Err e, w').
Proof.
  apply (revoked_never_served the_reader bob ["doc"] DOCUMENT_ANALYZE "e5" clock0 sample_scalls [] revoking [regranting]
           sample_snapshot sample_taken.2 "doc").
  - vm_compute. reflexivity.
  - by left.
  - apply (@rv_unshare sample_runtime 100 bob "doc" _ alice "g2" "e6" "x6" clock0 "g1").
    + vm_compute. reflexivity.
    + intros r Hr _. vm_compute in Hr. apply list_elem_of_singleton in Hr as ->. vm_compute. discriminate.
    + apply not_elem_of_nil.
  - reflexivity.
  - reflexivity.
  - discriminate.
Defined.
